(* ===== verification/_CoqProject ===== *)
-Q . S2P
Prelude.v
PyStr.v
Regex.v
Sha256.v
PyRepr.v
Glob.v
PyVal.v
Canonical.v
Shlex.v
AuditGuard.v
AuditChain.v
Policy.v
PlanRepo.v
PlanContract.v
Matching.v
BGate.v
Identity.v
Execution.v
SkillBundle.v
Privacy.v
Bus.v
PolicyGate.v
GateService.v
Orchestrator.v
PyTime.v
Rational.v
PyCmp.v
Float64.v
Did.v
Grs.v
Evidence.v
Experiment.v
Binding.v
Intake.v
QualityGates.v
Qeeg.v
RunnerGuards.v
AgentRunner.v
ClaimLedger.v
Schedule.v
MeasurementStore.v
Confirmation.v
ConfirmedConsumer.v
Pipeline.v
MeasurementWorkflow.v
