(* ===== verification/Prelude.v ===== *)
(** * SAENA RAPID-7: the decision core

    A model of the parts of SAENA RAPID-7 that decide: who may approve a
    change plan and when it may run, which commands an agent may execute, what an
    audit record may hold and how the ledger shows tampering, when a deployment
    starts the measurement clock and when a measured effect counts, which tenant
    a request runs as, and which skill files an agent may load.

    ** The program and the files of the development

    Paths are under src/packages/domain/src/saena_domain unless they say
    otherwise.

    - [Prelude]: results and exceptions ([result E A] is a call that returns or
      raises), the state-and-error monad [M S E A] of the request handlers
      (writes before a raise stay), automation, list lemmas.
    - [PyStr]: Python strings as lists of code points; strip, split, join,
      sorted, UTF-8, decimal numerals.  [UnicodeDB] is the interface to the
      Unicode tables (NFKC, casefold, lower), with the ASCII facts relied on.
    - [Regex]: regular expressions by derivatives; [fullmatch], [match] (with
      its [$] before a final line feed) and [search], each against the
      language of the expression.
    - [Sha256]: [hashlib.sha256], executable, checked on the standard vectors.
    - [PyVal], [Canonical] (audit/canonical.py): JSON-shaped values and
      [json.dumps] with sorted keys; unique readability of the text.
    - [AuditGuard] (audit/guard.py): the forbidden-data walk.
    - [AuditChain] (audit/chain.py, hashing.py, lineage.py): ledger entries,
      the hash chain, its verification, append, lineage references.
    - [Policy] (policy/): plan states, H-3, H-7, [transition] and its guards.
    - [PlanRepo] (persistence/memory.py): the tenant-indexed plan, state and
      decision stores.
    - [PlanContract] (src/services/foundation/plan-contract-service): the
      handlers of app.py over [PlanRepo], [Policy], the policy gate (a function
      that may raise) and the event port (class [EventPort]).
    - [Matching], [BGate] (measurement/b_gate.py): maximum matching by
      augmenting paths and the PASS / FAIL / UNDETERMINED verdict.
    - [Identity] (identity/, the tenant repository of persistence/memory.py):
      tenant ids, gated contexts, request reconciliation, context binding.
    - [Privacy] (privacy/): the k-anonymity gate, the de-identification status
      and the publish guard of aggregate envelopes.
    - [Bus] (bus/, the outbox and idempotency store of persistence/memory.py):
      recording, draining to a publisher with dead letters, consuming once.
    - [Execution] (execution/, authz/rbac.py): job lifecycle, limits, job
      context, job error, role matrix.
    - [SkillBundle] (execution/skill_bundle.py): path normalisation, the framed
      manifest and its hash, the pin check and the reader.
    - [Shlex]: [shlex.split] in POSIX mode, with its inverse on quoted words.
    - [PolicyGate] (engine.py and rules.py of
      src/services/foundation/policy-gate-service): the command classifier,
      pipelines, allow rules and the default-deny engine.
    - [GateService] (service.py, errors.py, problem.py, tenant_middleware.py and
      app.py of the same service): the fail-closed choke point over [PolicyGate]
      and [Policy.evaluate_h3_evidence_policy], recording through the decision
      store of [PlanRepo], behind the tenant check of [Identity].
    - [Orchestrator] (src/services/platform/agent-orchestrator-service): the
      execution workflow, which validates each approval signal again with
      [Policy.transition], as events of a coroutine.
    - [PyTime]: aware and naive datetimes with their zones, durations, and the
      timestamps of the contracts.
    - [Rational]: exact fractions, [limit_denominator] and the decimal rounding
      of Python's [decimal] contexts; [PyCmp]: [<=] and [>=] between Python
      values.
    - [Float64]: binary64 products, quotients and sums, and [format] with a fixed
      number of decimals.
    - [Did] (measurement/did.py): the difference-in-differences estimator over
      binary64 inputs; [Grs] (measurement/grs.py): the readiness policy bundle
      and its decision.
    - [Evidence] (measurement/evidence.py): evidence entries and their guards,
      the commitment chain, sealed manifests and their verification.
    - [Experiment] (experiment/): registrations, their content fingerprint, the
      hash-chained append-only ledger.
    - [Binding] (measurement/binding.py): a measured submission against its
      registration.
    - [Intake] (intake.py of
      src/services/experimentation/strategy-skill-bank-service): whether an experience card
      is admitted to the skill bank, with the reasons of a rejection.
    - [QualityGates] (src/services/platform/quality-eval-service): the gates over
      a patch, the redaction of tool output, the evaluation of a run, its result
      rows, events and audit record, and the status of the job.
    - [PyRepr], [Glob]: [repr] of strings, [fnmatch].
    - [RunnerGuards], [AgentRunner] (src/services/platform/agent-runner-service):
      the approval, path and command guards, and the run of approved patch units
      over ports that may answer anything, recorded in [AuditChain] and gated by
      [SkillBundle].
    - [Qeeg] (qeeg/): the replay of claim and evidence facts into the graph of
      questions, entities and evidence.
    - [ClaimLedger] (src/services/intelligence/claim-evidence-service): when a
      claim may be published, the chained ledger of claims and evidence, its
      store and its projection into [Qeeg].
    - [Schedule] (measurement_scheduling.py of
      src/services/acquisition/chatgpt-observer-service): observation slots over
      a window under a rate policy, and the observer that replays fixtures.
    - [MeasurementStore] (measurement/ports.py): confirmations, windows,
      decisions and evidence bundles in write-once stores, and the journal.
    - [Confirmation] (measurement/confirmation.py, clock.py): the guards that
      accept a deployment confirmation and the window that an acceptance starts.
    - [ConfirmedConsumer] (boundary/confirmed_consumer.py of
      src/services/experimentation/experiment-attribution-service): one
      confirmation message, validated by [Confirmation], stored in
      [MeasurementStore], signalled to the workflow.
    - [Pipeline] (pipeline/ of the same service): [run_measurement], the
      composition of [Grs], [Binding], [Confirmation], [Did], [BGate], [Evidence]
      and [MeasurementStore]; the mutable run state is passed from step to step.
    - [MeasurementWorkflow] (workflow/ of the same service): the durable
      coroutine that waits for the confirmation, derives the window, waits for
      its end and schedules the decision, as a step relation.

    ** How state and operations correspond

    A Python exception is a constructor of the component's exception type, an
    early [raise] a [raise_if] in the order of the source.  A dictionary is a
    [gmap], or a list of items where its order shows.  A store that a handler
    writes is a field of its state record; a method that holds one lock is one
    function of that state.  A request handler of the plan-contract service is
    one computation of [M World app_exn], run to its end before the next; its
    sequences of requests are the runs over which the service's theorems
    quantify.  The measurement workflow is a coroutine: its state is its fields
    and the wait it is in, and an event is a signal, a completed activity, the
    passage of time or a resumption, in any interleaving.  Text and byte lengths, float comparisons (binary64, [SpecFloat])
    and integers are those of Python.

    ** What the theorems show

    - Approval: a passing execution check implies a recorded quorum of distinct
      approvers other than the recorded proposer, after any sequence of
      requests; each handler refines one step of an abstract approval service;
      after an allowed quorum the execution check passes, whatever the event port
      does; a gate that never allows changes
      nothing; a settled plan stays settled until it is proposed again.
      A proposal resets its plan whatever its state: re-proposing a settled plan
      reopens it and replaces its proposer, so its author can then approve it
      ([PlanContract.Witness.repropose_reopens_and_launders]).
    - Commands: a denied command stays denied, whatever the rules, under the
      wrappers and options of [PolicyGate.manual], a grammar written from the
      manuals of the utilities and not from the tables of the classifier; the
      classification ends; a pipeline is denied exactly by a stage or by a fetch
      tool that feeds a shell; what no rule matches is denied.  The ways around
      the classifier that were found are examples of [PolicyGate.Witness].  The gate service answers allow exactly when the
      approval is recorded, and answers every request.
    - Execution: in any interleaving of start, signals and activity events the
      workflow schedules at most the activity of its input, and only after a
      signal that approves with a quorum; such a signal reaches execution,
      before or after the start, while the plan waits for approval; a plan
      settled otherwise is a dead end.  Snapshots under another hash than the
      signal's are not refused ([Orchestrator.snapshot_under_another_hash]).
    - Patch units: whatever the worktrees, the file system, the executor and
      the gateway answer, a run does nothing but what its approval, the contract
      and the guards permit, each effect in the worktree of its own approved
      unit; that the expected hash is the contract's is up to the caller; a unit that returns is a transaction, recorded once.
      What an exception of a port leaves behind is in [AgentRunner.Witness].
    - Measurement clock: a confirmation is accepted exactly under its guards; one
      acceptance per key in any history; the window is exact at fixed offsets
      (an hour off in a zone whose clocks change,
      [Confirmation.Witness.spring_window_is_an_hour_short]); what the consumer
      signals is what the store holds; the workflow keeps its first
      confirmation, schedules no decision before the end of the window or after
      an abort, and makes at most six steps; a bound, open run that was not aborted
      can be brought to its outcome when its window derivation answers.
      The stores never change a stored value, and their journal rebuilds them.
    - Measured effect: a run is PASS exactly on its grounds (no contradicted
      confirmation, readiness, a bound submission, an elapsed window, provenance,
      full measurements, two independent lifts), and a returned outcome is
      settled: replaying the run returns it and writes nothing.  The estimator
      reports each code exactly for its reason in the raw observations and answers
      on every well-formed input; a common trend cancels; readiness is eligible exactly when every
      threshold is cleared.  Registrations form a ledger with one entry per
      experiment; a submission binds exactly to the registered design, and the
      hashes of manifests and ledgers commit to their contents.  What the
      pipeline lets through is in [Pipeline.Witness].
    - Admission: a card is admitted exactly with its required fields, a PASS and
      an intact manifest under the claimed hash, and no forbidden datum at any
      depth; a rejection lists exactly the reasons that have a ground.
    - Quality gates: on sensible counts every gate answers, each once, passing
      exactly on its criterion, which is stated on the raw outcomes; a patch is promoted exactly when all of
      them pass; a matched secret leaves in no row, event or record, and no text
      of a failure exceeds 214 characters.
    - Claims: after any requests a claim is publishable exactly when some of its
      evidence in the ledger was linked and fresh when the store last evaluated
      it; the ledger verifies, holds one content per id and evidence only after
      its claim, and sees no request of another key; the graph projection always
      succeeds and shows exactly the ledger.  What the chain does not seal is
      proved next to it ([ClaimLedger.deletion_is_not_seen]).
    - Observation: a schedule is built exactly when its slots fit the window;
      any interval of 24 hours holds at most the daily cap, slots keep their gap
      and lanes, and the concurrency quota holds under its documented
      precondition; fixtures are replayed slot by slot and production never is.
    - Policy: H-7 counts exactly the distinct approving identities other than
      the proposer; [transition] computes the decision step; terminal states
      are final; a plan that passes H-3 keeps its budgets and its root.
    - Stores: tenants cannot see or change each other's plans; decisions are
      append-only, one per identity.
    - Ledger: verification decides integrity and names the first bad entry;
      append preserves it and is total on well-formed requests; two verified
      ledgers with one tail hash are equal or hold a SHA-256 collision.  The
      guard accepts exactly the payloads without forbidden data, stated by a
      grammar of the words of a key and the shapes of texts.
    - Gate of measured effects: the verdict is exact, the number of independent
      layers is the maximum, and the order of the signals is irrelevant.
    - Identity: a tenant context exists exactly with the status active and its
      own namespace; a request runs as a tenant only when header and environment
      agree; bindings are scoped; suspension closes the context and not the
      record.
    - Events: after any history of records and drains, whatever each attempt came
      to, a published event has exactly one acknowledged message in the log and a
      pending or suppressed one none; further copies come from failed attempts
      that landed all the same ([Bus.Witness.duplicate_delivery]); a drain
      accounts for every row and, when the broker accepts, leaves none; the consumer completes one handler run
      per key under any redelivery.  No aggregate below its threshold is sent.
    - Execution: redelivered job events change nothing, terminal jobs stay
      terminal, job errors are bounded, duties are separated.
    - Skill bundles: the hash commits to the files up to a SHA-256 collision,
      the gate opens exactly on the pinned bundle, the reader stays inside its
      root.

    ** Bounds

    Recursion is structural except in five places.  [limit_denominator] runs with
    twice the binary digits of its bound plus five steps ([ld_fuel]), since two
    steps double the denominator; the count of decimal digits with the binary
    digits of the number ([digits_fuel]); the lemmas of [Rational] show both are
    enough.  SHA-256 processes its padded
    message with the number of its blocks as fuel; the search of [Matching]
    recurses with one more than the number of evidence bases, and
    [match_all_so_far] shows that a search never runs out.  The command
    classifier carries the depth bound of the source (12) and denies past it;
    [PolicyGate.classification_terminates] relates it to the unbounded
    unwrapping.  No theorem is conditional on fuel.

    ** Interfaces

    [UnicodeDB], [FloatRepr] (the shortest decimal form of a float),
    [EventPort], [FileSystem], [EnvelopeContract] (the dual schema validation
    and the topic catalogue) and [Publisher] (what an attempt to publish comes to),
    [DecisionPort] (a decision store that may conflict or fail), [DatetimeJson]
    (how a datetime is rendered in a JSON dump), [PayloadModel] (the generated
    payload model and [isoformat]), [Printable] (which characters [repr] leaves
    as they are) and [GateContracts] (the generated models around a
    gate run), [Worktrees], [Ports] and [PatchContracts] (the surroundings of the
    agent runner) are classes for code the sources call and do not define.  [ascii_db] is a concrete instance of the first, and the
    witnesses instantiate the others with concrete functions.

    ** What is not modelled

    The generated pydantic models (records of the fields that are read), HTTP
    and database adapters, the interleaving of two handlers at their lock
    boundaries, the [fold] of an ambiguous local hour, the retry policy of
    Temporal activities, and the components the manifest lists as planned: the
    audit and manifest stores of persistence/memory.py, the envelope factory,
    the outcome publisher, and the other services.  A drain is not interleaved
    with other writers of the outbox. *)

From stdpp Require Export base option list numbers strings gmap.
From Stdlib Require Export Lia.

Declare Scope saena_scope.
Delimit Scope saena_scope with saena.
Open Scope saena_scope.

(** ** Python strings

    A Python [str] is a sequence of Unicode code points.  [u "..."] embeds the
    (ASCII) literals of the source. *)

Abbreviation pystr := (list N).

Definition u (s : string) : pystr := Ascii.N_of_ascii <$> String.list_ascii_of_string s.
Arguments u _%_string_scope : simpl never.

(** ** Fallible computations

    [result E A] is a Python call that returns a value or raises; [E] is the
    exception type of the component.  It is a monad, so the bodies read as
    straight-line code. *)

Inductive result (E A : Type) : Type :=
  | Ok (a : A)
  | Raise (e : E).
Arguments Ok {E A} a.
Arguments Raise {E A} e.

#[export] Instance result_ret E : MRet (result E) := fun A a => Ok a.
#[export] Instance result_bind E : MBind (result E) := fun A B k m =>
  match m with Ok a => k a | Raise e => Raise e end.
#[export] Instance result_fmap E : FMap (result E) := fun A B f m =>
  match m with Ok a => Ok (f a) | Raise e => Raise e end.

(** [raise_if b e] is the early exit [if b: raise e]. *)
Definition raise_if {E} (b : bool) (e : E) : result E unit :=
  if b then Raise e else Ok tt.

Definition is_ok {E A} (m : result E A) : bool :=
  match m with Ok _ => true | Raise _ => false end.

Definition result_to_option {E A} (m : result E A) : option A :=
  match m with Ok a => Some a | Raise _ => None end.

(** [try_except m h] is [try: m except E: h e]. *)
Definition try_except {E E' A} (m : result E A) (h : E -> result E' A) : result E' A :=
  match m with Ok a => Ok a | Raise e => h e end.

#[export] Instance result_eq_dec {E A} `{EqDecision E, EqDecision A} : EqDecision (result E A).
Proof. solve_decision. Defined.

Section result_lemmas.
Context {E : Type}.

Lemma bind_Ok {A B} (m : result E A) (k : A -> result E B) b :
  m ≫= k = Ok b <-> exists a, m = Ok a /\ k a = Ok b.
Proof. destruct m; cbn; naive_solver. Qed.

Lemma bind_Raise {A B} (m : result E A) (k : A -> result E B) e :
  m ≫= k = Raise e <-> m = Raise e \/ exists a, m = Ok a /\ k a = Raise e.
Proof. destruct m; cbn; naive_solver. Qed.

Lemma raise_if_Ok b (e : E) x : raise_if b e = Ok x <-> b = false.
Proof. destruct b, x; cbn; naive_solver. Qed.

Lemma raise_if_Raise b (e e' : E) : raise_if b e = Raise e' <-> b = true /\ e = e'.
Proof. destruct b; cbn; naive_solver. Qed.

(** Steps that return nothing. *)
Lemma seq_Raise {B} (m : result E unit) (k : unit -> result E B) e :
  m ≫= k = Raise e <-> m = Raise e \/ m = Ok tt /\ k tt = Raise e.
Proof. destruct m as [[]|]; cbn; naive_solver. Qed.

Lemma seq_Ok {B} (m : result E unit) (k : unit -> result E B) b :
  m ≫= k = Ok b <-> m = Ok tt /\ k tt = Ok b.
Proof. destruct m as [[]|]; cbn; naive_solver. Qed.

Lemma fmap_Ok {A B} (f : A -> B) (m : result E A) b :
  f <$> m = Ok b <-> exists a, m = Ok a /\ b = f a.
Proof. destruct m; cbn; naive_solver. Qed.
End result_lemmas.

(** ** Stateful computations

    [M S E A] is a Python call that reads and writes a state of type [S] and
    returns or raises.  What it wrote before it raised stays written. *)

Definition M (S E A : Type) : Type := S -> S * result E A.

#[export] Instance M_ret S E : MRet (M S E) := fun A a s => (s, Ok a).
#[export] Instance M_bind S E : MBind (M S E) := fun A B k m s =>
  match m s with
  | (s', Ok a) => k a s'
  | (s', Raise e) => (s', Raise e)
  end.

Definition throw {S E A} (e : E) : M S E A := fun s => (s, Raise e).
Definition raise_when {S E} (b : bool) (e : E) : M S E unit :=
  if b then throw e else mret tt.
(** A pure fallible call. *)
Definition lift {S E A} (m : result E A) : M S E A := fun s => (s, m).
Definition gets {S E A} (f : S -> A) : M S E A := fun s => (s, Ok (f s)).
Definition modify {S E} (f : S -> S) : M S E unit := fun s => (f s, Ok tt).
(** A call that either returns a new state and a value, or raises and leaves
    the state as it was. *)
Definition try_update {S E A} (f : S -> result E (S * A)) : M S E A := fun s =>
  match f s with Ok (s', a) => (s', Ok a) | Raise e => (s, Raise e) end.
(** [m] with the exceptions it raises translated by [h]. *)
Definition catching {S E A} (m : M S E A) (h : E -> E) : M S E A := fun s =>
  match m s with (s', Raise e) => (s', Raise (h e)) | r => r end.

Section M_lemmas.
Context {S E : Type}.

Lemma M_bind_Ok {A B} (m : M S E A) (k : A -> M S E B) s s' b :
  (m ≫= k) s = (s', Ok b) <-> exists s1 a, m s = (s1, Ok a) /\ k a s1 = (s', Ok b).
Proof. unfold mbind, M_bind. destruct (m s) as [s1 [a|e]]; naive_solver. Qed.

Lemma M_bind_Raise {A B} (m : M S E A) (k : A -> M S E B) s s' e :
  (m ≫= k) s = (s', Raise e) <->
  m s = (s', Raise e) \/ exists s1 a, m s = (s1, Ok a) /\ k a s1 = (s', Raise e).
Proof. unfold mbind, M_bind. destruct (m s) as [s1 [a|e']]; naive_solver. Qed.

Lemma raise_when_Ok b (e : E) (s s' : S) x :
  raise_when b e s = (s', Ok x) <-> b = false /\ s' = s.
Proof.
  destruct b, x; cbn; unfold throw, mret, M_ret; split;
    [by intros [=]|by intros []|by intros [= ->]|by intros [_ ->]].
Qed.

(** Inversion of a run: it stopped in the first call or went on. *)
Lemma M_bind_inv {A B} (m : M S E A) (k : A -> M S E B) s s' r :
  (m ≫= k) s = (s', r) ->
  (exists s1 a, m s = (s1, Ok a) /\ k a s1 = (s', r)) \/
  (exists e, m s = (s', Raise e) /\ r = Raise e).
Proof. unfold mbind, M_bind. destruct (m s) as [s1 [a|e]]; naive_solver. Qed.

Lemma M_bind_step {A B} (m : M S E A) (k : A -> M S E B) s s1 a :
  m s = (s1, Ok a) -> (m ≫= k) s = k a s1.
Proof. unfold mbind, M_bind. by intros ->. Qed.

Lemma lift_inv {A} (m : result E A) (s s' : S) r : lift m s = (s', r) -> s' = s /\ r = m.
Proof. by intros [= -> ->]. Qed.

Lemma gets_inv {A} (f : S -> A) s s' (r : result E A) :
  gets f s = (s', r) -> s' = s /\ r = Ok (f s).
Proof. by intros [= -> <-]. Qed.

Lemma modify_inv (f : S -> S) s s' (r : result E unit) :
  modify f s = (s', r) -> s' = f s /\ r = Ok tt.
Proof. by intros [= <- <-]. Qed.

Lemma mret_inv {A} (a : A) (s s' : S) (r : result E A) :
  mret (M := M S E) a s = (s', r) -> s' = s /\ r = Ok a.
Proof. by intros [= -> <-]. Qed.

Lemma throw_inv {A} (e : E) (s s' : S) (r : result E A) :
  throw e s = (s', r) -> s' = s /\ r = Raise e.
Proof. by intros [= -> <-]. Qed.

Lemma raise_when_inv b (e : E) (s s' : S) r :
  raise_when b e s = (s', r) -> s' = s /\ r = if b then Raise e else Ok tt.
Proof. destruct b; by intros [= -> <-]. Qed.

Lemma try_update_inv {A} (f : S -> result E (S * A)) s s' r :
  try_update f s = (s', r) ->
  (exists a, f s = Ok (s', a) /\ r = Ok a) \/ (exists e, f s = Raise e /\ s' = s /\ r = Raise e).
Proof. unfold try_update. destruct (f s) as [[s1 a]|e]; naive_solver. Qed.

(** [preserves R m]: every run of [m], also one that raises, is in [R]. *)
Definition preserves {A} (R : S -> S -> Prop) (m : M S E A) : Prop :=
  forall s, R s (m s).1.

Lemma preserves_bind {A B} (R : S -> S -> Prop) `{!Transitive R} (m : M S E A) (k : A -> M S E B) :
  preserves R m -> (forall a, preserves R (k a)) -> preserves R (m ≫= k).
Proof.
  intros Hm Hk s. unfold mbind, M_bind. specialize (Hm s). destruct (m s) as [s1 [a|e]]; [|done].
  etrans; [exact Hm|apply Hk].
Qed.
End M_lemmas.

(** ** Booleans *)

Lemma not_true_iff b : negb b = true <-> b = false.
Proof. by destruct b. Qed.
Lemma not_false_iff b : negb b = false <-> b = true.
Proof. by destruct b. Qed.

Create Rewrite HintDb boolprop.
Create Rewrite HintDb okprop.
#[export] Hint Rewrite andb_true_iff andb_false_iff orb_true_iff orb_false_iff
  not_true_iff not_false_iff : boolprop.
#[export] Hint Rewrite @bind_Ok @raise_if_Ok @fmap_Ok : okprop.

(** [bprop] turns boolean equations of hypotheses and goal into connectives. *)
Ltac bprop :=
  autorewrite with boolprop in *;
  rewrite ?bool_decide_eq_true, ?bool_decide_eq_false in *.

(** [inv_ok] decomposes hypotheses that say a sequence of steps returned. *)
Ltac inv_ok :=
  repeat match goal with
  | H : Ok _ = Ok _ |- _ => injection H as H; try subst
  | H : Raise _ = Raise _ |- _ => injection H as H; try subst
  | H : Ok _ = Raise _ |- _ => discriminate H
  | H : Raise _ = Ok _ |- _ => discriminate H
  | H : Some _ = Some _ |- _ => injection H as H; try subst
  | H : context [ _ ≫= _ = Ok _ ] |- _ => rewrite bind_Ok in H; destruct H as (? & ? & ?)
  | H : raise_if _ _ = Ok _ |- _ => rewrite raise_if_Ok in H
  | H : _ <$> _ = Ok _ |- _ => rewrite fmap_Ok in H; destruct H as (? & ? & ?)
  end.

(** [case_if] splits the first conditional or match of goal or hypotheses. *)
Ltac case_if :=
  match goal with
  | |- context [ if ?b then _ else _ ] => let E := fresh "E" in destruct b eqn:E
  | H : context [ if ?b then _ else _ ] |- _ => let E := fresh "E" in destruct b eqn:E
  end.

(** [by_cases] closes goals by exhausting the conditionals of a definition. *)
Ltac by_cases := repeat (case_if; cbn in *; try discriminate); try done; try naive_solver.

(** [by_decide] proves a decidable closed goal by evaluation. *)
Ltac by_decide := apply (bool_decide_unpack _); vm_compute; exact I.

Create HintDb saena.
#[export] Hint Resolve list_elem_of_here list_elem_of_further : saena.

(** ** Lists *)

Lemma fmap_ext_elem {A B} (f g : A -> B) (l : list A) :
  (forall x, x ∈ l -> f x = g x) -> f <$> l = g <$> l.
Proof. intros Hfg. apply list_fmap_ext. intros i x Hi. by eapply Hfg, list_elem_of_lookup_2. Qed.

Section lists.
Context {A : Type}.

Lemma last_cons_snoc (l : list A) (x : A) : last (l ++ [x]) = Some x.
Proof. apply last_snoc. Qed.

(** Induction for functions that may skip one element. *)
Lemma list_tail_ind (P : list A -> Prop) :
  P [] -> (forall x l, P l -> P (tail l) -> P (x :: l)) -> forall l, P l.
Proof.
  intros Hnil Hcons l. enough (P l /\ P (tail l)) by tauto.
  induction l as [|x l [IH IH']]; cbn; auto.
Qed.

Lemma existsb_elem (f : A -> bool) (l : list A) :
  existsb f l = true <-> exists x, x ∈ l /\ f x = true.
Proof. rewrite existsb_exists. by setoid_rewrite list_elem_of_In. Qed.

Lemma forallb_elem (f : A -> bool) (l : list A) :
  forallb f l = true <-> forall x, x ∈ l -> f x = true.
Proof. rewrite forallb_forall. by setoid_rewrite list_elem_of_In. Qed.

Lemma existsb_false_elem (f : A -> bool) (l : list A) :
  existsb f l = false <-> forall x, x ∈ l -> f x = false.
Proof.
  rewrite <- Bool.not_true_iff_false, existsb_elem. split.
  - intros H x Hx. apply Bool.not_true_iff_false. naive_solver.
  - intros H (x & Hx & Hf). specialize (H x Hx). congruence.
Qed.

Lemma filter_none (P : A -> Prop) `{!forall x, Decision (P x)} (l : list A) :
  (forall x, x ∈ l -> ~ P x) -> filter P l = [].
Proof.
  induction l as [|x l IH]; intros Hl; [done|]. rewrite filter_cons_False by (apply Hl; by left).
  apply IH. intros y Hy. apply Hl. by right.
Qed.

Lemma filter_all (P : A -> Prop) `{!forall x, Decision (P x)} (l : list A) :
  (forall x, x ∈ l -> P x) -> filter P l = l.
Proof.
  induction l as [|x l IH]; intros Hl; [done|]. rewrite filter_cons_True by (apply Hl; by left).
  f_equal. apply IH. intros y Hy. apply Hl. by right.
Qed.

Lemma NoDup_fmap_filter {B} (f : A -> B) (P : A -> Prop) `{!forall x, Decision (P x)} (l : list A) :
  NoDup (f <$> l) -> NoDup (f <$> filter P l).
Proof.
  induction l as [|x l IH]; intros Hl; [done|]. cbn in Hl. apply NoDup_cons in Hl as [Hx Hl].
  rewrite filter_cons. case_decide; [|by apply IH]. cbn. apply NoDup_cons. split; [|by apply IH].
  intros (y & Hy & Hin)%list_elem_of_fmap. apply Hx, list_elem_of_fmap. exists y. split; [done|].
  by apply list_elem_of_filter in Hin as [_ Hin].
Qed.
End lists.

(** *** [mapM] over calls that may raise *)

Lemma elem_of_concat {A} (x : A) ls : x ∈ concat ls <-> exists l, l ∈ ls /\ x ∈ l.
Proof.
  induction ls as [|l ls IH]; cbn; [split; [by intros ?%elem_of_nil|by intros (? & ?%elem_of_nil & _)]|].
  setoid_rewrite elem_of_cons. rewrite elem_of_app, IH. naive_solver.
Qed.

Lemma concat_nonempty {A} (ls : list (list A)) : concat ls <> [] <-> exists l, l ∈ ls /\ l <> [].
Proof.
  induction ls as [|l ls IH]; cbn; [split; [done|by intros (? & ?%elem_of_nil & _)]|].
  setoid_rewrite elem_of_cons. destruct l as [|x l]; cbn; [rewrite IH; naive_solver|].
  split; [intros _; exists (x :: l); naive_solver|done].
Qed.

Section result_mapM.
Context {E A B : Type} (f : A -> result E B).

Lemma mapM_Ok l k : mapM f l = Ok k <-> Forall2 (fun x y => f x = Ok y) l k.
Proof.
  split.
  - revert k. induction l as [|x l IH]; cbn; intros k Hk.
    + injection Hk as <-. constructor.
    + apply bind_Ok in Hk as (y & Hy & (k' & Hk' & [= <-])%bind_Ok). constructor; auto.
  - induction 1 as [|x y l k Hx _ IH]; cbn; [done|]. by rewrite Hx, IH.
Qed.

Lemma mapM_Raise l e : mapM f l = Raise e -> exists x, x ∈ l /\ f x = Raise e.
Proof.
  induction l as [|x l IH]; cbn; [done|]. intros [Hx|(y & Hy & [Hl|(k & Hk & [=])]%bind_Raise)]%bind_Raise.
  - exists x. split; [by left|done].
  - destruct (IH Hl) as (z & Hz & Hf). exists z. split; [by right|done].
Qed.

Lemma mapM_ok l : (forall x, x ∈ l -> exists y, f x = Ok y) -> exists k, mapM f l = Ok k.
Proof.
  intros Hl. destruct (mapM f l) as [k|e] eqn:Hk; [by eexists|].
  destruct (mapM_Raise l e Hk) as (x & Hx & He). destruct (Hl x Hx). congruence.
Qed.
End result_mapM.

Lemma mapM_image {E A B} (f : A -> result E B) l k : mapM f l = Ok k ->
  forall x, x ∈ l -> exists y, y ∈ k /\ f x = Ok y.
Proof.
  intros HF%mapM_Ok x [n Hn]%list_elem_of_lookup. apply (Forall2_lookup_l _ _ _ _ _ HF) in Hn as (y & Hy & Hf).
  exists y. split; [by eapply list_elem_of_lookup_2|done].
Qed.

Lemma mapM_elem {E A B} (f : A -> result E B) l k : mapM f l = Ok k ->
  forall y, y ∈ k -> exists x, x ∈ l /\ f x = Ok y.
Proof.
  intros HF%mapM_Ok y [n Hn]%list_elem_of_lookup. apply (Forall2_lookup_r _ _ _ _ _ HF) in Hn as (x & Hx & Hf).
  exists x. split; [by eapply list_elem_of_lookup_2|done].
Qed.
