(* ===== verification/PyStr.v ===== *)
(** Python's [str]: the operations of the language the sources call.

    Code points are [N]; a [pystr] is a list of them (Prelude).  Everything
    that Python defines by rule (whitespace, splitting, ordering, decimal
    rendering, UTF-8) is a definition.  What Python reads out of the Unicode
    Character Database ([unicodedata.normalize], [str.casefold], [str.lower],
    the [Nd] category of the regular expression class \d) is an operation of
    the class [UnicodeDB], with the laws the Unicode standard fixes on the
    ASCII range; [ascii_db] is a concrete instance. *)

From stdpp Require Import sorting pretty.
From S2P Require Import Prelude.
Local Open Scope N_scope.

Definition in_range (lo hi c : N) : bool := (lo <=? c) && (c <=? hi).

Definition ascii_upper (c : N) : bool := in_range 65 90 c.
Definition ascii_lowercase (c : N) : bool := in_range 97 122 c.
Definition ascii_digit (c : N) : bool := in_range 48 57 c.
Definition ascii_alnum (c : N) : bool := ascii_digit c || ascii_upper c || ascii_lowercase c.
Definition lower_hex (c : N) : bool := ascii_digit c || in_range 97 102 c.

Definition ascii_str (s : pystr) : Prop := Forall (fun c => c < 128) s.

(** [str.isspace] of one character: the bidirectional/whitespace code points
    of CPython's [_PyUnicode_IsWhitespace] table. *)
Definition is_space (c : N) : bool :=
  in_range 9 13 c || in_range 28 32 c || (c =? 133) || (c =? 160) || (c =? 5760) ||
  in_range 8192 8202 c || (c =? 8232) || (c =? 8233) || (c =? 8239) ||
  (c =? 8287) || (c =? 12288).

Fixpoint lstrip (s : pystr) : pystr :=
  match s with
  | [] => []
  | c :: s' => if is_space c then lstrip s' else s
  end.

Definition strip (s : pystr) : pystr := reverse (lstrip (reverse (lstrip s))).

(** [s.startswith(p)] *)
Fixpoint startswith (p s : pystr) : bool :=
  match p, s with
  | [], _ => true
  | _, [] => false
  | a :: p', b :: s' => (a =? b) && startswith p' s'
  end.

(** [needle in s] *)
Fixpoint contains (needle s : pystr) : bool :=
  startswith needle s || match s with [] => false | _ :: s' => contains needle s' end.

(** [s.replace(chr(a), chr(b))] for single characters. *)
Definition replace_char (a b : N) (s : pystr) : pystr :=
  (fun c => if c =? a then b else c) <$> s.

(** [s.split(sep)] where every character satisfying [sep] is a separator: the
    list of the (possibly empty) pieces between separators. *)
Fixpoint split_at (sep : N -> bool) (s : pystr) : list pystr :=
  match s with
  | [] => [[]]
  | c :: s' =>
      if sep c then [] :: split_at sep s'
      else match split_at sep s' with
           | [] => [[c]]
           | w :: ws => (c :: w) :: ws
           end
  end.

(** [sep.join(ws)] *)
Fixpoint join (sep : pystr) (ws : list pystr) : pystr :=
  match ws with
  | [] => []
  | [w] => w
  | w :: ws' => w ++ sep ++ join sep ws'
  end.

(** [str(z)] of an [int]. *)
Definition str_of_Z (z : Z) : pystr := u (pretty z).

(** Lexicographic order of code points, the order [sorted] uses on [str]. *)
Fixpoint str_leb (a b : pystr) : bool :=
  match a, b with
  | [], _ => true
  | _ :: _, [] => false
  | x :: a', y :: b' => (x <? y) || ((x =? y) && str_leb a' b')
  end.

Definition key_le {A} (key : A -> pystr) (x y : A) : Prop := str_leb (key x) (key y) = true.

#[export] Instance key_le_dec {A} (key : A -> pystr) x y : Decision (key_le key x y).
Proof. unfold key_le. apply _. Defined.

(** [sorted]: Python's sort is stable, so an element goes before the first
    later one that is not strictly below it. *)
Fixpoint insort {A} (R : A -> A -> Prop) `{!forall x y, Decision (R x y)} (x : A) (l : list A) : list A :=
  match l with
  | [] => [x]
  | y :: l' => if decide (R x y) then x :: l else y :: insort R x l'
  end.

Definition stable_sort {A} (R : A -> A -> Prop) `{!forall x y, Decision (R x y)} (l : list A) : list A := foldr (insort R) [] l.

(** [sorted(l, key=key)] *)
Definition sort_by {A} (key : A -> pystr) (l : list A) : list A := stable_sort (key_le key) l.

(** [s.encode("utf-8")]; a lone surrogate raises [UnicodeEncodeError]. *)
Definition utf8_char (c : N) : option (list N) :=
  if c <? 128 then Some [c]
  else if c <? 2048 then Some [192 + c / 64; 128 + c mod 64]
  else if in_range 55296 57343 c then None
  else if c <? 65536 then Some [224 + c / 4096; 128 + (c / 64) mod 64; 128 + c mod 64]
  else Some [240 + c / 262144; 128 + (c / 4096) mod 64; 128 + (c / 64) mod 64; 128 + c mod 64].

Definition utf8_encode (s : pystr) : option (list N) := (fun l => mjoin l) <$> mapM utf8_char s.

(** ** The Unicode Character Database *)

Definition lower_char (c : N) : N := if ascii_upper c then c + 32 else c.

Class UnicodeDB := {
  nfkc : pystr -> pystr;
  casefold : pystr -> pystr;
  lower : pystr -> pystr;
  is_decimal : N -> bool;
  is_alnum : N -> bool;
  nfkc_ascii s : ascii_str s -> nfkc s = s;
  casefold_ascii s : ascii_str s -> casefold s = lower_char <$> s;
  lower_ascii s : ascii_str s -> lower s = lower_char <$> s;
  is_decimal_ascii c : c < 128 -> is_decimal c = ascii_digit c;
  is_alnum_ascii c : c < 128 -> is_alnum c = ascii_alnum c
}.

#[export, refine] Instance ascii_db : UnicodeDB := {|
  nfkc s := s;
  casefold s := lower_char <$> s;
  lower s := lower_char <$> s;
  is_decimal := ascii_digit;
  is_alnum := ascii_alnum
|}.
Proof. all: done. Defined.

(** ** Lemmas *)

Lemma u_inj a b : u a = u b -> a = b.
Proof.
  unfold u. revert b. induction a as [|c a IH]; intros [|d b]; try done.
  cbn. intros H. injection H as Hc Hr. f_equal; [|by apply IH].
  rewrite <- (Ascii.ascii_N_embedding c), <- (Ascii.ascii_N_embedding d). by f_equal.
Qed.

Lemma u_cons c s : u (String c s) = Ascii.N_of_ascii c :: u s.
Proof. done. Qed.

Lemma u_app a b : u (String.append a b) = u a ++ u b.
Proof. induction a as [|c a IH]; [done|]. change (u (String c (String.append a b)) = u (String c a) ++ u b).
  rewrite !u_cons, IH. done. Qed.

Lemma str_of_Z_inj z1 z2 : str_of_Z z1 = str_of_Z z2 -> z1 = z2.
Proof. intros H%u_inj. by apply (inj pretty). Qed.

Lemma startswith_spec needle s : startswith needle s = true <-> exists b, s = needle ++ b.
Proof.
  revert s. induction needle as [|c needle IH]; intros s; cbn; [split; [by exists s|done]|].
  destruct s as [|d s]; [split; [done|by intros [b [=]]]|].
  rewrite andb_true_iff, N.eqb_eq, IH. split.
  - intros (-> & b & ->). by exists b.
  - intros [b [= -> ->]]. eauto.
Qed.

Lemma contains_spec needle s : contains needle s = true <-> exists a b, s = a ++ needle ++ b.
Proof.
  induction s as [|c s IH]; cbn [contains]; rewrite orb_true_iff, startswith_spec.
  - split; [intros [[b Hb]|]; [by exists [], b|done]|]. intros (a & b & Hab). left. destruct a; [by exists b|done].
  - rewrite IH. split.
    + intros [[b ->]|(a & b & ->)]; [by exists [], b|by exists (c :: a), b].
    + intros ([|d a] & b & Hab); [left; by exists b|]. injection Hab as -> ->. right. eauto.
Qed.

Section str_order.
Lemma str_leb_refl a : str_leb a a = true.
Proof. induction a as [|x a IH]; cbn; [done|]. rewrite N.eqb_refl, IH. by destruct (x <? x). Qed.

Lemma str_leb_total a b : str_leb a b = true \/ str_leb b a = true.
Proof.
  revert b. induction a as [|x a IH]; intros [|y b]; cbn; try tauto.
  destruct (N.lt_trichotomy x y) as [H|[->|H]].
  - left. by apply N.ltb_lt in H as ->.
  - rewrite N.eqb_refl. destruct (IH b) as [-> | ->]; rewrite andb_true_l, orb_true_r; tauto.
  - right. by apply N.ltb_lt in H as ->.
Qed.

Lemma str_leb_antisym a b : str_leb a b = true -> str_leb b a = true -> a = b.
Proof.
  revert b. induction a as [|x a IH]; intros [|y b]; cbn; try done.
  rewrite !orb_true_iff, !andb_true_iff, !N.ltb_lt, !N.eqb_eq.
  intros [?|[-> ?]] [?|[? ?]]; try lia. f_equal. auto.
Qed.

Lemma str_leb_trans a b c : str_leb a b = true -> str_leb b c = true -> str_leb a c = true.
Proof.
  revert b c. induction a as [|x a IH]; intros [|y b] [|z c]; cbn; try done.
  rewrite !orb_true_iff, !andb_true_iff, !N.ltb_lt, !N.eqb_eq.
  intros [?|[-> ?]] [?|[-> ?]]; try (left; lia). right. eauto.
Qed.

#[export] Instance key_le_trans {A} (key : A -> pystr) : Transitive (key_le key).
Proof. intros x y z. apply str_leb_trans. Qed.
#[export] Instance key_le_total {A} (key : A -> pystr) : Total (key_le key).
Proof. intros x y. apply str_leb_total. Qed.
End str_order.

Section stable_sort.
Context {A : Type} (R : A -> A -> Prop) `{!forall x y, Decision (R x y)}.

Lemma insort_Permutation x l : insort R x l ≡ₚ x :: l.
Proof.
  induction l as [|y l IH]; cbn; [done|]. case_decide; [done|]. rewrite IH. apply Permutation_swap.
Qed.

Lemma stable_sort_Permutation l : stable_sort R l ≡ₚ l.
Proof. induction l as [|x l IH]; cbn; [done|]. by rewrite insort_Permutation, IH. Qed.

Lemma insort_sorted `{!Transitive R, !Total R} x l : StronglySorted R l -> StronglySorted R (insort R x l).
Proof.
  induction 1 as [|y l Hl IH Hy]; cbn; [by repeat constructor|].
  case_decide as Hxy; constructor; try done.
  - by constructor.
  - constructor; [done|]. eapply Forall_impl; [exact Hy|]. intros z Hz. by transitivity y.
  - rewrite insort_Permutation. constructor; [|done]. by destruct (total R x y).
Qed.

Lemma stable_sort_sorted `{!Transitive R, !Total R} l : StronglySorted R (stable_sort R l).
Proof. induction l as [|x l IH]; cbn; [constructor|]. by apply insort_sorted. Qed.

(** Stability: the elements of one class of equal keys keep their order. *)
Lemma insort_filter (P : A -> Prop) `{!forall x, Decision (P x)} x l :
  (forall y z, P y -> P z -> R y z) -> filter P (insort R x l) = filter P (x :: l).
Proof.
  intros HP. induction l as [|y l IH]; [done|]. cbn [insort]. case_decide as Hxy; [done|].
  rewrite filter_cons, IH, !filter_cons.
  destruct (decide (P y)), (decide (P x)); try done. destruct Hxy. by apply HP.
Qed.

Lemma stable_sort_filter (P : A -> Prop) `{!forall x, Decision (P x)} l :
  (forall y z, P y -> P z -> R y z) -> filter P (stable_sort R l) = filter P l.
Proof.
  intros HP. induction l as [|x l IH]; [done|]. cbn [stable_sort foldr].
  rewrite insort_filter by done. rewrite !filter_cons. by rewrite <- IH.
Qed.
End stable_sort.

Section sort_by.
Context {A : Type} (key : A -> pystr).

Lemma sort_by_Permutation l : sort_by key l ≡ₚ l.
Proof. apply stable_sort_Permutation. Qed.

Lemma sort_by_sorted l : StronglySorted (key_le key) (sort_by key l).
Proof. apply (stable_sort_sorted _). Qed.

Lemma sort_by_stable k l : filter (fun x => key x = k) (sort_by key l) = filter (fun x => key x = k) l.
Proof. apply stable_sort_filter. intros y z Hy Hz. unfold key_le. rewrite Hy, Hz. apply str_leb_refl. Qed.

Lemma elem_of_sort_by x l : x ∈ sort_by key l <-> x ∈ l.
Proof. by rewrite sort_by_Permutation. Qed.

(** Sorting by an injective key is canonical: it forgets the input order. *)
Lemma sort_by_canonical l1 l2 :
  (forall x y, x ∈ l1 -> y ∈ l1 -> key x = key y -> x = y) ->
  l1 ≡ₚ l2 -> sort_by key l1 = sort_by key l2.
Proof.
  intros Hinj Hp. apply (StronglySorted_unique_strong (key_le key)).
  - intros x y Hx Hy Hxy Hyx. rewrite elem_of_sort_by in Hx, Hy. rewrite <- Hp in Hy.
    apply Hinj; [done..|]. by apply str_leb_antisym.
  - apply sort_by_sorted.
  - apply sort_by_sorted.
  - by rewrite !sort_by_Permutation.
Qed.
End sort_by.

(** ** Splitting *)

Section split_at.
Context (p q : N -> bool) (Hpq : forall c, p c = true -> q c = true).

Lemma split_at_cons s : exists w ws, split_at p s = w :: ws.
Proof. destruct s as [|c s]; cbn; [by eauto|]. destruct (p c); [by eauto|]. case_match; by eauto. Qed.

(** A piece without finer separators is a piece of the finer split. *)
Lemma split_at_refine s w ws :
  split_at p s = w :: ws ->
  exists v vs, split_at q s = v :: vs /\
    (Forall (fun c => q c = false) w -> v = w) /\
    (forall x, x ∈ ws -> Forall (fun c => q c = false) x -> x ∈ vs).
Proof.
  revert w ws. induction s as [|c s IH]; intros w ws; cbn.
  { intros [= <- <-]. exists [], []. set_solver. }
  destruct (p c) eqn:Ep.
  - intros [= <- <-]. rewrite (Hpq _ Ep). exists [], (split_at q s). split; [done|]. split; [done|].
    intros x Hx Hq. destruct (split_at_cons s) as (w' & ws' & E). rewrite E in Hx.
    destruct (IH _ _ E) as (v & vs & -> & Hv & Hvs).
    apply elem_of_cons in Hx as [->|Hx]; [rewrite (Hv Hq)|]; set_solver.
  - destruct (split_at_cons s) as (w' & ws' & E). rewrite E. intros [= <- <-].
    destruct (IH _ _ E) as (v & vs & -> & Hv & Hvs).
    destruct (q c) eqn:Eq.
    + exists [], (v :: vs). split; [done|]. split.
      * intros Hc. apply Forall_cons in Hc as [Hc _]. congruence.
      * set_solver.
    + exists (c :: v), vs. split; [done|]. split; [|done].
      intros Hc. apply Forall_cons in Hc as [_ Hc]. by rewrite (Hv Hc).
Qed.

Lemma elem_of_split_at_refine s x :
  x ∈ split_at p s -> Forall (fun c => q c = false) x -> x ∈ split_at q s.
Proof.
  destruct (split_at_cons s) as (w & ws & E). rewrite E.
  destruct (split_at_refine _ _ _ E) as (v & vs & -> & Hv & Hvs).
  intros [->|Hx]%elem_of_cons Hq; [rewrite (Hv Hq)|]; set_solver.
Qed.
End split_at.

(** Splitting at one separator and joining with it are inverse. *)
Lemma split_at_app sep w c s :
  sep c = true -> Forall (fun x => sep x = false) w ->
  split_at sep (w ++ c :: s) = w :: split_at sep s.
Proof. intros Hc. induction 1 as [|x w Hx _ IH]; cbn; [by rewrite Hc|]. by rewrite Hx, IH. Qed.

Lemma split_at_none sep w : Forall (fun x => sep x = false) w -> split_at sep w = [w].
Proof. induction 1 as [|x w Hx _ IH]; [done|]. cbn. by rewrite Hx, IH. Qed.

Lemma split_at_pieces sep s w : w ∈ split_at sep s -> Forall (fun x => sep x = false) w.
Proof.
  revert w. induction s as [|c s IH]; intros w; cbn.
  - intros ->%list_elem_of_singleton. constructor.
  - destruct (sep c) eqn:Ec.
    + intros [-> |Hw]%elem_of_cons; [constructor|auto].
    + destruct (split_at sep s) as [|v vs] eqn:Es.
      * intros ->%list_elem_of_singleton. by repeat constructor.
      * intros [-> |Hw]%elem_of_cons; [|apply IH; by right].
        constructor; [done|]. apply IH. by left.
Qed.

Lemma split_at_join c ws :
  ws <> [] -> (forall w, w ∈ ws -> Forall (fun x => (c =? x) = false) w) ->
  split_at (N.eqb c) (join [c] ws) = ws.
Proof.
  induction ws as [|w ws IH]; [done|]. intros _ Hw. destruct ws as [|w' ws].
  - cbn. apply split_at_none, Hw. by left.
  - change (join [c] (w :: w' :: ws)) with (w ++ c :: join [c] (w' :: ws)).
    rewrite split_at_app; [|apply N.eqb_refl|apply Hw; by left]. f_equal. apply IH; [done|].
    intros x Hx. apply Hw. by right.
Qed.

(** Replacing a separator by another merges the two split points. *)
Lemma split_at_replace a b s :
  split_at (N.eqb b) (replace_char a b s) = split_at (fun c => (c =? a) || (b =? c)) s.
Proof.
  induction s as [|c s IH]; [done|].
  change (replace_char a b (c :: s)) with ((if c =? a then b else c) :: replace_char a b s).
  cbn [split_at]. destruct (c =? a) eqn:E; cbn [orb].
  - by rewrite N.eqb_refl, IH.
  - destruct (b =? c) eqn:E2; by rewrite IH.
Qed.

(** ** Decimal rendering *)

Definition decimal_char (c : N) : bool := ascii_digit c || (c =? 45).

Lemma pretty_N_char_decimal n : decimal_char (Ascii.N_of_ascii (pretty_N_char n)) = true.
Proof. destruct n as [|p]; [done|]. do 4 (destruct p as [p|p|]; try done). Qed.

Lemma pretty_N_go_digits x s :
  Forall (fun c => decimal_char c = true) (u s) ->
  Forall (fun c => decimal_char c = true) (u (pretty_N_go x s)).
Proof.
  revert s. induction (N.lt_wf_0 x) as [x _ IH]. intros s Hs.
  destruct (decide (0 < x)) as [Hx|Hx].
  - rewrite pretty_N_go_step by done. apply IH; [by apply N.div_lt|].
    rewrite u_cons. constructor; [|done].
    apply pretty_N_char_decimal.
  - by replace x with 0 by lia.
Qed.

Lemma str_of_Z_chars z : Forall (fun c => decimal_char c = true) (str_of_Z z).
Proof.
  unfold str_of_Z.
  assert (forall n : N, Forall (fun c => decimal_char c = true) (u (pretty n))) as HN.
  { intros n. unfold pretty, pretty_N. case_decide; [by repeat constructor|].
    by apply pretty_N_go_digits. }
  destruct z; cbn; [by repeat constructor|apply HN|].
  change (Forall (fun c => decimal_char c = true) (u (String.append "-" (pretty (N.pos p))))).
  rewrite u_app. apply Forall_app; split; [by repeat constructor|apply HN].
Qed.

Lemma pretty_N_go_length x s : (length (u s) <= length (u (pretty_N_go x s)))%nat.
Proof.
  revert s. induction (N.lt_wf_0 x) as [x _ IH]. intros s.
  destruct (decide (0 < x)) as [Hx|Hx].
  - rewrite pretty_N_go_step by done.
    etrans; [|apply IH; by apply N.div_lt]. rewrite u_cons. cbn. lia.
  - by replace x with 0 by lia.
Qed.

Lemma str_of_Z_nonempty z : str_of_Z z <> [].
Proof.
  assert (forall n : N, u (pretty n) <> []) as HN.
  { intros n. unfold pretty, pretty_N. case_decide as Hn; [done|].
    rewrite pretty_N_go_step by lia. intros Hnil.
    pose proof (pretty_N_go_length (n / 10) (String (pretty_N_char (n mod 10)) "")) as Hl.
    rewrite Hnil, u_cons in Hl. cbn in Hl. lia. }
  unfold str_of_Z. destruct z; [done|apply HN|].
  change (u (String.append "-" (pretty (N.pos p))) <> []). by rewrite u_app.
Qed.

(** ** UTF-8 *)

Lemma utf8_encode_nil : utf8_encode [] = Some [].
Proof. done. Qed.

Lemma utf8_encode_cons c s b :
  utf8_encode (c :: s) = Some b <->
  exists x y, utf8_char c = Some x /\ utf8_encode s = Some y /\ b = x ++ y.
Proof.
  unfold utf8_encode. rewrite fmap_Some. setoid_rewrite mapM_Some. split.
  - intros (l & Hl & ->). inversion Hl as [|? x ? l' Hx Hl']; subst. exists x, (mjoin l').
    split; [done|]. split; [|done]. apply fmap_Some. exists l'. by rewrite mapM_Some.
  - intros (x & y & Hx & (l & Hl & ->)%fmap_Some & ->). exists (x :: l).
    split; [|done]. constructor; [done|]. by apply mapM_Some.
Qed.

Lemma utf8_encode_app s t b :
  utf8_encode (s ++ t) = Some b <->
  exists x y, utf8_encode s = Some x /\ utf8_encode t = Some y /\ b = x ++ y.
Proof.
  revert b. induction s as [|c s IH]; intros b; cbn [app].
  - rewrite utf8_encode_nil. naive_solver.
  - rewrite utf8_encode_cons. setoid_rewrite utf8_encode_cons. setoid_rewrite IH. split.
    + intros (x & y & Hx & (x' & y' & ? & ? & ->) & ->). exists (x ++ x'), y'.
      rewrite app_assoc. eauto 10.
    + intros (z & y & (x & x' & ? & ? & ->) & ? & ->). exists x, (x' ++ y).
      rewrite app_assoc. eauto 10.
Qed.

Lemma utf8_char_length c x : utf8_char c = Some x -> (1 <= length x)%nat.
Proof. unfold utf8_char. repeat case_match; intros [= <-]; cbn; lia. Qed.

Lemma utf8_encode_length s b : utf8_encode s = Some b -> (length s <= length b)%nat.
Proof.
  revert b. induction s as [|c s IH]; intros b; [cbn; lia|].
  intros (x & y & Hx%utf8_char_length & Hy%IH & ->)%utf8_encode_cons. rewrite length_app. cbn. lia.
Qed.

(** The code is a prefix code: the lead byte fixes the length. *)
Lemma utf8_char_app_inj c d x y r s :
  utf8_char c = Some x -> utf8_char d = Some y -> x ++ r = y ++ s -> c = d /\ r = s.
Proof.
  assert (forall a, a mod 64 < 64) as Hm by (intros a; by apply N.mod_lt).
  assert (forall a, a = 64 * (a / 64) + a mod 64) as Hd by (intros a; by apply N.div_mod').
  assert (forall a, a / 4096 = a / 64 / 64) as H2 by (intros a; by rewrite N.Div0.div_div).
  assert (forall a, a / 262144 = a / 64 / 64 / 64) as H3 by (intros a; by rewrite !N.Div0.div_div).
  intros Hc Hd'. unfold utf8_char, in_range in Hc, Hd'.
  repeat match goal with
  | H : context [if ?b then _ else _] |- _ => destruct b eqn:?
  end; try discriminate;
  injection Hc as <-; injection Hd' as <-; intros Heq; cbn [app] in Heq; injection Heq; clear Heq; intros;
    rewrite ?H2, ?H3 in *; bprop; rewrite ?N.ltb_lt, ?N.ltb_ge, ?N.leb_le in *.
  all: pose proof (Hd c); pose proof (Hd d); pose proof (Hm c); pose proof (Hm d).
  all: pose proof (Hd (c / 64)); pose proof (Hd (d / 64)); pose proof (Hm (c / 64)); pose proof (Hm (d / 64)).
  all: pose proof (Hd (c / 64 / 64)); pose proof (Hd (d / 64 / 64));
    pose proof (Hm (c / 64 / 64)); pose proof (Hm (d / 64 / 64)).
  all: first [exfalso; lia | split; [lia|assumption || congruence]].
Qed.

Lemma utf8_encode_inj s t b : utf8_encode s = Some b -> utf8_encode t = Some b -> s = t.
Proof.
  revert t b. induction s as [|c s IH]; intros [|d t] b Hs Ht; [done|..].
  - rewrite utf8_encode_nil in Hs. injection Hs as <-. apply utf8_encode_length in Ht. cbn in Ht. lia.
  - rewrite utf8_encode_nil in Ht. injection Ht as <-. apply utf8_encode_length in Hs. cbn in Hs. lia.
  - apply utf8_encode_cons in Hs as (x & y & Hx & Hy & ->).
    apply utf8_encode_cons in Ht as (x' & y' & Hx' & Hy' & Heq).
    destruct (utf8_char_app_inj _ _ _ _ _ _ Hx Hx' Heq) as [-> ->]. f_equal. eauto.
Qed.

(** Text up to a delimiter is determined. *)
Lemma app_delim_inj (c : N) s1 s2 r1 r2 :
  c ∉ s1 -> c ∉ s2 -> s1 ++ c :: r1 = s2 ++ c :: r2 -> s1 = s2 /\ r1 = r2.
Proof.
  revert s2. induction s1 as [|x s1 IH]; intros [|y s2] H1 H2; cbn.
  - by intros [= ->].
  - intros [= <- _]. destruct H2. by left.
  - intros [= -> _]. destruct H1. by left.
  - intros [= -> Heq]. rewrite not_elem_of_cons in H1. rewrite not_elem_of_cons in H2.
    destruct (IH s2) as [-> ->]; tauto.
Qed.
