(* ===== verification/Regex.v ===== *)
(** Regular expressions, as the sources use Python's [re].

    Every pattern of the sources is a regular expression in the formal sense
    (no back reference; the one look-around is modelled where it is used), so
    what a search or a match answers is membership in a language.  [accepts]
    decides membership with Brzozowski derivatives; [accepts_spec] proves it
    against the language.  [re_match] gives [$] its Python meaning: the end
    of the string, or just before a newline that ends it. *)

From S2P Require Import Prelude PyStr.
Local Open Scope N_scope.

Inductive re : Type :=
  | Void
  | Eps
  | Cls (p : N -> bool)
  | Cat (a b : re)
  | Alt (a b : re)
  | Star (a : re).

(** The language of an expression. *)
Inductive lang : re -> pystr -> Prop :=
  | lang_eps : lang Eps []
  | lang_cls p c : p c = true -> lang (Cls p) [c]
  | lang_cat a b s t : lang a s -> lang b t -> lang (Cat a b) (s ++ t)
  | lang_alt_l a b s : lang a s -> lang (Alt a b) s
  | lang_alt_r a b s : lang b s -> lang (Alt a b) s
  | lang_star_nil a : lang (Star a) []
  | lang_star_app a s t : lang a s -> lang (Star a) t -> lang (Star a) (s ++ t).

Fixpoint nullable (r : re) : bool :=
  match r with
  | Void | Cls _ => false
  | Eps | Star _ => true
  | Cat a b => nullable a && nullable b
  | Alt a b => nullable a || nullable b
  end.

(** Smart constructors keep derivatives small, so matching computes. *)
Definition cat (a b : re) : re :=
  match a, b with
  | Void, _ => Void
  | _, Void => Void
  | Eps, _ => b
  | _, Eps => a
  | _, _ => Cat a b
  end.

Definition alt (a b : re) : re :=
  match a, b with
  | Void, _ => b
  | _, Void => a
  | _, _ => Alt a b
  end.

Fixpoint deriv (c : N) (r : re) : re :=
  match r with
  | Void | Eps => Void
  | Cls p => if p c then Eps else Void
  | Cat a b => if nullable a then alt (cat (deriv c a) b) (deriv c b) else cat (deriv c a) b
  | Alt a b => alt (deriv c a) (deriv c b)
  | Star a => cat (deriv c a) (Star a)
  end.

Fixpoint accepts (r : re) (s : pystr) : bool :=
  match s with
  | [] => nullable r
  | c :: s' => accepts (deriv c r) s'
  end.

(** ** Syntax *)

Definition chr (c : N) : re := Cls (N.eqb c).
Definition lit (s : pystr) : re := foldr (fun c => Cat (chr c)) Eps s.
Definition plus (a : re) : re := Cat a (Star a).
Definition opt (a : re) : re := Alt a Eps.
Fixpoint rep (n : nat) (a : re) : re :=
  match n with O => Eps | S n => Cat a (rep n a) end.
(** [a{0,n}] *)
Fixpoint upto (n : nat) (a : re) : re :=
  match n with O => Eps | S n => opt (Cat a (upto n a)) end.
Definition any : re := Star (Cls (fun _ => true)).

(** ** The functions of [re] *)

(** [re.fullmatch(r, s)] *)
Definition re_fullmatch (r : re) (s : pystr) : bool := accepts r s.

(** [re.match("^r$", s)]: [$] also matches before a trailing newline. *)
Definition re_match (r : re) (s : pystr) : bool :=
  accepts r s ||
  match reverse s with
  | c :: s' => (c =? 10) && accepts r (reverse s')
  | [] => false
  end.

(** [re.search(r, s)] *)
Definition re_search (r : re) (s : pystr) : bool := accepts (Cat any (Cat r any)) s.

(** ** Correctness *)

#[export] Hint Constructors lang : saena.

Lemma nullable_spec r : nullable r = true <-> lang r [].
Proof.
  induction r as [| |p|a IHa b IHb|a IHa b IHb|a IHa]; cbn; bprop.
  - split; [done|]. by inversion 1.
  - split; auto with saena.
  - split; [done|]. by inversion 1.
  - rewrite IHa, IHb. split.
    + intros [Ha Hb]. by apply (lang_cat a b [] []).
    + inversion 1 as [| |? ? s t Ha Hb Hst Hnil| | | |]; subst.
      apply app_nil in Hnil as [-> ->]. done.
  - rewrite IHa, IHb. split; [intros [?|?]; auto with saena|]. inversion 1; auto.
  - split; auto with saena.
Qed.

Lemma cat_lang a b s : lang (cat a b) s <-> lang (Cat a b) s.
Proof.
  assert (forall b' s', lang (Cat Void b') s' -> False) as Hv.
  { inversion 1 as [| |? ? ? ? H1| | | |]. inversion H1. }
  assert (forall a' s', lang (Cat a' Void) s' -> False) as Hv'.
  { inversion 1 as [| |? ? ? ? H1 H2| | | |]. inversion H2. }
  assert (forall b' s', lang (Cat Eps b') s' <-> lang b' s') as He.
  { split; [inversion 1 as [| |? ? ? ? H1| | | |]; by inversion H1|].
    intros. apply (lang_cat Eps b' [] s'); by auto with saena. }
  assert (forall a' s', lang (Cat a' Eps) s' <-> lang a' s') as He'.
  { split.
    - inversion 1 as [| |? ? ? ? H1 H2| | | |]. inversion H2. by rewrite app_nil_r.
    - intros. rewrite <- (app_nil_r s'). apply lang_cat; by auto with saena. }
  assert (forall s', lang Void s' -> False) as Hvv by (inversion 1).
  destruct a, b; cbn; rewrite ?He, ?He'; try done; naive_solver.
Qed.

Lemma alt_lang a b s : lang (alt a b) s <-> lang (Alt a b) s.
Proof.
  assert (forall s', lang Void s' -> False) as Hv by (inversion 1).
  assert (forall c d s', lang (Alt c d) s' <-> lang c s' \/ lang d s') as Ha.
  { split; [inversion 1; auto|intros [?|?]; auto with saena]. }
  rewrite Ha. destruct a, b; cbn; rewrite ?Ha; naive_solver.
Qed.

Lemma star_cons_inv a c s :
  lang (Star a) (c :: s) -> exists s1 s2, s = s1 ++ s2 /\ lang a (c :: s1) /\ lang (Star a) s2.
Proof.
  intros H. remember (Star a) as r eqn:Er. remember (c :: s) as cs eqn:Es.
  revert c s Es Er.
  induction H as [| | | | | |a' s1 t Ha IHa Ht IHt]; intros d w Es Er; try discriminate.
  injection Er as ->. destruct s1 as [|e s1]; [by apply IHt|].
  cbn in Es. injection Es as -> <-. eauto.
Qed.

Lemma deriv_spec c r s : lang (deriv c r) s <-> lang r (c :: s).
Proof.
  revert s. induction r as [| |p|a IHa b IHb|a IHa b IHb|a IHa]; intros s; cbn.
  - split; inversion 1.
  - split; inversion 1.
  - destruct (p c) eqn:Hp; split; inversion 1; subst; eauto with saena; congruence.
  - assert (lang (Cat a b) (c :: s) <->
      (exists s1 s2, s = s1 ++ s2 /\ lang a (c :: s1) /\ lang b s2) \/
      (lang a [] /\ lang b (c :: s))) as Hcat.
    { split.
      - inversion 1 as [| |? ? s1 t Ha Hb Heq| | | |]; subst.
        destruct s1 as [|d s1]; cbn in *; simplify_eq; naive_solver.
      - intros [(s1 & s2 & -> & Ha & Hb)|[Ha Hb]].
        + by apply (lang_cat a b (c :: s1) s2).
        + by apply (lang_cat a b [] (c :: s)). }
    assert (forall s, lang (cat (deriv c a) b) s <->
      exists s1 s2, s = s1 ++ s2 /\ lang a (c :: s1) /\ lang b s2) as Hd.
    { intros s'. rewrite cat_lang. split.
      - inversion 1 as [| |? ? s1 t Ha Hb Heq| | | |]; subst. rewrite IHa in Ha. eauto.
      - intros (s1 & s2 & -> & Ha & Hb). apply IHa in Ha. by constructor. }
    rewrite Hcat. destruct (nullable a) eqn:Hn.
    + rewrite alt_lang. apply nullable_spec in Hn. split.
      * inversion 1 as [| | |? ? ? Hl|? ? ? Hr| |]; subst; [left; by apply Hd|right; by rewrite <- IHb].
      * intros [Hl|[_ Hr]]; [apply lang_alt_l; by apply Hd|apply lang_alt_r; by apply IHb].
    + assert (~ lang a []) by (rewrite <- nullable_spec; congruence). rewrite Hd. naive_solver.
  - rewrite alt_lang. split; inversion 1; subst.
    + constructor; by apply IHa.
    + apply lang_alt_r; by apply IHb.
    + constructor; by apply IHa.
    + apply lang_alt_r; by apply IHb.
  - rewrite cat_lang. split.
    + inversion 1 as [| |? ? s1 t Ha Hb Heq| | | |]; subst. apply IHa in Ha.
      by apply (lang_star_app a (c :: s1) t).
    + intros (s1 & s2 & -> & Ha & Hs)%star_cons_inv. apply IHa in Ha. by constructor.
Qed.

(** Matching by derivatives decides the language. *)
Lemma accepts_spec r s : accepts r s = true <-> lang r s.
Proof.
  revert r. induction s as [|c s IH]; intros r; cbn; [apply nullable_spec|].
  by rewrite IH, deriv_spec.
Qed.

Lemma any_lang s : lang any s.
Proof.
  induction s as [|c s IH]; [constructor|].
  by apply (lang_star_app _ [c] s); [apply lang_cls|].
Qed.

Lemma re_search_spec r s :
  re_search r s = true <-> exists a m b, s = a ++ m ++ b /\ lang r m.
Proof.
  unfold re_search. rewrite accepts_spec. split.
  - inversion 1 as [| |? ? a t _ H2 Heq| | | |]; subst.
    inversion H2 as [| |? ? m b Hm _ Heq| | | |]; subst. eauto.
  - intros (a & m & b & -> & Hm). constructor; [apply any_lang|].
    constructor; [done|apply any_lang].
Qed.

Lemma lit_lang s t : lang (lit s) t <-> t = s.
Proof.
  revert t. induction s as [|c s IH]; intros t; cbn.
  - split; [by inversion 1|]. intros ->. constructor.
  - split.
    + inversion 1 as [| |? ? a b Ha Hb Heq| | | |]; subst. inversion Ha as [|? d Hd| | | | |]; subst.
      apply N.eqb_eq in Hd as ->. apply IH in Hb as ->. done.
    + intros ->. apply (lang_cat _ _ [c] s); [apply lang_cls, N.eqb_refl|by apply IH].
Qed.

Lemma rep_cls_lang n p s :
  lang (rep n (Cls p)) s <-> length s = n /\ Forall (fun c => p c = true) s.
Proof.
  revert s. induction n as [|n IH]; intros s; cbn.
  - split; [inversion 1; by repeat constructor|]. intros [->%nil_length_inv _]. constructor.
  - split.
    + inversion 1 as [| |? ? a b Ha Hb Heq| | | |]; subst. inversion Ha; subst.
      apply IH in Hb as [<- ?]. split; [done|]. by constructor.
    + intros [Hl Hf]. destruct s as [|c s]; [done|]. apply Forall_cons in Hf as [Hc Hf].
      apply (lang_cat _ _ [c] s); [by apply lang_cls|]. apply IH. cbn in Hl. auto with lia.
Qed.

Lemma cat_iff a b s : lang (Cat a b) s <-> exists s1 s2, s = s1 ++ s2 /\ lang a s1 /\ lang b s2.
Proof.
  split; [inversion 1; subst; eauto 6|]. intros (s1 & s2 & -> & ? & ?). by constructor.
Qed.

Lemma re_match_spec r s :
  re_match r s = true <-> lang r s \/ exists s', s = s' ++ [10] /\ lang r s'.
Proof.
  unfold re_match. rewrite orb_true_iff, accepts_spec. split.
  - intros [?|H]; [auto|]. right. destruct (reverse s) as [|c s'] eqn:Es; [done|].
    rewrite andb_true_iff, N.eqb_eq, accepts_spec in H. destruct H as [-> H].
    exists (reverse s'). split; [|done].
    rewrite <- (reverse_involutive s), Es. by rewrite reverse_cons.
  - intros [?|(s' & -> & H)]; [auto|]. right. rewrite reverse_snoc, N.eqb_refl. cbn.
    by rewrite reverse_involutive, accepts_spec.
Qed.

Lemma alt_iff a b s : lang (Alt a b) s <-> lang a s \/ lang b s.
Proof. split; [by inversion 1; auto|]. intros [?|?]; [by apply lang_alt_l|by apply lang_alt_r]. Qed.

Lemma upto_cls_lang n p s :
  lang (upto n (Cls p)) s <-> (length s <= n)%nat /\ Forall (fun c => p c = true) s.
Proof.
  revert s. induction n as [|n IH]; intros s; cbn.
  - split; [inversion 1; by repeat constructor|]. intros [Hl _]. destruct s; [constructor|cbn in Hl; lia].
  - unfold opt. rewrite !alt_iff, cat_iff. split.
    + intros Hor. assert (s = [] \/ exists c s', s = c :: s' /\ p c = true /\ lang (upto n (Cls p)) s')
        as [->|(c & s' & -> & Hc & [? ?]%IH)].
      { destruct Hor as [(s1 & s2 & -> & Ha & Hb)|H]; [|inversion H; by left].
        inversion Ha; subst. right. eauto. }
      * split; [cbn; lia|constructor].
      * split; [cbn; lia|by constructor].
    + intros [Hl Hf]. destruct s as [|c s]; [right; constructor|].
      apply Forall_cons in Hf as [Hc Hf].
      assert (exists s1 s2, c :: s = s1 ++ s2 /\ lang (Cls p) s1 /\ lang (upto n (Cls p)) s2) as Hcat.
      { exists [c], s. split; [done|]. split; [by apply lang_cls|]. apply IH. cbn in Hl. split; [lia|done]. }
      tauto.
Qed.

Lemma star_cls_lang p s : lang (Star (Cls p)) s <-> Forall (fun c => p c = true) s.
Proof.
  induction s as [|c s IH].
  - split; [constructor|]. intros _. apply lang_star_nil.
  - split.
    + intros (s1 & s2 & -> & H1 & H2)%star_cons_inv. inversion H1; subst. cbn.
      constructor; [done|]. by apply IH.
    + intros [Hc Hs]%Forall_cons. apply (lang_star_app _ [c] s); [by apply lang_cls|by apply IH].
Qed.

Lemma plus_cls_lang p s : lang (plus (Cls p)) s <-> s <> [] /\ Forall (fun c => p c = true) s.
Proof.
  unfold plus. rewrite cat_iff. split.
  - intros (s1 & s2 & -> & H1 & H2%star_cls_lang). inversion H1; subst. cbn.
    split; [done|by constructor].
  - intros [Hne Hs]. destruct s as [|c s]; [done|]. apply Forall_cons in Hs as [Hc Hs].
    exists [c], s. split; [done|]. split; [by apply lang_cls|by apply star_cls_lang].
Qed.
