(* ===== verification/Sha256.v ===== *)
(** SHA-256 (FIPS 180-4), the digest [hashlib.sha256(...).hexdigest()] computes.

    Words are [N] below 2^32, bytes [N] below 2^8.  The definition is
    executable; [sha256_abc] and [sha256_empty] check it against the standard's
    test vectors. *)

From S2P Require Import Prelude PyStr.
Local Open Scope N_scope.

Definition mask32 : N := 4294967295.
Definition add32 (x y : N) : N := N.land (x + y) mask32.
Definition rotr (n x : N) : N :=
  N.lor (N.shiftr x n) (N.land (N.shiftl x (32 - n)) mask32).

Definition ch (x y z : N) : N := N.lxor (N.land x y) (N.land (N.lxor x mask32) z).
Definition maj (x y z : N) : N := N.lxor (N.lxor (N.land x y) (N.land x z)) (N.land y z).
Definition bsig0 (x : N) : N := N.lxor (N.lxor (rotr 2 x) (rotr 13 x)) (rotr 22 x).
Definition bsig1 (x : N) : N := N.lxor (N.lxor (rotr 6 x) (rotr 11 x)) (rotr 25 x).
Definition ssig0 (x : N) : N := N.lxor (N.lxor (rotr 7 x) (rotr 18 x)) (N.shiftr x 3).
Definition ssig1 (x : N) : N := N.lxor (N.lxor (rotr 17 x) (rotr 19 x)) (N.shiftr x 10).

(** The constants of the standard are the first 32 bits of the fractional parts
    of roots of the first primes: cube roots for the rounds, square roots for
    the initial state.  They are computed here once. *)
Definition primes (below : nat) : list N :=
  N.of_nat <$> List.filter
    (fun n => negb (existsb (fun d => Nat.eqb (n mod d) 0) (seq 2 (n - 2)))) (seq 2 (below - 2)).

(** The integer cube root of a number below 2^108, bit by bit. *)
Definition cube_root (n : N) : N :=
  foldl (fun r i => let r' := r + 2 ^ N.of_nat i in if r' ^ 3 <=? n then r' else r) 0
    (reverse (seq 0 36)).

Definition round_constants : list N :=
  Eval vm_compute in (fun p => N.land (cube_root (N.shiftl p 96)) mask32) <$> primes 312.

Record hstate : Type := HState { ha : N; hb : N; hc : N; hd : N; he : N; hf : N; hg : N; hh : N }.

Definition initial_hash : hstate :=
  Eval vm_compute in
  match (fun p => N.land (N.sqrt (N.shiftl p 64)) mask32) <$> primes 20 with
  | [a; b; c; d; e; f; g; h] => HState a b c d e f g h
  | _ => HState 0 0 0 0 0 0 0 0
  end.

(** [n] bytes of [x], most significant first. *)
Fixpoint be_bytes (n : nat) (x : N) : list N :=
  match n with
  | O => []
  | S n' => (x / 256 ^ N.of_nat n') mod 256 :: be_bytes n' x
  end.

Definition pad (m : list N) : list N :=
  let len := N.of_nat (length m) in
  let zeros := (119 - len mod 64) mod 64 in
  m ++ [128] ++ replicate (N.to_nat zeros) 0 ++ be_bytes 8 (8 * len).

(** The 32-bit big-endian words of a byte string (length a multiple of 4). *)
Fixpoint words_of (bs : list N) : list N :=
  match bs with
  | a :: b :: c :: d :: bs' => (((a * 256 + b) * 256 + c) * 256 + d) :: words_of bs'
  | _ => []
  end.

(** The message schedule, most recent word first. *)
Fixpoint schedule (n : nat) (w : list N) : list N :=
  match n with
  | O => w
  | S n' =>
      let t := add32 (add32 (ssig1 (nth 1 w 0)) (nth 6 w 0))
                     (add32 (ssig0 (nth 14 w 0)) (nth 15 w 0)) in
      schedule n' (t :: w)
  end.

Definition round (s : hstate) (kw : N * N) : hstate :=
  let '(HState a b c d e f g h) := s in
  let t1 := add32 (add32 h (bsig1 e)) (add32 (ch e f g) (add32 kw.1 kw.2)) in
  let t2 := add32 (bsig0 a) (maj a b c) in
  HState (add32 t1 t2) a b c (add32 d t1) e f g.

Definition compress (s : hstate) (block : list N) : hstate :=
  let w := reverse (schedule 48 (reverse (words_of block))) in
  let '(HState a b c d e f g h) := foldl round s (zip round_constants w) in
  let '(HState a0 b0 c0 d0 e0 f0 g0 h0) := s in
  HState (add32 a0 a) (add32 b0 b) (add32 c0 c) (add32 d0 d)
         (add32 e0 e) (add32 f0 f) (add32 g0 g) (add32 h0 h).

(** The blocks are consumed while 64 bytes remain; [fuel] bounds their number. *)
Fixpoint process (fuel : nat) (s : hstate) (bs : list N) : hstate :=
  match fuel with
  | O => s
  | S fuel' =>
      match bs with
      | [] => s
      | _ => process fuel' (compress s (take 64 bs)) (drop 64 bs)
      end
  end.

Definition sha256_state (m : list N) : hstate :=
  let p := pad m in process (length p / 64)%nat initial_hash p.

Definition hex_digit (n : N) : N := if n <? 10 then 48 + n else 87 + n.

(** [n] hexadecimal digits of [x], most significant first. *)
Fixpoint hex_digits (n : nat) (x : N) : pystr :=
  match n with
  | O => []
  | S n' => hex_digit ((x / 16 ^ N.of_nat n') mod 16) :: hex_digits n' x
  end.

(** [hashlib.sha256(m).hexdigest()] *)
Definition hexdigest (m : list N) : pystr :=
  let '(HState a b c d e f g h) := sha256_state m in
  hex_digits 8 a ++ hex_digits 8 b ++ hex_digits 8 c ++ hex_digits 8 d ++
  hex_digits 8 e ++ hex_digits 8 f ++ hex_digits 8 g ++ hex_digits 8 h.

Example sha256_empty :
  hexdigest [] = u"e3b0c44298fc1c149afbf4c8996fb92427ae41e4649b934ca495991b7852b855".
Proof. vm_compute. reflexivity. Qed.

Example sha256_abc :
  hexdigest (u"abc") = u"ba7816bf8f01cfea414140de5dae2223b00361a396177a9cb410ff61f20015ad".
Proof. vm_compute. reflexivity. Qed.

(** A message whose padding spills into a second block. *)
Example sha256_two_blocks :
  hexdigest (u"abcdbcdecdefdefgefghfghighijhijkijkljklmklmnlmnomnopnopq") =
  u"248d6a61d20638b8e5c026930c3e6039a33ce45964ff2167f6ecedd419db06c1".
Proof. vm_compute. reflexivity. Qed.

(** ** The shape of a digest *)

Lemma hex_digit_lower n : n < 16 -> lower_hex (hex_digit n) = true.
Proof.
  intros Hn. unfold hex_digit, lower_hex, ascii_digit, in_range.
  destruct (N.ltb_spec n 10); bprop; rewrite ?N.leb_le; lia.
Qed.

Lemma hex_digits_length n x : length (hex_digits n x) = n.
Proof. induction n; cbn; auto. Qed.

Lemma hex_digits_lower n x : Forall (fun c => lower_hex c = true) (hex_digits n x).
Proof.
  induction n as [|n IH]; cbn; constructor; [|done]. apply hex_digit_lower. by apply N.mod_lt.
Qed.

Lemma hexdigest_length m : length (hexdigest m) = 64%nat.
Proof.
  unfold hexdigest. destruct (sha256_state m). rewrite !length_app, !hex_digits_length. done.
Qed.

Lemma hexdigest_lower m : Forall (fun c => lower_hex c = true) (hexdigest m).
Proof.
  unfold hexdigest. destruct (sha256_state m).
  repeat (apply Forall_app; split); apply hex_digits_lower.
Qed.

#[export] Hint Resolve hexdigest_length hexdigest_lower : saena.
