(* ===== verification/PyRepr.v ===== *)
(** [repr] of Python strings and of lists of them. *)

From S2P Require Import Prelude PyStr Sha256.

(** [str.isprintable] of a character beyond ASCII. *)
Class Printable := is_printable : N -> bool.

(** The [repr] of a character inside the quote [q]. *)
Definition repr_char `{Printable} (q c : N) : pystr :=
  (if (c =? q) || (c =? 92) then [92; c]
   else if c =? 9 then [92; 116] else if c =? 10 then [92; 110] else if c =? 13 then [92; 114]
   else if (c <? 32) || (c =? 127) then [92; 120] ++ hex_digits 2 c
   else if (c <? 127) || is_printable c then [c]
   else if c <? 256 then [92; 120] ++ hex_digits 2 c
   else if c <? 65536 then [92; 117] ++ hex_digits 4 c
   else [92; 85] ++ hex_digits 8 c)%N.

(** [repr(s)]: in single quotes, unless only the double quote is absent. *)
Definition py_repr `{Printable} (s : pystr) : pystr :=
  let has c := existsb (N.eqb c) s in
  let q := if has 39%N && negb (has 34%N) then 34%N else 39%N in
  [q] ++ concat (map (repr_char q) s) ++ [q].

(** [repr] of a list of strings. *)
Definition py_repr_list `{Printable} (l : list pystr) : pystr := u "[" ++ join (u ", ") (py_repr <$> l) ++ u "]".
