(* ===== verification/Glob.v ===== *)
(** [fnmatch.fnmatch] of Python's standard library, on a system whose path
    names are case sensitive: a pattern is translated to a regular expression
    of [Regex].  A star matches any text, also a slash; a bracket that is never
    closed is an ordinary character. *)

From S2P Require Import Prelude PyStr Regex.
Local Open Scope N_scope.

(** ** The content of a bracket

    [translate] splits the content at the hyphens that make ranges, joins two
    pieces whose range is empty, and writes the pieces with hyphens between
    them. *)

(** The pieces: a hyphen splits after [skip] more characters at the earliest. *)
Fixpoint pieces (skip : nat) (cur s : pystr) : list pystr :=
  match s with
  | [] => [cur]
  | c :: s =>
      match skip with
      | O => if c =? 45 then cur :: pieces 2 [] s else pieces O (cur ++ [c]) s
      | S skip => pieces skip (cur ++ [c]) s
      end
  end.

(** An empty last piece gives its hyphen back to the one before. *)
Fixpoint close_last (ps : list pystr) : list pystr :=
  match ps with
  | [p; []] => [p ++ [45]]
  | p :: ps => p :: close_last ps
  | [] => []
  end.

Fixpoint drop_empty_ranges (ps : list pystr) : list pystr :=
  match ps with
  | [] => []
  | p :: ps =>
      match drop_empty_ranges ps with
      | q :: qs =>
          match last p, head q with
          | Some hi, Some lo => if lo <? hi then (removelast p ++ tail q) :: qs else p :: q :: qs
          | _, _ => p :: q :: qs
          end
      | [] => [p]
      end
  end.

Inductive set_token := SChar (c : N) | SRange.

Definition set_tokens (ps : list pystr) : list set_token :=
  match ps with
  | [] => []
  | p :: ps => (SChar <$> p) ++ concat ((fun q => SRange :: (SChar <$> q)) <$> ps)
  end.

Fixpoint in_set (ts : list set_token) (c : N) : bool :=
  match ts with
  | [] => false
  | SChar a :: SRange :: SChar b :: ts => in_range a b c || in_set ts c
  | SChar a :: ts => (c =? a) || in_set ts c
  | SRange :: ts => (c =? 45) || in_set ts c
  end.

(** The characters a bracket matches; [!] (33) negates. *)
Definition bracket (stuff : pystr) (c : N) : bool :=
  let first := if bool_decide (head stuff = Some 33) then 2%nat else 1%nat in
  match set_tokens (drop_empty_ranges (close_last (pieces first [] stuff))) with
  | SChar 33 :: ts => negb (in_set ts c)
  | ts => in_set ts c
  end.

(** ** Patterns *)

(** Whether the text after a [\[] closes the bracket: the first character, or the
    second after [!], may be a [\]] of the content. *)
Definition closes (s : pystr) : bool :=
  let s := match s with 33 :: s => s | _ => s end in
  existsb (N.eqb 93) (tail s).

(** [opened] is the content of the bracket so far. *)
Fixpoint translate (opened : option pystr) (pat : pystr) : re :=
  match pat, opened with
  | [], _ => Eps
  | c :: pat, Some stuff =>
      if (c =? 93) && negb (bool_decide (stuff = [] \/ stuff = [33]))
      then Cat (Cls (bracket stuff)) (translate None pat)
      else translate (Some (stuff ++ [c])) pat
  | c :: pat, None =>
      if c =? 42 then Cat any (translate None pat)
      else if c =? 63 then Cat (Cls (fun _ => true)) (translate None pat)
      else if (c =? 91) && closes pat then translate (Some []) pat
      else Cat (chr c) (translate None pat)
  end.

Definition fnmatch (name pat : pystr) : bool := accepts (translate None pat) name.

(** ** What patterns without a bracket match *)

Inductive glob : pystr -> pystr -> Prop :=
  | glob_nil : glob [] []
  | glob_star s t pat : glob pat t -> glob (42 :: pat) (s ++ t)
  | glob_one c t pat : glob pat t -> glob (63 :: pat) (c :: t)
  | glob_chr c t pat : c <> 42 -> c <> 63 -> c <> 91 -> glob pat t -> glob (c :: pat) (c :: t).

Lemma cls_cat_lang p r s : lang (Cat (Cls p) r) s <-> exists c t, s = c :: t /\ p c = true /\ lang r t.
Proof.
  rewrite cat_iff. split.
  - intros (s1 & s2 & -> & H1 & H2). inversion H1; subst. eauto.
  - intros (c & t & -> & Hc & Ht). exists [c], t. split; [done|]. split; [by apply lang_cls|done].
Qed.

(** A pattern without a bracket matches what the wildcards say. *)
Theorem fnmatch_glob pat : 91 ∉ pat -> forall name, fnmatch name pat = true <-> glob pat name.
Proof.
  unfold fnmatch. induction pat as [|c pat IH]; intros Hno name; rewrite accepts_spec; cbn.
  - split; [inversion 1; constructor|inversion 1; constructor].
  - assert (c <> 91 /\ 91 ∉ pat) as [Hc Hno'] by set_solver. specialize (IH Hno').
    destruct (N.eqb_spec c 42) as [->|H42]; [|destruct (N.eqb_spec c 63) as [->|H63]].
    + rewrite cat_iff. split.
      * intros (s1 & s2 & -> & _ & H2). constructor. by apply IH, accepts_spec.
      * inversion 1; subst; [|congruence]. exists s, t. split; [done|]. split; [apply any_lang|]. by apply accepts_spec, IH.
    + rewrite cls_cat_lang. split.
      * intros (d & t & -> & _ & Ht). constructor. by apply IH, accepts_spec.
      * inversion 1; subst; [|congruence]. exists c, t. split; [done|]. split; [done|]. by apply accepts_spec, IH.
    + destruct (N.eqb_spec c 91) as [?|_]; [done|]. cbn. unfold chr. rewrite cls_cat_lang. split.
      * intros (d & t & -> & <-%N.eqb_eq & Ht). constructor; try done. by apply IH, accepts_spec.
      * inversion 1; subst; try congruence. exists c, t. split; [done|]. split; [apply N.eqb_refl|]. by apply accepts_spec, IH.
Qed.

(** A pattern without wildcards matches itself. *)
Corollary fnmatch_literal pat name : Forall (fun c => c <> 42 /\ c <> 63 /\ c <> 91) pat -> fnmatch name pat = true <-> name = pat.
Proof.
  intros Hp. rewrite fnmatch_glob by (intros Hin; rewrite Forall_forall in Hp; by destruct (Hp _ Hin) as (_ & _ & ?)).
  revert name. induction Hp as [|c pat (H1 & H2 & H3) _ IH]; intros name; split.
  - by inversion 1.
  - intros ->. constructor.
  - inversion 1; subst; try congruence. f_equal. by apply IH.
  - intros ->. constructor; try done. by apply IH.
Qed.

Module Examples.
Example star_crosses : fnmatch (u "src/a/b.py") (u "src/*.py") = true.
Proof. reflexivity. Qed.
Example one_character : fnmatch (u "a1") (u "a?") = true /\ fnmatch (u "a12") (u "a?") = false.
Proof. done. Qed.
Example ranges : (fun p => fnmatch (u "b") (u p)) <$> ["[a-c]"; "[!a-c]"; "[c-a]"; "[-b]"; "[b-]"; "[]b]"; "[b"; "[!c-a]"]%string =
  [true; false; false; true; true; true; false; true].
Proof. reflexivity. Qed.
End Examples.
