(* ===== verification/PyVal.v ===== *)
(** Python values: the JSON-shaped objects the services pass around as [Any]
    or [dict[str, Any]], with [bytes] as the one non-JSON leaf the sources
    treat explicitly, and [json.dumps] over them.

    A float is an IEEE binary64 value.  Its shortest decimal rendering
    ([float.__repr__]) is an operation of the class [FloatRepr], with the three
    facts about it that JSON output relies on. *)

From Stdlib Require Import SpecFloat.
From stdpp Require Import sorting.
From S2P Require Import Prelude PyStr Sha256.
Local Open Scope N_scope.

(** The exceptions of the language and its standard library that the sources
    raise or let through; [InvalidOperation] is that of [decimal]. *)
Inductive pyexn : Type := TypeError | ValueError | KeyError | OverflowError | UnicodeEncodeError | AssertionError
  | InvalidOperation.

#[export] Instance pyexn_eq_dec : EqDecision pyexn.
Proof. solve_decision. Defined.

(** ** Floats *)

Definition f64 : Type := { f : spec_float | valid_binary 53 1024 f = true }.

(** [math.isfinite] *)
Definition is_finite_f64 (f : f64) : bool :=
  match proj1_sig f with S754_zero _ | S754_finite _ _ _ => true | _ => false end.

#[export] Instance spec_float_eq_dec : EqDecision spec_float.
Proof. solve_decision. Defined.
#[export] Instance f64_eq_dec : EqDecision f64.
Proof. unfold f64. apply _. Defined.

Definition number_char (c : N) : bool :=
  decimal_char c || (c =? 46) || (c =? 101) || (c =? 43).

Class FloatRepr := {
  float_repr : f64 -> pystr;
  float_repr_chars f : is_finite_f64 f = true ->
    Forall (fun c => number_char c = true) (float_repr f);
  float_repr_point f : is_finite_f64 f = true ->
    Exists (fun c => decimal_char c = false) (float_repr f);
  float_repr_inj f g : is_finite_f64 f = true -> is_finite_f64 g = true ->
    float_repr f = float_repr g -> f = g
}.

(** ** Values *)

Inductive pyval : Type :=
  | PNone
  | PBool (b : bool)
  | PInt (z : Z)
  | PFloat (f : f64)
  | PStr (s : pystr)
  | PBytes (b : list N)
  | PList (l : list pyval)
  | PDict (kvs : list (pystr * pyval)).

Section pyval_ind.
Variable P : pyval -> Prop.
Hypotheses (HNone : P PNone) (HBool : forall b, P (PBool b)) (HInt : forall z, P (PInt z))
  (HFloat : forall f, P (PFloat f)) (HStr : forall s, P (PStr s)) (HBytes : forall b, P (PBytes b))
  (HList : forall l, Forall P l -> P (PList l))
  (HDict : forall kvs, Forall (fun kv => P kv.2) kvs -> P (PDict kvs)).

Fixpoint pyval_nested_ind (v : pyval) : P v :=
  match v with
  | PNone => HNone | PBool b => HBool b | PInt z => HInt z | PFloat f => HFloat f
  | PStr s => HStr s | PBytes b => HBytes b
  | PList l => HList l ((fix go l : Forall P l :=
      match l with
      | [] => @List.Forall_nil _ P
      | v :: l' => @List.Forall_cons _ P v l' (pyval_nested_ind v) (go l')
      end) l)
  | PDict kvs => HDict kvs ((fix go kvs : Forall (fun kv => P kv.2) kvs :=
      match kvs with
      | [] => @List.Forall_nil _ _
      | kv :: kvs' => @List.Forall_cons _ (fun kv => P kv.2) kv kvs' (pyval_nested_ind kv.2) (go kvs')
      end) kvs)
  end.
End pyval_ind.

(** [d.get(k)] on the items of a dict. *)
Fixpoint dget (kvs : list (pystr * pyval)) (k : pystr) : option pyval :=
  match kvs with
  | [] => None
  | (k', v) :: kvs' => if decide (k' = k) then Some v else dget kvs' k
  end.

(** Python's dicts have distinct keys. *)
Fixpoint wf_val (v : pyval) : Prop :=
  match v with
  | PList l => foldr (fun v P => wf_val v /\ P) True l
  | PDict kvs => NoDup kvs.*1 /\ foldr (fun kv P => wf_val kv.2 /\ P) True kvs
  | _ => True
  end.

(** Unicode scalar values: the code points a well-formed string is made of. *)
Definition scalar (c : N) : bool := (c <? 1114112) && negb (in_range 55296 57343 c).
Definition scalar_str (s : pystr) : Prop := Forall (fun c => scalar c = true) s.

Fixpoint scalar_val (v : pyval) : Prop :=
  match v with
  | PStr s => scalar_str s
  | PList l => foldr (fun v P => scalar_val v /\ P) True l
  | PDict kvs => foldr (fun kv P => (scalar_str kv.1 /\ scalar_val kv.2) /\ P) True kvs
  | _ => True
  end.

(** Executable versions of the two predicates. *)
Fixpoint wf_valb (v : pyval) : bool :=
  match v with
  | PList l => forallb wf_valb l
  | PDict kvs => bool_decide (NoDup kvs.*1) && forallb (fun kv => wf_valb kv.2) kvs
  | _ => true
  end.

Fixpoint scalar_valb (v : pyval) : bool :=
  match v with
  | PStr s => forallb scalar s
  | PList l => forallb scalar_valb l
  | PDict kvs => forallb (fun kv => forallb scalar kv.1 && scalar_valb kv.2) kvs
  | _ => true
  end.

Lemma wf_valb_wf v : wf_valb v = true -> wf_val v.
Proof.
  induction v as [|b|z|f|s|b|l IH|kvs IH] using pyval_nested_ind; try done; cbn.
  - induction IH as [|v l Hv Hl IHl]; cbn; [done|]. rewrite andb_true_iff. naive_solver.
  - rewrite andb_true_iff, bool_decide_eq_true. intros [? Hf]. split; [done|]. revert Hf. clear -IH.
    induction IH as [|v l Hv Hl IHl]; cbn; [done|]. rewrite andb_true_iff. naive_solver.
Qed.

Lemma scalar_strb s : forallb scalar s = true -> scalar_str s.
Proof. intros Hs. apply Forall_forall. by apply forallb_elem. Qed.

Lemma scalar_valb_scalar v : scalar_valb v = true -> scalar_val v.
Proof.
  induction v as [|b|z|f|s|b|l IH|kvs IH] using pyval_nested_ind; try done; cbn.
  - apply scalar_strb.
  - induction IH as [|v l Hv Hl IHl]; cbn; [done|]. rewrite andb_true_iff. naive_solver.
  - induction IH as [|v l Hv Hl IHl]; cbn; [done|]. rewrite !andb_true_iff.
    intros [[?%scalar_strb ?] ?]. naive_solver.
Qed.

(** ** [json.dumps(obj, sort_keys=True, separators=(",", ":"), ensure_ascii=True)] *)

Section dumps.
Context `{FloatRepr}.

Definition uXXXX (n : N) : pystr := 92 :: 117 :: hex_digits 4 n.

Definition escape_char (c : N) : pystr :=
  if c =? 34 then [92; 34]
  else if c =? 92 then [92; 92]
  else if c =? 10 then [92; 110]
  else if c =? 13 then [92; 114]
  else if c =? 9 then [92; 116]
  else if c =? 12 then [92; 102]
  else if c =? 8 then [92; 98]
  else if in_range 32 126 c then [c]
  else if c <? 65536 then uXXXX c
  else uXXXX (55296 + (c - 65536) / 1024) ++ uXXXX (56320 + (c - 65536) mod 1024).

Definition quote_str (s : pystr) : pystr := 34 :: (s ≫= escape_char) ++ [34].

Definition dumps_float (f : f64) : pystr :=
  match proj1_sig f with
  | S754_nan => u"NaN"
  | S754_infinity false => u"Infinity"
  | S754_infinity true => u"-Infinity"
  | _ => float_repr f
  end.

Definition dumps_list (ws : list pystr) : pystr := 91 :: join [44] ws ++ [93].
Definition dumps_item (kw : pystr * pystr) : pystr := quote_str kw.1 ++ 58 :: kw.2.
Definition dumps_dict (kws : list (pystr * pystr)) : pystr :=
  123 :: join [44] (dumps_item <$> kws) ++ [125].

(** The text of a serializable value; [serializable] says when the encoder
    reaches no object it rejects with [TypeError]. *)
Fixpoint dumps (v : pyval) : pystr :=
  match v with
  | PNone => u"null"
  | PBool true => u"true"
  | PBool false => u"false"
  | PInt z => str_of_Z z
  | PFloat f => dumps_float f
  | PStr s => quote_str s
  | PBytes _ => []
  | PList l => dumps_list (dumps <$> l)
  | PDict kvs => dumps_dict (sort_by fst ((fun kv => (kv.1, dumps kv.2)) <$> kvs))
  end.
End dumps.

Fixpoint serializable (v : pyval) : bool :=
  match v with
  | PBytes _ => false
  | PList l => forallb serializable l
  | PDict kvs => forallb (fun kv => serializable kv.2) kvs
  | _ => true
  end.

Definition json_dumps `{FloatRepr} (v : pyval) : result pyexn pystr :=
  if serializable v then Ok (dumps v) else Raise TypeError.

(** The canonical form of a value: the keys of every dict sorted.  Two values
    are the same Python object up to dict order when these agree. *)
Fixpoint canon (v : pyval) : pyval :=
  match v with
  | PList l => PList (canon <$> l)
  | PDict kvs => PDict (sort_by fst ((fun kv => (kv.1, canon kv.2)) <$> kvs))
  | _ => v
  end.

(** Equality of values up to the order of dict items, at every depth. *)
#[export] Instance pyval_equiv : Equiv pyval := fun v w => canon v = canon w.
#[export] Instance pyval_equivalence : Equivalence (≡@{pyval}).
Proof. split; unfold equiv, pyval_equiv; repeat intro; congruence. Qed.

(** ** A concrete [FloatRepr]

    Significand and exponent in decimal: not Python's text, but a rendering
    with the three laws, to instantiate the theorems at. *)

Definition sci_repr (f : f64) : pystr :=
  match proj1_sig f with
  | S754_zero s => if s then u"-0.0" else u"0.0"
  | S754_finite s m e => str_of_Z (if s then Z.neg m else Z.pos m) ++ 101 :: str_of_Z e
  | _ => []
  end.

Lemma app_sep_inj (P : N -> Prop) (c : N) a1 a2 b1 b2 :
  ~ P c -> Forall P a1 -> Forall P a2 -> a1 ++ c :: b1 = a2 ++ c :: b2 -> a1 = a2 /\ b1 = b2.
Proof.
  intros Hc Ha1. revert a2. induction Ha1 as [|x a1 Hx Ha1 IH]; intros a2 Ha2; destruct Ha2 as [|y a2 Hy Ha2];
    cbn; intros Heq; injection Heq as Heq.
  - done.
  - by subst.
  - by subst.
  - subst. by edestruct IH as [-> ->].
Qed.

Lemma sci_repr_finite_chars s m e :
  Forall (fun c => number_char c = true) (str_of_Z (if s : bool then Z.neg m else Z.pos m) ++ 101 :: str_of_Z e).
Proof.
  assert (forall z, Forall (fun c => number_char c = true) (str_of_Z z)) as Hz.
  { intros z. eapply Forall_impl; [apply str_of_Z_chars|]. cbn. intros c Hc. unfold number_char. by rewrite Hc. }
  apply Forall_app; split; [apply Hz|]. by constructor.
Qed.

Definition sci_float_repr : FloatRepr.
Proof.
  refine {| float_repr := sci_repr |}; unfold sci_repr, is_finite_f64.
  - intros f. destruct (proj1_sig f) as [[]| | |s m e]; try done; intros _; [by repeat constructor..|].
    apply sci_repr_finite_chars.
  - intros f. destruct (proj1_sig f) as [[]| | |s m e]; try done; intros _.
    + do 2 apply List.Exists_cons_tl. by constructor.
    + apply List.Exists_cons_tl. by constructor.
    + apply Exists_app. right. by constructor.
  - intros f g Hf Hg Heq. apply (sig_eq_pi _).
    assert (forall s m e t, t ∈ [u"-0.0"; u"0.0"] ->
      str_of_Z (if s : bool then Z.neg m else Z.pos m) ++ 101 :: str_of_Z e <> t) as Hz.
    { intros s m e t Ht Habs. assert (46 ∈ t) as Hin.
      { repeat (apply elem_of_cons in Ht as [->|Ht]; [by_decide|]). by apply elem_of_nil in Ht. }
      rewrite <- Habs in Hin. apply elem_of_app in Hin as [Hin|[Hin|Hin]%elem_of_cons]; [|done|];
        pose proof (str_of_Z_chars (if s then Z.neg m else Z.pos m)) as H1;
        pose proof (str_of_Z_chars e) as H2; rewrite Forall_forall in H1, H2;
        [apply H1 in Hin|apply H2 in Hin]; done. }
    destruct (proj1_sig f) as [[]| | |s m e], (proj1_sig g) as [[]| | |s' m' e']; try done;
      try (exfalso; (eapply Hz; [|exact Heq]); set_solver);
      try (exfalso; (eapply Hz; [|exact (eq_sym Heq)]); set_solver).
    apply (app_sep_inj (fun c => decimal_char c = true)) in Heq as [Hm He]; [|done|apply str_of_Z_chars..].
    apply str_of_Z_inj in He as ->. apply str_of_Z_inj in Hm. destruct s, s'; congruence.
Defined.
