(* ===== verification/Canonical.v ===== *)
(** [saena_domain/audit/canonical.py]: canonical JSON and its digest.

    [canonical_json] is [json.dumps] with sorted keys, compact separators and
    ASCII output; [sha256_hex] is the digest of the UTF-8 encoding.  The main
    lemma of the file is unique readability: two values whose strings are
    well formed render alike only when they are equal up to dict order.  It
    is what makes every hash of the system commit to the whole document. *)

From Stdlib Require Import SpecFloat.
From stdpp Require Import sorting.
From S2P Require Import Prelude PyStr Sha256 PyVal.
Local Open Scope N_scope.

Section canonical.
Context `{FloatRepr}.

(** [canonical_json(obj)] *)
Definition canonical_json (obj : pyval) : result pyexn pystr := json_dumps obj.

(** [sha256_hex(text)] *)
Definition sha256_hex (text : pystr) : result pyexn pystr :=
  match utf8_encode text with
  | Some bytes => Ok (hexdigest bytes)
  | None => Raise UnicodeEncodeError
  end.
End canonical.

(** ** Characters *)

Lemma hex_digit_inj m n : m < 16 -> n < 16 -> hex_digit m = hex_digit n -> m = n.
Proof. unfold hex_digit. do 2 case_match; rewrite ?N.ltb_lt, ?N.ltb_ge in *; lia. Qed.

Lemma hex_digits_mod n x : hex_digits n (x mod 16 ^ N.of_nat n) = hex_digits n x.
Proof.
  assert (forall k, (k <= n)%nat -> hex_digits k (x mod 16 ^ N.of_nat n) = hex_digits k x) as Hk.
  { induction k as [|k IH]; intros Hk; cbn; [done|]. rewrite IH by lia. f_equal. f_equal.
    rewrite (N.div_mod x (16 ^ N.of_nat n)) at 2 by (by apply N.pow_nonzero).
    replace (N.of_nat n) with ((N.of_nat n - N.of_nat (S k)) + 1 + N.of_nat k) at 2 by lia.
    rewrite !N.pow_add_r, N.pow_1_r.
    set (q := x / _). set (r := x mod _).
    replace (16 ^ (N.of_nat n - N.of_nat (S k)) * 16 * 16 ^ N.of_nat k * q + r)
      with (r + (16 ^ (N.of_nat n - N.of_nat (S k)) * 16 * q) * 16 ^ N.of_nat k) by lia.
    rewrite N.div_add by (by apply N.pow_nonzero).
    replace (16 ^ (N.of_nat n - N.of_nat (S k)) * 16 * q)
      with ((16 ^ (N.of_nat n - N.of_nat (S k)) * q) * 16) by lia.
    by rewrite N.Div0.mod_add. }
  by apply Hk.
Qed.

Lemma hex_digits_inj n x y :
  x < 16 ^ N.of_nat n -> y < 16 ^ N.of_nat n -> hex_digits n x = hex_digits n y -> x = y.
Proof.
  revert x y. induction n as [|n IH]; intros x y Hx Hy; cbn.
  - change (16 ^ N.of_nat 0) with 1 in *. lia.
  - intros [=Hd Hr]. rewrite Nat2N.inj_succ, N.pow_succ_r' in Hx, Hy.
    assert (0 < 16 ^ N.of_nat n) by (apply N.neq_0_lt_0; by apply N.pow_nonzero).
    apply hex_digit_inj in Hd; [|by apply N.mod_lt..].
    assert (forall z, z < 16 * 16 ^ N.of_nat n -> z / 16 ^ N.of_nat n < 16) as Hlt.
    { intros z Hz. apply N.Div0.div_lt_upper_bound. lia. }
    rewrite !N.mod_small in Hd by auto.
    rewrite <- (hex_digits_mod n x), <- (hex_digits_mod n y) in Hr.
    apply IH in Hr; [|apply N.mod_lt; lia..].
    rewrite (N.div_mod x (16 ^ N.of_nat n)), (N.div_mod y (16 ^ N.of_nat n)) by lia. congruence.
Qed.

Lemma uXXXX_app_inj m n r1 r2 :
  m < 65536 -> n < 65536 -> uXXXX m ++ r1 = uXXXX n ++ r2 -> m = n /\ r1 = r2.
Proof.
  intros Hm Hn Heq.
  change ([92; 117] ++ (hex_digits 4 m ++ r1) = [92; 117] ++ (hex_digits 4 n ++ r2)) in Heq.
  apply (inj ([92; 117] ++.)) in Heq.
  apply app_inj_1 in Heq as [Heq ->]; [|by rewrite !hex_digits_length].
  split; [|done]. by apply (hex_digits_inj 4).
Qed.

(** The escape sequence of a character starts with a backslash, or is the
    printable character itself. *)
Inductive escaped (c : N) : pystr -> Prop :=
  | esc_plain : in_range 32 126 c = true -> c <> 34 -> c <> 92 -> escaped c [c]
  | esc_short d : (c, d) ∈ [(34, 34); (92, 92); (10, 110); (13, 114); (9, 116); (12, 102); (8, 98)] ->
      escaped c [92; d]
  | esc_u : c < 65536 -> escaped c (uXXXX c)
  | esc_pair : 65536 <= c ->
      escaped c (uXXXX (55296 + (c - 65536) / 1024) ++ uXXXX (56320 + (c - 65536) mod 1024)).

Lemma escape_char_escaped c : escaped c (escape_char c).
Proof.
  unfold escape_char.
  destruct (N.eqb_spec c 34) as [->|]; [by apply esc_short; set_solver|].
  destruct (N.eqb_spec c 92) as [->|]; [by apply esc_short; set_solver|].
  destruct (N.eqb_spec c 10) as [->|]; [by apply esc_short; set_solver|].
  destruct (N.eqb_spec c 13) as [->|]; [by apply esc_short; set_solver|].
  destruct (N.eqb_spec c 9) as [->|]; [by apply esc_short; set_solver|].
  destruct (N.eqb_spec c 12) as [->|]; [by apply esc_short; set_solver|].
  destruct (N.eqb_spec c 8) as [->|]; [by apply esc_short; set_solver|].
  destruct (in_range 32 126 c) eqn:?; [by apply esc_plain|].
  destruct (N.ltb_spec c 65536); [by apply esc_u|by apply esc_pair].
Qed.

Lemma scalar_bounds c : scalar c = true -> c < 1114112 /\ ~ (55296 <= c <= 57343).
Proof. unfold scalar, in_range. bprop. rewrite N.ltb_lt, !N.leb_gt. lia. Qed.

Lemma escape_char_head c : exists x t, escape_char c = x :: t /\ x <> 34.
Proof. destruct (escape_char_escaped c); unfold uXXXX; cbn; eauto. Qed.

Lemma escape_char_app_inj c d r1 r2 :
  scalar c = true -> scalar d = true ->
  escape_char c ++ r1 = escape_char d ++ r2 -> c = d /\ r1 = r2.
Proof.
  intros [Hc Hc']%scalar_bounds [Hd Hd']%scalar_bounds.
  assert (forall m, m < 1114112 -> 65536 <= m -> (m - 65536) / 1024 < 1024) as Hhi.
  { intros m ??. apply N.Div0.div_lt_upper_bound. lia. }
  assert (forall m, (m - 65536) mod 1024 < 1024) as Hlo by (intros; by apply N.mod_lt).
  destruct (escape_char_escaped c) as [? ? ?|x Hx|?|?], (escape_char_escaped d) as [? ? ?|y Hy|?|?];
    rewrite <- ?app_assoc.
  - cbn. intros [=]; done.
  - cbn. intros [=]; done.
  - cbn. intros [=]; done.
  - cbn. intros [=]; done.
  - cbn. intros [=]; done.
  - cbn. intros [=-> ->]. split; [|done]. set_solver.
  - cbn. intros [=-> _]. set_solver.
  - cbn. intros [=-> _]. set_solver.
  - cbn. intros [=]; done.
  - cbn. intros [=<- _]. set_solver.
  - intros [-> ->]%uXXXX_app_inj; done.
  - specialize (Hhi d ltac:(lia) ltac:(lia)). revert Hhi. generalize ((d - 65536) / 1024). intros q Hq [? ?]%uXXXX_app_inj; [exfalso| |]; lia.
  - cbn. intros [=]; done.
  - cbn. intros [=<- _]. set_solver.
  - specialize (Hhi c ltac:(lia) ltac:(lia)). revert Hhi. generalize ((c - 65536) / 1024). intros q Hq [? ?]%uXXXX_app_inj; [exfalso| |]; lia.
  - pose proof (Hhi c ltac:(lia) ltac:(lia)). pose proof (Hhi d ltac:(lia) ltac:(lia)).
    pose proof (Hlo c). pose proof (Hlo d).
    intros [Heq Hr]%uXXXX_app_inj; [|lia..]. apply uXXXX_app_inj in Hr as [Heq' ->]; [|lia..].
    split; [|done].
    pose proof (N.div_mod (c - 65536) 1024). pose proof (N.div_mod (d - 65536) 1024). lia.
Qed.

(** The body of a string literal determines the string and where it ends. *)
Lemma escape_str_app_inj s1 s2 r1 r2 :
  scalar_str s1 -> scalar_str s2 ->
  (s1 ≫= escape_char) ++ 34 :: r1 = (s2 ≫= escape_char) ++ 34 :: r2 -> s1 = s2 /\ r1 = r2.
Proof.
  intros Hs1. revert s2. induction Hs1 as [|c s1 Hc Hs1 IH]; intros s2 Hs2; destruct Hs2 as [|d s2 Hd Hs2]; cbn.
  - by intros [=->].
  - destruct (escape_char_head d) as (x & t & -> & Hx). cbn. by intros [=<- _].
  - destruct (escape_char_head c) as (x & t & -> & Hx). cbn. by intros [=-> _].
  - rewrite <- !app_assoc. intros [-> Heq]%escape_char_app_inj; [|done..].
    apply IH in Heq as [-> ->]; done.
Qed.

Lemma quote_str_app_inj s1 s2 r1 r2 :
  scalar_str s1 -> scalar_str s2 ->
  quote_str s1 ++ r1 = quote_str s2 ++ r2 -> s1 = s2 /\ r1 = r2.
Proof.
  intros ?? Heq. unfold quote_str in Heq. cbn in Heq. injection Heq as Heq.
  rewrite <- !app_assoc in Heq. by apply escape_str_app_inj.
Qed.

(** ** Values *)

(** What may follow a value: nothing, or a comma or closing bracket. *)
Definition is_delim (c : N) : bool := (c =? 44) || (c =? 93) || (c =? 125).
Definition delimited (r : pystr) : Prop := match r with [] => True | c :: _ => is_delim c = true end.

Definition plain_text (s : pystr) : Prop := Forall (fun c => is_delim c = false) s.

Lemma plain_app_inj s1 s2 r1 r2 :
  plain_text s1 -> plain_text s2 -> delimited r1 -> delimited r2 ->
  s1 ++ r1 = s2 ++ r2 -> s1 = s2 /\ r1 = r2.
Proof.
  intros Hs1 Hs2 Hr1 Hr2. revert s2 Hs2.
  induction Hs1 as [|c s1 Hc Hs1 IH]; intros s2 Hs2; destruct Hs2 as [|d s2 Hd Hs2]; cbn.
  - done.
  - intros ->. cbn in Hr1. congruence.
  - intros <-. cbn in Hr2. congruence.
  - intros [=-> Heq]. apply IH in Heq as [-> ->]; done.
Qed.

Lemma join_cons_split (sep : pystr) w ws r :
  join sep (w :: ws) ++ r = w ++ match ws with [] => r | _ => sep ++ join sep ws ++ r end.
Proof. destruct ws; cbn; [done|]. by rewrite <- !app_assoc. Qed.

(** A comma-separated sequence is uniquely readable when its elements are. *)
Lemma join_app_inj {A} (Q : A -> Prop) (f : A -> pystr) (close : N) l1 l2 r1 r2 :
  is_delim close = true -> close <> 44 ->
  (forall b, Q b -> exists x t, f b = x :: t /\ is_delim x = false) ->
  Forall (fun a => forall b r1 r2, Q a -> Q b -> delimited r1 -> delimited r2 ->
    f a ++ r1 = f b ++ r2 -> a = b /\ r1 = r2) l1 ->
  Forall Q l1 -> Forall Q l2 ->
  join [44] (f <$> l1) ++ close :: r1 = join [44] (f <$> l2) ++ close :: r2 -> l1 = l2 /\ r1 = r2.
Proof.
  intros Hclose Hne Hhead Hinj HQ1. revert l2. induction Hinj as [|a l1 Ha Hinj IH]; intros l2 HQ2 Heq.
  - destruct l2 as [|b l2]; [by injection Heq as ->|].
    apply Forall_cons in HQ2 as [Hb _]. destruct (Hhead b Hb) as (x & t & Hx & Hd).
    rewrite fmap_cons, join_cons_split, Hx in Heq. cbn in Heq. injection Heq as <- _. congruence.
  - apply Forall_cons in HQ1 as [Hqa HQ1]. destruct l2 as [|b l2].
    { destruct (Hhead a Hqa) as (x & t & Hx & Hd).
      rewrite fmap_cons, join_cons_split, Hx in Heq. cbn in Heq. injection Heq as -> _. congruence. }
    apply Forall_cons in HQ2 as [Hqb HQ2]. rewrite !fmap_cons, !join_cons_split in Heq.
    apply Ha in Heq as [-> Heq]; [|done..| |].
    + destruct l1 as [|a' l1], l2 as [|b' l2]; cbn [fmap list_fmap] in Heq.
      * by injection Heq as ->.
      * injection Heq as -> _. done.
      * injection Heq as <- _. done.
      * apply (inj ([44] ++.)) in Heq. apply (IH HQ1 (b' :: l2)) in Heq as [-> ->]; done.
    + by destruct l1.
    + by destruct l2.
Qed.

Section injective.
Context `{FloatRepr}.

(** [dumps] without the sorting, for values already in canonical form. *)
Fixpoint raw (v : pyval) : pystr :=
  match v with
  | PList l => 91 :: join [44] (raw <$> l) ++ [93]
  | PDict kvs => 123 :: join [44] ((fun kv => dumps_item (kv.1, raw kv.2)) <$> kvs) ++ [125]
  | _ => dumps v
  end.

Definition good (v : pyval) : Prop := serializable v = true /\ scalar_val v.

Definition atom (v : pyval) : Prop :=
  match v with PNone | PBool _ | PInt _ | PFloat _ => True | _ => False end.

Definition atom_char (c : N) : bool :=
  negb (is_delim c || (c =? 34) || (c =? 91) || (c =? 123)).

Lemma number_char_atom c : number_char c = true -> atom_char c = true.
Proof.
  unfold number_char, decimal_char, ascii_digit, in_range, atom_char, is_delim. bprop.
  rewrite !N.eqb_eq, !N.eqb_neq, !N.leb_le. lia.
Qed.

Lemma decimal_number c : decimal_char c = true -> number_char c = true.
Proof. unfold number_char. by intros ->. Qed.

(** What the text of an atom says about its constructor. *)
Definition text_kind (s : pystr) : N :=
  if decide (s = u"null") then 0
  else if decide (s = u"true") then 1
  else if decide (s = u"false") then 2
  else if decide (s = u"NaN") then 3
  else if decide (s = u"Infinity") then 4
  else if decide (s = u"-Infinity") then 5
  else if forallb decimal_char s then 6 else 7.

Definition atom_kind (v : pyval) : N :=
  match v with
  | PNone => 0 | PBool true => 1 | PBool false => 2 | PInt _ => 6
  | PFloat f => match proj1_sig f with
                | S754_nan => 3 | S754_infinity false => 4 | S754_infinity true => 5 | _ => 7
                end
  | _ => 8
  end.

Lemma text_kind_number s :
  Forall (fun c => number_char c = true) s -> text_kind s = if forallb decimal_char s then 6 else 7.
Proof.
  intros Hs. rewrite Forall_forall, <- (forallb_elem number_char) in Hs. unfold text_kind.
  repeat (case_decide; [subst s; discriminate Hs|]). done.
Qed.

Lemma atom_kind_text v : atom v -> text_kind (dumps v) = atom_kind v.
Proof.
  assert (forall f, is_finite_f64 f = true -> text_kind (float_repr f) = 7) as Hfin.
  { intros f Hf. rewrite text_kind_number by (by apply float_repr_chars).
    destruct (forallb _ _) eqn:Hall; [|done]. exfalso.
    destruct (proj1 (Exists_exists _ _) (float_repr_point f Hf)) as (c & Hc & Hd).
    rewrite forallb_elem in Hall. apply Hall in Hc. congruence. }
  destruct v as [|[]|z|f|s|b|l|kvs]; cbn; try done.
  - intros _. pose proof (str_of_Z_chars z) as Hz. rewrite text_kind_number.
    + assert (forallb decimal_char (str_of_Z z) = true) as ->; [|done].
      rewrite Forall_forall in Hz. by apply forallb_elem.
    + eapply Forall_impl; [done|]. intros. by apply decimal_number.
  - intros _. unfold dumps_float.
    destruct (proj1_sig f) as [[]|[]| |] eqn:Hf; try done;
      apply Hfin; unfold is_finite_f64; by rewrite Hf.
Qed.

Lemma f64_ext (f g : f64) : proj1_sig f = proj1_sig g -> f = g.
Proof. apply (sig_eq_pi _). Qed.

Lemma atom_inj v w : atom v -> atom w -> dumps v = dumps w -> v = w.
Proof.
  intros Hv Hw Heq. pose proof (f_equal text_kind Heq) as Hk. rewrite !atom_kind_text in Hk by done.
  destruct v as [|[]|z|f|s|b|l|kvs], w as [|[]|z'|g|s'|b'|l'|kvs']; try done; cbn in Hk, Heq;
    try (destruct (proj1_sig f) as [[]|[]| |]; discriminate);
    try (destruct (proj1_sig g) as [[]|[]| |]; discriminate).
  - f_equal. by apply str_of_Z_inj.
  - f_equal. unfold dumps_float in Heq.
    assert (forall x : f64, match proj1_sig x with S754_nan | S754_infinity _ => False | _ => True end ->
      is_finite_f64 x = true) as Hfin by (intros x; unfold is_finite_f64; by destruct (proj1_sig x)).
    destruct (proj1_sig f) as [sf|[]| |sf mf ef] eqn:Hf, (proj1_sig g) as [sg|[]| |sg mg eg] eqn:Hg;
      try discriminate; try (apply f64_ext; congruence);
      apply float_repr_inj; try done; apply Hfin; by rewrite ?Hf, ?Hg.
Qed.

Lemma atom_text v : atom v -> dumps v <> [] /\ Forall (fun c => atom_char c = true) (dumps v).
Proof.
  assert (forall s, Forall (fun c => number_char c = true) s -> Forall (fun c => atom_char c = true) s) as Himp.
  { intros s Hs. eapply Forall_impl; [done|]. apply number_char_atom. }
  destruct v as [|[]|z|f|s|b|l|kvs]; cbn; try done; intros _; try (split; [done|by repeat constructor]).
  - split; [apply str_of_Z_nonempty|]. apply Himp. eapply Forall_impl; [apply str_of_Z_chars|].
    apply decimal_number.
  - assert (is_finite_f64 f = true -> float_repr f <> [] /\ Forall (fun c => atom_char c = true) (float_repr f)).
    { intros Hf. split; [|by apply Himp, float_repr_chars].
      intros Hnil. pose proof (float_repr_point f Hf) as He. rewrite Hnil in He. inversion He. }
    unfold dumps_float, is_finite_f64 in *.
    destruct (proj1_sig f) as [[]|[]| |]; auto; (split; [done|by repeat constructor]).
Qed.
Lemma atom_char_delim c : atom_char c = true -> is_delim c = false.
Proof. unfold atom_char. by destruct (is_delim c). Qed.

Lemma atom_raw v : atom v -> raw v = dumps v.
Proof. by destruct v. Qed.

Lemma good_list l : good (PList l) -> Forall good l.
Proof.
  unfold good. cbn. induction l as [|v l IH]; cbn; [constructor|]. bprop.
  intros [[??] [??]]. constructor; auto.
Qed.

Definition good_item (kv : pystr * pyval) : Prop := scalar_str kv.1 /\ good kv.2.

Lemma good_dict kvs : good (PDict kvs) -> Forall good_item kvs.
Proof.
  unfold good. cbn. induction kvs as [|kv l IH]; cbn; [constructor|]. bprop.
  intros [[??] [[??] ?]]. constructor; [done|]. auto.
Qed.

(** A non-atom starts with its own opening character. *)
Lemma non_atom_head v : good v -> ~ atom v ->
  exists x t, raw v = x :: t /\ atom_char x = false /\ is_delim x = false.
Proof.
  destruct v as [|?|?|?|s|b|l|kvs]; cbn; intros [Hs _] Hat; try tauto.
  - by eexists 34, _.
  - done.
  - by eexists 91, _.
  - by eexists 123, _.
Qed.

Lemma atom_dec v : atom v \/ ~ atom v.
Proof. destruct v; cbn; tauto. Qed.

Lemma raw_head v : good v -> exists x t, raw v = x :: t /\ is_delim x = false.
Proof.
  intros Hg. destruct (atom_dec v) as [Ha|Ha].
  - destruct (atom_text v Ha) as [Hne Hall]. rewrite atom_raw by done.
    destruct Hall as [|x t Hx]; [done|]. eexists x, t. split; [done|]. by apply atom_char_delim.
  - destruct (non_atom_head v Hg Ha) as (x & t & ? & _ & ?). eauto.
Qed.

Lemma raw_atom_inj v w r1 r2 :
  atom v -> good w -> delimited r1 -> delimited r2 -> raw v ++ r1 = raw w ++ r2 -> v = w /\ r1 = r2.
Proof.
  intros Hv Hw Hr1 Hr2 Heq. destruct (atom_text v Hv) as [Hne Hall]. rewrite atom_raw in Heq by done.
  destruct (atom_dec w) as [Ha|Ha].
  - destruct (atom_text w Ha) as [_ Hallw]. rewrite atom_raw in Heq by done.
    apply plain_app_inj in Heq as [? ->]; [|eapply Forall_impl; [done|]; apply atom_char_delim..|done|done].
    split; [|done]. by apply atom_inj.
  - destruct (non_atom_head w Hw Ha) as (x & t & Hx & Hxa & _). rewrite Hx in Heq.
    destruct Hall as [|y s Hy]; [done|]. cbn in Heq. injection Heq as -> _. congruence.
Qed.

Lemma delimited_cons c r : is_delim c = true -> delimited (c :: r).
Proof. done. Qed.

(** Unique readability of canonical JSON. *)
Lemma raw_app_inj v : forall w r1 r2,
  good v -> good w -> delimited r1 -> delimited r2 -> raw v ++ r1 = raw w ++ r2 -> v = w /\ r1 = r2.
Proof.
  induction v as [|b|z|f|s|b|l IH|kvs IH] using pyval_nested_ind; intros w r1 r2 Hgv Hgw Hr1 Hr2 Heq;
    try (by apply raw_atom_inj); try (by destruct Hgv).
  all: destruct (atom_dec w) as [Ha|Ha];
    [by destruct (raw_atom_inj w _ r2 r1 Ha Hgv Hr2 Hr1 (eq_sym Heq))|].
  all: destruct w as [|?|?|?|s'|?|l'|kvs']; cbn in Ha; try tauto; try (by destruct Hgw);
    cbn [raw dumps] in Heq; try discriminate Heq.
  - destruct Hgv as [_ ?], Hgw as [_ ?]. by apply quote_str_app_inj in Heq as [-> ->].
  - rewrite <- !app_comm_cons in Heq. injection Heq as Heq. rewrite <- !app_assoc in Heq. cbn [app] in Heq.
    apply (join_app_inj good) in Heq as [-> ->]; [done|done|done|apply raw_head| |by apply good_list..].
    eapply Forall_impl; [exact IH|]. naive_solver.
  - rewrite <- !app_comm_cons in Heq. injection Heq as Heq. rewrite <- !app_assoc in Heq. cbn [app] in Heq.
    apply (join_app_inj good_item) in Heq as [-> ->]; [done|done|done| | |by apply good_dict..].
    + intros kv _. by eexists 34, _.
    + eapply Forall_impl; [exact IH|]. intros [k v] Hv [k' v'] q1 q2 [Hk Hgk] [Hk' Hgk'] Hq1 Hq2.
      unfold dumps_item. cbn [fst snd] in *. rewrite <- !app_assoc. cbn [app].
      intros [-> Hkv]%quote_str_app_inj; [|done..]. injection Hkv as Hkv.
      apply Hv in Hkv as [-> ->]; done.
Qed.

(** ** Sorting *)

Lemma wf_list l : wf_val (PList l) -> Forall wf_val l.
Proof. cbn. induction l; cbn; [constructor|]. intros [??]. constructor; auto. Qed.

Lemma wf_dict kvs : wf_val (PDict kvs) -> NoDup kvs.*1 /\ Forall (fun kv => wf_val kv.2) kvs.
Proof.
  cbn. intros [Hnd Hf]. split; [done|]. clear Hnd.
  induction kvs; cbn in *; [constructor|]. destruct Hf. constructor; auto.
Qed.

Lemma keyed_inj {B} (kvs : list (pystr * B)) :
  NoDup kvs.*1 -> forall x y, x ∈ kvs -> y ∈ kvs -> x.1 = y.1 -> x = y.
Proof.
  induction kvs as [|kv kvs IH]; cbn; [set_solver|]. intros [Hk Hnd]%NoDup_cons x y.
  intros [->|Hx]%elem_of_cons [->|Hy]%elem_of_cons Hxy; [done| | |by apply IH].
  - destruct Hk. rewrite Hxy. by apply list_elem_of_fmap_2.
  - destruct Hk. rewrite <- Hxy. by apply list_elem_of_fmap_2.
Qed.

(** Sorting the items by key commutes with mapping the values. *)
Lemma sort_by_fmap {B C} (f : B -> C) (kvs : list (pystr * B)) :
  NoDup kvs.*1 ->
  sort_by fst ((fun kv => (kv.1, f kv.2)) <$> kvs) = (fun kv => (kv.1, f kv.2)) <$> sort_by fst kvs.
Proof.
  intros Hnd. assert (NoDup ((fun kv => (kv.1, f kv.2)) <$> kvs).*1) as Hnd' by (by rewrite <- list_fmap_compose).
  apply (StronglySorted_unique_strong (key_le fst)).
  - intros x y Hx Hy Hxy Hyx. rewrite elem_of_sort_by in Hx.
    rewrite sort_by_Permutation in Hy. apply (keyed_inj _ Hnd'); [done..|]. by apply str_leb_antisym.
  - apply sort_by_sorted.
  - apply (StronglySorted_fmap _ (key_le fst) (key_le fst)); [by intros|]. apply sort_by_sorted.
  - by rewrite !sort_by_Permutation.
Qed.

Lemma dumps_raw v : wf_val v -> dumps v = raw (canon v).
Proof.
  induction v as [|b|z|f|s|b|l IH|kvs IH] using pyval_nested_ind; intros Hwf; try done.
  - apply wf_list in Hwf. cbn [dumps canon raw]. unfold dumps_list. do 3 f_equal.
    rewrite <- list_fmap_compose. apply fmap_ext_elem.
    rewrite Forall_forall in IH, Hwf. intros x Hx. cbn. auto.
  - apply wf_dict in Hwf as [Hnd Hwf]. cbn [dumps canon raw]. unfold dumps_dict. do 3 f_equal.
    rewrite !sort_by_fmap by done. rewrite <- !list_fmap_compose. apply fmap_ext_elem.
    intros kv Hkv. rewrite elem_of_sort_by in Hkv. rewrite Forall_forall in IH, Hwf.
    cbn. by rewrite IH by auto.
Qed.

Lemma canon_good v : good v -> good (canon v).
Proof.
  assert (forall l, Forall good l -> good (PList l)) as HL.
  { unfold good. cbn. induction 1 as [|x l [??] Hl [??]]; cbn; bprop; tauto. }
  assert (forall kvs, Forall good_item kvs -> good (PDict kvs)) as HD.
  { unfold good. cbn. induction 1 as [|kv l [?[??]] Hl [??]]; cbn; bprop; tauto. }
  induction v as [|b|z|f|s|b|l IH|kvs IH] using pyval_nested_ind; intros Hg; try done; cbn.
  - apply good_list in Hg. apply HL, Forall_fmap. rewrite Forall_forall in *. cbn. auto.
  - apply good_dict in Hg. apply HD. rewrite sort_by_Permutation. apply Forall_fmap.
    rewrite Forall_forall in *. intros kv Hkv. destruct (Hg kv Hkv). split; cbn; auto.
Qed.
End injective.

(** ** Canonical text is ASCII *)

Lemma lower_hex_ascii c : lower_hex c = true -> c < 128.
Proof. unfold lower_hex, ascii_digit, in_range. bprop. rewrite !N.leb_le. lia. Qed.

Lemma hex_digits_ascii n x : ascii_str (hex_digits n x).
Proof. eapply Forall_impl; [apply hex_digits_lower|]. apply lower_hex_ascii. Qed.

Lemma escape_char_ascii c : ascii_str (escape_char c).
Proof.
  destruct (escape_char_escaped c) as [Hr|d Hd|?|?].
  - constructor; [|done]. unfold in_range in Hr. bprop. rewrite !N.leb_le in Hr. lia.
  - constructor; [lia|]. constructor; [|done]. set_unfold. naive_solver lia.
  - do 2 (constructor; [lia|]). apply hex_digits_ascii.
  - apply Forall_app; split; do 2 (constructor; [lia|]); apply hex_digits_ascii.
Qed.

Lemma quote_str_ascii s : ascii_str (quote_str s).
Proof.
  constructor; [lia|]. apply Forall_app; split; [|by repeat constructor].
  apply Forall_bind, Forall_true. apply escape_char_ascii.
Qed.

Lemma join_Forall (P : N -> Prop) sep ws : Forall P sep -> Forall (Forall P) ws -> Forall P (join sep ws).
Proof.
  intros Hsep. induction 1 as [|w ws Hw Hws IH]; cbn; [done|].
  destruct ws; [done|]. by rewrite !Forall_app.
Qed.

Lemma number_char_ascii c : number_char c = true -> c < 128.
Proof. unfold number_char, decimal_char, ascii_digit, in_range. bprop. rewrite !N.eqb_eq, !N.leb_le. lia. Qed.

Lemma dumps_ascii `{FloatRepr} v : ascii_str (dumps v).
Proof.
  assert (forall s, Forall (fun c => number_char c = true) s -> ascii_str s) as Hnum.
  { intros s Hs. eapply Forall_impl; [done|]. apply number_char_ascii. }
  induction v as [|[]|z|f|s|b|l IH|kvs IH] using pyval_nested_ind; cbn; try (by repeat constructor).
  - apply Hnum. eapply Forall_impl; [apply str_of_Z_chars|]. apply decimal_number.
  - unfold dumps_float. destruct (proj1_sig f) as [[]|[]| |] eqn:Hf; try (by repeat constructor);
      apply Hnum, float_repr_chars; unfold is_finite_f64; by rewrite Hf.
  - apply quote_str_ascii.
  - constructor; [lia|]. apply Forall_app; split; [|by repeat constructor].
    apply join_Forall; [by repeat constructor|]. by apply Forall_fmap.
  - constructor; [lia|]. apply Forall_app; split; [|by repeat constructor].
    apply join_Forall; [by repeat constructor|]. rewrite Forall_fmap, sort_by_Permutation, Forall_fmap.
    eapply Forall_impl; [exact IH|]. intros kv Hkv. unfold dumps_item. cbn [fst snd].
    apply Forall_app; split; [apply quote_str_ascii|]. constructor; [lia|done].
Qed.

Lemma utf8_ascii s : ascii_str s -> utf8_encode s = Some s.
Proof.
  intros Hs. unfold utf8_encode.
  assert (mapM utf8_char s = Some ((fun c => [c]) <$> s)) as ->.
  { apply mapM_Some. induction Hs as [|c s Hc Hs IH]; cbn; constructor; [|done].
    unfold utf8_char. by apply N.ltb_lt in Hc as ->. }
  cbn. f_equal. clear Hs. induction s as [|c s IH]; cbn; [done|]. by f_equal.
Qed.

(** Two different texts with one SHA-256 digest. *)
Definition text_collision (a b : pystr) : Prop := a <> b /\ hexdigest a = hexdigest b.

Lemma hexdigest_eq a b : hexdigest a = hexdigest b -> a = b \/ text_collision a b.
Proof. intros Hh. destruct (decide (a = b)); [by left|by right]. Qed.

Section theorems.
Context `{FloatRepr}.

(** Hashing a canonical text never fails: the text is ASCII. *)
Lemma sha256_hex_dumps v : sha256_hex (dumps v) = Ok (hexdigest (dumps v)).
Proof. unfold sha256_hex. by rewrite utf8_ascii by apply dumps_ascii. Qed.

(** Dict order does not reach the text. *)
Lemma dumps_Permutation kvs1 kvs2 :
  NoDup kvs1.*1 -> kvs1 ≡ₚ kvs2 -> dumps (PDict kvs1) = dumps (PDict kvs2).
Proof.
  intros Hnd Hp. cbn. f_equal. apply sort_by_canonical.
  - apply keyed_inj. by rewrite <- list_fmap_compose.
  - by rewrite Hp.
Qed.

(** [canonical_json] raises only on objects the encoder does not know. *)
Lemma canonical_json_total v : serializable v = true -> canonical_json v = Ok (dumps v).
Proof. unfold canonical_json, json_dumps. by intros ->. Qed.

Lemma canonical_json_Ok v t : canonical_json v = Ok t <-> serializable v = true /\ t = dumps v.
Proof. unfold canonical_json, json_dumps. destruct (serializable v); naive_solver. Qed.

(** Equal canonical texts come from equal values. *)
Lemma canonical_json_inj v w t :
  wf_val v -> wf_val w -> scalar_val v -> scalar_val w ->
  canonical_json v = Ok t -> canonical_json w = Ok t -> v ≡ w.
Proof.
  intros ???? [? ->]%canonical_json_Ok [? Heq]%canonical_json_Ok.
  rewrite !dumps_raw in Heq by done.
  apply (raw_app_inj (canon v) (canon w) [] []); [by apply canon_good..|done|done|].
  by rewrite !app_nil_r.
Qed.
End theorems.

(** *** Fields of equal dicts *)

Lemma dget_elem kvs k v : NoDup kvs.*1 -> dget kvs k = Some v <-> (k, v) ∈ kvs.
Proof.
  induction kvs as [|[k' v'] kvs IH]; cbn; [split; [done|by intros ?%elem_of_nil]|].
  intros [Hk Hnd]%NoDup_cons. rewrite elem_of_cons. case_decide as Hd.
  - subst k'. split; [intros [= ->]; by left|]. intros [[= ->]|Hin]; [done|].
    destruct Hk. apply list_elem_of_fmap. by exists (k, v).
  - rewrite IH by done. split; [by right|]. intros [[= -> ->]|?]; done.
Qed.

Lemma canon_dict_elem kvs1 kvs2 k v : PDict kvs1 ≡ PDict kvs2 -> (k, v) ∈ kvs1 -> exists w, (k, w) ∈ kvs2 /\ v ≡ w.
Proof.
  unfold equiv, pyval_equiv. cbn. intros [= Heq] Hin.
  assert ((k, canon v) ∈ sort_by fst ((fun kv => (kv.1, canon kv.2)) <$> kvs1)) as Hs.
  { rewrite elem_of_sort_by. apply list_elem_of_fmap. by exists (k, v). }
  rewrite Heq, elem_of_sort_by in Hs. apply list_elem_of_fmap in Hs as ([k' w] & [= -> Hw] & Hin').
  by exists w.
Qed.

(** Equal dicts have equal values under every key. *)
Lemma dget_equiv kvs1 kvs2 k : NoDup kvs1.*1 -> NoDup kvs2.*1 -> PDict kvs1 ≡ PDict kvs2 ->
  canon <$> dget kvs1 k = canon <$> dget kvs2 k.
Proof.
  intros Hn1 Hn2 Heq. destruct (dget kvs1 k) as [v|] eqn:H1.
  - apply dget_elem in H1; [|done]. destruct (canon_dict_elem _ _ _ _ Heq H1) as (w & Hw & Hvw).
    apply dget_elem in Hw; [|done]. rewrite Hw. cbn. by f_equal.
  - destruct (dget kvs2 k) as [w|] eqn:H2; [|done]. apply dget_elem in H2; [|done].
    destruct (canon_dict_elem _ _ _ _ (symmetry Heq) H2) as (v & Hv & _). apply dget_elem in Hv; congruence.
Qed.

(** The same for dicts whose keys are literals: [eq_refl] shows them distinct. *)
Lemma field_equiv kvs1 kvs2 k : PDict kvs1 ≡ PDict kvs2 ->
  bool_decide (NoDup kvs1.*1) = true -> bool_decide (NoDup kvs2.*1) = true ->
  canon <$> dget kvs1 k = canon <$> dget kvs2 k.
Proof. rewrite !bool_decide_eq_true. intros. by apply dget_equiv. Qed.

(** A value of a well-formed dict is well formed. *)
Lemma dget_wf kvs k v : wf_val (PDict kvs) -> dget kvs k = Some v -> wf_val v.
Proof.
  intros [_ Hall]. induction kvs as [|[k' v'] kvs IH]; cbn; [done|]. destruct Hall as [Hv Hall].
  case_decide; [by intros [= <-]|]. by apply IH.
Qed.

Lemma dget_scalar kvs k v : scalar_val (PDict kvs) -> dget kvs k = Some v -> scalar_val v.
Proof.
  cbn. induction kvs as [|[k' v'] kvs IH]; cbn; [done|]. intros [[_ Hv] Hall].
  case_decide; [by intros [= <-]|]. by apply IH.
Qed.

(** ** References by digest *)

Definition _SHA256_PREFIX : pystr := u"sha256:".

Section sha256_ref.
Context `{FloatRepr}.

(** [f"sha256:{sha256_hex(canonical_json(v))}"] *)
Definition sha256_ref (v : pyval) : result pyexn pystr :=
  text ← canonical_json v; digest ← sha256_hex text; Ok (_SHA256_PREFIX ++ digest).

Lemma sha256_ref_Ok v h : sha256_ref v = Ok h <-> serializable v = true /\ h = _SHA256_PREFIX ++ hexdigest (dumps v).
Proof.
  unfold sha256_ref, canonical_json, json_dumps. destruct (serializable v); cbn [mbind result_bind].
  - rewrite sha256_hex_dumps. cbn. naive_solver.
  - naive_solver.
Qed.

(** One reference, one value, up to a collision of the two texts. *)
Lemma sha256_ref_inj v w h :
  wf_val v -> wf_val w -> scalar_val v -> scalar_val w -> sha256_ref v = Ok h -> sha256_ref w = Ok h ->
  v ≡ w \/ text_collision (dumps v) (dumps w).
Proof.
  intros ? ? ? ? [Hv ->]%sha256_ref_Ok [Hw Heq%app_inv_head]%sha256_ref_Ok.
  apply hexdigest_eq in Heq as [Heq|Hc]; [left|by right].
  apply (canonical_json_inj v w (dumps v)); [done..| |]; apply canonical_json_Ok; by split.
Qed.

Lemma ascii_scalar s : Forall (fun c => c < 128) s -> scalar_str s.
Proof.
  intros Hs. eapply Forall_impl; [exact Hs|]. intros c Hc. cbv beta in Hc. unfold scalar, in_range.
  apply andb_true_iff. split; [apply N.ltb_lt; lia|]. apply negb_true_iff, andb_false_iff. left. apply N.leb_gt. lia.
Qed.

Lemma sha256_ref_scalar v h : sha256_ref v = Ok h -> scalar_str h.
Proof.
  intros [_ ->]%sha256_ref_Ok. apply ascii_scalar, Forall_app. split.
  - apply (bool_decide_unpack _). vm_compute. done.
  - eapply Forall_impl; [apply hexdigest_lower|]. intros c Hc. by apply lower_hex_ascii.
Qed.
End sha256_ref.
