(* ===== verification/Shlex.v ===== *)
(** [shlex.split]: the POSIX lexer of Python's [shlex] module, as the services
    call it ([comments=False], [posix=True], no punctuation characters).

    The states are those of [shlex.read_token]: between words, in a word, in a
    quotation, after a backslash.  A lexer state carries the token read so far
    and whether a quotation was opened in it, since a quoted empty word is a
    token and an unquoted one is not. *)

From S2P Require Import Prelude PyStr PyVal.
Local Open Scope N_scope.

(** [escapedstate]: where the lexer returns after an escaped character. *)
Inductive lex_state :=
  | Blank
  | Word
  | Quoted (q : N)
  | Escaped (ret : option N).

Definition shlex_whitespace (c : N) : bool := (c =? 32) || (c =? 9) || (c =? 13) || (c =? 10).
Definition quote_char (c : N) : bool := (c =? 39) || (c =? 34).
Definition escape_char (c : N) : bool := c =? 92.
Definition escaped_quote (q : N) : bool := q =? 34.

(** The token [read_token] returns, [None] when there is none. *)
Definition emit (token : pystr) (quoted : bool) : list pystr :=
  if quoted || negb (bool_decide (token = [])) then [token] else [].

(** [list(lex)]: every token from the current state on. *)
Fixpoint shlex_tokens (st : lex_state) (token : pystr) (quoted : bool) (s : pystr)
    : result pyexn (list pystr) :=
  match s with
  | [] =>
      match st with
      | Blank | Word => Ok (emit token quoted)
      | Quoted _ | Escaped _ => Raise ValueError
      end
  | c :: s' =>
      match st with
      | Blank | Word =>
          if shlex_whitespace c then
            app (emit token quoted) <$> shlex_tokens Blank [] false s'
          else if escape_char c then shlex_tokens (Escaped None) token quoted s'
          else if quote_char c then shlex_tokens (Quoted c) token true s'
          else shlex_tokens Word (token ++ [c]) quoted s'
      | Quoted q =>
          if c =? q then shlex_tokens Word token true s'
          else if escape_char c && escaped_quote q then shlex_tokens (Escaped (Some q)) token true s'
          else shlex_tokens (Quoted q) (token ++ [c]) true s'
      | Escaped None => shlex_tokens Word (token ++ [c]) quoted s'
      | Escaped (Some q) =>
          let token := if negb (escape_char c) && negb (c =? q) then token ++ [92] else token in
          shlex_tokens (Quoted q) (token ++ [c]) quoted s'
      end
  end.

Definition shlex_split (s : pystr) : result pyexn (list pystr) := shlex_tokens Blank [] false s.

(** ** Lemmas *)

(** The lexer fails only on an unfinished quotation or escape. *)
Lemma shlex_tokens_exn s : forall st token quoted e,
  shlex_tokens st token quoted s = Raise e -> e = ValueError.
Proof.
  induction s as [|c s IH]; intros st token quoted e; cbn.
  - destruct st; congruence.
  - assert (forall l (m : result pyexn (list pystr)) e', app l <$> m = Raise e' -> m = Raise e') as Hf
      by (intros l [m|e1] e' [=]; by subst).
    destruct st as [| |q|[q|]]; repeat case_match; intros He; try apply Hf in He; by eapply IH.
Qed.

(** The size of an argument vector: its characters and one more per token. *)
Definition argv_size (argv : list pystr) : nat := sum_list_with (fun w => S (length w)) argv.

Lemma argv_size_cons w argv : argv_size (w :: argv) = (S (length w) + argv_size argv)%nat.
Proof. done. Qed.

Lemma argv_size_app a b : argv_size (a ++ b) = (argv_size a + argv_size b)%nat.
Proof. unfold argv_size. apply sum_list_with_app. Qed.

Lemma emit_size token quoted : (argv_size (emit token quoted) <= S (length token))%nat.
Proof. unfold emit. destruct (_ || _); cbn; lia. Qed.

(** What a lexer state can still become, in characters: a backslash inside a
    double quotation may turn into two characters. *)
Definition potential (st : lex_state) (token : pystr) : nat :=
  S (length token) + match st with Escaped (Some _) => 1 | _ => 0 end.

Lemma shlex_tokens_size s : forall st token quoted argv,
  shlex_tokens st token quoted s = Ok argv -> (argv_size argv <= potential st token + length s)%nat.
Proof.
  induction s as [|c s IH]; intros st token quoted argv; cbn [shlex_tokens length].
  { destruct st; intros [= <-]; pose proof (emit_size token quoted); cbn; lia. }
  assert (forall m, app (emit token quoted) <$> m = Ok argv -> m = shlex_tokens Blank [] false s ->
    (argv_size argv <= S (length token) + S (length s))%nat) as Hblank.
  { intros m (ws & Hm & ->)%fmap_Ok ->. apply IH in Hm. rewrite argv_size_app. cbn in Hm.
    pose proof (emit_size token quoted). lia. }
  unfold potential in *.
  destruct st as [| |q|[q|]]; repeat case_match; intros He;
    solve [ eapply Hblank in He; [lia|done]
          | apply IH in He; cbn in He; rewrite ?length_app in He; cbn in He; lia ].
Qed.

(** Splitting never grows a command line. *)
Lemma shlex_split_size s argv : shlex_split s = Ok argv -> (argv_size argv <= S (length s))%nat.
Proof. apply shlex_tokens_size. Qed.

(** *** Plain words

    Words of ordinary characters, separated by spaces, are the tokens; a word
    in single quotes is a token whatever else it holds. *)

Definition ordinary (c : N) : bool :=
  negb (shlex_whitespace c || escape_char c || quote_char c).

Lemma ordinary_spec c : ordinary c = true ->
  shlex_whitespace c = false /\ escape_char c = false /\ quote_char c = false.
Proof. unfold ordinary. bprop. tauto. Qed.

Lemma shlex_word w s : forall token quoted,
  Forall (fun c => ordinary c = true) w ->
  shlex_tokens Word token quoted (w ++ s) = shlex_tokens Word (token ++ w) quoted s.
Proof.
  induction w as [|c w IH]; intros token quoted Hw; cbn; [by rewrite app_nil_r|].
  apply Forall_cons in Hw as [(H & H0 & H3)%ordinary_spec Hw]. rewrite H, H0, H3, IH by done.
  by rewrite <- app_assoc.
Qed.

Lemma shlex_blank_word w s :
  w <> [] -> Forall (fun c => ordinary c = true) w ->
  shlex_tokens Blank [] false (w ++ s) = shlex_tokens Word w false s.
Proof.
  destruct w as [|c w]; intros Hne Hw; [done|]. cbn.
  apply Forall_cons in Hw as [(H & H0 & H3)%ordinary_spec Hw]. rewrite H, H0, H3.
  by rewrite (shlex_word w s [c] false).
Qed.

(** A token of a command line: plain, or between single quotes. *)
Inductive quoting : pystr -> pystr -> Prop :=
  | quote_plain w : w <> [] -> Forall (fun c => ordinary c = true) w -> quoting w w
  | quote_single w : Forall (fun c => c <> 39) w -> quoting w (39 :: w ++ [39]).

Lemma shlex_quoted w s : forall token,
  Forall (fun c => c <> 39) w ->
  shlex_tokens (Quoted 39) token true (w ++ 39 :: s) = shlex_tokens Word (token ++ w) true s.
Proof.
  induction w as [|c w IH]; intros token Hw; cbn [app shlex_tokens].
  { by rewrite app_nil_r. }
  apply Forall_cons in Hw as [Hc Hw]. apply N.eqb_neq in Hc as ->.
  change (escaped_quote 39) with false. rewrite andb_false_r, IH by done. by rewrite <- app_assoc.
Qed.

Lemma shlex_quoting w q s :
  quoting w q ->
  exists quoted, shlex_tokens Blank [] false (q ++ s) = shlex_tokens Word w quoted s /\
                 emit w quoted = [w].
Proof.
  intros [w' Hne Hw'|w' Hw'].
  - exists false. rewrite shlex_blank_word by done. split; [done|].
    unfold emit. by rewrite bool_decide_eq_false_2.
  - exists true. split; [|done]. rewrite <- app_comm_cons, <- app_assoc.
    exact (shlex_quoted w' s [] Hw').
Qed.

(** Round trip: a quoted argument vector is split into its tokens. *)
Lemma shlex_split_join argv qs :
  Forall2 quoting argv qs -> shlex_split (join [32] qs) = Ok argv.
Proof.
  unfold shlex_split. induction 1 as [|w q argv qs Hw Hall IH]; [done|].
  destruct qs as [|q' qs].
  - inversion Hall; subst. cbn [join]. rewrite <- (app_nil_r q).
    destruct (shlex_quoting w q [] Hw) as (quoted & -> & He). cbn. by rewrite He.
  - change (join [32] (q :: q' :: qs)) with (q ++ 32 :: join [32] (q' :: qs)).
    destruct (shlex_quoting w q (32 :: join [32] (q' :: qs)) Hw) as (quoted & -> & He).
    cbn [shlex_tokens]. change (shlex_whitespace 32) with true. cbn iota. by rewrite IH, He.
Qed.
