(* ===== verification/AuditGuard.v ===== *)
(** [saena_domain/audit/guard.py]: the forbidden-data guard of the audit
    ledger.

    The checks on one key and one string are boolean functions; [guard_payload]
    walks a payload exactly as the source does, in document order, and raises
    at the first offence.  [violation] is the specification: an occurrence of
    forbidden data somewhere in the payload, at a path, in terms of a grammar of
    the words of a name and of the shapes of the texts, not of the tokenizer and
    the patterns above it.  [guard_payload_sound] and [guard_payload_Raise] say
    that the walk accepts exactly the payloads that hold no violation and that
    what it raises names one. *)

From S2P Require Import Prelude PyStr Regex PyVal.
Local Open Scope N_scope.

Definition _CREDENTIAL_KEY_PATTERNS : list pystr :=
  [u"password"; u"passwd"; u"secret"; u"token"; u"api_key"; u"apikey";
   u"authorization"; u"private_key"; u"credential"; u"bearer"].
Definition _PII_KEY_PATTERNS : list pystr := [u"email"; u"full_name"; u"phone"].
Definition _SOURCE_CONTENT_KEY_PATTERNS : list pystr := [u"diff"; u"patch"; u"file_content"].
Definition _STACK_TRACE_MARKERS : list pystr := [u"Traceback (most recent call last)"].
Definition _ERROR_OBJECT_KEY_MARKERS : list pystr := [u"error"; u"exception"].
Definition ERROR_DETAIL_ALLOWED_KEYS : list pystr :=
  [u"error_code"; u"retryable"; u"summary"; u"trace_id"].
Definition _ACTOR_ALLOWED_KEYS : list pystr := [u"actor_id"].

(** The reasons, one per message of the source. *)
Inductive forbidden_reason : Type :=
  | CredentialKey | PiiKey | SourceContentKey
  | StackTraceValue | ExceptionDumpValue | EmailValue
  | ErrorDetailExcess | BytesValue
  | ActorNotMinimal | ActorIdMissing | ActorIdInvalid.

#[export] Instance forbidden_reason_eq_dec : EqDecision forbidden_reason.
Proof. solve_decision. Defined.

Record ForbiddenAuditDataError := Forbidden { key_path : pystr; reason : forbidden_reason }.

Definition _join_path (parent key : pystr) : pystr :=
  match parent with [] => key | _ => parent ++ u"." ++ key end.

Definition _index_path (parent : pystr) (index : nat) : pystr :=
  parent ++ u"[" ++ str_of_Z (Z.of_nat index) ++ u"]".

(** [_CAMEL_BOUNDARY_RE.sub] on a name: an underscore between a character of
    [a-z0-9] and one of [A-Z]. *)
Fixpoint camel_split (name : pystr) : pystr :=
  match name with
  | [] => []
  | c :: rest =>
      match rest with
      | d :: _ =>
          if (ascii_lowercase c || ascii_digit c) && ascii_upper d
          then c :: 95 :: camel_split rest else c :: camel_split rest
      | [] => [c]
      end
  end.

(** The separators of [_TOKEN_SPLIT_RE]; splitting at every separator and
    dropping the empty pieces is splitting at runs of them and dropping the
    empty pieces. *)
Definition token_sep (c : N) : bool := (c =? 95) || (c =? 45) || is_space c.

(** The [(start, end)] spans at which a pattern occurs as contiguous tokens. *)
Definition pattern_tokens (pattern : pystr) : list pystr := split_at (N.eqb 95) pattern.

Definition _find_pattern_spans (tokens : list pystr) (patterns : list pystr) : list (nat * nat) :=
  pattern ← patterns;
  let pat := pattern_tokens pattern in
  let n := length pat in
  i ← seq 0 (length tokens + 1 - n);
  if decide (take n (drop i tokens) = pat) then [(i, (i + n)%nat)] else [].

Section guard.
Context `{UnicodeDB}.

Definition _tokenize_key (name : pystr) : list pystr :=
  lower <$> filter (fun tok => tok <> []) (split_at token_sep (camel_split name)).

Definition _matches_any (name : pystr) (patterns : list pystr) : bool :=
  match _find_pattern_spans (_tokenize_key name) patterns with [] => false | _ => true end.

Definition _matches_source_content (name : pystr) : bool :=
  let tokens := _tokenize_key name in
  existsb (fun span => (1 <? span.2 - span.1)%nat || (span.2 =? length tokens)%nat)
          (_find_pattern_spans tokens _SOURCE_CONTENT_KEY_PATTERNS).

(** A traceback frame: the word File, a quoted name, and a line number. *)
Definition _EXCEPTION_FRAME_RE : re :=
  Cat (lit (u"File ")) (Cat (chr 34) (Cat (plus (Cls (fun c => negb (c =? 34)))) (Cat (chr 34)
    (Cat (lit (u", line ")) (Cat (plus (Cls is_decimal)) (lit (u", in "))))))).

Definition email_part : N -> bool := fun c => negb ((c =? 64) || is_space c).

(** [^[^@\s]+@[^@\s]+\.[^@\s]+$] *)
Definition _EMAIL_VALUE_RE : re :=
  Cat (plus (Cls email_part)) (Cat (chr 64) (Cat (plus (Cls email_part))
    (Cat (chr 46) (plus (Cls email_part))))).

Definition _guard_string_value (value path : pystr) : result ForbiddenAuditDataError unit :=
  raise_if (existsb (fun marker => contains marker value) _STACK_TRACE_MARKERS)
           (Forbidden path StackTraceValue);;
  raise_if (re_search _EXCEPTION_FRAME_RE value) (Forbidden path ExceptionDumpValue);;
  raise_if (re_match _EMAIL_VALUE_RE (strip value)) (Forbidden path EmailValue).

Definition _guard_key (key path : pystr) : result ForbiddenAuditDataError unit :=
  raise_if (_matches_any key _CREDENTIAL_KEY_PATTERNS) (Forbidden path CredentialKey);;
  raise_if (_matches_any key _PII_KEY_PATTERNS) (Forbidden path PiiKey);;
  raise_if (_matches_source_content key) (Forbidden path SourceContentKey).

Definition excess_keys (allowed : list pystr) (obj : list (pystr * pyval)) : list pystr :=
  sort_by id (filter (fun k => k ∉ allowed) obj.*1).

Definition _guard_error_object (obj : list (pystr * pyval)) (path : pystr)
    : result ForbiddenAuditDataError unit :=
  match excess_keys ERROR_DETAIL_ALLOWED_KEYS obj with
  | [] => Ok tt
  | offending_key :: _ => Raise (Forbidden (_join_path path offending_key) ErrorDetailExcess)
  end.

(** The checks of one item of a mapping before the walk enters its value. *)
Definition guard_item (key : pystr) (value : pyval) (child_path : pystr)
    : result ForbiddenAuditDataError unit :=
  _guard_key key child_path;;
  match value with
  | PDict obj =>
      if _matches_any key _ERROR_OBJECT_KEY_MARKERS
      then _guard_error_object obj child_path else Ok tt
  | _ => Ok tt
  end.

Fixpoint guard_payload (payload : pyval) (path : pystr) : result ForbiddenAuditDataError unit :=
  match payload with
  | PDict kvs =>
      (fix items kvs := match kvs with
       | [] => Ok tt
       | (key, value) :: kvs' =>
           let child_path := _join_path path key in
           guard_item key value child_path;;
           guard_payload value child_path;;
           items kvs'
       end) kvs
  | PBytes _ => Raise (Forbidden (match path with [] => u"<root>" | _ => path end) BytesValue)
  | PStr s => _guard_string_value s path
  | PList l =>
      (fix elements (index : nat) l := match l with
       | [] => Ok tt
       | item :: l' => guard_payload item (_index_path path index);; elements (S index) l'
       end) O l
  | _ => Ok tt
  end.

Definition guard_error_detail (error_detail : list (pystr * pyval)) (path : pystr)
    : result ForbiddenAuditDataError unit :=
  _guard_error_object error_detail path;; guard_payload (PDict error_detail) path.

Definition guard_actor_fields (actor : list (pystr * pyval))
    : result ForbiddenAuditDataError pystr :=
  match excess_keys _ACTOR_ALLOWED_KEYS actor with
  | offending_key :: _ => Raise (Forbidden offending_key ActorNotMinimal)
  | [] =>
      match dget actor (u"actor_id") with
      | None => Raise (Forbidden (u"actor_id") ActorIdMissing)
      | Some (PStr (c :: s)) => Ok (c :: s)
      | Some _ => Raise (Forbidden (u"actor_id") ActorIdInvalid)
      end
  end.
End guard.

(** ** Examples: the source's own test vectors *)

Definition key_rejected (k : pystr) : bool := negb (is_ok (_guard_key k [])).

Example keys_caught :
  forallb key_rejected
    [u"db_password"; u"X-Api-Key"; u"dbPasswordHash"; u"authToken"; u"APIKey"; u"user_email";
     u"patch"; u"raw_diff"; u"file_content_hash"] = true.
Proof. vm_compute. reflexivity. Qed.

Example keys_passed :
  forallb (fun k => negb (key_rejected k))
    [u"patch_unit_id"; u"APIToken"; u"actor_id"; u"contract_hash"; u"tokenizer"] = true.
Proof. vm_compute. reflexivity. Qed.

(** A pattern matches whole words of a key, so plural and compound spellings
    of the forbidden words are not caught, although the docstring of
    [guard_payload] promises that substring variants are. *)
Example compounds_passed :
  forallb (fun k => negb (key_rejected k))
    [u"passwords"; u"secrets"; u"tokens"; u"credentials"; u"mypassword"] = true.
Proof. vm_compute. reflexivity. Qed.

Example strings_caught :
  forallb (fun s => negb (is_ok (_guard_string_value s [])))
    [u" someone@example.com "; u"x Traceback (most recent call last): y";
     u"File " ++ [34] ++ u"a.py" ++ [34] ++ u", line 12, in foo"] = true.
Proof. vm_compute. reflexivity. Qed.

(** ** Specification *)

(** [sub_at v p w q]: the value at path [p] is [v], and [w] is the value the
    walk reaches inside it at path [q]. *)
Inductive sub_at : pyval -> pystr -> pyval -> pystr -> Prop :=
  | sub_here v p : sub_at v p v p
  | sub_item kvs p k v w q :
      (k, v) ∈ kvs -> sub_at v (_join_path p k) w q -> sub_at (PDict kvs) p w q
  | sub_elem l p i v w q :
      l !! i = Some v -> sub_at v (_index_path p i) w q -> sub_at (PList l) p w q.

#[export] Hint Constructors sub_at : saena.

(** *** The words of a name *)

Definition separator (c : N) : Prop := c = 95 \/ c = 45 \/ is_space c = true.

(** A capital after a small letter or a digit starts a new word. *)
Definition hump (c d : N) : Prop := (97 <= c <= 122 \/ 48 <= c <= 57) /\ 65 <= d <= 90.

(** A run of characters that is not divided. *)
Definition solid (w : pystr) : Prop :=
  w <> [] /\ Forall (fun c => ~ separator c) w /\ forall a c d b, w = a ++ c :: d :: b -> ~ hump c d.

(** The word [w] is over where [s] goes on. *)
Definition word_ends (w s : pystr) : Prop :=
  match s with [] => True | d :: _ => separator d \/ exists c, last w = Some c /\ hump c d end.

(** [words s ws]: the words of the name [s] are [ws]. *)
Inductive words : pystr -> list pystr -> Prop :=
  | words_nil : words [] []
  | words_separator c s ws : separator c -> words s ws -> words (c :: s) ws
  | words_word w s ws : solid w -> word_ends w s -> words s ws -> words (w ++ s) (w :: ws).

(** What must not name a key: credentials and personal data, the stems of error
    objects, and the content of sources. *)
Definition credential_words : list (list pystr) :=
  [[u"password"]; [u"passwd"]; [u"secret"]; [u"token"]; [u"api"; u"key"]; [u"apikey"]; [u"authorization"];
   [u"private"; u"key"]; [u"credential"]; [u"bearer"]].
Definition personal_words : list (list pystr) := [[u"email"]; [u"full"; u"name"]; [u"phone"]].
Definition error_words : list (list pystr) := [[u"error"]; [u"exception"]].
Definition error_fields : list pystr := [u"error_code"; u"retryable"; u"summary"; u"trace_id"].

(** *** The shapes of texts *)

(** [File "name", line 12, in ] *)
Definition frame_line `{UnicodeDB} (m : pystr) : Prop :=
  exists name number, m = u"File " ++ [34] ++ name ++ [34] ++ u", line " ++ number ++ u", in " /\
    name <> [] /\ (34 ∉ name) /\ number <> [] /\ Forall (fun c => is_decimal c = true) number.

(** A non-empty part of an address: no white space and no at sign. *)
Definition address_part (s : pystr) : Prop := s <> [] /\ Forall (fun c => c <> 64 /\ is_space c = false) s.

(** [local@domain.top] *)
Definition address (a : pystr) : Prop :=
  exists l d t, a = l ++ 64 :: d ++ 46 :: t /\ address_part l /\ address_part d /\ address_part t.

Definition blank (s : pystr) : Prop := Forall (fun c => is_space c = true) s.

Section spec.
Context `{UnicodeDB}.

(** The name [k] has the words of one of [phrases], next to each other, in any
    case. *)
Definition names (k : pystr) (phrases : list (list pystr)) : Prop :=
  exists ws phrase l r, words k ws /\ phrase ∈ phrases /\ lower <$> ws = l ++ phrase ++ r.

(** It names the content of a source: file content anywhere, diff or patch as
    its last word. *)
Definition names_source (k : pystr) : Prop :=
  exists ws l, words k ws /\
    ((exists r, lower <$> ws = l ++ [u"file"; u"content"] ++ r) \/ lower <$> ws = l ++ [u"diff"] \/ lower <$> ws = l ++ [u"patch"]).

(** One occurrence of forbidden data in a value at path [q], with the error
    that names it. *)
Inductive violation : pyval -> pystr -> ForbiddenAuditDataError -> Prop :=
  | viol_credential kvs q k v :
      (k, v) ∈ kvs -> names k credential_words ->
      violation (PDict kvs) q (Forbidden (_join_path q k) CredentialKey)
  | viol_pii kvs q k v :
      (k, v) ∈ kvs -> names k personal_words ->
      violation (PDict kvs) q (Forbidden (_join_path q k) PiiKey)
  | viol_source kvs q k v :
      (k, v) ∈ kvs -> names_source k ->
      violation (PDict kvs) q (Forbidden (_join_path q k) SourceContentKey)
  | viol_error_detail kvs q k obj x :
      (k, PDict obj) ∈ kvs -> names k error_words ->
      x ∈ obj.*1 -> x ∉ error_fields ->
      violation (PDict kvs) q (Forbidden (_join_path (_join_path q k) x) ErrorDetailExcess)
  | viol_trace s q a b :
      s = a ++ u"Traceback (most recent call last)" ++ b -> violation (PStr s) q (Forbidden q StackTraceValue)
  | viol_frame s q a m b :
      s = a ++ m ++ b -> frame_line m ->
      violation (PStr s) q (Forbidden q ExceptionDumpValue)
  | viol_email s q l a r :
      s = l ++ a ++ r -> blank l -> blank r -> address a -> violation (PStr s) q (Forbidden q EmailValue)
  | viol_bytes b q :
      violation (PBytes b) q (Forbidden (match q with [] => u"<root>" | _ => q end) BytesValue).

(** *** The tokenizer finds the words *)

Lemma separator_sep c : separator c <-> token_sep c = true.
Proof. unfold separator, token_sep. bprop. rewrite !N.eqb_eq. tauto. Qed.

Lemma hump_bool c d : hump c d <-> (ascii_lowercase c || ascii_digit c) && ascii_upper d = true.
Proof. unfold hump, ascii_lowercase, ascii_digit, ascii_upper, in_range. bprop. rewrite !N.leb_le. tauto. Qed.

Lemma separator_no_hump c d : separator c -> ~ hump c d.
Proof.
  unfold separator, hump, is_space, in_range. intros Hs [Hc _]. destruct Hs as [-> |[-> |Hs]]; [lia..|].
  bprop. rewrite !N.leb_le, !N.eqb_eq in Hs. lia.
Qed.

Definition pieces (s : pystr) : list pystr := filter (fun tok => tok <> []) (split_at token_sep (camel_split s)).

Lemma camel_split_cons c d s :
  camel_split (c :: d :: s) = if (ascii_lowercase c || ascii_digit c) && ascii_upper d then c :: 95 :: camel_split (d :: s) else c :: camel_split (d :: s).
Proof. done. Qed.

Lemma camel_step c s : (forall d, head s = Some d -> ~ hump c d) -> camel_split (c :: s) = c :: camel_split s.
Proof.
  intros Hh. destruct s as [|d s]; [done|]. rewrite camel_split_cons.
  destruct (_ && _) eqn:E; [|done]. apply hump_bool in E. by destruct (Hh d).
Qed.

Lemma solid_tail c d w : solid (c :: d :: w) -> solid (d :: w) /\ ~ hump c d.
Proof.
  intros (_ & Hs & Hh). split.
  - split; [done|]. split; [by inversion Hs|]. intros a x y b E. by apply (Hh (c :: a) x y b); rewrite E.
  - by apply (Hh [] c d w).
Qed.

(** Splitting before the capitals ends the first word. *)
Lemma camel_word w s : solid w -> word_ends w s ->
  camel_split (w ++ s) = w ++ camel_split s /\ (forall d, head s = Some d -> separator d) \/ camel_split (w ++ s) = w ++ 95 :: camel_split s.
Proof.
  intros Hw He. induction w as [|c w IH]; [by destruct Hw|]. destruct w as [|d w].
  - destruct s as [|d s]; [by left|]. cbn [app]. destruct He as [Hd|(x & [= <-] & Hh)].
    + left. split; [|by intros ? [= <-]]. apply camel_step. intros ? [= <-] Hh.
      destruct Hh as [_ Hup]. unfold separator, is_space, in_range in Hd. destruct Hd as [-> |[-> |Hd]]; [lia..|].
      bprop. rewrite !N.leb_le, !N.eqb_eq in Hd. lia.
    + right. rewrite camel_split_cons. by rewrite (proj1 (hump_bool _ _) Hh).
  - destruct (solid_tail _ _ _ Hw) as [Hw' Hh].
    assert (camel_split ((c :: d :: w) ++ s) = c :: camel_split ((d :: w) ++ s)) as ->.
    { cbn [app]. apply camel_step. by intros ? [= <-]. }
    destruct IH as [[-> ?]| ->]; [done| |by left|by right]. destruct s as [|x s]; [done|]. by destruct He as [?|(y & ? & ?)]; [left|right; exists y].
Qed.

Lemma pieces_separator c s : separator c -> pieces (c :: s) = pieces s.
Proof.
  intros Hc. unfold pieces. rewrite camel_step by (intros d _; by apply separator_no_hump). cbn [split_at].
  rewrite (proj1 (separator_sep c) Hc). by rewrite filter_cons_False by tauto.
Qed.

Lemma solid_plain w : solid w -> Forall (fun c => token_sep c = false) w.
Proof. intros (_ & Hs & _). eapply Forall_impl; [exact Hs|]. intros c Hc. apply not_true_iff_false. by rewrite <- separator_sep. Qed.

Lemma pieces_word w s : solid w -> word_ends w s -> pieces (w ++ s) = w :: pieces s.
Proof.
  intros Hw He. pose proof (solid_plain w Hw) as Hp. destruct Hw as (Hne & Hw). unfold pieces.
  destruct (camel_word w s) as [[-> Hs]| ->]; [by split|done| |].
  - destruct s as [|d s]; [cbn; rewrite app_nil_r, split_at_none by done; by rewrite filter_cons_True by done|].
    specialize (Hs d eq_refl). rewrite camel_step by (intros x _; by apply separator_no_hump).
    rewrite split_at_app by (by apply separator_sep || done). rewrite filter_cons_True by done.
    cbn [split_at]. rewrite (proj1 (separator_sep d) Hs). by rewrite (filter_cons_False _ []) by tauto.
  - rewrite split_at_app by (by vm_compute || done). by rewrite filter_cons_True.
Qed.

Lemma words_pieces s ws : words s ws -> ws = pieces s.
Proof.
  induction 1 as [|c s ws Hc _ IH|w s ws Hw He _ IH]; [done|by rewrite pieces_separator|]. rewrite pieces_word by done. by rewrite IH.
Qed.

#[local] Instance separator_dec c : Decision (separator c).
Proof. unfold separator. apply _. Defined.
#[local] Instance hump_dec c d : Decision (hump c d).
Proof. unfold hump. apply _. Defined.

Lemma solid_single c : ~ separator c -> solid [c].
Proof. intros Hc. split; [done|]. split; [by constructor|]. by intros [|? []] ? ? ? [=]. Qed.

(** Every name has its words. *)
Lemma words_total s : exists ws, words s ws.
Proof.
  induction s as [|c s (ws & IH)]; [by exists []; constructor|].
  destruct (decide (separator c)) as [Hc|Hc]; [by exists ws; constructor|].
  assert (word_ends [c] s -> exists ws, words (c :: s) ws) as Hnew.
  { intros He. exists ([c] :: ws). apply (words_word [c]); [by apply solid_single|done|done]. }
  destruct s as [|d s]; [by apply Hnew|]. destruct (decide (separator d)) as [Hd|Hd]; [by apply Hnew; left|].
  destruct (decide (hump c d)) as [Hh|Hh]; [by apply Hnew; right; exists c|].
  inversion IH as [|? ? ? Hs|w s' ws' Hw He Hs' E]; subst; [done|]. destruct w as [|x w]; [by destruct Hw|]. cbn in E. injection E as -> <-.
  exists ((c :: d :: w) :: ws'). apply (words_word (c :: d :: w)); [|by destruct s'|done].
  destruct Hw as (_ & Hsep & Hhump). split; [done|]. split; [by constructor|].
  intros [|y a] c' d' b E; cbn in E; [by injection E as <- <- _|]. injection E as _ E. by apply (Hhump a c' d' b).
Qed.

Lemma words_iff s ws : words s ws <-> ws = pieces s.
Proof. split; [apply words_pieces|]. intros ->. destruct (words_total s) as [ws Hw]. by rewrite <- (words_pieces _ _ Hw). Qed.

(** *** The patterns find the phrases *)

Lemma elem_of_spans tokens patterns i j :
  (i, j) ∈ _find_pattern_spans tokens patterns <->
  exists pattern l r, pattern ∈ patterns /\ tokens = l ++ pattern_tokens pattern ++ r /\ i = length l /\ j = (i + length (pattern_tokens pattern))%nat.
Proof.
  unfold _find_pattern_spans. rewrite list_elem_of_bind. split.
  - intros (pattern & Hin & Hp). cbv zeta in Hin. apply list_elem_of_bind in Hin as (k & Hk & Hi). case_decide as E; [|by apply elem_of_nil in Hk].
    apply list_elem_of_singleton in Hk as [= -> ->]. exists pattern, (take k tokens), (drop (length (pattern_tokens pattern)) (drop k tokens)).
    split; [done|]. rewrite <- E at 1. rewrite take_drop, take_drop. split; [done|]. split; [|done].
    apply elem_of_seq in Hi. rewrite length_take. lia.
  - intros (pattern & l & r & Hp & -> & -> & ->). exists pattern. split; [|done]. cbv zeta. apply list_elem_of_bind. exists (length l). split.
    + rewrite drop_app_length, take_app_length, decide_True by done. by left.
    + apply elem_of_seq. rewrite !length_app. lia.
Qed.

Lemma matches_any_spec name patterns : _matches_any name patterns = true <->
  exists pattern l r, pattern ∈ patterns /\ _tokenize_key name = l ++ pattern_tokens pattern ++ r.
Proof.
  unfold _matches_any. destruct (_find_pattern_spans _ _) as [|[i j] spans] eqn:E.
  - split; [done|]. intros (pattern & l & r & Hp & Ht).
    assert ((length l, (length l + length (pattern_tokens pattern))%nat) ∈ _find_pattern_spans (_tokenize_key name) patterns) as Hin
      by (apply elem_of_spans; by exists pattern, l, r).
    rewrite E in Hin. by apply elem_of_nil in Hin.
  - split; [|done]. intros _. assert ((i, j) ∈ _find_pattern_spans (_tokenize_key name) patterns) as Hin by (rewrite E; by left).
    apply elem_of_spans in Hin as (pattern & l & r & Hp & Ht & _). by exists pattern, l, r.
Qed.

Lemma tokenize_words name ws : words name ws -> _tokenize_key name = lower <$> ws.
Proof. intros ->%words_iff. done. Qed.

Lemma names_matches name patterns phrases : pattern_tokens <$> patterns = phrases ->
  names name phrases <-> _matches_any name patterns = true.
Proof.
  intros <-. rewrite matches_any_spec. split.
  - intros (ws & phrase & l & r & Hw & (pattern & -> & Hp)%list_elem_of_fmap & E). exists pattern, l, r. split; [done|]. by rewrite (tokenize_words _ _ Hw).
  - intros (pattern & l & r & Hp & E). destruct (words_total name) as [ws Hw]. rewrite (tokenize_words _ _ Hw) in E.
    exists ws, (pattern_tokens pattern), l, r. split; [done|]. split; [by apply list_elem_of_fmap_2|done].
Qed.

Lemma names_source_matches name : names_source name <-> _matches_source_content name = true.
Proof.
  assert (pattern_tokens <$> _SOURCE_CONTENT_KEY_PATTERNS = [[u"diff"]; [u"patch"]; [u"file"; u"content"]]) as Hpat by (vm_compute; done).
  unfold _matches_source_content. rewrite existsb_elem. split.
  - intros (ws & l & Hw & Hcases). rewrite (tokenize_words _ _ Hw).
    assert (forall phrase r, phrase ∈ pattern_tokens <$> _SOURCE_CONTENT_KEY_PATTERNS -> lower <$> ws = l ++ phrase ++ r ->
      (length l, (length l + length phrase)%nat) ∈ _find_pattern_spans (lower <$> ws) _SOURCE_CONTENT_KEY_PATTERNS) as Hspan.
    { intros phrase r (pattern & -> & Hp)%list_elem_of_fmap E. apply elem_of_spans. by exists pattern, l, r. }
    rewrite Hpat in Hspan. destruct Hcases as [(r & E)|[E|E]].
    + eexists. split; [eapply (Hspan [u"file"; u"content"]); [|exact E]; right; right; by left|].
      apply orb_true_iff. left. apply Nat.ltb_lt. cbn. lia.
    + eexists. split; [apply (Hspan [u"diff"] []); [by left|by rewrite app_nil_r]|].
      apply orb_true_iff. right. apply Nat.eqb_eq. rewrite E, length_app. done.
    + eexists. split; [apply (Hspan [u"patch"] []); [right; by left|by rewrite app_nil_r]|].
      apply orb_true_iff. right. apply Nat.eqb_eq. rewrite E, length_app. done.
  - intros ([i j] & (pattern & l & r & Hp & E & -> & ->)%elem_of_spans & Hc). destruct (words_total name) as [ws Hw].
    rewrite (tokenize_words _ _ Hw) in E, Hc. exists ws, l. split; [done|].
    assert (pattern_tokens pattern ∈ pattern_tokens <$> _SOURCE_CONTENT_KEY_PATTERNS) as Hin by (by apply list_elem_of_fmap_2).
    rewrite Hpat, !elem_of_cons, elem_of_nil in Hin. cbn [fst snd] in Hc. rewrite E, !length_app, orb_true_iff, Nat.ltb_lt, Nat.eqb_eq in Hc.
    destruct Hin as [Hin|[Hin|[Hin|[]]]]; rewrite Hin in E, Hc; cbn [length] in Hc.
    + right; left. assert (r = []) as -> by (apply length_zero_iff_nil; lia). by rewrite app_nil_r in E.
    + right; right. assert (r = []) as -> by (apply length_zero_iff_nil; lia). by rewrite app_nil_r in E.
    + left. by exists r.
Qed.

(** *** The expressions find the texts *)

Lemma cat_lit w r m : lang (Cat (lit w) r) m <-> exists b, m = w ++ b /\ lang r b.
Proof.
  rewrite cat_iff. setoid_rewrite lit_lang. split; [intros (a & b & -> & -> & Hb); by exists b|]. intros (b & -> & Hb). by exists w, b.
Qed.

Lemma cat_chr c r m : lang (Cat (chr c) r) m <-> exists b, m = c :: b /\ lang r b.
Proof.
  rewrite cat_iff. split.
  - intros (a & b & -> & Ha & Hb). inversion Ha as [|? x Hx| | | | |]; subst. apply N.eqb_eq in Hx as <-. by exists b.
  - intros (b & -> & Hb). exists [c], b. split; [done|]. split; [|done]. constructor. apply N.eqb_refl.
Qed.

Lemma cat_plus p r m : lang (Cat (plus (Cls p)) r) m <->
  exists a b, m = a ++ b /\ a <> [] /\ Forall (fun c => p c = true) a /\ lang r b.
Proof.
  rewrite cat_iff. split.
  - intros (a & b & -> & [Ha Hp]%plus_cls_lang & Hb). by exists a, b.
  - intros (a & b & -> & Ha & Hp & Hb). exists a, b. by rewrite plus_cls_lang.
Qed.

Lemma frame_lang m : frame_line m <-> lang _EXCEPTION_FRAME_RE m.
Proof.
  unfold frame_line, _EXCEPTION_FRAME_RE. rewrite cat_lit. setoid_rewrite cat_chr. setoid_rewrite cat_plus. setoid_rewrite cat_chr.
  setoid_rewrite cat_lit. setoid_rewrite cat_plus. setoid_rewrite lit_lang.
  assert (forall name, Forall (fun c => negb (c =? 34) = true) name <-> 34 ∉ name) as Hq.
  { intros name. rewrite Forall_forall. split; [intros Hf Hin; specialize (Hf _ Hin); by rewrite N.eqb_refl in Hf|].
    intros Hn c Hc. apply negb_true_iff, N.eqb_neq. by intros ->. }
  setoid_rewrite Hq. split.
  - intros (name & number & -> & ? & ? & ? & ?). do 2 (eexists; split; [reflexivity|]). eexists name, _. split; [reflexivity|].
    split; [done|]. split; [done|]. do 2 (eexists; split; [reflexivity|]). eexists number, _. split; [reflexivity|]. done.
  - intros (? & -> & ? & -> & name & ? & -> & ? & ? & ? & -> & ? & -> & number & ? & -> & ? & ? & ->). by exists name, number.
Qed.

Lemma address_lang a : address a <-> lang _EMAIL_VALUE_RE a.
Proof.
  unfold address, address_part, _EMAIL_VALUE_RE. rewrite cat_plus. setoid_rewrite cat_chr. setoid_rewrite cat_plus. setoid_rewrite cat_chr.
  setoid_rewrite plus_cls_lang.
  assert (forall s, Forall (fun c => email_part c = true) s <-> Forall (fun c => c <> 64 /\ is_space c = false) s) as Hp.
  { intros s. apply Forall_iff. intros c. unfold email_part. by rewrite negb_true_iff, orb_false_iff, N.eqb_neq. }
  setoid_rewrite Hp. split.
  - intros (l & d & t & -> & [? ?] & [? ?] & ? & ?). eexists l, _. split; [reflexivity|]. split; [done|]. split; [done|].
    eexists. split; [reflexivity|]. eexists d, _. split; [reflexivity|]. split; [done|]. split; [done|]. by exists t.
  - intros (l & ? & -> & ? & ? & ? & -> & d & ? & -> & ? & ? & t & -> & ? & ?). by exists l, d, t.
Qed.

(** *** Stripping *)

Lemma lstrip_blank l s : blank l -> lstrip (l ++ s) = lstrip s.
Proof. induction 1 as [|c l Hc _ IH]; [done|]. cbn. by rewrite Hc. Qed.

Lemma lstrip_split s : exists l, s = l ++ lstrip s /\ blank l /\ forall c, head (lstrip s) = Some c -> is_space c = false.
Proof.
  induction s as [|c s (l & E & Hl & Hh)]; [exists []; split_and!; [done|constructor|done]|]. cbn. destruct (is_space c) eqn:Ec.
  - exists (c :: l). split; [by rewrite E at 1|]. split; [by constructor|done].
  - exists []. split; [done|]. split; [constructor|]. by intros ? [= <-].
Qed.

Lemma lstrip_keep s : (forall c, head s = Some c -> is_space c = false) -> lstrip s = s.
Proof. destruct s as [|c s]; [done|]. intros Hc. cbn. by rewrite (Hc c eq_refl). Qed.

Lemma strip_split s : exists l r, s = l ++ strip s ++ r /\ blank l /\ blank r /\ (forall c, last (strip s) = Some c -> is_space c = false).
Proof.
  unfold strip. destruct (lstrip_split s) as (l & E & Hl & _). destruct (lstrip_split (reverse (lstrip s))) as (r & E' & Hr & Hh).
  exists l, (reverse r). split; [|split; [done|split; [by apply Forall_reverse|]]].
  - rewrite <- reverse_app, <- E', reverse_involutive. done.
  - intros c. rewrite last_reverse. apply Hh.
Qed.

Lemma address_solid a : address a -> Forall (fun c => is_space c = false) a.
Proof.
  assert (forall s, Forall (fun c => c <> 64 /\ is_space c = false) s -> Forall (fun c => is_space c = false) s) as Hw.
  { intros s Hs. eapply Forall_impl; [exact Hs|]. by intros c [_ ?]. }
  intros (l & d & t & -> & [_ Hl%Hw] & [_ Hd%Hw] & [_ Ht%Hw]). rewrite Forall_app, Forall_cons, Forall_app, Forall_cons. by split_and!.
Qed.

Lemma strip_address l a r : blank l -> blank r -> address a -> strip (l ++ a ++ r) = a.
Proof.
  intros Hl Hr Ha%address_solid. unfold strip. rewrite lstrip_blank by done. destruct a as [|c a].
  { cbn. rewrite <- (app_nil_r r), lstrip_blank by done. done. }
  rewrite (lstrip_keep ((c :: a) ++ r)) by (intros x [= <-]; by inversion Ha). rewrite reverse_app, lstrip_blank by (by apply Forall_reverse).
  rewrite lstrip_keep, reverse_involutive; [done|]. intros x. rewrite head_reverse. intros Hx%last_Some_elem_of.
  rewrite Forall_forall in Ha. by apply Ha.
Qed.

Lemma email_matches s : re_match _EMAIL_VALUE_RE (strip s) = true <-> exists l a r, s = l ++ a ++ r /\ blank l /\ blank r /\ address a.
Proof.
  split.
  - destruct (strip_split s) as (l & r & E & Hl & Hr & Hlast). unfold re_match. rewrite orb_true_iff. intros [Ha%accepts_spec%address_lang|Hn].
    + by exists l, (strip s), r.
    + destruct (reverse (strip s)) as [|c s'] eqn:Er; [done|]. apply andb_true_iff in Hn as [Hc%N.eqb_eq _]. subst c.
      assert (is_space 10 = false) as Hbad; [|by vm_compute in Hbad]. apply Hlast.
      by rewrite <- (reverse_involutive (strip s)), Er, last_reverse.
  - intros (l & a & r & -> & Hl & Hr & Ha). rewrite strip_address by done. unfold re_match. apply orb_true_iff. left. by apply accepts_spec, address_lang.
Qed.

Lemma trace_found s : existsb (fun marker => contains marker s) _STACK_TRACE_MARKERS = true <->
  exists a b, s = a ++ u"Traceback (most recent call last)" ++ b.
Proof.
  rewrite existsb_elem. unfold _STACK_TRACE_MARKERS. split.
  - intros (m & ->%list_elem_of_singleton & Hc). by apply contains_spec.
  - intros Hab. eexists. split; [by left|]. by apply contains_spec.
Qed.

Hint Constructors violation : saena.

Lemma guard_string_Raise s q e : _guard_string_value s q = Raise e -> violation (PStr s) q e.
Proof.
  unfold _guard_string_value. rewrite !seq_Raise, !raise_if_Raise, trace_found, re_search_spec, email_matches.
  setoid_rewrite <- frame_lang.
  intros [[(a & b & Hs) <-]|[_ [[(a & m & b & Hs & Hl) <-]|[_ [(l & a & r & Hs & Hl & Hr & Ha) <-]]]]]; eauto with saena.
Qed.

Lemma guard_string_Ok s q : _guard_string_value s q = Ok tt <-> forall e, ~ violation (PStr s) q e.
Proof.
  split.
  - unfold _guard_string_value. rewrite !seq_Ok, !raise_if_Ok, <- !not_true_iff_false, trace_found, re_search_spec, email_matches.
    setoid_rewrite <- frame_lang. intros (Htrace & Hframe & Hemail) e Hv.
    inversion Hv as [| | | |s' q' a b Hs|s' q' a m b Hs Hl|s' q' l a r Hs Hl Hr Ha|]; subst; eauto 9.
  - intros Hno. destruct (_guard_string_value s q) as [[]|e] eqn:Heq; [done|].
    by apply guard_string_Raise, Hno in Heq.
Qed.

Lemma elem_of_excess allowed obj x :
  x ∈ excess_keys allowed obj <-> x ∈ obj.*1 /\ x ∉ allowed.
Proof. unfold excess_keys. rewrite elem_of_sort_by, list_elem_of_filter. tauto. Qed.

Lemma guard_error_object_Raise obj p e :
  _guard_error_object obj p = Raise e ->
  exists x, x ∈ obj.*1 /\ (x ∉ ERROR_DETAIL_ALLOWED_KEYS) /\ e = Forbidden (_join_path p x) ErrorDetailExcess.
Proof.
  unfold _guard_error_object. destruct (excess_keys _ _) as [|x xs] eqn:Hx; [done|]. intros [=<-].
  exists x. apply and_assoc. split; [|done]. apply elem_of_excess. rewrite Hx. left.
Qed.

Lemma guard_error_object_Ok obj p :
  _guard_error_object obj p = Ok tt <-> forall x, x ∈ obj.*1 -> x ∈ ERROR_DETAIL_ALLOWED_KEYS.
Proof.
  unfold _guard_error_object. split.
  - destruct (excess_keys _ _) as [|x xs] eqn:Hx; [|done]. intros _ x Hin.
    destruct (decide (x ∈ ERROR_DETAIL_ALLOWED_KEYS)) as [|Hn]; [done|].
    assert (x ∈ excess_keys ERROR_DETAIL_ALLOWED_KEYS obj) as Hex by (by apply elem_of_excess).
    rewrite Hx in Hex. by apply elem_of_nil in Hex.
  - intros Hall. destruct (excess_keys _ _) as [|x xs] eqn:Hx; [done|].
    assert (x ∈ excess_keys ERROR_DETAIL_ALLOWED_KEYS obj) as Hex by (rewrite Hx; left).
    apply elem_of_excess in Hex as [? []]. auto.
Qed.

Lemma guard_key_Raise kvs k v q e :
  (k, v) ∈ kvs -> _guard_key k (_join_path q k) = Raise e -> violation (PDict kvs) q e.
Proof.
  unfold _guard_key. rewrite !seq_Raise, !raise_if_Raise, <- names_source_matches,
    <- (names_matches k _CREDENTIAL_KEY_PATTERNS credential_words), <- (names_matches k _PII_KEY_PATTERNS personal_words) by done.
  intros Hin [[? <-]|[_ [[? <-]|[_ [? <-]]]]]; eauto with saena.
Qed.

Lemma guard_item_Raise kvs k v q e :
  (k, v) ∈ kvs -> guard_item k v (_join_path q k) = Raise e -> violation (PDict kvs) q e.
Proof.
  unfold guard_item. intros Hin [Hk|[_ He]]%seq_Raise; [by eapply guard_key_Raise|].
  destruct v as [| | | | | | |obj]; try done. destruct (_matches_any k _) eqn:Hm; [|done]. rewrite <- (names_matches k _ error_words) in Hm by done.
  apply guard_error_object_Raise in He as (x & ? & ? & ->). eauto with saena.
Qed.

Lemma guard_item_Ok kvs q :
  (forall k v, (k, v) ∈ kvs -> guard_item k v (_join_path q k) = Ok tt) ->
  forall e, ~ violation (PDict kvs) q e.
Proof.
  intros Hall e Hv.
  inversion Hv as [? ? k v Hin Hm|? ? k v Hin Hm|? ? k v Hin Hm|? ? k obj x Hin Hm Hx Hn| | | |]; subst;
    specialize (Hall _ _ Hin); unfold guard_item, _guard_key in Hall;
    rewrite !seq_Ok, !raise_if_Ok, <- !not_true_iff_false, <- names_source_matches,
      <- (names_matches k _CREDENTIAL_KEY_PATTERNS credential_words), <- (names_matches k _PII_KEY_PATTERNS personal_words) in Hall by done;
    destruct Hall as [(Hc & Hp & Hs) Hd]; try done.
  rewrite (names_matches k _ERROR_OBJECT_KEY_MARKERS error_words) in Hm by done.
  rewrite Hm, guard_error_object_Ok in Hd. by apply Hn, Hd.
Qed.

(** The walk over the items of a mapping and over the elements of a
    sequence, as functions of their own. *)
Fixpoint guard_items (kvs : list (pystr * pyval)) (p : pystr) : result ForbiddenAuditDataError unit :=
  match kvs with
  | [] => Ok tt
  | (k, v) :: kvs' =>
      guard_item k v (_join_path p k);; guard_payload v (_join_path p k);; guard_items kvs' p
  end.

Fixpoint guard_elements (i : nat) (l : list pyval) (p : pystr) : result ForbiddenAuditDataError unit :=
  match l with
  | [] => Ok tt
  | v :: l' => guard_payload v (_index_path p i);; guard_elements (S i) l' p
  end.

Lemma guard_payload_dict kvs p : guard_payload (PDict kvs) p = guard_items kvs p.
Proof. induction kvs as [|[k v] kvs IH]; cbn in *; [done|]. by rewrite IH. Qed.

Lemma guard_payload_list l p : guard_payload (PList l) p = guard_elements 0 l p.
Proof.
  cbn. generalize 0%nat. induction l as [|v l IH]; intros i; cbn in *; [done|]. by rewrite IH.
Qed.

Lemma guard_items_Ok kvs p :
  guard_items kvs p = Ok tt <->
  forall k v, (k, v) ∈ kvs ->
    guard_item k v (_join_path p k) = Ok tt /\ guard_payload v (_join_path p k) = Ok tt.
Proof.
  induction kvs as [|[k v] kvs IH]; cbn; [set_solver|]. rewrite !seq_Ok, IH. set_solver.
Qed.

Lemma guard_items_Raise kvs p e :
  guard_items kvs p = Raise e ->
  exists k v, (k, v) ∈ kvs /\
    (guard_item k v (_join_path p k) = Raise e \/ guard_payload v (_join_path p k) = Raise e).
Proof.
  induction kvs as [|[k v] kvs IH]; cbn; [done|]. rewrite !seq_Raise.
  intros [?|[_ [?|[_ (k' & v' & ? & ?)%IH]]]]; [exists k, v; set_solver..|exists k', v'; set_solver].
Qed.

Lemma guard_elements_Ok i l p :
  guard_elements i l p = Ok tt <->
  forall j v, l !! j = Some v -> guard_payload v (_index_path p (i + j)) = Ok tt.
Proof.
  revert i. induction l as [|v l IH]; intros i; cbn; [split; [intros _ j ?; by rewrite lookup_nil|done]|].
  rewrite seq_Ok, IH. split.
  - intros [Hv Hl] [|j] w; cbn; [intros [=<-]; by rewrite Nat.add_0_r|].
    intros Hw. replace (i + S j)%nat with (S i + j)%nat by lia. by apply Hl.
  - intros Hall. split; [rewrite <- (Nat.add_0_r i); by apply (Hall 0%nat)|].
    intros j w Hw. replace (S i + j)%nat with (i + S j)%nat by lia. by apply Hall.
Qed.

Lemma guard_elements_Raise i l p e :
  guard_elements i l p = Raise e ->
  exists j v, l !! j = Some v /\ guard_payload v (_index_path p (i + j)) = Raise e.
Proof.
  revert i. induction l as [|v l IH]; intros i; cbn; [done|]. rewrite seq_Raise.
  intros [?|[_ (j & w & ? & ?)%IH]].
  - exists 0%nat, v. by rewrite Nat.add_0_r.
  - exists (S j), w. by replace (i + S j)%nat with (S i + j)%nat by lia.
Qed.

Lemma guard_payload_violation v : forall p e,
  guard_payload v p = Raise e -> exists w q, sub_at v p w q /\ violation w q e.
Proof.
  induction v as [|b|z|f|s|b|l IH|kvs IH] using pyval_nested_ind; intros p e; try done.
  - cbn. intros ?%guard_string_Raise. eauto with saena.
  - cbn. intros [=<-]. eauto with saena.
  - rewrite guard_payload_list. intros (j & v & Hv & He)%guard_elements_Raise. cbn in He.
    rewrite Forall_forall in IH. apply IH in He as (w & q & ? & ?); [|by eapply list_elem_of_lookup_2].
    eauto with saena.
  - rewrite guard_payload_dict. intros (k & v & Hin & [He|He])%guard_items_Raise.
    + apply guard_item_Raise with (kvs := kvs) in He; eauto with saena.
    + rewrite Forall_forall in IH. apply (IH (k, v)) in He as (w & q & ? & ?); eauto with saena.
Qed.

Lemma guard_payload_no_violation v : forall p,
  guard_payload v p = Ok tt -> forall w q e, sub_at v p w q -> ~ violation w q e.
Proof.
  induction v as [|b|z|f|s|b|l IH|kvs IH] using pyval_nested_ind; intros p Hok w q e Hsub;
    try (inversion Hsub; subst; by inversion 1).
  - inversion Hsub; subst. by eapply guard_string_Ok.
  - rewrite guard_payload_list, guard_elements_Ok in Hok. rewrite Forall_forall in IH.
    inversion Hsub as [| |? ? i v ? ? Hv Hs]; subst; [by inversion 1|].
    eapply IH; [by eapply list_elem_of_lookup_2|exact (Hok _ _ Hv)|done].
  - rewrite guard_payload_dict, guard_items_Ok in Hok. rewrite Forall_forall in IH.
    inversion Hsub as [|? ? k v ? ? Hin Hs|]; subst.
    + apply guard_item_Ok. intros k v Hin. by apply Hok.
    + apply Hok in Hin as Hok'. destruct Hok' as [_ Hok']. by eapply (IH (k, v)).
Qed.
End spec.
#[export] Hint Constructors violation : saena.

Section theorems.
Context `{UnicodeDB}.

(** C39: [guard_payload] accepts a payload exactly when no value anywhere
    inside it holds forbidden data: no key with the words of a credential or of
    personal data, or whose words name the content of a source, no string with
    the head of a stack trace, a line of a stack frame or nothing but an e-mail
    address, no bytes, and no error object with fields beyond the error-detail
    shape.  The words of a key are divided at underscores, hyphens, white space
    and before the capitals that follow a small letter or a digit; whole words
    count, so [passwords] and [mypassword] pass, contrary to the docstring. *)
Theorem guard_payload_sound (payload : pyval) (path : pystr) :
  guard_payload payload path = Ok tt <->
  forall w q e, sub_at payload path w q -> ~ violation w q e.
Proof.
  split; [by apply guard_payload_no_violation|]. intros Hno.
  destruct (guard_payload payload path) as [[]|e] eqn:Heq; [done|].
  apply guard_payload_violation in Heq as (w & q & Hsub & Hv). by destruct (Hno w q e).
Qed.

(** What [guard_payload] raises names a real offence: the key path of a
    value inside the payload and the category of what is forbidden there. *)
Theorem guard_payload_Raise (payload : pyval) (path : pystr) (e : ForbiddenAuditDataError) :
  guard_payload payload path = Raise e ->
  exists w q, sub_at payload path w q /\ violation w q e.
Proof. apply guard_payload_violation. Qed.

Lemma excess_keys_nil allowed obj : excess_keys allowed obj = [] <-> forall x, x ∈ obj.*1 -> x ∈ allowed.
Proof.
  split.
  - intros Hnil x Hx. destruct (decide (x ∈ allowed)) as [|Hn]; [done|].
    assert (x ∈ excess_keys allowed obj) as Hex by (by apply elem_of_excess).
    rewrite Hnil in Hex. by apply elem_of_nil in Hex.
  - intros Hall. destruct (excess_keys allowed obj) as [|x xs] eqn:Hx; [done|].
    assert (x ∈ excess_keys allowed obj) as Hex by (rewrite Hx; left).
    apply elem_of_excess in Hex as [? []]. auto.
Qed.

(** An actor passes only when reduced to a single non-empty [actor_id],
    and that string is what the ledger stores. *)
Theorem guard_actor_fields_Ok (actor : list (pystr * pyval)) (a : pystr) :
  guard_actor_fields actor = Ok a <->
  (forall k, k ∈ actor.*1 -> k = u"actor_id") /\ dget actor (u"actor_id") = Some (PStr a) /\ a <> [].
Proof.
  unfold guard_actor_fields.
  assert (excess_keys _ACTOR_ALLOWED_KEYS actor = [] <-> forall k, k ∈ actor.*1 -> k = u"actor_id") as <-.
  { rewrite excess_keys_nil. unfold _ACTOR_ALLOWED_KEYS. by setoid_rewrite list_elem_of_singleton. }
  destruct (excess_keys _ _) as [|x xs]; [|split; [done|by intros [? _]]].
  destruct (dget actor _) as [[| | | |[|c s]| | |]|]; split; try done; try (by intros (_ & [=] & ?)).
  - by intros [=<-].
  - by intros (_ & [=<-] & _).
Qed.
End theorems.

(** A payload whose nested error object carries a field beyond the
    error-detail shape is rejected at that field's path. *)
Lemma guard_payload_Raise_witness :
  exists w q, sub_at (PDict [(u"error", PDict [(u"stack", PInt 1)])]) [] w q /\
    violation w q (Forbidden (u"error.stack") ErrorDetailExcess).
Proof. apply (guard_payload_Raise _ []). vm_compute. reflexivity. Defined.
