(* ===== verification/AuditChain.v ===== *)
(** [saena_domain/audit/hashing.py], [chain.py] and [lineage.py]: the
    append-only hash chain of the audit ledger.

    [AuditEntry] is the record of the contract model with its declared field
    patterns ([valid_fields]) and the scope rule of the subclass.  [linked] is
    the specification of a chain: every entry points at its predecessor's hash
    and carries the digest of its own content.  [verify_chain] decides it and
    reports the first entry that breaks it; [append] preserves it; and two
    linked chains with the same tail hash agree entry by entry, unless two
    entries at hand are a SHA-256 collision. *)

From S2P Require Import Prelude PyStr Regex Sha256 PyVal Canonical AuditGuard.

(** Pydantic's [model_dump(mode="json")] of a value held in an [Any] field is
    library code; it leaves values of JSON types as they are. *)
Fixpoint json_shaped (v : pyval) : bool :=
  match v with
  | PBytes _ => false
  | PFloat f => is_finite_f64 f
  | PList l => forallb json_shaped l
  | PDict kvs => forallb (fun kv => json_shaped kv.2) kvs
  | _ => true
  end.

Class PydanticDump := {
  dump_json : list (pystr * pyval) -> list (pystr * pyval);
  dump_json_shaped kvs : json_shaped (PDict kvs) = true -> dump_json kvs = kvs
}.

#[export, refine] Instance plain_dump : PydanticDump := {| dump_json kvs := kvs |}.
Proof. done. Defined.

Inductive audit_exn : Type :=
  | AForbidden (e : ForbiddenAuditDataError)
  | APy (e : pyexn).

Definition lift_guard {A} (m : result ForbiddenAuditDataError A) : result audit_exn A :=
  try_except m (fun e => Raise (AForbidden e)).
Definition lift_py {A} (m : result pyexn A) : result audit_exn A :=
  try_except m (fun e => Raise (APy e)).

Inductive Scope : Type := tenant | system.
#[export] Instance Scope_eq_dec : EqDecision Scope.
Proof. solve_decision. Defined.
Definition Scope_value (s : Scope) : pystr := match s with tenant => u"tenant" | system => u"system" end.

Record AuditEntry : Type := {
  event_hash : pystr;
  prev_event_hash : option pystr;
  action : pystr;
  recorded_at : pystr;
  scope : Scope;
  trace_id : pystr;
  payload : list (pystr * pyval);
  tenant_id : option pystr;
  run_id : option pystr;
  actor_id : option pystr;
  error_code : option pystr
}.

(** ** The declared field patterns (generated model, anchored at both ends) *)

Definition lower_alnum (c : N) : bool := ascii_lowercase c || ascii_digit c.
Definition digit : re := Cls ascii_digit.

Definition Sha256Ref_re : re := Cat (lit (u"sha256:")) (rep 64 (Cls lower_hex)).
Definition TenantId_re : re :=
  Cat (Cls lower_alnum) (Cat (Cat (Cls (fun c => lower_alnum c || (c =? 45)%N))
    (upto 29 (Cls (fun c => lower_alnum c || (c =? 45)%N)))) (Cls lower_alnum)).
Definition TimestampUtc_re : re :=
  Cat (rep 4 digit) (Cat (chr 45) (Cat (rep 2 digit) (Cat (chr 45) (Cat (rep 2 digit) (Cat (chr 84)
    (Cat (rep 2 digit) (Cat (chr 58) (Cat (rep 2 digit) (Cat (chr 58) (Cat (rep 2 digit)
      (Cat (opt (Cat (chr 46) (plus digit))) (chr 90)))))))))))).
Definition action_segment : re :=
  Cat (Cls ascii_lowercase) (Star (Cls (fun c => lower_alnum c || (c =? 95)%N))).
Definition action_re : re :=
  Cat action_segment (Cat (rep 2 (Cat (chr 46) action_segment)) (Cat (opt (Cat (chr 46) action_segment))
    (Cat (lit (u".v")) (plus digit)))).
Definition trace_id_re : re := rep 32 (Cls lower_hex).
Definition error_code_re : re :=
  let word := plus (Cls (fun c => ascii_lowercase c || (c =? 95)%N)) in
  Cat (lit (u"saena.")) (Cat word (Cat (chr 46) word)).

Definition bounded_id (s : pystr) : bool := (1 <=? length s)%nat && (length s <=? 128)%nat.
Definition opt_all (p : pystr -> bool) (o : option pystr) : bool :=
  match o with Some s => p s | None => true end.

Definition valid_fields (e : AuditEntry) : bool :=
  re_fullmatch Sha256Ref_re (event_hash e) && opt_all (re_fullmatch Sha256Ref_re) (prev_event_hash e) &&
  re_fullmatch action_re (action e) && re_fullmatch TimestampUtc_re (recorded_at e) &&
  re_fullmatch trace_id_re (trace_id e) && opt_all (re_fullmatch TenantId_re) (tenant_id e) &&
  opt_all bounded_id (run_id e) && opt_all bounded_id (actor_id e) &&
  opt_all (re_fullmatch error_code_re) (error_code e).

(** [AuditEntry._check_scope_rules] *)
Definition check_scope_rules (e : AuditEntry) : bool :=
  negb (bool_decide (scope e = tenant) && bool_decide (tenant_id e = None)) &&
  negb (bool_decide (scope e = system) &&
        (bool_decide (tenant_id e <> None) || bool_decide (run_id e <> None))).

(** [AuditEntry.model_validate] *)
Definition model_validate (e : AuditEntry) : result audit_exn AuditEntry :=
  if valid_fields e && check_scope_rules e then Ok e else Raise (APy ValueError).

(** ** hashing.py *)

Definition GENESIS : option pystr := None.
Definition _format_sha256_ref (hex_digest : pystr) : pystr := u"sha256:" ++ hex_digest.

Definition opt_str (o : option pystr) : pyval := match o with Some s => PStr s | None => PNone end.
Definition opt_item (k : pystr) (o : option pystr) : list (pystr * pyval) :=
  match o with Some s => [(k, PStr s)] | None => [] end.

(** The material an entry hash commits to. *)
Definition material (entry_without_hash : list (pystr * pyval)) (prev_hash : option pystr) : pyval :=
  PDict [(u"prev_event_hash", opt_str prev_hash); (u"entry", PDict entry_without_hash)].

Section chain.
Context `{FloatRepr} `{UnicodeDB} `{PydanticDump}.

Definition compute_entry_hash (entry_without_hash : list (pystr * pyval)) (prev_hash : option pystr)
    : result pyexn pystr :=
  text ← canonical_json (material entry_without_hash prev_hash);
  digest ← sha256_hex text;
  Ok (_format_sha256_ref digest).

(** ** chain.py *)

Definition hash_fields (action recorded_at : pystr) (scope : Scope) (trace_id : pystr)
    (payload : list (pystr * pyval)) (tenant_id run_id actor_id error_code : option pystr)
    : list (pystr * pyval) :=
  [(u"action", PStr action); (u"recorded_at", PStr recorded_at); (u"scope", PStr (Scope_value scope));
   (u"trace_id", PStr trace_id); (u"payload", PDict payload)] ++
  opt_item (u"tenant_id") tenant_id ++ opt_item (u"run_id") run_id ++
  opt_item (u"actor_id") actor_id ++ opt_item (u"error_code") error_code.

(** [AuditEntry.hashable_fields] *)
Definition hashable_fields (e : AuditEntry) : list (pystr * pyval) :=
  hash_fields (action e) (recorded_at e) (scope e) (trace_id e) (dump_json (payload e))
    (tenant_id e) (run_id e) (actor_id e) (error_code e).

Definition build_entry (prev_hash : option pystr) (action recorded_at : pystr) (scope : Scope)
    (trace_id : pystr) (payload : list (pystr * pyval)) (tenant_id run_id : option pystr)
    (actor : option (list (pystr * pyval))) (error_code : option pystr) : result audit_exn AuditEntry :=
  lift_guard (guard_payload (PDict payload) []);;
  actor_id ← match actor with
             | Some a => Some <$> lift_guard (guard_actor_fields a)
             | None => Ok None
             end;
  event_hash ← lift_py (compute_entry_hash
    (hash_fields action recorded_at scope trace_id payload tenant_id run_id actor_id error_code) prev_hash);
  model_validate {|
    event_hash := event_hash; prev_event_hash := prev_hash; action := action;
    recorded_at := recorded_at; scope := scope; trace_id := trace_id; payload := payload;
    tenant_id := tenant_id; run_id := run_id; actor_id := actor_id; error_code := error_code |}.

(** [chain[-1].event_hash if chain else GENESIS] *)
Definition tail_hash (chain : list AuditEntry) : option pystr :=
  match last chain with Some e => Some (event_hash e) | None => GENESIS end.

Definition append_entry (chain : list AuditEntry) (entry : AuditEntry)
    : result audit_exn (list AuditEntry) :=
  raise_if (bool_decide (prev_event_hash entry <> tail_hash chain)) (APy ValueError);;
  recomputed ← lift_py (compute_entry_hash (hashable_fields entry) (prev_event_hash entry));
  raise_if (bool_decide (recomputed <> event_hash entry)) (APy ValueError);;
  Ok (chain ++ [entry]).

(** The loop of [verify_chain] at position [index]. *)
Fixpoint verify_from (expected_prev : option pystr) (index : nat) (entries : list AuditEntry)
    : result pyexn (bool * option nat) :=
  match entries with
  | [] => Ok (true, None)
  | entry :: rest =>
      if bool_decide (prev_event_hash entry <> expected_prev) then Ok (false, Some index)
      else
        recomputed ← compute_entry_hash (hashable_fields entry) (prev_event_hash entry);
        if bool_decide (recomputed <> event_hash entry) then Ok (false, Some index)
        else verify_from (Some (event_hash entry)) (S index) rest
  end.

Definition verify_chain (entries : list AuditEntry) : result pyexn (bool * option nat) :=
  verify_from GENESIS 0 entries.

(** [InMemoryAuditChain.append]: the new entries and the appended entry. *)
Definition append (entries : list AuditEntry) (action recorded_at : pystr) (scope : Scope)
    (trace_id : pystr) (payload : list (pystr * pyval)) (tenant_id run_id : option pystr)
    (actor : option (list (pystr * pyval))) (error_code : option pystr)
    : result audit_exn (list AuditEntry * AuditEntry) :=
  entry ← build_entry (tail_hash entries) action recorded_at scope trace_id payload tenant_id run_id
            actor error_code;
  entries' ← append_entry entries entry;
  Ok (entries', entry).
End chain.

(** ** lineage.py *)

Definition _LINEAGE_REF_RE : re := Cat (lit (u"audit:sha256:")) (rep 64 (Cls lower_hex)).

Definition make_lineage_ref (entry_hash : pystr) : result pyexn pystr :=
  if re_match Sha256Ref_re entry_hash then Ok (u"audit" ++ u":" ++ entry_hash) else Raise ValueError.

Definition is_lineage_ref (value : pystr) : bool := re_match _LINEAGE_REF_RE value.

(** ** Specification of a chain *)

Section spec.
Context `{FloatRepr} `{UnicodeDB} `{PydanticDump}.

(** Entry [e] follows an entry whose hash is [prev]. *)
Definition entry_ok (prev : option pystr) (e : AuditEntry) : Prop :=
  prev_event_hash e = prev /\ compute_entry_hash (hashable_fields e) prev = Ok (event_hash e).

Fixpoint linked (prev : option pystr) (es : list AuditEntry) : Prop :=
  match es with
  | [] => True
  | e :: es' => entry_ok prev e /\ linked (Some (event_hash e)) es'
  end.

Definition tail_from (prev : option pystr) (es : list AuditEntry) : option pystr :=
  match last es with Some e => Some (event_hash e) | None => prev end.

Lemma tail_from_cons p e es : tail_from p (e :: es) = tail_from (Some (event_hash e)) es.
Proof. unfold tail_from. rewrite last_cons. by destruct (last es). Qed.

Lemma linked_snoc p es e : linked p (es ++ [e]) <-> linked p es /\ entry_ok (tail_from p es) e.
Proof.
  revert p. induction es as [|e' es IH]; intros p; cbn [linked app]; [cbn; tauto|].
  rewrite IH, tail_from_cons. tauto.
Qed.

(** What [compute_entry_hash] returns, and when. *)
Lemma compute_entry_hash_Ok fs p h :
  compute_entry_hash fs p = Ok h <->
  serializable (material fs p) = true /\ h = _format_sha256_ref (hexdigest (dumps (material fs p))).
Proof.
  unfold compute_entry_hash. split.
  - intros (t & Ht & Hh)%bind_Ok. apply canonical_json_Ok in Ht as [? ->].
    rewrite sha256_hex_dumps in Hh. unfold mbind, result_bind in Hh. inv_ok. done.
  - intros [Hs ->]. rewrite canonical_json_total by done. unfold mbind, result_bind. by rewrite sha256_hex_dumps.
Qed.

Lemma verify_from_true p i es : verify_from p i es = Ok (true, None) <-> linked p es.
Proof.
  revert p i. induction es as [|e es IH]; intros p i; cbn [verify_from linked]; [done|].
  unfold entry_ok. case_bool_decide as Hp.
  - split; [done|]. by intros [[? _] _].
  - subst p. destruct (compute_entry_hash _ _) as [h|x]; cbn.
    + case_bool_decide as Hh; [naive_solver|]. subst h. rewrite IH. naive_solver.
    + naive_solver.
Qed.

(** The verdict on a broken chain: the reported index is the first entry
    that does not follow its predecessor. *)
Lemma verify_from_false p i es j :
  verify_from p i es = Ok (false, Some j) ->
  exists es1 e es2, es = es1 ++ e :: es2 /\ j = (i + length es1)%nat /\
    linked p es1 /\ ~ entry_ok (tail_from p es1) e.
Proof.
  revert p i. induction es as [|e es IH]; intros p i; cbn [verify_from]; [done|].
  case_bool_decide as Hp.
  { intros [=<-]. exists [], e, es. split_and!; [done|cbn; lia|done|]. by intros [? _]. }
  subst p. destruct (compute_entry_hash _ _) as [h|x] eqn:Hc; cbn; [|done].
  case_bool_decide as Hh.
  { intros [=<-]. exists [], e, es. split_and!; [done|cbn; lia|done|]. intros [_ Hok].
    change (tail_from (prev_event_hash e) []) with (prev_event_hash e) in Hok. congruence. }
  subst h. intros (es1 & e' & es2 & -> & -> & Hl & Hno)%IH.
  exists (e :: es1), e', es2. split_and!; [done|cbn; lia|by repeat split|]. by rewrite tail_from_cons.
Qed.

Lemma append_entry_Ok es e es' :
  append_entry es e = Ok es' <-> es' = es ++ [e] /\ entry_ok (tail_hash es) e.
Proof.
  unfold append_entry, entry_ok, lift_py. rewrite seq_Ok, raise_if_Ok, bool_decide_eq_false, bind_Ok.
  split.
  - intros [<-%dec_stable (h & Hh & Hrest)]. destruct (compute_entry_hash _ _) as [h'|] eqn:Hc; [|done].
    cbn in Hh. injection Hh as ->. rewrite seq_Ok, raise_if_Ok, bool_decide_eq_false in Hrest.
    destruct Hrest as [<-%dec_stable Hrest]. injection Hrest as <-. done.
  - intros [-> [<- Hc]]. split; [naive_solver|]. exists (event_hash e). rewrite Hc. cbn.
    split; [done|]. rewrite seq_Ok, raise_if_Ok, bool_decide_eq_false. naive_solver.
Qed.

(** *** Tamper evidence *)

Definition entry_text (e : AuditEntry) : pystr := dumps (material (hashable_fields e) (prev_event_hash e)).

(** A SHA-256 collision between two given entries. *)
Definition collide (e1 e2 : AuditEntry) : Prop :=
  entry_text e1 <> entry_text e2 /\ hexdigest (entry_text e1) = hexdigest (entry_text e2).

(** Two entries with the same content, predecessor and hash. *)
Definition same_entry (e1 e2 : AuditEntry) : Prop :=
  PDict (hashable_fields e1) ≡ PDict (hashable_fields e2) /\
  prev_event_hash e1 = prev_event_hash e2 /\ event_hash e1 = event_hash e2.

(** The strings of an entry are sequences of Unicode scalar values and its
    dicts have distinct keys. *)
Definition wf_entry (e : AuditEntry) : Prop :=
  wf_val (PDict (hashable_fields e)) /\ scalar_val (PDict (hashable_fields e)) /\
  scalar_val (opt_str (prev_event_hash e)).

Definition wf_entryb (e : AuditEntry) : bool :=
  wf_valb (PDict (hashable_fields e)) && scalar_valb (PDict (hashable_fields e)) &&
  scalar_valb (opt_str (prev_event_hash e)).

Lemma wf_entryb_all es : forallb wf_entryb es = true -> Forall wf_entry es.
Proof.
  rewrite forallb_elem, Forall_forall. intros Hall e He. specialize (Hall e He).
  unfold wf_entryb in Hall. bprop. destruct Hall as [[? ?] ?].
  split_and!; auto using wf_valb_wf, scalar_valb_scalar.
Qed.

Lemma material_inj fs1 fs2 p1 p2 :
  material fs1 p1 ≡ material fs2 p2 -> p1 = p2 /\ PDict fs1 ≡ PDict fs2.
Proof.
  unfold material, equiv, pyval_equiv. intros Heq.
  change (canon (PDict [(u"prev_event_hash", opt_str p1); (u"entry", PDict fs1)])) with
    (PDict (sort_by fst [(u"prev_event_hash", canon (opt_str p1)); (u"entry", canon (PDict fs1))])) in Heq.
  change (canon (PDict [(u"prev_event_hash", opt_str p2); (u"entry", PDict fs2)])) with
    (PDict (sort_by fst [(u"prev_event_hash", canon (opt_str p2)); (u"entry", canon (PDict fs2))])) in Heq.
  assert (forall x y : pyval, sort_by fst [(u"prev_event_hash", x); (u"entry", y)] =
    [(u"entry", y); (u"prev_event_hash", x)]) as Hs by reflexivity.
  rewrite !Hs in Heq. injection Heq as Hfs Hp. split; [|exact (f_equal PDict Hfs)].
  by destruct p1, p2; cbn in Hp; simplify_eq.
Qed.

Lemma wf_material e : wf_entry e ->
  wf_val (material (hashable_fields e) (prev_event_hash e)) /\
  scalar_val (material (hashable_fields e) (prev_event_hash e)).
Proof.
  intros (Hwf & Hsc & Hp). unfold material. split.
  - split; [by_decide|].
    split; [by destruct (prev_event_hash e)|]. exact (conj Hwf I).
  - refine (conj (conj _ Hp) (conj (conj _ Hsc) I)); by_decide.
Qed.

Lemma entry_ok_eq p1 p2 e1 e2 :
  wf_entry e1 -> wf_entry e2 -> entry_ok p1 e1 -> entry_ok p2 e2 -> event_hash e1 = event_hash e2 ->
  same_entry e1 e2 \/ collide e1 e2.
Proof.
  intros Hw1 Hw2 [<- Hc1] [<- Hc2] Heq.
  apply compute_entry_hash_Ok in Hc1 as [Hs1 He1]. apply compute_entry_hash_Ok in Hc2 as [Hs2 He2].
  rewrite Heq, He2 in He1. unfold _format_sha256_ref in He1. apply (inj (u"sha256:" ++.)) in He1.
  destruct (decide (entry_text e1 = entry_text e2)) as [Ht|Ht]; [left|by right; split].
  destruct (wf_material e1 Hw1) as [? ?], (wf_material e2 Hw2) as [? ?].
  destruct (material_inj (hashable_fields e1) (hashable_fields e2) (prev_event_hash e1) (prev_event_hash e2))
    as [? ?]; [|by split_and!].
  eapply canonical_json_inj; [done..|by apply canonical_json_total|].
  rewrite canonical_json_total by done. f_equal. symmetry. exact Ht.
Qed.

Lemma linked_tamper es1 : forall es2,
  Forall wf_entry es1 -> Forall wf_entry es2 -> linked GENESIS es1 -> linked GENESIS es2 ->
  tail_hash es1 = tail_hash es2 ->
  Forall2 same_entry es1 es2 \/ exists e1 e2, e1 ∈ es1 /\ e2 ∈ es2 /\ collide e1 e2.
Proof.
  unfold tail_hash.
  induction es1 as [|e1 es1 IH] using rev_ind; intros es2 Hw1 Hw2 Hl1 Hl2 Ht;
    destruct es2 as [|e2 es2 _] using rev_ind; rewrite ?last_snoc in Ht; try discriminate; [by left|].
  injection Ht as Ht. rewrite linked_snoc in Hl1, Hl2. destruct Hl1 as [Hl1 He1], Hl2 as [Hl2 He2].
  apply Forall_app in Hw1 as [Hw1 [Hwe1 _]%Forall_cons], Hw2 as [Hw2 [Hwe2 _]%Forall_cons].
  destruct (entry_ok_eq _ _ e1 e2 Hwe1 Hwe2 He1 He2 Ht) as [Hsame|Hcol].
  - destruct He1 as [Hp1 _], He2 as [Hp2 _], Hsame as (Hc & Hp & Hh).
    destruct (IH es2 Hw1 Hw2 Hl1 Hl2) as [Hall|(a & b & ? & ? & ?)]; [unfold tail_from in *; congruence| |].
    + left. apply Forall2_app; [done|]. by repeat constructor.
    + right. exists a, b. rewrite !elem_of_app. auto.
  - right. exists e1, e2. rewrite !elem_of_app, !list_elem_of_singleton. auto.
Qed.
End spec.

Section facts.
Context `{FloatRepr} `{UnicodeDB} `{PydanticDump}.

Lemma json_shaped_serializable v : json_shaped v = true -> serializable v = true.
Proof.
  induction v as [|b|z|f|s|b|l IH|kvs IH] using pyval_nested_ind; cbn; try done;
    rewrite !forallb_elem; rewrite Forall_forall in IH; auto.
Qed.

Lemma opt_item_serializable k o : forallb (fun kv => serializable kv.2) (opt_item k o) = true.
Proof. by destruct o. Qed.

Lemma material_serializable a r s t pl ti ru ac er p :
  json_shaped (PDict pl) = true -> serializable (material (hash_fields a r s t pl ti ru ac er) p) = true.
Proof.
  intros Hpl%json_shaped_serializable. unfold material. cbn. rewrite !forallb_app, !opt_item_serializable.
  cbn in Hpl. rewrite Hpl. by destruct p.
Qed.

(** Every hash the module produces has the wire form [sha256:<64 hex>]. *)
Lemma sha256_ref_form m : lang Sha256Ref_re (_format_sha256_ref (hexdigest m)).
Proof.
  unfold Sha256Ref_re, _format_sha256_ref. apply lang_cat; [by apply lit_lang|].
  apply rep_cls_lang. auto with saena.
Qed.

Lemma compute_entry_hash_form fs p h : compute_entry_hash fs p = Ok h -> lang Sha256Ref_re h.
Proof. intros [_ ->]%compute_entry_hash_Ok. apply sha256_ref_form. Qed.

Lemma build_entry_Ok es a r s t pl ti ru ac er e :
  build_entry es a r s t pl ti ru ac er = Ok e ->
  guard_payload (PDict pl) [] = Ok tt /\ check_scope_rules e = true /\ valid_fields e = true /\
  prev_event_hash e = es /\ payload e = pl.
Proof.
  unfold build_entry, lift_guard, lift_py. rewrite seq_Ok. intros [Hg Hrest].
  destruct (guard_payload (PDict pl) []) as [[]|]; [|done]. split; [done|].
  apply bind_Ok in Hrest as (aid & _ & Hrest). apply bind_Ok in Hrest as (h & _ & Hrest).
  unfold model_validate in Hrest. destruct (valid_fields _ && _) eqn:Hv; [|done].
  injection Hrest as <-. apply andb_true_iff in Hv as [? ?]. done.
Qed.
End facts.

Section theorems.
Context `{FloatRepr} `{UnicodeDB} `{PydanticDump}.

(** Appending preserves the integrity of the ledger: if the chain
    verified before, it verifies after, the old entries are untouched, the
    new entry is the tail, and its payload passed the forbidden-data guard. *)
Theorem append_preserves_verify es a r s t pl ti ru ac er es' e :
  verify_chain es = Ok (true, None) -> append es a r s t pl ti ru ac er = Ok (es', e) ->
  es' = es ++ [e] /\ verify_chain es' = Ok (true, None) /\ tail_hash es' = Some (event_hash e) /\
  guard_payload (PDict (payload e)) [] = Ok tt /\ check_scope_rules e = true.
Proof.
  intros Hv Happ. unfold append in Happ.
  apply bind_Ok in Happ as (e0 & Hb & Happ). apply bind_Ok in Happ as (es0 & He & Happ).
  injection Happ as -> ->. apply build_entry_Ok in Hb as (Hg & Hs & _ & _ & ->).
  apply append_entry_Ok in He as [-> Hok]. split; [done|].
  unfold verify_chain in *. rewrite verify_from_true in *. rewrite linked_snoc.
  split; [by split|]. unfold tail_hash. by rewrite last_snoc.
Qed.

(** A well-formed request is always recorded: when the payload passes the
    guard, the actor reduces to an [actor_id], and the fields satisfy the
    contract patterns and the scope rule, [append] returns, and the new
    entry carries the digest of its content and its predecessor. *)
Theorem append_total es a r s t pl ti ru ac er aid :
  guard_payload (PDict pl) [] = Ok tt -> json_shaped (PDict pl) = true ->
  match ac with
  | Some actor => exists x, guard_actor_fields actor = Ok x /\ aid = Some x
  | None => aid = None
  end ->
  (forall h, lang Sha256Ref_re h ->
     let e := {| event_hash := h; prev_event_hash := tail_hash es; action := a; recorded_at := r;
                 scope := s; trace_id := t; payload := pl; tenant_id := ti; run_id := ru;
                 actor_id := aid; error_code := er |} in
     valid_fields e = true /\ check_scope_rules e = true) ->
  exists e, append es a r s t pl ti ru ac er = Ok (es ++ [e], e) /\
    entry_ok (tail_hash es) e /\ actor_id e = aid /\ payload e = pl.
Proof.
  intros Hg Hj Hac Hvalid.
  set (fs := hash_fields a r s t pl ti ru aid er).
  set (h := _format_sha256_ref (hexdigest (dumps (material fs (tail_hash es))))).
  assert (compute_entry_hash fs (tail_hash es) = Ok h) as Hh.
  { apply compute_entry_hash_Ok. split; [by apply material_serializable|done]. }
  destruct (Hvalid h (sha256_ref_form _)) as [Hf Hs].
  eexists. unfold append, build_entry. rewrite Hg. cbn [lift_guard try_except mbind result_bind].
  assert (match ac with Some x => Some <$> lift_guard (guard_actor_fields x) | None => Ok None end
    = @Ok audit_exn _ aid) as ->.
  { destruct ac as [actor|]; [|by subst]. destruct Hac as (x & -> & ->). done. }
  cbn [mbind result_bind]. fold fs. rewrite Hh. cbn [lift_py try_except mbind result_bind].
  unfold model_validate. rewrite Hf, Hs. cbn [andb mbind result_bind].
  set (e := Build_AuditEntry h (tail_hash es) a r s t pl ti ru aid er).
  assert (entry_ok (tail_hash es) e) as Hok.
  { split; [done|]. unfold hashable_fields. cbn. by rewrite dump_json_shaped. }
  assert (append_entry es e = Ok (es ++ [e])) as -> by (by apply append_entry_Ok).
  split_and!; done.
Qed.

(** [verify_chain] decides chain integrity and reports the first broken
    entry: every entry before the reported index follows its predecessor and
    the entry at that index does not. *)
Theorem verify_chain_exact es :
  (forall e, e ∈ es -> json_shaped (PDict (payload e)) = true) ->
  match verify_chain es with
  | Ok (true, None) => linked GENESIS es
  | Ok (false, Some j) => exists es1 e es2, es = es1 ++ e :: es2 /\ j = length es1 /\
      linked GENESIS es1 /\ ~ entry_ok (tail_hash es1) e
  | _ => False
  end.
Proof.
  intros Hj.
  assert (forall p i, (exists v, verify_from p i es = Ok v) /\
    (verify_from p i es <> Ok (true, None) -> exists j, verify_from p i es = Ok (false, Some j))) as Htot.
  { induction es as [|e es IH]; intros p i; cbn [verify_from]; [naive_solver|].
    case_bool_decide; [naive_solver|].
    assert (serializable (material (hashable_fields e) (prev_event_hash e)) = true) as Hs.
    { apply material_serializable. rewrite dump_json_shaped; apply Hj; left. }
    assert (compute_entry_hash (hashable_fields e) (prev_event_hash e) =
      Ok (_format_sha256_ref (hexdigest (entry_text e)))) as -> by (by apply compute_entry_hash_Ok).
    cbn [mbind result_bind]. case_bool_decide; [naive_solver|]. apply IH. intros; apply Hj. by right. }
  unfold verify_chain. destruct (decide (verify_from GENESIS 0 es = Ok (true, None))) as [Ht|Ht].
  - rewrite Ht. by apply verify_from_true in Ht.
  - destruct (Htot GENESIS 0%nat) as [_ Hf]. destruct (Hf Ht) as [j Hjf]. rewrite Hjf.
    by apply verify_from_false in Hjf.
Qed.

(** C14: tamper evidence.  Two ledgers that both verify and have the same tail
    hash are equal entry by entry (content, predecessor and hash), or two of
    their entries are a SHA-256 collision: nothing can be edited, inserted,
    dropped or reordered under a fixed tail hash. *)
Theorem tail_hash_commits es1 es2 :
  Forall wf_entry es1 -> Forall wf_entry es2 ->
  verify_chain es1 = Ok (true, None) -> verify_chain es2 = Ok (true, None) ->
  tail_hash es1 = tail_hash es2 ->
  Forall2 same_entry es1 es2 \/ exists e1 e2, e1 ∈ es1 /\ e2 ∈ es2 /\ collide e1 e2.
Proof. unfold verify_chain. rewrite !verify_from_true. apply linked_tamper. Qed.

(** Every hash the chain computes makes a lineage reference, and the
    reference is recognised as one. *)
Theorem make_lineage_ref_total fs p h :
  compute_entry_hash fs p = Ok h ->
  make_lineage_ref h = Ok (u"audit:" ++ h) /\ is_lineage_ref (u"audit:" ++ h) = true.
Proof.
  intros Hl%compute_entry_hash_form. unfold make_lineage_ref, is_lineage_ref.
  assert (re_match Sha256Ref_re h = true) as -> by (apply re_match_spec; by left).
  split; [done|]. apply re_match_spec. left. unfold Sha256Ref_re in Hl.
  apply cat_iff in Hl as (s1 & s2 & -> & ->%lit_lang & Hs2).
  unfold _LINEAGE_REF_RE. rewrite app_assoc. apply lang_cat; [by apply lit_lang|done].
Qed.
End theorems.

(** ** Concrete instances *)

Module Witness.
#[local] Existing Instance sci_float_repr.

Definition demo_payload : list (pystr * pyval) := [(u"gate_id", PStr (u"lint")); (u"attempt", PInt 2)].
Definition demo_append (es : list AuditEntry) : result audit_exn (list AuditEntry * AuditEntry) :=
  append es (u"plan.contract.approved.v1") (u"2026-07-14T00:00:00Z") tenant (replicate 32 97%N)
    demo_payload (Some (u"acme-co")) None (Some [(u"actor_id", PStr (u"op-1"))]) None.

Definition demo_chain : list AuditEntry :=
  match demo_append [] with Ok (es, _) => es | Raise _ => [] end.

Lemma append_preserves_verify_witness :
  exists es' e, demo_append [] = Ok (es', e) /\ verify_chain es' = Ok (true, None).
Proof.
  assert (is_ok (demo_append []) = true) as Hok by (vm_compute; reflexivity).
  destruct (demo_append []) as [[es' e]|x] eqn:Heq; [|discriminate Hok].
  exists es', e. split; [done|].
  unfold demo_append in Heq. apply append_preserves_verify in Heq; [|reflexivity]. apply Heq.
Defined.

Lemma append_total_witness : exists e, demo_append [] = Ok ([e], e) /\ actor_id e = Some (u"op-1").
Proof.
  destruct (append_total [] (u"plan.contract.approved.v1") (u"2026-07-14T00:00:00Z") tenant
    (replicate 32 97%N) demo_payload (Some (u"acme-co")) None (Some [(u"actor_id", PStr (u"op-1"))]) None
    (Some (u"op-1"))) as (e & He & _ & Ha & _).
  - vm_compute. reflexivity.
  - vm_compute. reflexivity.
  - exists (u"op-1"). split; [vm_compute; reflexivity|reflexivity].
  - intros h Hh%accepts_spec. split; [|reflexivity].
    unfold valid_fields, re_fullmatch. cbn [event_hash]. rewrite Hh. vm_compute. reflexivity.
  - exists e. split; [exact He|exact Ha].
Defined.

Lemma verify_chain_exact_witness :
  exists es1 e es2, [Build_AuditEntry [] None [] [] system [] [] None None None None] = es1 ++ e :: es2 /\
    0%nat = length es1 /\ linked GENESIS es1 /\ ~ entry_ok (tail_hash es1) e.
Proof.
  pose proof (verify_chain_exact [Build_AuditEntry [] None [] [] system [] [] None None None None]) as Hv.
  assert (verify_chain [Build_AuditEntry [] None [] [] system [] [] None None None None] = Ok (false, Some 0%nat))
    as Hc by (vm_compute; reflexivity).
  rewrite Hc in Hv. apply Hv. intros e ->%list_elem_of_singleton. reflexivity.
Defined.

Lemma tail_hash_commits_witness :
  Forall2 same_entry demo_chain demo_chain \/
  exists e1 e2, e1 ∈ demo_chain /\ e2 ∈ demo_chain /\ collide e1 e2.
Proof.
  assert (Forall wf_entry demo_chain) as Hwf.
  { apply wf_entryb_all. vm_compute. reflexivity. }
  apply (tail_hash_commits demo_chain demo_chain Hwf Hwf); vm_compute; reflexivity.
Defined.

Lemma make_lineage_ref_total_witness :
  exists h, compute_entry_hash [] None = Ok h /\ make_lineage_ref h = Ok (u"audit:" ++ h).
Proof.
  assert (is_ok (compute_entry_hash [] None) = true) as Hok by (vm_compute; reflexivity).
  destruct (compute_entry_hash [] None) as [h|x] eqn:Heq; [|discriminate Hok].
  exists h. split; [done|]. exact (proj1 (make_lineage_ref_total _ _ _ Heq)).
Defined.

(** [$] in a Python pattern also matches before a final newline, so a value
    that is not in the documented wire form is still recognised. *)
Lemma lineage_ref_newline_accepted :
  is_lineage_ref (u"audit:sha256:" ++ replicate 64 97%N ++ [10%N]) = true.
Proof. vm_compute. reflexivity. Qed.
End Witness.
