(* ===== verification/Policy.v ===== *)
(** The approval policy of a change plan
    (src/packages/domain/src/saena_domain/policy): the plan states and their
    adjacency, actor identity, the two-person rule H-7, the evidence policy
    H-3, the transition function with its guards, cancellation, expiry, the
    execution guard and the lease value object. *)

From S2P Require Import Prelude.
From S2P Require Import PyStr.
From S2P Require Import PyVal.

(** ** policy/identity.py *)

Definition canonical_actor_id `{UnicodeDB} (actor_id : pystr) : pystr :=
  casefold (strip (nfkc actor_id)).

(** ** policy/states.py, policy/audit.py, policy/errors.py *)

Inductive PlanState :=
  | PROPOSED | WAITING_APPROVAL | APPROVED | REJECTED | EXPIRED | CANCELLED.

#[export] Instance PlanState_eq_dec : EqDecision PlanState.
Proof. solve_decision. Defined.

Definition TERMINAL_STATES : list PlanState := [APPROVED; REJECTED; EXPIRED; CANCELLED].

Inductive AuditReasonCode :=
  | SUBMITTED_FOR_APPROVAL | APPROVED_SUFFICIENT_QUORUM | QUORUM_PENDING | GATE_DENIED
  | REJECTED_BY_APPROVER | REJECTED_SELF_APPROVAL | REJECTED_DUPLICATE_APPROVER
  | REJECTED_H3_EVIDENCE_MISSING | REJECTED_H3_SCOPE_ESCAPE | REJECTED_H3_BUDGET_EXCEEDED
  | EXPIRED_LEASE_WINDOW | CANCELLED_BY_PROPOSER | CANCELLED_BY_OPERATOR
  | CONTRACT_HASH_VIOLATION | CONFLICTING_DECISION.

#[export] Instance AuditReasonCode_eq_dec : EqDecision AuditReasonCode.
Proof. solve_decision. Defined.

Record AuditTrailRecord := {
  at_contract_hash : pystr;
  at_actor_id : pystr;
  at_decided_at : pystr;
  at_from_state : PlanState;
  at_to_state : PlanState;
  at_reason_code : AuditReasonCode
}.

(** ** policy/two_person.py *)

Record ApproverRecord := { ar_approver_actor_id : pystr; ar_decision : pystr }.

(** [evaluate_h7_two_person_approval]: the loop collects the canonical
    identities of the approving non-proposers in a set. *)
Definition h7_step `{UnicodeDB} (canonical_proposer : pystr) (acc : gset pystr)
    (record : ApproverRecord) : gset pystr :=
  if bool_decide (ar_decision record <> u "approved") then acc else
  let canonical_approver := canonical_actor_id (ar_approver_actor_id record) in
  if bool_decide (canonical_approver = canonical_proposer) then acc
  else {[ canonical_approver ]} ∪ acc.

Definition h7_required (high_risk : bool) : nat := if high_risk then 2 else 1.

Definition evaluate_h7_two_person_approval `{UnicodeDB}
    (proposer_actor_id : pystr) (approvals : list ApproverRecord) (high_risk : bool) : bool :=
  let distinct_valid_approvers :=
    fold_left (h7_step (canonical_actor_id proposer_actor_id)) approvals ∅ in
  bool_decide (h7_required high_risk <= size distinct_valid_approvers).

(** ** policy/transitions.py *)

Definition allowed_transitions (s : PlanState) : list PlanState :=
  match s with
  | PROPOSED => [WAITING_APPROVAL; CANCELLED]
  | WAITING_APPROVAL => [APPROVED; REJECTED; EXPIRED; CANCELLED]
  | APPROVED | REJECTED | EXPIRED | CANCELLED => []
  end.

Record DecisionRecord := {
  dr_contract_hash : pystr;
  dr_approver_actor_id : pystr;
  dr_decision : pystr;
  dr_proposer_actor_id : pystr;
  dr_high_risk : bool;
  dr_decided_at : pystr
}.

#[export] Instance DecisionRecord_eq_dec : EqDecision DecisionRecord.
Proof. solve_decision. Defined.

Definition decision_key `{UnicodeDB} (d : DecisionRecord) : pystr * pystr :=
  (dr_contract_hash d, canonical_actor_id (dr_approver_actor_id d)).

Record TransitionOutcome := { to_state : PlanState; audit_record : AuditTrailRecord }.

Record PlanSnapshot := { ps_contract_hash : pystr; ps_content_fingerprint : pystr }.

#[export] Instance PlanSnapshot_eq_dec : EqDecision PlanSnapshot.
Proof. solve_decision. Defined.

(** The request an [InvalidTransitionError] carries: no decision, a decision,
    or the literal of [cancel] and [expire]. *)
Inductive requested := ReqNone | ReqDecision (d : DecisionRecord) | ReqText (s : pystr).

Inductive policy_exn :=
  | InvalidTransitionError (current_state : PlanState) (requested_decision : requested)
  | ExecutionBlockedError
  | ContractHashViolationError
  | InconsistentPlanSnapshotError
  | ConflictingDecisionError (prior incoming : pystr).

Definition is_high_risk_plan (hypothesis_risks : list pystr) : bool :=
  bool_decide (u "high" ∈ hypothesis_risks).

Definition guard_immutability (contract_hash prior_contract_hash prior_content_fingerprint
    new_content_fingerprint : pystr) : result policy_exn unit :=
  if bool_decide (contract_hash <> prior_contract_hash) then Ok tt
  else raise_if (bool_decide (new_content_fingerprint <> prior_content_fingerprint))
         ContractHashViolationError.

(** The guard of [transition] on the two optional snapshots. *)
Definition guard_snapshots (stored_plan presented_plan : option PlanSnapshot)
    : result policy_exn unit :=
  match stored_plan, presented_plan with
  | None, None => Ok tt
  | Some stored, Some presented =>
      guard_immutability (ps_contract_hash presented) (ps_contract_hash stored)
        (ps_content_fingerprint stored) (ps_content_fingerprint presented)
  | _, _ => Raise InconsistentPlanSnapshotError
  end.

Definition outcome (contract_hash actor_id decided_at : pystr) (from to : PlanState)
    (reason : AuditReasonCode) : TransitionOutcome :=
  {| to_state := to;
     audit_record := {| at_contract_hash := contract_hash; at_actor_id := actor_id;
                        at_decided_at := decided_at; at_from_state := from;
                        at_to_state := to; at_reason_code := reason |} |}.

(** The replay guard: a prior decision under the same key must agree. *)
Definition guard_replay `{UnicodeDB} (seen : gmap (pystr * pystr) DecisionRecord)
    (incoming : DecisionRecord) : result policy_exn unit :=
  match seen !! decision_key incoming with
  | None => Ok tt
  | Some prior =>
      raise_if (bool_decide (dr_decision prior <> dr_decision incoming))
        (ConflictingDecisionError (dr_decision prior) (dr_decision incoming))
  end.

Definition transition `{UnicodeDB} (plan_state : PlanState)
    (contract_hash proposer_actor_id : pystr) (approvals : list ApproverRecord)
    (high_risk : bool) (decided_at : pystr)
    (seen_decisions : option (gmap (pystr * pystr) DecisionRecord))
    (incoming_decision : option DecisionRecord)
    (stored_plan presented_plan : option PlanSnapshot) : result policy_exn TransitionOutcome :=
  let seen := default ∅ seen_decisions in
  if bool_decide (plan_state = PROPOSED) then
    Ok (outcome contract_hash proposer_actor_id decided_at PROPOSED WAITING_APPROVAL
          SUBMITTED_FOR_APPROVAL)
  else if bool_decide (plan_state <> WAITING_APPROVAL) then
    Raise (InvalidTransitionError plan_state (from_option ReqDecision ReqNone incoming_decision))
  else
    _ ← guard_snapshots stored_plan presented_plan;
    match incoming_decision with
    | None => Raise (InvalidTransitionError plan_state ReqNone)
    | Some incoming =>
        _ ← raise_if (bool_decide (dr_contract_hash incoming <> contract_hash))
              ContractHashViolationError;
        _ ← guard_replay seen incoming;
        _ ← raise_if (bool_decide (canonical_actor_id (dr_approver_actor_id incoming)
                                   = canonical_actor_id proposer_actor_id))
              (InvalidTransitionError plan_state (ReqDecision incoming));
        if bool_decide (dr_decision incoming = u "rejected") then
          Ok (outcome contract_hash (dr_approver_actor_id incoming) decided_at
                WAITING_APPROVAL REJECTED REJECTED_BY_APPROVER)
        else if evaluate_h7_two_person_approval proposer_actor_id approvals high_risk then
          Ok (outcome contract_hash (dr_approver_actor_id incoming) decided_at
                WAITING_APPROVAL APPROVED APPROVED_SUFFICIENT_QUORUM)
        else
          Ok (outcome contract_hash (dr_approver_actor_id incoming) decided_at
                WAITING_APPROVAL WAITING_APPROVAL QUORUM_PENDING)
    end.

Definition cancel (plan_state : PlanState) (contract_hash actor_id decided_at : pystr)
    (by_operator : bool) : result policy_exn TransitionOutcome :=
  if bool_decide (CANCELLED ∉ allowed_transitions plan_state) then
    Raise (InvalidTransitionError plan_state (ReqText (u "cancel")))
  else
    let reason := if by_operator then CANCELLED_BY_OPERATOR else CANCELLED_BY_PROPOSER in
    Ok (outcome contract_hash actor_id decided_at plan_state CANCELLED reason).

Definition expire (plan_state : PlanState) (contract_hash actor_id decided_at : pystr)
    : result policy_exn TransitionOutcome :=
  if bool_decide (EXPIRED ∉ allowed_transitions plan_state) then
    Raise (InvalidTransitionError plan_state (ReqText (u "expire")))
  else Ok (outcome contract_hash actor_id decided_at plan_state EXPIRED EXPIRED_LEASE_WINDOW).

Definition guard_execution (plan_state : PlanState) (approval_decision : option pystr)
    : result policy_exn unit :=
  _ ← raise_if (bool_decide (plan_state <> APPROVED)) ExecutionBlockedError;
  raise_if (bool_decide (approval_decision <> Some (u "approved"))) ExecutionBlockedError.

(** ** policy/lease.py *)

Record PatchUnitLease := { pl_patch_unit_id : pystr; pl_scope : list pystr; pl_expiry : pystr }.

Definition issue_lease (patch_unit_id : pystr) (scope : list pystr) (expiry : pystr)
    : result pyexn PatchUnitLease :=
  if bool_decide (patch_unit_id = []) then Raise ValueError
  else Ok {| pl_patch_unit_id := patch_unit_id; pl_scope := scope; pl_expiry := expiry |}.

(** ** policy/evidence.py *)

(** The attributes of a plan that the policy reads; [evidence_ledger_hash] is
    the [str] of the attribute, [None] when it is absent or [None]. *)
Record ChangePlanLike := {
  cp_evidence_ledger_hash : option pystr;
  cp_approved_scope : list pystr;
  cp_max_globs : Z;
  cp_max_files : Z;
  cp_max_lines : Z
}.

Record DiffStats := { files_changed : Z; lines_changed : Z }.

(** The violation messages, by what they interpolate. *)
Inductive h3_violation :=
  | MissingEvidence
  | TooManyGlobs (n max_globs : Z)
  | ScopeGlobEscapes (glob : pystr)
  | FilesOverBudget (n max_files : Z)
  | LinesOverBudget (n max_lines : Z).

Record H3PolicyResult := { h3_ok : bool; h3_violations : list h3_violation }.

Definition slash : N := 47%N.
Definition backslash : N := 92%N.

Definition glob_segments (glob : pystr) : list pystr :=
  split_at (N.eqb slash) (replace_char backslash slash glob).

Definition is_glob_escape (glob : pystr) : bool :=
  bool_decide (glob = []) || bool_decide (strip glob <> glob)
  || startswith [slash] glob
  || contains (u "://") glob
  || existsb (fun segment => bool_decide (segment = u "..")) (glob_segments glob).

Definition evaluate_h3_evidence_policy (plan : ChangePlanLike) (diff_stats : option DiffStats)
    : H3PolicyResult :=
  let evidence_hash_str := default [] (cp_evidence_ledger_hash plan) in
  let n := Z.of_nat (length (cp_approved_scope plan)) in
  let violations :=
    (if bool_decide (strip evidence_hash_str = []) then [MissingEvidence] else []) ++
    (if (cp_max_globs plan <? n)%Z then [TooManyGlobs n (cp_max_globs plan)] else []) ++
    (ScopeGlobEscapes <$> List.filter is_glob_escape (cp_approved_scope plan)) ++
    match diff_stats with
    | None => []
    | Some ds =>
        (if (cp_max_files plan <? files_changed ds)%Z
         then [FilesOverBudget (files_changed ds) (cp_max_files plan)] else []) ++
        (if (cp_max_lines plan <? lines_changed ds)%Z
         then [LinesOverBudget (lines_changed ds) (cp_max_lines plan)] else [])
    end in
  {| h3_ok := bool_decide (violations = []); h3_violations := violations |}.

(** ** Lemmas *)

Section two_person.
Context `{UnicodeDB}.

(** The canonical identities of the approving non-proposers. *)
Definition valid_approver (proposer : pystr) (approvals : list ApproverRecord) (x : pystr) : Prop :=
  x <> canonical_actor_id proposer /\
  exists r, r ∈ approvals /\ ar_decision r = u "approved" /\
    canonical_actor_id (ar_approver_actor_id r) = x.

(** At least [n] different valid approvers. *)
Definition quorum (n : nat) (proposer : pystr) (approvals : list ApproverRecord) : Prop :=
  exists ids, NoDup ids /\ length ids = n /\ Forall (valid_approver proposer approvals) ids.

Definition h7_set (proposer : pystr) (approvals : list ApproverRecord) : gset pystr :=
  fold_left (h7_step (canonical_actor_id proposer)) approvals ∅.

Lemma elem_of_h7_step cp acc r x :
  x ∈ h7_step cp acc r <->
  x ∈ acc \/ (x <> cp /\ ar_decision r = u "approved" /\
              canonical_actor_id (ar_approver_actor_id r) = x).
Proof. unfold h7_step. repeat case_bool_decide; set_solver. Qed.

Lemma elem_of_h7_fold cp approvals acc x :
  x ∈ fold_left (h7_step cp) approvals acc <->
  x ∈ acc \/ (x <> cp /\ exists r, r ∈ approvals /\ ar_decision r = u "approved" /\
                canonical_actor_id (ar_approver_actor_id r) = x).
Proof.
  revert acc. induction approvals as [|r l IH]; intros acc; cbn [fold_left].
  - set_solver.
  - rewrite IH, elem_of_h7_step. set_solver.
Qed.

Lemma elem_of_h7_set proposer approvals x :
  x ∈ h7_set proposer approvals <-> valid_approver proposer approvals x.
Proof. unfold h7_set, valid_approver. rewrite elem_of_h7_fold. set_solver. Qed.

Lemma evaluate_h7_quorum proposer approvals hr :
  evaluate_h7_two_person_approval proposer approvals hr = true <->
  quorum (h7_required hr) proposer approvals.
Proof.
  unfold evaluate_h7_two_person_approval. fold (h7_set proposer approvals).
  rewrite bool_decide_eq_true. split.
  - intros Hn. exists (take (h7_required hr) (elements (h7_set proposer approvals))).
    split; [|split].
    + eapply sublist_NoDup; [apply (NoDup_elements (h7_set proposer approvals))|apply sublist_take].
    + rewrite length_take. apply Nat.min_l. exact Hn.
    + apply Forall_forall. intros x Hx. apply elem_of_h7_set, elem_of_elements.
      eapply elem_of_sublist; [exact Hx|apply sublist_take].
  - intros (ids & Hnd & <- & Hids).
    change (length ids <= length (elements (h7_set proposer approvals))).
    apply submseteq_length, NoDup_submseteq; [done|].
    intros x Hx. apply elem_of_elements, elem_of_h7_set.
    by eapply Forall_forall in Hids.
Qed.
End two_person.

Section quorum_facts.
Context `{UnicodeDB}.

(** Two approval lists and proposers that name the same identities, however
    spelt, ordered or repeated. *)
Definition approving (approvals : list ApproverRecord) (x : pystr) : Prop :=
  exists r, r ∈ approvals /\ ar_decision r = u "approved" /\
    canonical_actor_id (ar_approver_actor_id r) = x.

#[export] Instance approvals_equiv : Equiv (list ApproverRecord) := fun a a' =>
  forall x, approving a x <-> approving a' x.

#[export] Instance approvals_equivalence : Equivalence (≡@{list ApproverRecord}).
Proof. unfold equiv, approvals_equiv. split; red; naive_solver. Qed.

#[export] Instance quorum_Proper n proposer :
  Proper ((≡@{list ApproverRecord}) ==> iff) (quorum n proposer).
Proof.
  intros a a' Ha. unfold quorum, valid_approver.
  split; intros (ids & Hnd & Hl & Hids); exists ids; (split; [done|]; split; [done|]);
    (eapply Forall_impl; [exact Hids|]); intros x (? & Hx); (split; [done|]); by apply Ha.
Qed.

Lemma quorum_mono n proposer a a' :
  (forall x, approving a x -> approving a' x) -> quorum n proposer a -> quorum n proposer a'.
Proof.
  intros Ha (ids & ? & ? & Hids). exists ids. split; [done|]. split; [done|].
  eapply Forall_impl; [exact Hids|]. intros x (? & Hx). split; [done|]. by apply Ha.
Qed.

Lemma quorum_le n m proposer a : m <= n -> quorum n proposer a -> quorum m proposer a.
Proof.
  intros Hm (ids & Hnd & <- & Hids). exists (take m ids). split; [|split].
  - eapply sublist_NoDup; [exact Hnd|apply sublist_take].
  - rewrite length_take. by apply Nat.min_l.
  - by apply Forall_take.
Qed.

Lemma quorum_1 proposer a : quorum 1 proposer a <-> exists x, valid_approver proposer a x.
Proof.
  split.
  - intros ([|x [|]] & ? & ? & Hids); try done. rewrite Forall_singleton in Hids. by exists x.
  - intros (x & Hx). exists [x]. split; [apply NoDup_singleton|]. split; [done|].
    by apply Forall_singleton.
Qed.

Lemma quorum_2 proposer a :
  quorum 2 proposer a <->
  exists x y, x <> y /\ valid_approver proposer a x /\ valid_approver proposer a y.
Proof.
  split.
  - intros ([|x [|y [|]]] & Hnd & ? & Hids); try done.
    rewrite !Forall_cons in Hids. destruct Hids as (? & ? & _).
    exists x, y. split; [|done]. intros ->. apply NoDup_cons in Hnd as [Hnd _]. set_solver.
  - intros (x & y & ? & ? & ?). exists [x; y]. split; [|split; [done|]].
    + apply NoDup_cons. split; [set_solver|apply NoDup_singleton].
    + repeat (apply Forall_cons; split; [done|]). by apply Forall_nil.
Qed.

Lemma evaluate_h7_false proposer approvals hr :
  evaluate_h7_two_person_approval proposer approvals hr = false <->
  ~ quorum (h7_required hr) proposer approvals.
Proof. rewrite <- evaluate_h7_quorum. by rewrite not_true_iff_false. Qed.
End quorum_facts.

(** The outcome of a decision on a plan that waits for approval. *)
Inductive decision_step `{UnicodeDB} (proposer : pystr) (approvals : list ApproverRecord)
    (high_risk : bool) (d : DecisionRecord) : PlanState -> AuditReasonCode -> Prop :=
  | step_reject :
      dr_decision d = u "rejected" ->
      decision_step proposer approvals high_risk d REJECTED REJECTED_BY_APPROVER
  | step_approve :
      dr_decision d <> u "rejected" -> quorum (h7_required high_risk) proposer approvals ->
      decision_step proposer approvals high_risk d APPROVED APPROVED_SUFFICIENT_QUORUM
  | step_pending :
      dr_decision d <> u "rejected" -> ~ quorum (h7_required high_risk) proposer approvals ->
      decision_step proposer approvals high_risk d WAITING_APPROVAL QUORUM_PENDING.

(** The guards a decision passes before its outcome is computed. *)
Record decision_admissible `{UnicodeDB} (contract_hash proposer : pystr)
    (seen : gmap (pystr * pystr) DecisionRecord) (stored presented : option PlanSnapshot)
    (d : DecisionRecord) : Prop := {
  adm_paired : stored = None <-> presented = None;
  adm_immutable s p : stored = Some s -> presented = Some p ->
    ps_contract_hash p = ps_contract_hash s ->
    ps_content_fingerprint p = ps_content_fingerprint s;
  adm_hash : dr_contract_hash d = contract_hash;
  adm_replay prior : seen !! decision_key d = Some prior -> dr_decision prior = dr_decision d;
  adm_other : canonical_actor_id (dr_approver_actor_id d) <> canonical_actor_id proposer
}.

Section transition.
Context `{UnicodeDB}.

Lemma guard_snapshots_Ok stored presented x :
  guard_snapshots stored presented = Ok x <->
  (stored = None <-> presented = None) /\
  (forall s p, stored = Some s -> presented = Some p ->
     ps_contract_hash p = ps_contract_hash s ->
     ps_content_fingerprint p = ps_content_fingerprint s).
Proof.
  destruct x. unfold guard_snapshots, guard_immutability.
  destruct stored as [s|], presented as [p|]; try naive_solver.
  case_bool_decide as E1; [naive_solver|]. rewrite raise_if_Ok, bool_decide_eq_false. split.
  - intros E2%dec_stable. naive_solver.
  - intros [_ Himm] E2. apply E2. by apply (Himm s p).
Qed.

Lemma guard_replay_Ok seen d x :
  guard_replay seen d = Ok x <->
  (forall prior, seen !! decision_key d = Some prior -> dr_decision prior = dr_decision d).
Proof.
  destruct x. unfold guard_replay. destruct (seen !! decision_key d) as [prior|]; [|naive_solver].
  rewrite raise_if_Ok, bool_decide_eq_false. split.
  - intros Hd%dec_stable ? [= <-]. done.
  - intros Hp Hd. apply Hd. by apply Hp.
Qed.

Lemma decision_step_det proposer approvals hr d s r s' r' :
  decision_step proposer approvals hr d s r -> decision_step proposer approvals hr d s' r' ->
  s = s' /\ r = r'.
Proof. do 2 inversion 1; subst; done. Qed.

Lemma transition_waiting contract_hash proposer approvals hr decided_at seen incoming
    stored presented o :
  transition WAITING_APPROVAL contract_hash proposer approvals hr decided_at seen incoming
    stored presented = Ok o <->
  exists d r, incoming = Some d /\
    decision_admissible contract_hash proposer (default ∅ seen) stored presented d /\
    decision_step proposer approvals hr d (to_state o) r /\
    o = outcome contract_hash (dr_approver_actor_id d) decided_at WAITING_APPROVAL (to_state o) r.
Proof.
  unfold transition. rewrite bool_decide_false by done.
  rewrite bool_decide_false by (intros Hn; by apply Hn). rewrite bind_Ok. split.
  - intros ([] & Hsnap & Hk). apply guard_snapshots_Ok in Hsnap as [Hp Hi].
    destruct incoming as [d|]; [|done]. rewrite !bind_Ok in Hk.
    destruct Hk as ([] & Hh & Hk). rewrite bind_Ok in Hk. destruct Hk as ([] & Hr & Hk).
    rewrite bind_Ok in Hk. destruct Hk as ([] & Ho & Hk).
    rewrite raise_if_Ok, bool_decide_eq_false in Hh, Ho. apply dec_stable in Hh.
    rewrite guard_replay_Ok in Hr.
    assert (decision_admissible contract_hash proposer (default ∅ seen) stored presented d)
      by (split; done).
    exists d. case_bool_decide; [|destruct (evaluate_h7_two_person_approval _ _ _) eqn:E];
      injection Hk as <-; eexists; (split; [done|]); (split; [done|]); (split; [|done]).
    + by apply step_reject.
    + apply step_approve; [done|]. by apply evaluate_h7_quorum.
    + apply step_pending; [done|]. by apply evaluate_h7_false.
  - intros (d & r & -> & Hadm & Hstep & ->). destruct Hadm as [Hp Hi Hh Hr Ho].
    exists tt. split; [by apply guard_snapshots_Ok|].
    cbn beta iota. rewrite bind_Ok. exists tt. split; [rewrite raise_if_Ok, bool_decide_eq_false; naive_solver|].
    cbn beta iota. rewrite bind_Ok. exists tt. split; [by apply guard_replay_Ok|].
    cbn beta iota. rewrite bind_Ok. exists tt. split; [by rewrite raise_if_Ok, bool_decide_eq_false|].
    cbn in Hstep |- *. inversion Hstep as [Hd|Hd Hq|Hd Hq]; subst.
    + by rewrite bool_decide_true.
    + rewrite bool_decide_false by done. apply evaluate_h7_quorum in Hq. by rewrite Hq.
    + rewrite bool_decide_false by done. apply evaluate_h7_false in Hq. by rewrite Hq.
Qed.

Lemma transition_terminal s contract_hash proposer approvals hr decided_at seen incoming
    stored presented :
  s ∈ TERMINAL_STATES ->
  transition s contract_hash proposer approvals hr decided_at seen incoming stored presented =
  Raise (InvalidTransitionError s (from_option ReqDecision ReqNone incoming)).
Proof. intros Hs. destruct s; try done; exfalso; set_solver. Qed.
End transition.

(** ** Where a scope glob can point

    [walk] follows the segments of a path from a directory; [resolve] starts
    from the root directory when the path is absolute. *)

Definition walk_step (dir : list pystr) (segment : pystr) : list pystr :=
  if bool_decide (segment = []) || bool_decide (segment = u ".") then dir
  else if bool_decide (segment = u "..") then removelast dir
  else dir ++ [segment].

Definition walk (dir : list pystr) (segments : list pystr) : list pystr :=
  fold_left walk_step segments dir.

Definition resolve (root : list pystr) (path : pystr) : list pystr :=
  walk (if startswith [slash] path then [] else root) (split_at (N.eqb slash) path).

Lemma walk_prefix segments dir :
  u ".." ∉ segments -> exists suffix, walk dir segments = dir ++ suffix.
Proof.
  revert dir. induction segments as [|x l IH]; intros dir Hx; [exists []; by rewrite app_nil_r|].
  apply not_elem_of_cons in Hx as [Hx Hl]. 
  change (walk dir (x :: l)) with (walk (walk_step dir x) l). unfold walk_step.
  case_bool_decide; [by apply IH|]. case_bool_decide; [by apply IH|]. cbn [orb].
  rewrite bool_decide_false by congruence.
  destruct (IH (dir ++ [x]) Hl) as [suffix ->]. exists ([x] ++ suffix). by rewrite app_assoc.
Qed.

Lemma is_glob_escape_false glob :
  is_glob_escape glob = false <->
  glob <> [] /\ strip glob = glob /\ startswith [slash] glob = false /\
  contains (u "://") glob = false /\ u ".." ∉ glob_segments glob.
Proof.
  unfold is_glob_escape. rewrite !orb_false_iff, !bool_decide_eq_false, existsb_false_elem.
  split.
  - intros ((((? & H2%dec_stable) & ?) & ?) & Hseg). repeat (split; [done|]).
    intros Hin. specialize (Hseg _ Hin). by rewrite bool_decide_eq_false in Hseg.
  - intros (? & ? & ? & ? & Hseg). repeat split; try done; [naive_solver|].
    intros x Hx. apply bool_decide_eq_false. by intros ->.
Qed.

Lemma posix_segments_dotdot glob :
  u ".." ∈ split_at (N.eqb slash) glob -> u ".." ∈ glob_segments glob.
Proof.
  unfold glob_segments. rewrite split_at_replace. intros Hin.
  eapply elem_of_split_at_refine; [|exact Hin|].
  - intros c ->. by rewrite orb_true_r.
  - by repeat constructor.
Qed.

Section h3.
Lemma h3_no_escape plan ds g :
  h3_ok (evaluate_h3_evidence_policy plan ds) = true -> g ∈ cp_approved_scope plan ->
  is_glob_escape g = false.
Proof.
  cbn. rewrite bool_decide_eq_true. intros Hv Hg.
  apply app_eq_nil in Hv as [_ Hv]. apply app_eq_nil in Hv as [_ Hv].
  apply app_eq_nil in Hv as [Hv _]. apply Bool.not_true_iff_false. intros He.
  assert (g ∈ List.filter is_glob_escape (cp_approved_scope plan)) as Hin.
  { rewrite list_elem_of_In in *. apply List.filter_In. split; done. }
  apply (list_elem_of_fmap_2 ScopeGlobEscapes) in Hin. rewrite Hv in Hin. by apply elem_of_nil in Hin.
Qed.
End h3.

(** ** The properties of the policy *)

Section properties.
Context `{UnicodeDB}.

(** H-7 is decided exactly: an ordinary plan passes with one approving
    identity that is not the proposer's, a high-risk plan with two different
    ones, identities compared after NFKC, strip and casefold. *)
Theorem two_person_rule proposer approvals :
  (evaluate_h7_two_person_approval proposer approvals false = true <->
     exists x, valid_approver proposer approvals x) /\
  (evaluate_h7_two_person_approval proposer approvals true = true <->
     exists x y, x <> y /\ valid_approver proposer approvals x /\
                 valid_approver proposer approvals y).
Proof. rewrite !evaluate_h7_quorum. split; [apply quorum_1|apply quorum_2]. Qed.

(** The verdict of H-7 sees identities only: respelling, repeating or
    reordering the approvals, or respelling the proposer, never changes it;
    and a further approval never revokes it. *)
Theorem two_person_identity proposer proposer' approvals approvals' more hr :
  canonical_actor_id proposer = canonical_actor_id proposer' ->
  approvals ≡ approvals' ->
  evaluate_h7_two_person_approval proposer approvals hr =
    evaluate_h7_two_person_approval proposer' approvals' hr /\
  (evaluate_h7_two_person_approval proposer approvals hr = true ->
   evaluate_h7_two_person_approval proposer' (approvals' ++ more) hr = true).
Proof.
  intros Hp Ha.
  assert (evaluate_h7_two_person_approval proposer approvals hr =
          evaluate_h7_two_person_approval proposer' approvals' hr) as ->.
  { apply Bool.eq_iff_eq_true.
    rewrite !evaluate_h7_quorum, Ha. unfold quorum, valid_approver. by rewrite Hp. }
  split; [done|]. rewrite !evaluate_h7_quorum. apply quorum_mono.
  intros x (r & Hr & Hx). exists r. rewrite elem_of_app. tauto.
Qed.

(** C11: [transition] on a waiting plan is the decision step of the policy: it
    returns exactly when the snapshots are both given (and then unchanged) or
    both absent, the decision is for this contract, does not contradict an
    earlier one of the same identity and is not the proposer's own; and then
    the new state is REJECTED on a rejection, APPROVED with the quorum,
    WAITING_APPROVAL otherwise, with the audit record saying so. *)
Theorem transition_refines_decision_step contract_hash proposer approvals hr decided_at seen
    incoming stored presented o :
  transition WAITING_APPROVAL contract_hash proposer approvals hr decided_at seen incoming
    stored presented = Ok o <->
  exists d r, incoming = Some d /\
    decision_admissible contract_hash proposer (default ∅ seen) stored presented d /\
    decision_step proposer approvals hr d (to_state o) r /\
    o = outcome contract_hash (dr_approver_actor_id d) decided_at WAITING_APPROVAL (to_state o) r.
Proof. apply transition_waiting. Qed.
End properties.

(** Every operation that computes a next state, on any arguments. *)
Inductive policy_runs `{UnicodeDB} (s : PlanState) : result policy_exn TransitionOutcome -> Prop :=
  | runs_transition c p a hr t seen inc st pr :
      policy_runs s (transition s c p a hr t seen inc st pr)
  | runs_cancel c a t op : policy_runs s (cancel s c a t op)
  | runs_expire c a t : policy_runs s (expire s c a t).

Section lifecycle.
Context `{UnicodeDB}.

(** the state machine is sound: whatever operation runs, its new state is
    an edge of the adjacency table (or the plan still waits, for want of a
    quorum), its audit record names the states it moved between, and in a
    terminal state every operation raises [InvalidTransitionError]. *)
Theorem policy_lifecycle s m :
  policy_runs s m ->
  (forall o, m = Ok o ->
     at_from_state (audit_record o) = s /\ at_to_state (audit_record o) = to_state o /\
     (to_state o ∈ allowed_transitions s \/
      s = WAITING_APPROVAL /\ to_state o = WAITING_APPROVAL /\
      at_reason_code (audit_record o) = QUORUM_PENDING)) /\
  (s ∈ TERMINAL_STATES -> exists r, m = Raise (InvalidTransitionError s r)).
Proof.
  intros Hr. split.
  - intros o ->. inversion Hr as [c p a hr t seen inc st pr Heq|c a t op Heq|c a t Heq].
    + destruct (decide (s = PROPOSED)) as [->|Hn]; [injection Heq as <-; cbn; set_solver|].
      destruct (decide (s = WAITING_APPROVAL)) as [->|Hn2].
      * apply transition_waiting in Heq as (d & r & _ & _ & Hstep & ->).
        cbn. split; [done|]. split; [done|]. inversion Hstep; set_solver.
      * rewrite transition_terminal in Heq; [done|]. destruct s; set_solver.
    + unfold cancel in Heq. case_bool_decide; [done|]. injection Heq as <-. naive_solver.
    + unfold expire in Heq. case_bool_decide; [done|]. injection Heq as <-. naive_solver.
  - intros Hs. inversion Hr; subst m.
    + eexists. by apply transition_terminal.
    + exists (ReqText (u "cancel")). destruct s; try done; exfalso; set_solver.
    + exists (ReqText (u "expire")). destruct s; try done; exfalso; set_solver.
Qed.
End lifecycle.

(** a plan that passes H-3 names its evidence, stays within its declared
    number of globs and its diff budget, and each of its globs, followed from
    any root, stays under that root, also when backslashes are read as
    separators. *)
Theorem h3_confines plan ds :
  h3_ok (evaluate_h3_evidence_policy plan ds) = true ->
  (exists h, cp_evidence_ledger_hash plan = Some h /\ strip h <> []) /\
  (Z.of_nat (length (cp_approved_scope plan)) <= cp_max_globs plan)%Z /\
  (forall d, ds = Some d -> files_changed d <= cp_max_files plan /\
                            lines_changed d <= cp_max_lines plan)%Z /\
  (forall g root, g ∈ cp_approved_scope plan ->
     (exists suffix, resolve root g = root ++ suffix) /\
     (exists suffix, walk root (glob_segments g) = root ++ suffix)).
Proof.
  intros Hok. split; [|split; [|split]].
  - cbn in Hok. rewrite bool_decide_eq_true in Hok. apply app_eq_nil in Hok as [Hh _].
    destruct (cp_evidence_ledger_hash plan) as [h|]; [|done].
    exists h. split; [done|]. intros Hs. cbn in Hh. by rewrite bool_decide_true in Hh.
  - cbn in Hok. rewrite bool_decide_eq_true in Hok. apply app_eq_nil in Hok as [_ Hok].
    apply app_eq_nil in Hok as [Hn _]. 
    destruct (Z.ltb_spec (cp_max_globs plan) (Z.of_nat (length (cp_approved_scope plan)))); [done|lia].
  - intros d ->. cbn in Hok. rewrite bool_decide_eq_true in Hok.
    do 3 apply app_eq_nil in Hok as [_ Hok]. apply app_eq_nil in Hok as [Hf Hl].
    destruct (Z.ltb_spec (cp_max_files plan) (files_changed d)); [done|].
    destruct (Z.ltb_spec (cp_max_lines plan) (lines_changed d)); [done|]. lia.
  - intros g root Hg. apply (h3_no_escape _ _ _ Hok) in Hg.
    apply is_glob_escape_false in Hg as (_ & _ & Habs & _ & Hseg). split.
    + unfold resolve. rewrite Habs. apply walk_prefix. by intros Hin%posix_segments_dotdot.
    + by apply walk_prefix.
Qed.

Module Witness.
#[local] Existing Instance ascii_db.

Definition ap (a d : string) : ApproverRecord :=
  {| ar_approver_actor_id := u a; ar_decision := u d |}.

Lemma two_person_identity_witness :
  evaluate_h7_two_person_approval (u "Alice") [ap "bob" "approved"; ap " BOB" "approved"] true =
  evaluate_h7_two_person_approval (u "alice ") [ap "Bob" "approved"] true.
Proof.
  refine (proj1 (two_person_identity (u "Alice") (u "alice ")
           [ap "bob" "approved"; ap " BOB" "approved"] [ap "Bob" "approved"] [] true _ _)).
  - vm_compute. reflexivity.
  - intros x. split.
    + intros (r & Hr & Hd & <-). exists (ap "Bob" "approved"). split; [left|]. split; [done|].
      apply elem_of_cons in Hr as [->|Hr]; [by vm_compute|].
      apply list_elem_of_singleton in Hr as ->. by vm_compute.
    + intros (r & Hr & Hd & <-). exists (ap "bob" "approved"). split; [left|]. split; [done|].
      apply list_elem_of_singleton in Hr as ->. by vm_compute.
Defined.

Lemma policy_lifecycle_witness :
  exists r, cancel APPROVED (u "h") (u "alice") (u "t") false =
            Raise (InvalidTransitionError APPROVED r).
Proof.
  destruct (policy_lifecycle APPROVED (cancel APPROVED (u "h") (u "alice") (u "t") false)
              (runs_cancel _ _ _ _ _)) as [_ Ht].
  apply Ht. by left.
Defined.

Definition plan1 : ChangePlanLike :=
  {| cp_evidence_ledger_hash := Some (u "sha256:00");
     cp_approved_scope := [u "apps/web/**"; u "docs/*.md"];
     cp_max_globs := 2; cp_max_files := 10; cp_max_lines := 200 |}.

Lemma h3_confines_witness :
  exists suffix, resolve [u "repo"] (u "apps/web/**") = [u "repo"] ++ suffix.
Proof.
  assert (h3_ok (evaluate_h3_evidence_policy plan1
            (Some {| files_changed := 10; lines_changed := 200 |})) = true) as Hok
    by (vm_compute; reflexivity).
  destruct (h3_confines _ _ Hok) as (_ & _ & _ & Hc).
  refine (proj1 (Hc (u "apps/web/**") [u "repo"] _)). left.
Defined.
End Witness.
