(* ===== verification/PlanRepo.v ===== *)
(** The in-memory plan repository and decision store
    (persistence/memory.py, [InMemoryPlanRepository] and
    [InMemoryDecisionRecordStore]) over tenant-indexed stores.

    A store maps a tenant to its own table.  [setdefault(tenant, {})] leaves an
    empty table behind for a tenant that only reads; an absent and an empty
    table answer every operation alike, so [tget] reads through both and only
    writes create a table.  Each method runs under one lock, so it is one
    atomic function of the state. *)

From S2P Require Import Prelude.
From S2P Require Import PyStr.
From S2P Require Import Policy.

(** persistence/errors.py *)
Inductive persistence_exn :=
  | TenantIsolationError | NotFoundError | DuplicateManifestError
  | OutboxValidationError | DecisionConflictError.

#[export] Instance persistence_exn_eq_dec : EqDecision persistence_exn.
Proof. solve_decision. Defined.

(** ** Tenant-indexed stores *)

Abbreviation tstore K V := (gmap pystr (gmap K V)).

Section tstore.
Context {K : Type} `{Countable K} {V : Type}.

Definition tget (m : tstore K V) (t : pystr) (k : K) : option V := m !! t ≫= (.!! k).

Definition tset (m : tstore K V) (t : pystr) (k : K) (v : V) : tstore K V :=
  <[t := <[k := v]> (default ∅ (m !! t))]> m.

(** The loop of [_assert_owned]: some other tenant's table has the key. *)
Definition owned_elsewhere (m : tstore K V) (t : pystr) (k : K) : bool :=
  existsb (fun tr => bool_decide (tr.1 <> t) && bool_decide (is_Some (tr.2 !! k)))
    (map_to_list m).

Definition assert_owned (m : tstore K V) (t : pystr) (k : K) : result persistence_exn unit :=
  raise_if (owned_elsewhere m t k) TenantIsolationError.

(** A read: owned by nobody else, then present. *)
Definition tread (m : tstore K V) (t : pystr) (k : K) : result persistence_exn V :=
  _ ← assert_owned m t k;
  match tget m t k with Some v => Ok v | None => Raise NotFoundError end.

Lemma tget_tset_eq m t k v : tget (tset m t k v) t k = Some v.
Proof. unfold tget, tset. rewrite lookup_insert_eq. cbn. by rewrite lookup_insert_eq. Qed.

Lemma tget_tset_ne m t k v t' k' :
  (t', k') <> (t, k) -> tget (tset m t k v) t' k' = tget m t' k'.
Proof.
  intros Hne. unfold tget, tset. destruct (decide (t' = t)) as [->|].
  - rewrite lookup_insert_eq. cbn. rewrite lookup_insert_ne by congruence.
    by destruct (m !! t).
  - by rewrite lookup_insert_ne by congruence.
Qed.

Lemma tget_tset m t k v t' k' :
  tget (tset m t k v) t' k' = if decide ((t', k') = (t, k)) then Some v else tget m t' k'.
Proof. case_decide as E; [injection E as -> ->; apply tget_tset_eq|by apply tget_tset_ne]. Qed.

Lemma tset_is_Some m t k v t' k' : is_Some (tget m t' k') -> is_Some (tget (tset m t k v) t' k').
Proof. rewrite tget_tset. case_decide; [by eexists|done]. Qed.

Lemma owned_elsewhere_true m t k :
  owned_elsewhere m t k = true <-> exists o, o <> t /\ is_Some (tget m o k).
Proof.
  unfold owned_elsewhere, tget. rewrite existsb_elem. split.
  - intros ([o tbl] & Hin & Hb). rewrite andb_true_iff, !bool_decide_eq_true in Hb.
    apply elem_of_map_to_list in Hin. cbn in Hb. exists o. rewrite Hin. exact Hb.
  - intros (o & Ho & Hs). destruct (m !! o) as [tbl|] eqn:E; [|by destruct Hs].
    exists (o, tbl). rewrite elem_of_map_to_list, andb_true_iff, !bool_decide_eq_true. done.
Qed.

Lemma owned_elsewhere_false m t k :
  owned_elsewhere m t k = false <-> forall o v, tget m o k = Some v -> o = t.
Proof.
  rewrite <- Bool.not_true_iff_false, owned_elsewhere_true. split.
  - intros Hn o v Ho. destruct (decide (o = t)) as [|Hne]; [done|]. destruct Hn. by eauto.
  - intros Hf (o & Hne & v & Hv). by apply Hne, (Hf o v).
Qed.

(** No key in two tables. *)
Definition exclusive (m : tstore K V) : Prop :=
  forall t t' k v v', tget m t k = Some v -> tget m t' k = Some v' -> t = t'.

Lemma exclusive_empty : exclusive ∅.
Proof. intros t t' k v v'. unfold tget. by rewrite lookup_empty. Qed.

Lemma exclusive_tset m t k v :
  exclusive m -> owned_elsewhere m t k = false -> exclusive (tset m t k v).
Proof.
  intros Hex Ho t1 t2 k' v1 v2. rewrite owned_elsewhere_false in Ho. rewrite !tget_tset.
  repeat case_decide; simplify_eq; intros; simplify_eq; naive_solver.
Qed.

Lemma tread_Ok m t k v : tread m t k = Ok v -> tget m t k = Some v.
Proof. unfold tread. intros Hr. inv_ok. destruct (tget m t k); by inv_ok. Qed.

Lemma tread_exclusive m t k :
  exclusive m ->
  tread m t k =
  match tget m t k with
  | Some v => Ok v
  | None => if owned_elsewhere m t k then Raise TenantIsolationError else Raise NotFoundError
  end.
Proof.
  intros Hex. unfold tread, assert_owned. destruct (tget m t k) as [v|] eqn:E.
  - assert (owned_elsewhere m t k = false) as ->; [|done].
    apply owned_elsewhere_false. intros o v' Ho. by eapply Hex.
  - by destruct (owned_elsewhere m t k).
Qed.
End tstore.

(** ** InMemoryPlanRepository *)

Record PlanRepository := {
  plans : tstore pystr PlanSnapshot;
  states : tstore pystr PlanState;
  decisions : tstore (pystr * pystr) DecisionRecord;
  decision_order : gmap pystr (list (pystr * pystr))
}.

Definition empty_repo : PlanRepository :=
  {| plans := ∅; states := ∅; decisions := ∅; decision_order := ∅ |}.

Definition put_plan (t : pystr) (snapshot : PlanSnapshot) (r : PlanRepository)
    : result persistence_exn PlanRepository :=
  _ ← assert_owned (plans r) t (ps_contract_hash snapshot);
  Ok {| plans := tset (plans r) t (ps_contract_hash snapshot) snapshot; states := states r;
        decisions := decisions r; decision_order := decision_order r |}.

Definition get_plan (t contract_hash : pystr) (r : PlanRepository)
    : result persistence_exn PlanSnapshot := tread (plans r) t contract_hash.

Definition get_state (t contract_hash : pystr) (r : PlanRepository)
    : result persistence_exn PlanState := tread (states r) t contract_hash.

Definition set_state (t contract_hash : pystr) (s : PlanState) (r : PlanRepository)
    : result persistence_exn PlanRepository :=
  _ ← assert_owned (states r) t contract_hash;
  Ok {| plans := plans r; states := tset (states r) t contract_hash s;
        decisions := decisions r; decision_order := decision_order r |}.

Definition order_of (r : PlanRepository) (t : pystr) : list (pystr * pystr) :=
  default [] (decision_order r !! t).

Definition record_decision `{UnicodeDB} (t : pystr) (d : DecisionRecord) (r : PlanRepository)
    : result persistence_exn (PlanRepository * DecisionRecord) :=
  let key := decision_key d in
  _ ← assert_owned (decisions r) t key;
  match tget (decisions r) t key with
  | Some prior =>
      if bool_decide (dr_decision prior = dr_decision d) then Ok (r, prior)
      else Raise DecisionConflictError
  | None =>
      Ok ({| plans := plans r; states := states r;
             decisions := tset (decisions r) t key d;
             decision_order := <[t := order_of r t ++ [key]]> (decision_order r) |}, d)
  end.

Definition get_decisions (t contract_hash : pystr) (r : PlanRepository) : list DecisionRecord :=
  omap (fun key => if bool_decide (key.1 = contract_hash) then tget (decisions r) t key else None)
    (order_of r t).

(** ** InMemoryDecisionRecordStore *)

Definition store_record `{UnicodeDB} (t : pystr) (d : DecisionRecord)
    (m : tstore (pystr * pystr) DecisionRecord)
    : result persistence_exn (tstore (pystr * pystr) DecisionRecord * DecisionRecord) :=
  let key := decision_key d in
  match tget m t key with
  | Some prior =>
      if bool_decide (dr_decision prior = dr_decision d) then Ok (m, prior)
      else Raise DecisionConflictError
  | None => Ok (tset m t key d, d)
  end.

Definition store_get (t : pystr) (key : pystr * pystr)
    (m : tstore (pystr * pystr) DecisionRecord) : result persistence_exn DecisionRecord :=
  match tget m t key with Some d => Ok d | None => Raise NotFoundError end.

(** ** The repository invariant *)

Section repo.
Context `{UnicodeDB}.

(** No contract, state or decision key belongs to two tenants; decisions are
    stored under their own key; and each tenant's order lists its recorded
    keys once each. *)
Record repo_wf (r : PlanRepository) : Prop := {
  wf_plans : exclusive (plans r);
  wf_states : exclusive (states r);
  wf_decisions : exclusive (decisions r);
  wf_keys t k d : tget (decisions r) t k = Some d -> decision_key d = k;
  wf_order_nodup t : NoDup (order_of r t);
  wf_order t k : k ∈ order_of r t <-> is_Some (tget (decisions r) t k)
}.

Lemma empty_repo_wf : repo_wf empty_repo.
Proof.
  split; cbn; try apply exclusive_empty.
  - intros t k d. unfold tget. by rewrite lookup_empty.
  - intros t. unfold order_of. cbn. rewrite lookup_empty. apply NoDup_nil_2.
  - intros t k. unfold order_of, tget. cbn. rewrite !lookup_empty. cbn.
    split; [by intros ?%elem_of_nil|by intros []].
Qed.

Lemma put_plan_Ok t s r r' :
  put_plan t s r = Ok r' <->
  owned_elsewhere (plans r) t (ps_contract_hash s) = false /\
  r' = {| plans := tset (plans r) t (ps_contract_hash s) s; states := states r;
          decisions := decisions r; decision_order := decision_order r |}.
Proof.
  unfold put_plan, assert_owned. rewrite bind_Ok. setoid_rewrite raise_if_Ok. naive_solver.
Qed.

Lemma set_state_Ok t h s r r' :
  set_state t h s r = Ok r' <->
  owned_elsewhere (states r) t h = false /\
  r' = {| plans := plans r; states := tset (states r) t h s;
          decisions := decisions r; decision_order := decision_order r |}.
Proof.
  unfold set_state, assert_owned. rewrite bind_Ok. setoid_rewrite raise_if_Ok. naive_solver.
Qed.

Definition recorded (t : pystr) (d : DecisionRecord) (r : PlanRepository) : PlanRepository :=
  {| plans := plans r; states := states r;
     decisions := tset (decisions r) t (decision_key d) d;
     decision_order := <[t := order_of r t ++ [decision_key d]]> (decision_order r) |}.

Lemma record_decision_Ok t d r r' d' :
  record_decision t d r = Ok (r', d') <->
  owned_elsewhere (decisions r) t (decision_key d) = false /\
  (tget (decisions r) t (decision_key d) = Some d' /\ dr_decision d' = dr_decision d /\ r' = r \/
   tget (decisions r) t (decision_key d) = None /\ d' = d /\ r' = recorded t d r).
Proof.
  unfold record_decision, assert_owned, recorded. rewrite bind_Ok. setoid_rewrite raise_if_Ok.
  destruct (tget (decisions r) t (decision_key d)) as [prior|]; [|naive_solver].
  case_bool_decide; naive_solver.
Qed.

Lemma order_of_recorded t d r t' :
  order_of (recorded t d r) t' =
  if decide (t' = t) then order_of r t ++ [decision_key d] else order_of r t'.
Proof.
  unfold order_of at 1. cbn. case_decide as E; [subst; by rewrite lookup_insert_eq|].
  by rewrite lookup_insert_ne by congruence.
Qed.

Lemma recorded_wf t d r :
  repo_wf r -> owned_elsewhere (decisions r) t (decision_key d) = false ->
  tget (decisions r) t (decision_key d) = None -> repo_wf (recorded t d r).
Proof.
  intros [Hp Hs Hd Hk Hn Ho] Hown Hnone. split; try done.
  - by apply exclusive_tset.
  - intros t' k d'. cbn. rewrite tget_tset. case_decide; [naive_solver|]. apply Hk.
  - intros t'. rewrite order_of_recorded. case_decide; [|done].
    apply NoDup_app. split; [done|]. split; [|apply NoDup_singleton].
    intros k Hin Hk'%list_elem_of_singleton. subst k. apply Ho in Hin as [? Hin]. congruence.
  - intros t' k. rewrite order_of_recorded. cbn. rewrite tget_tset.
    case_decide as E; subst; [rewrite elem_of_app, list_elem_of_singleton, Ho|rewrite Ho];
      case_decide; simplify_eq; naive_solver.
Qed.

Lemma record_decision_wf t d r r' d' :
  repo_wf r -> record_decision t d r = Ok (r', d') -> repo_wf r'.
Proof.
  intros Hwf [Hown [(_ & _ & ->)|(? & _ & ->)]]%record_decision_Ok; [done|].
  by apply recorded_wf.
Qed.

(** A property of the recorded decisions survives recording one that has it. *)
Lemma record_decision_all t d r r' d' (P : pystr -> pystr * pystr -> Prop) :
  record_decision t d r = Ok (r', d') -> P t (decision_key d) ->
  (forall t' k d0, tget (decisions r) t' k = Some d0 -> P t' k) ->
  forall t' k d0, tget (decisions r') t' k = Some d0 -> P t' k.
Proof.
  intros [_ [(_ & _ & ->)|(_ & _ & ->)]]%record_decision_Ok Hd Hall; [done|].
  intros t' k d0. cbn. rewrite tget_tset. case_decide as E; [by injection E as -> ->|apply Hall].
Qed.

Lemma put_plan_wf t s r r' : repo_wf r -> put_plan t s r = Ok r' -> repo_wf r'.
Proof.
  intros [] [Hown ->]%put_plan_Ok. split; try done. by apply exclusive_tset.
Qed.

Lemma set_state_wf t h s r r' : repo_wf r -> set_state t h s r = Ok r' -> repo_wf r'.
Proof.
  intros [] [Hown ->]%set_state_Ok. split; try done. by apply exclusive_tset.
Qed.

(** What [get_decisions] lists: the tenant's decisions on that contract. *)
Lemma elem_of_get_decisions t h r d :
  repo_wf r ->
  d ∈ get_decisions t h r <->
  tget (decisions r) t (decision_key d) = Some d /\ dr_contract_hash d = h.
Proof.
  intros [_ _ _ Hk _ Ho]. unfold get_decisions. rewrite list_elem_of_omap. split.
  - intros (k & Hin & Hd). case_bool_decide as E; [|done].
    pose proof (Hk _ _ _ Hd) as <-. done.
  - intros [Hd <-]. exists (decision_key d). rewrite Ho, bool_decide_true by done. by eauto.
Qed.

Lemma get_decisions_other t h r r' :
  decisions r' = decisions r -> decision_order r' = decision_order r ->
  get_decisions t h r' = get_decisions t h r.
Proof. unfold get_decisions, order_of. by intros -> ->. Qed.

Lemma get_decisions_recorded t d r t' h :
  repo_wf r -> tget (decisions r) t (decision_key d) = None ->
  get_decisions t' h (recorded t d r) =
  get_decisions t' h r ++
  (if decide (t' = t /\ h = dr_contract_hash d) then [d] else []).
Proof.
  intros [_ _ _ _ _ Ho] Hnone. unfold get_decisions at 1. rewrite order_of_recorded. cbn.
  assert (forall l, (forall k, k ∈ l -> (t', k) <> (t, decision_key d)) ->
    omap (M:=list) (fun key => if bool_decide (key.1 = h)
      then tget (tset (decisions r) t (decision_key d) d) t' key else None) l =
    omap (M:=list) (fun key => if bool_decide (key.1 = h) then tget (decisions r) t' key else None) l)
    as Hold.
  { intros l. induction l as [|k l IH]; intros Hl; [done|]. cbn.
    rewrite tget_tset_ne by (apply Hl; left). rewrite IH; [done|]. intros; apply Hl. by right. }
  destruct (decide (t' = t)) as [->|Hne].
  - rewrite omap_app, Hold.
    + cbn. rewrite tget_tset_eq. f_equal. repeat case_decide; case_bool_decide; naive_solver.
    + intros k Hin [= ->]. apply Ho in Hin as [? Hin]. congruence.
  - rewrite Hold by naive_solver. rewrite decide_False by naive_solver. by rewrite app_nil_r.
Qed.
End repo.

(** ** Sequences of requests

    Any interleaving of the tenants' writes is a list of operations; one that
    raises leaves the repository as it was. *)

Inductive repo_op :=
  | OpPutPlan (t : pystr) (s : PlanSnapshot)
  | OpSetState (t h : pystr) (s : PlanState)
  | OpRecordDecision (t : pystr) (d : DecisionRecord).

Definition op_tenant (o : repo_op) : pystr :=
  match o with OpPutPlan t _ | OpSetState t _ _ | OpRecordDecision t _ => t end.

Section sequences.
Context `{UnicodeDB}.

Definition run_op (r : PlanRepository) (o : repo_op) : PlanRepository :=
  match o with
  | OpPutPlan t s => match put_plan t s r with Ok r' => r' | Raise _ => r end
  | OpSetState t h s => match set_state t h s r with Ok r' => r' | Raise _ => r end
  | OpRecordDecision t d => match record_decision t d r with Ok (r', _) => r' | Raise _ => r end
  end.

Definition run_ops (ops : list repo_op) (r : PlanRepository) : PlanRepository :=
  fold_left run_op ops r.

(** A run preserves what each operation preserves. *)
Lemma run_ops_ind (P : PlanRepository -> Prop) ops r :
  (forall r o, o ∈ ops -> P r -> P (run_op r o)) -> P r -> P (run_ops ops r).
Proof.
  revert r. induction ops as [|o ops IH]; intros r Hstep Hr; [done|].
  apply (IH (run_op r o)); [|apply Hstep; [left|done]].
  intros r' o' Ho'. apply Hstep. by right.
Qed.

Lemma run_op_wf r o : repo_wf r -> repo_wf (run_op r o).
Proof.
  intros Hwf. destruct o; cbn.
  - destruct (put_plan _ _ _) eqn:E; [|done]. by eapply put_plan_wf.
  - destruct (set_state _ _ _ _) eqn:E; [|done]. by eapply set_state_wf.
  - destruct (record_decision _ _ _) as [[]|] eqn:E; [|done]. by eapply record_decision_wf.
Qed.

Lemma run_ops_wf ops r : repo_wf r -> repo_wf (run_ops ops r).
Proof. apply run_ops_ind. intros. by apply run_op_wf. Qed.

(** The records a tenant holds. *)
Definition same_records (t : pystr) (r r' : PlanRepository) : Prop :=
  (forall h, tget (plans r') t h = tget (plans r) t h) /\
  (forall h, tget (states r') t h = tget (states r) t h) /\
  (forall h, get_decisions t h r' = get_decisions t h r).

Lemma run_op_other t r o : repo_wf r -> op_tenant o <> t -> same_records t r (run_op r o).
Proof.
  intros Hwf Hne. destruct o as [t' s|t' h s|t' d]; cbn in Hne |- *.
  - destruct (put_plan t' s r) as [r'|] eqn:E; [|done]. apply put_plan_Ok in E as [_ ->].
    split; [|split]; [intros; apply tget_tset_ne; naive_solver|done..].
  - destruct (set_state t' h s r) as [r'|] eqn:E; [|done]. apply set_state_Ok in E as [_ ->].
    split; [|split]; [done|intros; apply tget_tset_ne; naive_solver|done].
  - destruct (record_decision t' d r) as [[r' d']|] eqn:E; [|done].
    apply record_decision_Ok in E as [_ [(_ & _ & ->)|(Hn & _ & ->)]]; [done|].
    split; [done|split; [done|]]. intros h. rewrite get_decisions_recorded by done.
    rewrite decide_False by naive_solver. by rewrite app_nil_r.
Qed.

Lemma run_op_decisions r o t h :
  repo_wf r -> exists more, get_decisions t h (run_op r o) = get_decisions t h r ++ more.
Proof.
  intros Hwf. destruct o as [t' s|t' h' s|t' d]; cbn.
  - exists []. rewrite app_nil_r. destruct (put_plan t' s r) as [r'|] eqn:E; [|done].
    apply put_plan_Ok in E as [_ ->]. done.
  - exists []. rewrite app_nil_r. destruct (set_state t' h' s r) as [r'|] eqn:E; [|done].
    apply set_state_Ok in E as [_ ->]. done.
  - destruct (record_decision t' d r) as [[r' d']|] eqn:E; [|exists []; by rewrite app_nil_r].
    apply record_decision_Ok in E as [_ [(_ & _ & ->)|(Hn & _ & ->)]];
      [exists []; by rewrite app_nil_r|].
    eexists. by apply get_decisions_recorded.
Qed.

Lemma get_decisions_keys_NoDup t h r : repo_wf r -> NoDup (decision_key <$> get_decisions t h r).
Proof.
  intros Hwf. unfold get_decisions. pose proof (wf_order_nodup r Hwf t) as Hnd.
  induction (order_of r t) as [|k l IH]; [apply NoDup_nil_2|].
  apply NoDup_cons in Hnd as [Hk Hnd]. cbn. case_bool_decide; [|by apply IH].
  destruct (tget (decisions r) t k) as [d|] eqn:E; [|by apply IH].
  cbn. apply NoDup_cons. split; [|by apply IH].
  rewrite (wf_keys r Hwf _ _ _ E). intros (d' & Hd' & Hin)%list_elem_of_fmap.
  apply list_elem_of_omap in Hin as (k' & Hk' & Hin). case_bool_decide; [|done].
  apply (wf_keys r Hwf) in Hin. congruence.
Qed.

(** tenants are isolated in the plan repository: after any requests of
    any tenants, a contract a tenant stored can be neither read nor
    overwritten under another tenant's id ([TenantIsolationError], never a
    value or a plain not-found), and whatever the others go on to do, every
    plan, state and decision of the tenant stays as it was. *)
Theorem plan_repository_isolation history t t' h snapshot :
  t' <> t ->
  let r := run_ops history empty_repo in
  tget (plans r) t h = Some snapshot ->
  get_plan t h r = Ok snapshot /\
  get_plan t' h r = Raise TenantIsolationError /\
  (forall s, ps_contract_hash s = h -> put_plan t' s r = Raise TenantIsolationError) /\
  (forall others, (forall o, o ∈ others -> op_tenant o <> t) ->
     same_records t r (run_ops others r)).
Proof.
  intros Hne r Hs. assert (repo_wf r) as Hwf by apply run_ops_wf, empty_repo_wf.
  assert (owned_elsewhere (plans r) t' h = true) as Hown.
  { apply owned_elsewhere_true. exists t. split; [congruence|by eexists]. }
  split; [|split; [|split]].
  - unfold get_plan. rewrite tread_exclusive by apply Hwf. by rewrite Hs.
  - unfold get_plan, tread, assert_owned. by rewrite Hown.
  - intros s <-. unfold put_plan, assert_owned. by rewrite Hown.
  - intros others Ho. apply (run_ops_ind (fun r' => repo_wf r' /\ same_records t r r')); [|done].
    intros r' o Hin [Hwf' (Hp & Hst & Hd)]. split; [by apply run_op_wf|].
    destruct (run_op_other t r' o Hwf' (Ho _ Hin)) as (Hp' & Hst' & Hd').
    split; [|split]; intros; congruence.
Qed.

(** The decision log is append-only and holds one decision per identity:
    whatever is requested later, the decisions a contract had stay, in
    order, at the front of its list, and no two have the same contract and
    canonical approver. *)
Theorem decisions_append_only history later t h :
  let r := run_ops history empty_repo in
  (exists more, get_decisions t h (run_ops later r) = get_decisions t h r ++ more) /\
  NoDup (decision_key <$> get_decisions t h (run_ops later r)).
Proof.
  intros r. assert (repo_wf r) as Hwf by apply run_ops_wf, empty_repo_wf.
  split; [|by apply get_decisions_keys_NoDup, run_ops_wf].
  apply (run_ops_ind (fun r' => repo_wf r' /\
    exists more, get_decisions t h r' = get_decisions t h r ++ more)).
  - intros r' o _ [Hwf' [more Hm]]. split; [by apply run_op_wf|].
    destruct (run_op_decisions r' o t h Hwf') as [more' ->].
    exists (more ++ more'). by rewrite Hm, app_assoc.
  - split; [done|]. exists []. by rewrite app_nil_r.
Qed.
End sequences.

Module Witness.
#[local] Existing Instance ascii_db.

Definition snap : PlanSnapshot :=
  {| ps_contract_hash := u "sha256:aa"; ps_content_fingerprint := u "sha256:aa" |}.

Lemma plan_repository_isolation_witness :
  get_plan (u "globex") (u "sha256:aa") (run_ops [OpPutPlan (u "acme") snap] empty_repo) =
  Raise TenantIsolationError.
Proof.
  assert (tget (plans (run_ops [OpPutPlan (u "acme") snap] empty_repo)) (u "acme")
            (u "sha256:aa") = Some snap) as Hs by (vm_compute; reflexivity).
  assert (u "globex" <> u "acme") as Hne by by_decide.
  destruct (plan_repository_isolation _ _ _ _ _ Hne Hs) as (_ & Hr & _). exact Hr.
Defined.
End Witness.
