(* ===== verification/PlanContract.v ===== *)
(** The plan-contract service
    (src/services/foundation/plan-contract-service): the request handlers of
    app.py over the plan repository, the per-app plan facts, the audit trail
    and the outbox; contract_hash.py; audit_trail.py; errors.py.

    A handler is one computation of the monad [M World app_exn], run to its end
    before the next.  The tenant is the one [_require_tenant] reconciled.  A
    body is what [model_validate] (pydantic) returned, [None] when it raised.
    The clock reading ([_now_iso]) is an argument; each path of a handler reads
    the clock at most once.  The ports injected into [create_app] are
    interfaces: the policy gate is a function of the request that may raise,
    and the class [EventPort] holds the envelope factory and the outbox. *)

From S2P Require Import Prelude.
From S2P Require Import PyStr.
From S2P Require Import PyVal.
From S2P Require Import Canonical.
From S2P Require Import Policy.
From S2P Require Import PlanRepo.

(** ** Ports *)

(** [EnvelopeFactory.build_tenant_envelope] (the nonce stands for the fresh
    event id and the clock) and [OutboxPort.record]; both may raise. *)
Class EventPort := {
  envelope : Type;
  outbox : Type;
  build_tenant_envelope (producer event_type tenant_id run_id idempotency_key : pystr)
    (payload : list (pystr * pyval)) (nonce : N) : result pystr envelope;
  outbox_record : envelope -> outbox -> result pystr outbox
}.

(** gate_client.py *)
Record GateDecision := {
  gd_allow : bool; gd_reasons : list pystr; gd_require_two_person : bool
}.

Record DecisionGateCheckRequest := {
  gr_contract_hash : pystr; gr_tenant_id : pystr; gr_high_risk : bool;
  gr_proposer_actor_id : pystr; gr_approver_actor_id : pystr;
  gr_evidence_ledger_hash : pystr; gr_scope_max_globs : Z; gr_diff_max_files : Z;
  gr_diff_max_lines : Z; gr_approved_scope : list pystr; gr_patch_unit_ids : list pystr;
  gr_hypothesis_risks : list pystr
}.

(** [PolicyGateClient.plan_check]: a decision, or [PolicyGateUnavailableError]. *)
Definition PolicyGateClient : Type := DecisionGateCheckRequest -> result unit GateDecision.

(** ** Requests *)

(** The validated [ChangeplanActionContract]: the attributes the handlers read
    and its [model_dump(mode="json")]. *)
Record ChangePlan := {
  plan_tenant_id : pystr;
  plan_run_id : pystr;
  plan_repo_commit : pystr;
  plan_evidence_ledger_hash : pystr;
  plan_h3 : ChangePlanLike;
  plan_hypotheses : list (pystr * list pystr);   (** risk, evidence ids *)
  plan_patch_units : list pystr;                 (** ids *)
  plan_dump : list (pystr * pyval)
}.

Inductive Decision := approved | rejected.
Definition Decision_value (d : Decision) : pystr :=
  match d with approved => u "approved" | rejected => u "rejected" end.

Record ApprovalDecision := {
  ad_contract_hash : pystr; ad_approver_actor_id : pystr;
  ad_decision : Decision; ad_decided_at : pystr
}.

(** ** errors.py *)

Inductive unhandled :=
  | UPolicy (e : policy_exn) | UPersistence (e : persistence_exn) | UPy (e : pyexn)
  | UEvent (message : pystr).

Inductive app_exn :=
  | ValidationFailedError | PlanNotFoundError | ContractHashMismatchError
  | PlanContractHashViolationError | ConflictingDecisionSubmittedError
  | InvalidPlanStateTransitionError | SelfApprovalRejectedError | PolicyGateDeniedError
  | PolicyGateUnavailableError | ExecutionNotApprovedError
  | Unhandled (e : unhandled).

Definition status (e : app_exn) : Z :=
  match e with
  | ValidationFailedError | ContractHashMismatchError => 400
  | PlanNotFoundError => 404
  | PlanContractHashViolationError | ConflictingDecisionSubmittedError
  | InvalidPlanStateTransitionError => 409
  | SelfApprovalRejectedError | PolicyGateDeniedError | ExecutionNotApprovedError => 403
  | PolicyGateUnavailableError => 503
  | Unhandled _ => 500
  end.

(** ** State *)

Record PlanFacts := {
  pf_proposer_actor_id : pystr; pf_high_risk : bool; pf_patch_unit_ids : list pystr;
  pf_run_id : pystr; pf_evidence_ledger_hash : pystr; pf_approved_scope : list pystr;
  pf_scope_max_globs : Z; pf_diff_max_files : Z; pf_diff_max_lines : Z;
  pf_hypothesis_risks : list pystr
}.

Definition AuditTrailStore : Type := gmap pystr (gmap pystr (list AuditTrailRecord)).

Definition trail_append (t : pystr) (rec : AuditTrailRecord) (m : AuditTrailStore) : AuditTrailStore :=
  let tenant_records := default ∅ (m !! t) in
  let h := at_contract_hash rec in
  <[t := <[h := default [] (tenant_records !! h) ++ [rec]]> tenant_records]> m.

Definition list_for_plan (t contract_hash : pystr) (m : AuditTrailStore) : list AuditTrailRecord :=
  default [] (default ∅ (m !! t) !! contract_hash).

Record World `{EventPort} := {
  w_repo : PlanRepository;
  w_facts : gmap (pystr * pystr) PlanFacts;
  w_trail : AuditTrailStore;
  w_outbox : outbox
}.

(** ** contract_hash.py *)

Definition compute_contract_hash `{FloatRepr} (change_plan : list (pystr * pyval))
    : result pyexn pystr :=
  text ← canonical_json (PDict change_plan);
  digest ← sha256_hex text;
  Ok (u "sha256:" ++ digest).

Definition app_id : pystr := u "plan-contract-service".
Definition EVENT_PROPOSED : pystr := u "plan.contract.proposed.v1".
Definition EVENT_APPROVED : pystr := u "plan.contract.approved.v1".

(** ** Handlers *)

Section handlers.
Context `{FloatRepr, UnicodeDB, EventPort}.

Abbreviation App := (M World app_exn).

Definition repo_read {A} (f : PlanRepository -> result persistence_exn A)
    (h : persistence_exn -> app_exn) : App A := fun w =>
  (w, try_except (f (w_repo w)) (fun e => Raise (h e))).

Definition with_repo (r : PlanRepository) (w : World) : World :=
  {| w_repo := r; w_facts := w_facts w; w_trail := w_trail w; w_outbox := w_outbox w |}.

Definition repo_write {A} (f : PlanRepository -> result persistence_exn (PlanRepository * A))
    (h : persistence_exn -> app_exn) : App A :=
  try_update (fun w => match f (w_repo w) with
                       | Ok (r, a) => Ok (with_repo r w, a)
                       | Raise e => Raise (h e)
                       end).

Definition unhandled_repo (e : persistence_exn) : app_exn := Unhandled (UPersistence e).
Definition not_found_as_404 (e : persistence_exn) : app_exn :=
  match e with NotFoundError => PlanNotFoundError | _ => unhandled_repo e end.

Definition do_set_state (t h : pystr) (s : PlanState) : App unit :=
  repo_write (fun r => r' ← set_state t h s r; Ok (r', tt)) unhandled_repo.

Definition do_audit (t : pystr) (rec : AuditTrailRecord) : App unit :=
  modify (fun w => {| w_repo := w_repo w; w_facts := w_facts w;
                      w_trail := trail_append t rec (w_trail w); w_outbox := w_outbox w |}).

Definition facts_put (t h : pystr) (f : PlanFacts) : App unit :=
  modify (fun w => {| w_repo := w_repo w; w_facts := <[(t, h) := f]> (w_facts w);
                      w_trail := w_trail w; w_outbox := w_outbox w |}).

Definition facts_get (t h : pystr) : App PlanFacts := fun w =>
  (w, match w_facts w !! (t, h) with Some f => Ok f | None => Raise PlanNotFoundError end).

Definition lift_as {E A} (m : result E A) (h : E -> app_exn) : App A :=
  lift (try_except m (fun e => Raise (h e))).

Definition do_emit (event_type t run_id idempotency_key : pystr)
    (payload : list (pystr * pyval)) (nonce : N) : App unit :=
  env ← lift_as (build_tenant_envelope app_id event_type t run_id idempotency_key payload nonce)
          (fun m => Unhandled (UEvent m));
  try_update (fun w => match outbox_record env (w_outbox w) with
                       | Ok o => Ok ({| w_repo := w_repo w; w_facts := w_facts w;
                                        w_trail := w_trail w; w_outbox := o |}, tt)
                       | Raise m => Raise (Unhandled (UEvent m))
                       end).

(** [POST /v1/plans] *)
Definition facts_of (plan : ChangePlan) (proposer : pystr) (high_risk : bool) : PlanFacts :=
  {| pf_proposer_actor_id := proposer; pf_high_risk := high_risk;
     pf_patch_unit_ids := plan_patch_units plan; pf_run_id := plan_run_id plan;
     pf_evidence_ledger_hash := plan_evidence_ledger_hash plan;
     pf_approved_scope := cp_approved_scope (plan_h3 plan);
     pf_scope_max_globs := cp_max_globs (plan_h3 plan);
     pf_diff_max_files := cp_max_files (plan_h3 plan);
     pf_diff_max_lines := cp_max_lines (plan_h3 plan);
     pf_hypothesis_risks := (plan_hypotheses plan).*1 |}.

Definition proposed_payload (plan : ChangePlan) (h : pystr) : list (pystr * pyval) :=
  [(u "contract_uri", PStr (u "saena-plan-contract://plans/" ++ h));
   (u "contract_hash", PStr h);
   (u "base_commit", PStr (plan_repo_commit plan));
   (u "evidence_ids", PList (PStr <$> sort_by id (remove_dups (mjoin (plan_hypotheses plan).*2))));
   (u "patch_unit_ids", PList (PStr <$> plan_patch_units plan));
   (u "evidence_ledger_hash", PStr (plan_evidence_ledger_hash plan))].

Definition propose_plan (tenant : pystr) (body : option ChangePlan) (actor_header : option pystr)
    (now : pystr) (nonce : N) : App (pystr * PlanState) :=
  plan ← lift (from_option Ok (Raise ValidationFailedError) body);
  _ ← raise_when (bool_decide (plan_tenant_id plan <> tenant)) ValidationFailedError;
  _ ← raise_when (negb (h3_ok (evaluate_h3_evidence_policy (plan_h3 plan) None)))
        ValidationFailedError;
  let proposer := default [] actor_header in
  _ ← raise_when (bool_decide (proposer = [])) ValidationFailedError;
  contract_hash ← lift_as (compute_contract_hash (plan_dump plan)) (fun e => Unhandled (UPy e));
  let fingerprint := contract_hash in
  existing ← (fun w => match get_plan tenant contract_hash (w_repo w) with
                       | Ok s => (w, Ok (Some s))
                       | Raise NotFoundError => (w, Ok None)
                       | Raise e => (w, Raise (unhandled_repo e))
                       end);
  _ ← raise_when (match existing with
                  | Some s => bool_decide (ps_content_fingerprint s <> fingerprint)
                  | None => false
                  end) PlanContractHashViolationError;
  let high_risk := is_high_risk_plan (plan_hypotheses plan).*1 in
  let snapshot := {| ps_contract_hash := contract_hash; ps_content_fingerprint := fingerprint |} in
  _ ← repo_write (fun r => r' ← put_plan tenant snapshot r; Ok (r', tt)) unhandled_repo;
  o ← lift_as (transition PROPOSED contract_hash proposer [] high_risk now None None None None)
        (fun e => Unhandled (UPolicy e));
  _ ← do_set_state tenant contract_hash (to_state o);
  _ ← do_audit tenant (audit_record o);
  _ ← facts_put tenant contract_hash (facts_of plan proposer high_risk);
  _ ← do_emit EVENT_PROPOSED tenant (plan_run_id plan) contract_hash
        (proposed_payload plan contract_hash) nonce;
  mret (contract_hash, to_state o).

(** [GET /v1/plans/{contract_hash}] *)
Definition get_plan_state (tenant contract_hash : pystr) : App (PlanState * list DecisionRecord) :=
  state ← repo_read (get_state tenant contract_hash) not_found_as_404;
  ds ← gets (fun w => get_decisions tenant contract_hash (w_repo w));
  mret (state, ds).

(** [POST /v1/plans/{contract_hash}/decisions] *)

(** [{d.decision_key: d for d in stored}]: the last one wins. *)
Definition seen_of (stored : list DecisionRecord) : gmap (pystr * pystr) DecisionRecord :=
  fold_left (fun m d => <[decision_key d := d]> m) stored ∅.

Definition approver_of (d : DecisionRecord) : ApproverRecord :=
  {| ar_approver_actor_id := dr_approver_actor_id d; ar_decision := dr_decision d |}.

(** [_load_decisions] *)
Definition load_decisions (t h : pystr) (r : PlanRepository)
    : gmap (pystr * pystr) DecisionRecord * list ApproverRecord :=
  let stored := get_decisions t h r in (seen_of stored, approver_of <$> stored).

(** The approvals the transition sees: the incoming one joins unless its
    identity already decided. *)
Definition approvals_with (prior : list ApproverRecord) (incoming : DecisionRecord)
    : list ApproverRecord :=
  let canonical_incoming := canonical_actor_id (dr_approver_actor_id incoming) in
  if existsb (fun a => bool_decide (canonical_actor_id (ar_approver_actor_id a)
                                    = canonical_incoming)) prior
  then prior else prior ++ [approver_of incoming].

Definition gate_request (t h : pystr) (f : PlanFacts) (approver : pystr)
    : DecisionGateCheckRequest :=
  {| gr_contract_hash := h; gr_tenant_id := t; gr_high_risk := pf_high_risk f;
     gr_proposer_actor_id := pf_proposer_actor_id f; gr_approver_actor_id := approver;
     gr_evidence_ledger_hash := pf_evidence_ledger_hash f;
     gr_scope_max_globs := pf_scope_max_globs f; gr_diff_max_files := pf_diff_max_files f;
     gr_diff_max_lines := pf_diff_max_lines f; gr_approved_scope := pf_approved_scope f;
     gr_patch_unit_ids := pf_patch_unit_ids f; gr_hypothesis_risks := pf_hypothesis_risks f |}.

Definition transition_error (incoming : DecisionRecord) (proposer : pystr) (e : policy_exn)
    : app_exn :=
  match e with
  | InvalidTransitionError _ _ =>
      if bool_decide (canonical_actor_id (dr_approver_actor_id incoming)
                      = canonical_actor_id proposer)
      then SelfApprovalRejectedError else InvalidPlanStateTransitionError
  | ConflictingDecisionError _ _ => ConflictingDecisionSubmittedError
  | ContractHashViolationError => PlanContractHashViolationError
  | _ => Unhandled (UPolicy e)
  end.

Definition record_error (e : persistence_exn) : app_exn :=
  match e with
  | DecisionConflictError => ConflictingDecisionSubmittedError
  | _ => unhandled_repo e
  end.

(** The branch that answers a repeated decision on a settled plan. *)
Definition settled_replay (t h : pystr) (b : ApprovalDecision) (s : PlanState)
    (r : PlanRepository) : option DecisionRecord :=
  if bool_decide (s = APPROVED \/ s = REJECTED) then
    let replay_key := (h, canonical_actor_id (ad_approver_actor_id b)) in
    match List.find (fun d => bool_decide (decision_key d = replay_key)) (get_decisions t h r) with
    | Some prior =>
        if bool_decide (dr_decision prior = Decision_value (ad_decision b)) then Some prior else None
    | None => None
    end
  else None.

Fixpoint issue_leases (patch_unit_ids : list pystr) (scope : list pystr) (expiry : pystr)
    : result pyexn (list PatchUnitLease) :=
  match patch_unit_ids with
  | [] => Ok []
  | i :: rest =>
      l ← issue_lease i scope expiry; ls ← issue_leases rest scope expiry; Ok (l :: ls)
  end.

Record DecisionSubmitResponse := {
  sr_state : PlanState; sr_approver_actor_id : pystr; sr_decision : pystr
}.

Definition settle_events (t h : pystr) (f : PlanFacts) (incoming : DecisionRecord)
    (current : PlanState) (o : TransitionOutcome) (nonce : N) : App unit :=
  let state_changed := bool_decide (to_state o <> current) in
  if state_changed && bool_decide (to_state o = APPROVED) then
    _ ← lift_as (issue_leases (pf_patch_unit_ids f) (pf_approved_scope f) (dr_decided_at incoming))
          (fun e => Unhandled (UPy e));
    do_emit EVENT_APPROVED t (pf_run_id f) (h ++ u ":approved")
      [(u "contract_hash", PStr h); (u "decision", PStr (u "approved"))] nonce
  else if state_changed && bool_decide (to_state o = REJECTED) then
    do_emit EVENT_APPROVED t (pf_run_id f) (h ++ u ":rejected")
      [(u "contract_hash", PStr h); (u "decision", PStr (u "rejected"))] nonce
  else mret tt.

(** The record the service builds from a submitted decision. *)
Definition incoming_of (h : pystr) (b : ApprovalDecision) (f : PlanFacts) (gd : GateDecision)
    : DecisionRecord :=
  {| dr_contract_hash := h; dr_approver_actor_id := ad_approver_actor_id b;
     dr_decision := Decision_value (ad_decision b);
     dr_proposer_actor_id := pf_proposer_actor_id f;
     dr_high_risk := pf_high_risk f || gd_require_two_person gd;
     dr_decided_at := ad_decided_at b |}.

(** From the gate's allow to the response. *)
Definition decide_and_record (t h : pystr) (b : ApprovalDecision) (snapshot : PlanSnapshot)
    (current : PlanState) (f : PlanFacts) (gd : GateDecision) (now : pystr) (nonce : N)
    : App DecisionSubmitResponse :=
  let proposer := pf_proposer_actor_id f in
  loaded ← gets (fun w => load_decisions t h (w_repo w));
  let incoming := incoming_of h b f gd in
  let approvals := approvals_with (snd loaded) incoming in
  o ← lift_as (transition current h proposer approvals (dr_high_risk incoming) now
                 (Some (fst loaded)) (Some incoming) (Some snapshot) (Some snapshot))
        (transition_error incoming proposer);
  _ ← repo_write (record_decision t incoming) record_error;
  _ ← do_set_state t h (to_state o);
  _ ← do_audit t (audit_record o);
  _ ← settle_events t h f incoming current o nonce;
  mret {| sr_state := to_state o; sr_approver_actor_id := dr_approver_actor_id incoming;
          sr_decision := dr_decision incoming |}.

Definition submit_decision (gate : PolicyGateClient) (tenant contract_hash : pystr)
    (body : option ApprovalDecision) (now : pystr) (nonce : N) : App DecisionSubmitResponse :=
  b ← lift (from_option Ok (Raise ValidationFailedError) body);
  _ ← raise_when (bool_decide (ad_contract_hash b <> contract_hash)) ContractHashMismatchError;
  snapshot ← repo_read (get_plan tenant contract_hash) not_found_as_404;
  current ← repo_read (get_state tenant contract_hash) unhandled_repo;
  f ← facts_get tenant contract_hash;
  replay ← gets (fun w => settled_replay tenant contract_hash b current (w_repo w));
  match replay with
  | Some prior =>
      mret {| sr_state := current; sr_approver_actor_id := dr_approver_actor_id prior;
              sr_decision := dr_decision prior |}
  | None =>
      gd ← lift_as (gate (gate_request tenant contract_hash f (ad_approver_actor_id b)))
             (fun _ => PolicyGateUnavailableError);
      if gd_allow gd then
        decide_and_record tenant contract_hash b snapshot current f gd now nonce
      else
        _ ← do_audit tenant
              {| at_contract_hash := contract_hash; at_actor_id := ad_approver_actor_id b;
                 at_decided_at := now; at_from_state := current; at_to_state := current;
                 at_reason_code := GATE_DENIED |};
        throw PolicyGateDeniedError
  end.

(** [POST .../cancel], [POST .../expire]; the arguments are the headers
    X-Saena-Actor-Id and X-Saena-Operator. *)
Definition policy_error (e : policy_exn) : app_exn :=
  match e with
  | InvalidTransitionError _ _ => InvalidPlanStateTransitionError
  | _ => Unhandled (UPolicy e)
  end.

Definition cancel_plan (tenant contract_hash : pystr) (actor_header operator_header : option pystr)
    (now : pystr) : App PlanState :=
  current ← repo_read (get_state tenant contract_hash) not_found_as_404;
  let by_operator := bool_decide (lower (default (u "false") operator_header) = u "true") in
  o ← lift_as (cancel current contract_hash (default [] actor_header) now by_operator) policy_error;
  _ ← do_set_state tenant contract_hash (to_state o);
  _ ← do_audit tenant (audit_record o);
  mret (to_state o).

Definition expire_plan (tenant contract_hash : pystr) (actor_header : option pystr)
    (now : pystr) : App PlanState :=
  current ← repo_read (get_state tenant contract_hash) not_found_as_404;
  o ← lift_as (expire current contract_hash (default [] actor_header) now) policy_error;
  _ ← do_set_state tenant contract_hash (to_state o);
  _ ← do_audit tenant (audit_record o);
  mret (to_state o).

(** [POST .../execution-check] *)
Definition execution_check (tenant contract_hash : pystr) : App unit :=
  current ← repo_read (get_state tenant contract_hash) not_found_as_404;
  ds ← gets (fun w => get_decisions tenant contract_hash (w_repo w));
  let approval_decision :=
    dr_decision <$> List.find (fun d => bool_decide (dr_decision d = u "approved")) (reverse ds) in
  lift_as (guard_execution current approval_decision)
    (fun e => match e with
              | ExecutionBlockedError => ExecutionNotApprovedError
              | _ => Unhandled (UPolicy e)
              end).

(** ** The service: any sequence of requests *)

Inductive request :=
  | Propose (tenant : pystr) (body : option ChangePlan) (actor : option pystr)
      (now : pystr) (nonce : N)
  | Submit (gate : PolicyGateClient) (tenant contract_hash : pystr)
      (body : option ApprovalDecision) (now : pystr) (nonce : N)
  | Cancel (tenant contract_hash : pystr) (actor operator : option pystr) (now : pystr)
  | Expire (tenant contract_hash : pystr) (actor : option pystr) (now : pystr)
  | GetPlan (tenant contract_hash : pystr)
  | ExecutionCheck (tenant contract_hash : pystr).

(** The state a request leaves behind, whatever it answers. *)
Definition serve (w : World) (q : request) : World :=
  match q with
  | Propose t b a n k => (propose_plan t b a n k w).1
  | Submit g t h b n k => (submit_decision g t h b n k w).1
  | Cancel t h a o n => (cancel_plan t h a o n w).1
  | Expire t h a n => (expire_plan t h a n w).1
  | GetPlan t h => (get_plan_state t h w).1
  | ExecutionCheck t h => (execution_check t h w).1
  end.

Definition serve_all (qs : list request) (w : World) : World := fold_left serve qs w.

(** The state [create_app] starts from. *)
Definition initial_world (o : outbox) : World :=
  {| w_repo := empty_repo; w_facts := ∅; w_trail := ∅; w_outbox := o |}.
End handlers.

(** ** The abstract service

    [effect t h w w'] is what one request may do to the plans, states,
    decisions and facts of contract [h] of tenant [t]: nothing, a proposal, an
    admissible decision with its decision step, or a cancellation or expiry
    along the adjacency table.  Two constructors are the writes an aborted
    request leaves behind. *)

Section effects.
Context `{FloatRepr, UnicodeDB, EventPort}.

Definition approvals_on (t h : pystr) (r : PlanRepository) : list ApproverRecord :=
  approver_of <$> get_decisions t h r.

Inductive effect (proposing : bool) (t h : pystr) (w w' : World) : Prop :=
  | eff_none :
      w_repo w' = w_repo w -> w_facts w' = w_facts w -> effect proposing t h w w'
  | eff_put s :
      proposing = true -> ps_contract_hash s = h -> put_plan t s (w_repo w) = Ok (w_repo w') ->
      w_facts w' = w_facts w -> effect proposing t h w w'
  | eff_propose s f r :
      proposing = true -> ps_contract_hash s = h -> put_plan t s (w_repo w) = Ok r ->
      set_state t h WAITING_APPROVAL r = Ok (w_repo w') ->
      pf_proposer_actor_id f <> [] ->
      w_facts w' = <[(t, h) := f]> (w_facts w) -> effect proposing t h w w'
  | eff_record d d' :
      is_Some (tget (plans (w_repo w)) t h) -> dr_contract_hash d = h ->
      get_state t h (w_repo w) = Ok WAITING_APPROVAL ->
      record_decision t d (w_repo w) = Ok (w_repo w', d') ->
      w_facts w' = w_facts w -> effect proposing t h w w'
  | eff_decide f d d' r s reason :
      is_Some (tget (plans (w_repo w)) t h) ->
      w_facts w !! (t, h) = Some f ->
      get_state t h (w_repo w) = Ok WAITING_APPROVAL ->
      dr_contract_hash d = h ->
      (pf_high_risk f = true -> dr_high_risk d = true) ->
      canonical_actor_id (dr_approver_actor_id d) <> canonical_actor_id (pf_proposer_actor_id f) ->
      decision_step (pf_proposer_actor_id f) (approvals_with (approvals_on t h (w_repo w)) d)
        (dr_high_risk d) d s reason ->
      record_decision t d (w_repo w) = Ok (r, d') ->
      set_state t h s r = Ok (w_repo w') ->
      w_facts w' = w_facts w -> effect proposing t h w w'
  | eff_close current s :
      get_state t h (w_repo w) = Ok current -> s ∈ allowed_transitions current ->
      s = CANCELLED \/ s = EXPIRED -> set_state t h s (w_repo w) = Ok (w_repo w') ->
      w_facts w' = w_facts w -> effect proposing t h w w'.

Lemma repo_read_inv {A} (f : PlanRepository -> result persistence_exn A) g w w' r :
  repo_read f g w = (w', r) ->
  w' = w /\ ((exists a, f (w_repo w) = Ok a /\ r = Ok a) \/
             (exists e, f (w_repo w) = Raise e /\ r = Raise (g e))).
Proof. unfold repo_read. intros [= -> <-]. split; [done|]. destruct (f _); cbn; eauto. Qed.

Lemma repo_write_inv {A} (f : PlanRepository -> result persistence_exn (PlanRepository * A)) g w w' r :
  repo_write f g w = (w', r) ->
  (exists r' a, f (w_repo w) = Ok (r', a) /\ w' = with_repo r' w /\ r = Ok a) \/
  (exists e, f (w_repo w) = Raise e /\ w' = w /\ r = Raise (g e)).
Proof.
  unfold repo_write, try_update. destruct (f (w_repo w)) as [[r' a]|e]; intros [= <- <-]; naive_solver.
Qed.

Lemma do_set_state_inv t h s w w' r :
  do_set_state t h s w = (w', r) ->
  (exists r', set_state t h s (w_repo w) = Ok r' /\ w' = with_repo r' w /\ r = Ok tt) \/
  (exists e, w' = w /\ r = Raise e).
Proof.
  unfold do_set_state.
  intros [(r' & [] & Hf & -> & ->)|(e & Hf & -> & ->)]%repo_write_inv; [left|right; by eauto].
  apply bind_Ok in Hf as (r1 & Hs & [= ->]). eauto.
Qed.

Lemma facts_get_inv t h w w' r :
  facts_get t h w = (w', r) ->
  w' = w /\ ((exists f, w_facts w !! (t, h) = Some f /\ r = Ok f) \/
             (w_facts w !! (t, h) = None /\ r = Raise PlanNotFoundError)).
Proof. unfold facts_get. intros [= -> <-]. destruct (w_facts w' !! (t, h)); eauto. Qed.

(** Emitting touches the outbox only. *)
Lemma do_emit_inv e t i k p n w w' r :
  do_emit e t i k p n w = (w', r) ->
  w_repo w' = w_repo w /\ w_facts w' = w_facts w /\ w_trail w' = w_trail w.
Proof.
  unfold do_emit, lift_as. intros [(w1 & env & Hm & Hk)|(x & Hm & ->)]%M_bind_inv;
    apply lift_inv in Hm as [-> _]; [|done].
  apply try_update_inv in Hk as [([] & Hf & ->)|(x & Hf & -> & ->)]; [|done].
  destruct (outbox_record env (w_outbox w)); [|done]. by injection Hf as <-.
Qed.

Lemma settle_events_inv t h f d c o n w w' r :
  settle_events t h f d c o n w = (w', r) ->
  w_repo w' = w_repo w /\ w_facts w' = w_facts w /\ w_trail w' = w_trail w.
Proof.
  unfold settle_events. case_if; [|case_if; [apply do_emit_inv|by intros [-> ->]%mret_inv]].
  intros [(w1 & l & Hm & Hk)|(x & Hm & ->)]%M_bind_inv; apply lift_inv in Hm as [-> _]; [|done].
  by eapply do_emit_inv.
Qed.
End effects.

(** One step of symbolic execution: split a run at its first call and invert
    what the read-only calls did. *)
Ltac run_step H :=
  apply M_bind_inv in H as [(?w & ?a & ?Hm & H)|(?e & ?Hm & ?Hr)];
  match goal with
  | Hm : lift_as _ _ _ = _ |- _ =>
      unfold lift_as in Hm; apply lift_inv in Hm as [? ?Hm]; subst
  | Hm : lift _ _ = _ |- _ => apply lift_inv in Hm as [? ?Hm]; subst
  | Hm : gets _ _ = _ |- _ => apply gets_inv in Hm as [? ?Hm]; subst
  | Hm : raise_when _ _ _ = _ |- _ => apply raise_when_inv in Hm as [? ?Hm]; subst
  | Hm : repo_read _ _ _ = _ |- _ => apply repo_read_inv in Hm as [? ?Hm]; subst
  | Hm : facts_get _ _ _ = _ |- _ => apply facts_get_inv in Hm as [? ?Hm]; subst
  | Hm : do_audit _ _ _ = _ |- _ => apply modify_inv in Hm as [? ?Hm]; subst
  | Hm : facts_put _ _ _ _ = _ |- _ => apply modify_inv in Hm as [? ?Hm]; subst
  | _ => idtac
  end.

Section refinement.
Context `{FloatRepr, UnicodeDB, EventPort}.

Lemma cancel_effect t h a o n w w' r : cancel_plan t h a o n w = (w', r) -> effect false t h w w'.
Proof.
  unfold cancel_plan. intros Hrun. run_step Hrun; [|by apply eff_none].
  destruct Hm as [(c & Hc & [= ->])|(? & ? & ?)]; [|done].
  run_step Hrun; [|by apply eff_none].
  destruct (cancel c h _ n _) as [oc|] eqn:Ec; [|done]. injection Hm as ->.
  unfold cancel in Ec. case_bool_decide as Hal; [done|]. injection Ec as <-. cbn in Hrun.
  run_step Hrun; apply do_set_state_inv in Hm as [(r' & Hs & -> & Hok)|(e0 & -> & Hok)];
    try done; try (by apply eff_none); try (by destruct Hr).
  run_step Hrun; [|done]. apply mret_inv in Hrun as [-> _].
  by eapply eff_close; [exact Hc|exact Hal|left|exact Hs|].
Qed.

Lemma expire_effect t h a n w w' r : expire_plan t h a n w = (w', r) -> effect false t h w w'.
Proof.
  unfold expire_plan. intros Hrun. run_step Hrun; [|by apply eff_none].
  destruct Hm as [(c & Hc & [= ->])|(? & ? & ?)]; [|done].
  run_step Hrun; [|by apply eff_none].
  destruct (expire c h _ n) as [oc|] eqn:Ec; [|done]. injection Hm as ->.
  unfold expire in Ec. case_bool_decide as Hal; [done|]. injection Ec as <-. cbn in Hrun.
  run_step Hrun; apply do_set_state_inv in Hm as [(r' & Hs & -> & Hok)|(e0 & -> & Hok)];
    try done; try (by apply eff_none); try (by destruct Hr).
  run_step Hrun; [|done]. apply mret_inv in Hrun as [-> _].
  by eapply eff_close; [exact Hc|exact Hal|right|exact Hs|].
Qed.

Lemma propose_effect t b a n k w w' r :
  propose_plan t b a n k w = (w', r) -> exists h, effect true t h w w'.
Proof.
  unfold propose_plan. intros Hrun.
  run_step Hrun; [|by exists []; apply eff_none].
  run_step Hrun; [|by exists []; apply eff_none].
  run_step Hrun; [|by exists []; apply eff_none].
  run_step Hrun; [|by exists []; apply eff_none].
  case_bool_decide as Hprop; [done|].
  run_step Hrun; [|by exists []; apply eff_none].
  match type of Hrun with context [get_plan t ?x] => rename x into h end.
  exists h. run_step Hrun.
  2: { apply eff_none; destruct (get_plan t h _) as [|[]]; congruence. }
  match goal with Hm : _ = (?w1, Ok ?ex) |- _ => assert (w1 = w) as ->
    by (destruct (get_plan t h _) as [|[]]; congruence) end.
  run_step Hrun; [|by apply eff_none].
  run_step Hrun; match goal with Hm : repo_write _ _ _ = _ |- _ =>
    apply repo_write_inv in Hm as [(r1 & [] & Hput & -> & Hok)|(? & ? & -> & Hok)] end;
    try done; try (by apply eff_none).
  apply bind_Ok in Hput as (r1' & Hput & [= ->]).
  run_step Hrun; [|done].
  match goal with Hm : Ok _ = try_except _ _ |- _ => injection Hm as -> end. cbn in Hrun.
  run_step Hrun; match goal with Hm : do_set_state _ _ _ _ = _ |- _ =>
    apply do_set_state_inv in Hm as [(r' & Hs & -> & Hok')|(e0 & -> & Hok')] end;
    try done; try (by eapply eff_put; [| |exact Hput|]).
  run_step Hrun; [|done]. run_step Hrun; [|done].
  assert (w_repo w' = r' /\ w_facts w' = <[(t, h) := facts_of a0 (default [] a)
     (is_high_risk_plan (plan_hypotheses a0).*1)]> (w_facts w)) as [Hr' Hf'].
  { run_step Hrun; match goal with Hm : do_emit _ _ _ _ _ _ _ = _ |- _ =>
      apply do_emit_inv in Hm as (Hr1 & Hf1 & _) end.
    - apply mret_inv in Hrun as [-> _]. by split.
    - by split. }
  eapply eff_propose; [done| |exact Hput| | |exact Hf']; [done| |exact Hprop]. by rewrite Hr'.
Qed.
End refinement.

Section decisions.
Context `{FloatRepr, UnicodeDB, EventPort}.


(** A transition that the service runs succeeded: from WAITING_APPROVAL, by a
    decision step on an admissible decision. *)
Lemma transition_Some_Ok s h p a hr now seen d snap o :
  transition s h p a hr now seen (Some d) (Some snap) (Some snap) = Ok o ->
  dr_contract_hash d = h -> s <> PROPOSED ->
  s = WAITING_APPROVAL /\
  canonical_actor_id (dr_approver_actor_id d) <> canonical_actor_id p /\
  exists r, decision_step p a hr d (to_state o) r.
Proof.
  intros Ht Hh Hp. destruct (decide (s = WAITING_APPROVAL)) as [->|Hn].
  - apply transition_waiting in Ht as (d' & r & [= <-] & [] & Hstep & _). eauto.
  - rewrite transition_terminal in Ht; [done|]. destruct s; set_solver.
Qed.
End decisions.

Section submit.
Context `{FloatRepr, UnicodeDB, EventPort}.

Lemma decide_effect t h b snap current f gd n k w w' r :
  decide_and_record t h b snap current f gd n k w = (w', r) ->
  is_Some (tget (plans (w_repo w)) t h) ->
  get_state t h (w_repo w) = Ok current -> current <> PROPOSED ->
  w_facts w !! (t, h) = Some f -> effect false t h w w'.
Proof.
  unfold decide_and_record. intros Hrun Hpl Hst Hnp Hf.
  run_step Hrun; [|by apply eff_none]. injection Hm as ->. cbn [fst snd load_decisions] in Hrun.
  set (d := incoming_of h b f gd) in *.
  run_step Hrun; [|by apply eff_none].
  match goal with Hm : Ok ?x = try_except ?m _ |- _ =>
    rename x into o; destruct m as [o'|] eqn:Ht;
    [injection Hm as <-|cbn in Hm; congruence] end.
  apply transition_Some_Ok in Ht as (-> & Hother & reason & Hstep); [|done..].
  run_step Hrun; match goal with Hm : repo_write _ _ _ = _ |- _ =>
    apply repo_write_inv in Hm as [(r1 & d' & Hrec & -> & Hok)|(? & ? & -> & Hok)] end;
    try done; try (by apply eff_none).
  run_step Hrun; match goal with Hm : do_set_state _ _ _ _ = _ |- _ =>
    apply do_set_state_inv in Hm as [(r' & Hs & -> & Hok')|(e0 & -> & Hok')] end;
    try done; try (by eapply (eff_record _ t h _ _ d d')).
  run_step Hrun; [|done].
  assert (w_repo w' = r' /\ w_facts w' = w_facts w) as [Hr' Hf'].
  { run_step Hrun; match goal with Hm : settle_events _ _ _ _ _ _ _ _ = _ |- _ =>
      apply settle_events_inv in Hm as (Hr1 & Hf1 & _) end.
    - apply mret_inv in Hrun as [-> _]. by split.
    - by split. }
  eapply (eff_decide false t h w w' f d d' r1 (to_state o) reason); try done.
  - cbn. by intros ->.
  - by rewrite Hr'.
Qed.

Lemma submit_effect g t h b n k w w' r :
  submit_decision g t h b n k w = (w', r) ->
  (forall s, get_state t h (w_repo w) = Ok s -> s <> PROPOSED) -> effect false t h w w'.
Proof.
  unfold submit_decision. intros Hrun Hnp.
  run_step Hrun; [|by apply eff_none].
  run_step Hrun; [|by apply eff_none].
  run_step Hrun; [|by apply eff_none].
  run_step Hrun; [|by apply eff_none].
  match goal with Hm : (exists _, get_plan _ _ _ = _ /\ _) \/ _ |- _ =>
    destruct Hm as [(snap & Hpl%tread_Ok & [= ->])|(? & ? & ?)]; [|done] end.
  match goal with Hm : (exists _, get_state _ _ _ = _ /\ _) \/ _ |- _ =>
    destruct Hm as [(c & Hc & [= ->])|(? & ? & ?)]; [|done] end.
  run_step Hrun; [|by apply eff_none].
  match goal with Hm : (exists _, w_facts _ !! _ = _ /\ _) \/ _ |- _ =>
    destruct Hm as [(f & Hf & [= ->])|(? & ?)]; [|done] end.
  run_step Hrun; [|by apply eff_none].
  case_match; [by apply mret_inv in Hrun as [-> _]; apply eff_none|].
  run_step Hrun; [|by apply eff_none].
  case_if; [by eapply decide_effect; [exact Hrun|eexists|done|by apply Hnp|done]|].
  run_step Hrun; [|done]. apply throw_inv in Hrun as [-> _]. by apply eff_none.
Qed.

Lemma read_only_effect t h w :
  effect false t h w (get_plan_state t h w).1 /\ effect false t h w (execution_check t h w).1.
Proof.
  unfold get_plan_state, execution_check, mbind, M_bind, repo_read.
  split; destruct (get_state t h (w_repo w)); cbn; by apply eff_none.
Qed.
End submit.

(** ** The invariant of the service *)

Section invariant.
Context `{FloatRepr, UnicodeDB, EventPort}.

Definition approved_ok (w : World) (t h : pystr) : Prop :=
  tget (states (w_repo w)) t h = Some APPROVED ->
  exists f, w_facts w !! (t, h) = Some f /\ pf_proposer_actor_id f <> [] /\
    quorum (h7_required (pf_high_risk f)) (pf_proposer_actor_id f) (approvals_on t h (w_repo w)).

Record world_inv (w : World) : Prop := {
  inv_repo : repo_wf (w_repo w);
  inv_submitted t h : tget (states (w_repo w)) t h <> Some PROPOSED;
  inv_proposer t h f : w_facts w !! (t, h) = Some f -> pf_proposer_actor_id f <> [];
  inv_approved t h : approved_ok w t h;
  inv_planned t k d : tget (decisions (w_repo w)) t k = Some d ->
    is_Some (tget (plans (w_repo w)) t k.1)
}.

Lemma initial_world_inv o : world_inv (initial_world o).
Proof.
  split; cbn.
  - apply empty_repo_wf.
  - intros t h. unfold tget. by rewrite lookup_empty.
  - intros t h f. by rewrite lookup_empty.
  - intros t h. unfold approved_ok, tget. cbn. by rewrite lookup_empty.
  - intros t k d. unfold tget. by rewrite lookup_empty.
Qed.

(** The approvals the transition saw are the approvals on record afterwards. *)
Lemma approvals_with_recorded t d r r' d' :
  repo_wf r -> record_decision t d r = Ok (r', d') ->
  approvals_with (approvals_on t (dr_contract_hash d) r) d =
  approvals_on t (dr_contract_hash d) r'.
Proof.
  intros Hwf Hrec. apply record_decision_Ok in Hrec as [_ Hrec].
  unfold approvals_with. case_if.
  - apply existsb_elem in E as (a & (d0 & -> & Hd0)%list_elem_of_fmap & Hc).
    apply bool_decide_eq_true in Hc. apply (elem_of_get_decisions _ _ _ _ Hwf) in Hd0 as [Hd0 Hh].
    assert (decision_key d0 = decision_key d) as Hk by (unfold decision_key; by rewrite Hh, <- Hc).
    rewrite Hk in Hd0. destruct Hrec as [(? & ? & ->)|(? & _)]; congruence.
  - destruct Hrec as [(Hin & _ & ->)|(Hnone & -> & ->)].
    + exfalso. pose proof (wf_keys r Hwf _ _ _ Hin) as Hk.
      rewrite existsb_false_elem in E.
      assert (approver_of d' ∈ approvals_on t (dr_contract_hash d) r) as Ha.
      { apply (list_elem_of_fmap_2 approver_of). apply elem_of_get_decisions; [done|]. rewrite Hk. split; [done|].
        by injection Hk. }
      apply E, bool_decide_eq_false in Ha. apply Ha. by injection Hk.
    + unfold approvals_on. rewrite (get_decisions_recorded t d r t) by done.
      rewrite decide_True by done. by rewrite fmap_app.
Qed.

(** Recording a decision never loses an approval. *)
Lemma approvals_record_mono t d r r' d' t' h :
  repo_wf r -> record_decision t d r = Ok (r', d') ->
  exists more, approvals_on t' h r' = approvals_on t' h r ++ more.
Proof.
  intros Hwf Hrec. pose proof (run_op_decisions r (OpRecordDecision t d) t' h Hwf) as [more Hm].
  cbn in Hm. rewrite Hrec in Hm. exists (approver_of <$> more).
  unfold approvals_on. by rewrite Hm, fmap_app.
Qed.

Lemma quorum_app n p a b : quorum n p a -> quorum n p (a ++ b).
Proof. apply quorum_mono. intros x (r & ? & ?). exists r. rewrite elem_of_app. tauto. Qed.

Lemma h7_required_le a b : (a = true -> b = true) -> h7_required a <= h7_required b.
Proof. destruct a, b; cbn; intros Hab; [lia|by discriminate Hab|lia|lia]. Qed.

Lemma effect_inv p t h w w' : effect p t h w w' -> world_inv w -> world_inv w'.
Proof.
  intros Heff [Hwf Hsub Hprop Hap Hpln]. destruct Heff as
    [Hr Hf|s _ Hh Hput Hf|s f r _ Hh Hput Hset Hpr Hf|d d' Hpl Hdh Hst Hrec Hf
    |f d d' r s reason Hpl Hfs Hst Hdh Hhr Hne Hstep Hrec Hset Hf
    |current s Hst Hal Hs Hset Hf].
  - split; unfold approved_ok; rewrite ?Hr, ?Hf; done.
  - pose proof (put_plan_wf _ _ _ _ Hwf Hput) as Hwf'. apply put_plan_Ok in Hput as [_ Hr].
    unfold approved_ok in *. split; rewrite ?Hf; [done| | | |]; try unfold approved_ok;
      rewrite ?Hf, ?Hr; try done. intros t' k d Hd. apply tset_is_Some. by eapply Hpln.
  - pose proof (put_plan_wf _ _ _ _ Hwf Hput) as Hwf1.
    pose proof (set_state_wf _ _ _ _ _ Hwf1 Hset) as Hwf'.
    apply put_plan_Ok in Hput as [_ ->]. apply set_state_Ok in Hset as [_ Hr]. cbn in Hr.
    split; [done|..].
    + intros t' h'. rewrite Hr. cbn. rewrite tget_tset. case_decide; [done|apply Hsub].
    + intros t' h' f'. rewrite Hf, lookup_insert_Some. intros [[_ <-]|[_ ?]]; [done|by eapply Hprop].
    + intros t' h'. unfold approved_ok. rewrite Hr, Hf. cbn. rewrite tget_tset.
      case_decide as Hk; [done|]. rewrite lookup_insert_ne by congruence. apply Hap.
    + intros t' k d. rewrite Hr. cbn. intros Hd. apply tset_is_Some. by eapply Hpln.
  - pose proof (record_decision_wf _ _ _ _ _ Hwf Hrec) as Hwf'.
    assert (plans (w_repo w') = plans (w_repo w)) as Hpr.
    { by apply record_decision_Ok in Hrec as [_ [(_ & _ & ->)|(_ & _ & ->)]]. }
    assert (forall t' k d0, tget (decisions (w_repo w')) t' k = Some d0 ->
      is_Some (tget (plans (w_repo w')) t' k.1)) as Hpln'.
    { rewrite Hpr. apply (record_decision_all _ _ _ _ _ (fun t' k => is_Some (tget (plans (w_repo w)) t' k.1)) Hrec); [|exact Hpln].
      cbn. by rewrite Hdh. }
    pose proof Hrec as [_ [(_ & _ & Hr)|(_ & _ & Hr)]]%record_decision_Ok.
    + split; unfold approved_ok; rewrite ?Hr, ?Hf; done.
    + split; [done|by rewrite Hr|by rewrite Hf| |done]. intros t' h'. unfold approved_ok.
      destruct (approvals_record_mono _ _ _ _ _ t' h' Hwf Hrec) as [more ->].
      rewrite Hf, Hr. cbn. intros (f & ? & ? & ?)%Hap. exists f. split; [done|]. split; [done|].
      by apply quorum_app.
  - pose proof (record_decision_wf _ _ _ _ _ Hwf Hrec) as Hwf1.
    pose proof (set_state_wf _ _ _ _ _ Hwf1 Hset) as Hwf'.
    apply set_state_Ok in Hset as [_ Hr].
    assert (states r = states (w_repo w)) as Hstr.
    { by apply record_decision_Ok in Hrec as [_ [(_ & _ & ->)|(_ & _ & ->)]]. }
    assert (plans r = plans (w_repo w)) as Hpr.
    { by apply record_decision_Ok in Hrec as [_ [(_ & _ & ->)|(_ & _ & ->)]]. }
    assert (forall t' h', approvals_on t' h' (w_repo w') = approvals_on t' h' r) as Hon.
    { intros. unfold approvals_on. by rewrite (get_decisions_other _ _ r (w_repo w')) by (by rewrite Hr). }
    split; [done|..].
    + intros t' h'. rewrite Hr. cbn. rewrite tget_tset, Hstr.
      case_decide; [|apply Hsub]. intros [= ->]. inversion Hstep.
    + by rewrite Hf.
    + intros t' h'. unfold approved_ok. rewrite Hon, Hf. rewrite Hr. cbn. rewrite tget_tset, Hstr.
      case_decide as Hk.
      * injection Hk as -> ->. intros [= ->]. exists f. split; [done|]. split; [by eapply Hprop|].
        inversion Hstep as [|Hd Hq|]; subst.
        rewrite (approvals_with_recorded _ _ _ _ _ Hwf Hrec) in Hq.
        eapply quorum_le; [|exact Hq]. by apply h7_required_le.
      * destruct (approvals_record_mono _ _ _ _ _ t' h' Hwf Hrec) as [more ->].
        intros (f' & ? & ? & ?)%Hap. exists f'. split; [done|]. split; [done|]. by apply quorum_app.
    + rewrite Hr. cbn. rewrite Hpr.
      apply (record_decision_all _ _ _ _ _ (fun t' k => is_Some (tget (plans (w_repo w)) t' k.1)) Hrec); [|exact Hpln].
      cbn. by rewrite Hdh.
  - pose proof (set_state_wf _ _ _ _ _ Hwf Hset) as Hwf'. apply set_state_Ok in Hset as [_ Hr].
    split; [done|..].
    + intros t' h'. rewrite Hr. cbn. rewrite tget_tset. case_decide; [|apply Hsub].
      destruct Hs as [-> | ->]; done.
    + by rewrite Hf.
    + intros t' h'. unfold approved_ok. rewrite Hr, Hf. cbn. rewrite tget_tset.
      case_decide; [by destruct Hs as [-> | ->]|apply Hap].
    + by rewrite Hr.
Qed.

Definition is_propose (q : request) : bool :=
  match q with Propose _ _ _ _ _ => true | _ => false end.

Lemma serve_effect w q :
  world_inv w -> exists t h, effect (is_propose q) t h w (serve w q).
Proof.
  intros [_ Hsub _ _ _]. destruct q as [t b a n k|g t h b n k|t h a o n|t h a n|t h|t h]; cbn.
  - destruct (propose_plan t b a n k w) as [w' r] eqn:E. apply propose_effect in E as [h ?]. by exists t, h.
  - destruct (submit_decision g t h b n k w) as [w' r] eqn:E. exists t, h.
    eapply submit_effect; [exact E|]. intros s Hs%tread_Ok ->. by apply (Hsub t h).
  - destruct (cancel_plan t h a o n w) as [w' r] eqn:E. exists t, h. by eapply cancel_effect.
  - destruct (expire_plan t h a n w) as [w' r] eqn:E. exists t, h. by eapply expire_effect.
  - exists t, h. apply read_only_effect.
  - exists t, h. apply read_only_effect.
Qed.

Lemma serve_all_inv qs w : world_inv w -> world_inv (serve_all qs w).
Proof.
  revert w. induction qs as [|q qs IH]; intros w Hw; [done|]. apply (IH (serve w q)).
  destruct (serve_effect w q Hw) as (t & h & He). by eapply effect_inv.
Qed.

Lemma execution_check_Ok t h w w' x :
  execution_check t h w = (w', Ok x) ->
  tget (states (w_repo w)) t h = Some APPROVED /\
  exists d, d ∈ get_decisions t h (w_repo w) /\ dr_decision d = u "approved".
Proof.
  unfold execution_check. intros Hrun. run_step Hrun; [|done].
  destruct Hm as [(c & Hc & [= ->])|(? & ? & ?)]; [|done].
  run_step Hrun; [|done]. apply gets_inv in Hm as [-> [= ->]]. rename Hrun into Hg.
  destruct (guard_execution _ _) as [[]|e] eqn:Eg; [|by destruct e].
  unfold guard_execution in Eg. apply bind_Ok in Eg as ([] & Ha & Hd).
  rewrite raise_if_Ok, bool_decide_eq_false in Ha, Hd. apply dec_stable in Ha as ->.
  apply dec_stable in Hd. split; [by apply tread_Ok|].
  destruct (List.find _ _) as [d|] eqn:Ef; [|done]. apply List.find_some in Ef as [Hin Hb].
  exists d. rewrite <- list_elem_of_In, elem_of_reverse in Hin. split; [done|].
  by apply bool_decide_eq_true in Hb.
Qed.
End invariant.

(** ** Running a decision to approval *)

Section approval.
Context `{FloatRepr, UnicodeDB, EventPort}.













End approval.

(** ** The properties of the service *)

Section properties.
Context `{FloatRepr, UnicodeDB, EventPort}.

(** C2: no execution without approval.  After any requests of any tenants,
    in any order and whatever the gate and the ports answered, if the
    execution check passes then the plan's recorded facts name a proposer
    and its recorded decisions contain approvals by as many different
    identities as its risk asks for (two when high), none of them the
    proposer's. *)
Theorem execution_requires_quorum qs o t h w' :
  let w := serve_all qs (initial_world o) in
  execution_check t h w = (w', Ok tt) ->
  exists f, w_facts w !! (t, h) = Some f /\ pf_proposer_actor_id f <> [] /\
    quorum (h7_required (pf_high_risk f)) (pf_proposer_actor_id f) (approvals_on t h (w_repo w)).
Proof.
  intros w [Hst _]%execution_check_Ok.
  apply (inv_approved _ (serve_all_inv qs _ (initial_world_inv o))), Hst.
Qed.

(** C3: the handlers refine the abstract service: in every reachable state,
    every request changes at most one contract of one tenant, and only by a
    proposal, by an admissible decision with the outcome the policy's
    decision step gives it, or by a cancellation or expiry along the
    adjacency table; and the state stays well formed (no contract of two
    tenants, decisions under their own keys, APPROVED only with a quorum). *)
Theorem service_refines_policy qs o q :
  let w := serve_all qs (initial_world o) in
  world_inv w /\ exists t h, effect (is_propose q) t h w (serve w q).
Proof.
  intros w. assert (world_inv w) as Hinv by apply serve_all_inv, initial_world_inv.
  split; [done|]. by apply serve_effect.
Qed.

Lemma effect_terminal p t h w w' t' h' s :
  effect p t h w w' -> p = false -> repo_wf (w_repo w) -> s ∈ TERMINAL_STATES ->
  tget (states (w_repo w)) t' h' = Some s -> tget (states (w_repo w')) t' h' = Some s.
Proof.
  intros Heff -> Hwf Hs Hst. destruct Heff as
    [Hr _|? [=]|? ? ? [=]|d d' _ _ Hw Hrec _|f d d' r s1 reason _ _ Hw _ _ _ _ Hrec Hset _
    |current s1 Hc Hal _ Hset _].
  - by rewrite Hr.
  - apply record_decision_Ok in Hrec as [_ [(_ & _ & ->)|(_ & _ & ->)]]; done.
  - assert (states r = states (w_repo w)) as Hstr.
    { by apply record_decision_Ok in Hrec as [_ [(_ & _ & ->)|(_ & _ & ->)]]. }
    apply set_state_Ok in Hset as [_ ->]. cbn. rewrite tget_tset, Hstr.
    case_decide as Hk; [|done]. injection Hk as -> ->. apply tread_Ok in Hw.
    rewrite Hst in Hw. injection Hw as ->. exfalso. set_solver.
  - apply set_state_Ok in Hset as [_ ->]. cbn. rewrite tget_tset.
    case_decide as Hk; [|done]. injection Hk as -> ->. apply tread_Ok in Hc.
    rewrite Hst in Hc. injection Hc as ->. exfalso.
    destruct current; cbn in Hal; try set_solver.
Qed.

(** A settled plan stays settled: in every reachable state, no decision,
    cancellation, expiry or read by anyone moves an approved, rejected,
    expired or cancelled plan to another state; only a proposal can. *)
Theorem settled_until_reproposed qs o q t h s :
  let w := serve_all qs (initial_world o) in
  is_propose q = false -> s ∈ TERMINAL_STATES ->
  tget (states (w_repo w)) t h = Some s ->
  tget (states (w_repo (serve w q))) t h = Some s.
Proof.
  intros w Hq. assert (world_inv w) as Hinv by apply serve_all_inv, initial_world_inv.
  destruct (serve_effect w q Hinv) as (t' & h' & Heff).
  by eapply effect_terminal; [exact Heff|done|apply Hinv].
Qed.

(** C8: the policy gate fails closed.  While it answers no request with an
    allow (it denies, is unreachable or answers garbage), submitting a
    decision changes no plan, state, decision or fact and emits nothing; it
    returns only to repeat the answer of a settled plan, and an unreachable
    gate is reported as 503. *)
Theorem gate_fail_closed gate t h b n k w w' r :
  (forall req gd, gate req = Ok gd -> gd_allow gd = false) ->
  submit_decision gate t h b n k w = (w', r) ->
  w_repo w' = w_repo w /\ w_facts w' = w_facts w /\ w_outbox w' = w_outbox w /\
  (forall resp, r = Ok resp -> w' = w /\ exists d current prior, b = Some d /\
     settled_replay t h d current (w_repo w) = Some prior /\ sr_state resp = current) /\
  (r = Raise PolicyGateUnavailableError -> w' = w /\ status PolicyGateUnavailableError = 503%Z).
Proof.
  intros Hgate. unfold submit_decision. intros Hrun.
  run_step Hrun; [|naive_solver].
  run_step Hrun; [|naive_solver].
  run_step Hrun; [|naive_solver].
  run_step Hrun; [|naive_solver].
  run_step Hrun; [|naive_solver].
  run_step Hrun; [|naive_solver].
  match goal with Hm : Ok ?x = Ok (settled_replay _ _ _ _ _) |- _ => injection Hm as -> end.
  match goal with Hm : Ok ?x = from_option Ok _ b |- _ =>
    destruct b as [d|]; [injection Hm as ->|done] end.
  destruct (settled_replay _ _ _ _ _) as [prior|] eqn:Ep.
  { apply mret_inv in Hrun as [-> ->]. do 3 (split; [done|]). split; [|done].
    intros resp [= <-]. split; [done|]. by eauto 8. }
  run_step Hrun; [|naive_solver].
  match goal with Hm : Ok ?gd = try_except (gate ?req) _ |- _ =>
    destruct (gate req) as [gd'|] eqn:Eg; [|done]; injection Hm as -> end.
  rewrite (Hgate _ _ Eg) in Hrun.
  run_step Hrun; [|done]. apply throw_inv in Hrun as [-> ->]. naive_solver.
Qed.

End properties.

(** ** Concrete runs *)

(** a proposal opens its plan whatever the plan's state was: an accepted one
    leaves the plan of that hash waiting for approval with the proposer of this
    request, keeps every recorded decision, and touches no other plan.  In
    particular it reopens a settled plan and replaces its proposer. *)
Theorem proposal_resets `{FloatRepr, UnicodeDB, EventPort} t b a n k w w' h s :
  propose_plan t b a n k w = (w', Ok (h, s)) ->
  exists plan f, b = Some plan /\ plan_tenant_id plan = t /\
    compute_contract_hash (plan_dump plan) = Ok h /\ s = WAITING_APPROVAL /\
    tget (states (w_repo w')) t h = Some WAITING_APPROVAL /\
    w_facts w' !! (t, h) = Some f /\ a = Some (pf_proposer_actor_id f) /\ pf_proposer_actor_id f <> [] /\
    (forall t' h', get_decisions t' h' (w_repo w') = get_decisions t' h' (w_repo w)) /\
    (forall t' h', (t', h') <> (t, h) ->
       tget (states (w_repo w')) t' h' = tget (states (w_repo w)) t' h' /\
       w_facts w' !! (t', h') = w_facts w !! (t', h')).
Proof.
  unfold propose_plan. intros Hrun. destruct b as [plan|].
  2: { run_step Hrun; done. }
  apply M_bind_Ok in Hrun as (w1 & p & [= <- <-] & Hrun).
  apply M_bind_Ok in Hrun as (w1 & [] & [Ht ->]%raise_when_Ok & Hrun).
  apply bool_decide_eq_false in Ht. apply dec_stable in Ht.
  apply M_bind_Ok in Hrun as (w1 & [] & [_ ->]%raise_when_Ok & Hrun).
  apply M_bind_Ok in Hrun as (w1 & [] & [Hp ->]%raise_when_Ok & Hrun).
  apply bool_decide_eq_false in Hp.
  apply M_bind_Ok in Hrun as (w1 & h1 & Hh & Hrun).
  unfold lift_as in Hh. apply lift_inv in Hh as [-> Hh].
  destruct (compute_contract_hash (plan_dump plan)) as [h2|] eqn:Ehash; [|done]. injection Hh as ->.
  apply M_bind_Ok in Hrun as (w1 & ex & Hex & Hrun).
  assert (w1 = w) as -> by (destruct (get_plan t h2 _) as [|[]]; congruence).
  apply M_bind_Ok in Hrun as (w1 & [] & [_ ->]%raise_when_Ok & Hrun).
  apply M_bind_Ok in Hrun as (w1 & [] & Hput & Hrun).
  apply repo_write_inv in Hput as [(r1 & [] & Hput & -> & _)|(? & _ & _ & ?)]; [|done].
  apply bind_Ok in Hput as (r1' & [_ Hput]%put_plan_Ok & [= ->]).
  apply M_bind_Ok in Hrun as (w1 & o & Ho & Hrun).
  apply lift_inv in Ho as [-> Ho]. injection Ho as ->. cbn [to_state outcome] in Hrun.
  apply M_bind_Ok in Hrun as (w1 & [] & Hs & Hrun).
  apply do_set_state_inv in Hs as [(r2 & [_ Hs]%set_state_Ok & -> & _)|(? & _ & ?)]; [|done].
  apply M_bind_Ok in Hrun as (w1 & [] & [-> _]%modify_inv & Hrun).
  apply M_bind_Ok in Hrun as (w1 & [] & [-> _]%modify_inv & Hrun).
  apply M_bind_Ok in Hrun as (w1 & [] & (Hr & Hf & _)%do_emit_inv & [= -> <- <-]).
  exists plan, (facts_of plan (default [] a) (is_high_risk_plan (plan_hypotheses plan).*1)).
  rewrite Hr, Hf. cbn in Hs |- *. subst r1 r2. cbn.
  split; [done|]. split; [done|]. split; [done|]. split; [done|].
  split; [apply tget_tset_eq|]. split; [apply lookup_insert_eq|].
  split; [by destruct a|]. split; [done|]. split; [done|]. intros t' h' Hne. split.
  - apply tget_tset_ne. congruence.
  - by rewrite lookup_insert_ne by congruence.
Qed.

Module Witness.
#[local] Existing Instance sci_float_repr.
#[local] Existing Instance ascii_db.

(** A port that records the event type and key of every envelope. *)
#[local] Instance list_port : EventPort := {|
  envelope := pystr * pystr;
  outbox := list (pystr * pystr);
  build_tenant_envelope _ e _ _ key _ _ := Ok (e, key);
  outbox_record env o := Ok (o ++ [env])
|}.

Definition acme : pystr := u "acme".
Definition demo_plan : ChangePlan :=
  {| plan_tenant_id := acme; plan_run_id := u "run-1"; plan_repo_commit := u "c0ffee";
     plan_evidence_ledger_hash := u "sha256:ee";
     plan_h3 := {| cp_evidence_ledger_hash := Some (u "sha256:ee");
                   cp_approved_scope := [u "apps/web/**"]; cp_max_globs := 1;
                   cp_max_files := 5; cp_max_lines := 100 |};
     plan_hypotheses := [(u "low", [u "ev-1"])]; plan_patch_units := [u "pu-1"];
     plan_dump := [(u "plan_id", PStr (u "p1"))] |}.

Definition demo_hash : pystr :=
  Eval vm_compute in match compute_contract_hash (plan_dump demo_plan) with Ok h => h | Raise _ => [] end.

Definition decision_by (who : string) : ApprovalDecision :=
  {| ad_contract_hash := demo_hash; ad_approver_actor_id := u who; ad_decision := approved;
     ad_decided_at := u "2026-07-14T00:00:00Z" |}.

Definition open_gate : PolicyGateClient := fun _ =>
  Ok {| gd_allow := true; gd_reasons := []; gd_require_two_person := false |}.
Definition down_gate : PolicyGateClient := fun _ => Raise tt.

Definition propose_by (who : string) : request :=
  Propose acme (Some demo_plan) (Some (u who)) (u "t0") 0.
Definition approve_by (who : string) : request :=
  Submit open_gate acme demo_hash (Some (decision_by who)) (u "t1") 1.

Definition run (qs : list request) : World := serve_all qs (initial_world (H1 := list_port) []).
Definition state_after (qs : list request) : option PlanState :=
  tget (states (w_repo (run qs))) acme demo_hash.
Definition executable_after (qs : list request) : bool :=
  is_ok (execution_check acme demo_hash (run qs)).2.

Lemma execution_requires_quorum_witness :
  exists f, w_facts (run [propose_by "alice"; approve_by "Bob"]) !! (acme, demo_hash) = Some f /\
    pf_proposer_actor_id f <> [] /\
    quorum (h7_required (pf_high_risk f)) (pf_proposer_actor_id f)
      (approvals_on acme demo_hash (w_repo (run [propose_by "alice"; approve_by "Bob"]))).
Proof.
  assert (executable_after [propose_by "alice"; approve_by "Bob"] = true) as Hok
    by (vm_compute; reflexivity).
  unfold executable_after in Hok.
  destruct (execution_check acme demo_hash (run _)) as [w' [[]|e]] eqn:E; [|discriminate Hok].
  exact (execution_requires_quorum _ _ _ _ _ E).
Defined.

Lemma settled_until_reproposed_witness :
  tget (states (w_repo (serve (run [propose_by "alice"; approve_by "Bob"])
    (Expire acme demo_hash None (u "t2"))))) acme demo_hash = Some APPROVED.
Proof.
  assert (state_after [propose_by "alice"; approve_by "Bob"] = Some APPROVED) as Hs
    by (vm_compute; reflexivity).
  refine (settled_until_reproposed [propose_by "alice"; approve_by "Bob"] []
            (Expire acme demo_hash None (u "t2")) acme demo_hash APPROVED _ _ Hs); [reflexivity|left].
Defined.

Lemma gate_fail_closed_witness :
  exists w', submit_decision down_gate acme demo_hash (Some (decision_by "bob")) (u "t") 1
      (run [propose_by "alice"]) = (w', Raise PolicyGateUnavailableError) /\
    w_repo w' = w_repo (run [propose_by "alice"]).
Proof.
  assert (match (submit_decision down_gate acme demo_hash (Some (decision_by "bob")) (u "t") 1
      (run [propose_by "alice"])).2 with Raise PolicyGateUnavailableError => true | _ => false end = true)
    as Hr by (vm_compute; reflexivity).
  destruct (submit_decision _ _ _ _ _ _ _) as [w' r] eqn:E.
  exists w'. split; [by destruct r as [|[]]|].
  refine (proj1 (gate_fail_closed down_gate _ _ _ _ _ _ _ _ _ E)). intros req gd Hg. discriminate Hg.
Defined.



(** Proposing the same document again reopens a settled plan and replaces its
    proposer: an expired plan returns to WAITING_APPROVAL, and once somebody
    else has proposed it, its author can approve it alone. *)
Lemma repropose_reopens_and_launders :
  state_after [propose_by "alice"; Expire acme demo_hash None (u "t1")] = Some EXPIRED /\
  state_after [propose_by "alice"; Expire acme demo_hash None (u "t1"); propose_by "mallory"]
    = Some WAITING_APPROVAL /\
  executable_after [propose_by "alice"; approve_by "alice"] = false /\
  executable_after [propose_by "alice"; propose_by "mallory"; approve_by "alice"] = true.
Proof. vm_compute. repeat split. Qed.

(** An expired plan is proposed again by somebody else: it waits for approval
    under the new proposer. *)
Lemma proposal_resets_witness :
  state_after [propose_by "alice"; Expire acme demo_hash None (u "t1")] = Some EXPIRED /\
  exists w' h s f,
    propose_plan acme (Some demo_plan) (Some (u "mallory")) (u "t0") 0
      (run [propose_by "alice"; Expire acme demo_hash None (u "t1")]) = (w', Ok (h, s)) /\
    s = WAITING_APPROVAL /\ w_facts w' !! (acme, h) = Some f /\ pf_proposer_actor_id f = u "mallory".
Proof.
  split; [vm_compute; reflexivity|].
  assert (is_ok (propose_plan acme (Some demo_plan) (Some (u "mallory")) (u "t0") 0
    (run [propose_by "alice"; Expire acme demo_hash None (u "t1")])).2 = true) as Hok
    by (vm_compute; reflexivity).
  destruct (propose_plan _ _ _ _ _ _) as [w' [[h s]|e]] eqn:E; [|discriminate Hok].
  destruct (proposal_resets _ _ _ _ _ _ _ _ _ E) as (plan & f & _ & _ & _ & Hs & _ & Hf & Ha & _).
  exists w', h, s, f. split; [reflexivity|]. split; [exact Hs|]. split; [exact Hf|].
  injection Ha as Ha. symmetry. exact Ha.
Defined.
End Witness.
