(* ===== verification/Matching.v ===== *)
(** Maximum bipartite matching by augmenting paths, as [_max_independent_layers]
    of measurement/b_gate.py computes it: for each left vertex in turn, a
    depth-first search that re-matches along alternating paths, with one visited
    set per search.  The graph is an adjacency function; the matching maps a
    right vertex to its left vertex.

    The search recurses to a depth bounded by the number of right vertices,
    since each call marks a new one as visited; [match_all] runs it with one
    more than that, and the lemmas show the bound is never reached. *)

From S2P Require Import Prelude.
From stdpp Require Import fin_sets.

Section matching.
Context {L B : Type} `{EqDecision L} `{Countable B}.
Context (adj : L -> list B).

Abbreviation matching := (gmap B L).

(** The loop of [augment] over the neighbours of [layer]; [rec] is the
    recursive call. *)
Fixpoint try_bases (rec : L -> gset B -> matching -> bool * gset B * matching)
    (layer : L) (bases : list B) (visited : gset B) (basis_match : matching)
    : bool * gset B * matching :=
  match bases with
  | [] => (false, visited, basis_match)
  | basis :: rest =>
      if bool_decide (basis ∈ visited) then try_bases rec layer rest visited basis_match
      else
        let visited := {[ basis ]} ∪ visited in
        match basis_match !! basis with
        | None => (true, visited, <[basis := layer]> basis_match)
        | Some other =>
            match rec other visited basis_match with
            | (true, visited', basis_match') => (true, visited', <[basis := layer]> basis_match')
            | (false, visited', basis_match') =>
                try_bases rec layer rest visited' basis_match'
            end
        end
  end.

Fixpoint augment (fuel : nat) (layer : L) (visited : gset B) (basis_match : matching)
    : bool * gset B * matching :=
  match fuel with
  | 0 => (false, visited, basis_match)
  | S fuel' => try_bases (augment fuel') layer (adj layer) visited basis_match
  end.

Definition match_layer (fuel : nat) (basis_match : matching) (layer : L) : matching :=
  (augment fuel layer ∅ basis_match).2.

Definition match_all (fuel : nat) (layers : list L) : matching :=
  fold_left (match_layer fuel) layers ∅.

(** ** Validity *)

Definition edges_ok (m : matching) : Prop := forall b l, m !! b = Some l -> b ∈ adj l.

(** [m] matches no left vertex twice, except [l] through a visited vertex. *)
Definition injective_but (l : L) (visited : gset B) (m : matching) : Prop :=
  forall b1 b2 x, m !! b1 = Some x -> m !! b2 = Some x -> b1 <> b2 ->
    x = l /\ (b1 ∈ visited \/ b2 ∈ visited).

Definition injective (m : matching) : Prop :=
  forall b1 b2 x, m !! b1 = Some x -> m !! b2 = Some x -> b1 = b2.

Definition matched (m : matching) (l : L) : Prop := exists b, m !! b = Some l.

(** A closed set of right vertices: all matched, and the neighbours of their
    partners stay inside. *)
Definition closed (m : matching) (V : gset B) : Prop :=
  forall b, b ∈ V -> exists x, m !! b = Some x /\ forall c, c ∈ adj x -> c ∈ V.

(** What a search that succeeded did. *)
Record augmented (l : L) (visited : gset B) (m m' : matching) : Prop := {
  aug_edges : edges_ok m';
  aug_inj : injective_but l visited m';
  aug_visited b : b ∈ visited -> m' !! b = m !! b;
  aug_new : exists b, (b ∉ visited) /\ m' !! b = Some l;
  aug_matched x : matched m' x <-> matched m x \/ x = l;
  aug_closed V : closed m V -> ~ (forall c, c ∈ adj l -> c ∈ V) /\
                 forall b, b ∈ V -> m' !! b = m !! b
}.

(** Re-matching the visited vertex [b] to [l] after its old partner found
    another vertex. *)
Lemma augmented_step l other b visited m m' :
  injective m -> b ∈ adj l -> b ∉ visited -> m !! b = Some other -> ~ matched m l \/ (exists c, c ∈ visited /\ m !! c = Some l) ->
  augmented other ({[ b ]} ∪ visited) m m' -> augmented l visited m (<[b := l]> m').
Proof.
  intros Hinj Hb Hvis Hbo Hl [He Hi Hv Hn Hm Hc].
  assert (other <> l) as Hne.
  { intros ->. destruct Hl as [Hl|(c & Hcv & Hcl)]; [apply Hl; by exists b|].
    by rewrite (Hinj _ _ _ Hbo Hcl) in Hvis. }
  split.
  - intros c x. rewrite lookup_insert_Some. intros [[<- <-]|[_ Hx]]; [done|by apply He].
  - intros b1 b2 x. rewrite !lookup_insert_Some.
    intros [[<- <-]|[Hb1 Hx1]] [[<- E]|[Hb2 Hx2]] Hb12; try done; subst.
    + destruct Hl as [Hl|(c & Hcv & Hcl)].
      * exfalso. assert (matched m' l) as Hml by (by exists b2).
        apply Hm in Hml as [?|?]; congruence.
      * destruct (decide (b2 = c)) as [->|Hbc]; [by auto|].
        assert (m' !! c = Some l) as Hcl' by (rewrite Hv by set_solver; done).
        destruct (Hi _ _ _ Hx2 Hcl' Hbc) as [-> _]. done.
    + destruct Hl as [Hl|(c & Hcv & Hcl)].
      * exfalso. assert (matched m' x) as Hml by (by exists b1).
        apply Hm in Hml as [?|?]; congruence.
      * destruct (decide (b1 = c)) as [->|Hbc]; [by auto|].
        assert (m' !! c = Some x) as Hcl' by (rewrite Hv by set_solver; done).
        destruct (Hi _ _ _ Hx1 Hcl' Hbc) as [-> _]. done.
    + destruct (Hi _ _ _ Hx1 Hx2 Hb12) as [-> Hin]. exfalso.
      assert (forall c, c ≠ b -> c ∈ {[ b ]} ∪ visited -> m' !! c = Some other -> False) as Hno.
      { intros c Hcb Hcin Hco. rewrite Hv in Hco by done. by apply Hcb, (Hinj _ _ _ Hco Hbo). }
      destruct Hin as [Hin|Hin]; [apply (Hno b1)|apply (Hno b2)]; auto using not_eq_sym.
  - intros c Hcv. rewrite lookup_insert_ne by set_solver. apply Hv. set_solver.
  - exists b. by rewrite lookup_insert_eq.
  - intros x. split.
    + intros (c & [[<- <-]|[_ Hx]]%lookup_insert_Some); [by right|].
      assert (matched m' x) as [?|<-]%Hm by (by exists c); [by left|].
      left. by exists b.
    + intros [Hx| ->]; [|exists b; by rewrite lookup_insert_eq].
      destruct (decide (x = other)) as [->|Hxo].
      * destruct Hn as (c & Hc' & Hco). exists c. rewrite lookup_insert_ne by set_solver. done.
      * assert (matched m' x) as (c & Hcx) by (apply Hm; by left).
        exists c. rewrite lookup_insert_ne; [done|]. intros <-.
        rewrite Hv in Hcx by set_solver. congruence.
  - intros V HV. destruct (Hc V HV) as [Hsub Hsame].
    assert (b ∉ V) as HbV.
    { intros Hin. destruct (HV b Hin) as (x & Hx & Hadj). rewrite Hbo in Hx. by injection Hx as <-. }
    split; [by eauto|]. intros c Hcv. rewrite lookup_insert_ne by set_solver. by apply Hsame.
Qed.

(** Matching [l] to a free vertex. *)
Lemma augmented_free l b visited m :
  edges_ok m -> injective m -> b ∈ adj l -> b ∉ visited -> m !! b = None ->
  ~ matched m l \/ (exists c, c ∈ visited /\ m !! c = Some l) ->
  augmented l visited m (<[b := l]> m).
Proof.
  intros He Hinj Hb Hvis Hnone Hl. split.
  - intros c x. rewrite lookup_insert_Some. intros [[<- <-]|[_ Hx]]; [done|by apply He].
  - intros b1 b2 x. rewrite !lookup_insert_Some.
    intros [[<- <-]|[Hb1 Hx1]] [[<- E]|[Hb2 Hx2]] Hb12; try done; subst.
    + destruct Hl as [Hl|(c & Hcv & Hcl)]; [exfalso; apply Hl; by exists b2|].
      rewrite (Hinj _ _ _ Hx2 Hcl). by auto.
    + destruct Hl as [Hl|(c & Hcv & Hcl)]; [exfalso; apply Hl; by exists b1|].
      rewrite (Hinj _ _ _ Hx1 Hcl). by auto.
    + by destruct Hb12; eapply Hinj.
  - intros c Hcv. by rewrite lookup_insert_ne by set_solver.
  - exists b. by rewrite lookup_insert_eq.
  - intros x. split.
    + intros (c & [[<- <-]|[_ Hx]]%lookup_insert_Some); [by right|]. left. by exists c.
    + intros [(c & Hc)| ->]; [|exists b; by rewrite lookup_insert_eq].
      exists c. rewrite lookup_insert_ne; [done|]. congruence.
  - intros V HV. assert (b ∉ V) as HbV.
    { intros Hin. destruct (HV b Hin) as (x & Hx & _). congruence. }
    split; [by eauto|]. intros c Hcv. by rewrite lookup_insert_ne by set_solver.
Qed.

(** [l] is unmatched, or matched to a vertex already visited. *)
Definition search_from (l : L) (visited : gset B) (m : matching) : Prop :=
  ~ matched m l \/ exists c, c ∈ visited /\ m !! c = Some l.

Lemma search_from_mono l v v' m : v ⊆ v' -> search_from l v m -> search_from l v' m.
Proof. intros Hv [?|(c & ? & ?)]; [by left|right; exists c; set_solver]. Qed.

Lemma augmented_weaken l v v' m m' :
  injective m -> search_from l v m -> v ⊆ v' -> augmented l v' m m' -> augmented l v m m'.
Proof.
  intros Hinj Hl Hsub [He Hi Hv Hn Hm Hc]. split; try done.
  - intros b1 b2 x Hx1 Hx2 Hb. destruct (Hi _ _ _ Hx1 Hx2 Hb) as [-> Hin]. split; [done|].
    assert (forall b, b ∈ v' -> m' !! b = Some l -> b ∈ v) as Hback.
    { intros b Hbv Hbl. rewrite Hv in Hbl by done.
      destruct Hl as [Hl|(c & Hcv & Hcl)]; [exfalso; apply Hl; by exists b|].
      by rewrite (Hinj _ _ _ Hbl Hcl). }
    destruct Hin; [left|right]; by apply Hback.
  - intros b Hb. apply Hv. set_solver.
  - destruct Hn as (b & ? & ?). exists b. set_solver.
Qed.

(** What a search that failed leaves behind: the matching as it was, and a
    visited set that is closed over what it added and contains [bases]. *)
Definition exhausted (bases : list B) (visited v : gset B) (m m' : matching) : Prop :=
  m' = m /\ visited ⊆ v /\ (forall c, c ∈ bases -> c ∈ v) /\
  (forall b, b ∈ v -> b ∉ visited -> exists x, m !! b = Some x /\ forall c, c ∈ adj x -> c ∈ v).

Definition search_spec (l : L) (bases : list B) (visited : gset B) (m : matching)
    (r : bool * gset B * matching) : Prop :=
  match r with
  | (true, _, m') => augmented l visited m m'
  | (false, v, m') => exhausted bases visited v m m'
  end.

(** Visiting a vertex of a finite set leaves fewer to visit. *)
Lemma size_visit (U v : gset B) b :
  b ∈ U -> b ∉ v -> size (U ∖ ({[b]} ∪ v)) < size (U ∖ v).
Proof.
  intros HbU Hbv. apply subset_size. split; [set_solver|].
  intros Hs. specialize (Hs b). set_solver.
Qed.

Lemma size_visited (U v v' : gset B) : v ⊆ v' -> size (U ∖ v') <= size (U ∖ v).
Proof. intros Hv. apply subseteq_size. set_solver. Qed.

Context (U : gset B) (HU : forall l b, b ∈ adj l -> b ∈ U).

Lemma try_bases_spec fuel l bases visited m :
  (forall other v, size (U ∖ v) < fuel -> search_from other v m ->
     search_spec other (adj other) v m (augment fuel other v m)) ->
  edges_ok m -> injective m -> (forall b, b ∈ bases -> b ∈ adj l) ->
  size (U ∖ visited) < S fuel -> search_from l visited m ->
  search_spec l bases visited m (try_bases (augment fuel) l bases visited m).
Proof.
  intros IH He Hinj. revert visited.
  induction bases as [|b rest IHr]; intros visited Hadj Hfuel Hl; cbn [try_bases].
  { split; [done|]. split; [done|]. split; [by intros c ?%elem_of_nil|done]. }
  assert (forall c, c ∈ rest -> c ∈ adj l) as Hrest by (intros; apply Hadj; by right).
  case_bool_decide as Hvis.
  { specialize (IHr visited Hrest Hfuel Hl). unfold search_spec in *.
    destruct (try_bases _ _ _ _ _) as [[[] v] m']; [done|].
    destruct IHr as (? & ? & Hin & ?). split; [done|]. split; [done|]. split; [|done].
    intros c [->|Hc]%elem_of_cons; [clear IH; set_solver|by apply Hin]. }
  assert (b ∈ U) as HbU by (eapply HU, Hadj; left).
  destruct (m !! b) as [other|] eqn:Eb; [|apply augmented_free; try done; apply Hadj; left].
  assert (size (U ∖ ({[b]} ∪ visited)) < fuel) as Hfuel'.
  { pose proof (size_visit U visited b HbU Hvis). lia. }
  assert (search_from other ({[b]} ∪ visited) m) as Ho.
  { right. exists b. split; [|done]. apply elem_of_union_l, elem_of_singleton. done. }
  specialize (IH _ _ Hfuel' Ho). unfold search_spec in IH.
  destruct (augment _ _ _ _) as [[[] v] m'].
  { apply augmented_step with other; try done. apply Hadj. left. }
  destruct IH as (-> & Hsub & Hadjo & Hcl).
  assert (b ∈ v /\ visited ⊆ v) as [Hbv Hsub'] by (clear -Hsub; set_solver).
  assert (size (U ∖ v) < S fuel) as Hfuel2 by (pose proof (size_visited U _ _ Hsub'); lia).
  assert (search_from l v m) as Hl' by (by eapply search_from_mono).
  specialize (IHr v Hrest Hfuel2 Hl'). unfold search_spec in *.
  destruct (try_bases _ _ _ _ _) as [[[] v2] m2].
  { by eapply augmented_weaken. }
  destruct IHr as (-> & Hsub2 & Hin2 & Hcl2). split; [done|]. split; [by etrans|]. split.
  - intros c [->|Hc]%elem_of_cons; [by apply Hsub2|by apply Hin2].
  - intros c Hcv Hnv. destruct (decide (c ∈ v)) as [Hcv1|]; [|by apply Hcl2].
    destruct (decide (c = b)) as [->|Hcb].
    + exists other. split; [done|]. intros c' Hc'. by apply Hsub2, Hadjo.
    + destruct (Hcl c Hcv1) as (x & Hx & Hxadj);
        [by intros [?%elem_of_singleton|?]%elem_of_union|]. exists x. split; [done|].
      intros c' Hc'. by apply Hsub2, Hxadj.
Qed.

(** The fuel is enough when it exceeds the number of unvisited vertices. *)
Lemma augment_spec fuel l visited m :
  edges_ok m -> injective m -> size (U ∖ visited) < fuel -> search_from l visited m ->
  search_spec l (adj l) visited m (augment fuel l visited m).
Proof.
  intros He Hinj. revert l visited. induction fuel as [|fuel IH]; intros l visited Hf Hl; [lia|].
  apply try_bases_spec; auto.
Qed.

(** ** The matching after the first layers *)

Record matched_so_far (done : list L) (m : matching) : Prop := {
  msf_edges : edges_ok m;
  msf_inj : injective m;
  msf_done l : matched m l -> l ∈ done;
  msf_closed : exists V, closed m V /\
    forall l, l ∈ done -> ~ matched m l -> forall c, c ∈ adj l -> c ∈ V
}.

Lemma matched_so_far_nil : matched_so_far [] ∅.
Proof.
  split.
  - intros b l. by rewrite lookup_empty.
  - intros b1 b2 x. by rewrite lookup_empty.
  - intros l (b & Hb). by rewrite lookup_empty in Hb.
  - exists ∅. split; [intros b; set_solver|]. by intros l ?%elem_of_nil.
Qed.

Lemma matched_so_far_step fuel ls l m :
  size U < fuel -> l ∉ ls -> matched_so_far ls m ->
  matched_so_far (ls ++ [l]) (match_layer fuel m l).
Proof.
  intros Hf Hl [He Hinj Hd (V & HV & Hun)].
  assert (~ matched m l) as Hnm by (intros ?; by apply Hl, Hd).
  pose proof (augment_spec fuel l ∅ m He Hinj) as Hs. unfold match_layer, search_spec in *.
  destruct (augment fuel l ∅ m) as [[[] v] m']; cbn [snd].
  - destruct Hs as [He' Hi Hv Hn Hm Hc]; [by rewrite difference_empty_L|by left|].
    destruct (Hc V HV) as [_ Hsame]. split.
    + done.
    + intros b1 b2 x Hx1 Hx2. destruct (decide (b1 = b2)) as [|Hne]; [done|].
      destruct (Hi _ _ _ Hx1 Hx2 Hne) as [_ [Hin|Hin]]; set_solver.
    + intros x [Hx| ->]%Hm; rewrite elem_of_app; [left; by apply Hd|right; by left].
    + exists V. split.
      * intros b Hb. rewrite Hsame by done. by apply HV.
      * intros x Hx Hnx. rewrite elem_of_app, list_elem_of_singleton in Hx.
        destruct Hx as [Hx| ->]; [|exfalso; apply Hnx, Hm; by right].
        apply Hun; [done|]. intros Hmx. apply Hnx, Hm. by left.
  - destruct Hs as (-> & _ & Hin & Hcl); [by rewrite difference_empty_L|by left|]. split; try done.
    + intros x Hx. rewrite elem_of_app. left. by apply Hd.
    + exists (V ∪ v). split.
      * intros b [Hb|Hb]%elem_of_union; [destruct (HV b Hb) as (x & ? & ?)|
          destruct (Hcl b Hb) as (x & ? & ?); [set_solver|]]; exists x; set_solver.
      * intros x Hx Hnx c Hc. rewrite elem_of_app, list_elem_of_singleton in Hx.
        apply elem_of_union. destruct Hx as [Hx| ->]; [left; by eapply Hun|right; by apply Hin].
Qed.

Lemma match_all_so_far fuel ls :
  size U < fuel -> NoDup ls -> matched_so_far ls (match_all fuel ls).
Proof.
  intros Hf. induction ls as [|l ls IH] using rev_ind; intros Hnd; [apply matched_so_far_nil|].
  apply NoDup_app in Hnd as (Hnd & Hdis & _).
  unfold match_all. rewrite fold_left_app. cbn.
  apply matched_so_far_step; [done| |by apply IH]. intros Hl. by apply (Hdis l Hl), list_elem_of_singleton.
Qed.

(** ** Maximality *)

(** A matching as a list of edges. *)
Definition independent (edges : list (L * B)) : Prop := NoDup edges.*1 /\ NoDup edges.*2.

(** Where an edge of another matching goes in ours. *)
Lemma edge_image (ls : list L) m V e :
  (forall l, l ∈ ls -> ~ matched m l -> forall c, c ∈ adj l -> c ∈ V) ->
  closed m V -> e.1 ∈ ls -> e.2 ∈ adj e.1 ->
  exists b, is_Some (m !! b) /\
    (e.2 ∈ V /\ b = e.2 \/ (e.2 ∉ V) /\ m !! b = Some e.1 /\ b ∉ V).
Proof.
  intros Hun HV Hl Hadj. destruct (decide (e.2 ∈ V)) as [Hin|Hin].
  - exists e.2. destruct (HV _ Hin) as (x & Hx & _). split; [by eexists|by left].
  - assert (~ ~ matched m e.1) as Hm by (intros Hn; by eapply Hin, Hun).
    assert (matched m e.1 \/ ~ matched m e.1) as [(b & Hb)|?]; [|exists b|done].
    { destruct (decide (Exists (fun bl => bl.2 = e.1) (map_to_list m))) as [Hd|Hd].
      - left. apply Exists_exists in Hd as ([b x] & Hin' & Hx). cbn in Hx. subst x.
        exists b. by apply elem_of_map_to_list.
      - right. intros (b & Hb). apply Hd, Exists_exists. exists (b, e.1).
        by rewrite elem_of_map_to_list. }
    split; [by eexists|]. right. split; [done|]. split; [done|]. intros HbV.
    destruct (HV _ HbV) as (x & Hx & Hsub). rewrite Hb in Hx. injection Hx as <-. by apply Hin, Hsub.
Qed.

Lemma independent_le ls m edges :
  matched_so_far ls m -> independent edges ->
  (forall e, e ∈ edges -> e.1 ∈ ls /\ e.2 ∈ adj e.1) -> length edges <= size (dom m).
Proof.
  intros [_ Hinj _ (V & HV & Hun)] [Hn1 Hn2] Hedges.
  assert (exists bs, NoDup bs /\ length bs = length edges /\ (forall b, b ∈ bs -> b ∈ dom m) /\
    forall b, b ∈ bs -> exists e, e ∈ edges /\
      (e.2 ∈ V /\ b = e.2 \/ (e.2 ∉ V) /\ m !! b = Some e.1 /\ b ∉ V)) as (bs & Hnd & <- & Hdom & _).
  { induction edges as [|e edges IH].
    { exists []. split; [apply NoDup_nil_2|]. split; [done|]. split; by intros b ?%elem_of_nil. }
    apply NoDup_cons in Hn1 as [He1 Hn1]. apply NoDup_cons in Hn2 as [He2 Hn2].
    destruct IH as (bs & Hnd & Hlen & Hdom & Him); [done..|intros; apply Hedges; by right|].
    destruct (Hedges e) as [Hl Hadj]; [left|].
    destruct (edge_image ls m V e Hun HV Hl Hadj) as (b & Hb & Hcase).
    exists (b :: bs). split; [|split; [|split]].
    - apply NoDup_cons. split; [|done]. intros Hbin. destruct (Him b Hbin) as (e' & He' & Hcase').
      destruct Hcase as [[HV1 ->]|(HV1 & Hm1 & HbV)], Hcase' as [[HV2 E]|(HV2 & Hm2 & HbV2)].
      + apply He2. rewrite E. by apply list_elem_of_fmap_2.
      + done.
      + by subst.
      + apply He1. rewrite Hm1 in Hm2. injection Hm2 as ->. by apply list_elem_of_fmap_2.
    - cbn. by rewrite Hlen.
    - intros c [->|Hc]%elem_of_cons; [by apply elem_of_dom|by apply Hdom].
    - intros c [->|Hc]%elem_of_cons; [exists e; by split; [left|]|].
      destruct (Him c Hc) as (e' & ? & ?). exists e'. split; [by right|done]. }
  change (length bs <= length (elements (dom m))).
  apply submseteq_length, NoDup_submseteq; [done|]. intros b Hb. by apply elem_of_elements, Hdom.
Qed.

(** The matched left vertices, once each. *)
Definition matched_layers (m : matching) : list L := (map_to_list m).*2.

Lemma matched_layers_spec ls m :
  matched_so_far ls m ->
  NoDup (matched_layers m) /\ length (matched_layers m) = size (dom m) /\
  exists edges, independent edges /\ edges.*1 = matched_layers m /\
    forall e, e ∈ edges -> e.1 ∈ ls /\ e.2 ∈ adj e.1.
Proof.
  intros [He Hinj Hd _]. unfold matched_layers.
  assert (NoDup (map_to_list m).*2) as Hnd.
  { apply NoDup_fmap_2_strong; [|apply NoDup_map_to_list].
    intros [b1 x1] [b2 x2] H1%elem_of_map_to_list H2%elem_of_map_to_list. cbn. intros ->.
    by rewrite (Hinj _ _ _ H1 H2). }
  split; [done|]. split; [by rewrite length_fmap, length_map_to_list, size_dom|].
  exists ((fun bl => (bl.2, bl.1)) <$> map_to_list m).
  split; [split|split].
  - by rewrite <- list_fmap_compose.
  - rewrite <- list_fmap_compose. apply NoDup_fst_map_to_list.
  - by rewrite <- list_fmap_compose.
  - intros e ([b x] & -> & Hb%elem_of_map_to_list)%list_elem_of_fmap. cbn.
    split; [apply Hd; by exists b|by apply He].
Qed.
End matching.
