(* ===== verification/BGate.v ===== *)
(** The B-layer success gate (measurement/b_gate.py, outcome_layer.py,
    reason_codes.py): signals are classified, the independent qualifying layers
    are counted by a maximum matching between layers and evidence bases, and the
    verdict is PASS, FAIL or UNDETERMINED. *)

From Stdlib Require Import SpecFloat.
From S2P Require Import Prelude.
From S2P Require Import PyStr.
From S2P Require Import PyVal.
From S2P Require Import Matching.

(** ** outcome_layer.py, reason_codes.py *)

Inductive OutcomeLayer := DISCOVERY | CITATION | ABSORPTION | PROMINENCE | REFERRAL.

Definition layer_value (l : OutcomeLayer) : pystr :=
  match l with
  | DISCOVERY => u "discovery" | CITATION => u "citation" | ABSORPTION => u "absorption"
  | PROMINENCE => u "prominence" | REFERRAL => u "referral"
  end.

Definition all_layers : list OutcomeLayer := [DISCOVERY; CITATION; ABSORPTION; PROMINENCE; REFERRAL].

Inductive ReasonCode :=
  | MISSING_BASELINE | MISSING_CONTROL | TREATMENT_CONTROL_CONTAMINATION
  | POST_REGISTRATION_METRIC_MUTATION | CELL_MISMATCH | INSUFFICIENT_REPEATS
  | DEPLOYMENT_UNCONFIRMED | DEPLOYMENT_LATE | MISSING_RAW_EVIDENCE_REF | ASSET_HASH_CONFLICT
  | SINGLE_LAYER_ONLY | NO_CONTROL_ADJUSTED_LIFT | NEGATIVE_OR_INCONCLUSIVE_LIFT
  | NON_FINITE_INPUT | WINDOW_INCOMPLETE | OBSERVATION_ADAPTER_DRIFT | GRS_POLICY_MISSING
  | EVIDENCE_HASH_MISMATCH | CONFLICTING_CONFIRMATION | IDENTITY_MISMATCH
  | DUPLICATE_EVIDENCE_BASIS.

Definition code_value (c : ReasonCode) : pystr :=
  match c with
  | MISSING_BASELINE => u "missing_baseline"
  | MISSING_CONTROL => u "missing_control"
  | TREATMENT_CONTROL_CONTAMINATION => u "treatment_control_contamination"
  | POST_REGISTRATION_METRIC_MUTATION => u "post_registration_metric_mutation"
  | CELL_MISMATCH => u "cell_mismatch"
  | INSUFFICIENT_REPEATS => u "insufficient_repeats"
  | DEPLOYMENT_UNCONFIRMED => u "deployment_unconfirmed"
  | DEPLOYMENT_LATE => u "deployment_late"
  | MISSING_RAW_EVIDENCE_REF => u "missing_raw_evidence_ref"
  | ASSET_HASH_CONFLICT => u "asset_hash_conflict"
  | SINGLE_LAYER_ONLY => u "single_layer_only"
  | NO_CONTROL_ADJUSTED_LIFT => u "no_control_adjusted_lift"
  | NEGATIVE_OR_INCONCLUSIVE_LIFT => u "negative_or_inconclusive_lift"
  | NON_FINITE_INPUT => u "non_finite_input"
  | WINDOW_INCOMPLETE => u "window_incomplete"
  | OBSERVATION_ADAPTER_DRIFT => u "observation_adapter_drift"
  | GRS_POLICY_MISSING => u "grs_policy_missing"
  | EVIDENCE_HASH_MISMATCH => u "evidence_hash_mismatch"
  | CONFLICTING_CONFIRMATION => u "conflicting_confirmation"
  | IDENTITY_MISMATCH => u "identity_mismatch"
  | DUPLICATE_EVIDENCE_BASIS => u "duplicate_evidence_basis"
  end.

Definition all_codes : list ReasonCode :=
  [MISSING_BASELINE; MISSING_CONTROL; TREATMENT_CONTROL_CONTAMINATION;
   POST_REGISTRATION_METRIC_MUTATION; CELL_MISMATCH; INSUFFICIENT_REPEATS;
   DEPLOYMENT_UNCONFIRMED; DEPLOYMENT_LATE; MISSING_RAW_EVIDENCE_REF; ASSET_HASH_CONFLICT;
   SINGLE_LAYER_ONLY; NO_CONTROL_ADJUSTED_LIFT; NEGATIVE_OR_INCONCLUSIVE_LIFT; NON_FINITE_INPUT;
   WINDOW_INCOMPLETE; OBSERVATION_ADAPTER_DRIFT; GRS_POLICY_MISSING; EVIDENCE_HASH_MISMATCH;
   CONFLICTING_CONFIRMATION; IDENTITY_MISMATCH; DUPLICATE_EVIDENCE_BASIS].

#[export] Instance OutcomeLayer_eq_dec : EqDecision OutcomeLayer.
Proof. solve_decision. Defined.
#[export] Instance ReasonCode_eq_dec : EqDecision ReasonCode.
Proof. solve_decision. Defined.

(** The position of a member in its enumeration. *)
Fixpoint index_of {A} `{EqDecision A} (x : A) (l : list A) : nat :=
  match l with [] => 0 | y :: l' => if decide (x = y) then 0 else S (index_of x l') end.

#[export, refine] Instance OutcomeLayer_countable : Countable OutcomeLayer :=
  inj_countable (fun l => index_of l all_layers) (fun n => all_layers !! n) _.
Proof. by intros []. Defined.
#[export, refine] Instance ReasonCode_countable : Countable ReasonCode :=
  inj_countable (fun c => index_of c all_codes) (fun n => all_codes !! n) _.
Proof. by intros []. Defined.

(** ** b_gate.py: data *)

Inductive BVerdict := PASS | FAIL | UNDETERMINED.
Inductive PolicyProvenance := PRODUCTION | TEST_FIXTURE.

#[export] Instance PolicyProvenance_eq_dec : EqDecision PolicyProvenance.
Proof. solve_decision. Defined.

Record GatePolicy := { gp_version : pystr; gp_hash : pystr; gp_provenance : PolicyProvenance }.

Record SignalResult := {
  layer : OutcomeLayer;
  evidence_basis_id : pystr;
  treatment_raw_delta : f64;
  control_raw_delta : f64;
  net_of_control_lift : f64;
  has_control_adjusted_lift : bool;
  sufficient_data : bool;
  has_raw_evidence_ref : bool
}.

Record EvidenceCheck := { manifest_hash_ok : bool; raw_refs_present : bool }.

Record WindowState := {
  complete : bool; deployment_confirmed : bool; deployment_late : bool; contamination : bool;
  adapter_drift : bool; missing_baseline : bool; missing_control : bool; insufficient_repeats : bool
}.

Record BGateDecision := {
  verdict : BVerdict;
  reason_codes : list ReasonCode;
  raw_view : list OutcomeLayer;
  control_adjusted_view : list OutcomeLayer;
  qualifying_layers : list OutcomeLayer;
  confidence : f64;
  policy_version : pystr;
  policy_hash : pystr;
  policy_provenance : PolicyProvenance;
  is_production : bool
}.

(** ** Operations *)

Definition f64_zero : f64 := exist _ (S754_zero false) eq_refl.
Definition f64_one : f64 := exist _ (S754_finite false 4503599627370496 (-52)) eq_refl.

(** [x > y] on floats: false when either is NaN. *)
Definition f64_gt (x y : f64) : bool := SFltb (proj1_sig y) (proj1_sig x).

Definition MIN_NET_LIFT : f64 := f64_zero.
Definition MIN_INDEPENDENT_LAYERS : nat := 2.

Definition sorted_codes (codes : gset ReasonCode) : list ReasonCode :=
  sort_by code_value (elements codes).
Definition sorted_layers (layers : gset OutcomeLayer) : list OutcomeLayer :=
  sort_by layer_value (elements layers).

Definition signal_is_finite (s : SignalResult) : bool :=
  is_finite_f64 (treatment_raw_delta s) && is_finite_f64 (control_raw_delta s)
  && is_finite_f64 (net_of_control_lift s).

Definition adjacency (edges : gset (OutcomeLayer * pystr)) (l : OutcomeLayer) : list pystr :=
  sort_by id (filter (fun e => e.1 = l) (elements edges)).*2.

Definition max_independent_layers (edges : gset (OutcomeLayer * pystr)) : list OutcomeLayer :=
  let layers := sorted_layers (list_to_set (elements edges).*1) in
  let bases : gset pystr := list_to_set (elements edges).*2 in
  let basis_match := match_all (adjacency edges) (S (size bases)) layers in
  sorted_layers (list_to_set (matched_layers basis_match)).

(** The sets the loop over the signals builds. *)
Record Accumulated := {
  acc_codes : gset ReasonCode;
  acc_raw : gset OutcomeLayer;
  acc_edges : gset (OutcomeLayer * pystr);
  acc_control : gset OutcomeLayer;
  acc_seen : gset pystr
}.

Definition code_when (b : bool) (c : ReasonCode) (codes : gset ReasonCode) : gset ReasonCode :=
  if b then {[ c ]} ∪ codes else codes.

(** One iteration of the loop. *)
Definition classify (a : Accumulated) (s : SignalResult) : Accumulated :=
  if negb (signal_is_finite s) then
    {| acc_codes := {[ NON_FINITE_INPUT ]} ∪ acc_codes a; acc_raw := acc_raw a;
       acc_edges := acc_edges a; acc_control := acc_control a; acc_seen := acc_seen a |}
  else
    let raw := if f64_gt (treatment_raw_delta s) f64_zero
               then {[ layer s ]} ∪ acc_raw a else acc_raw a in
    let codes := code_when (bool_decide (evidence_basis_id s ∈ acc_seen a))
                   DUPLICATE_EVIDENCE_BASIS (acc_codes a) in
    let seen := {[ evidence_basis_id s ]} ∪ acc_seen a in
    let codes := code_when (negb (sufficient_data s)) INSUFFICIENT_REPEATS codes in
    let codes := code_when (negb (has_raw_evidence_ref s)) MISSING_RAW_EVIDENCE_REF codes in
    if negb (has_control_adjusted_lift s) then
      {| acc_codes := {[ NO_CONTROL_ADJUSTED_LIFT ]} ∪ codes; acc_raw := raw;
         acc_edges := acc_edges a; acc_control := acc_control a; acc_seen := seen |}
    else if negb (f64_gt (net_of_control_lift s) MIN_NET_LIFT) then
      {| acc_codes := {[ NEGATIVE_OR_INCONCLUSIVE_LIFT ]} ∪ codes; acc_raw := raw;
         acc_edges := acc_edges a; acc_control := acc_control a; acc_seen := seen |}
    else
      {| acc_codes := codes; acc_raw := raw;
         acc_edges := if negb (sufficient_data s) || negb (has_raw_evidence_ref s)
                      then acc_edges a
                      else {[ (layer s, evidence_basis_id s) ]} ∪ acc_edges a;
         acc_control := {[ layer s ]} ∪ acc_control a; acc_seen := seen |}.

Definition classify_all (ss : list SignalResult) : Accumulated :=
  fold_left classify ss
    {| acc_codes := ∅; acc_raw := ∅; acc_edges := ∅; acc_control := ∅; acc_seen := ∅ |}.

(** The codes the evidence check and the window state add. *)
Definition integrity_codes (e : EvidenceCheck) (w : WindowState) (codes : gset ReasonCode)
    : gset ReasonCode :=
  code_when (insufficient_repeats w) INSUFFICIENT_REPEATS
  (code_when (missing_control w) MISSING_CONTROL
  (code_when (missing_baseline w) MISSING_BASELINE
  (code_when (adapter_drift w) OBSERVATION_ADAPTER_DRIFT
  (code_when (contamination w) TREATMENT_CONTROL_CONTAMINATION
  (code_when (deployment_late w) DEPLOYMENT_LATE
  (code_when (negb (deployment_confirmed w)) DEPLOYMENT_UNCONFIRMED
  (code_when (negb (complete w)) WINDOW_INCOMPLETE
  (code_when (negb (raw_refs_present e)) MISSING_RAW_EVIDENCE_REF
  (code_when (negb (manifest_hash_ok e)) EVIDENCE_HASH_MISMATCH codes))))))))).

Definition undetermined_codes : gset ReasonCode := list_to_set
  [NON_FINITE_INPUT; EVIDENCE_HASH_MISMATCH; MISSING_RAW_EVIDENCE_REF; WINDOW_INCOMPLETE;
   DEPLOYMENT_UNCONFIRMED; DEPLOYMENT_LATE; TREATMENT_CONTROL_CONTAMINATION;
   OBSERVATION_ADAPTER_DRIFT; MISSING_BASELINE; MISSING_CONTROL; INSUFFICIENT_REPEATS].

Definition decide_b_verdict (per_signal_results : list SignalResult)
    (evidence_check : EvidenceCheck) (window_state : WindowState) (policy : GatePolicy)
    : BGateDecision :=
  let a := classify_all per_signal_results in
  let qualifying := max_independent_layers (acc_edges a) in
  let codes := integrity_codes evidence_check window_state (acc_codes a) in
  let _decide v conf codes :=
    {| verdict := v; reason_codes := sorted_codes codes;
       raw_view := sorted_layers (acc_raw a);
       control_adjusted_view := sorted_layers (acc_control a);
       qualifying_layers := qualifying; confidence := conf;
       policy_version := gp_version policy; policy_hash := gp_hash policy;
       policy_provenance := gp_provenance policy;
       is_production := bool_decide (gp_provenance policy = PRODUCTION) |} in
  if bool_decide (codes ∩ undetermined_codes <> ∅) then _decide UNDETERMINED f64_zero codes
  else
    let n := length qualifying in
    if MIN_INDEPENDENT_LAYERS <=? n then _decide PASS f64_one codes
    else if n =? 1 then _decide FAIL f64_zero ({[ SINGLE_LAYER_ONLY ]} ∪ codes)
    else _decide FAIL f64_zero (if bool_decide (codes = ∅) then {[ SINGLE_LAYER_ONLY ]} else codes).

(** ** Lemmas *)

Lemma layer_value_inj l1 l2 : layer_value l1 = layer_value l2 -> l1 = l2.
Proof. destruct l1, l2; (reflexivity || (intros H; vm_compute in H; discriminate H)). Qed.

Lemma code_value_inj c1 c2 : code_value c1 = code_value c2 -> c1 = c2.
Proof. intros H. destruct c1, c2; (reflexivity || (exfalso; vm_compute in H; discriminate H)). Qed.

Lemma elem_of_sorted_layers l ls : l ∈ sorted_layers ls <-> l ∈ ls.
Proof. unfold sorted_layers. by rewrite elem_of_sort_by, elem_of_elements. Qed.

Lemma elem_of_sorted_codes c cs : c ∈ sorted_codes cs <-> c ∈ cs.
Proof. unfold sorted_codes. by rewrite elem_of_sort_by, elem_of_elements. Qed.

Lemma NoDup_sorted_layers ls : NoDup (sorted_layers ls).
Proof. unfold sorted_layers. rewrite sort_by_Permutation. apply NoDup_elements. Qed.

Section edges.
Context (edges : gset (OutcomeLayer * pystr)).

Lemma elem_of_adjacency l b : b ∈ adjacency edges l <-> (l, b) ∈ edges.
Proof.
  unfold adjacency. rewrite elem_of_sort_by, list_elem_of_fmap. split.
  - intros ([l' b'] & -> & [Hl Hin%elem_of_elements]%list_elem_of_filter). by cbn in Hl; subst.
  - intros Hin. exists (l, b). split; [done|]. apply list_elem_of_filter.
    split; [done|]. by apply elem_of_elements.
Qed.

Definition edge_layers : list OutcomeLayer := sorted_layers (list_to_set (elements edges).*1).
Definition edge_bases : gset pystr := list_to_set (elements edges).*2.
Definition the_matching : gmap pystr OutcomeLayer :=
  match_all (adjacency edges) (S (size edge_bases)) edge_layers.

Lemma the_matching_so_far : matched_so_far (adjacency edges) edge_layers the_matching.
Proof.
  apply match_all_so_far with edge_bases.
  - intros l b Hb%elem_of_adjacency. apply elem_of_list_to_set, list_elem_of_fmap.
    exists (l, b). split; [done|]. by apply elem_of_elements.
  - lia.
  - apply NoDup_sorted_layers.
Qed.

Lemma max_independent_layers_Permutation :
  max_independent_layers edges ≡ₚ matched_layers the_matching.
Proof.
  unfold max_independent_layers, sorted_layers. rewrite sort_by_Permutation.
  apply elements_list_to_set. eapply matched_layers_spec, the_matching_so_far.
Qed.

(** An independent choice of edges: distinct layers and distinct bases. *)
Definition independent_edges (es : list (OutcomeLayer * pystr)) : Prop :=
  independent es /\ forall e, e ∈ es -> e ∈ edges.

Lemma max_independent_layers_attained :
  exists es, independent_edges es /\ es.*1 ≡ₚ max_independent_layers edges.
Proof.
  destruct (matched_layers_spec _ _ _ the_matching_so_far) as (_ & _ & es & Hi & Hl & He).
  exists es. split; [split; [done|]|].
  - intros [l b] Hin. destruct (He _ Hin) as [_ Ha]. by apply elem_of_adjacency.
  - by rewrite max_independent_layers_Permutation, Hl.
Qed.

Lemma max_independent_layers_maximum es :
  independent_edges es -> length es <= length (max_independent_layers edges).
Proof.
  intros [Hi He]. rewrite max_independent_layers_Permutation.
  destruct (matched_layers_spec _ _ _ the_matching_so_far) as (_ & -> & _).
  apply (independent_le _ _ _ _ the_matching_so_far Hi).
  intros [l b] Hin. apply He in Hin. cbn. split; [|by apply elem_of_adjacency].
  apply elem_of_sorted_layers, elem_of_list_to_set, list_elem_of_fmap.
  exists (l, b). split; [done|]. by apply elem_of_elements.
Qed.
End edges.

(** ** What the loop computes *)

Definition positive_lift (s : SignalResult) : bool :=
  has_control_adjusted_lift s && f64_gt (net_of_control_lift s) f64_zero.

Definition qualifies (s : SignalResult) : bool :=
  signal_is_finite s && positive_lift s && sufficient_data s && has_raw_evidence_ref s.

Definition finite_signals (ss : list SignalResult) : list SignalResult :=
  filter (fun s => signal_is_finite s = true) ss.

(** When the loop records a code. *)
Definition signal_code (ss : list SignalResult) (c : ReasonCode) : Prop :=
  match c with
  | NON_FINITE_INPUT => exists s, s ∈ ss /\ signal_is_finite s = false
  | DUPLICATE_EVIDENCE_BASIS => ~ NoDup (evidence_basis_id <$> finite_signals ss)
  | INSUFFICIENT_REPEATS => exists s, s ∈ finite_signals ss /\ sufficient_data s = false
  | MISSING_RAW_EVIDENCE_REF => exists s, s ∈ finite_signals ss /\ has_raw_evidence_ref s = false
  | NO_CONTROL_ADJUSTED_LIFT =>
      exists s, s ∈ finite_signals ss /\ has_control_adjusted_lift s = false
  | NEGATIVE_OR_INCONCLUSIVE_LIFT =>
      exists s, s ∈ finite_signals ss /\ has_control_adjusted_lift s = true /\
        f64_gt (net_of_control_lift s) f64_zero = false
  | _ => False
  end.

Record loop_spec (ss : list SignalResult) (a : Accumulated) : Prop := {
  ls_codes c : c ∈ acc_codes a <-> signal_code ss c;
  ls_raw l : l ∈ acc_raw a <->
    exists s, s ∈ finite_signals ss /\ f64_gt (treatment_raw_delta s) f64_zero = true /\ layer s = l;
  ls_edges e : e ∈ acc_edges a <->
    exists s, s ∈ ss /\ qualifies s = true /\ (layer s, evidence_basis_id s) = e;
  ls_control l : l ∈ acc_control a <->
    exists s, s ∈ finite_signals ss /\ positive_lift s = true /\ layer s = l;
  ls_seen b : b ∈ acc_seen a <-> b ∈ evidence_basis_id <$> finite_signals ss
}.

Lemma elem_of_code_when b c c' cs : c ∈ code_when b c' cs <-> (b = true /\ c = c') \/ c ∈ cs.
Proof. unfold code_when. destruct b; set_solver. Qed.

Lemma finite_signals_snoc ss s :
  finite_signals (ss ++ [s]) =
  finite_signals ss ++ (if signal_is_finite s then [s] else []).
Proof.
  unfold finite_signals. rewrite filter_app. f_equal.
  rewrite filter_cons. case_decide as E; [by rewrite E|].
  apply Bool.not_true_is_false in E. by rewrite E.
Qed.

Lemma exists_snoc (ss more : list SignalResult) (P : SignalResult -> Prop) :
  (exists x, x ∈ ss ++ more /\ P x) <-> (exists x, x ∈ ss /\ P x) \/ (exists x, x ∈ more /\ P x).
Proof. setoid_rewrite elem_of_app. naive_solver. Qed.

Lemma exists_one (s : SignalResult) (P : SignalResult -> Prop) :
  (exists x, x ∈ [s] /\ P x) <-> P s.
Proof. setoid_rewrite list_elem_of_singleton. naive_solver. Qed.

Lemma exists_none (P : SignalResult -> Prop) : (exists x, x ∈ [] /\ P x) <-> False.
Proof. setoid_rewrite elem_of_nil. naive_solver. Qed.

(** The codes one signal adds; [dup] says that its basis was seen before. *)
Definition step_code (dup : Prop) (s : SignalResult) (c : ReasonCode) : Prop :=
  match c with
  | NON_FINITE_INPUT => signal_is_finite s = false
  | DUPLICATE_EVIDENCE_BASIS => signal_is_finite s = true /\ dup
  | INSUFFICIENT_REPEATS => signal_is_finite s = true /\ sufficient_data s = false
  | MISSING_RAW_EVIDENCE_REF => signal_is_finite s = true /\ has_raw_evidence_ref s = false
  | NO_CONTROL_ADJUSTED_LIFT => signal_is_finite s = true /\ has_control_adjusted_lift s = false
  | NEGATIVE_OR_INCONCLUSIVE_LIFT => signal_is_finite s = true /\
      has_control_adjusted_lift s = true /\ f64_gt (net_of_control_lift s) f64_zero = false
  | _ => False
  end.

Lemma signal_code_snoc ss s c :
  signal_code (ss ++ [s]) c <->
  signal_code ss c \/
  step_code (evidence_basis_id s ∈ evidence_basis_id <$> finite_signals ss) s c.
Proof.
  destruct c; cbn [signal_code step_code]; rewrite ?finite_signals_snoc, ?exists_snoc;
    try (destruct (signal_is_finite s); rewrite ?exists_one, ?exists_none; naive_solver).
  - rewrite exists_one. done.
  - destruct (signal_is_finite s); rewrite ?app_nil_r; [|naive_solver].
    rewrite fmap_app, NoDup_app. cbn.
    destruct (decide (NoDup (evidence_basis_id <$> finite_signals ss))) as [Hd|Hd]; [|tauto].
    destruct (decide (evidence_basis_id s ∈ evidence_basis_id <$> finite_signals ss)) as [Hin|Hin].
    + split; [by right|]. intros _ (_ & Hdis & _). by apply (Hdis _ Hin), list_elem_of_singleton.
    + split; [|naive_solver]. intros Hn. exfalso. apply Hn. split; [done|].
      split; [|apply NoDup_singleton]. intros x Hx ->%list_elem_of_singleton. done.
Qed.

Lemma classify_finite a s :
  signal_is_finite s = true ->
  (forall c, c ∈ acc_codes (classify a s) <->
     c ∈ acc_codes a \/ step_code (evidence_basis_id s ∈ acc_seen a) s c) /\
  acc_raw (classify a s) =
    (if f64_gt (treatment_raw_delta s) f64_zero then {[ layer s ]} ∪ acc_raw a else acc_raw a) /\
  acc_edges (classify a s) =
    (if qualifies s then {[ (layer s, evidence_basis_id s) ]} ∪ acc_edges a else acc_edges a) /\
  acc_control (classify a s) =
    (if positive_lift s then {[ layer s ]} ∪ acc_control a else acc_control a) /\
  acc_seen (classify a s) = {[ evidence_basis_id s ]} ∪ acc_seen a.
Proof.
  intros Hf. unfold classify, qualifies, positive_lift, step_code. change MIN_NET_LIFT with f64_zero. rewrite Hf.
  destruct (has_control_adjusted_lift s); cbn [negb andb];
    [destruct (f64_gt (net_of_control_lift s) f64_zero); cbn [negb andb]|];
    (split; [intros c; cbn [acc_codes]; rewrite ?elem_of_union, ?elem_of_singleton, !elem_of_code_when;
             rewrite bool_decide_eq_true;
             destruct c, (sufficient_data s), (has_raw_evidence_ref s); cbn [negb];
             intuition congruence|]);
    (split; [done|]); (split; [destruct (sufficient_data s), (has_raw_evidence_ref s); done|]); done.
Qed.

Lemma classify_all_spec ss : loop_spec ss (classify_all ss).
Proof.
  unfold classify_all. induction ss as [|s ss IH] using rev_ind.
  - split; cbn; intros x; rewrite elem_of_empty.
    + split; [done|]. intros Hx. destruct x; cbn in Hx; try done;
        try (destruct Hx as (? & ?%elem_of_nil & _); done). apply Hx, NoDup_nil_2.
    + by rewrite exists_none.
    + by rewrite exists_none.
    + by rewrite exists_none.
    + split; [done|by intros ?%elem_of_nil].
  - rewrite fold_left_app. cbn [fold_left]. set (a := fold_left classify ss _) in *.
    destruct IH as [Hc Hr He Hct Hs].
    destruct (signal_is_finite s) eqn:Ef.
    + destruct (classify_finite a s Ef) as (Hc' & Hr' & He' & Hct' & Hs').
      split; intros x; rewrite ?finite_signals_snoc, ?Ef, ?exists_snoc, ?exists_one.
      * rewrite Hc', Hc, signal_code_snoc. unfold step_code. destruct x; by rewrite ?Hs.
      * rewrite Hr', <- Hr. destruct (f64_gt _ _); set_solver.
      * rewrite He', <- He. destruct (qualifies s); set_solver.
      * rewrite Hct', <- Hct. destruct (positive_lift s); set_solver.
      * rewrite Hs', fmap_app, elem_of_app, <- Hs. cbn. rewrite list_elem_of_singleton. set_solver.
    + assert (qualifies s = false) as Eq by (unfold qualifies; by rewrite Ef).
      unfold classify. rewrite Ef. cbn [negb].
      split; intros x; cbn [acc_codes acc_raw acc_edges acc_control acc_seen];
        rewrite ?finite_signals_snoc, ?Ef, ?app_nil_r, ?exists_snoc, ?exists_one; try done.
      * rewrite elem_of_union, elem_of_singleton, Hc, signal_code_snoc. unfold step_code.
        destruct x; rewrite ?Ef; intuition congruence.
      * rewrite He, Eq. naive_solver.
Qed.

(** ** The verdict *)

(** Every input is sufficient and intact. *)
Record sound (ss : list SignalResult) (e : EvidenceCheck) (w : WindowState) : Prop := {
  snd_manifest : manifest_hash_ok e = true;
  snd_refs : raw_refs_present e = true;
  snd_complete : complete w = true;
  snd_confirmed : deployment_confirmed w = true;
  snd_late : deployment_late w = false;
  snd_contamination : contamination w = false;
  snd_drift : adapter_drift w = false;
  snd_baseline : missing_baseline w = false;
  snd_control : missing_control w = false;
  snd_repeats : insufficient_repeats w = false;
  snd_signals s : s ∈ ss -> signal_is_finite s = true /\ sufficient_data s = true /\
                            has_raw_evidence_ref s = true
}.

(** Two signals that qualify on different layers and different evidence. *)
Definition two_independent (ss : list SignalResult) : Prop :=
  exists s1 s2, s1 ∈ ss /\ s2 ∈ ss /\ qualifies s1 = true /\ qualifies s2 = true /\
    layer s1 <> layer s2 /\ evidence_basis_id s1 <> evidence_basis_id s2.

Definition all_decision_codes (ss : list SignalResult) (e : EvidenceCheck) (w : WindowState)
    : gset ReasonCode := integrity_codes e w (acc_codes (classify_all ss)).

Lemma elem_of_finite_signals s ss : s ∈ finite_signals ss <-> s ∈ ss /\ signal_is_finite s = true.
Proof. unfold finite_signals. rewrite list_elem_of_filter. tauto. Qed.

Lemma elem_of_decision_codes ss e w c :
  c ∈ all_decision_codes ss e w <->
  signal_code ss c \/
  match c with
  | INSUFFICIENT_REPEATS => insufficient_repeats w = true
  | MISSING_CONTROL => missing_control w = true
  | MISSING_BASELINE => missing_baseline w = true
  | OBSERVATION_ADAPTER_DRIFT => adapter_drift w = true
  | TREATMENT_CONTROL_CONTAMINATION => contamination w = true
  | DEPLOYMENT_LATE => deployment_late w = true
  | DEPLOYMENT_UNCONFIRMED => deployment_confirmed w = false
  | WINDOW_INCOMPLETE => complete w = false
  | MISSING_RAW_EVIDENCE_REF => raw_refs_present e = false
  | EVIDENCE_HASH_MISMATCH => manifest_hash_ok e = false
  | _ => False
  end.
Proof.
  unfold all_decision_codes, integrity_codes. rewrite !elem_of_code_when.
  rewrite (ls_codes _ _ (classify_all_spec ss)), !not_true_iff.
  destruct c; intuition congruence.
Qed.

Lemma undetermined_iff ss e w :
  all_decision_codes ss e w ∩ undetermined_codes = ∅ <-> sound ss e w.
Proof.
  assert (forall c, c ∈ undetermined_codes <-> bool_decide (c ∈ undetermined_codes) = true) as Hdec
    by (intros; by rewrite bool_decide_eq_true).
  split.
  - intros Hempty.
    assert (forall c, bool_decide (c ∈ undetermined_codes) = true ->
      ~ c ∈ all_decision_codes ss e w) as Hno.
    { intros c Hc%Hdec Hin. eapply (not_elem_of_empty (C:=gset ReasonCode) c).
      rewrite <- Hempty. by apply elem_of_intersection. }
    pose proof (fun c Hc Hin => Hno c Hc (proj2 (elem_of_decision_codes ss e w c) Hin)) as Hn.
    split; try (apply Bool.not_false_iff_true; intros Hb); try (apply Bool.not_true_iff_false; intros Hb).
    + apply (Hn EVIDENCE_HASH_MISMATCH); [by vm_compute|by right].
    + apply (Hn MISSING_RAW_EVIDENCE_REF); [by vm_compute|by right].
    + apply (Hn WINDOW_INCOMPLETE); [by vm_compute|by right].
    + apply (Hn DEPLOYMENT_UNCONFIRMED); [by vm_compute|by right].
    + apply (Hn DEPLOYMENT_LATE); [by vm_compute|by right].
    + apply (Hn TREATMENT_CONTROL_CONTAMINATION); [by vm_compute|by right].
    + apply (Hn OBSERVATION_ADAPTER_DRIFT); [by vm_compute|by right].
    + apply (Hn MISSING_BASELINE); [by vm_compute|by right].
    + apply (Hn MISSING_CONTROL); [by vm_compute|by right].
    + apply (Hn INSUFFICIENT_REPEATS); [by vm_compute|by right].
    + intros s Hs. destruct (signal_is_finite s) eqn:Ef.
      2: { exfalso. apply (Hn NON_FINITE_INPUT); [by vm_compute|]. left. by exists s. }
      assert (s ∈ finite_signals ss) as Hfs by by apply elem_of_finite_signals.
      destruct (sufficient_data s) eqn:E1.
      2: { exfalso. apply (Hn INSUFFICIENT_REPEATS); [by vm_compute|]. left. by exists s. }
      destruct (has_raw_evidence_ref s) eqn:E2; [done|].
      exfalso. apply (Hn MISSING_RAW_EVIDENCE_REF); [by vm_compute|]. left. by exists s.
  - intros []. apply set_eq. intros c. rewrite elem_of_intersection, elem_of_decision_codes.
    split; [|set_solver]. intros [Hc Hu%Hdec]. exfalso.
    destruct c; try (by vm_compute in Hu); cbn in Hc;
      repeat match goal with
      | Hc : _ \/ _ |- _ => destruct Hc as [Hc|Hc]
      | Hc : exists s, s ∈ finite_signals ss /\ _ |- _ =>
          destruct Hc as (s & [Hs _]%elem_of_finite_signals & Hc);
          destruct (snd_signals0 s Hs) as (? & ? & ?)
      | Hc : exists s, s ∈ ss /\ _ |- _ =>
          destruct Hc as (s & Hs & Hc); destruct (snd_signals0 s Hs) as (? & ? & ?)
      end; congruence.
Qed.

Lemma two_independent_iff ss :
  2 <= length (max_independent_layers (acc_edges (classify_all ss))) <-> two_independent ss.
Proof.
  set (edges := acc_edges (classify_all ss)).
  pose proof (ls_edges _ _ (classify_all_spec ss)) as He. fold edges in He. split.
  - destruct (max_independent_layers_attained edges) as (es & [[Hn1 Hn2] Hin] & Hp).
    rewrite <- Hp, length_fmap. intros Hlen.
    destruct es as [|[l1 b1] [|[l2 b2] es]]; [cbn in Hlen; lia..|].
    cbn in Hn1, Hn2. apply NoDup_cons in Hn1 as [Hl _]. apply NoDup_cons in Hn2 as [Hb _].
    destruct (proj1 (He (l1, b1))) as (s1 & ? & ? & [= <- <-]); [apply Hin; left|].
    destruct (proj1 (He (l2, b2))) as (s2 & ? & ? & [= <- <-]); [apply Hin; right; left|].
    exists s1, s2. rewrite not_elem_of_cons in Hl. rewrite not_elem_of_cons in Hb. naive_solver.
  - intros (s1 & s2 & Hs1 & Hs2 & Hq1 & Hq2 & Hl & Hb).
    apply (max_independent_layers_maximum edges
      [(layer s1, evidence_basis_id s1); (layer s2, evidence_basis_id s2)]).
    split; [split; cbn; apply NoDup_cons; (split; [|apply NoDup_singleton]);
      by rewrite list_elem_of_singleton|].
    intros e [-> | Hin]%elem_of_cons; [|apply list_elem_of_singleton in Hin as ->]; apply He; [by exists s1|by exists s2].
Qed.

Lemma verdict_cases ss e w p :
  (sound ss e w /\ two_independent ss /\ verdict (decide_b_verdict ss e w p) = PASS) \/
  (sound ss e w /\ ~ two_independent ss /\ verdict (decide_b_verdict ss e w p) = FAIL) \/
  (~ sound ss e w /\ verdict (decide_b_verdict ss e w p) = UNDETERMINED).
Proof.
  unfold decide_b_verdict. fold (all_decision_codes ss e w). cbn zeta.
  destruct (decide (all_decision_codes ss e w ∩ undetermined_codes = ∅)) as [Hu|Hu].
  - rewrite bool_decide_false by naive_solver. apply undetermined_iff in Hu.
    pose proof (two_independent_iff ss) as H2. change MIN_INDEPENDENT_LAYERS with 2.
    set (n := length _) in *. destruct (2 <=? n) eqn:En.
    + left. apply Nat.leb_le in En. split; [done|]. split; [by apply H2|done].
    + right. left. apply Nat.leb_gt in En. split; [done|]. split; [intros ?%H2; lia|].
      by destruct (n =? 1).
  - rewrite bool_decide_true by done. right. right. split; [|done].
    by intros ?%undetermined_iff.
Qed.

(** Permuting the signals changes none of the sets the loop builds. *)
Lemma classify_all_Permutation ss ss' :
  ss ≡ₚ ss' ->
  acc_codes (classify_all ss) = acc_codes (classify_all ss') /\
  acc_raw (classify_all ss) = acc_raw (classify_all ss') /\
  acc_edges (classify_all ss) = acc_edges (classify_all ss') /\
  acc_control (classify_all ss) = acc_control (classify_all ss').
Proof.
  intros Hp. destruct (classify_all_spec ss) as [Hc Hr He Hct _].
  destruct (classify_all_spec ss') as [Hc' Hr' He' Hct' _].
  assert (finite_signals ss ≡ₚ finite_signals ss') as Hfp by (unfold finite_signals; by rewrite Hp).
  repeat split; apply set_eq; intros x;
    rewrite ?Hc, ?Hc', ?Hr, ?Hr', ?He, ?He', ?Hct, ?Hct'.
  - destruct x; cbn; try done; by setoid_rewrite Hfp || by setoid_rewrite Hp.
  - by setoid_rewrite Hfp.
  - by setoid_rewrite Hp.
  - by setoid_rewrite Hfp.
Qed.

(** ** The properties of the gate *)

(** C23: the verdict is exact.  UNDETERMINED precisely when some input is
    insufficient or broken (a flag of the evidence check or the window, a
    non-finite, insufficient or unreferenced signal); otherwise PASS precisely
    when two signals with strictly positive net-of-control lift come from
    different layers and different evidence; otherwise FAIL. *)
Theorem verdict_exact ss e w p :
  let d := decide_b_verdict ss e w p in
  (verdict d = UNDETERMINED <-> ~ sound ss e w) /\
  (verdict d = PASS <-> sound ss e w /\ two_independent ss) /\
  (verdict d = FAIL <-> sound ss e w /\ ~ two_independent ss) /\
  (is_production d = true <-> gp_provenance p = PRODUCTION).
Proof.
  intros d. assert (is_production d = bool_decide (gp_provenance p = PRODUCTION)) as ->.
  { unfold d, decide_b_verdict. cbn zeta. by repeat case_match. }
  rewrite bool_decide_eq_true. subst d.
  destruct (verdict_cases ss e w p) as [(? & ? & ->)|[(? & ? & ->)|(? & ->)]]; naive_solver.
Qed.

(** C24: the count of independent layers is the maximum: the layers returned are
    those of a choice of qualifying edges no two of which share a layer or an
    evidence basis, and no such choice is larger. *)
Theorem independent_layers_maximum edges :
  NoDup (max_independent_layers edges) /\
  (exists es, independent_edges edges es /\ es.*1 ≡ₚ max_independent_layers edges) /\
  (forall es, independent_edges edges es -> length es <= length (max_independent_layers edges)).
Proof.
  split; [apply NoDup_sorted_layers|]. split; [apply max_independent_layers_attained|].
  apply max_independent_layers_maximum.
Qed.

(** The decision does not depend on the order of the signals: permuting them
    gives the same decision, field by field. *)
Theorem verdict_order_invariant ss ss' e w p :
  ss ≡ₚ ss' -> decide_b_verdict ss e w p = decide_b_verdict ss' e w p.
Proof.
  intros Hp. destruct (classify_all_Permutation ss ss' Hp) as (Hc & Hr & He & Hct).
  unfold decide_b_verdict. by rewrite Hc, Hr, He, Hct.
Qed.

(** Raw growth alone never counts.  A layer is in the control-adjusted view
    exactly when one of its finite signals has a strictly positive lift net of
    control, in the raw view exactly when one moved in the treatment arm, and
    every qualifying layer has a finite, sufficient, referenced signal of
    positive net lift, hence is in the control-adjusted view. *)
Theorem views_exact ss e w p l :
  let d := decide_b_verdict ss e w p in
  (l ∈ raw_view d <-> exists s, s ∈ finite_signals ss /\
     f64_gt (treatment_raw_delta s) f64_zero = true /\ layer s = l) /\
  (l ∈ control_adjusted_view d <-> exists s, s ∈ finite_signals ss /\
     positive_lift s = true /\ layer s = l) /\
  (l ∈ qualifying_layers d ->
     l ∈ control_adjusted_view d /\ exists s, s ∈ ss /\ qualifies s = true /\ layer s = l).
Proof.
  intros d. destruct (classify_all_spec ss) as [_ Hr He Hct _].
  assert (raw_view d = sorted_layers (acc_raw (classify_all ss)) /\
    control_adjusted_view d = sorted_layers (acc_control (classify_all ss)) /\
    qualifying_layers d = max_independent_layers (acc_edges (classify_all ss))) as (-> & -> & ->).
  { unfold d, decide_b_verdict. cbn zeta. by repeat case_match. }
  rewrite !elem_of_sorted_layers, Hr, Hct. split; [done|]. split; [done|]. intros Hq.
  destruct (max_independent_layers_attained (acc_edges (classify_all ss))) as (es & [_ Hes] & Hp).
  rewrite <- Hp in Hq. apply list_elem_of_fmap in Hq as ([l' b] & -> & Hin).
  apply Hes, He in Hin as (s & Hs & Hqs & [= <- <-]). cbn. split; [|by exists s].
  exists s. unfold qualifies in Hqs. rewrite !andb_true_iff in Hqs.
  destruct Hqs as (((? & ?) & ?) & ?). split; [by apply elem_of_finite_signals|done].
Qed.

Module Witness.
Definition signal (l : OutcomeLayer) (basis : string) (net : f64) : SignalResult :=
  {| layer := l; evidence_basis_id := u basis; treatment_raw_delta := f64_one;
     control_raw_delta := f64_zero; net_of_control_lift := net;
     has_control_adjusted_lift := true; sufficient_data := true; has_raw_evidence_ref := true |}.

Definition intact : EvidenceCheck := {| manifest_hash_ok := true; raw_refs_present := true |}.
Definition elapsed : WindowState :=
  {| complete := true; deployment_confirmed := true; deployment_late := false;
     contamination := false; adapter_drift := false; missing_baseline := false;
     missing_control := false; insufficient_repeats := false |}.
Definition policy_1 : GatePolicy :=
  {| gp_version := u "1"; gp_hash := u "h"; gp_provenance := TEST_FIXTURE |}.

(** The case a greedy assignment decides by input order. *)
Definition shared : list SignalResult :=
  [signal CITATION "b1" f64_one; signal CITATION "b2" f64_one; signal DISCOVERY "b1" f64_one].

Lemma verdict_order_invariant_witness :
  decide_b_verdict shared intact elapsed policy_1 =
  decide_b_verdict (reverse shared) intact elapsed policy_1.
Proof.
  refine (verdict_order_invariant shared (reverse shared) intact elapsed policy_1 _).
  symmetry. apply reverse_Permutation.
Defined.

Example shared_passes : verdict (decide_b_verdict shared intact elapsed policy_1) = PASS.
Proof. vm_compute. reflexivity. Qed.
Example raw_only_fails : verdict (decide_b_verdict [signal CITATION "b1" f64_zero] intact elapsed
  policy_1) = FAIL.
Proof. vm_compute. reflexivity. Qed.
End Witness.
