(* ===== verification/Identity.v ===== *)
(** Tenant identity (src/packages/domain/src/saena_domain/identity): the tenant
    id value object and its namespace, the gated tenant context, the actor
    context, the header/environment reconciliation of requests, the bound
    tenant of an execution, and the tenant repository of persistence/memory.py.

    The generated pydantic models are records of the fields the wrappers read;
    their own validation is not modelled. *)

From S2P Require Import Prelude.
From S2P Require Import PyStr.
From S2P Require Import Regex.
From S2P Require Import AuditChain.

(** ** errors.py *)

Inductive identity_exn :=
  | InvalidTenantIdError (echoed : pystr)
  | NamespaceDerivationError
  | NamespaceMismatchError (expected actual : pystr)
  | TenantSuspendedError
  | TenantTerminatingError
  | EngineScopeError (engine_id : pystr)
  | TenantMismatchError (left_value right_value : option pystr)
  | UnboundTenantContextError
  | ActorTenantRequiredError
  | TenantNotFoundError
  | ContextTenantValueError
  | PayloadValidationError.

(** ** tenant.py *)

Definition _NAMESPACE_PREFIX : pystr := u "saena-tenant-".
Definition _MAX_NAMESPACE_LENGTH : nat := 63.
Definition _ECHO_TRUNCATE_LENGTH : nat := 64.
Definition _ALLOWED_ENGINE_SCOPE : list pystr := [u "chatgpt-search"].

Definition truncate_for_echo (value : pystr) : pystr :=
  if length value <=? _ECHO_TRUNCATE_LENGTH then value
  else take _ECHO_TRUNCATE_LENGTH value ++ u "...<truncated, "
         ++ str_of_Z (Z.of_nat (length value)) ++ u " chars total>".

(** [TenantId(value)]; the value object is its string. *)
Definition make_TenantId (value : pystr) : result identity_exn pystr :=
  if re_fullmatch TenantId_re value then Ok value
  else Raise (InvalidTenantIdError (truncate_for_echo value)).

Definition derive_namespace (tenant_id : pystr) : result identity_exn pystr :=
  tid ← make_TenantId tenant_id;
  let namespace := _NAMESPACE_PREFIX ++ tid in
  if _MAX_NAMESPACE_LENGTH <? length namespace then Raise NamespaceDerivationError
  else Ok namespace.

(** [Status], the closed enumeration of the generated model, and its values. *)
Inductive Status := active | suspended | terminating.
#[export] Instance Status_eq_dec : EqDecision Status.
Proof. solve_decision. Defined.

Definition status_value (s : Status) : pystr :=
  match s with active => u "active" | suspended => u "suspended" | terminating => u "terminating" end.

(** The generated [TenantContext] model. *)
Record TenantContextModel := {
  tc_tenant_id : pystr; tc_namespace : pystr; tc_isolation_profile : pystr;
  tc_status : Status; tc_engine_scope : list pystr
}.

Definition validate_namespace (context : TenantContextModel) : result identity_exn unit :=
  expected ← derive_namespace (tc_tenant_id context);
  raise_if (bool_decide (tc_namespace context <> expected))
    (NamespaceMismatchError expected (tc_namespace context)).

(** [TenantContext(model)]: the wrapper exists only past its gates. *)
Definition make_TenantContext (model : TenantContextModel) : result identity_exn TenantContextModel :=
  _ ← validate_namespace model;
  _ ← raise_if (bool_decide (tc_status model = terminating)) TenantTerminatingError;
  _ ← raise_if (bool_decide (tc_status model = suspended)) TenantSuspendedError;
  Ok model.

(** A raw payload: the model before its validation, the status as on the wire. *)
Record TenantPayload := {
  tp_tenant_id : pystr; tp_namespace : pystr; tp_isolation_profile : pystr;
  tp_status : pystr; tp_engine_scope : list pystr
}.

Definition model_dump (m : TenantContextModel) : TenantPayload :=
  {| tp_tenant_id := tc_tenant_id m; tp_namespace := tc_namespace m;
     tp_isolation_profile := tc_isolation_profile m; tp_status := status_value (tc_status m);
     tp_engine_scope := tc_engine_scope m |}.

(** [TenantContextModel.model_validate]: of the validation, the one field that
    the sources rewrite on a stored payload. *)
Definition parse_status (s : pystr) : option Status :=
  find (fun x => bool_decide (status_value x = s)) [active; suspended; terminating].

Definition model_validate (p : TenantPayload) : result identity_exn TenantContextModel :=
  match parse_status (tp_status p) with
  | None => Raise PayloadValidationError
  | Some st =>
      Ok {| tc_tenant_id := tp_tenant_id p; tc_namespace := tp_namespace p;
            tc_isolation_profile := tp_isolation_profile p; tc_status := st;
            tc_engine_scope := tp_engine_scope p |}
  end.

(** [TenantContext.from_payload] *)
Definition from_payload (payload : TenantPayload) : result identity_exn TenantContextModel :=
  model ← model_validate payload; make_TenantContext model.

Definition require_engine (context : TenantContextModel) (engine_id : pystr) : result identity_exn unit :=
  _ ← raise_if (bool_decide (engine_id ∉ _ALLOWED_ENGINE_SCOPE)) (EngineScopeError engine_id);
  raise_if (bool_decide (engine_id ∉ tc_engine_scope context)) (EngineScopeError engine_id).

(** ** actor.py *)

Inductive ActorType := human | system_actor.
#[export] Instance ActorType_eq_dec : EqDecision ActorType.
Proof. solve_decision. Defined.

Record ActorContextModel := {
  ac_actor_id : pystr; ac_actor_type : ActorType; ac_session_id : pystr;
  ac_tenant_id : option pystr
}.

Definition make_ActorContext (model : ActorContextModel) : result identity_exn ActorContextModel :=
  _ ← raise_if (bool_decide (ac_actor_type model = human) && bool_decide (ac_tenant_id model = None))
        ActorTenantRequiredError;
  Ok model.

Definition actor_idempotency_key (a : ActorContextModel) : pystr * pystr :=
  (ac_actor_id a, ac_session_id a).

(** ** http.py *)

Definition falsy (o : option pystr) : bool :=
  match o with None | Some [] => true | _ => false end.

Definition reconcile_tenant (header_value env_value : option pystr) : result identity_exn pystr :=
  if falsy header_value || falsy env_value then Raise (TenantMismatchError header_value env_value)
  else if bool_decide (header_value <> env_value) then
    Raise (TenantMismatchError header_value env_value)
  else Ok (default [] header_value).

(** [_require_tenant] of the services: the tenant a request runs as. *)
Definition require_request_tenant (header_value env_value : option pystr) : result identity_exn pystr :=
  reconciled ← reconcile_tenant header_value env_value;
  make_TenantId reconciled.

(** ** execution_context.py

    The [ContextVar] holds the bound tenant of the current task; [bind_tenant]
    sets it around a block and resets it however the block ends. *)

Definition Bound : Type := option TenantContextModel.

Definition bind_tenant {E A} (context : TenantContextModel) (body : M Bound E A) : M Bound E A :=
  fun previous => let '(_, r) := body (Some context) in (previous, r).

Definition current_tenant : M Bound identity_exn TenantContextModel := fun b =>
  (b, match b with Some c => Ok c | None => Raise UnboundTenantContextError end).

Definition require_tenant (expected_tenant_id : pystr) : M Bound identity_exn TenantContextModel :=
  bound ← current_tenant;
  actual ← lift (make_TenantId (tc_tenant_id bound));
  _ ← raise_when (bool_decide (actual <> expected_tenant_id))
        (TenantMismatchError (Some actual) (Some expected_tenant_id));
  mret bound.

Record AggregateExecutionContext := {
  aggregate_scope_id : pystr; cohort_size : Z; privacy_threshold : Z; lineage_audit_ref : pystr;
  extra : list (pystr * pystr)
}.

Definition make_AggregateExecutionContext (c : AggregateExecutionContext)
    : result identity_exn AggregateExecutionContext :=
  _ ← raise_if (cohort_size c <? 1)%Z ContextTenantValueError;
  _ ← raise_if (privacy_threshold c <? 1)%Z ContextTenantValueError;
  Ok c.

(** ** persistence/memory.py: InMemoryTenantRepository

    The store holds the raw payload, not the gated wrapper. *)

Abbreviation TenantStore := (gmap pystr TenantPayload).

Definition with_status (s : pystr) (p : TenantPayload) : TenantPayload :=
  {| tp_tenant_id := tp_tenant_id p; tp_namespace := tp_namespace p;
     tp_isolation_profile := tp_isolation_profile p; tp_status := s;
     tp_engine_scope := tp_engine_scope p |}.

Definition tenant_put (tenant_id : pystr) (context : TenantContextModel) (st : TenantStore)
    : result identity_exn TenantStore :=
  if bool_decide (tc_tenant_id context <> tenant_id) then Raise ContextTenantValueError
  else Ok (<[tenant_id := model_dump context]> st).

Definition tenant_get (tenant_id : pystr) (st : TenantStore) : result identity_exn TenantContextModel :=
  match st !! tenant_id with
  | None => Raise TenantNotFoundError
  | Some payload => from_payload payload
  end.

Definition tenant_get_record (tenant_id : pystr) (st : TenantStore) : result identity_exn (pystr * TenantPayload) :=
  match st !! tenant_id with
  | None => Raise TenantNotFoundError
  | Some payload => Ok (tp_status payload, payload)
  end.

Definition tenant_update_status (tenant_id : pystr) (status : pystr) (st : TenantStore)
    : result identity_exn (TenantStore * pystr) :=
  match st !! tenant_id with
  | None => Raise TenantNotFoundError
  | Some payload => Ok (<[tenant_id := with_status status payload]> st, status)
  end.

(** ** Lemmas *)

Definition slug_char (c : N) : bool := lower_alnum c || (c =? 45)%N.

Lemma TenantId_re_spec s :
  lang TenantId_re s ->
  3 <= length s <= 32 /\ Forall (fun c => slug_char c = true) s /\
  (exists c s', s = c :: s' /\ lower_alnum c = true) /\
  (exists c s', s = s' ++ [c] /\ lower_alnum c = true).
Proof.
  unfold TenantId_re. intros (s1 & s2 & -> & H1 & H2)%cat_iff.
  apply cat_iff in H2 as (s3 & s4 & -> & H3 & H4). apply cat_iff in H3 as (s5 & s6 & -> & H5 & H6).
  apply upto_cls_lang in H6 as [Hl Hf].
  inversion H1 as [|? c1 Hc1| | | | |]; subst. inversion H4 as [|? c4 Hc4| | | | |]; subst.
  inversion H5 as [|? c5 Hc5| | | | |]; subst.
  split; [cbn; rewrite length_app; cbn; lia|]. split; [|split].
  - cbn. constructor; [unfold slug_char; apply orb_true_iff; by left|]. constructor; [done|].
    apply Forall_app. split; [done|]. constructor; [|constructor]. unfold slug_char; apply orb_true_iff; by left.
  - eexists _, _. by split.
  - exists c4, ([c1] ++ [c5] ++ s6). split; [|done]. cbn. done.
Qed.

Lemma make_TenantId_Ok v t : make_TenantId v = Ok t <-> t = v /\ lang TenantId_re v.
Proof.
  unfold make_TenantId, re_fullmatch. rewrite <- accepts_spec. destruct (accepts _ _); naive_solver.
Qed.

Lemma derive_namespace_Ok t n :
  derive_namespace t = Ok n <-> lang TenantId_re t /\ n = _NAMESPACE_PREFIX ++ t.
Proof.
  unfold derive_namespace. rewrite bind_Ok. split.
  - intros (tid & [-> Hl]%make_TenantId_Ok & Hn). destruct (_ <? _); naive_solver.
  - intros [Hl ->]. exists t. split; [by apply make_TenantId_Ok|].
    destruct (TenantId_re_spec t Hl) as ([_ Hlen] & _).
    destruct (Nat.ltb_spec _MAX_NAMESPACE_LENGTH (length (_NAMESPACE_PREFIX ++ t))) as [Hlt|]; [|done].
    rewrite length_app in Hlt. change (length _NAMESPACE_PREFIX) with 13 in Hlt.
    unfold _MAX_NAMESPACE_LENGTH in Hlt. lia.
Qed.

Lemma make_TenantContext_Ok m c :
  make_TenantContext m = Ok c <->
  c = m /\ lang TenantId_re (tc_tenant_id m) /\
  tc_namespace m = _NAMESPACE_PREFIX ++ tc_tenant_id m /\ tc_status m = active.
Proof.
  unfold make_TenantContext, validate_namespace. rewrite !seq_Ok, bind_Ok.
  setoid_rewrite derive_namespace_Ok. rewrite !raise_if_Ok, !bool_decide_eq_false. split.
  - intros ((n & [Hl ->] & Hn%raise_if_Ok) & Ht & Hs & [= <-]).
    rewrite bool_decide_eq_false in Hn. apply dec_stable in Hn. by destruct (tc_status m).
  - intros (-> & Hl & Hn & Hs). rewrite Hs. split; [|done]. eexists. split; [done|].
    rewrite raise_if_Ok, bool_decide_eq_false. naive_solver.
Qed.

Lemma parse_status_spec s st : parse_status s = Some st <-> s = status_value st.
Proof.
  split; [|intros ->; by destruct st].
  unfold parse_status. cbn [find]. repeat case_bool_decide; by intros [= <-].
Qed.

Lemma from_payload_Ok p c :
  from_payload p = Ok c <-> model_validate p = Ok c /\ make_TenantContext c = Ok c.
Proof.
  unfold from_payload. rewrite bind_Ok. split; [|naive_solver].
  intros (m & Hm & Hc). pose proof Hc as [-> _]%make_TenantContext_Ok. done.
Qed.

(** ** Properties *)

(** A label Kubernetes accepts: at most 63 characters, lower-case letters,
    digits and hyphens, starting and ending with a letter or digit. *)
Definition dns_label (s : pystr) : Prop :=
  1 <= length s <= 63 /\ Forall (fun c => slug_char c = true) s /\
  (exists c s', s = c :: s' /\ lower_alnum c = true) /\
  (exists c s', s = s' ++ [c] /\ lower_alnum c = true).

(** C40: a tenant context that exists can be trusted: wrapping a model succeeds
    exactly when its tenant id is well formed, its namespace is the one derived
    from it and its status is active; that namespace is a DNS label (so the
    length guard of the derivation never fires) and two contexts with one
    namespace are of one tenant. *)
Theorem tenant_context_trusted m1 m2 c1 c2 :
  make_TenantContext m1 = Ok c1 -> make_TenantContext m2 = Ok c2 ->
  c1 = m1 /\ tc_status c1 = active /\
  derive_namespace (tc_tenant_id c1) = Ok (tc_namespace c1) /\ dns_label (tc_namespace c1) /\
  (tc_namespace c1 = tc_namespace c2 -> tc_tenant_id c1 = tc_tenant_id c2) /\
  (forall m, is_ok (make_TenantContext m) = true <->
     tc_status m = active /\ derive_namespace (tc_tenant_id m) = Ok (tc_namespace m)).
Proof.
  intros (-> & Hl1 & Hn1 & Hs1)%make_TenantContext_Ok (-> & Hl2 & Hn2 & _)%make_TenantContext_Ok.
  destruct (TenantId_re_spec _ Hl1) as (Hlen & Hf & _ & (c & s' & Hend & Hc)).
  split; [done|]. split; [done|]. split; [by apply derive_namespace_Ok|]. split; [|split].
  - rewrite Hn1. split; [|split; [|split]].
    + rewrite length_app. change (length _NAMESPACE_PREFIX) with 13. lia.
    + apply Forall_app. split; [by_decide|done].
    + exists 115%N, (u "aena-tenant-" ++ tc_tenant_id m1). by split.
    + exists c, (_NAMESPACE_PREFIX ++ s'). rewrite Hend, app_assoc. done.
  - rewrite Hn1, Hn2. intros Heq. by apply (inj (_NAMESPACE_PREFIX ++.)) in Heq.
  - intros m. rewrite derive_namespace_Ok. destruct (make_TenantContext m) as [c'|e] eqn:Hm; cbn.
    + apply make_TenantContext_Ok in Hm. naive_solver.
    + split; [done|]. intros (Hs & Hl & Hn). exfalso.
      assert (make_TenantContext m = Ok m) by (by apply make_TenantContext_Ok). congruence.
Qed.

(** A request runs as a tenant only when its header and the pod's
    environment name that same tenant with a well-formed, non-empty id; every
    other combination raises. *)
Theorem request_tenant_reconciled h e t :
  require_request_tenant h e = Ok t <-> h = Some t /\ e = Some t /\ lang TenantId_re t.
Proof.
  unfold require_request_tenant, reconcile_tenant. rewrite bind_Ok. split.
  - intros (v & Hv & [-> Hl]%make_TenantId_Ok).
    destruct (falsy h || falsy e) eqn:Ef; [done|]. apply orb_false_iff in Ef as [Eh Ee].
    case_bool_decide as Heq; [done|]. subst e. destruct h as [h'|]; [|done].
    injection Hv as <-. done.
  - intros (-> & -> & Hl). exists t. destruct (TenantId_re_spec t Hl) as ([Hlen _] & _).
    split; [|by apply make_TenantId_Ok]. destruct t; [cbn in Hlen; lia|]. cbn.
    by rewrite bool_decide_false by naive_solver.
Qed.

(** Tenant bindings are scoped.  Whatever a block does, also when it raises
    or binds other tenants itself, the binding before it is the binding after
    it; and inside a block bound to a context, [require_tenant] returns only
    that context and only for its own tenant id. *)
Theorem bind_tenant_scoped {A} ctx (body : M Bound identity_exn A) b :
  ((bind_tenant ctx body) b).1 = b /\
  (forall expected b' c, require_tenant expected (Some ctx) = (b', Ok c) ->
     c = ctx /\ expected = tc_tenant_id ctx /\ b' = Some ctx) /\
  (forall expected, (require_tenant expected None).2 = Raise UnboundTenantContextError).
Proof.
  split; [unfold bind_tenant; by destruct (body (Some ctx))|]. split; [|done].
  intros expected b' c Hr. unfold require_tenant in Hr.
  apply M_bind_Ok in Hr as (s1 & x & [= <- <-] & Hr).
  apply M_bind_Ok in Hr as (s2 & t & [<- Ht]%lift_inv & Hr). symmetry in Ht.
  apply make_TenantId_Ok in Ht as [-> _].
  apply M_bind_Ok in Hr as (s3 & [] & [Hb ->]%raise_when_Ok & [= <- <-]).
  by rewrite bool_decide_eq_false in Hb; apply dec_stable in Hb.
Qed.

(** Suspending a tenant closes its context but not its record: after any
    status update of a stored tenant the gate-free record shows the new status,
    the gated read returns exactly when that status is active, and no other
    tenant's record changes. *)
Theorem status_update_gates t c st s st' r :
  tenant_put t c st = Ok st' -> make_TenantContext c = Ok r ->
  exists st'', tenant_update_status t s st' = Ok (st'', s) /\
    tenant_get_record t st'' = Ok (s, with_status s (model_dump c)) /\
    (is_ok (tenant_get t st'') = true <-> s = u "active") /\
    (forall t', t' <> t -> st'' !! t' = st !! t').
Proof.
  unfold tenant_put. case_bool_decide as Ht; [done|]. intros [= <-].
  intros (-> & Hl & Hn & _)%make_TenantContext_Ok.
  exists (<[t := with_status s (model_dump c)]> (<[t := model_dump c]> st)).
  unfold tenant_update_status, tenant_get_record, tenant_get. rewrite !lookup_insert_eq.
  split; [done|]. split; [done|]. split; [|by intros t' Hne; rewrite !lookup_insert_ne by congruence].
  split.
  - destruct (from_payload _) as [m|e] eqn:Hf; [|done]. intros _. apply from_payload_Ok in Hf as [Hv Hm].
    apply make_TenantContext_Ok in Hm as (_ & _ & _ & Hs). unfold model_validate in Hv. cbn [with_status tp_status] in Hv.
    destruct (parse_status s) as [st0|] eqn:Hp; [|done]. injection Hv as <-. cbn in Hs. subst st0.
    by apply parse_status_spec in Hp.
  - intros ->. assert (from_payload (with_status (u "active") (model_dump c)) = Ok
      {| tc_tenant_id := tc_tenant_id c; tc_namespace := tc_namespace c;
         tc_isolation_profile := tc_isolation_profile c; tc_status := active; tc_engine_scope := tc_engine_scope c |}) as ->; [|done].
    apply from_payload_Ok. split; [|by apply make_TenantContext_Ok].
    unfold model_validate. cbn [with_status tp_status].
    by rewrite (proj2 (parse_status_spec (u "active") active) eq_refl).
Qed.

Module Witness.
Definition acme_model : TenantContextModel :=
  {| tc_tenant_id := u "acme-co"; tc_namespace := u "saena-tenant-acme-co";
     tc_isolation_profile := u "internal-k3s"; tc_status := active;
     tc_engine_scope := [u "chatgpt-search"] |}.

Lemma tenant_context_trusted_witness :
  tc_status acme_model = active /\ dns_label (u "saena-tenant-acme-co").
Proof.
  assert (make_TenantContext acme_model = Ok acme_model) as H by (vm_compute; reflexivity).
  destruct (tenant_context_trusted _ _ _ _ H H) as (_ & Ha & _ & Hd & _). split; [exact Ha|exact Hd].
Defined.

Lemma status_update_gates_witness :
  exists st, tenant_update_status (u "acme-co") (u "suspended") {[ u "acme-co" := model_dump acme_model ]}
    = Ok (st, u "suspended").
Proof.
  assert (make_TenantContext acme_model = Ok acme_model) as H by (vm_compute; reflexivity).
  destruct (status_update_gates (u "acme-co") acme_model ∅ (u "suspended") _ _ eq_refl H)
    as (st & Hu & _). exists st. exact Hu.
Defined.
End Witness.
