(* ===== verification/Execution.v ===== *)
(** The execution domain (src/packages/domain/src/saena_domain/execution):
    the job lifecycle, the job kinds and their resource limits, the job context,
    the engine guard and the structured job error; and the role matrix of
    src/packages/domain/src/saena_domain/authz. *)

From S2P Require Import Prelude.
From S2P Require Import PyStr.
From S2P Require Import Regex.
From S2P Require Import AuditChain.
From S2P Require Import Identity.

(** ** lifecycle.py *)

Inductive JobStatus := PENDING | RUNNING | SUCCEEDED | FAILED | CANCELLED | TIMED_OUT.
#[export] Instance JobStatus_eq_dec : EqDecision JobStatus.
Proof. solve_decision. Defined.

(** What a [JobErrorValidationError] names in its context. *)
Inductive JobErrorField :=
  | FieldErrorCode
  | FieldSummary
  | FieldEntryCount
  | FieldDetail (key : pystr).

Inductive execution_exn :=
  | InvalidJobTransitionError (current target : JobStatus)
  | JobContextValidationError (field : pystr)
  | JobErrorValidationError (field : JobErrorField)
  | ResourceLimitsValidationError (field : pystr)
  | EngineNotPermittedError (engine_id : pystr)
  | EngineDisallowedError (engine_id disallowed_name : pystr).

Definition _ALLOWED_TRANSITIONS (current : JobStatus) : list JobStatus :=
  match current with
  | PENDING => [RUNNING; CANCELLED]
  | RUNNING => [SUCCEEDED; FAILED; CANCELLED; TIMED_OUT]
  | SUCCEEDED | FAILED | CANCELLED | TIMED_OUT => []
  end.

Definition TERMINAL_STATUSES : list JobStatus := [SUCCEEDED; FAILED; CANCELLED; TIMED_OUT].

Record JobTransitionOutcome := { status : JobStatus; changed : bool }.

Definition transition (current target : JobStatus) : result execution_exn JobTransitionOutcome :=
  if bool_decide (target = current) then Ok {| status := current; changed := false |}
  else if bool_decide (target ∉ _ALLOWED_TRANSITIONS current) then
    Raise (InvalidJobTransitionError current target)
  else Ok {| status := target; changed := true |}.

Definition is_terminal (s : JobStatus) : bool := bool_decide (s ∈ TERMINAL_STATUSES).

(** ** job_kind.py, limits.py *)

Inductive ExecutionPool := RUNNER | BROWSER.
Inductive JobKind := AGENT_RUNNER | REPOSITORY_INTAKE | QUALITY_EVAL | CHATGPT_OBSERVER | SITE_DISCOVERY.
#[export] Instance ExecutionPool_eq_dec : EqDecision ExecutionPool.
Proof. solve_decision. Defined.
#[export] Instance JobKind_eq_dec : EqDecision JobKind.
Proof. solve_decision. Defined.

Record JobKindProfile := {
  kind : JobKind; pool : ExecutionPool; read_only : bool; service_account : pystr;
  producer_id : pystr
}.

Definition profile_for (k : JobKind) : JobKindProfile :=
  match k with
  | AGENT_RUNNER =>
      {| kind := k; pool := RUNNER; read_only := false; service_account := u "saena-agent-runner";
         producer_id := u "agent-runner-service" |}
  | REPOSITORY_INTAKE =>
      {| kind := k; pool := RUNNER; read_only := true; service_account := u "saena-repository-intake";
         producer_id := u "repository-intake-service" |}
  | QUALITY_EVAL =>
      {| kind := k; pool := RUNNER; read_only := true; service_account := u "saena-quality-eval";
         producer_id := u "quality-eval-service" |}
  | CHATGPT_OBSERVER =>
      {| kind := k; pool := BROWSER; read_only := true; service_account := u "saena-chatgpt-observer";
         producer_id := u "chatgpt-observer-service" |}
  | SITE_DISCOVERY =>
      {| kind := k; pool := BROWSER; read_only := true; service_account := u "saena-site-discovery";
         producer_id := u "site-discovery-service" |}
  end.

Record ResourceLimits := {
  active_deadline_seconds : Z; max_retries : Z; max_artifact_mib : Z; max_cost_usd : Z
}.

(** The four fields are checked in their order. *)
Definition make_ResourceLimits (l : ResourceLimits) : result execution_exn ResourceLimits :=
  _ ← raise_if (active_deadline_seconds l <=? 0)%Z
        (ResourceLimitsValidationError (u "active_deadline_seconds"));
  _ ← raise_if (max_retries l <=? 0)%Z (ResourceLimitsValidationError (u "max_retries"));
  _ ← raise_if (max_artifact_mib l <=? 0)%Z (ResourceLimitsValidationError (u "max_artifact_mib"));
  _ ← raise_if (max_cost_usd l <=? 0)%Z (ResourceLimitsValidationError (u "max_cost_usd"));
  Ok l.

Definition resource_limits_for (k : JobKind) : result execution_exn ResourceLimits :=
  make_ResourceLimits
    match k with
    | AGENT_RUNNER => {| active_deadline_seconds := 7200; max_retries := 3;
                         max_artifact_mib := 1024; max_cost_usd := 100 |}
    | REPOSITORY_INTAKE => {| active_deadline_seconds := 1800; max_retries := 3;
                              max_artifact_mib := 256; max_cost_usd := 10 |}
    | QUALITY_EVAL => {| active_deadline_seconds := 3600; max_retries := 2;
                         max_artifact_mib := 512; max_cost_usd := 25 |}
    | CHATGPT_OBSERVER => {| active_deadline_seconds := 900; max_retries := 3;
                             max_artifact_mib := 64; max_cost_usd := 5 |}
    | SITE_DISCOVERY => {| active_deadline_seconds := 1800; max_retries := 3;
                           max_artifact_mib := 128; max_cost_usd := 5 |}
    end.

(** ** context.py *)

Definition _MAX_OPAQUE_IDENTIFIER_LENGTH : nat := 128.

Definition _require_non_empty_bounded (field_name value : pystr) : result execution_exn unit :=
  _ ← raise_if (bool_decide (value = [])) (JobContextValidationError field_name);
  raise_if (_MAX_OPAQUE_IDENTIFIER_LENGTH <? length value) (JobContextValidationError field_name).

Definition _require_idempotency_key (value : pystr) : result execution_exn unit :=
  raise_if (bool_decide (value = [])) (JobContextValidationError (u "idempotency_key")).

Definition _require_trace_id (value : pystr) : result execution_exn unit :=
  raise_if (negb (re_fullmatch trace_id_re value)) (JobContextValidationError (u "trace_id")).

Record JobContext := {
  jc_tenant_id : pystr; jc_workspace_id : pystr; jc_project_id : pystr; jc_run_id : pystr;
  jc_trace_id : pystr; jc_idempotency_key : pystr; jc_actor_id : pystr
}.

Definition make_JobContext (c : JobContext) : result execution_exn JobContext :=
  _ ← try_except (make_TenantId (jc_tenant_id c) ≫= fun _ => Ok tt)
        (fun _ => Raise (JobContextValidationError (u "tenant_id")));
  _ ← _require_non_empty_bounded (u "workspace_id") (jc_workspace_id c);
  _ ← _require_non_empty_bounded (u "project_id") (jc_project_id c);
  _ ← _require_non_empty_bounded (u "run_id") (jc_run_id c);
  _ ← _require_non_empty_bounded (u "actor_id") (jc_actor_id c);
  _ ← _require_idempotency_key (jc_idempotency_key c);
  _ ← _require_trace_id (jc_trace_id c);
  Ok c.

(** ** engine.py *)

Definition ALLOWED_ENGINE_IDS : list pystr := [u "chatgpt-search"].
Definition _KNOWN_DISALLOWED_ENGINE_IDS : list (pystr * pystr) :=
  [(u "google-aio", u "Google AI Overviews"); (u "google-ai-overviews", u "Google AI Overviews");
   (u "google-ai-mode", u "Google AI Mode"); (u "gemini", u "Gemini")].

Definition guard_engine_id (engine_id : pystr) : result execution_exn unit :=
  if bool_decide (engine_id ∈ ALLOWED_ENGINE_IDS) then Ok tt
  else match find (fun kv => bool_decide (kv.1 = engine_id)) _KNOWN_DISALLOWED_ENGINE_IDS with
       | Some (_, disallowed_name) => Raise (EngineDisallowedError engine_id disallowed_name)
       | None => Raise (EngineNotPermittedError engine_id)
       end.

(** ** job_error.py *)

Definition KNOWN_ERROR_CATEGORIES : list pystr :=
  [u "validation"; u "auth"; u "policy_denied"; u "conflict"; u "not_found"; u "rate_limited";
   u "upstream_engine"; u "unavailable"; u "internal"].
Definition _SUMMARY_MAX_LENGTH : nat := 500.
Definition _DETAIL_VALUE_MAX_LENGTH : nat := 500.
Definition _DETAIL_MAX_ENTRIES : nat := 16.
(** The second marker is a line feed, two spaces, [File] and a quote (34). *)
Definition _STACK_TRACE_MARKERS : list pystr :=
  [u "Traceback (most recent call last)"; 10%N :: u "  File " ++ [34%N]].

Definition _reject_unsafe_text (field_name : JobErrorField) (value : pystr) (max_length : nat)
    : result execution_exn unit :=
  _ ← raise_if (max_length <? length value) (JobErrorValidationError field_name);
  raise_if (existsb (fun marker => contains marker value) _STACK_TRACE_MARKERS)
    (JobErrorValidationError field_name).

Record JobError := {
  error_code : pystr; summary : pystr; retryable : bool; redacted_detail : list (pystr * pystr)
}.

(** [error_code.split(".")[1]]; the pattern check before it has seen a dot. *)
Definition error_category (code : pystr) : pystr :=
  default [] (split_at (N.eqb 46) code !! 1).

Fixpoint reject_unsafe_details (items : list (pystr * pystr)) : result execution_exn unit :=
  match items with
  | [] => Ok tt
  | (key, value) :: items =>
      _ ← _reject_unsafe_text (FieldDetail key) value _DETAIL_VALUE_MAX_LENGTH;
      reject_unsafe_details items
  end.

Definition make_JobError (e : JobError) : result execution_exn JobError :=
  _ ← raise_if (negb (re_fullmatch error_code_re (error_code e)))
        (JobErrorValidationError FieldErrorCode);
  _ ← raise_if (bool_decide (error_category (error_code e) ∉ KNOWN_ERROR_CATEGORIES))
        (JobErrorValidationError FieldErrorCode);
  _ ← raise_if (bool_decide (summary e = [])) (JobErrorValidationError FieldSummary);
  _ ← _reject_unsafe_text FieldSummary (summary e) _SUMMARY_MAX_LENGTH;
  _ ← raise_if (_DETAIL_MAX_ENTRIES <? length (redacted_detail e))
        (JobErrorValidationError FieldEntryCount);
  _ ← reject_unsafe_details (redacted_detail e);
  Ok e.

Record ErrorDetailPayload := { ed_error_code : pystr; ed_retryable : bool; ed_summary : pystr }.

Definition to_error_detail_payload (e : JobError) : ErrorDetailPayload :=
  {| ed_error_code := error_code e; ed_retryable := retryable e; ed_summary := summary e |}.

(** ** authz/rbac.py *)

Inductive Role := OPERATOR | PROPOSER | APPROVER | AUDITOR | CONTRACTS_STEWARD | SERVICE.
Inductive Permission :=
  | PROPOSE_PLAN | APPROVE_PLAN | EXECUTE_PLAN | VIEW_LINEAGE | APPEND_AUDIT | READ_AUDIT
  | MANAGE_TENANT | PUBLISH_AGGREGATE.
#[export] Instance Role_eq_dec : EqDecision Role.
Proof. solve_decision. Defined.
#[export] Instance Permission_eq_dec : EqDecision Permission.
Proof. solve_decision. Defined.

Definition ALLOW_MATRIX (role : Role) : list Permission :=
  match role with
  | PROPOSER => [PROPOSE_PLAN]
  | APPROVER => [APPROVE_PLAN]
  | OPERATOR => [EXECUTE_PLAN]
  | AUDITOR => [VIEW_LINEAGE; READ_AUDIT]
  | CONTRACTS_STEWARD => [MANAGE_TENANT; PUBLISH_AGGREGATE]
  | SERVICE => [APPEND_AUDIT]
  end.

Definition authorize (roles : list Role) (permission : Permission) : bool :=
  existsb (fun role => bool_decide (permission ∈ ALLOW_MATRIX role)) roles.

(** ** Lemmas *)

(** A consumer of at-least-once status events: a refused event changes nothing. *)
Definition deliver (s t : JobStatus) : JobStatus :=
  match transition s t with Ok o => status o | Raise _ => s end.

Definition deliver_all (ts : list JobStatus) (s : JobStatus) : JobStatus := fold_left deliver ts s.

(** How far a job is: every accepted move that changes the status advances. *)
Definition progress (s : JobStatus) : nat :=
  match s with PENDING => 0 | RUNNING => 1 | _ => 2 end.

Lemma transition_spec s t :
  (exists o, transition s t = Ok o /\ status o = t /\ changed o = bool_decide (t <> s) /\
     (t = s \/ t ∈ _ALLOWED_TRANSITIONS s)) \/
  (transition s t = Raise (InvalidJobTransitionError s t) /\ t <> s /\ t ∉ _ALLOWED_TRANSITIONS s).
Proof.
  unfold transition. case_bool_decide as Hts.
  - left. eexists. split; [done|]. cbn. rewrite bool_decide_false by naive_solver. by subst; auto.
  - case_bool_decide as Ha; [by right|]. left. eexists. split; [done|]. cbn.
    rewrite bool_decide_true by done. auto.
Qed.

Lemma edge_progress s t : t ∈ _ALLOWED_TRANSITIONS s -> progress s < progress t.
Proof. destruct s; cbn; rewrite ?list_elem_of_In; cbn; intuition (subst; cbn; lia). Qed.

Lemma deliver_progress s t : deliver s t = s \/ progress s < progress (deliver s t).
Proof.
  unfold deliver. destruct (transition_spec s t) as [(o & -> & -> & _ & [->|He])|(-> & _)]; auto.
  right. by apply edge_progress.
Qed.

Lemma deliver_hit s t : deliver s t = t \/ (deliver s t = s /\ t ∉ _ALLOWED_TRANSITIONS s).
Proof. unfold deliver. destruct (transition_spec s t) as [(o & -> & -> & _)|(-> & _ & ?)]; auto. Qed.

Lemma deliver_all_progress ts s : deliver_all ts s = s \/ progress s < progress (deliver_all ts s).
Proof.
  revert s. induction ts as [|t ts IH]; intros s; [by left|].
  change (deliver_all (t :: ts) s) with (deliver_all ts (deliver s t)).
  destruct (IH (deliver s t)) as [-> | Hlt]; [apply deliver_progress|].
  right. destruct (deliver_progress s t) as [Heq|?]; [by rewrite Heq in Hlt |- *|].
  eapply Nat.lt_trans; eauto.
Qed.

Lemma terminal_stuck s t : is_terminal s = true -> deliver s t = s.
Proof.
  unfold is_terminal, TERMINAL_STATUSES. rewrite bool_decide_eq_true, list_elem_of_In. intros Hs.
  destruct (deliver_hit s t) as [|[? _]]; [|done].
  unfold deliver. destruct (transition_spec s t) as [(o & -> & -> & _ & [-> |He])|(-> & _)]; [done| |done].
  destruct s; cbn in Hs; try (by intuition discriminate); by apply elem_of_nil in He.
Qed.

Definition word_char (c : N) : bool := ascii_lowercase c || (c =? 95)%N.
Definition word (w : pystr) : Prop := w <> [] /\ Forall (fun c => word_char c = true) w.

Lemma error_code_re_spec s :
  lang error_code_re s <->
  exists w1 w2, s = u "saena." ++ w1 ++ [46%N] ++ w2 /\ word w1 /\ word w2.
Proof.
  unfold error_code_re. split.
  - intros (? & ? & -> & ->%lit_lang & Hr)%cat_iff.
    apply cat_iff in Hr as (w1 & ? & -> & H1%plus_cls_lang & Hr).
    apply cat_iff in Hr as (d & w2 & -> & Hd & H2%plus_cls_lang).
    inversion Hd as [|? c Hc| | | | |]; subst. apply N.eqb_eq in Hc as <-. by exists w1, w2.
  - intros (w1 & w2 & -> & H1 & H2). apply lang_cat; [by apply lit_lang|].
    apply lang_cat; [by apply plus_cls_lang|].
    apply lang_cat; [by apply lang_cls|by apply plus_cls_lang].
Qed.

Lemma error_category_spec w1 w2 :
  word w1 -> error_category (u "saena." ++ w1 ++ [46%N] ++ w2) = w1.
Proof.
  intros [_ Hw]. unfold error_category.
  change (u "saena." ++ w1 ++ [46%N] ++ w2) with (u "saena" ++ 46%N :: (w1 ++ 46%N :: w2)).
  rewrite split_at_app by (done || by_decide).
  rewrite split_at_app; [done..|]. eapply Forall_impl; [exact Hw|]. intros c Hc.
  apply N.eqb_neq. intros <-. discriminate Hc.
Qed.

(** Text that may leave the domain: bounded and without a stack-trace marker. *)
Definition safe_text (max_length : nat) (value : pystr) : Prop :=
  length value <= max_length /\ forall m, m ∈ _STACK_TRACE_MARKERS -> contains m value = false.

Lemma reject_unsafe_text_Ok f v n x : _reject_unsafe_text f v n = Ok x <-> safe_text n v.
Proof.
  unfold _reject_unsafe_text, safe_text. destruct x.
  rewrite seq_Ok, !raise_if_Ok, existsb_false_elem, Nat.ltb_ge. done.
Qed.

Lemma reject_unsafe_details_Ok items x :
  reject_unsafe_details items = Ok x <->
  forall k v, (k, v) ∈ items -> safe_text _DETAIL_VALUE_MAX_LENGTH v.
Proof.
  destruct x. induction items as [|[k v] items IH]; cbn [reject_unsafe_details].
  - split; [|done]. intros _ k v Hin. by apply elem_of_nil in Hin.
  - rewrite seq_Ok, reject_unsafe_text_Ok, IH. setoid_rewrite elem_of_cons. naive_solver.
Qed.

(** ** Properties *)

(** at-least-once delivery of job events is safe.  A terminal job never
    changes again; a status that has been reached can be delivered again at any
    later time without effect; and every change follows the adjacency table, a
    refusal naming the move it refused. *)
Theorem job_delivery_idempotent s ts :
  (is_terminal s = true -> deliver_all ts s = s) /\
  (forall ts1 t, deliver_all ts1 s = t ->
     deliver (deliver_all ts (deliver_all ts1 s)) t = deliver_all ts (deliver_all ts1 s)) /\
  (forall t, transition s t = Ok {| status := t; changed := true |} <-> t ∈ _ALLOWED_TRANSITIONS s) /\
  (forall t e, transition s t = Raise e -> e = InvalidJobTransitionError s t /\ t <> s).
Proof.
  split; [|split; [|split]].
  - intros Hs. induction ts as [|t ts IH]; [done|]. cbn. by rewrite terminal_stuck.
  - intros ts1 t ->. clear s ts1. set (s := deliver_all ts t).
    destruct (deliver_hit s t) as [Hd|[? _]]; [|done].
    destruct (deliver_progress s t) as [|Hlt]; [done|]. rewrite Hd in *.
    destruct (deliver_all_progress ts t) as [Hs|Hs]; fold s in Hs; [by rewrite Hs|lia].
  - intros t. destruct (transition_spec s t) as [([st ch] & -> & <- & Hc & Ho)|(-> & ? & ?)]; [|naive_solver].
    cbn in *. subst ch. split.
    + intros [= Hb]. apply bool_decide_eq_true in Hb. naive_solver.
    + intros He. rewrite bool_decide_true; [done|]. intros ->. apply edge_progress in He. lia.
  - intros t e. destruct (transition_spec s t) as [(o & -> & _)|(-> & ? & _)]; naive_solver.
Qed.

(** A job error exists exactly when its code is [saena.<category>.<reason>]
    with one of the nine categories of the taxonomy, its summary is non-empty,
    bounded and free of stack-trace markers, and it has at most sixteen details
    whose values are bounded and free of those markers; what it puts on the
    wire does not depend on the details. *)
Theorem job_error_exact e :
  (make_JobError e = Ok e <->
     (exists category reason, error_code e = u "saena." ++ category ++ [46%N] ++ reason /\
        category ∈ KNOWN_ERROR_CATEGORIES /\ word reason) /\
     summary e <> [] /\ safe_text _SUMMARY_MAX_LENGTH (summary e) /\
     length (redacted_detail e) <= _DETAIL_MAX_ENTRIES /\
     (forall k v, (k, v) ∈ redacted_detail e -> safe_text _DETAIL_VALUE_MAX_LENGTH v)) /\
  (forall d, to_error_detail_payload
     {| error_code := error_code e; summary := summary e; retryable := retryable e;
        redacted_detail := d |} = to_error_detail_payload e).
Proof.
  split; [|done]. unfold make_JobError. rewrite !seq_Ok, !raise_if_Ok, reject_unsafe_text_Ok,
    reject_unsafe_details_Ok, negb_false_iff, !bool_decide_eq_false, Nat.ltb_ge.
  unfold re_fullmatch. rewrite accepts_spec, error_code_re_spec. split.
  - intros ((w1 & w2 & Hcode & H1 & H2) & Hc & Hs & Ht & Hn & Hd & _).
    rewrite Hcode, error_category_spec in Hc by done. apply dec_stable in Hc. eauto 10.
  - intros ((w1 & w2 & Hcode & Hc & H2) & Hs & Ht & Hn & Hd).
    assert (word w1) as H1.
    { revert Hc. unfold KNOWN_ERROR_CATEGORIES. rewrite !elem_of_cons, elem_of_nil.
      intros Hc. repeat (destruct Hc as [-> |Hc]; [split; [done|by_decide]|]). done. }
    split; [eauto|]. rewrite Hcode, error_category_spec by done. split; [|done]. naive_solver.
Qed.

(** The matrix separates duties.  Every permission belongs to exactly one
    role, and a request is authorised exactly when it holds that role; so no
    roles authorise nothing, lineage is the auditor's alone, and the roles that
    propose, approve and execute are three different ones. *)
Theorem authorize_separates_duties p :
  exists r, (forall roles, authorize roles p = true <-> r ∈ roles) /\
    (p = VIEW_LINEAGE -> r = AUDITOR) /\ (p = PROPOSE_PLAN -> r = PROPOSER) /\
    (p = APPROVE_PLAN -> r = APPROVER) /\ (p = EXECUTE_PLAN -> r = OPERATOR).
Proof.
  assert (exists r, (forall r', p ∈ ALLOW_MATRIX r' <-> r' = r) /\
    (p = VIEW_LINEAGE -> r = AUDITOR) /\ (p = PROPOSE_PLAN -> r = PROPOSER) /\
    (p = APPROVE_PLAN -> r = APPROVER) /\ (p = EXECUTE_PLAN -> r = OPERATOR)) as (r & Hr & ?).
  { destruct p; [exists PROPOSER|exists APPROVER|exists OPERATOR|exists AUDITOR|exists SERVICE
      |exists AUDITOR|exists CONTRACTS_STEWARD|exists CONTRACTS_STEWARD];
      (split; [|by repeat split]); intros r; destruct r; cbn; rewrite list_elem_of_In; cbn;
      intuition discriminate. }
  exists r. split; [|done]. intros roles. unfold authorize. rewrite existsb_elem.
  setoid_rewrite bool_decide_eq_true. setoid_rewrite Hr. naive_solver.
Qed.

Module Witness.
(** A stack trace in a key of the details is accepted: only values are checked. *)
Example detail_key_unchecked :
  let e := {| error_code := u "saena.internal.crash"; summary := u "boom"; retryable := false;
              redacted_detail := [(u "Traceback (most recent call last)", u "x")] |} in
  make_JobError e = Ok e.
Proof. vm_compute. reflexivity. Qed.

Example detail_value_checked :
  is_ok (make_JobError {| error_code := u "saena.internal.crash"; summary := u "boom";
    retryable := false;
    redacted_detail := [(u "x", u "Traceback (most recent call last)")] |}) = false.
Proof. vm_compute. reflexivity. Qed.

Example job_runs :
  deliver_all [RUNNING; RUNNING; SUCCEEDED; FAILED; RUNNING] PENDING = SUCCEEDED.
Proof. reflexivity. Qed.

Example limits_defined :
  forallb (fun k => is_ok (resource_limits_for k))
    [AGENT_RUNNER; REPOSITORY_INTAKE; QUALITY_EVAL; CHATGPT_OBSERVER; SITE_DISCOVERY] = true.
Proof. reflexivity. Qed.
End Witness.
