(* ===== verification/SkillBundle.v ===== *)
(** Skill-bundle content integrity
    (src/packages/domain/src/saena_domain/execution/skill_bundle.py): the
    path normalisation, the framed manifest and its hash, the fail-closed gate
    over a pinned hash, and the reader of bundle files.

    A bundle is its list of items in the mapping's order; contents are byte
    lists, and the [isinstance] tests of the source are the types.  The file
    system of the reader is a class of operations: what one call sees of it. *)

From S2P Require Import Prelude.
From S2P Require Import PyStr.
From S2P Require Import Sha256.

Inductive skill_exn :=
  | SkillBundleHashMissingError
  | SkillBundleHashMalformedError
  | SkillBundleMissingError
  | SkillBundleHashMismatchError (expected actual : pystr)
  | SkillBundleUnreadableError (path : pystr)
  | SkillUnicodeEncodeError
  | UncaughtOSError.

(** The errors of the gate's own hierarchy. *)
Definition is_integrity_error (e : skill_exn) : bool :=
  match e with SkillUnicodeEncodeError | UncaughtOSError => false | _ => true end.

Definition _SHA256_PREFIX : pystr := u "sha256:".
Definition _HEX : list N := u "0123456789abcdef".

Definition slash : N := 47.
Definition backslash : N := 92.

(** The loop over the segments; [parts] in order. *)
Fixpoint normalize_segments (raw : pystr) (segments parts : list pystr) : result skill_exn (list pystr) :=
  match segments with
  | [] => Ok parts
  | segment :: segments =>
      if bool_decide (segment = [] \/ segment = u ".") then normalize_segments raw segments parts
      else if bool_decide (segment = u "..") then Raise (SkillBundleUnreadableError raw)
      else normalize_segments raw segments (parts ++ [segment])
  end.

Definition _normalize_relpath (raw : pystr) : result skill_exn pystr :=
  _ ← raise_if (bool_decide (raw = [])) (SkillBundleUnreadableError []);
  let candidate := replace_char backslash slash raw in
  _ ← raise_if (startswith [slash] candidate) (SkillBundleUnreadableError raw);
  parts ← normalize_segments raw (split_at (N.eqb slash) candidate) [];
  _ ← raise_if (bool_decide (parts = [])) (SkillBundleUnreadableError raw);
  Ok (join [slash] parts).

Abbreviation bytes := (list N).
Abbreviation SkillBundle := (list (pystr * bytes)).

(** The first loop of [compute_skill_bundle_hash]. *)
Fixpoint normalize_entries (items : SkillBundle) (normalized : gmap pystr bytes)
    : result skill_exn (gmap pystr bytes) :=
  match items with
  | [] => Ok normalized
  | (raw_path, content) :: items =>
      norm ← _normalize_relpath raw_path;
      _ ← raise_if (bool_decide (is_Some (normalized !! norm))) (SkillBundleUnreadableError norm);
      normalize_entries items (<[norm := content]> normalized)
  end.

Definition frame (path_bytes norm content_digest : pystr) : pystr :=
  str_of_Z (Z.of_nat (length path_bytes)) ++ u ":" ++ norm ++ [10%N] ++
  str_of_Z (Z.of_nat (length content_digest)) ++ u ":" ++ content_digest ++ [10%N].

(** The second loop: the frames of the entries, joined. *)
Fixpoint manifest_of (entries : SkillBundle) : result skill_exn pystr :=
  match entries with
  | [] => Ok []
  | (norm, content) :: entries =>
      match utf8_encode norm with
      | None => Raise SkillUnicodeEncodeError
      | Some path_bytes =>
          rest ← manifest_of entries;
          Ok (frame path_bytes norm (hexdigest content) ++ rest)
      end
  end.

Definition sorted_entries (normalized : gmap pystr bytes) : SkillBundle :=
  sort_by fst (map_to_list normalized).

Definition manifest_digest (manifest : pystr) : result skill_exn pystr :=
  match utf8_encode manifest with
  | None => Raise SkillUnicodeEncodeError
  | Some encoded => Ok (_SHA256_PREFIX ++ hexdigest encoded)
  end.

Definition compute_skill_bundle_hash (bundle : SkillBundle) : result skill_exn pystr :=
  normalized ← normalize_entries bundle ∅;
  manifest ← manifest_of (sorted_entries normalized);
  manifest_digest manifest.

Definition _require_well_formed_expected (expected_hash : option pystr) : result skill_exn pystr :=
  match expected_hash with
  | None | Some [] => Raise SkillBundleHashMissingError
  | Some expected =>
      _ ← raise_if (negb (startswith _SHA256_PREFIX expected)) SkillBundleHashMalformedError;
      let hexpart := drop (length _SHA256_PREFIX) expected in
      _ ← raise_if (bool_decide (length hexpart <> 64) || existsb (fun c => bool_decide (c ∉ _HEX)) hexpart)
            SkillBundleHashMalformedError;
      Ok expected
  end.

Definition verify_skill_bundle (expected_hash : option pystr) (bundle : option SkillBundle)
    : result skill_exn pystr :=
  verified_expected ← _require_well_formed_expected expected_hash;
  match bundle with
  | None => Raise SkillBundleMissingError
  | Some bundle =>
      actual ← compute_skill_bundle_hash bundle;
      _ ← raise_if (bool_decide (actual <> verified_expected))
            (SkillBundleHashMismatchError verified_expected actual);
      Ok actual
  end.

(** ** read_skill_bundle *)

(** What the reader asks of the operating system; [None] is an [OSError]. *)
Class FileSystem := {
  realpath : pystr -> option pystr;
  islink : pystr -> bool;
  isdir : pystr -> bool;
  isfile : pystr -> bool;
  read_file : pystr -> option bytes
}.

(** [os.path.join] of POSIX; the later components are not absolute. *)
Definition path_join (path segment : pystr) : pystr :=
  match last path with
  | None => segment
  | Some c => if (c =? slash)%N then path ++ segment else path ++ [slash] ++ segment
  end.

Section reader.
Context `{FileSystem}.

Definition read_entry (real_root raw : pystr) : result skill_exn (pystr * bytes) :=
  norm ← _normalize_relpath raw;
  let target := fold_left path_join (split_at (N.eqb slash) norm) real_root in
  _ ← raise_if (islink target) (SkillBundleUnreadableError norm);
  match realpath target with
  | None => Raise UncaughtOSError
  | Some real_target =>
      _ ← raise_if (bool_decide (real_target <> real_root) &&
                    negb (startswith (real_root ++ [slash]) real_target))
            (SkillBundleUnreadableError norm);
      _ ← raise_if (negb (isfile real_target)) SkillBundleMissingError;
      match read_file real_target with
      | None => Raise (SkillBundleUnreadableError norm)
      | Some content => Ok (norm, content)
      end
  end.

Fixpoint read_entries (real_root : pystr) (relpaths : list pystr) (out : gmap pystr bytes)
    : result skill_exn (gmap pystr bytes) :=
  match relpaths with
  | [] => Ok out
  | raw :: relpaths =>
      entry ← read_entry real_root raw;
      read_entries real_root relpaths (<[entry.1 := entry.2]> out)
  end.

Definition read_skill_bundle (root : pystr) (relpaths : list pystr)
    : result skill_exn (gmap pystr bytes) :=
  match realpath root with
  | None => Raise (SkillBundleUnreadableError root)
  | Some real_root =>
      _ ← raise_if (negb (isdir real_root)) SkillBundleMissingError;
      read_entries real_root relpaths ∅
  end.
End reader.

(** ** Normalised paths *)

(** A path inside the root: segments that name something, no way up. *)
Definition plain_segment (s : pystr) : Prop :=
  s <> [] /\ s <> u "." /\ s <> u ".." /\ (slash ∉ s) /\ (backslash ∉ s).

Definition normal_path (p : pystr) : Prop :=
  exists segments, segments <> [] /\ p = join [slash] segments /\ Forall plain_segment segments.

Lemma no_slash s : Forall (fun x => (slash =? x)%N = false) s <-> slash ∉ s.
Proof.
  rewrite Forall_forall. split.
  - intros Hs Hin. by specialize (Hs _ Hin).
  - intros Hs x Hx. apply N.eqb_neq. by intros <-.
Qed.

Lemma normalize_segments_Ok raw segments parts parts' :
  normalize_segments raw segments parts = Ok parts' ->
  exists kept, parts' = parts ++ kept /\
    forall s, s ∈ kept -> s ∈ segments /\ s <> [] /\ s <> u "." /\ s <> u "..".
Proof.
  revert parts. induction segments as [|s segments IH]; intros parts; cbn [normalize_segments].
  - intros [= <-]. exists []. rewrite app_nil_r. split; [done|]. by intros s ?%elem_of_nil.
  - case_bool_decide as Hd; [|case_bool_decide as Hu; [done|]].
    + intros (kept & -> & Hk)%IH. exists kept. split; [done|]. intros x [? ?]%Hk.
      split; [by right|done].
    + intros (kept & -> & Hk)%IH. exists (s :: kept). rewrite <- app_assoc. split; [done|].
      intros x [-> |[? ?]%Hk]%elem_of_cons; [split; [by left|tauto]|split; [by right|done]].
Qed.

Lemma normalize_segments_plain raw segments parts :
  Forall plain_segment segments -> normalize_segments raw segments parts = Ok (parts ++ segments).
Proof.
  intros Hs. revert parts. induction Hs as [|s segments Hp _ IH]; intros parts; cbn [normalize_segments].
  - by rewrite app_nil_r.
  - destruct Hp as (? & ? & ? & _). rewrite !bool_decide_false by tauto.
    by rewrite IH, <- app_assoc.
Qed.

Lemma replace_char_elem a b c s :
  c ∈ replace_char a b s -> c = b \/ (c ∈ s /\ c <> a).
Proof.
  unfold replace_char. intros (x & -> & Hx)%list_elem_of_fmap.
  destruct (N.eqb_spec x a); [by left|]. by right.
Qed.

Lemma replace_char_id a b s : a ∉ s -> replace_char a b s = s.
Proof.
  unfold replace_char. intros Hs. rewrite <- (list_fmap_id s) at 2. apply fmap_ext_elem.
  intros x Hx. destruct (N.eqb_spec x a); [congruence|done].
Qed.

Lemma split_at_elem sep s w c : w ∈ split_at sep s -> c ∈ w -> c ∈ s.
Proof.
  revert w. induction s as [|x s IH]; intros w; cbn.
  - intros ->%list_elem_of_singleton. done.
  - destruct (sep x).
    + intros [-> |Hw]%elem_of_cons Hc; [by apply elem_of_nil in Hc|]. right. eauto.
    + destruct (split_at sep s) as [|v vs] eqn:Es.
      * intros ->%list_elem_of_singleton Hc. apply list_elem_of_singleton in Hc as ->. by left.
      * intros [-> |Hw]%elem_of_cons Hc.
        -- apply elem_of_cons in Hc as [-> |Hc]; [by left|]. right. apply (IH v); [by left|done].
        -- right. apply (IH w); [by right|done].
Qed.

Lemma normalize_relpath_normal raw p : _normalize_relpath raw = Ok p -> normal_path p.
Proof.
  unfold _normalize_relpath. intros [_ Hp]%seq_Ok. apply seq_Ok in Hp as [_ Hp].
  apply bind_Ok in Hp as (parts & Hs & Hp). apply seq_Ok in Hp as [Hne [= <-]].
  rewrite raise_if_Ok, bool_decide_eq_false in Hne. exists parts. split; [done|]. split; [done|].
  apply normalize_segments_Ok in Hs as (kept & -> & Hk). cbn. apply Forall_forall.
  intros s (Hin & ? & ? & ?)%Hk. repeat (split; [done|]). split.
  - apply no_slash. by eapply split_at_pieces.
  - intros Hb. apply (split_at_elem _ _ _ _ Hin), replace_char_elem in Hb as [? |[_ ?]]; done.
Qed.

Lemma join_elem sep segs c : c ∈ join sep segs -> c ∈ sep \/ exists s, s ∈ segs /\ c ∈ s.
Proof.
  induction segs as [|s segs IH]; [by intros ?%elem_of_nil|]. destruct segs as [|s' segs].
  - cbn. intros Hc. right. exists s. split; [by left|done].
  - change (join sep (s :: s' :: segs)) with (s ++ sep ++ join sep (s' :: segs)).
    rewrite !elem_of_app. intros [Hc|[Hc|[Hc|(x & Hx & Hc)]%IH]]; [|by left|by left|].
    + right. exists s. split; [by left|done].
    + right. exists x. split; [by right|done].
Qed.

(** Normalisation is idempotent: a normal path is its own normal form. *)
Lemma normalize_relpath_id p : normal_path p -> _normalize_relpath p = Ok p.
Proof.
  intros (segs & Hne & -> & Hs). unfold _normalize_relpath. destruct segs as [|s segs]; [done|].
  assert (Hs1 := Hs). apply Forall_cons in Hs1 as [(Hs0 & _ & _ & Hsl & _) _].
  assert (exists c t, join [slash] (s :: segs) = c :: t /\ c <> slash) as (c & t & Hj & Hc).
  { destruct s as [|c s]; [done|]. exists c. rewrite not_elem_of_cons in Hsl.
    destruct segs; cbn; eexists; (split; [reflexivity|]); naive_solver. }
  rewrite replace_char_id.
  - rewrite split_at_join; [|done|].
    + rewrite normalize_segments_plain by done. rewrite Hj. cbn [raise_if].
      rewrite bool_decide_false by done. cbn [raise_if mbind result_bind].
      assert (startswith [slash] (c :: t) = false) as ->
        by (change ((slash =? c)%N && true = false); rewrite andb_true_r; apply N.eqb_neq; congruence).
      cbn. by rewrite <- Hj.
    + intros w Hw. apply no_slash. rewrite Forall_forall in Hs. by destruct (Hs _ Hw) as (_ & _ & _ & ? & _).
  - intros [Hb%list_elem_of_singleton|(w & Hw & Hb)]%join_elem; [done|].
    rewrite Forall_forall in Hs. by destruct (Hs _ Hw) as (_ & _ & _ & _ & ?).
Qed.

(** ** The normalised contents *)

Definition norm_item (item : pystr * bytes) : pystr * bytes :=
  (default [] (result_to_option (_normalize_relpath item.1)), item.2).

Lemma normalize_entries_Ok items acc m :
  normalize_entries items acc = Ok m <->
  (forall it, it ∈ items -> is_ok (_normalize_relpath it.1) = true) /\
  NoDup (norm_item <$> items).*1 /\
  (forall p, p ∈ (norm_item <$> items).*1 -> acc !! p = None) /\
  m = list_to_map (norm_item <$> items) ∪ acc.
Proof.
  revert acc. induction items as [|[raw content] items IH]; intros acc; cbn [normalize_entries fmap list_fmap].
  - cbn. rewrite (left_id_L ∅ (∪)). split; [|naive_solver]. intros [= ->].
    split; [by intros ? ?%elem_of_nil|]. split; [constructor|]. split; [by intros ? ?%elem_of_nil|done].
  - destruct (_normalize_relpath raw) as [norm|e] eqn:En.
    2:{ cbn. split; [done|]. intros [Hall _]. specialize (Hall (raw, content) ltac:(by left)).
        cbn in Hall. by rewrite En in Hall. }
    cbn [mbind result_bind]. rewrite seq_Ok, raise_if_Ok, bool_decide_eq_false, IH.
    assert (norm_item (raw, content) = (norm, content)) as Hn by (unfold norm_item; cbn; by rewrite En).
    change (list_fmap _ _ norm_item items) with (norm_item <$> items). rewrite Hn. cbn [fst].
    change (list_fmap _ _ fst (norm_item <$> items)) with (norm_item <$> items).*1.
    rewrite NoDup_cons, <- eq_None_not_Some. split.
    + intros (Hnone & Hall & Hnd & Hacc & ->).
      assert (norm ∉ (norm_item <$> items).*1) as Hni.
      { intros Hin. specialize (Hacc _ Hin). by rewrite lookup_insert_eq in Hacc. }
      split; [|split; [|split]].
      * intros it [-> |Hit]%elem_of_cons; [cbn; by rewrite En|auto].
      * done.
      * intros p [-> |Hp]%elem_of_cons; [done|]. specialize (Hacc _ Hp).
        by apply lookup_insert_None in Hacc as [? _].
      * change (list_to_map ((norm, content) :: (norm_item <$> items)))
          with (<[norm := content]> (list_to_map (norm_item <$> items) : gmap pystr bytes)).
        rewrite <- insert_union_l, insert_union_r; [done|]. by apply not_elem_of_list_to_map_1.
    + intros (Hall & [Hni Hnd] & Hacc & ->). split; [apply Hacc; by left|].
      split; [intros; apply Hall; by right|]. split; [done|]. split.
      * intros p Hp. apply lookup_insert_None. split; [apply Hacc; by right|]. congruence.
      * change (list_to_map ((norm, content) :: (norm_item <$> items)))
          with (<[norm := content]> (list_to_map (norm_item <$> items) : gmap pystr bytes)).
        rewrite <- insert_union_l, insert_union_r; [done|]. by apply not_elem_of_list_to_map_1.
Qed.

Lemma normalize_entries_Permutation b b' m :
  b ≡ₚ b' -> normalize_entries b ∅ = Ok m -> normalize_entries b' ∅ = Ok m.
Proof.
  intros Hp. rewrite !normalize_entries_Ok. intros (Hall & Hnd & _ & ->).
  assert (norm_item <$> b ≡ₚ norm_item <$> b') as Hn by by rewrite Hp.
  split; [by setoid_rewrite <- Hp|]. split; [by rewrite <- Hn|].
  split; [intros; apply lookup_empty|]. f_equal. by apply list_to_map_proper.
Qed.

Lemma elem_of_sorted_entries m p c : (p, c) ∈ sorted_entries m <-> m !! p = Some c.
Proof. unfold sorted_entries. by rewrite elem_of_sort_by, elem_of_map_to_list. Qed.

(** ** The manifest *)

Lemma decimal_no_colon z : (58%N : N) ∉ str_of_Z z.
Proof.
  intros Hin. pose proof (str_of_Z_chars z) as Hz. rewrite Forall_forall in Hz.
  by specialize (Hz _ Hin).
Qed.

(** Text of a given encoded length is determined in front of any text. *)
Lemma utf8_length_app_inj s1 s2 b1 b2 r1 r2 :
  utf8_encode s1 = Some b1 -> utf8_encode s2 = Some b2 -> length b1 = length b2 ->
  s1 ++ r1 = s2 ++ r2 -> s1 = s2 /\ r1 = r2.
Proof.
  assert (forall s k b c, utf8_encode (s ++ k) = Some b -> utf8_encode s = Some c ->
    length b = length c -> k = []) as Hk.
  { intros s k b c (x & y & Hx & Hy%utf8_encode_length & ->)%utf8_encode_app Hc Hl.
    simplify_eq. rewrite length_app in Hl. destruct k; [done|cbn in Hy; lia]. }
  intros H1 H2 Hl [(k & -> & ->)|(k & -> & ->)]%app_eq_inv.
  - rewrite (Hk _ _ _ _ H1 H2 Hl). by rewrite app_nil_r.
  - rewrite (Hk _ _ _ _ H2 H1 (eq_sym Hl)). by rewrite app_nil_r.
Qed.

(** The framing is unambiguous: neither a path nor a digest can imitate the
    next field. *)
Lemma frame_app_inj b1 b2 n1 n2 d1 d2 r1 r2 :
  utf8_encode n1 = Some b1 -> utf8_encode n2 = Some b2 ->
  length d1 = length d2 ->
  frame b1 n1 d1 ++ r1 = frame b2 n2 d2 ++ r2 -> n1 = n2 /\ d1 = d2 /\ r1 = r2.
Proof.
  intros H1 H2 Hd. unfold frame. rewrite <- !app_assoc.
  intros [Hb Heq]%app_delim_inj; try apply decimal_no_colon. apply str_of_Z_inj in Hb.
  apply (utf8_length_app_inj _ _ _ _ _ _ H1 H2) in Heq as [-> Heq]; [|lia].
  split; [done|]. cbn [app] in Heq. injection Heq as Heq. rewrite Hd in Heq.
  apply (inj (_ ++.)) in Heq. injection Heq as Heq.
  apply app_inj_1 in Heq as [-> [= ->]]; done.
Qed.

Definition digests (entries : SkillBundle) : list (pystr * pystr) :=
  (fun e => (e.1, hexdigest e.2)) <$> entries.

Lemma manifest_of_inj es1 es2 t :
  manifest_of es1 = Ok t -> manifest_of es2 = Ok t -> digests es1 = digests es2.
Proof.
  assert (forall b n d r, frame b n d ++ r <> []) as Hne.
  { intros b n d r Hf. unfold frame in Hf. rewrite <- !app_assoc in Hf.
    apply app_eq_nil in Hf as [Hf _]. by apply str_of_Z_nonempty in Hf. }
  revert es2 t. induction es1 as [|[n1 c1] es1 IH]; intros [|[n2 c2] es2] t; cbn [manifest_of]; [done|..].
  - destruct (utf8_encode n2) as [b2|]; [|done].
    intros [= <-] (r2 & _ & [= Hf])%bind_Ok. by apply Hne in Hf.
  - destruct (utf8_encode n1) as [b1|]; [|done].
    intros (r1 & _ & [= <-])%bind_Ok [= Hf]. symmetry in Hf. by apply Hne in Hf.
  - destruct (utf8_encode n1) as [b1|] eqn:E1; [|done]. destruct (utf8_encode n2) as [b2|] eqn:E2; [|done].
    intros (r1 & H1 & [= <-])%bind_Ok (r2 & H2 & [= Hf])%bind_Ok.
    apply (frame_app_inj _ _ _ _ _ _ _ _ E2 E1) in Hf as (-> & Hd & ->);
      [|by rewrite !hexdigest_length].
    cbn. f_equal; [by rewrite Hd|]. eapply IH; eauto.
Qed.

(** ** Properties *)

(** What a hash stands for. *)
Definition contents (b : SkillBundle) (m : gmap pystr bytes) : Prop := normalize_entries b ∅ = Ok m.

(** A SHA-256 collision among what the two bundles give to the hash: two files
    of one path, or the two manifests. *)
Definition bundle_collision (m1 m2 : gmap pystr bytes) : Prop :=
  (exists p c1 c2, m1 !! p = Some c1 /\ m2 !! p = Some c2 /\ c1 <> c2 /\ hexdigest c1 = hexdigest c2) \/
  (exists t1 t2 e1 e2, manifest_of (sorted_entries m1) = Ok t1 /\ manifest_of (sorted_entries m2) = Ok t2 /\
     utf8_encode t1 = Some e1 /\ utf8_encode t2 = Some e2 /\ e1 <> e2 /\ hexdigest e1 = hexdigest e2).

Lemma compute_hash_Ok b h :
  compute_skill_bundle_hash b = Ok h <->
  exists m t e, contents b m /\ manifest_of (sorted_entries m) = Ok t /\ utf8_encode t = Some e /\
    h = _SHA256_PREFIX ++ hexdigest e.
Proof.
  unfold compute_skill_bundle_hash, contents, manifest_digest. rewrite bind_Ok.
  setoid_rewrite bind_Ok. split.
  - intros (m & Hm & t & Ht & He). destruct (utf8_encode t) as [e|] eqn:E; [|done].
    injection He as <-. eauto 10.
  - intros (m & t & e & Hm & Ht & He & ->). exists m. split; [done|]. exists t. by rewrite He.
Qed.

(** the hash commits to the bundle.  Two bundles with one hash have the same
    files with the same contents, up to the spelling and order of their paths,
    or their contents or manifests are a SHA-256 collision; adding, removing,
    renaming or changing a file changes the hash. *)
Theorem skill_hash_commits b1 b2 h :
  compute_skill_bundle_hash b1 = Ok h -> compute_skill_bundle_hash b2 = Ok h ->
  exists m1 m2, contents b1 m1 /\ contents b2 m2 /\ (m1 = m2 \/ bundle_collision m1 m2).
Proof.
  intros (m1 & t1 & e1 & Hm1 & Ht1 & He1 & ->)%compute_hash_Ok
    (m2 & t2 & e2 & Hm2 & Ht2 & He2 & Hh)%compute_hash_Ok.
  apply (inj (_ ++.)) in Hh. exists m1, m2. split; [done|]. split; [done|].
  destruct (decide (e1 = e2)) as [<- |Hne]; [|right; right; by eauto 12].
  pose proof (utf8_encode_inj _ _ _ He1 He2) as <-.
  pose proof (manifest_of_inj _ _ _ Ht1 Ht2) as Hd.
  assert (forall m p, hexdigest <$> m !! p = (list_to_map (digests (sorted_entries m)) : gmap pystr pystr) !! p)
    as Hl.
  { intros m p. change (digests (sorted_entries m)) with (prod_map id hexdigest <$> sorted_entries m).
    rewrite list_to_map_fmap, lookup_fmap. f_equal. unfold sorted_entries.
    rewrite (list_to_map_proper _ (map_to_list m)).
    - by rewrite list_to_map_to_list.
    - rewrite sort_by_Permutation. apply NoDup_fst_map_to_list.
    - apply sort_by_Permutation. }
  destruct (decide (m1 = m2)) as [|Hm]; [by left|]. right. left.
  assert (exists p, m1 !! p <> m2 !! p) as [p Hp].
  { destruct (decide (Exists (fun p => m1 !! p <> m2 !! p) (elements (dom m1 ∪ dom m2)))) as [Hex|Hall].
    - apply Exists_exists in Hex as (p & _ & Hp). by exists p.
    - destruct Hm. apply map_eq. intros p. destruct (decide (p ∈ dom m1 ∪ dom m2)) as [Hin|Hni].
      + apply dec_stable. intros Hp. apply Hall, Exists_exists. exists p. by rewrite elem_of_elements.
      + rewrite not_elem_of_union, !not_elem_of_dom in Hni. by destruct Hni as [-> ->]. }
  pose proof (Hl m1 p) as H1. rewrite Hd, <- Hl in H1.
  destruct (m1 !! p) as [c1|] eqn:E1, (m2 !! p) as [c2|] eqn:E2; try done.
  injection H1 as H1. exists p, c1, c2. naive_solver.
Qed.

(** The keys of normalised contents are normal. *)
Lemma normal_keys b p c :
  (forall it, it ∈ b -> is_ok (_normalize_relpath it.1) = true) ->
  (list_to_map (norm_item <$> b) : gmap pystr bytes) !! p = Some c -> normal_path p.
Proof.
  intros Hok (it & Hp & Hin)%elem_of_list_to_map_2%list_elem_of_fmap.
  specialize (Hok _ Hin). unfold norm_item in Hp. injection Hp as -> _.
  destruct (_normalize_relpath it.1) as [q|] eqn:E; [|done]. by eapply normalize_relpath_normal.
Qed.

Lemma normalize_entries_self (m : gmap pystr bytes) :
  (forall p c, m !! p = Some c -> normal_path p) -> contents (map_to_list m) m.
Proof.
  intros Hm. unfold contents. rewrite normalize_entries_Ok.
  assert (norm_item <$> map_to_list m = map_to_list m) as ->.
  { rewrite <- list_fmap_id. apply fmap_ext_elem. intros [p c] Hin%elem_of_map_to_list.
    unfold norm_item. cbn. by rewrite (normalize_relpath_id p) by eauto. }
  split; [|split; [|split]].
  - intros [p c] Hin%elem_of_map_to_list. cbn. by rewrite (normalize_relpath_id p) by eauto.
  - apply NoDup_fst_map_to_list.
  - intros. apply lookup_empty.
  - by rewrite list_to_map_to_list, (right_id_L ∅ (∪)).
Qed.

Lemma compute_hash_contents b b' m h :
  contents b m -> contents b' m -> compute_skill_bundle_hash b = Ok h -> compute_skill_bundle_hash b' = Ok h.
Proof.
  rewrite !compute_hash_Ok. intros Hm Hm' (m' & t & e & Hm2 & ?). unfold contents in *.
  assert (m' = m) as -> by congruence. by exists m, t, e.
Qed.

(** A pinned value the gate accepts to compare with. *)
Definition well_formed_pin (h : pystr) : Prop :=
  exists digest, h = _SHA256_PREFIX ++ digest /\ length digest = 64 /\
    Forall (fun c => c ∈ _HEX) digest.

Lemma require_pin_Ok expected h :
  _require_well_formed_expected expected = Ok h <-> expected = Some h /\ well_formed_pin h.
Proof.
  destruct expected as [[|c e]|]; cbn [_require_well_formed_expected]; [| |naive_solver].
  { split; [done|]. intros [[= <-] (? & Hp & _)]. done. }
  rewrite !seq_Ok, !raise_if_Ok, negb_false_iff, startswith_spec, orb_false_iff, bool_decide_eq_false,
    existsb_false_elem. setoid_rewrite bool_decide_eq_false. split.
  - intros ((t & Ht) & [Hl Hh] & [= <-]). split; [done|]. rewrite Ht in *.
    rewrite drop_app_length in Hl, Hh. exists t. split; [done|]. split; [by apply dec_stable in Hl|].
    apply Forall_forall. intros x Hx. apply dec_stable. by apply Hh.
  - intros [[= <-] (t & -> & Hl & Hh)]. rewrite drop_app_length. split; [by exists t|].
    rewrite Forall_forall in Hh. split; [|done]. split; naive_solver.
Qed.

Lemma HEX_lower c : lower_hex c = true -> c ∈ _HEX.
Proof.
  unfold lower_hex, ascii_digit, in_range. rewrite orb_true_iff, !andb_true_iff, !N.leb_le. intros Hc.
  assert (c = N.of_nat (N.to_nat c)) as -> by lia.
  assert (48 <= N.to_nat c <= 57 \/ 97 <= N.to_nat c <= 102) as Hr by lia. clear Hc.
  set (n := N.to_nat c) in *. clearbody n.
  do 103 (destruct n as [|n]; [first [exfalso; lia|by_decide]|]). lia.
Qed.

Lemma compute_hash_pin b h : compute_skill_bundle_hash b = Ok h -> well_formed_pin h.
Proof.
  intros (m & t & e & _ & _ & _ & ->)%compute_hash_Ok. exists (hexdigest e).
  split; [done|]. split; [apply hexdigest_length|].
  eapply Forall_impl; [apply hexdigest_lower|apply HEX_lower].
Qed.

(** The gate opens exactly on the pinned bundle: it returns a hash precisely
    when that hash is pinned and a bundle is given whose hash it is; every
    other case raises, and a missing, empty or malformed pin raises whatever
    the bundle.  The order of the files and the spelling of their paths do not
    matter. *)
Theorem verify_skill_bundle_exact expected bundle h :
  (verify_skill_bundle expected bundle = Ok h <->
     expected = Some h /\ exists b, bundle = Some b /\ compute_skill_bundle_hash b = Ok h) /\
  (~ (exists p, expected = Some p /\ well_formed_pin p) ->
     exists e, verify_skill_bundle expected bundle = Raise e /\
       (e = SkillBundleHashMissingError \/ e = SkillBundleHashMalformedError)) /\
  (forall b b', b ≡ₚ b' -> compute_skill_bundle_hash b = Ok h -> compute_skill_bundle_hash b' = Ok h) /\
  (forall b m, contents b m -> compute_skill_bundle_hash b = Ok h ->
     compute_skill_bundle_hash (map_to_list m) = Ok h).
Proof.
  split; [|split; [|split]].
  - unfold verify_skill_bundle. rewrite bind_Ok. setoid_rewrite require_pin_Ok. split.
    + intros (p & [-> Hp] & Hv). destruct bundle as [b|]; [|done].
      apply bind_Ok in Hv as (a & Ha & Hv). apply seq_Ok in Hv as [Hv [= <-]].
      rewrite raise_if_Ok, bool_decide_eq_false in Hv. apply dec_stable in Hv as <-. eauto.
    + intros (-> & b & -> & Hb). exists h. split; [split; [done|by eapply compute_hash_pin]|].
      apply bind_Ok. exists h. split; [done|]. by rewrite bool_decide_false by naive_solver.
  - intros Hn. unfold verify_skill_bundle.
    destruct (_require_well_formed_expected expected) as [p|e] eqn:E.
    + destruct Hn. apply require_pin_Ok in E as [-> ?]. eauto.
    + exists e. split; [done|]. destruct expected as [[|c t]|]; cbn in E; [by inv_ok; auto| |by inv_ok; auto].
      rewrite !seq_Raise, !raise_if_Raise in E. naive_solver.
  - intros b b' Hp Hb. assert (exists m, contents b m) as [m Hm].
    { apply compute_hash_Ok in Hb as (m & ? & ? & ? & _). by exists m. }
    eapply compute_hash_contents; [exact Hm| |done]. by eapply normalize_entries_Permutation.
  - intros b m Hm. apply compute_hash_contents with m; [done|].
    apply normalize_entries_self. unfold contents in Hm. apply normalize_entries_Ok in Hm as (Hok & _ & _ & ->).
    intros p c Hc. rewrite (right_id_L ∅ (∪)) in Hc. by eapply normal_keys.
Qed.

Section reader_lemmas.
Context `{FileSystem}.

(** A file the reader may hand out: regular, not reached through a final
    symlink, its resolved path the root or below it. *)
Definition confined (real_root p : pystr) (c : bytes) : Prop :=
  exists target real, target = fold_left path_join (split_at (N.eqb slash) p) real_root /\
    islink target = false /\ realpath target = Some real /\
    (real = real_root \/ exists rest, real = real_root ++ [slash] ++ rest) /\
    isfile real = true /\ read_file real = Some c.

Lemma read_entry_Ok real_root raw p c :
  read_entry real_root raw = Ok (p, c) -> _normalize_relpath raw = Ok p /\ confined real_root p c.
Proof.
  unfold read_entry. intros (norm & Hn & Hr)%bind_Ok. cbn zeta in Hr.
  apply seq_Ok in Hr as [Hl%raise_if_Ok Hr]. destruct (realpath _) as [real|] eqn:Er; [|done].
  apply seq_Ok in Hr as [Hin%raise_if_Ok Hr]. apply seq_Ok in Hr as [Hf%raise_if_Ok Hr].
  destruct (read_file real) as [c'|] eqn:Ec; [|done]. injection Hr as -> ->. split; [done|].
  exists (fold_left path_join (split_at (N.eqb slash) p) real_root), real.
  split; [done|]. split; [done|]. split; [done|]. split; [|split; [by apply negb_false_iff|done]].
  apply andb_false_iff in Hin as [Hin|Hin].
  - left. apply bool_decide_eq_false in Hin. by apply dec_stable.
  - right. apply negb_false_iff, startswith_spec in Hin as [t ->]. exists t. by rewrite <- app_assoc.
Qed.

Lemma read_entries_Ok real_root rs out out' :
  read_entries real_root rs out = Ok out' ->
  (forall p c, out' !! p = Some c -> out !! p = Some c \/
     (exists raw, raw ∈ rs /\ _normalize_relpath raw = Ok p) /\ confined real_root p c) /\
  (forall p, is_Some (out !! p) \/ (exists raw, raw ∈ rs /\ _normalize_relpath raw = Ok p) ->
     is_Some (out' !! p)).
Proof.
  revert out. induction rs as [|raw rs IH]; intros out; cbn [read_entries].
  - intros [= ->]. split; [by auto|]. intros p [?|(? & ?%elem_of_nil & _)]; done.
  - intros ([q d] & [Hq Hc]%read_entry_Ok & Hrs)%bind_Ok. apply IH in Hrs as [H1 H2]. cbn [fst snd] in *.
    split.
    + intros p c Hp. destruct (H1 _ _ Hp) as [Hi|[(raw' & Hin & ?) ?]].
      * apply lookup_insert_Some in Hi as [[<- <-]|[_ ?]]; [|by left].
        right. split; [|done]. exists raw. split; [by left|done].
      * right. split; [|done]. exists raw'. split; [by right|done].
    + intros p Hp. apply H2. destruct (decide (q = p)) as [<- |Hne].
      * left. by rewrite lookup_insert_eq.
      * rewrite lookup_insert_ne by done. destruct Hp as [?|(raw' & Hin & Hn)]; [by left|].
        apply elem_of_cons in Hin as [-> |Hin]; [congruence|]. right. eauto.
Qed.

Lemma read_entries_Raise real_root rs out e :
  (forall p, realpath p <> None) -> read_entries real_root rs out = Raise e -> is_integrity_error e = true.
Proof.
  intros Hrp. assert (forall raw f, _normalize_relpath raw = Raise f -> is_integrity_error f = true) as Hn.
  { intros raw f. unfold _normalize_relpath. rewrite !seq_Raise, !raise_if_Raise, bind_Raise.
    assert (forall segs ps, normalize_segments raw segs ps = Raise f -> is_integrity_error f = true) as Hs.
    { induction segs as [|s segs IH]; intros ps; cbn [normalize_segments]; [done|].
      repeat case_match; [apply IH|by intros [= <-]|apply IH]. }
    setoid_rewrite seq_Raise. setoid_rewrite raise_if_Raise. naive_solver. }
  revert out. induction rs as [|raw rs IH]; intros out; cbn [read_entries]; [done|].
  intros [Hr|(? & _ & Hr)]%bind_Raise; [|by eapply IH]. unfold read_entry in Hr.
  apply bind_Raise in Hr as [Hr|(norm & _ & Hr)]; [by eapply Hn|]. cbn zeta in Hr.
  rewrite seq_Raise, raise_if_Raise in Hr. destruct Hr as [[_ <-]|[_ Hr]]; [done|].
  destruct (realpath _) as [real|] eqn:Er; [|by apply Hrp in Er].
  rewrite !seq_Raise, !raise_if_Raise in Hr. destruct (read_file real); naive_solver.
Qed.

(** the reader stays inside the root.  What it returns are the files named,
    under their normal paths (no empty, [.] or [..] segment, so reading them
    again or hashing them changes nothing), each a regular file whose resolved
    path is the resolved root or below it and whose last component is no
    symlink; and as long as paths resolve, what it raises is an integrity
    error. *)
Theorem read_skill_bundle_confined root relpaths :
  (forall out, read_skill_bundle root relpaths = Ok out ->
     exists real_root, realpath root = Some real_root /\ isdir real_root = true /\
       (forall p c, out !! p = Some c -> normal_path p /\ confined real_root p c) /\
       (forall p, is_Some (out !! p) <-> exists raw, raw ∈ relpaths /\ _normalize_relpath raw = Ok p) /\
       contents (map_to_list out) out) /\
  ((forall p, realpath p <> None) -> forall e, read_skill_bundle root relpaths = Raise e ->
     is_integrity_error e = true).
Proof.
  unfold read_skill_bundle. destruct (realpath root) as [real_root|] eqn:Er; [|naive_solver]. split.
  - intros out [Hd%raise_if_Ok%negb_false_iff Hr]%seq_Ok. apply read_entries_Ok in Hr as [H1 H2].
    assert (forall p c, out !! p = Some c ->
      (exists raw, raw ∈ relpaths /\ _normalize_relpath raw = Ok p) /\ confined real_root p c) as H3.
    { intros p c Hp. destruct (H1 _ _ Hp) as [Hl|?]; [|done]. by rewrite lookup_empty in Hl. }
    assert (forall p c, out !! p = Some c -> normal_path p) as H4.
    { intros p c [(raw & _ & ?) _]%H3. by eapply normalize_relpath_normal. }
    exists real_root. split; [done|]. split; [done|]. split; [|split].
    + intros p c Hp. split; [by eapply H4|by apply H3].
    + intros p. split; [|by auto]. intros [c Hp]. by apply H3 in Hp as [? _].
    + by apply normalize_entries_self.
  - intros Hrp e [Hr|[_ Hr]]%seq_Raise; [|by eapply read_entries_Raise].
    by apply raise_if_Raise in Hr as [_ <-].
Qed.
End reader_lemmas.

Module Witness.
Definition bundle_1 : SkillBundle := [(u "b", u "hello"); (u "a", u "x")].

(** The hash the Python function computes. *)
Example bundle_1_hash : compute_skill_bundle_hash bundle_1 =
  Ok (u "sha256:6bd2bececa032382bf8fc0512681440064117e087336dd7bf4f11245b4b9ed08").
Proof. vm_compute. reflexivity. Qed.

Lemma skill_hash_commits_witness :
  exists m1 m2, contents bundle_1 m1 /\ contents (reverse bundle_1) m2 /\
    (m1 = m2 \/ bundle_collision m1 m2).
Proof.
  refine (skill_hash_commits bundle_1 (reverse bundle_1)
    (u "sha256:6bd2bececa032382bf8fc0512681440064117e087336dd7bf4f11245b4b9ed08") _ _);
    vm_compute; reflexivity.
Defined.

(** A path with a lone surrogate escapes the gate's error hierarchy. *)
Example surrogate_path_uncaught :
  verify_skill_bundle (Some (_SHA256_PREFIX ++ hexdigest [])) (Some [([55296%N], u "x")]) =
  Raise SkillUnicodeEncodeError.
Proof. vm_compute. reflexivity. Qed.

(** Framing: a path that contains a line feed and digits is no boundary. *)
Example framing :
  is_ok (compute_skill_bundle_hash [(u "a" ++ [10%N] ++ u "1:b", [])]) = true.
Proof. vm_compute. reflexivity. Qed.
End Witness.
