(* ===== verification/Privacy.v ===== *)
(** Aggregate privacy (src/packages/domain/src/saena_domain/privacy): the
    k-anonymity gate, the de-identification status transitions and the publish
    guard of aggregate envelopes.

    Envelopes are Python dicts of JSON values ([PyVal]); the pydantic instance
    the guard also accepts is the dict it dumps to. *)

From S2P Require Import Prelude.
From S2P Require Import PyStr.
From S2P Require Import PyVal.

Inductive privacy_exn :=
  | SuppressedEventError
  | NotPublishableError
  | ForbiddenIdentifierPresentError (key : pystr)
  | WrongContextTypeError
  | InconsistentGateResult
  | InvalidDeIdentificationTransitionError
  | GateRequiredForKAnonymizedError
  | Builtin (e : pyexn).

(** [except PrivacyGuardError] *)
Definition is_PrivacyGuardError (e : privacy_exn) : bool :=
  match e with
  | SuppressedEventError | NotPublishableError | ForbiddenIdentifierPresentError _
  | WrongContextTypeError => true
  | _ => false
  end.

(** ** gate.py *)

Inductive GateDecision := ALLOWED | SUPPRESSED.
#[export] Instance GateDecision_eq_dec : EqDecision GateDecision.
Proof. solve_decision. Defined.

Record KAnonymityGateResult := {
  decision : GateDecision; cohort_size : Z; privacy_threshold : Z; reason : pystr
}.

Definition MINIMUM_VALUE : Z := 1.

Definition _validate_type (value : pyval) : result privacy_exn Z :=
  match value with PInt z => Ok z | _ => Raise (Builtin TypeError) end.

Definition _validate_minimum (value : Z) : result privacy_exn unit :=
  raise_if (value <? MINIMUM_VALUE)%Z (Builtin ValueError).

Definition _compute (cohort threshold : pyval) : result privacy_exn KAnonymityGateResult :=
  c ← _validate_type cohort;
  t ← _validate_type threshold;
  _ ← _validate_minimum c;
  _ ← _validate_minimum t;
  let '(d, r) := if (t <=? c)%Z then (ALLOWED, u "cohort_size_meets_threshold")
                 else (SUPPRESSED, u "cohort_size_below_threshold") in
  Ok {| decision := d; cohort_size := c; privacy_threshold := t; reason := r |}.

Definition evaluate (cohort threshold : pyval) : result privacy_exn KAnonymityGateResult :=
  _compute cohort threshold.

(** The constructor a caller can reach: [__post_init__] recomputes. *)
Definition make_KAnonymityGateResult (d : GateDecision) (c t : Z) (r : pystr)
    : result privacy_exn KAnonymityGateResult :=
  expected ← _compute (PInt c) (PInt t);
  _ ← raise_if (bool_decide (decision expected <> d)) InconsistentGateResult;
  Ok {| decision := d; cohort_size := c; privacy_threshold := t; reason := r |}.

(** ** status.py *)

Inductive DeIdentificationStatus := k_anonymized | suppressed | pending_review.
#[export] Instance DeIdentificationStatus_eq_dec : EqDecision DeIdentificationStatus.
Proof. solve_decision. Defined.

Definition _ALLOWED_TRANSITIONS : list (DeIdentificationStatus * DeIdentificationStatus) :=
  [(pending_review, k_anonymized); (pending_review, suppressed)].

Definition transition (from_status to_status : DeIdentificationStatus)
    (gate_result : option KAnonymityGateResult)
    : result privacy_exn (DeIdentificationStatus * DeIdentificationStatus) :=
  _ ← raise_if (bool_decide ((from_status, to_status) ∉ _ALLOWED_TRANSITIONS))
        InvalidDeIdentificationTransitionError;
  _ ← raise_if (bool_decide (to_status = k_anonymized) &&
                match gate_result with
                | None => true
                | Some g => bool_decide (decision g <> ALLOWED)
                end) GateRequiredForKAnonymizedError;
  Ok (from_status, to_status).

(** ** guard.py *)

Abbreviation dict := (list (pystr * pyval)).

Definition _FORBIDDEN_KEYS : list pystr := [u "tenant_id"; u "run_id"].
Definition _REQUIRED_KEYS : list pystr :=
  [u "cohort_size"; u "privacy_threshold"; u "de_identification_status"; u "lineage_audit_ref"].
Definition _REQUIRED_CONTEXT_TYPE : pystr := u "aggregate".

Definition has_key (data : dict) (k : pystr) : bool := bool_decide (is_Some (dget data k)).

Definition _status_of (raw_status : pyval) : result privacy_exn DeIdentificationStatus :=
  match raw_status with
  | PStr s =>
      if bool_decide (s = u "k_anonymized") then Ok k_anonymized
      else if bool_decide (s = u "suppressed") then Ok suppressed
      else if bool_decide (s = u "pending_review") then Ok pending_review
      else Raise (Builtin ValueError)
  | _ => Raise (Builtin TypeError)
  end.

(** [data[key]] after the check that the key is there. *)
Definition item (data : dict) (k : pystr) : pyval := default PNone (dget data k).

Definition context_is (data : dict) (c : pystr) : bool :=
  match dget data (u "context_type") with Some (PStr s) => bool_decide (s = c) | _ => false end.

Fixpoint reject_forbidden (keys : list pystr) (data : dict) : result privacy_exn unit :=
  match keys with
  | [] => Ok tt
  | k :: keys =>
      _ ← raise_if (has_key data k) (ForbiddenIdentifierPresentError k);
      reject_forbidden keys data
  end.

Definition guard_aggregate_publish (data : dict) : result privacy_exn unit :=
  _ ← raise_if (negb (context_is data _REQUIRED_CONTEXT_TYPE)) WrongContextTypeError;
  _ ← reject_forbidden _FORBIDDEN_KEYS data;
  _ ← raise_if (existsb (fun k => negb (has_key data k)) _REQUIRED_KEYS) (Builtin ValueError);
  _ ← raise_if match item data (u "lineage_audit_ref") with
               | PStr (_ :: _) => false
               | _ => true
               end (Builtin ValueError);
  status ← _status_of (item data (u "de_identification_status"));
  _ ← raise_if (bool_decide (status = suppressed)) SuppressedEventError;
  _ ← raise_if (bool_decide (status = pending_review)) NotPublishableError;
  gate_result ← evaluate (item data (u "cohort_size")) (item data (u "privacy_threshold"));
  raise_if (bool_decide (decision gate_result <> ALLOWED)) SuppressedEventError.

(** ** Lemmas *)

Lemma compute_Ok cohort threshold g :
  _compute cohort threshold = Ok g ->
  exists c t, cohort = PInt c /\ threshold = PInt t /\ (1 <= c)%Z /\ (1 <= t)%Z /\
    cohort_size g = c /\ privacy_threshold g = t /\ (decision g = ALLOWED <-> (t <= c)%Z).
Proof.
  unfold _compute, _validate_type, _validate_minimum, MINIMUM_VALUE.
  destruct cohort as [| |c| | | | |]; try done. destruct threshold as [| |t| | | | |]; try done.
  cbn [mbind result_bind]. rewrite !seq_Ok, !raise_if_Ok, !Z.ltb_ge. intros (Hc & Ht & Hg).
  exists c, t. destruct (Z.leb_spec t c); injection Hg as <-; cbn; (do 6 (split; [done|]));
    split; intros; first [discriminate | exfalso; lia | done].
Qed.

Lemma compute_allowed c t :
  (1 <= t <= c)%Z -> exists g, _compute (PInt c) (PInt t) = Ok g /\ decision g = ALLOWED.
Proof.
  intros [Ht Hc]. unfold _compute, _validate_minimum, MINIMUM_VALUE. cbn [mbind result_bind _validate_type].
  rewrite (proj2 (Z.ltb_ge c 1)), (proj2 (Z.ltb_ge t 1)), (proj2 (Z.leb_le t c)) by lia.
  cbn. eexists. split; reflexivity.
Qed.

Lemma has_key_true data k : has_key data k = true <-> exists v, dget data k = Some v.
Proof. unfold has_key. by rewrite bool_decide_eq_true. Qed.

Lemma has_key_false data k : has_key data k = false <-> dget data k = None.
Proof. unfold has_key. by rewrite bool_decide_eq_false, eq_None_not_Some. Qed.

Lemma reject_forbidden_Ok keys data x :
  reject_forbidden keys data = Ok x <-> forall k, k ∈ keys -> dget data k = None.
Proof.
  destruct x. induction keys as [|k keys IH]; cbn [reject_forbidden].
  - split; [|done]. intros _ k Hk. by apply elem_of_nil in Hk.
  - rewrite seq_Ok, raise_if_Ok, has_key_false, IH. setoid_rewrite elem_of_cons. naive_solver.
Qed.

Lemma status_of_Ok raw s :
  _status_of raw = Ok s <->
  raw = PStr match s with
             | k_anonymized => u "k_anonymized"
             | suppressed => u "suppressed"
             | pending_review => u "pending_review"
             end.
Proof.
  unfold _status_of. destruct raw as [| | | |r| | |]; try (split; [done|by destruct s]).
  split.
  - repeat (case_bool_decide; [intros [= <-]; by subst|]). done.
  - intros [= ->]. destruct s; vm_compute; reflexivity.
Qed.

(** A publishable aggregate envelope. *)
Record publishable (data : dict) : Prop := {
  pb_context : dget data (u "context_type") = Some (PStr (u "aggregate"));
  pb_tenant : dget data (u "tenant_id") = None;
  pb_run : dget data (u "run_id") = None;
  pb_lineage : exists l, dget data (u "lineage_audit_ref") = Some (PStr l) /\ l <> [];
  pb_status : dget data (u "de_identification_status") = Some (PStr (u "k_anonymized"));
  pb_cohort : exists c t, dget data (u "cohort_size") = Some (PInt c) /\
    dget data (u "privacy_threshold") = Some (PInt t) /\ (1 <= t <= c)%Z
}.

Lemma context_is_true data c :
  context_is data c = true <-> dget data (u "context_type") = Some (PStr c).
Proof.
  unfold context_is. destruct (dget data (u "context_type")) as [[]|]; try (split; congruence).
  rewrite bool_decide_eq_true. naive_solver.
Qed.

Lemma guard_Ok_iff data x : guard_aggregate_publish data = Ok x <-> publishable data.
Proof.
  destruct x. unfold guard_aggregate_publish.
  rewrite !seq_Ok, reject_forbidden_Ok, !raise_if_Ok, negb_false_iff, context_is_true, existsb_false_elem.
  setoid_rewrite negb_false_iff. setoid_rewrite has_key_true. split.
  - intros (Hc & Hf & Hr & Hl & (s & Hs%status_of_Ok & Hst)%bind_Ok).
    apply seq_Ok in Hst as [H1 Hst]. apply seq_Ok in Hst as [H2 Hst].
    apply bind_Ok in Hst as (g & (c & t & Hco & Hth & ? & ? & _ & _ & Hg)%compute_Ok & H3).
    rewrite raise_if_Ok, bool_decide_eq_false in H1, H2, H3. apply dec_stable in H3.
    assert (forall k, k ∈ _REQUIRED_KEYS -> dget data k = Some (item data k)) as Hitem.
    { intros k Hk. unfold item. by destruct (Hr k Hk) as [v ->]. }
    constructor; [done|apply Hf; by_decide|apply Hf; by_decide| | |].
    + rewrite (Hitem (u "lineage_audit_ref")) by by_decide.
      destruct (item data (u "lineage_audit_ref")) as [| | | |[|a l]| | |]; try done. eauto.
    + rewrite (Hitem (u "de_identification_status")), Hs by by_decide. by destruct s.
    + exists c, t. rewrite <- Hco, <- Hth, !Hitem by by_decide. split; [done|]. split; [done|].
      apply Hg in H3. lia.
  - intros [Hc Ht Hrun (l & Hl & Hne) Hs (c & t & Hco & Hth & Hct)]. split; [done|]. split.
    { intros k Hk. unfold _FORBIDDEN_KEYS in Hk. rewrite !elem_of_cons, elem_of_nil in Hk. naive_solver. }
    split.
    { intros k Hk. unfold _REQUIRED_KEYS in Hk. rewrite !elem_of_cons, elem_of_nil in Hk.
      destruct Hk as [-> |[-> |[-> |[-> |[]]]]]; eauto. }
    unfold item. rewrite Hl, Hs, Hco, Hth. cbn [default from_option id]. split; [by destruct l|].
    apply bind_Ok. exists k_anonymized. split; [by apply status_of_Ok|].
    rewrite !seq_Ok, !raise_if_Ok, !bool_decide_eq_false. split; [done|]. split; [done|].
    destruct (compute_allowed c t Hct) as (g & Hg & Hd). apply bind_Ok. exists g. split; [done|].
    rewrite raise_if_Ok, bool_decide_eq_false, Hd. tauto.
Qed.

(** ** Properties *)

(** the publish guard lets an envelope pass exactly when it is an aggregate
    one that names no tenant and no run, has a lineage reference, is marked
    k-anonymised, and has a cohort at least as large as its threshold, both
    positive integers.  Nothing can launder the mark: a gate result that says
    ALLOWED exists only with such numbers, and a transition ends in
    k-anonymised only from review and with such a result. *)
Theorem guard_aggregate_publish_exact data :
  (guard_aggregate_publish data = Ok tt <-> publishable data) /\
  (forall d c t r g, make_KAnonymityGateResult d c t r = Ok g ->
     decision g = d /\ (d = ALLOWED <-> (1 <= t <= c)%Z)) /\
  (forall from to g p, transition from to g = Ok p ->
     from = pending_review /\
     (to = suppressed \/ to = k_anonymized /\ exists r, g = Some r /\ decision r = ALLOWED)).
Proof.
  split; [apply guard_Ok_iff|]. split.
  - intros d c t r g. unfold make_KAnonymityGateResult.
    intros (e & (c' & t' & [= <-] & [= <-] & ? & ? & _ & _ & He)%compute_Ok & Hd)%bind_Ok.
    apply seq_Ok in Hd as [Hd [= <-]]. rewrite raise_if_Ok, bool_decide_eq_false in Hd.
    apply dec_stable in Hd as <-. cbn. split; [done|]. rewrite He. lia.
  - intros from to g p. unfold transition. intros [Ht Hp]%seq_Ok. apply seq_Ok in Hp as [Hg _].
    rewrite raise_if_Ok, bool_decide_eq_false in Ht. apply dec_stable in Ht.
    unfold _ALLOWED_TRANSITIONS in Ht. rewrite !elem_of_cons, elem_of_nil in Ht.
    destruct Ht as [[= -> ->]|[[= -> ->]|[]]]; (split; [done|]); [right|by left]. split; [done|].
    rewrite raise_if_Ok in Hg. cbn in Hg. destruct g as [r|]; [|done]. exists r. split; [done|].
    apply bool_decide_eq_false in Hg. by apply dec_stable in Hg.
Qed.

Module Witness.
Definition cohort_of (c t : Z) : dict :=
  [(u "context_type", PStr (u "aggregate")); (u "cohort_size", PInt c);
   (u "privacy_threshold", PInt t); (u "de_identification_status", PStr (u "k_anonymized"));
   (u "lineage_audit_ref", PStr (u "audit:sha256:00"))].

Example boundary_allowed : guard_aggregate_publish (cohort_of 5 5) = Ok tt.
Proof. vm_compute. reflexivity. Qed.
Example below_suppressed : guard_aggregate_publish (cohort_of 4 5) = Raise SuppressedEventError.
Proof. vm_compute. reflexivity. Qed.
End Witness.
