(* ===== verification/Bus.v ===== *)
(** The event bus: the in-memory outbox and idempotency store
    (src/packages/domain/src/saena_domain/persistence/memory.py), the outbox
    drainer, the envelope check and the idempotent consumer
    (src/packages/domain/src/saena_domain/bus).

    An envelope is a Python dict.  The dual schema validation (jsonschema and
    the generated pydantic model) and the topic catalogue parsed from the
    AsyncAPI document are the class [EnvelopeContract].  A publisher decides per
    attempt what it comes to: acknowledged, or failed, and then the message may
    have landed all the same (a timeout).  What landed is a log, in order.
    [drain_once] awaits its ports in sequence and is run to its end. *)

From Stdlib Require Import SpecFloat.
From S2P Require Import Prelude.
From S2P Require Import PyStr.
From S2P Require Import Regex.
From S2P Require Import PyVal.
From S2P Require Import AuditGuard.
From S2P Require Import AuditChain.
From S2P Require Import Identity.
From S2P Require Import Privacy.

(** ** Equality of values *)

(** [float == int], exact. *)
Definition float_eq_Z (f : f64) (z : Z) : bool :=
  match proj1_sig f with
  | S754_zero _ => (z =? 0)%Z
  | S754_finite s m e =>
      let sm := if s then Z.neg m else Z.pos m in
      if (0 <=? e)%Z then (z =? sm * 2 ^ e)%Z else (z * 2 ^ (- e) =? sm)%Z
  | _ => false
  end.

(** A number is an integer (a Boolean is 0 or 1) or a float. *)
Definition num_of (v : pyval) : option (Z + f64) :=
  match v with
  | PBool b => Some (inl (if b then 1 else 0)%Z)
  | PInt z => Some (inl z)
  | PFloat f => Some (inr f)
  | _ => None
  end.

Definition num_eq (a b : Z + f64) : bool :=
  match a, b with
  | inl x, inl y => (x =? y)%Z
  | inl x, inr f | inr f, inl x => float_eq_Z f x
  | inr f, inr g => SFeqb (proj1_sig f) (proj1_sig g)
  end.

(** Python's [==] on values: dicts up to order, numbers across types.  A NaN
    differs from itself; Python's exception for one and the same object inside
    a container is not modelled. *)
Fixpoint py_eq (v w : pyval) : bool :=
  match v, w with
  | PNone, PNone => true
  | PStr s, PStr t => bool_decide (s = t)
  | PBytes s, PBytes t => bool_decide (s = t)
  | PList l, PList k =>
      (fix go l k := match l, k with
                     | [], [] => true
                     | x :: l, y :: k => py_eq x y && go l k
                     | _, _ => false
                     end) l k
  | PDict d, PDict e =>
      (length d =? length e) &&
      forallb (fun kv => match dget e kv.1 with Some x => py_eq kv.2 x | None => false end) d
  | _, _ => match num_of v, num_of w with Some a, Some b => num_eq a b | _, _ => false end
  end.

(** ** Envelopes *)

Class EnvelopeContract := {
  envelope_errors : dict -> list pystr;
  topic_catalog : gmap pystr pystr
}.

(** [envelope.get(k)] when it is a string. *)
Definition sfield (e : dict) (k : pystr) : option pystr :=
  match dget e k with Some (PStr s) => Some s | _ => None end.

Inductive bus_exn :=
  | OutboxValidationError
  | NotFoundError
  | TenantIsolationError
  | PublishFailedError
  | ForbiddenData (e : ForbiddenAuditDataError)
  | InvalidOwner (e : identity_exn)
  | Privacy (e : privacy_exn)
  | MissingField (k : pystr).

(** [envelope[k]], a string by the envelope contract. *)
Definition key_of (e : dict) (k : pystr) : result bus_exn pystr :=
  match sfield e k with Some s => Ok s | None => Raise (MissingField k) end.

(** ** persistence/memory.py: InMemoryOutbox *)

Record Outbox := { entries : gmap pystr dict; order : list pystr; published_ids : gset pystr }.
Definition empty_outbox : Outbox := {| entries := ∅; order := []; published_ids := ∅ |}.

Definition envelope_owner (e : dict) : option pystr :=
  if context_is e (u "tenant") then sfield e (u "tenant_id") else None.

Section outbox.
Context `{EnvelopeContract, UnicodeDB}.

Definition check_envelope (e : dict) : result bus_exn unit :=
  raise_if (bool_decide (envelope_errors e <> [])) OutboxValidationError.

Definition record (e : dict) (o : Outbox) : result bus_exn (Outbox * dict) :=
  _ ← check_envelope e;
  _ ← try_except (guard_payload (default (PDict []) (dget e (u "payload"))) [])
        (fun x => Raise (ForbiddenData x));
  event_id ← key_of e (u "event_id");
  match entries o !! event_id with
  | Some existing =>
      if py_eq (PDict existing) (PDict e) then Ok (o, existing) else Raise OutboxValidationError
  | None =>
      Ok ({| entries := <[event_id := e]> (entries o); order := order o ++ [event_id];
             published_ids := published_ids o |}, e)
  end.
End outbox.

Definition pending_ids (o : Outbox) : list pystr :=
  filter (fun i => i ∉ published_ids o) (order o).

Definition in_scope (tenant_id : option pystr) (e : dict) : bool :=
  match tenant_id with
  | None => true
  | Some t => context_is e (u "tenant") && bool_decide (sfield e (u "tenant_id") = Some t)
  end.

Definition list_pending (tenant_id : option pystr) (o : Outbox) : list dict :=
  filter (fun e => in_scope tenant_id e = true)
    ((fun i => default [] (entries o !! i)) <$> pending_ids o).

Definition mark_published (tenant_id : option pystr) (event_id : pystr) (o : Outbox)
    : result bus_exn Outbox :=
  match entries o !! event_id with
  | None => Raise NotFoundError
  | Some entry =>
      _ ← raise_if (bool_decide (envelope_owner entry <> tenant_id)) TenantIsolationError;
      Ok {| entries := entries o; order := order o;
            published_ids := {[ event_id ]} ∪ published_ids o |}
  end.

(** ** bus/_envelope_check.py, bus/publisher.py *)

(** The messages of a rejection, by kind. *)
Inductive reject_message :=
  | SchemaMessage (m : pystr)
  | UnknownTopic (event_type : option pyval)
  | WrongProducer (producer : option pyval) (expected : pystr).

(** What is sent: an envelope, or one with its [_dlq_reason]. *)
Inductive message :=
  | Envelope (e : dict)
  | DeadLetter (e : dict) (reasons : list reject_message).

Definition message_envelope (m : message) : dict :=
  match m with Envelope e | DeadLetter e _ => e end.

Definition dlq_topic_for (topic : pystr) : pystr := topic ++ u ".dlq".

(** What an attempt to publish comes to.  An attempt that failed for the client
    may have landed: delivery is at least once. *)
Inductive attempt := Acknowledged | Failed (landed : bool).
#[export] Instance attempt_eq_dec : EqDecision attempt.
Proof. solve_decision. Defined.

(** The answer to the n-th attempt. *)
Class Publisher := { answer : nat -> pystr -> message -> attempt }.

(** The log tells of every message that landed whether it was acknowledged. *)
Record BusWorld := { b_outbox : Outbox; b_log : list (pystr * message * bool); b_attempts : nat }.

Definition landed (a : attempt) (m : pystr * message) : list (pystr * message * bool) :=
  match a with Acknowledged => [(m, true)] | Failed true => [(m, false)] | Failed false => [] end.

Inductive row_outcome := Published | DeadLettered | Suppressed | RetriedPending.
#[export] Instance row_outcome_eq_dec : EqDecision row_outcome.
Proof. solve_decision. Defined.

Record DrainResult := {
  published : list pystr; dead_lettered : list pystr; suppressed_rows : list pystr;
  retried_pending : list pystr
}.

Section drainer.
Context `{EnvelopeContract, Publisher}.

Definition structural_errors (e : dict) : list reject_message := SchemaMessage <$> envelope_errors e.

Definition topic_producer_errors (e : dict) : list reject_message :=
  match sfield e (u "event_type") ≫= fun t => topic_catalog !! t with
  | None => [UnknownTopic (dget e (u "event_type"))]
  | Some expected =>
      if bool_decide (sfield e (u "producer") <> Some expected)
      then [WrongProducer (dget e (u "producer")) expected] else []
  end.

Definition reject_messages (e : dict) : list reject_message :=
  match structural_errors e with [] => topic_producer_errors e | ms => ms end.

Abbreviation Bus := (M BusWorld bus_exn).

Definition publish (topic : pystr) (m : message) : Bus unit := fun w =>
  let a := answer (b_attempts w) topic m in
  ({| b_outbox := b_outbox w; b_log := b_log w ++ landed a (topic, m); b_attempts := S (b_attempts w) |},
   match a with Acknowledged => Ok tt | Failed _ => Raise PublishFailedError end).

(** [try: m except PublishFailedError], with whether [m] went through. *)
Definition went_through (m : Bus unit) : Bus bool := fun w =>
  match m w with
  | (w', Ok _) => (w', Ok true)
  | (w', Raise PublishFailedError) => (w', Ok false)
  | (w', Raise e) => (w', Raise e)
  end.

Definition mark (owner : option pystr) (event_id : pystr) : Bus unit :=
  try_update (fun w => o ← mark_published owner event_id (b_outbox w);
    Ok ({| b_outbox := o; b_log := b_log w; b_attempts := b_attempts w |}, tt)).

(** [_envelope_owner] of the drainer validates the tenant id it reads. *)
Definition drain_owner (e : dict) : result bus_exn (option pystr) :=
  match envelope_owner e with
  | None => Ok None
  | Some t => try_except (Some <$> make_TenantId t) (fun x => Raise (InvalidOwner x))
  end.

Definition dlq_topic (e : dict) : pystr :=
  match sfield e (u "event_type") with
  | Some t => dlq_topic_for t
  | None => u "envelope.malformed.v1.dlq"
  end.

Definition _route_to_dlq (e : dict) (messages : list reject_message) : Bus unit :=
  publish (dlq_topic e) (DeadLetter e messages).

(** The privacy check of an aggregate envelope: whether it is suppressed. *)
Definition privacy_check (e : dict) : result bus_exn bool :=
  if context_is e (u "aggregate") then
    match guard_aggregate_publish e with
    | Ok _ => Ok false
    | Raise x => if is_PrivacyGuardError x then Ok true else Raise (Privacy x)
    end
  else Ok false.

(** One iteration of the loop of [drain_once]. *)
Definition drain_row (e : dict) : Bus (pystr * row_outcome) :=
  event_id ← lift (key_of e (u "event_id"));
  owner ← lift (drain_owner e);
  suppress ← lift (privacy_check e);
  if (suppress : bool) then
    _ ← mark owner event_id; mret (event_id, Suppressed)
  else
    match reject_messages e with
    | (_ :: _) as messages =>
        sent ← went_through (_route_to_dlq e messages);
        if (sent : bool) then _ ← mark owner event_id; mret (event_id, DeadLettered)
        else mret (event_id, RetriedPending)
    | [] =>
        sent ← went_through (publish (default [] (sfield e (u "event_type"))) (Envelope e));
        if (sent : bool) then _ ← mark owner event_id; mret (event_id, Published)
        else mret (event_id, RetriedPending)
    end.

Fixpoint drain_rows (pending : list dict) : Bus (list (pystr * row_outcome)) :=
  match pending with
  | [] => mret []
  | e :: pending =>
      row ← drain_row e;
      rows ← drain_rows pending;
      mret (row :: rows)
  end.

Definition rows_with (o : row_outcome) (rows : list (pystr * row_outcome)) : list pystr :=
  (filter (fun r => r.2 = o) rows).*1.

Definition drain_once (tenant_id : option pystr) : Bus DrainResult :=
  pending ← gets (fun w => list_pending tenant_id (b_outbox w));
  rows ← drain_rows pending;
  mret {| published := rows_with Published rows; dead_lettered := rows_with DeadLettered rows;
          suppressed_rows := rows_with Suppressed rows;
          retried_pending := rows_with RetriedPending rows |}.
End drainer.

(** ** bus/consumer.py over persistence/memory.py: InMemoryIdempotencyStore *)

Abbreviation IdempotencyStore := (gmap pystr (gset pystr)).

Definition seen (t k : pystr) (s : IdempotencyStore) : bool := bool_decide (k ∈ s !!! t).
Definition mark_seen (t k : pystr) (s : IdempotencyStore) : IdempotencyStore :=
  <[t := {[ k ]} ∪ s !!! t]> s.

Definition SYSTEM_SCOPE_TENANT_ID : pystr := u "saena-system-scope".

(** The tenant id of a tenant envelope is validated as the drainer's is. *)
Definition dedup_scope (e : dict) : result bus_exn pystr :=
  match envelope_owner e with
  | Some ((_ :: _) as t) => try_except (make_TenantId t) (fun x => Raise (InvalidOwner x))
  | _ => Ok SYSTEM_SCOPE_TENANT_ID
  end.

Section consumer.
(** The state the handler works on; a handler may raise after partial work. *)
Context {S : Type} (handler : dict -> M S bus_exn unit).

Definition on_handler {A} (m : M S bus_exn A) : M (IdempotencyStore * S) bus_exn A := fun w =>
  let '(s', r) := m w.2 in ((w.1, s'), r).

Definition process (e : dict) : M (IdempotencyStore * S) bus_exn bool :=
  idempotency_key ← lift (key_of e (u "idempotency_key"));
  scope ← lift (dedup_scope e);
  already_seen ← gets (fun w => seen scope idempotency_key w.1);
  if (already_seen : bool) then mret false
  else
    _ ← on_handler (handler e);
    _ ← modify (fun w => (mark_seen scope idempotency_key w.1, w.2));
    mret true.
End consumer.

(** ** Publication *)

Section publication.
Context `{EnvelopeContract, Publisher}.

(** Where an envelope that is not suppressed goes. *)
Definition route (e : dict) : pystr * message :=
  match reject_messages e with
  | [] => (default [] (sfield e (u "event_type")), Envelope e)
  | ms => (dlq_topic e, DeadLetter e ms)
  end.

Definition message_id (m : pystr * message) : option pystr :=
  sfield (message_envelope m.2) (u "event_id").

(** The messages of one event in the log, and those that were acknowledged. *)
Definition sent (i : pystr) (w : BusWorld) : list (pystr * message * bool) :=
  filter (fun m => message_id m.1 = Some i) (b_log w).

Definition acked (i : pystr) (w : BusWorld) : list (pystr * message) := (filter (fun m => m.2 = true) (sent i w)).*1.

(** The broker never takes a message and reports a failure. *)
Definition lossless : Prop := forall n topic m, answer n topic m <> Failed true.

(** The outbox is well formed and the log is what its rows call for: each
    message is the route of a stored envelope that passed the privacy check; one
    acknowledged message per published row, none for a suppressed or pending one. *)
Record bus_inv (w : BusWorld) : Prop := {
  bi_order : NoDup (order (b_outbox w));
  bi_entries i : i ∈ order (b_outbox w) <-> is_Some (entries (b_outbox w) !! i);
  bi_ids i e : entries (b_outbox w) !! i = Some e -> sfield e (u "event_id") = Some i;
  bi_published i : i ∈ published_ids (b_outbox w) -> is_Some (entries (b_outbox w) !! i);
  bi_log m : m ∈ b_log w -> exists i e, entries (b_outbox w) !! i = Some e /\ privacy_check e = Ok false /\ m.1 = route e;
  bi_acked i e : entries (b_outbox w) !! i = Some e ->
    acked i w = if decide (i ∈ published_ids (b_outbox w))
                then match privacy_check e with Ok false => [route e] | _ => [] end else [];
  bi_lossless : lossless -> forall m, m ∈ b_log w -> m.2 = true
}.

Definition marked (i : pystr) (o : Outbox) : Outbox :=
  {| entries := entries o; order := order o; published_ids := {[ i ]} ∪ published_ids o |}.

(** What one row may do. *)
Inductive row_effect (e : dict) (i : pystr) (w w' : BusWorld) (r : result bus_exn (pystr * row_outcome)) : Prop :=
  | row_left x :
      b_outbox w' = b_outbox w -> b_log w' = b_log w ->
      r = Raise x -> drain_owner e = Raise x \/ privacy_check e = Raise x -> row_effect e i w w' r
  | row_retried lost :
      privacy_check e = Ok false -> answer (b_attempts w) (route e).1 (route e).2 = Failed lost ->
      b_outbox w' = b_outbox w -> b_log w' = b_log w ++ landed (Failed lost) (route e) ->
      r = Ok (i, RetriedPending) -> row_effect e i w w' r
  | row_suppressed :
      privacy_check e = Ok true -> b_outbox w' = marked i (b_outbox w) -> b_log w' = b_log w ->
      r = Ok (i, Suppressed) -> row_effect e i w w' r
  | row_sent o :
      privacy_check e = Ok false -> b_outbox w' = marked i (b_outbox w) ->
      b_log w' = b_log w ++ [(route e, true)] ->
      o = match reject_messages e with [] => Published | _ => DeadLettered end ->
      r = Ok (i, o) -> row_effect e i w w' r.

Lemma drain_owner_Ok e o : drain_owner e = Ok o -> o = envelope_owner e.
Proof.
  unfold drain_owner. destruct (envelope_owner e) as [t|]; [|by intros [= <-]].
  destruct (make_TenantId t) as [t'|x] eqn:Et; cbn; [|done]. apply make_TenantId_Ok in Et as [-> _].
  by intros [= <-].
Qed.

Lemma mark_entry e i w :
  entries (b_outbox w) !! i = Some e ->
  mark (envelope_owner e) i w =
    ({| b_outbox := marked i (b_outbox w); b_log := b_log w; b_attempts := b_attempts w |}, Ok tt).
Proof.
  intros He. unfold mark, try_update, mark_published. rewrite He. cbn.
  by rewrite bool_decide_false by naive_solver.
Qed.

Lemma went_through_publish t m w :
  went_through (publish t m) w =
  ({| b_outbox := b_outbox w; b_log := b_log w ++ landed (answer (b_attempts w) t m) (t, m); b_attempts := S (b_attempts w) |},
   Ok (bool_decide (answer (b_attempts w) t m = Acknowledged))).
Proof. unfold went_through, publish. by destruct (answer _ _ _). Qed.

Lemma drain_row_effect e i w w' r :
  entries (b_outbox w) !! i = Some e -> sfield e (u "event_id") = Some i ->
  drain_row e w = (w', r) -> row_effect e i w w' r.
Proof.
  intros He Hi. unfold drain_row, key_of. rewrite Hi. intros Hrun.
  apply M_bind_inv in Hrun as [(w1 & i' & [= <- <-] & Hrun)|(x & [=] & _)].
  apply M_bind_inv in Hrun as [(w1 & o & [-> Ho]%lift_inv & Hrun)|(x & [-> Ho]%lift_inv & ->)].
  2: { by apply (row_left _ _ _ _ _ x); auto. }
  symmetry in Ho. apply drain_owner_Ok in Ho as ->.
  apply M_bind_inv in Hrun as [(w1 & s & [-> Hs]%lift_inv & Hrun)|(x & [-> Hs]%lift_inv & ->)].
  2: { by apply (row_left _ _ _ _ _ x); auto. }
  symmetry in Hs. destruct s.
  { rewrite (M_bind_step _ _ _ _ _ (mark_entry _ _ _ He)) in Hrun.
    apply mret_inv in Hrun as [-> ->]. by apply row_suppressed. }
  assert (forall t m o, route e = (t, m) -> o = match reject_messages e with [] => Published | _ => DeadLettered end ->
    (ok ← went_through (publish t m); if (ok : bool) then _ ← mark (envelope_owner e) i; mret (i, o)
     else mret (i, RetriedPending)) w = (w', r) -> row_effect e i w w' r) as Hsend.
  { intros t m o Hr Ho Hrun'. unfold mbind, M_bind in Hrun'. rewrite went_through_publish in Hrun'.
    destruct (answer (b_attempts w) t m) as [|lost] eqn:Ea.
    - pose proof (mark_entry e i {| b_outbox := b_outbox w; b_log := b_log w ++ [((t, m), true)];
        b_attempts := S (b_attempts w) |} He) as Hm. cbn in Hm.
      rewrite bool_decide_true in Hrun' by done. cbn [landed] in Hrun'. rewrite Hm in Hrun'.
      injection Hrun' as <- <-. apply row_sent with o; cbn; by rewrite ?Hr.
    - rewrite bool_decide_false in Hrun' by done. injection Hrun' as <- <-. apply row_retried with lost; cbn [b_outbox b_log]; rewrite ?Hr; done. }
  unfold route in Hsend. destruct (reject_messages e) as [|m ms] eqn:Em;
    (eapply Hsend; [reflexivity|reflexivity|exact Hrun]).
Qed.

Lemma route_id e : message_id (route e) = sfield e (u "event_id").
Proof. unfold route. by destruct (reject_messages e). Qed.

(** The messages of an event after some more landed. *)
Lemma acked_app i w w' l :
  b_log w' = b_log w ++ l ->
  acked i w' = acked i w ++ (filter (fun m => m.2 = true) (filter (fun m => message_id m.1 = Some i) l)).*1.
Proof. intros Hl. unfold acked, sent. by rewrite Hl, !filter_app, fmap_app. Qed.

Lemma landed_inv e m l : m ∈ landed (Failed l) (route e) -> m = (route e, false) /\ l = true.
Proof. destruct l; cbn; [by intros ->%list_elem_of_singleton|by intros ?%elem_of_nil]. Qed.

Lemma row_effect_inv e i w w' r :
  bus_inv w -> entries (b_outbox w) !! i = Some e -> i ∉ published_ids (b_outbox w) ->
  row_effect e i w w' r -> bus_inv w'.
Proof.
  intros Hinv He Hi Hrow. pose proof (bi_ids _ Hinv _ _ He) as Hid.
  destruct Hinv as [Hord Hent Hids Hpub Hlog Hack Hless].
  assert (forall ms, b_outbox w' = marked i (b_outbox w) -> b_log w' = b_log w ++ ((.,true) <$> ms) ->
    (privacy_check e = Ok true /\ ms = [] \/ privacy_check e = Ok false /\ ms = [route e]) ->
    bus_inv w') as Hmarked.
  { intros ms Ho Hl Hcase.
    assert (forall j, acked j w' = acked j w ++ if decide (j = i) then ms else []) as Hacked.
    { intros j. rewrite (acked_app j w w' _ Hl). f_equal. destruct Hcase as [[_ ->]|[_ ->]]; [by destruct (decide _)|].
      cbn [fmap list_fmap]. rewrite (filter_cons _ (route e, true)). cbn [fst]. rewrite route_id, Hid.
      destruct (decide (j = i)) as [-> |Hne]; [by rewrite decide_True|by rewrite decide_False by congruence]. }
    split; rewrite ?Ho; cbn [marked entries order published_ids]; try done.
    - intros j [->%elem_of_singleton|?]%elem_of_union; [by eexists|by apply Hpub].
    - intros m. rewrite Hl. intros [Hm|(m' & -> & Hm)%list_elem_of_fmap]%elem_of_app; [by apply Hlog|].
      exists i, e. split; [done|]. destruct Hcase as [[_ ->]|[? ->]]; [by apply elem_of_nil in Hm|].
      apply list_elem_of_singleton in Hm as ->. done.
    - intros j e' He'. rewrite Hacked, (Hack j e' He'). destruct (decide (j = i)) as [-> |Hne].
      + assert (e' = e) as -> by congruence. rewrite (decide_False _ _ Hi), decide_True by set_solver.
        by destruct Hcase as [[-> ->]|[-> ->]].
      + rewrite app_nil_r. assert (j ∈ {[ i ]} ∪ published_ids (b_outbox w) <-> j ∈ published_ids (b_outbox w)) as Hiff by set_solver.
        destruct (decide (j ∈ published_ids (b_outbox w))); [by rewrite decide_True by tauto|by rewrite decide_False by tauto].
    - intros Hno m. rewrite Hl. intros [Hm|(m' & -> & Hm)%list_elem_of_fmap]%elem_of_app; [by apply Hless|done]. }
  destruct Hrow as [x Ho Hl _ _|lost Hp Ha Ho Hl _|Hp Ho Hl _|o Hp Ho Hl _ _].
  - assert (forall j, acked j w' = acked j w) as Hsame by (intros j; unfold acked, sent; by rewrite Hl).
    split; rewrite ?Ho, ?Hl; try done. intros j e' ?. rewrite Hsame. by apply Hack.
  - assert (forall j, acked j w' = acked j w) as Hsame.
    { intros j. rewrite (acked_app j w w' _ Hl). destruct lost; [|by rewrite app_nil_r]. cbn [landed].
      rewrite (filter_cons _ (route e, false)). case_decide; [|by rewrite app_nil_r]. by rewrite app_nil_r. }
    split; rewrite ?Ho, ?Hl; try done.
    + intros m [Hm|[-> _]%landed_inv]%elem_of_app; [by apply Hlog|by exists i, e].
    + intros j e' ?. rewrite Hsame. by apply Hack.
    + intros Hno m [Hm|[_ ->]%landed_inv]%elem_of_app; [by apply Hless|]. by apply Hno in Ha.
  - apply (Hmarked []); [done|by rewrite app_nil_r|by left].
  - apply (Hmarked [route e]); [done|done|by right].
Qed.
End publication.

(** ** A drain *)

Section drains.
Context `{EnvelopeContract, Publisher}.

Definition eid (e : dict) : pystr := default [] (sfield e (u "event_id")).

(** A pending row: its envelope is stored under its id and not published. *)
Definition pending_row (w : BusWorld) (e : dict) : Prop :=
  sfield e (u "event_id") = Some (eid e) /\ entries (b_outbox w) !! eid e = Some e /\
  (eid e ∉ published_ids (b_outbox w)).

(** What an outcome says of its row. *)
Definition row_done (w' : BusWorld) (e : dict) (o : row_outcome) : Prop :=
  match o with
  | Published =>
      privacy_check e = Ok false /\ reject_messages e = [] /\ eid e ∈ published_ids (b_outbox w')
  | DeadLettered =>
      privacy_check e = Ok false /\ reject_messages e <> [] /\ eid e ∈ published_ids (b_outbox w')
  | Suppressed => privacy_check e = Ok true /\ eid e ∈ published_ids (b_outbox w')
  | RetriedPending =>
      (eid e ∉ published_ids (b_outbox w')) /\ exists n, answer n (route e).1 (route e).2 <> Acknowledged
  end.

Record drained (es : list dict) (w w' : BusWorld) (r : result bus_exn (list (pystr * row_outcome)))
    : Prop := {
  dr_inv : bus_inv w';
  dr_entries : entries (b_outbox w') = entries (b_outbox w);
  dr_order : order (b_outbox w') = order (b_outbox w);
  dr_mono : published_ids (b_outbox w) ⊆ published_ids (b_outbox w');
  dr_only i : i ∈ published_ids (b_outbox w') -> i ∈ published_ids (b_outbox w) \/ i ∈ eid <$> es;
  dr_rows rows : r = Ok rows ->
    Forall2 (fun e row => row.1 = eid e /\ row_done w' e row.2) es rows;
  dr_raise x : r = Raise x ->
    exists e, e ∈ es /\ (drain_owner e = Raise x \/ privacy_check e = Raise x)
}.

(** A row changes its own flag and nothing else of the outbox. *)
Lemma row_effect_outbox e i w w' r :
  row_effect e i w w' r ->
  entries (b_outbox w') = entries (b_outbox w) /\ order (b_outbox w') = order (b_outbox w) /\
  (published_ids (b_outbox w') = published_ids (b_outbox w) \/
   published_ids (b_outbox w') = {[ i ]} ∪ published_ids (b_outbox w)).
Proof. intros [x -> _ _ _|lost _ _ -> _ _|_ -> _ _|o _ -> _ _ _]; cbn; auto. Qed.

Lemma row_effect_done e w w' w'' row :
  eid e ∉ published_ids (b_outbox w) ->
  row_effect e (eid e) w w' (Ok row) -> published_ids (b_outbox w') ⊆ published_ids (b_outbox w'') ->
  (eid e ∉ published_ids (b_outbox w') -> eid e ∉ published_ids (b_outbox w'')) ->
  row.1 = eid e /\ row_done w'' e row.2.
Proof.
  intros Hni Hrow Hmono Hkeep.
  destruct Hrow as [x _ _ [=] _|lost Hp Ha Ho _ [= ->]|Hp Ho _ [= ->]|o Hp Ho _ -> [= ->]]; cbn; (split; [done|]).
  - split; [|by exists (b_attempts w); rewrite Ha]. apply Hkeep. by rewrite Ho.
  - split; [done|]. apply Hmono. rewrite Ho. cbn. set_solver.
  - assert (eid e ∈ published_ids (b_outbox w'')) by (apply Hmono; rewrite Ho; cbn; set_solver).
    by destruct (reject_messages e) eqn:Er; cbn; rewrite ?Er.
Qed.

Lemma drain_rows_drained es w w' r :
  bus_inv w -> Forall (pending_row w) es -> NoDup (eid <$> es) ->
  drain_rows es w = (w', r) -> drained es w w' r.
Proof.
  revert w w' r. induction es as [|e es IH]; intros w w' r Hinv Hes Hnd; cbn [drain_rows].
  { intros [= <- <-]. split; try done; [by left|]. intros rows [= <-]. constructor. }
  apply Forall_cons in Hes as [(Hid & He & Hni) Hes]. apply NoDup_cons in Hnd as [Hnotin Hnd].
  intros Hrun.
  assert (exists w1 r1, drain_row e w = (w1, r1)) as (w1 & r1 & Hrow)
    by (destruct (drain_row e w); eauto).
  pose proof (drain_row_effect _ _ _ _ _ He Hid Hrow) as Heff.
  pose proof (row_effect_inv _ _ _ _ _ Hinv He Hni Heff) as Hinv1.
  destruct (row_effect_outbox _ _ _ _ _ Heff) as (Hent & Hord & Hpub).
  assert (forall i, i ∈ published_ids (b_outbox w1) -> i ∈ published_ids (b_outbox w) \/ i = eid e) as Hpub1
    by (destruct Hpub as [-> | ->]; set_solver).
  assert (published_ids (b_outbox w) ⊆ published_ids (b_outbox w1)) as Hpub2
    by (destruct Hpub as [-> | ->]; set_solver).
  apply M_bind_inv in Hrun as [(w1' & row & Hrow' & Hrun)|(x & Hrow' & ->)];
    rewrite Hrow in Hrow'; injection Hrow' as -> ->.
  2: { split; try done.
       - intros i [?| ->]%Hpub1; [by left|right; by left].
       - intros x' [= <-].
         destruct Heff as [x' _ _ [= <-] Hx|? _ _ _ _ ?|_ _ _ ?|? _ _ _ _ ?]; try done.
         exists e. split; [by left|done]. }
  assert (exists w2 r2, drain_rows es w1' = (w2, r2)) as (w2 & r2 & Hrest)
    by (destruct (drain_rows es w1'); eauto).
  assert (Forall (pending_row w1') es) as Hes1.
  { apply Forall_forall. intros e' He'. rewrite Forall_forall in Hes.
    destruct (Hes _ He') as (? & ? & ?). split; [done|]. rewrite Hent. split; [done|].
    intros [?|Heq]%Hpub1; [done|]. apply Hnotin. rewrite <- Heq. by apply list_elem_of_fmap_2. }
  destruct (IH _ _ _ Hinv1 Hes1 Hnd Hrest) as [Hi2 He2 Ho2 Hm2 Hon2 Hr2 Hx2].
  assert (w' = w2 /\ r = (rows ← r2; Ok (row :: rows))) as [-> ->].
  { unfold mbind, M_bind in Hrun. rewrite Hrest in Hrun. by destruct r2; injection Hrun as <- <-. }
  split; [done|by rewrite He2|by rewrite Ho2|by etrans| | |].
  - intros i [Hi|Hi]%Hon2; [apply Hpub1 in Hi as [?| ->]; [by left|right; by left]|right; by right].
  - intros rows (rows2 & -> & [= <-])%bind_Ok. constructor; [|by apply Hr2].
    eapply row_effect_done; [exact Hni|exact Heff|exact Hm2|].
    intros Hno [?|?]%Hon2; done.
  - intros x Hx. destruct r2 as [rows2|x2]; [done|]. injection Hx as ->.
    destruct (Hx2 _ eq_refl) as (e' & ? & ?). exists e'. split; [by right|done].
Qed.

Lemma pending_ids_entry w i :
  bus_inv w -> i ∈ pending_ids (b_outbox w) ->
  exists e, entries (b_outbox w) !! i = Some e /\ eid e = i /\ pending_row w e.
Proof.
  intros Hinv [Hni Hi]%list_elem_of_filter. apply (bi_entries _ Hinv) in Hi as [e He].
  exists e. split; [done|]. pose proof (bi_ids _ Hinv _ _ He) as Hid.
  assert (eid e = i) as Heq by (unfold eid; by rewrite Hid). split; [done|].
  unfold pending_row. by rewrite Heq.
Qed.

(** The rows a drain works on. *)
Lemma list_pending_rows t w :
  bus_inv w ->
  Forall (pending_row w) (list_pending t (b_outbox w)) /\ NoDup (eid <$> list_pending t (b_outbox w)) /\
  (forall e, e ∈ list_pending t (b_outbox w) <-> pending_row w e /\ in_scope t e = true).
Proof.
  intros Hinv. set (g := fun i => default [] (entries (b_outbox w) !! i)).
  assert (forall i, i ∈ pending_ids (b_outbox w) -> eid (g i) = i /\ pending_row w (g i)) as Hg.
  { intros i Hi. destruct (pending_ids_entry _ _ Hinv Hi) as (e & He & ? & ?). unfold g. by rewrite He. }
  assert (forall e, e ∈ list_pending t (b_outbox w) <-> pending_row w e /\ in_scope t e = true) as Hiff.
  { intros e. unfold list_pending. rewrite list_elem_of_filter, list_elem_of_fmap. split.
    - intros (Hs & i & -> & Hi). split; [|done]. by apply Hg.
    - intros [(Hid & He & Hni) Hs]. split; [done|]. exists (eid e). rewrite He. split; [done|].
      apply list_elem_of_filter. split; [done|]. apply (bi_entries _ Hinv). by eexists. }
  split; [|split; [|exact Hiff]].
  - apply Forall_forall. intros e He. by apply Hiff.
  - apply (NoDup_fmap_filter eid). fold g. rewrite <- list_fmap_compose.
    assert (eid ∘ g <$> pending_ids (b_outbox w) = pending_ids (b_outbox w)) as ->.
    { rewrite <- list_fmap_id. apply fmap_ext_elem. intros i Hi. by apply Hg. }
    apply NoDup_filter, Hinv.
Qed.
End drains.

(** ** Histories *)

(** What happens to a bus: events are recorded, drains run. *)
Inductive bus_op := Record_event (e : dict) | Drain (tenant_id : option pystr).

Section histories.
Context `{EnvelopeContract, Publisher, UnicodeDB}.

(** A refused record changes nothing; a drain that raises keeps what it did. *)
Definition run_bus_op (w : BusWorld) (op : bus_op) : BusWorld :=
  match op with
  | Record_event e =>
      match record e (b_outbox w) with
      | Ok (o, _) => {| b_outbox := o; b_log := b_log w; b_attempts := b_attempts w |}
      | Raise _ => w
      end
  | Drain t => (drain_once t w).1
  end.

Definition run_bus (ops : list bus_op) : BusWorld :=
  fold_left run_bus_op ops {| b_outbox := empty_outbox; b_log := []; b_attempts := 0 |}.

Lemma record_Ok e o o' e' :
  record e o = Ok (o', e') ->
  envelope_errors e = [] /\ exists i, sfield e (u "event_id") = Some i /\
    (o' = o \/ entries o !! i = None /\
       o' = {| entries := <[i := e]> (entries o); order := order o ++ [i]; published_ids := published_ids o |}).
Proof.
  unfold record, check_envelope, key_of. intros [Hv Hr]%seq_Ok. apply bind_Ok in Hr as (? & _ & Hr).
  apply bind_Ok in Hr as (i & Hi & Hr). rewrite raise_if_Ok, bool_decide_eq_false in Hv.
  apply dec_stable in Hv. split; [done|]. destruct (sfield e (u "event_id")) as [i'|]; [|done].
  injection Hi as ->. exists i. split; [done|]. destruct (entries o !! i) as [old|] eqn:Ex.
  - case_match; [|done]. injection Hr as <- _. by left.
  - injection Hr as <- _. by right.
Qed.

Lemma drain_once_drained t w w' r :
  bus_inv w -> drain_once t w = (w', r) ->
  exists r', drained (list_pending t (b_outbox w)) w w' r' /\
    r = (rows ← r';
         Ok {| published := rows_with Published rows; dead_lettered := rows_with DeadLettered rows;
               suppressed_rows := rows_with Suppressed rows;
               retried_pending := rows_with RetriedPending rows |}).
Proof.
  intros Hinv Hrun. destruct (list_pending_rows t w Hinv) as (Hrows & Hnd & _).
  unfold drain_once in Hrun. apply M_bind_inv in Hrun as [(w1 & es & [-> Hes]%gets_inv & Hrun)|(x & [_ Hx]%gets_inv & _)];
    [|done]. injection Hes as ->.
  destruct (drain_rows (list_pending t (b_outbox w)) w) as [w2 r2] eqn:E.
  exists r2. unfold mbind, M_bind in Hrun. rewrite E in Hrun.
  assert (w' = w2) as -> by (destruct r2; by injection Hrun).
  split; [by apply drain_rows_drained|]. by destruct r2; injection Hrun.
Qed.

Lemma recorded_inv w i e :
  bus_inv w -> sfield e (u "event_id") = Some i -> entries (b_outbox w) !! i = None ->
  bus_inv {| b_outbox := {| entries := <[i := e]> (entries (b_outbox w)); order := order (b_outbox w) ++ [i];
                            published_ids := published_ids (b_outbox w) |};
             b_log := b_log w; b_attempts := b_attempts w |}.
Proof.
  intros [Hord Hent Hids Hpub Hlog Hack Hless] Hi Hnone.
  assert (i ∉ published_ids (b_outbox w)) as Hnp by (intros [? ?]%Hpub; congruence).
  split; cbn.
  - apply NoDup_app. split; [done|]. split; [|apply NoDup_singleton].
    intros j Hj ->%list_elem_of_singleton. apply Hent in Hj as [? ?]. congruence.
  - intros j. rewrite elem_of_app, list_elem_of_singleton, Hent, lookup_insert_is_Some.
    destruct (decide (i = j)); naive_solver.
  - intros j e'. rewrite lookup_insert_Some. intros [[<- <-]|[_ ?]]; auto.
  - intros j Hj. apply lookup_insert_is_Some. destruct (decide (i = j)); [by left|right; auto].
  - intros m (j & e' & He' & Hm)%Hlog. exists j, e'. split; [|done]. rewrite lookup_insert_ne by congruence. done.
  - intros j e'. rewrite lookup_insert_Some. intros [[<- <-]|[_ He']]; [|by apply Hack].
    rewrite decide_False by done. unfold acked, sent. cbn. rewrite (filter_none _ (b_log w)); [done|].
    intros m (j & e' & He' & _ & Hm)%Hlog Hmi. rewrite Hm, route_id, (Hids _ _ He') in Hmi. congruence.
  - done.
Qed.

Lemma run_bus_op_inv w op :
  bus_inv w /\ (forall i e, entries (b_outbox w) !! i = Some e -> envelope_errors e = []) ->
  bus_inv (run_bus_op w op) /\
  (forall i e, entries (b_outbox (run_bus_op w op)) !! i = Some e -> envelope_errors e = []).
Proof.
  intros [Hinv Hval]. destruct op as [e|t]; cbn [run_bus_op].
  - destruct (record e (b_outbox w)) as [[o e']|x] eqn:E; [|done].
    apply record_Ok in E as (Hv & i & Hi & [-> |[Hnone ->]]); [by destruct w|].
    split; [by apply recorded_inv|]. cbn. intros j e''. rewrite lookup_insert_Some. naive_solver.
  - destruct (drain_once t w) as [w' r] eqn:E. destruct (drain_once_drained _ _ _ _ Hinv E) as (r' & [? He _ _ _ _ _] & _).
    cbn. by rewrite He.
Qed.

Lemma run_bus_inv ops :
  bus_inv (run_bus ops) /\
  (forall i e, entries (b_outbox (run_bus ops)) !! i = Some e -> envelope_errors e = []).
Proof.
  unfold run_bus. set (w := {| b_outbox := empty_outbox; b_log := []; b_attempts := 0 |}).
  assert (bus_inv w /\ (forall i e, entries (b_outbox w) !! i = Some e -> envelope_errors e = [])) as Hw.
  { split; [split; cbn|]; try done; try set_solver. constructor. intros i. rewrite lookup_empty.
    split; [by intros ?%elem_of_nil|by intros [? ?]]. }
  clearbody w. revert w Hw. induction ops as [|op ops IH]; intros w Hw; [done|]. apply IH. by apply run_bus_op_inv.
Qed.

Lemma privacy_check_false e :
  privacy_check e = Ok false -> context_is e (u "aggregate") = true -> publishable e.
Proof.
  unfold privacy_check. intros Hp Ha. rewrite Ha in Hp.
  destruct (guard_aggregate_publish e) as [[]|x] eqn:E; [by apply guard_Ok_iff in E|]. by case_match.
Qed.

Lemma route_envelope e : message_envelope (route e).2 = e.
Proof. unfold route. by destruct (reject_messages e). Qed.

(** C15: the outbox and its log agree after any history of records and drains,
    whatever the broker did with each attempt and wherever drains were cut short
    by an exception.  Delivery is at least once: an event marked published has
    exactly one acknowledged message in the log, its envelope on its topic or
    its dead letter, and none when it is suppressed; a pending event has no
    acknowledged message; any further message of an event is a copy of that same
    one from an attempt that failed for the client and landed, so with a broker
    that never does that an event has exactly the messages said.  Nothing else
    is ever sent, and an aggregate envelope that fails the privacy guard is sent
    nowhere, acknowledged or not, and not to a dead-letter topic either. *)
Theorem publication_accounts ops :
  let w := run_bus ops in
  (forall i e, entries (b_outbox w) !! i = Some e ->
     let due := if decide (i ∈ published_ids (b_outbox w))
                then match privacy_check e with Ok false => [route e] | _ => [] end else [] in
     acked i w = due /\ (forall m, m ∈ sent i w -> m.1 = route e /\ privacy_check e = Ok false) /\
     (lossless -> (sent i w).*1 = due)) /\
  (forall m, m ∈ b_log w -> exists i, entries (b_outbox w) !! i = Some (message_envelope m.1.2)) /\
  (forall m, m ∈ b_log w -> context_is (message_envelope m.1.2) (u "aggregate") = true ->
     publishable (message_envelope m.1.2)).
Proof.
  intros w. destruct (run_bus_inv ops) as [Hinv _]. fold w in Hinv. split; [|split].
  - intros i e He due. pose proof (bi_acked _ Hinv _ _ He) as Hack. split; [done|]. split.
    + intros m [Hi Hm]%list_elem_of_filter. destruct (bi_log _ Hinv _ Hm) as (j & e' & He' & Hp & Hr).
      rewrite Hr, route_id, (bi_ids _ Hinv _ _ He') in Hi. injection Hi as ->. by simplify_eq.
    + intros Hless. subst due. rewrite <- Hack. unfold acked. f_equal. symmetry. apply filter_all.
      intros m [_ Hm]%list_elem_of_filter. by apply (bi_lossless _ Hinv Hless).
  - intros m Hm. destruct (bi_log _ Hinv _ Hm) as (i & e & He & _ & ->). exists i. by rewrite route_envelope.
  - intros m Hm. destruct (bi_log _ Hinv _ Hm) as (i & e & He & Hpc & ->).
    rewrite route_envelope. by apply privacy_check_false.
Qed.
End histories.

(** ** The envelope contract *)

(** What a schema of type integer with minimum 1 accepts: jsonschema counts a
    float without fraction as an integer, and pydantic converts it. *)
Definition schema_integer (v : pyval) : Prop :=
  match v with
  | PInt z => (1 <= z)%Z
  | PFloat f => exists z, float_eq_Z f z = true /\ (1 <= z)%Z
  | _ => False
  end.

(** The clauses of the event-envelope schema the bus relies on. *)
Record contract_documented `{EnvelopeContract} : Prop := {
  cd_tenant e : envelope_errors e = [] -> context_is e (u "tenant") = true ->
    exists t, sfield e (u "tenant_id") = Some t /\ lang TenantId_re t;
  cd_aggregate e : envelope_errors e = [] -> context_is e (u "aggregate") = true ->
    (exists l, dget e (u "lineage_audit_ref") = Some (PStr l) /\ l <> []) /\
    (exists v s, dget e (u "de_identification_status") = Some v /\ _status_of v = Ok s) /\
    (exists c t, dget e (u "cohort_size") = Some c /\ dget e (u "privacy_threshold") = Some t /\
       schema_integer c /\ schema_integer t)
}.

(** An aggregate envelope whose numbers are Python integers. *)
Definition int_typed (e : dict) : Prop :=
  context_is e (u "aggregate") = true ->
  exists c t, dget e (u "cohort_size") = Some (PInt c) /\ dget e (u "privacy_threshold") = Some (PInt t).

Lemma guard_raises_privacy e x :
  (exists l, dget e (u "lineage_audit_ref") = Some (PStr l) /\ l <> []) ->
  (exists v s, dget e (u "de_identification_status") = Some v /\ _status_of v = Ok s) ->
  (exists c t, dget e (u "cohort_size") = Some (PInt c) /\ dget e (u "privacy_threshold") = Some (PInt t) /\
     (1 <= c)%Z /\ (1 <= t)%Z) ->
  guard_aggregate_publish e = Raise x -> is_PrivacyGuardError x = true.
Proof.
  intros (l & Hl & Hne) (v & s & Hv & Hs) (c & t & Hc & Ht & Hc1 & Ht1). unfold guard_aggregate_publish.
  assert (existsb (fun k => negb (has_key e k)) _REQUIRED_KEYS = false) as Hkeys.
  { apply existsb_false_elem. intros k Hk. apply negb_false_iff, has_key_true.
    unfold _REQUIRED_KEYS in Hk. rewrite !elem_of_cons, elem_of_nil in Hk.
    destruct Hk as [-> |[-> |[-> |[-> |[]]]]]; eauto. }
  rewrite Hkeys. unfold item. rewrite Hl, Hv, Hc, Ht. cbn [default from_option id]. rewrite Hs.
  rewrite seq_Raise, raise_if_Raise. intros [[_ <-]|[_ Hr]]; [done|].
  apply seq_Raise in Hr as [Hr|[_ Hr]].
  { revert Hr. cbn [reject_forbidden _FORBIDDEN_KEYS]. rewrite !seq_Raise, !raise_if_Raise. naive_solver. }
  destruct l as [|a l]; [done|]. cbn [raise_if mbind result_bind] in Hr.
  rewrite !seq_Raise, !raise_if_Raise in Hr. destruct Hr as [[_ <-]|[_ [[_ <-]|[_ Hr]]]]; [done..|].
  unfold evaluate, _compute, _validate_minimum, MINIMUM_VALUE in Hr. cbn [_validate_type mbind result_bind] in Hr.
  rewrite (proj2 (Z.ltb_ge c 1)), (proj2 (Z.ltb_ge t 1)) in Hr by lia. cbn in Hr.
  destruct (t <=? c)%Z; cbn in Hr; first [discriminate Hr | by injection Hr as <-].
Qed.

Section liveness.
Context `{EnvelopeContract, Publisher, UnicodeDB}.

Lemma row_never_raises e :
  contract_documented -> envelope_errors e = [] -> int_typed e ->
  (forall x, drain_owner e <> Raise x) /\ (forall x, privacy_check e <> Raise x).
Proof.
  intros Hdoc Hv Hint. split; intros x Hx.
  - unfold drain_owner, envelope_owner in Hx. destruct (context_is e (u "tenant")) eqn:Et; [|done].
    destruct (cd_tenant Hdoc e Hv Et) as (t & Ht & Hl). rewrite Ht in Hx.
    assert (make_TenantId t = Ok t) as Hm by (by apply make_TenantId_Ok). by rewrite Hm in Hx.
  - unfold privacy_check in Hx. destruct (context_is e (u "aggregate")) eqn:Ea; [|done].
    destruct (guard_aggregate_publish e) as [|y] eqn:Eg; [done|].
    destruct (is_PrivacyGuardError y) eqn:Ey; [done|]. rewrite (guard_raises_privacy e y) in Ey; [done|..|done];
      destruct (cd_aggregate Hdoc e Hv Ea) as (Hl & Hs & c & t & Hc & Ht & Hc1 & Ht1); [done..|].
    destruct (Hint Ea) as (c' & t' & Hc' & Ht'). rewrite Hc in Hc'. rewrite Ht in Ht'.
    injection Hc' as ->. injection Ht' as ->. by exists c', t'.
Qed.

Lemma rows_with_partition rows :
  rows_with Published rows ++ rows_with DeadLettered rows ++ rows_with Suppressed rows ++
    rows_with RetriedPending rows ≡ₚ rows.*1.
Proof.
  induction rows as [|[i o] rows IH]; [done|]. unfold rows_with in *. rewrite !filter_cons. cbn [snd].
  destruct o; cbn; rewrite <- IH; solve_Permutation.
Qed.

Lemma retried_rows w' es rows :
  Forall2 (fun e row => row.1 = eid e /\ row_done w' e row.2) es rows ->
  rows_with RetriedPending rows = eid <$> filter (fun e => eid e ∉ published_ids (b_outbox w')) es.
Proof.
  unfold rows_with. induction 1 as [|e [i o] es rows [Hi Ho] _ IH]; [done|]. cbn in Hi. subst i.
  rewrite !filter_cons. cbn [snd]. destruct o; cbn in Ho.
  1-3: rewrite decide_False by done; rewrite decide_False by tauto; exact IH.
  rewrite decide_True by done. rewrite decide_True by tauto. cbn. by rewrite IH.
Qed.

Lemma list_pending_drained t w w' :
  bus_inv w -> entries (b_outbox w') = entries (b_outbox w) -> order (b_outbox w') = order (b_outbox w) ->
  published_ids (b_outbox w) ⊆ published_ids (b_outbox w') ->
  list_pending t (b_outbox w') =
    filter (fun e => eid e ∉ published_ids (b_outbox w')) (list_pending t (b_outbox w)).
Proof.
  intros Hinv He Ho Hsub. unfold list_pending, pending_ids. rewrite He, Ho.
  assert (forall i, i ∈ order (b_outbox w) -> eid (default [] (entries (b_outbox w) !! i)) = i) as Hid.
  { intros i Hi. apply (bi_entries _ Hinv) in Hi as [e Hi]. rewrite Hi. cbn. unfold eid.
    by rewrite (bi_ids _ Hinv _ _ Hi). }
  clear Ho. induction (order (b_outbox w)) as [|i l IH]; [done|].
  assert (eid (default [] (entries (b_outbox w) !! i)) = i) as Hi by (apply Hid; by left).
  assert (forall j, j ∈ l -> eid (default [] (entries (b_outbox w) !! j)) = j) as Hl by (intros; apply Hid; by right).
  specialize (IH Hl). rewrite !(filter_cons _ i).
  destruct (decide (i ∉ published_ids (b_outbox w'))) as [Hn|Hn].
  - rewrite decide_True by set_solver. cbn [fmap list_fmap]. rewrite !filter_cons.
    destruct (decide (in_scope t _ = true)); [|exact IH].
    rewrite filter_cons, decide_True by (by rewrite Hi). f_equal. exact IH.
  - rewrite IH. case_decide; [|done]. cbn [fmap list_fmap]. rewrite filter_cons.
    destruct (decide (in_scope t _ = true)); [|done].
    rewrite filter_cons, decide_False; [done|]. by rewrite Hi.
Qed.

(** a drain finishes and accounts for every row.  Over the documented
    envelope contract, after any history, a drain whose aggregate rows carry
    integers does not raise; each pending row of its scope is published, dead
    lettered, suppressed or left for the next drain, in exactly one of the four
    lists of the result, and the rows left are exactly those still pending,
    in order.  When the broker acknowledges every message, nothing is left. *)
Theorem drain_accounts ops t :
  contract_documented ->
  (forall e, e ∈ list_pending t (b_outbox (run_bus ops)) -> int_typed e) ->
  exists w' res, drain_once t (run_bus ops) = (w', Ok res) /\
    published res ++ dead_lettered res ++ suppressed_rows res ++ retried_pending res
      ≡ₚ eid <$> list_pending t (b_outbox (run_bus ops)) /\
    eid <$> list_pending t (b_outbox w') = retried_pending res /\
    ((forall n topic m, answer n topic m = Acknowledged) -> list_pending t (b_outbox w') = []).
Proof.
  intros Hdoc Hint. destruct (run_bus_inv ops) as [Hinv Hval]. set (w := run_bus ops) in *. clearbody w.
  destruct (drain_once t w) as [w' r] eqn:E.
  destruct (drain_once_drained _ _ _ _ Hinv E) as (r' & Hdr & ->). destruct Hdr as [_ He Ho Hm _ Hrows Hx].
  destruct (list_pending_rows t w Hinv) as (_ & _ & Hpend).
  destruct r' as [rows|x].
  2: { exfalso. destruct (Hx _ eq_refl) as (e & Hin & Hr). assert (Hin' := Hin).
       apply Hpend in Hin' as [(_ & Hent & _) _].
       destruct (row_never_raises e Hdoc (Hval _ _ Hent) (Hint _ Hin)) as [Hno1 Hno2].
       destruct Hr as [Hr|Hr]; [by apply Hno1 in Hr|by apply Hno2 in Hr]. }
  specialize (Hrows _ eq_refl). eexists w', _. split; [reflexivity|]. cbn.
  assert (rows.*1 = eid <$> list_pending t (b_outbox w)) as Hids.
  { clear -Hrows. induction Hrows as [|e row es rows [Hi _] _ IH]; [done|]. cbn. by rewrite Hi, IH. }
  rewrite rows_with_partition, Hids. split; [done|].
  assert (eid <$> list_pending t (b_outbox w') = rows_with RetriedPending rows) as Hleft.
  { rewrite (list_pending_drained t w w') by done. symmetry. by eapply retried_rows. }
  split; [done|]. intros Hacc.
  assert (rows_with RetriedPending rows = []) as Hnone.
  { unfold rows_with. rewrite filter_none; [done|]. intros [i o] Hin Hro. cbn in Hro. subst o.
    assert (exists e, row_done w' e RetriedPending) as (e & _ & n & Hn); [|by rewrite Hacc in Hn].
    clear -Hrows Hin. induction Hrows as [|e row es rows [_ Hd] _ IH]; [by apply elem_of_nil in Hin|].
    apply elem_of_cons in Hin as [<- |Hin]; [by exists e|by apply IH]. }
  rewrite Hnone in Hleft. by apply fmap_nil_inv in Hleft.
Qed.
End liveness.

(** ** Consumption *)

Section consumption.
Context {S : Type} (handler : dict -> M S bus_exn unit).

(** The dedup key of a delivery. *)
Definition dedup_key (e : dict) : option (pystr * pystr) :=
  match key_of e (u "idempotency_key"), dedup_scope e with
  | Ok k, Ok t => Some (t, k)
  | _, _ => None
  end.

Definition is_seen (key : pystr * pystr) (s : IdempotencyStore) : bool := seen key.1 key.2 s.

(** The transport delivers one envelope after the other; a raised exception is
    its business, the consumer's state is what [process] left. *)
Fixpoint consume (ds : list dict) (w : IdempotencyStore * S)
    : (IdempotencyStore * S) * list (dict * result bus_exn bool) :=
  match ds with
  | [] => (w, [])
  | e :: ds =>
      let '(w1, r) := process handler e w in
      let '(w2, rs) := consume ds w1 in (w2, (e, r) :: rs)
  end.

Definition ran (r : result bus_exn bool) : bool := match r with Ok b => b | Raise _ => false end.

(** The deliveries that completed a run of the handler for a key. *)
Definition completed (key : pystr * pystr) (rs : list (dict * result bus_exn bool))
    : list (dict * result bus_exn bool) :=
  filter (fun p => bool_decide (dedup_key p.1 = Some key) && ran p.2 = true) rs.

(** The first delivery of every key. *)
Fixpoint first_deliveries (ds : list dict) (done_keys : gset (pystr * pystr)) : list dict :=
  match ds with
  | [] => []
  | e :: ds =>
      match dedup_key e with
      | None => first_deliveries ds done_keys
      | Some key =>
          if decide (key ∈ done_keys) then first_deliveries ds done_keys
          else e :: first_deliveries ds ({[ key ]} ∪ done_keys)
      end
  end.

Lemma is_seen_mark key t k s :
  is_seen key (mark_seen t k s) = true <-> key = (t, k) \/ is_seen key s = true.
Proof.
  unfold is_seen, seen, mark_seen. destruct key as [t' k']. cbn. rewrite !bool_decide_eq_true.
  destruct (decide (t = t')) as [<- |Hne].
  - rewrite lookup_total_insert_eq, elem_of_union, elem_of_singleton. naive_solver.
  - rewrite lookup_total_insert_ne by done. naive_solver.
Qed.

Lemma process_cases e w w' r :
  process handler e w = (w', r) ->
  (dedup_key e = None /\ w' = w /\ exists x, r = Raise x) \/
  (exists key, dedup_key e = Some key /\ is_seen key w.1 = true /\ w' = w /\ r = Ok false) \/
  (exists key s' x, dedup_key e = Some key /\ is_seen key w.1 = false /\
     handler e w.2 = (s', Raise x) /\ w' = (w.1, s') /\ r = Raise x) \/
  (exists key s', dedup_key e = Some key /\ is_seen key w.1 = false /\
     handler e w.2 = (s', Ok tt) /\ w' = (mark_seen key.1 key.2 w.1, s') /\ r = Ok true).
Proof.
  unfold process, dedup_key. intros Hrun.
  destruct (key_of e (u "idempotency_key")) as [k|x].
  2: { injection Hrun as <- <-. left. eauto. }
  destruct (dedup_scope e) as [t|x].
  2: { injection Hrun as <- <-. left. eauto. }
  unfold is_seen. right. cbn in Hrun. unfold mbind, M_bind, lift, gets in Hrun. cbn in Hrun.
  destruct (seen t k w.1) eqn:Es.
  - injection Hrun as <- <-. left. exists (t, k). cbn. done.
  - right. unfold mbind, M_bind, on_handler in Hrun.
    destruct (handler e w.2) as [s' [[]|x]] eqn:Eh; injection Hrun as <- <-.
    + right. exists (t, k), s'. cbn. done.
    + left. exists (t, k), s', x. cbn. done.
Qed.

Lemma consume_completed ds w key :
  length (completed key (consume ds w).2) =
    if is_seen key w.1 then 0 else if is_seen key (consume ds w).1.1 then 1 else 0.
Proof.
  assert (forall ds w, is_seen key w.1 = true -> is_seen key (consume ds w).1.1 = true) as Hmono.
  { clear. induction ds as [|e ds IH]; intros w Hs; [done|]. cbn [consume].
    destruct (process handler e w) as [w1 r] eqn:Ep. specialize (IH w1).
    destruct (consume ds w1) as [w2 rs]. cbn in *. apply IH.
    destruct (process_cases _ _ _ _ Ep) as [(_ & -> & _)|[(? & _ & _ & -> & _)|
      [(? & ? & ? & _ & _ & _ & -> & _)|(? & ? & _ & _ & _ & -> & _)]]]; cbn; [done..|].
    apply is_seen_mark. by right. }
  revert w. induction ds as [|e ds IH]; intros w; cbn [consume].
  { cbn. by destruct (is_seen key w.1). }
  destruct (process handler e w) as [w1 r] eqn:Ep. specialize (IH w1). specialize (Hmono ds w1).
  destruct (consume ds w1) as [w2 rs]. cbn [fst snd] in *. unfold completed in *. rewrite filter_cons. cbn [fst snd].
  destruct (process_cases _ _ _ _ Ep) as [(Hk & -> & x & ->)|[(k & Hk & _ & -> & ->)|
    [(k & s' & x & Hk & _ & _ & -> & ->)|(k & s' & Hk & Hs & _ & -> & ->)]]]; cbn [ran fst] in *;
    rewrite ?andb_false_r; try (rewrite decide_False by done; exact IH).
  rewrite Hk, andb_true_r. destruct (decide (k = key)) as [<- |Hne].
  - rewrite decide_True by (by apply bool_decide_eq_true). rewrite Hs. cbn [length].
    assert (is_seen k (mark_seen k.1 k.2 w.1) = true) as Hm by (apply is_seen_mark; left; by destruct k).
    rewrite Hm in IH. by rewrite IH, (Hmono Hm).
  - rewrite decide_False by (rewrite bool_decide_eq_true; congruence).
    assert (is_seen key (mark_seen k.1 k.2 w.1) = is_seen key w.1) as <-; [|exact IH].
    apply Bool.eq_iff_eq_true. rewrite is_seen_mark. destruct k. naive_solver.
Qed.

(** The deliveries the handler was given: those with a key that were not skipped. *)
Definition given (p : dict * result bus_exn bool) : bool :=
  match dedup_key p.1, p.2 with Some _, Ok false | None, _ => false | Some _, _ => true end.

Definition attempted (rs : list (dict * result bus_exn bool)) : list dict :=
  (filter (fun p => given p = true) rs).*1.

Lemma consume_attempted ds w :
  (consume ds w).1.2 = fold_left (fun s e => (handler e s).1) (attempted (consume ds w).2) w.2.
Proof.
  revert w. induction ds as [|e ds IH]; intros w; cbn [consume]; [done|].
  destruct (process handler e w) as [w1 r] eqn:Ep. specialize (IH w1).
  destruct (consume ds w1) as [w2 rs]. cbn [fst snd] in *. unfold attempted in *. rewrite filter_cons.
  destruct (process_cases _ _ _ _ Ep) as [(Hk & -> & x & ->)|[(k & Hk & _ & -> & ->)|
    [(k & s' & x & Hk & _ & Hh & -> & ->)|(k & s' & Hk & Hs & Hh & -> & ->)]]].
  - rewrite decide_False by (unfold given; cbn; by rewrite Hk). exact IH.
  - rewrite decide_False by (unfold given; cbn; by rewrite Hk). exact IH.
  - rewrite decide_True by (unfold given; cbn; by rewrite Hk). cbn [fmap list_fmap fold_left fst]. by rewrite Hh.
  - rewrite decide_True by (unfold given; cbn; by rewrite Hk). cbn [fmap list_fmap fold_left fst]. by rewrite Hh.
Qed.

Lemma consume_first ds w done_keys :
  (forall e s, exists s', handler e s = (s', Ok tt)) ->
  (forall key, is_seen key w.1 = true <-> key ∈ done_keys) ->
  (consume ds w).1.2 = fold_left (fun s e => (handler e s).1) (first_deliveries ds done_keys) w.2.
Proof.
  intros Hok. revert w done_keys. induction ds as [|e ds IH]; intros w dk Hdk; cbn [consume first_deliveries]; [done|].
  destruct (process handler e w) as [w1 r] eqn:Ep. specialize (IH w1).
  destruct (consume ds w1) as [w2 rs]. cbn [fst snd] in *.
  destruct (process_cases _ _ _ _ Ep) as [(Hk & -> & _)|[(k & Hk & Hs & -> & _)|
    [(k & s' & x & _ & _ & Hh & _)|(k & s' & Hk & Hs & Hh & -> & _)]]].
  - rewrite Hk. by apply IH.
  - rewrite Hk, decide_True by (by apply Hdk). by apply IH.
  - destruct (Hok e w.2) as [s'' Hs'']. congruence.
  - rewrite Hk, decide_False by (rewrite <- Hdk; congruence). cbn [fold_left]. rewrite Hh. apply IH.
    intros key. cbn. rewrite is_seen_mark, Hdk, elem_of_union, elem_of_singleton. by destruct k.
Qed.

(** C20: the consumer makes at-least-once delivery exactly-once processing.  From
    an empty store, whatever is delivered in whatever order and however often,
    each dedup key completes at most one run of the handler, and exactly one
    once the key is marked; a run that raises marks nothing, so its key can be
    delivered again; a key that is marked can be delivered again without any
    effect.  The state is what the handler made of the deliveries it was given,
    in order, partial work of raising runs included, and after a completed run
    of a key it is given no other; with a handler that does not raise, that is
    the effect of handling the first delivery of every key once. *)
Theorem consumer_exactly_once ds s :
  (forall key, length (completed key (consume ds (∅, s)).2) =
     if is_seen key (consume ds (∅, s)).1.1 then 1 else 0) /\
  (forall e key, dedup_key e = Some key -> is_seen key (consume ds (∅, s)).1.1 = true ->
     process handler e (consume ds (∅, s)).1 = ((consume ds (∅, s)).1, Ok false)) /\
  (forall e w w' x, process handler e w = (w', Raise x) -> w'.1 = w.1) /\
  (consume ds (∅, s)).1.2 = fold_left (fun s e => (handler e s).1) (attempted (consume ds (∅, s)).2) s /\
  ((forall e s1, exists s2, handler e s1 = (s2, Ok tt)) ->
     (consume ds (∅, s)).1.2 = fold_left (fun s e => (handler e s).1) (first_deliveries ds ∅) s).
Proof.
  assert (forall key, is_seen key ∅ = false) as Hempty.
  { intros key. unfold is_seen, seen. rewrite lookup_total_empty. by apply bool_decide_eq_false. }
  split; [|split; [|split; [|split]]].
  - intros key. rewrite consume_completed. cbn. by rewrite Hempty.
  - intros e key Hk Hs. destruct (process handler e _) as [w' r] eqn:Ep.
    destruct (process_cases _ _ _ _ Ep) as [(Hk' & _)|[(k & _ & _ & -> & ->)|
      [(k & s' & x & Hk' & Hs' & _)|(k & s' & Hk' & Hs' & _)]]]; try congruence.
  - intros e w w' x Ep. destruct (process_cases _ _ _ _ Ep) as [(_ & -> & _)|[(k & _ & _ & _ & [=])|
      [(k & s' & y & _ & _ & _ & -> & _)|(k & s' & _ & _ & _ & _ & [=])]]]; done.
  - apply (consume_attempted ds (∅, s)).
  - intros Hok. apply (consume_first ds (∅, s) ∅ Hok). intros key. cbn. rewrite Hempty. set_solver.
Qed.
End consumption.

Module Witness.
Definition five : f64 := exist _ (S754_finite false 5629499534213120 (-50)) eq_refl.

(** A contract that satisfies the documented clauses. *)
Definition integer_ok (v : option pyval) : bool :=
  match v with
  | Some (PInt z) => (1 <=? z)%Z
  | Some (PFloat f) => float_eq_Z f 5
  | _ => false
  end.

Definition demo_ok (e : dict) : bool :=
  (negb (context_is e (u "tenant")) ||
   match sfield e (u "tenant_id") with Some t => re_fullmatch TenantId_re t | None => false end) &&
  (negb (context_is e (u "aggregate")) ||
   match dget e (u "lineage_audit_ref") with Some (PStr (_ :: _)) => true | _ => false end &&
   match dget e (u "de_identification_status") with Some v => is_ok (_status_of v) | None => false end &&
   integer_ok (dget e (u "cohort_size")) && integer_ok (dget e (u "privacy_threshold"))).

Definition demo_contract : EnvelopeContract :=
  {| envelope_errors e := if demo_ok e then [] else [u "invalid"];
     topic_catalog := {[ u "plan.contract.proposed.v1" := u "plan-contract-service" ]} |}.
(** The broker refuses the first attempt and takes all others. *)
Definition late_broker : Publisher := {| answer n _ _ := if n =? 0 then Failed false else Acknowledged |}.
Definition good_broker : Publisher := {| answer _ _ _ := Acknowledged |}.
(** The first attempt lands but times out. *)
Definition slow_broker : Publisher := {| answer n _ _ := if n =? 0 then Failed true else Acknowledged |}.

Lemma integer_ok_schema v : integer_ok (Some v) = true -> schema_integer v.
Proof.
  destruct v; try done; cbn; [by intros ?%Z.leb_le|]. intros Hf. exists 5%Z. split; [exact Hf|lia].
Qed.

Lemma demo_documented : @contract_documented demo_contract.
Proof.
  split; intros e; cbn; destruct (demo_ok e) eqn:Ed; try done; intros _ Hc; unfold demo_ok in Ed;
    apply andb_true_iff in Ed as [Ht Ha].
  - rewrite Hc in Ht. cbn in Ht. destruct (sfield e (u "tenant_id")) as [t|]; [|done].
    exists t. split; [done|]. by apply accepts_spec.
  - rewrite Hc in Ha. cbn in Ha. rewrite !andb_true_iff in Ha. destruct Ha as (((Hl & Hs) & Hi) & Hj).
    split; [|split].
    + destruct (dget e (u "lineage_audit_ref")) as [[| | | |[|a l]| | |]|]; try done. by exists (a :: l).
    + destruct (dget e (u "de_identification_status")) as [v|]; [|done].
      destruct (_status_of v) as [s|] eqn:Es; [|done]. by exists v, s.
    + destruct (dget e (u "cohort_size")) as [c|], (dget e (u "privacy_threshold")) as [t|]; try done.
      exists c, t. split; [done|]. split; [done|]. split; by apply integer_ok_schema.
Qed.

Definition event (id topic : string) : dict :=
  [(u "event_id", PStr (u id)); (u "context_type", PStr (u "tenant")); (u "tenant_id", PStr (u "acme-co"));
   (u "event_type", PStr (u topic)); (u "producer", PStr (u "plan-contract-service"));
   (u "idempotency_key", PStr (u id))].
Definition aggregate (id : string) (cohort : pyval) : dict :=
  [(u "event_id", PStr (u id)); (u "context_type", PStr (u "aggregate"));
   (u "event_type", PStr (u "plan.contract.proposed.v1")); (u "cohort_size", cohort);
   (u "privacy_threshold", PInt 7); (u "de_identification_status", PStr (u "k_anonymized"));
   (u "lineage_audit_ref", PStr (u "audit:x")); (u "idempotency_key", PStr (u id))].

Definition demo_ops : list bus_op :=
  [Record_event (event "e1" "plan.contract.proposed.v1"); Record_event (event "e2" "no.such.topic.v1");
   Record_event (aggregate "e3" (PInt 3))].

Definition demo_world (ops : list bus_op) : BusWorld :=
  @run_bus demo_contract late_broker ascii_db ops.

Lemma drain_accounts_witness :
  exists w' res, @drain_once demo_contract late_broker None (demo_world demo_ops) = (w', Ok res) /\
    published res ++ dead_lettered res ++ suppressed_rows res ++ retried_pending res
      ≡ₚ [u "e1"; u "e2"; u "e3"].
Proof.
  assert (list_pending None (b_outbox (demo_world demo_ops)) =
    [event "e1" "plan.contract.proposed.v1"; event "e2" "no.such.topic.v1"; aggregate "e3" (PInt 3)])
    as Hl by (vm_compute; reflexivity).
  destruct (@drain_accounts demo_contract late_broker ascii_db demo_ops None demo_documented)
    as (w' & res & Hd & Hp & _).
  - unfold demo_world in Hl. rewrite Hl. intros e He. rewrite !elem_of_cons, elem_of_nil in He.
    destruct He as [-> |[-> |[-> |[]]]]; intros Ha; [discriminate Ha|discriminate Ha|].
    exists 3%Z, 7%Z. split; reflexivity.
  - exists w', res. split; [exact Hd|]. unfold demo_world in Hl. rewrite Hl in Hp. exact Hp.
Defined.

(** The first event waits, the second is dead lettered, the third suppressed;
    the next drain publishes the first. *)
Example two_drains :
  let w := demo_world (demo_ops ++ [Drain None; Drain None]) in
  pending_ids (b_outbox w) = [] /\
  b_log w = [((u "no.such.topic.v1.dlq",
               DeadLetter (event "e2" "no.such.topic.v1") [UnknownTopic (Some (PStr (u "no.such.topic.v1")))]), true);
             ((u "plan.contract.proposed.v1", Envelope (event "e1" "plan.contract.proposed.v1")), true)].
Proof. vm_compute. split; reflexivity. Qed.

(** A timed out attempt that landed is repeated: two copies, one acknowledged. *)
Example duplicate_delivery :
  let m := (u "plan.contract.proposed.v1", Envelope (event "e1" "plan.contract.proposed.v1")) in
  let w := @run_bus demo_contract slow_broker ascii_db
    [Record_event (event "e1" "plan.contract.proposed.v1"); Drain None; Drain None] in
  pending_ids (b_outbox w) = [] /\ b_log w = [(m, false); (m, true)].
Proof. vm_compute. split; reflexivity. Qed.

(** A cohort written as the float 5.0 passes the schema and raises [TypeError]
    in the privacy guard, which no drain catches: with a perfect broker, the
    event behind it is never sent. *)
Example float_cohort_blocks_the_outbox :
  let ops := [Record_event (aggregate "e0" (PFloat five)); Record_event (event "e1" "plan.contract.proposed.v1");
              Drain None; Drain None] in
  let w := @run_bus demo_contract good_broker ascii_db ops in
  (@drain_once demo_contract good_broker None w).2 = Raise (Privacy (Builtin TypeError)) /\
  b_log w = [] /\ pending_ids (b_outbox w) = [u "e0"; u "e1"].
Proof. vm_compute. repeat split. Qed.
End Witness.
