(* ===== verification/PolicyGate.v ===== *)
(** The command classifier and the default-deny engine of the policy gate
    (src/services/foundation/policy-gate-service/src/saena_policy_gate/engine.py
    and rules.py).

    A request carries an argument vector.  The classifier unwraps environment
    prefixes, exec wrappers and embedded command strings until it reaches the
    command that runs, and denies it by a table.  The recursion of
    [_classify_argv] on [depth] is the recursion of [classify_argv] on the
    number of unwraps left, [_MAX_UNWRAP_DEPTH - depth]. *)

From S2P Require Import Prelude PyStr Regex PyVal Shlex.
Local Open Scope N_scope.

(** ** The tables *)

Definition _DENIED_SUBCOMMANDS : list (pystr * pystr) :=
  [(u "kubectl", u "patch"); (u "kubectl", u "edit"); (u "kubectl", u "delete");
   (u "kubectl", u "replace"); (u "git", u "push"); (u "helm", u "upgrade");
   (u "helm", u "install"); (u "helm", u "uninstall"); (u "helm", u "delete")].

Definition _SHELL_INTERPRETERS : list pystr :=
  [u "sh"; u "bash"; u "zsh"; u "dash"; u "ksh"; u "ash"].
Definition _FETCH_TOOLS : list pystr := [u "curl"; u "wget"; u "fetch"].

Definition _EXEC_WRAPPERS : list pystr :=
  [u "env"; u "sudo"; u "xargs"; u "nohup"; u "timeout"; u "nice"; u "ionice"; u "stdbuf";
   u "time"; u "doas"; u "setsid"; u "chroot"; u "unbuffer"].

Definition _VALUE_TAKING_SHORT_OPTIONS : list pystr :=
  [u "-c"; u "-C"; u "-n"; u "-namespace"; u "-f"; u "-o"; u "-l"; u "-context"].

Definition _WRAPPER_VALUE_TAKING_OPTIONS : list pystr :=
  [u "-n"; u "-c"; u "-p"; u "-u"; u "-g"; u "--user"; u "--group"].

Definition _WRAPPERS_WITH_LEADING_POSITIONAL : list pystr := [u "timeout"; u "chroot"].

Definition _SU_LIKE : list pystr := [u "su"].

(** [x in table] *)
Definition mem {A} `{EqDecision A} (x : A) (l : list A) : bool := bool_decide (x ∈ l).

(** ** Tokens *)

(** [^[+-]?[0-9]+$] *)
Definition _NICE_NUMERIC_PATTERN : re :=
  Cat (opt (Cls (fun c => (c =? 43) || (c =? 45)))) (plus (Cls ascii_digit)).

Definition _is_nice_numeric_positional (token : pystr) : bool :=
  re_match _NICE_NUMERIC_PATTERN token.

Definition ident_start (c : N) : bool := ascii_upper c || ascii_lowercase c || (c =? 95).
Definition ident_char (c : N) : bool := ident_start c || ascii_digit c.

(** [^[A-Za-z_][A-Za-z0-9_]*=], tried at the start of the token. *)
Definition _ENV_ASSIGNMENT_PATTERN : re :=
  Cat (Cls ident_start) (Cat (Star (Cls ident_char)) (chr 61)).

Definition _is_env_assignment (token : pystr) : bool :=
  accepts (Cat _ENV_ASSIGNMENT_PATTERN any) token.

Definition _is_option_token (token : pystr) : bool :=
  startswith (u "-") token && negb (bool_decide (token = u "-")).

(** [token[len(prefix):]] of a token that starts with [prefix]. *)
Definition after (prefix token : pystr) : pystr := drop (length prefix) token.

Definition _ENV_SPLIT_STRING_LONG_FLAG : pystr := u "--split-string".
Definition _ENV_SPLIT_STRING_LONG_PREFIX : pystr := u "--split-string=".

(** The loop of [_find_env_split_string_arg] over [argv[1:]]. *)
Fixpoint find_split_string (l : list pystr) : option pystr :=
  match l with
  | [] => None
  | token :: rest =>
      if bool_decide (token = u "-S") || bool_decide (token = _ENV_SPLIT_STRING_LONG_FLAG)
      then head rest
      else if startswith (u "-S") token && negb (bool_decide (token = u "-S"))
      then Some (after (u "-S") token)
      else if startswith _ENV_SPLIT_STRING_LONG_PREFIX token
      then Some (after _ENV_SPLIT_STRING_LONG_PREFIX token)
      else find_split_string rest
  end.

Definition _find_env_split_string_arg (argv : list pystr) : option pystr :=
  find_split_string (tail argv).

Definition endswith (suffix s : pystr) : bool := startswith (reverse suffix) (reverse s).

(** [PurePosixPath(s).name] *)
Definition posix_name (s : pystr) : pystr :=
  default [] (last (List.filter
    (fun w => negb (bool_decide (w = [])) && negb (bool_decide (w = u ".")))
    (split_at (N.eqb 47) s))).

Definition _basename `{UnicodeDB} (argv0 : pystr) : pystr :=
  let normalized := replace_char 92 47 argv0 in
  let lowered := lower (posix_name normalized) in
  if endswith (u ".exe") lowered then take (length lowered - 4) lowered else lowered.

(** The loop of [iter_candidate_subcommands] over [argv[1:]]. *)
Fixpoint scan_candidates (l : list pystr) : list pystr :=
  match l with
  | [] => []
  | token :: rest =>
      if _is_option_token token then
        match rest with
        | _ :: rest' =>
            if mem token _VALUE_TAKING_SHORT_OPTIONS then scan_candidates rest'
            else scan_candidates rest
        | [] => []
        end
      else token :: scan_candidates rest
  end.

Definition iter_candidate_subcommands (argv : list pystr) : list pystr :=
  scan_candidates (tail argv).

Definition find_subcommand (argv : list pystr) : option pystr :=
  head (iter_candidate_subcommands argv).

(** ** Unwrapping *)

Fixpoint _strip_env_assignments (argv : list pystr) : list pystr :=
  match argv with
  | token :: rest => if _is_env_assignment token then _strip_env_assignments rest else argv
  | [] => []
  end.

(** The loop of [_unwrap_exec_wrapper] over [argv[1:]]. *)
Fixpoint scan_wrapped (binary : pystr) (pending_positional : bool) (l : list pystr)
    : option (list pystr) :=
  match l with
  | [] => None
  | token :: rest =>
      if bool_decide (binary = u "env") && _is_env_assignment token
      then scan_wrapped binary pending_positional rest
      else if bool_decide (binary = u "nice") && _is_nice_numeric_positional token
      then scan_wrapped binary pending_positional rest
      else if _is_option_token token then
        match rest with
        | _ :: rest' =>
            if mem token _WRAPPER_VALUE_TAKING_OPTIONS
            then scan_wrapped binary pending_positional rest'
            else scan_wrapped binary pending_positional rest
        | [] => None
        end
      else if pending_positional then scan_wrapped binary false rest
      else Some l
  end.

Definition _unwrap_exec_wrapper (argv : list pystr) (binary : pystr) : option (list pystr) :=
  if negb (mem binary _EXEC_WRAPPERS) then None
  else scan_wrapped binary (mem binary _WRAPPERS_WITH_LEADING_POSITIONAL) (tail argv).

(** The loop of [_unwrap_shell_dash_c]: the token after the first [-c] that is
    not the last token. *)
Fixpoint find_dash_c (l : list pystr) : option pystr :=
  match l with
  | token :: ((value :: _) as rest) =>
      if bool_decide (token = u "-c") then Some value else find_dash_c rest
  | _ => None
  end.

Definition _unwrap_shell_dash_c (argv : list pystr) (binary : pystr)
    : result pyexn (option (list pystr)) :=
  if negb (mem binary _SHELL_INTERPRETERS) && negb (mem binary _SU_LIKE) then Ok None
  else match find_dash_c (tail argv) with
       | Some value => Some <$> shlex_split value
       | None => Ok None
       end.

(** ** Classification *)

Record CommandClassification := {
  binary : pystr;
  subcommand : option pystr;
  denied : bool;
  reason : option pystr
}.

Definition _MAX_UNWRAP_DEPTH : nat := 12.

Definition not_denied (binary : pystr) (subcommand : option pystr) : CommandClassification :=
  {| binary := binary; subcommand := subcommand; denied := false; reason := None |}.

Definition deny (binary : pystr) (subcommand : option pystr) (reason : pystr)
    : CommandClassification :=
  {| binary := binary; subcommand := subcommand; denied := true; reason := Some reason |}.

(** The end of [_classify_argv]: the deny table, on every candidate. *)
Definition classify_leaf (binary : pystr) (unwrapped : list pystr) : CommandClassification :=
  let candidates := iter_candidate_subcommands unwrapped in
  match List.find (fun candidate => mem (binary, candidate) _DENIED_SUBCOMMANDS) candidates with
  | Some candidate =>
      deny binary (Some candidate)
        (u "denied subcommand: " ++ binary ++ u " " ++ candidate)
  | None => not_denied binary (head candidates)
  end.

Fixpoint _classify_argv `{UnicodeDB} (unwraps_left : nat) (argv : list pystr)
    : CommandClassification :=
  match argv with
  | [] => not_denied [] None
  | argv0 :: _ =>
      match unwraps_left with
      | O => deny (_basename argv0) None
               (u "denied: exec-wrapper/unwrap recursion depth exceeded (fail-closed)")
      | S unwraps_left =>
          match _strip_env_assignments argv with
          | [] => not_denied [] None
          | (command0 :: _) as unwrapped =>
              let binary := _basename command0 in
              match (if bool_decide (binary = u "env")
                     then _find_env_split_string_arg unwrapped else None) with
              | Some split_string =>
                  match shlex_split split_string with
                  | Raise _ =>
                      deny binary (Some (u "-S"))
                        (u "denied: unparseable env -S/--split-string argument (fail-closed)")
                  | Ok split_argv => _classify_argv unwraps_left split_argv
                  end
              | None =>
                  match _unwrap_exec_wrapper unwrapped binary with
                  | Some wrapped_argv => _classify_argv unwraps_left wrapped_argv
                  | None =>
                      match _unwrap_shell_dash_c unwrapped binary with
                      | Raise _ =>
                          deny binary (Some (u "-c"))
                            (u "denied: unparseable " ++ binary ++ u " -c argument (fail-closed)")
                      | Ok (Some shell_argv) => _classify_argv unwraps_left shell_argv
                      | Ok None => classify_leaf binary unwrapped
                      end
                  end
              end
          end
      end
  end.

Definition classify_command `{UnicodeDB} (argv : list pystr) : CommandClassification :=
  _classify_argv _MAX_UNWRAP_DEPTH argv.

Definition split_command_string (command : pystr) : result pyexn (list pystr) :=
  shlex_split command.

(** [zip(stages, stages[1:])] *)
Fixpoint adjacent {A} (l : list A) : list (A * A) :=
  match l with
  | x :: ((y :: _) as l') => (x, y) :: adjacent l'
  | _ => []
  end.

(** The body of the second loop of [classify_pipeline]. *)
Definition classify_pipe `{UnicodeDB} (pair : list pystr * list pystr)
    : option CommandClassification :=
  match pair with
  | (earlier0 :: _, later0 :: _) =>
      let earlier_bin := _basename earlier0 in
      let later_bin := _basename later0 in
      if mem earlier_bin _FETCH_TOOLS && mem later_bin _SHELL_INTERPRETERS
      then Some (deny earlier_bin (Some later_bin)
             (u "denied pipeline shape: " ++ earlier_bin ++ u " | " ++ later_bin))
      else None
  | _ => None
  end.

Definition classify_pipeline `{UnicodeDB} (stages : list (list pystr)) : CommandClassification :=
  match List.find denied (classify_command <$> stages) with
  | Some verdict => verdict
  | None =>
      match omap classify_pipe (adjacent stages) with
      | verdict :: _ => verdict
      | [] => not_denied [] None
      end
  end.

(** ** Requests, rules, decisions *)

Inductive RequestKind := command | file | network | tool.

#[export] Instance RequestKind_eq_dec : EqDecision RequestKind.
Proof. solve_decision. Defined.

Record AuthorizationRequest := {
  ar_kind : RequestKind;
  ar_action : pystr;
  ar_resource : list pystr;
  ar_tenant_id : pystr;
  ar_pipeline : option (list (list pystr))
}.

Record AllowRule := {
  rule_kind : RequestKind;
  rule_action : pystr;
  rule_resource_prefix : option pystr
}.

(** The texts of [reasons]; the last one quotes the request. *)
Inductive Reason :=
  | Because (text : pystr)
  | NoAllowRuleMatched (kind : RequestKind) (action : pystr).

#[export] Instance Reason_eq_dec : EqDecision Reason.
Proof. solve_decision. Defined.

Record Decision := { allow : bool; reasons : list Reason }.

(** One iteration of the loop over the rules. *)
Definition rule_matches (request : AuthorizationRequest) (rule : AllowRule) : bool :=
  bool_decide (rule_kind rule = ar_kind request)
  && bool_decide (rule_action rule = ar_action request)
  && match rule_resource_prefix rule with
     | None => true
     | Some prefix =>
         match head (ar_resource request) with
         | Some resource_value => startswith prefix resource_value
         | None => false
         end
     end.

Definition command_verdict `{UnicodeDB} (request : AuthorizationRequest) : CommandClassification :=
  match ar_pipeline request with
  | Some stages => classify_pipeline stages
  | None => classify_command (ar_resource request)
  end.

(** [PolicyEngine.evaluate] *)
Definition evaluate `{UnicodeDB} (rules : list AllowRule) (request : AuthorizationRequest)
    : Decision :=
  let by_rules :=
    if existsb (rule_matches request) rules
    then {| allow := true; reasons := [Because (u "matched allow rule")] |}
    else {| allow := false;
            reasons := [NoAllowRuleMatched (ar_kind request) (ar_action request)] |} in
  match ar_kind request with
  | command =>
      let verdict := command_verdict request in
      if denied verdict
      then {| allow := false;
              reasons := [Because (match reason verdict with
                                   | Some r => if bool_decide (r = []) then u "denied command shape" else r
                                   | None => u "denied command shape"
                                   end)] |}
      else by_rules
  | _ => by_rules
  end.

(** rules.py *)
Definition DEFAULT_RULES : list AllowRule :=
  [{| rule_kind := command; rule_action := u "execute"; rule_resource_prefix := Some (u "pytest") |};
   {| rule_kind := command; rule_action := u "execute"; rule_resource_prefix := Some (u "git") |};
   {| rule_kind := file; rule_action := u "read"; rule_resource_prefix := Some (u "/workspace/") |};
   {| rule_kind := network; rule_action := u "connect"; rule_resource_prefix := Some (u "internal://") |};
   {| rule_kind := tool; rule_action := u "invoke"; rule_resource_prefix := Some (u "linter") |}].

(** ** Lemmas *)

Lemma mem_true {A} `{EqDecision A} (x : A) l : mem x l = true <-> x ∈ l.
Proof. apply bool_decide_eq_true. Qed.


Lemma find_existsb {A} (f : A -> bool) l : existsb f l = true <-> exists x, List.find f l = Some x.
Proof.
  induction l as [|x l IH]; cbn; [split; [done|by intros []]|].
  destruct (f x); cbn; [split; [by exists x|done]|done].
Qed.

Section classify.
Context `{UnicodeDB}.

(** *** What one level does

    [view_of] names the outcome of one level of [_classify_argv]. *)

Inductive view :=
  | Nothing
  | Unreadable (verdict : CommandClassification)
  | Inner (argv : list pystr)
  | Runs (binary : pystr) (unwrapped : list pystr).

Definition view_of (argv : list pystr) : view :=
  match _strip_env_assignments argv with
  | [] => Nothing
  | (command0 :: _) as unwrapped =>
      let binary := _basename command0 in
      match (if bool_decide (binary = u "env")
             then _find_env_split_string_arg unwrapped else None) with
      | Some split_string =>
          match shlex_split split_string with
          | Raise _ =>
              Unreadable (deny binary (Some (u "-S"))
                (u "denied: unparseable env -S/--split-string argument (fail-closed)"))
          | Ok split_argv => Inner split_argv
          end
      | None =>
          match _unwrap_exec_wrapper unwrapped binary with
          | Some wrapped_argv => Inner wrapped_argv
          | None =>
              match _unwrap_shell_dash_c unwrapped binary with
              | Raise _ =>
                  Unreadable (deny binary (Some (u "-c"))
                    (u "denied: unparseable " ++ binary ++ u " -c argument (fail-closed)"))
              | Ok (Some shell_argv) => Inner shell_argv
              | Ok None => Runs binary unwrapped
              end
          end
      end
  end.

Definition unwraps (argv argv' : list pystr) : Prop := view_of argv = Inner argv'.

(** The verdict of an argument vector that has nothing left to unwrap. *)
Definition innermost_verdict (argv : list pystr) : CommandClassification :=
  match view_of argv with
  | Unreadable verdict => verdict
  | Runs binary unwrapped => classify_leaf binary unwrapped
  | Nothing | Inner _ => not_denied [] None
  end.

Lemma classify_argv_S n argv :
  _classify_argv (S n) argv =
  match view_of argv with
  | Inner argv' => _classify_argv n argv'
  | _ => innermost_verdict argv
  end.
Proof.
  unfold innermost_verdict, view_of. destruct argv as [|a argv]; [done|]. cbn [_classify_argv].
  destruct (_strip_env_assignments (a :: argv)) as [|c rest]; [done|].
  destruct (if bool_decide _ then _ else _) as [s|]; [by destruct (shlex_split s)|].
  destruct (_unwrap_exec_wrapper _ _); [done|].
  by destruct (_unwrap_shell_dash_c _ _) as [[]|].
Qed.

Lemma classify_argv_0 a argv : denied (_classify_argv 0 (a :: argv)) = true.
Proof. done. Qed.

(** *** Unwrapping shrinks the argument vector *)

Lemma strip_size argv : (argv_size (_strip_env_assignments argv) <= argv_size argv)%nat.
Proof.
  induction argv as [|a argv IH]; [done|]. cbn [_strip_env_assignments].
  destruct (_is_env_assignment a); [|done]. rewrite argv_size_cons. lia.
Qed.

Lemma scan_wrapped_size b : forall l pending l',
  scan_wrapped b pending l = Some l' -> (argv_size l' <= argv_size l)%nat.
Proof.
  induction l as [|token rest IH IH'] using list_tail_ind; intros pending l'; cbn [scan_wrapped]; [done|].
  rewrite argv_size_cons. repeat case_match; intros Hs; try discriminate;
    solve [ apply IH in Hs; lia | apply IH' in Hs; cbn [tail] in Hs; rewrite argv_size_cons; lia
          | injection Hs as <-; rewrite argv_size_cons; lia ].
Qed.

Lemma find_split_string_size l s :
  find_split_string l = Some s -> (S (length s) <= argv_size l)%nat.
Proof.
  induction l as [|token rest IH]; cbn [find_split_string]; [done|]. rewrite argv_size_cons.
  repeat case_match; intros Hs; try (apply IH in Hs; lia); try injection Hs as <-.
  - destruct rest as [|t rest]; cbn in Hs; [done|]. injection Hs as <-. rewrite argv_size_cons. lia.
  - unfold after. rewrite length_drop. lia.
  - unfold after. rewrite length_drop. lia.
Qed.

Lemma find_dash_c_size l s : find_dash_c l = Some s -> (S (length s) <= argv_size l)%nat.
Proof.
  induction l as [|token [|value rest] IH]; [done..|].
  change (find_dash_c (token :: value :: rest)) with
    (if bool_decide (token = u "-c") then Some value else find_dash_c (value :: rest)).
  case_bool_decide; [intros [= <-]|intros Hs%IH]; rewrite !argv_size_cons in *; lia.
Qed.

Lemma unwrap_shell_size argv b l :
  _unwrap_shell_dash_c argv b = Ok (Some l) -> (argv_size l <= argv_size (tail argv))%nat.
Proof.
  unfold _unwrap_shell_dash_c. destruct (_ && _); [done|].
  destruct (find_dash_c _) as [s|] eqn:Ef; [|done]. apply find_dash_c_size in Ef.
  rewrite fmap_Ok. intros (l' & Hl%shlex_split_size & [= <-]). lia.
Qed.

Lemma unwrap_exec_size argv b l :
  _unwrap_exec_wrapper argv b = Some l -> (argv_size l <= argv_size (tail argv))%nat.
Proof.
  unfold _unwrap_exec_wrapper. destruct (negb _); [done|]. apply scan_wrapped_size.
Qed.

Lemma unwraps_size argv argv' : unwraps argv argv' -> (argv_size argv' < argv_size argv)%nat.
Proof.
  unfold unwraps, view_of. pose proof (strip_size argv) as Hs.
  destruct (_strip_env_assignments argv) as [|c rest]; [done|]. rewrite argv_size_cons in Hs.
  destruct (if bool_decide _ then _ else _) as [s|] eqn:Ee.
  { destruct (shlex_split s) as [l|] eqn:El; [intros [= <-]|done].
    case_bool_decide; [|done]. apply find_split_string_size in Ee. cbn [tail] in Ee.
    apply shlex_split_size in El. lia. }
  destruct (_unwrap_exec_wrapper _ _) as [l|] eqn:El.
  { intros [= <-]. apply unwrap_exec_size in El. cbn [tail] in El. lia. }
  destruct (_unwrap_shell_dash_c _ _) as [[l|]|] eqn:Es; [intros [= <-]|done..].
  apply unwrap_shell_size in Es. cbn [tail] in Es. lia.
Qed.

Lemma unwraps_wf : well_founded (flip unwraps).
Proof.
  apply (wf_projected lt argv_size); [|apply lt_wf]. intros a b. apply unwraps_size.
Qed.

Lemma unwraps_dec argv : {argv' | unwraps argv argv'} + {forall argv', ~ unwraps argv argv'}.
Proof.
  unfold unwraps. destruct (view_of argv) as [|v|l|b l]; [right; congruence..|left; by exists l|].
  right. congruence.
Qed.

(** Every argument vector reaches an end, in a number of unwraps below its
    size. *)
Lemma unwraps_end argv :
  exists n inner, nsteps unwraps n argv inner /\ (forall l, ~ unwraps inner l) /\
                  (n <= argv_size argv)%nat.
Proof.
  induction argv as [argv IH] using (well_founded_ind unwraps_wf).
  destruct (unwraps_dec argv) as [[l Hl]|Hend].
  - destruct (IH l Hl) as (n & inner & Hn & Hend & Hle). exists (S n), inner.
    split; [by apply nsteps_l with l|]. split; [done|]. apply unwraps_size in Hl. lia.
  - exists 0%nat, argv. split; [apply nsteps_O|]. split; [done|lia].
Qed.

Lemma classify_nsteps n argv inner : nsteps unwraps n argv inner ->
  forall m, _classify_argv (n + m) argv = _classify_argv m inner.
Proof.
  induction 1 as [argv|n argv l inner Hl Hn IH]; intros m; [done|].
  cbn [Nat.add]. rewrite classify_argv_S, Hl. apply IH.
Qed.

Lemma classify_innermost m inner :
  (forall l, ~ unwraps inner l) -> _classify_argv (S m) inner = innermost_verdict inner.
Proof.
  intros Hend. rewrite classify_argv_S. destruct (view_of inner) as [| |l|] eqn:E; try done.
  by destruct (Hend l).
Qed.

(** *** What one unwrap skips

    [layer argv cmd]: the classifier unwraps [argv] to [cmd]. *)

























(** *** What runs a denied command

    The specification: the commands the policy denies and the ways of running
    them, spelled out from the manuals of the utilities and not from the
    tables above. *)

















(** *** The tables cover the specification *)



























Lemma classify_pipeline_denied stages stage :
  stage ∈ stages -> denied (classify_command stage) = true -> denied (classify_pipeline stages) = true.
Proof.
  intros Hin Hd. unfold classify_pipeline.
  destruct (List.find denied _) as [v|] eqn:Ef; [by apply List.find_some in Ef as [_ ?]|].
  pose proof (List.find_none _ _ Ef (classify_command stage)) as Hn. rewrite Hn in Hd; [done|].
  by apply list_elem_of_In, list_elem_of_fmap_2.
Qed.

Lemma unwraps_nil l : ~ unwraps [] l.
Proof. done. Qed.


Lemma elem_of_adjacent {A} (x y : A) l :
  (x, y) ∈ adjacent l <-> exists pre post, l = pre ++ x :: y :: post.
Proof.
  induction l as [|a [|b l] IH].
  - split; [inversion 1|]. intros (pre & post & Hl). by destruct pre.
  - split; [inversion 1|]. intros (pre & post & Hl). by destruct pre as [|? []].
  - change (adjacent (a :: b :: l)) with ((a, b) :: adjacent (b :: l)).
    rewrite elem_of_cons, IH. split.
    + intros [[= -> ->]|(pre & post & ->)]; [by exists [], l|by exists (a :: pre), post].
    + intros ([|c pre] & post & Hl); injection Hl; [intros _ -> ->; by left|].
      intros Hl' ->. right. by exists pre, post.
Qed.

(** A stage that downloads piped into a stage that interprets. *)
Definition fetch_into_shell (earlier later : list pystr) : Prop :=
  exists e es l ls, earlier = e :: es /\ later = l :: ls /\
    _basename e ∈ _FETCH_TOOLS /\ _basename l ∈ _SHELL_INTERPRETERS.

Lemma classify_pipe_some earlier later :
  match classify_pipe (earlier, later) with
  | Some v => denied v = true /\ fetch_into_shell earlier later
  | None => ~ fetch_into_shell earlier later
  end.
Proof.
  destruct earlier as [|e es]; [by intros (? & ? & ? & ? & ? & _)|].
  destruct later as [|l ls]; [by intros (? & ? & ? & ? & _ & ? & _)|]. cbn.
  destruct (mem _ _FETCH_TOOLS && mem _ _SHELL_INTERPRETERS) eqn:E.
  - split; [done|]. apply andb_true_iff in E as [E1%mem_true E2%mem_true]. by exists e, es, l, ls.
  - intros (e' & es' & l' & ls' & [= <- <-] & [= <- <-] & He & Hl).
    by rewrite (proj2 (mem_true _ _) He), (proj2 (mem_true _ _) Hl) in E.
Qed.

(** ** Properties *)


(** C37: classification terminates on every argument vector: each unwrap
    shrinks it, the chain of unwraps has one end, the verdict is that of the
    innermost command when the end is reached within the depth bound, and a
    denial when it is not. *)
Theorem classification_terminates argv :
  exists n inner, nsteps unwraps n argv inner /\ (forall l, ~ unwraps inner l) /\
    (n <= argv_size argv)%nat /\
    if bool_decide (n < _MAX_UNWRAP_DEPTH)%nat || bool_decide (n = _MAX_UNWRAP_DEPTH /\ inner = [])
    then classify_command argv = innermost_verdict inner
    else denied (classify_command argv) = true.
Proof.
  destruct (unwraps_end argv) as (n & inner & Hn & Hend & Hle). exists n, inner.
  split; [done|]. split; [done|]. split; [done|]. unfold classify_command.
  destruct (decide (n < _MAX_UNWRAP_DEPTH)%nat) as [Hlt|Hge].
  { rewrite bool_decide_eq_true_2 by done. cbn [orb].
    replace _MAX_UNWRAP_DEPTH with (n + S (_MAX_UNWRAP_DEPTH - n - 1))%nat by lia.
    rewrite (classify_nsteps n argv inner Hn). by apply classify_innermost. }
  rewrite (bool_decide_eq_false_2 (n < _)%nat) by done. cbn [orb].
  replace n with (_MAX_UNWRAP_DEPTH + (n - _MAX_UNWRAP_DEPTH))%nat in Hn by lia.
  apply nsteps_add_inv in Hn as (mid & Hmid & Hrest).
  rewrite <- (Nat.add_0_r _MAX_UNWRAP_DEPTH), (classify_nsteps _ _ _ Hmid), Nat.add_0_r.
  destruct (n - _MAX_UNWRAP_DEPTH)%nat as [|k] eqn:Ek.
  - inversion Hrest; subst. destruct inner as [|a inner].
    + by rewrite bool_decide_eq_true_2 by (split; [lia|done]).
    + rewrite bool_decide_eq_false_2 by (intros [_ ?]; done). apply classify_argv_0.
  - rewrite bool_decide_eq_false_2 by (intros [? _]; lia).
    destruct mid as [|a mid]; [|apply classify_argv_0].
    inversion Hrest as [|? ? l ? Hl]; subst. by apply unwraps_nil in Hl.
Qed.

(** default deny: a request is allowed exactly when some rule of its kind
    and action has no resource prefix or a prefix of its first resource, and
    it is not a denied command; a refusal states a reason. *)
Theorem evaluate_default_deny rules request :
  (allow (evaluate rules request) = true <->
    (ar_kind request = command -> denied (command_verdict request) = false) /\
    exists rule, rule ∈ rules /\ rule_kind rule = ar_kind request /\
      rule_action rule = ar_action request /\
      forall prefix, rule_resource_prefix rule = Some prefix ->
        exists resource rest, ar_resource request = resource :: rest /\
                              startswith prefix resource = true) /\
  reasons (evaluate rules request) <> [].
Proof.
  assert (existsb (rule_matches request) rules = true <->
    exists rule, rule ∈ rules /\ rule_kind rule = ar_kind request /\
      rule_action rule = ar_action request /\
      forall prefix, rule_resource_prefix rule = Some prefix ->
        exists resource rest, ar_resource request = resource :: rest /\
                              startswith prefix resource = true) as <-.
  { rewrite existsb_elem. apply exist_proper. intros rule. unfold rule_matches. bprop.
    destruct (rule_resource_prefix rule) as [p|], (ar_resource request); naive_solver. }
  unfold evaluate. destruct (ar_kind request); cbn;
    repeat case_if; cbn; split; try done; naive_solver.
Qed.

(** a pipeline is denied exactly when a stage is denied on its own or a
    download stage feeds directly into a shell stage. *)
Theorem pipeline_denied_iff stages :
  denied (classify_pipeline stages) = true <->
  (exists stage, stage ∈ stages /\ denied (classify_command stage) = true) \/
  (exists pre earlier later post, stages = pre ++ earlier :: later :: post /\
     fetch_into_shell earlier later).
Proof.
  split.
  - unfold classify_pipeline. destruct (List.find denied _) as [v|] eqn:Ef.
    + apply List.find_some in Ef as [Hin Hv]. intros _. left.
      apply list_elem_of_In, list_elem_of_fmap in Hin as (stage & -> & Hin). eauto.
    + destruct (omap classify_pipe _) as [|v vs] eqn:Eo; [done|]. intros _. right.
      assert (v ∈ omap classify_pipe (adjacent stages)) as Hv by (rewrite Eo; by left).
      apply list_elem_of_omap in Hv as ([e l] & Hin & Hp).
      apply elem_of_adjacent in Hin as (pre & post & ->). exists pre, e, l, post.
      pose proof (classify_pipe_some e l) as Hs. rewrite Hp in Hs. by destruct Hs.
  - intros [(stage & Hin & Hd)|(pre & e & l & post & -> & Hf)].
    + by eapply classify_pipeline_denied.
    + unfold classify_pipeline.
      destruct (List.find denied _) as [v|] eqn:Ef; [by apply List.find_some in Ef as [_ ?]|].
      pose proof (classify_pipe_some e l) as Hs.
      destruct (classify_pipe (e, l)) as [v|] eqn:Ev; [|done].
      destruct (omap classify_pipe _) as [|v' vs] eqn:Eo.
      * assert (v ∈ omap classify_pipe (adjacent (pre ++ e :: l :: post))) as Hv; [|by rewrite Eo in Hv; inversion Hv].
        apply list_elem_of_omap. exists (e, l). split; [|done]. apply elem_of_adjacent. eauto.
      * assert (v' ∈ omap classify_pipe (adjacent (pre ++ e :: l :: post))) as Hv by (rewrite Eo; by left).
        apply list_elem_of_omap in Hv as ([e' l'] & _ & Hp).
        pose proof (classify_pipe_some e' l') as Hs'. rewrite Hp in Hs'. by destruct Hs'.
Qed.
End classify.

(** ** Concrete requests *)

Module Witness.






(** What the tables do not see.  [sudo -n] takes no value, [-n] is in the
    table of options that do, so the binary is skipped as its value. *)
Example sudo_n_hides_the_binary :
  classify_command [u "sudo"; u "-n"; u "kubectl"; u "patch"; u "pod"; u "x"]
  = not_denied (u "patch") (Some (u "pod")).
Proof. by vm_compute. Qed.

(** The one table serves all wrappers: options without a value that it lists,
    and options with one that it does not, hide the denied command. *)
Example misread_options :
  Forall (fun wrapper => denied (classify_command (wrapper ++ [u "kubectl"; u "patch"; u "pod"; u "x"])) = false)
    [[u "time"; u "-p"]; [u "doas"; u "-n"]; [u "setsid"; u "-c"]; [u "xargs"; u "-p"]; [u "unbuffer"; u "-p"];
     [u "env"; u "-C"; u "/tmp"]; [u "xargs"; u "-I"; u "X"]; [u "stdbuf"; u "-o"; u "L"]; [u "sudo"; u "-h"; u "host"];
     [u "timeout"; u "-k"; u "5"; u "30"]; [u "env"; u "-"]].
Proof. by_decide. Qed.

(** The split-string scan of [env] runs into the arguments of the wrapped
    command: here a push option of [git] is classified in place of the push. *)
Example env_scan_reads_the_wrapped_command :
  classify_command [u "env"; u "git"; u "push"; u "-o"; u "-Sx"] = not_denied (u "x") None.
Proof. by vm_compute. Qed.

(** With a pipeline the classifier reads the stages and the rules the
    resource: a resource that names an allowed binary lets any pipeline that
    is not denied run, although no rule allows its commands. *)
Example pipeline_escapes_the_allowlist :
  allow (evaluate DEFAULT_RULES
    {| ar_kind := command; ar_action := u "execute"; ar_resource := [u "git"];
       ar_tenant_id := u "acme-co"; ar_pipeline := Some [[u "rm"; u "-rf"; u "/"]] |}) = true.
Proof. by vm_compute. Qed.

End Witness.
