(* ===== verification/GateService.v ===== *)
(** The policy-gate service
    (src/services/foundation/policy-gate-service/src/saena_policy_gate):
    service.py, errors.py, problem.py, tenant_middleware.py and the two routes
    of app.py over the engine of [PolicyGate].

    The decision store is a class [DecisionPort]: an operation that may record,
    report a conflict or fail in any other way.  The engine of a request is a
    function that may raise, so that a broken rule store is an instance.  The
    two readings of the clock are arguments. *)

From S2P Require Import Prelude PyStr Regex Sha256 PyVal Canonical Policy PlanRepo Identity.
From S2P Require Import PolicyGate.

(** ** errors.py *)

Inductive policy_gate_error :=
  | PolicyGateError | PolicyDenyError | GateUnavailableError | ValidationError
  | DecisionConflictError | TenantHeaderError.

#[export] Instance policy_gate_error_eq_dec : EqDecision policy_gate_error.
Proof. solve_decision. Defined.

Definition error_code (e : policy_gate_error) : pystr :=
  match e with
  | PolicyGateError => u "saena.internal.unexpected"
  | PolicyDenyError => u "saena.policy_denied.rule_denied"
  | GateUnavailableError => u "saena.policy_denied.gate_unavailable"
  | ValidationError => u "saena.validation.schema_mismatch"
  | DecisionConflictError => u "saena.conflict.decision_conflict"
  | TenantHeaderError => u "saena.auth.tenant_mismatch"
  end.

Definition http_status (e : policy_gate_error) : Z :=
  match e with
  | PolicyGateError => 500
  | PolicyDenyError => 403
  | GateUnavailableError => 503
  | ValidationError => 400
  | DecisionConflictError => 409
  | TenantHeaderError => 403
  end.

Definition class_name (e : policy_gate_error) : pystr :=
  match e with
  | PolicyGateError => u "PolicyGateError"
  | PolicyDenyError => u "PolicyDenyError"
  | GateUnavailableError => u "GateUnavailableError"
  | ValidationError => u "ValidationError"
  | DecisionConflictError => u "DecisionConflictError"
  | TenantHeaderError => u "TenantHeaderError"
  end.

(** ** problem.py *)

Definition _TYPE_BASE : pystr := u "https://schemas.the-saena.ai/errors".

(** [error_code.split(".", 2)] *)
Definition code_parts (code : pystr) : list pystr :=
  match split_at (N.eqb 46) code with
  | a :: b :: c :: rest => [a; b; join (u ".") (c :: rest)]
  | l => l
  end.

Definition _type_uri (code : pystr) : pystr :=
  let parts := code_parts code in
  let category := default (u "internal") (parts !! 1%nat) in
  let reason := default (u "unexpected") (parts !! 2%nat) in
  _TYPE_BASE ++ u "/" ++ category ++ u "/" ++ reason.

(** The problem body; [retryable] is [False] for every class. *)
Record Problem := {
  p_type : pystr; p_title : pystr; p_status : Z; p_detail : pystr; p_instance : pystr;
  p_error_code : pystr; p_retryable : bool; p_trace_id : pystr; p_tenant_id : option pystr
}.

Definition build_problem (exc : policy_gate_error) (detail instance trace_id : pystr)
    (tenant_id : option pystr) : Problem :=
  {| p_type := _type_uri (error_code exc); p_title := class_name exc;
     p_status := http_status exc; p_detail := detail; p_instance := instance;
     p_error_code := error_code exc; p_retryable := false; p_trace_id := trace_id;
     p_tenant_id := tenant_id |}.

(** ** service.py *)

(** What [store.record] raises: a conflict, or anything else. *)
Inductive port_exn := PortConflict | PortFailure.

(** What reaches the choke point: the conflict, or any other exception. *)
Inductive gate_exn := Conflict | Other.

Class DecisionPort (Store : Type) := {
  port_record : pystr -> DecisionRecord -> M Store port_exn DecisionRecord
}.

Inductive gate_reason :=
  | ByEngine (r : Reason)
  | H3Satisfied
  | H3Violated (v : h3_violation)
  | EngineUnavailable.

Record GateResult := {
  gr_decision : pystr;
  gr_reasons : list gate_reason;
  gr_require_two_person : bool;
  gr_decision_key : pystr * pystr;
  gr_error_code : option pystr
}.

Definition kind_text (k : RequestKind) : pystr :=
  match k with
  | command => u "command" | file => u "file" | network => u "network" | tool => u "tool"
  end.

(** The object that is serialised. *)
Definition authorize_shape (request : AuthorizationRequest) : pyval :=
  PDict
    [(u "kind", PStr (kind_text (ar_kind request)));
     (u "action", PStr (ar_action request));
     (u "resource", PList (PStr <$> ar_resource request));
     (u "pipeline", match ar_pipeline request with
                    | None => PNone
                    | Some stages => PList ((fun stage => PList (PStr <$> stage)) <$> stages)
                    end)].

Definition _authorize_contract_hash `{FloatRepr} (request : AuthorizationRequest)
    : result pyexn pystr :=
  canonical ← canonical_json (authorize_shape request);
  digest ← sha256_hex canonical;
  Ok (u "authz:sha256:" ++ digest).

Definition _decision_key_preview `{UnicodeDB} (contract_hash approver_actor_id : pystr)
    : pystr * pystr := (contract_hash, canonical_actor_id approver_actor_id).

Definition _record `{DecisionPort Store} (tenant_id : pystr) (record : DecisionRecord)
    : M Store gate_exn DecisionRecord := fun s =>
  match port_record tenant_id record s with
  | (s', Ok stored) => (s', Ok stored)
  | (s', Raise PortConflict) => (s', Raise Conflict)
  | (s', Raise PortFailure) => (s', Raise Other)
  end.

(** What the gate is asked to record: everything but the decision and the
    time. *)
Record GateKey := {
  gk_contract_hash : pystr; gk_approver_actor_id : pystr;
  gk_proposer_actor_id : pystr; gk_high_risk : bool
}.

Definition gate_record (k : GateKey) (decision decided_at : pystr) : DecisionRecord :=
  {| dr_contract_hash := gk_contract_hash k; dr_approver_actor_id := gk_approver_actor_id k;
     dr_decision := decision; dr_proposer_actor_id := gk_proposer_actor_id k;
     dr_high_risk := gk_high_risk k; dr_decided_at := decided_at |}.

Definition decision_value (allow : bool) : pystr := if allow then u "approved" else u "rejected".

(** The [try] block of [_evaluate_and_record]. *)
Definition try_evaluate_and_record `{DecisionPort Store} (tenant_id : pystr) (k : GateKey)
    (now : pystr) (evaluate : result gate_exn (bool * list gate_reason))
    : M Store gate_exn (bool * list gate_reason * DecisionRecord) :=
  ev ← lift evaluate;
  stored ← _record tenant_id (gate_record k (decision_value ev.1) now);
  mret (ev, stored).

Definition _evaluate_and_record `{DecisionPort Store} `{UnicodeDB} (tenant_id : pystr) (k : GateKey)
    (now retried_at : pystr) (evaluate : result gate_exn (bool * list gate_reason))
    : M Store policy_gate_error GateResult := fun s =>
  match try_evaluate_and_record tenant_id k now evaluate s with
  | (s', Raise Conflict) => (s', Raise DecisionConflictError)
  | (s', Raise Other) =>
      let '(s'', r) := _record tenant_id (gate_record k (u "rejected") retried_at) s' in
      let key := match r with
                 | Ok stored => decision_key stored
                 | Raise _ => _decision_key_preview (gk_contract_hash k) (gk_approver_actor_id k)
                 end in
      (s'', Ok {| gr_decision := u "deny"; gr_reasons := [EngineUnavailable];
                  gr_require_two_person := gk_high_risk k; gr_decision_key := key;
                  gr_error_code := Some (error_code GateUnavailableError) |})
  | (s', Ok (ev, stored)) =>
      (s', Ok {| gr_decision := if ev.1 then u "allow" else u "deny"; gr_reasons := ev.2;
                 gr_require_two_person := gk_high_risk k; gr_decision_key := decision_key stored;
                 gr_error_code := None |})
  end.

(** An engine: the rules of [PolicyGate.evaluate], or a broken one. *)
Abbreviation Engine := (AuthorizationRequest -> result gate_exn Decision).

Definition rules_engine `{UnicodeDB} (rules : list AllowRule) : Engine := fun request =>
  Ok (evaluate rules request).

Definition evaluate_callback (engine : Engine) (request : AuthorizationRequest)
    : result gate_exn (bool * list gate_reason) :=
  verdict ← engine request;
  Ok (allow verdict, ByEngine <$> reasons verdict).

Definition authorize_key (contract_hash approver_actor_id : pystr) : GateKey :=
  {| gk_contract_hash := contract_hash; gk_approver_actor_id := approver_actor_id;
     gk_proposer_actor_id := u "system"; gk_high_risk := false |}.

(** The hash is computed before the choke point. *)
Definition authorize_command `{DecisionPort Store} `{UnicodeDB} `{FloatRepr} (engine : Engine)
    (tenant_id : pystr) (request : AuthorizationRequest) (approver_actor_id now retried_at : pystr)
    : M Store policy_gate_error GateResult :=
  match _authorize_contract_hash request with
  | Raise _ => throw PolicyGateError
  | Ok contract_hash =>
      _evaluate_and_record tenant_id (authorize_key contract_hash approver_actor_id)
        now retried_at (evaluate_callback engine request)
  end.

Record PlanCheckInput := {
  pc_contract_hash : pystr;
  pc_proposer_actor_id : pystr;
  pc_evidence_ledger_hash : pystr;
  pc_approved_scope : list pystr;
  pc_scope_max_globs : Z;
  pc_diff_max_files : Z;
  pc_diff_max_lines : Z;
  pc_hypothesis_risks : list pystr;
  pc_diff_stats : option DiffStats
}.

Definition _ChangePlanView (plan : PlanCheckInput) : ChangePlanLike :=
  {| cp_evidence_ledger_hash := Some (pc_evidence_ledger_hash plan);
     cp_approved_scope := pc_approved_scope plan; cp_max_globs := pc_scope_max_globs plan;
     cp_max_files := pc_diff_max_files plan; cp_max_lines := pc_diff_max_lines plan |}.

Definition plan_callback (plan : PlanCheckInput) : result gate_exn (bool * list gate_reason) :=
  let result := evaluate_h3_evidence_policy (_ChangePlanView plan) (pc_diff_stats plan) in
  Ok (h3_ok result,
      if h3_ok result then [H3Satisfied] else H3Violated <$> h3_violations result).

Definition plan_key (plan : PlanCheckInput) (approver_actor_id : pystr) : GateKey :=
  {| gk_contract_hash := pc_contract_hash plan; gk_approver_actor_id := approver_actor_id;
     gk_proposer_actor_id := pc_proposer_actor_id plan;
     gk_high_risk := is_high_risk_plan (pc_hypothesis_risks plan) |}.

Definition check_plan `{DecisionPort Store} `{UnicodeDB} (tenant_id : pystr) (plan : PlanCheckInput)
    (approver_actor_id now retried_at : pystr) : M Store policy_gate_error GateResult :=
  _evaluate_and_record tenant_id (plan_key plan approver_actor_id) now retried_at (plan_callback plan).

(** ** The in-memory store as the port of app.py *)

Abbreviation DecisionTable := (tstore (pystr * pystr) DecisionRecord).

#[export] Instance memory_port `{UnicodeDB} : DecisionPort DecisionTable := {|
  port_record tenant_id record := fun m =>
    match store_record tenant_id record m with
    | Ok (m', stored) => (m', Ok stored)
    | Raise PlanRepo.DecisionConflictError => (m, Raise PortConflict)
    | Raise _ => (m, Raise PortFailure)
    end
|}.

(** ** tenant_middleware.py and the routes of app.py *)

Inductive route_body :=
  | Authorize (kind : RequestKind) (action : pystr) (resource : list pystr)
      (pipeline : option (list (list pystr))) (approver_actor_id : pystr)
  | PlanCheck (plan : PlanCheckInput) (approver_actor_id : pystr).

Inductive http_request :=
  | Health
  | Gate (body : route_body).

Inductive http_response :=
  | HealthOk
  | GateDecisionResponse (r : GateResult)
  | ProblemResponse (p : Problem)
  | ServerError.

(** What a request carries besides its body. *)
Record http_context := {
  hc_tenant_header : option pystr;
  hc_url : pystr;
  hc_trace_id : pystr;
  hc_detail : policy_gate_error -> pystr;
  hc_now : pystr;
  hc_retried_at : pystr
}.

Definition run_route `{DecisionPort Store} `{UnicodeDB} `{FloatRepr} (engine : Engine)
    (ctx : http_context) (tenant_id : pystr) (body : route_body)
    : M Store policy_gate_error GateResult :=
  match body with
  | Authorize kind action resource pipeline approver =>
      authorize_command engine tenant_id
        {| ar_kind := kind; ar_action := action; ar_resource := resource;
           ar_tenant_id := tenant_id; ar_pipeline := pipeline |}
        approver (hc_now ctx) (hc_retried_at ctx)
  | PlanCheck plan approver => check_plan tenant_id plan approver (hc_now ctx) (hc_retried_at ctx)
  end.

(** [TenantHeaderMiddleware.dispatch] around the route; [TenantId(...)] of the
    route raises past every handler. *)
Definition dispatch `{DecisionPort Store} `{UnicodeDB} `{FloatRepr} (engine : Engine)
    (env_value : option pystr) (ctx : http_context) (request : http_request) (s : Store)
    : Store * http_response :=
  match request with
  | Health => (s, HealthOk)
  | Gate body =>
      let problem e tenant :=
        ProblemResponse (build_problem e (hc_detail ctx e) (hc_url ctx) (hc_trace_id ctx) tenant) in
      match reconcile_tenant (hc_tenant_header ctx) env_value with
      | Raise _ => (s, problem TenantHeaderError None)
      | Ok tenant =>
          match make_TenantId tenant with
          | Raise _ => (s, ServerError)
          | Ok tenant_id =>
              match run_route engine ctx tenant_id body s with
              | (s', Ok r) => (s', GateDecisionResponse r)
              | (s', Raise e) => (s', problem e (Some tenant))
              end
          end
      end
  end.

(** ** Lemmas *)

Section service.
Context `{UnicodeDB} `{FloatRepr}.

Lemma authorize_shape_serializable request : serializable (authorize_shape request) = true.
Proof.
  assert (forall l, forallb serializable (PStr <$> l) = true) as Hs by (induction l; done).
  unfold authorize_shape. destruct (ar_pipeline request) as [stages|]; cbn; rewrite Hs; [|done].
  rewrite !andb_true_r. induction stages as [|st stages IH]; [done|]. cbn. by rewrite Hs, IH.
Qed.

(** The hash of a request never fails. *)
Lemma contract_hash_total request :
  _authorize_contract_hash request =
    Ok (u "authz:sha256:" ++ hexdigest (dumps (authorize_shape request))).
Proof.
  unfold _authorize_contract_hash.
  rewrite canonical_json_total by apply authorize_shape_serializable.
  unfold mbind, result_bind. by rewrite sha256_hex_dumps.
Qed.

Lemma reconcile_tenant_Ok header env t :
  reconcile_tenant header env = Ok t <-> t <> [] /\ header = Some t /\ env = Some t.
Proof.
  unfold reconcile_tenant. destruct header as [[|h hs]|], env as [[|e es]|]; cbn [falsy orb];
    try (split; [done|intros (? & ? & ?); by simplify_eq]).
  destruct (bool_decide (_ <> _)) eqn:E.
  - apply bool_decide_eq_true in E. split; [done|]. intros (_ & ? & ?). congruence.
  - apply bool_decide_eq_false, dec_stable in E as [= -> ->]. cbn. naive_solver.
Qed.

Lemma make_TenantId_same t t' : make_TenantId t = Ok t' -> t' = t.
Proof. unfold make_TenantId. destruct (re_fullmatch _ _); congruence. Qed.

(** The key and the evaluation of a route. *)
Definition route_request (tenant_id : pystr) (body : route_body) : option AuthorizationRequest :=
  match body with
  | Authorize kind action resource pipeline approver =>
      Some {| ar_kind := kind; ar_action := action; ar_resource := resource;
              ar_tenant_id := tenant_id; ar_pipeline := pipeline |}
  | PlanCheck _ _ => None
  end.

Definition route_key (tenant_id : pystr) (body : route_body) : GateKey :=
  match body with
  | Authorize kind action resource pipeline approver =>
      authorize_key (u "authz:sha256:" ++ hexdigest (dumps (authorize_shape
        {| ar_kind := kind; ar_action := action; ar_resource := resource;
           ar_tenant_id := tenant_id; ar_pipeline := pipeline |}))) approver
  | PlanCheck plan approver => plan_key plan approver
  end.

Definition route_evaluation (engine : Engine) (tenant_id : pystr) (body : route_body)
    : result gate_exn (bool * list gate_reason) :=
  match body with
  | Authorize kind action resource pipeline _ =>
      evaluate_callback engine
        {| ar_kind := kind; ar_action := action; ar_resource := resource;
           ar_tenant_id := tenant_id; ar_pipeline := pipeline |}
  | PlanCheck plan _ => plan_callback plan
  end.

Section port.
Context `{DecisionPort Store}.

Lemma run_route_eq engine ctx tenant_id body :
  run_route (Store := Store) engine ctx tenant_id body =
  _evaluate_and_record tenant_id (route_key tenant_id body) (hc_now ctx) (hc_retried_at ctx)
    (route_evaluation engine tenant_id body).
Proof.
  destruct body; [|done]. cbn [run_route]. unfold authorize_command. by rewrite contract_hash_total.
Qed.

(** What the choke point answers, by how evaluation and recording ended. *)
Lemma evaluate_and_record_cases tenant k now retried_at ev (s : Store) :
  let attempt allow := port_record tenant (gate_record k (decision_value allow) now) s in
  match ev with
  | Ok (allow, rs) =>
      match attempt allow with
      | (s', Ok stored) =>
          _evaluate_and_record tenant k now retried_at ev s =
            (s', Ok {| gr_decision := if allow then u "allow" else u "deny"; gr_reasons := rs;
                       gr_require_two_person := gk_high_risk k;
                       gr_decision_key := decision_key stored; gr_error_code := None |})
      | (s', Raise PortConflict) =>
          _evaluate_and_record tenant k now retried_at ev s = (s', Raise DecisionConflictError)
      | (s', Raise PortFailure) =>
          exists s'' key, _evaluate_and_record tenant k now retried_at ev s =
            (s'', Ok {| gr_decision := u "deny"; gr_reasons := [EngineUnavailable];
                        gr_require_two_person := gk_high_risk k; gr_decision_key := key;
                        gr_error_code := Some (error_code GateUnavailableError) |})
      end
  | Raise Conflict =>
      _evaluate_and_record tenant k now retried_at ev s = (s, Raise DecisionConflictError)
  | Raise Other =>
      exists s'' key, _evaluate_and_record tenant k now retried_at ev s =
        (s'', Ok {| gr_decision := u "deny"; gr_reasons := [EngineUnavailable];
                    gr_require_two_person := gk_high_risk k; gr_decision_key := key;
                    gr_error_code := Some (error_code GateUnavailableError) |})
  end.
Proof.
  cbv zeta. unfold _evaluate_and_record, try_evaluate_and_record, _record, lift, mbind, M_bind.
  destruct ev as [[allow rs]|[|]]; cbn.
  - destruct (port_record _ _ s) as [s' [stored|[|]]]; [done..|].
    destruct (port_record _ _ s') as [s'' [stored|[|]]]; by eexists _, _.
  - done.
  - destruct (port_record _ _ s) as [s'' [stored|[|]]]; by eexists _, _.
Qed.

(** A gate response, through the whole request path. *)
Lemma dispatch_gate engine env ctx body (s s' : Store) r :
  dispatch engine env ctx (Gate body) s = (s', GateDecisionResponse r) <->
  exists tenant, hc_tenant_header ctx = Some tenant /\ env = Some tenant /\
    make_TenantId tenant = Ok tenant /\
    _evaluate_and_record tenant (route_key tenant body) (hc_now ctx) (hc_retried_at ctx)
      (route_evaluation engine tenant body) s = (s', Ok r).
Proof.
  unfold dispatch. split.
  - destruct (reconcile_tenant _ _) as [t|] eqn:Er; [|done].
    apply reconcile_tenant_Ok in Er as (_ & Hh & ->).
    destruct (make_TenantId t) as [t'|] eqn:Et; [|done]. pose proof (make_TenantId_same _ _ Et) as ->.
    rewrite run_route_eq. destruct (_evaluate_and_record _ _ _ _ _ _) as [s1 [r1|]] eqn:Er; [|done].
    intros [= -> ->]. by exists t.
  - intros (tenant & -> & -> & Ht & Hr).
    rewrite (proj2 (reconcile_tenant_Ok (Some tenant) (Some tenant) tenant)), Ht, run_route_eq, Hr;
      [done|]. split_and!; [|done..]. intros ->. by vm_compute in Ht.
Qed.

(** ** Properties of the request path, over every store *)

(** C10: a request is allowed exactly when its header and the environment name
    one well-formed tenant, its evaluation allows it, and the store has
    recorded the approval: no engine failure, no failed recording and no
    conflict is ever answered with an allow. *)
Theorem allow_iff_recorded engine env ctx body (s : Store) :
  (exists s' r, dispatch engine env ctx (Gate body) s = (s', GateDecisionResponse r) /\
                gr_decision r = u "allow") <->
  exists tenant reasons s' stored,
    hc_tenant_header ctx = Some tenant /\ env = Some tenant /\ make_TenantId tenant = Ok tenant /\
    route_evaluation engine tenant body = Ok (true, reasons) /\
    port_record tenant (gate_record (route_key tenant body) (u "approved") (hc_now ctx)) s
      = (s', Ok stored).
Proof.
  split.
  - intros (s' & r & (tenant & Hh & He & Ht & Hr)%dispatch_gate & Ha).
    pose proof (evaluate_and_record_cases tenant (route_key tenant body) (hc_now ctx)
      (hc_retried_at ctx) (route_evaluation engine tenant body) s) as Hc. cbv zeta in Hc.
    destruct (route_evaluation engine tenant body) as [[al rs]|[|]] eqn:Eev; [|congruence|].
    2: { destruct Hc as (s2 & key & Hc). rewrite Hc in Hr. by injection Hr as _ <-. }
    destruct (port_record _ _ s) as [s1 [stored|[|]]] eqn:Ep; [|congruence|].
    2: { destruct Hc as (s2 & key & Hc). rewrite Hc in Hr. by injection Hr as _ <-. }
    rewrite Hc in Hr. injection Hr as _ <-. destruct al; [|done].
    exists tenant, rs, s1, stored. split_and!; [done..|exact Ep].
  - intros (tenant & rs & s' & stored & Hh & He & Ht & Hev & Hp).
    pose proof (evaluate_and_record_cases tenant (route_key tenant body) (hc_now ctx)
      (hc_retried_at ctx) (route_evaluation engine tenant body) s) as Hc. cbv zeta in Hc.
    rewrite Hev in Hc. cbn in Hc. rewrite Hp in Hc.
    exists s'. eexists. split; [apply dispatch_gate; exists tenant; rewrite Hev; eauto|done].
Qed.
End port.

(** ** The request hash *)

(** Every string of a request is a sequence of Unicode scalar values. *)
Definition scalar_request (request : AuthorizationRequest) : Prop :=
  scalar_val (authorize_shape request).

Definition pipeline_value (p : option (list (list pystr))) : pyval :=
  match p with
  | None => PNone
  | Some stages => PList ((fun stage => PList (PStr <$> stage)) <$> stages)
  end.

Lemma strings_inj (l1 l2 : list pystr) : PStr <$> l1 = PStr <$> l2 -> l1 = l2.
Proof.
  revert l2. induction l1 as [|x l1 IH]; intros [|y l2]; try done. intros [= -> Hl]. f_equal. by apply IH.
Qed.

Lemma canon_strings (l : list pystr) : canon (PList (PStr <$> l)) = PList (PStr <$> l).
Proof. cbn. f_equal. induction l as [|x l IH]; [done|]. cbn. by f_equal. Qed.

Lemma canon_pipeline p : canon (pipeline_value p) = pipeline_value p.
Proof.
  destruct p as [stages|]; [|done]. cbn [pipeline_value canon]. f_equal.
  induction stages as [|st stages IH]; [done|]. rewrite !fmap_cons, IH. f_equal. apply canon_strings.
Qed.

Lemma pipeline_value_inj p q : pipeline_value p = pipeline_value q -> p = q.
Proof.
  destruct p as [p|], q as [q|]; try done. intros [= Hl]. f_equal. revert q Hl.
  induction p as [|x p IH]; intros [|y q]; try done. intros [= Hx%strings_inj Hl]. f_equal; [done|by apply IH].
Qed.

Lemma canon_shape request :
  canon (authorize_shape request) =
  PDict [(u "action", PStr (ar_action request)); (u "kind", PStr (kind_text (ar_kind request)));
         (u "pipeline", pipeline_value (ar_pipeline request));
         (u "resource", PList (PStr <$> ar_resource request))].
Proof.
  rewrite <- canon_pipeline, <- (canon_strings (ar_resource request)).
  unfold authorize_shape. fold (pipeline_value (ar_pipeline request)).
  generalize (pipeline_value (ar_pipeline request)) (PList (PStr <$> ar_resource request)).
  by intros p r.
Qed.

(** ** The in-memory store *)

(** Decisions are stored under their own key. *)
Definition table_wf (m : DecisionTable) : Prop :=
  forall t key d, tget m t key = Some d -> decision_key d = key.

(** Recorded decisions stay as they are. *)
Definition table_grows (m m' : DecisionTable) : Prop :=
  forall t key d, tget m t key = Some d -> tget m' t key = Some d.

#[export] Instance table_grows_preorder : PreOrder table_grows.
Proof. split; unfold table_grows; repeat intro; auto. Qed.

Lemma memory_record t d m m' r :
  table_wf m -> port_record (Store := DecisionTable) t d m = (m', r) ->
  table_wf m' /\ table_grows m m' /\
  forall stored, r = Ok stored ->
    tget m' t (decision_key stored) = Some stored /\ dr_decision stored = dr_decision d /\
    decision_key stored = decision_key d.
Proof.
  intros Hwf. unfold port_record, memory_port, store_record.
  destruct (tget m t (decision_key d)) as [prior|] eqn:Et.
  - case_bool_decide as Ed; intros [= <- <-]; (split; [done|split; [done|]]); [|done].
    intros stored [= <-]. pose proof (Hwf _ _ _ Et) as Hk. by rewrite Hk.
  - intros [= <- <-]. split; [|split].
    + intros t' key d'. rewrite tget_tset. case_decide as Ed; [|by apply Hwf].
      injection Ed as -> ->. by intros [= <-].
    + intros t' key d' Hd. rewrite tget_tset. case_decide as Ed; [|done].
      injection Ed as -> ->. congruence.
    + intros stored [= <-]. by rewrite tget_tset_eq.
Qed.

Lemma strings_wf (l : list pystr) : wf_val (PList (PStr <$> l)).
Proof. induction l as [|x l IH]; cbn; [done|]. cbn in IH. by split. Qed.

Lemma authorize_shape_wf request : wf_val (authorize_shape request).
Proof.
  assert (wf_val (pipeline_value (ar_pipeline request))) as Hp.
  { destruct (ar_pipeline request) as [stages|]; [|done].
    induction stages as [|st stages IH]; cbn; [done|]. cbn in IH. split; [apply strings_wf|done]. }
  pose proof (strings_wf (ar_resource request)) as Hr. unfold authorize_shape.
  fold (pipeline_value (ar_pipeline request)).
  generalize dependent (pipeline_value (ar_pipeline request)).
  generalize dependent (PList (PStr <$> ar_resource request)). intros r Hr p Hp.
  split; [by_decide|]. by repeat split.
Qed.

(** The recorded contract hash commits to the request: two requests with
    one hash ask for the same thing (kind, action, resource and pipeline), or
    their canonical texts are a SHA-256 collision. *)
Theorem contract_hash_commits r1 r2 h :
  scalar_request r1 -> scalar_request r2 ->
  _authorize_contract_hash r1 = Ok h -> _authorize_contract_hash r2 = Ok h ->
  (ar_kind r1 = ar_kind r2 /\ ar_action r1 = ar_action r2 /\
   ar_resource r1 = ar_resource r2 /\ ar_pipeline r1 = ar_pipeline r2) \/
  text_collision (dumps (authorize_shape r1)) (dumps (authorize_shape r2)).
Proof.
  intros Hs1 Hs2. rewrite !contract_hash_total. intros E1 E2.
  assert (hexdigest (dumps (authorize_shape r1)) = hexdigest (dumps (authorize_shape r2))) as Hh.
  { apply (app_inv_head (u "authz:sha256:")). congruence. }
  destruct (hexdigest_eq _ _ Hh) as [Heq|Hcol]; [left|by right].
  assert (authorize_shape r1 ≡ authorize_shape r2) as Hc.
  { apply (canonical_json_inj _ _ (dumps (authorize_shape r1))); try done;
      try apply authorize_shape_wf; apply canonical_json_Ok;
      (split; [apply authorize_shape_serializable|done]). }
  unfold equiv, pyval_equiv in Hc. rewrite !canon_shape in Hc.
  injection Hc as Ha Hk Hp%pipeline_value_inj Hr%strings_inj.
  split_and!; [|done..]. destruct (ar_kind r1), (ar_kind r2); try done; by vm_compute in Hk.
Qed.

(** *** Histories of requests *)

Record exchange := {
  ex_engine : Engine; ex_env : option pystr; ex_ctx : http_context; ex_body : route_body
}.

(** A history run from a table: the final table and each exchange with its
    response. *)
Fixpoint serve (h : list exchange) (m : DecisionTable)
    : DecisionTable * list (exchange * http_response) :=
  match h with
  | [] => (m, [])
  | e :: h =>
      let '(m', r) := dispatch (ex_engine e) (ex_env e) (ex_ctx e) (Gate (ex_body e)) m in
      let '(m'', rs) := serve h m' in
      (m'', (e, r) :: rs)
  end.

Lemma choke_point_memory (t : pystr) (k : GateKey) (now retried_at : pystr)
    (ev : result gate_exn (bool * list gate_reason)) (m m' : DecisionTable) x :
  table_wf m -> _evaluate_and_record t k now retried_at ev m = (m', x) ->
  table_wf m' /\ table_grows m m' /\
  forall r, x = Ok r -> gr_error_code r = None ->
    exists d, tget m' t (gr_decision_key r) = Some d /\
      gr_decision r = (if bool_decide (dr_decision d = u "approved") then u "allow" else u "deny").
Proof.
  intros Hwf. unfold _evaluate_and_record, try_evaluate_and_record, _record, lift, mbind, M_bind.
  assert (forall d m1 m2 y, table_wf m1 -> table_grows m m1 ->
    port_record (Store := DecisionTable) t d m1 = (m2, y) -> table_wf m2 /\ table_grows m m2) as Hport.
  { intros d m1 m2 y Hwf1 Hg Hp. destruct (memory_record _ _ _ _ _ Hwf1 Hp) as (H1 & H2 & _).
    split; [done|by etrans]. }
  destruct ev as [[al rs]|[|]]; cbn -[port_record].
  - destruct (port_record t (gate_record k (decision_value al) now) m) as [m1 [stored|[|]]] eqn:Ep;
      destruct (memory_record _ _ _ _ _ Hwf Ep) as (Hwf1 & Hg1 & Hst);
      cbn -[port_record].
    + intros [= <- <-]. split; [done|]. split; [done|]. intros r [= <-] _.
      destruct (Hst _ eq_refl) as (Hget & Hdec & _). exists stored. split; [done|].
      cbn [gr_decision]. rewrite Hdec. by destruct al.
    + intros [= <- <-]. by split_and!.
    + destruct (port_record t (gate_record k (u "rejected") retried_at) m1) as [m2 y] eqn:Ep2.
      destruct (Hport _ _ _ _ Hwf1 Hg1 Ep2).
      destruct y as [|[]]; intros [= <- <-]; split_and!; try done; by intros r [= <-].
  - intros [= <- <-]. by split_and!.
  - destruct (port_record t (gate_record k (u "rejected") retried_at) m) as [m2 y] eqn:Ep2.
    destruct (Hport _ _ _ _ Hwf (reflexivity m) Ep2).
    destruct y as [|[]]; intros [= <- <-]; split_and!; try done; by intros r [= <-].
Qed.

(** A gate decision of the memory-backed service. *)
Lemma dispatch_memory (e : exchange) (m m' : DecisionTable) (x : http_response) :
  table_wf m -> dispatch (ex_engine e) (ex_env e) (ex_ctx e) (Gate (ex_body e)) m = (m', x) ->
  table_wf m' /\ table_grows m m' /\
  forall r, x = GateDecisionResponse r -> gr_error_code r = None ->
    exists t d, hc_tenant_header (ex_ctx e) = Some t /\ tget m' t (gr_decision_key r) = Some d /\
      gr_decision r = (if bool_decide (dr_decision d = u "approved") then u "allow" else u "deny").
Proof.
  intros Hwf. unfold dispatch.
  destruct (reconcile_tenant _ _) as [tenant|] eqn:Er; [|by intros [= <- <-]; split_and!].
  destruct (make_TenantId tenant) as [t|] eqn:Et; [|by intros [= <- <-]; split_and!].
  rewrite run_route_eq. destruct (_evaluate_and_record _ _ _ _ _ m) as [m1 y] eqn:Ey.
  destruct (choke_point_memory _ _ _ _ _ _ _ _ Hwf Ey) as (H1 & H2 & H3).
  destruct y as [r|err]; intros [= <- <-]; split_and!; try done.
  intros r' [= <-] Hn. destruct (H3 r eq_refl Hn) as (d & Hd & Hdec). exists t, d.
  apply reconcile_tenant_Ok in Er as (_ & Hh & _). apply make_TenantId_same in Et as ->.
  by split_and!.
Qed.

(** The decisions a history answers are in its final table. *)
Lemma serve_recorded (h : list exchange) (m : DecisionTable) :
  table_wf m ->
  table_grows m (serve h m).1 /\
  forall (e : exchange) (r : GateResult), (e, GateDecisionResponse r) ∈ (serve h m).2 -> gr_error_code r = None ->
    exists t d, hc_tenant_header (ex_ctx e) = Some t /\
      tget (serve h m).1 t (gr_decision_key r) = Some d /\
      gr_decision r = (if bool_decide (dr_decision d = u "approved") then u "allow" else u "deny").
Proof.
  revert m. induction h as [|e h IH]; intros m Hwf; cbn [serve]; [split; [done|by inversion 1]|].
  destruct (dispatch (ex_engine e) (ex_env e) (ex_ctx e) (Gate (ex_body e)) m) as [m1 x] eqn:Ed.
  destruct (dispatch_memory _ _ _ _ Hwf Ed) as (Hwf1 & Hg1 & Hx).
  destruct (IH m1 Hwf1) as [Hg Hrs]. destruct (serve h m1) as [m2 rs]. cbn in *.
  split; [by etrans|]. intros e' r [[= -> <-]|Hin]%elem_of_cons Hn; [|by apply Hrs].
  destruct (Hx r eq_refl Hn) as (t & d & Ht & Hd & Hdec). exists t, d. split_and!; auto.
Qed.

Lemma table_wf_empty : table_wf (∅ : DecisionTable).
Proof. intros t key d. unfold tget. by rewrite lookup_empty. Qed.

(** a decision is final: through any history of requests, with engines that
    may break and recover in between, all healthy answers to one tenant under
    one decision key are the same decision. *)
Theorem gate_decisions_agree (h : list exchange) (e1 e2 : exchange) (r1 r2 : GateResult) :
  let answers := (serve h (∅ : DecisionTable)).2 in
  (e1, GateDecisionResponse r1) ∈ answers -> (e2, GateDecisionResponse r2) ∈ answers ->
  gr_error_code r1 = None -> gr_error_code r2 = None ->
  hc_tenant_header (ex_ctx e1) = hc_tenant_header (ex_ctx e2) ->
  gr_decision_key r1 = gr_decision_key r2 ->
  gr_decision r1 = gr_decision r2.
Proof.
  intros answers H1 H2 Hn1 Hn2 Ht Hk. destruct (serve_recorded h _ table_wf_empty) as [_ Hs].
  destruct (Hs _ _ H1 Hn1) as (t1 & d1 & Ht1 & Hd1 & ->).
  destruct (Hs _ _ H2 Hn2) as (t2 & d2 & Ht2 & Hd2 & ->).
  assert (t1 = t2) as -> by congruence. rewrite Hk in Hd1. by assert (d1 = d2) as -> by congruence.
Qed.
End service.

Section errors.
Context `{UnicodeDB} `{FloatRepr} `{DecisionPort Store}.

(** what a gate request can be answered: a decision of the engine; a
    denial with the gate-unavailable code; 403 exactly when header and
    environment do not name one tenant; 409 for a conflicting decision; and a
    bare server error only when the tenant both name is malformed. *)
Theorem gate_answers engine env ctx body (s : Store) :
  match (dispatch engine env ctx (Gate body) s).2 with
  | HealthOk => False
  | ServerError =>
      exists t, hc_tenant_header ctx = Some t /\ env = Some t /\ make_TenantId t <> Ok t
  | ProblemResponse p =>
      p_detail p = hc_detail ctx (if bool_decide (p_status p = 409%Z)
                                  then DecisionConflictError else TenantHeaderError) /\
      ((p_status p = 403%Z /\ p_error_code p = u "saena.auth.tenant_mismatch" /\
        p_type p = u "https://schemas.the-saena.ai/errors/auth/tenant_mismatch" /\
        ~ exists t, t <> [] /\ hc_tenant_header ctx = Some t /\ env = Some t) \/
       (p_status p = 409%Z /\ p_error_code p = u "saena.conflict.decision_conflict" /\
        p_type p = u "https://schemas.the-saena.ai/errors/conflict/decision_conflict" /\
        p_tenant_id p = hc_tenant_header ctx))
  | GateDecisionResponse r =>
      (gr_error_code r = None /\ exists allow rs, gr_reasons r = rs /\
         gr_decision r = (if allow : bool then u "allow" else u "deny") /\
         exists t, hc_tenant_header ctx = Some t /\
                   route_evaluation engine t body = Ok (allow, rs)) \/
      (gr_decision r = u "deny" /\ gr_reasons r = [EngineUnavailable] /\
       gr_error_code r = Some (u "saena.policy_denied.gate_unavailable"))
  end.
Proof.
  unfold dispatch. destruct (reconcile_tenant _ _) as [t|e] eqn:Er; cbn.
  2: { split; [done|]. left. split_and!; [done..|by vm_compute|].
       intros (t & Ht). by rewrite (proj2 (reconcile_tenant_Ok _ _ _) Ht) in Er. }
  apply reconcile_tenant_Ok in Er as (Hne & Hh & ->).
  destruct (make_TenantId t) as [t'|e] eqn:Et; cbn; [|exists t; split_and!; congruence].
  pose proof (make_TenantId_same _ _ Et) as ->. rewrite run_route_eq.
  pose proof (evaluate_and_record_cases t (route_key t body) (hc_now ctx) (hc_retried_at ctx)
    (route_evaluation engine t body) s) as Hc. cbv zeta in Hc.
  assert (forall p, p = build_problem DecisionConflictError (hc_detail ctx DecisionConflictError)
      (hc_url ctx) (hc_trace_id ctx) (Some t) ->
    p_status p = 409%Z /\ p_error_code p = u "saena.conflict.decision_conflict" /\
    p_type p = u "https://schemas.the-saena.ai/errors/conflict/decision_conflict" /\
    p_tenant_id p = hc_tenant_header ctx) as Hconf.
  { intros p ->. split_and!; [done..|by vm_compute|done]. }
  destruct (route_evaluation engine t body) as [[al rs]|[|]] eqn:Eev.
  - destruct (port_record _ _ s) as [s1 [stored|[|]]].
    + rewrite Hc. cbn. left. split; [done|]. exists al, rs. split_and!; [done..|]. by exists t.
    + rewrite Hc. cbn [snd]. split; [done|]. right. by apply Hconf.
    + destruct Hc as (s2 & key & ->). by right.
  - rewrite Hc. cbn [snd]. split; [done|]. right. by apply Hconf.
  - destruct Hc as (s2 & key & ->). by right.
Qed.
End errors.

(** ** Concrete requests *)

Module Witness.

#[local] Existing Instance sci_float_repr.

Definition ctx (header : string) : http_context :=
  {| hc_tenant_header := Some (u header); hc_url := u "/v1/gate/authorize"; hc_trace_id := u "t";
     hc_detail := class_name; hc_now := u "2026-01-01T00:00:00.000Z";
     hc_retried_at := u "2026-01-01T00:00:00.001Z" |}.

Definition git_status (approver : string) : route_body :=
  Authorize command (u "execute") [u "git"; u "status"] None (u approver).

Definition exchange_with (engine : Engine) (approver : string) : exchange :=
  {| ex_engine := engine; ex_env := Some (u "acme-co"); ex_ctx := ctx "acme-co";
     ex_body := git_status approver |}.

(** An engine that fails once poisons its key: the recorded rejection makes
    the later approval of the healthy engine a conflict. *)
Example outage_poisons_the_key :
  (fun er => match er.2 with
             | GateDecisionResponse r => (gr_decision r, gr_error_code r)
             | ProblemResponse p => (p_error_code p, None)
             | _ => ([], None)
             end) <$>
    (serve [exchange_with (fun _ => Raise Other) "alice";
            exchange_with (rules_engine DEFAULT_RULES) "alice"] ∅).2
  = [(u "deny", Some (u "saena.policy_denied.gate_unavailable"));
     (u "saena.conflict.decision_conflict", None)].
Proof. by vm_compute. Qed.

(** Two spellings of one approver share the key. *)
Definition by_alice : exchange := exchange_with (rules_engine DEFAULT_RULES) "alice".
Definition by_Alice : exchange := exchange_with (rules_engine DEFAULT_RULES) " Alice ".

Definition allowed : GateResult :=
  {| gr_decision := u "allow"; gr_reasons := [ByEngine (Because (u "matched allow rule"))];
     gr_require_two_person := false;
     gr_decision_key := (gk_contract_hash (route_key (u "acme-co") (git_status "alice")), u "alice");
     gr_error_code := None |}.

Definition answer_in (e : exchange) (m : DecisionTable) : DecisionTable * http_response :=
  dispatch (ex_engine e) (ex_env e) (ex_ctx e) (Gate (ex_body e)) m.

Lemma serve_two a b m :
  (serve [a; b] m).2 = [(a, (answer_in a m).2); (b, (answer_in b (answer_in a m).1).2)].
Proof.
  unfold answer_in. cbn [serve].
  destruct (dispatch (ex_engine a) (ex_env a) (ex_ctx a) (Gate (ex_body a)) m) as [m' r]. cbn [fst snd].
  by destruct (dispatch (ex_engine b) (ex_env b) (ex_ctx b) (Gate (ex_body b)) m').
Qed.

Lemma alice_allowed : (answer_in by_alice ∅).2 = GateDecisionResponse allowed.
Proof. by vm_compute. Qed.

Lemma Alice_allowed : (answer_in by_Alice (answer_in by_alice ∅).1).2 = GateDecisionResponse allowed.
Proof. by vm_compute. Qed.

Lemma gate_decisions_agree_witness : gr_decision allowed = gr_decision allowed.
Proof.
  refine (gate_decisions_agree [by_alice; by_Alice] by_alice by_Alice allowed allowed
    _ _ eq_refl eq_refl eq_refl eq_refl); rewrite serve_two, alice_allowed, Alice_allowed;
    [left|right; left].
Defined.

Definition request_of (resource : list pystr) : AuthorizationRequest :=
  {| ar_kind := command; ar_action := u "execute"; ar_resource := resource;
     ar_tenant_id := u "acme-co"; ar_pipeline := None |}.

Lemma contract_hash_commits_witness :
  exists h, _authorize_contract_hash (request_of [u "git"; u "status"]) = Ok h /\
    ([u "git"; u "status"] = [u "git"; u "status"] \/
     text_collision (dumps (authorize_shape (request_of [u "git"; u "status"])))
       (dumps (authorize_shape (request_of [u "git"; u "status"])))).
Proof.
  exists (u "authz:sha256:" ++ hexdigest (dumps (authorize_shape (request_of [u "git"; u "status"])))).
  assert (scalar_request (request_of [u "git"; u "status"])) as Hs.
  { apply scalar_valb_scalar. by vm_compute. }
  split; [apply contract_hash_total|].
  destruct (contract_hash_commits _ _ _ Hs Hs (contract_hash_total _) (contract_hash_total _))
    as [(_ & _ & Hr & _)|Hc]; [left; exact Hr|right; exact Hc].
Defined.

End Witness.
