(* ===== verification/Orchestrator.v ===== *)
(** The execution workflow of the orchestrator (workflow_logic.py, workflow.py,
    timeouts.py of agent-orchestrator-service): an approval signal is validated
    again with [Policy.transition] before the run may execute.

    The coroutine [run] is the phase it waits in; an event is the start of the
    workflow, a signal (which Temporal may deliver before the start), or the
    end of the activity.  The handler of a signal runs to its end, then [run]
    continues if what it waits for holds.  A refusal reason is the exception
    whose text the code keeps. *)

From S2P Require Import Prelude PyStr Policy.

(** ** workflow_logic.py *)

Inductive RunState := RUN_WAITING_APPROVAL | EXECUTING | REFUSED.

#[export] Instance RunState_eq_dec : EqDecision RunState.
Proof. solve_decision. Defined.

Record ApprovalSignal := {
  as_contract_hash : pystr; as_proposer_actor_id : pystr; as_approvals : list ApproverRecord;
  as_high_risk : bool; as_decided_at : pystr; as_incoming_decision : DecisionRecord;
  as_plan_snapshot : PlanSnapshot; as_stored_plan_snapshot : PlanSnapshot; as_gate_decision_ref : pystr
}.

Inductive refusal := ByPolicy (e : policy_exn) | NotApproved (s : PlanState).

Record RunTransitionResult := {
  rt_run_state : RunState; rt_plan_state : PlanState; rt_refused_reason : option refusal
}.

Definition refused (plan_state : PlanState) (reason : refusal) : RunTransitionResult :=
  {| rt_run_state := REFUSED; rt_plan_state := plan_state; rt_refused_reason := Some reason |}.

Section logic.
Context `{UnicodeDB}.

Definition apply_approval_signal (current_plan_state : PlanState) (signal : ApprovalSignal)
    (seen_decisions : option (gmap (pystr * pystr) DecisionRecord)) : result policy_exn RunTransitionResult :=
  match transition current_plan_state (as_contract_hash signal) (as_proposer_actor_id signal) (as_approvals signal)
          (as_high_risk signal) (as_decided_at signal) seen_decisions (Some (as_incoming_decision signal))
          (Some (as_stored_plan_snapshot signal)) (Some (as_plan_snapshot signal)) with
  | Raise InconsistentPlanSnapshotError => Raise InconsistentPlanSnapshotError
  | Raise e => Ok (refused current_plan_state (ByPolicy e))
  | Ok outcome =>
      let state := to_state outcome in
      if decide (state <> APPROVED) then
        if decide (state = WAITING_APPROVAL)
        then Ok {| rt_run_state := RUN_WAITING_APPROVAL; rt_plan_state := state; rt_refused_reason := None |}
        else Ok (refused state (NotApproved state))
      else
        match guard_execution state (Some (dr_decision (as_incoming_decision signal))) with
        | Raise e => Ok (refused state (ByPolicy e))
        | Ok _ => Ok {| rt_run_state := EXECUTING; rt_plan_state := state; rt_refused_reason := None |}
        end
  end.

Inductive orchestrator_exn := SignalRefusedError (reason : option refusal) (run_state : RunState) | FromPolicy (e : policy_exn).

Definition require_valid_approval (current_plan_state : PlanState) (signal : ApprovalSignal)
    (seen_decisions : option (gmap (pystr * pystr) DecisionRecord)) : result orchestrator_exn RunTransitionResult :=
  r ← try_except (apply_approval_signal current_plan_state signal seen_decisions) (fun e => Raise (FromPolicy e));
  _ ← raise_if (negb (bool_decide (rt_run_state r = EXECUTING))) (SignalRefusedError (rt_refused_reason r) (rt_run_state r));
  Ok r.
End logic.

(** ** timeouts.py *)

Definition RUNNER_JOB_ACTIVE_DEADLINE_SECONDS : Z := 7200.
Definition BUFFER_SECONDS : Z := 600.
Definition ACTIVITY_START_TO_CLOSE_TIMEOUT_SECONDS : Z := RUNNER_JOB_ACTIVE_DEADLINE_SECONDS + BUFFER_SECONDS.
Definition HEARTBEAT_TIMEOUT_SECONDS : Z := 30.

Definition validate_timeout_heartbeat_coherence : bool :=
  (RUNNER_JOB_ACTIVE_DEADLINE_SECONDS + BUFFER_SECONDS <=? ACTIVITY_START_TO_CLOSE_TIMEOUT_SECONDS)%Z
  && (HEARTBEAT_TIMEOUT_SECONDS <? ACTIVITY_START_TO_CLOSE_TIMEOUT_SECONDS)%Z.

(** ** workflow.py and activities.py *)

Record ExecutionWorkflowInput := { wi_contract_hash : pystr; wi_manifest_ref : pystr; wi_proposer_actor_id : pystr }.
Record ExecutionActivityInput := { ai_contract_hash : pystr; ai_manifest_ref : pystr }.
Record ExecutionActivityResult := { ax_contract_hash : pystr; ax_accepted : bool }.

Inductive phase := NotStarted | AwaitExecuting | AwaitActivity | Returned | Failed.

#[export] Instance phase_eq_dec : EqDecision phase.
Proof. solve_decision. Defined.

(** [w_scheduled] are the activities started so far. *)
Record ExecutionWorkflow := {
  w_input : option ExecutionWorkflowInput; w_run_state : RunState; w_plan_state : PlanState;
  w_last_refused_reason : option refusal; w_activity_result : option ExecutionActivityResult;
  w_scheduled : list ExecutionActivityInput;
  w_seen_decisions : gmap (pystr * pystr) DecisionRecord; w_phase : phase
}.

Record ExecutionWorkflowStatus := {
  st_run_state : RunState; st_plan_state : PlanState; st_last_refused_reason : option refusal;
  st_activity_result : option ExecutionActivityResult
}.

Definition init_workflow : ExecutionWorkflow := {|
  w_input := None; w_run_state := RUN_WAITING_APPROVAL; w_plan_state := WAITING_APPROVAL;
  w_last_refused_reason := None; w_activity_result := None; w_scheduled := []; w_seen_decisions := ∅; w_phase := NotStarted
|}.

Definition set_plan (p : PlanState) (r : option refusal) (w : ExecutionWorkflow) : ExecutionWorkflow := {|
  w_input := w_input w; w_run_state := w_run_state w; w_plan_state := p; w_last_refused_reason := r;
  w_activity_result := w_activity_result w; w_scheduled := w_scheduled w; w_seen_decisions := w_seen_decisions w; w_phase := w_phase w
|}.

Definition set_run (r : RunState) (w : ExecutionWorkflow) : ExecutionWorkflow := {|
  w_input := w_input w; w_run_state := r; w_plan_state := w_plan_state w; w_last_refused_reason := w_last_refused_reason w;
  w_activity_result := w_activity_result w; w_scheduled := w_scheduled w; w_seen_decisions := w_seen_decisions w; w_phase := w_phase w
|}.

Definition set_phase (p : phase) (w : ExecutionWorkflow) : ExecutionWorkflow := {|
  w_input := w_input w; w_run_state := w_run_state w; w_plan_state := w_plan_state w; w_last_refused_reason := w_last_refused_reason w;
  w_activity_result := w_activity_result w; w_scheduled := w_scheduled w; w_seen_decisions := w_seen_decisions w; w_phase := p
|}.

Definition see (k : pystr * pystr) (d : DecisionRecord) (w : ExecutionWorkflow) : ExecutionWorkflow := {|
  w_input := w_input w; w_run_state := w_run_state w; w_plan_state := w_plan_state w; w_last_refused_reason := w_last_refused_reason w;
  w_activity_result := w_activity_result w; w_scheduled := w_scheduled w;
  w_seen_decisions := <[k := d]> (w_seen_decisions w); w_phase := w_phase w
|}.

Section workflow.
Context `{UnicodeDB}.

Definition _handle_approve (w : ExecutionWorkflow) (signal : ApprovalSignal) : result policy_exn ExecutionWorkflow :=
  if decide (w_run_state w = EXECUTING) then Ok w
  else
    r ← apply_approval_signal (w_plan_state w) signal (Some (w_seen_decisions w));
    let w' := set_plan (rt_plan_state r) (w_last_refused_reason w) w in
    if decide (rt_run_state r = REFUSED) then Ok (set_plan (rt_plan_state r) (rt_refused_reason r) w')
    else
      let w' := see (decision_key (as_incoming_decision signal)) (as_incoming_decision signal) w' in
      if decide (rt_run_state r <> EXECUTING) then Ok (set_plan (rt_plan_state r) (rt_refused_reason r) w')
      else Ok (set_run EXECUTING w').

(** What [run] does when its [wait_condition] holds. *)
Definition resume (w : ExecutionWorkflow) : ExecutionWorkflow :=
  match w_phase w, w_input w with
  | AwaitExecuting, Some i =>
      if decide (w_run_state w = EXECUTING)
      then {| w_input := w_input w; w_run_state := w_run_state w; w_plan_state := w_plan_state w;
              w_last_refused_reason := w_last_refused_reason w; w_activity_result := w_activity_result w;
              w_scheduled := w_scheduled w ++ [{| ai_contract_hash := wi_contract_hash i; ai_manifest_ref := wi_manifest_ref i |}];
              w_seen_decisions := w_seen_decisions w; w_phase := AwaitActivity |}
      else w
  | _, _ => w
  end.

Definition run (w : ExecutionWorkflow) (workflow_input : ExecutionWorkflowInput) : ExecutionWorkflow := {|
  w_input := Some workflow_input; w_run_state := w_run_state w; w_plan_state := w_plan_state w;
  w_last_refused_reason := w_last_refused_reason w; w_activity_result := w_activity_result w; w_scheduled := w_scheduled w;
  w_seen_decisions := w_seen_decisions w; w_phase := AwaitExecuting
|}.

Definition activity_done (w : ExecutionWorkflow) (r : ExecutionActivityResult) : ExecutionWorkflow := {|
  w_input := w_input w; w_run_state := w_run_state w; w_plan_state := w_plan_state w;
  w_last_refused_reason := w_last_refused_reason w; w_activity_result := Some r; w_scheduled := w_scheduled w;
  w_seen_decisions := w_seen_decisions w; w_phase := Returned
|}.

(** [run_execution_activity]: a stub in the code, too. *)
Definition run_execution_activity (i : ExecutionActivityInput) : ExecutionActivityResult :=
  {| ax_contract_hash := ai_contract_hash i; ax_accepted := true |}.

Definition status (w : ExecutionWorkflow) : ExecutionWorkflowStatus := {|
  st_run_state := w_run_state w; st_plan_state := w_plan_state w; st_last_refused_reason := w_last_refused_reason w;
  st_activity_result := w_activity_result w
|}.

Inductive event := Start (i : ExecutionWorkflowInput) | Approve (s : ApprovalSignal) | ActivityDone (r : ExecutionActivityResult) | ActivityFailed.

(** A closed workflow takes no event; a handler that raises fails it. *)
Definition step (w : ExecutionWorkflow) (e : event) : option ExecutionWorkflow :=
  match e, w_phase w with
  | _, Returned | _, Failed => None
  | Start i, NotStarted => Some (resume (run w i))
  | Start _, _ => None
  | Approve s, _ =>
      Some match _handle_approve w s with Ok w' => resume w' | Raise _ => set_phase Failed w end
  | ActivityDone r, AwaitActivity => Some (activity_done w r)
  | ActivityFailed, AwaitActivity => Some (set_phase Failed w)
  | (ActivityDone _ | ActivityFailed), _ => None
  end.

Fixpoint steps (w : ExecutionWorkflow) (es : list event) : option ExecutionWorkflow :=
  match es with [] => Some w | e :: es => w ← step w e; steps w es end.
End workflow.

(** ** Lemmas *)

Section lemmas.
Context `{UnicodeDB}.
Implicit Types (w : ExecutionWorkflow) (s : ApprovalSignal).

Abbreviation seen_map := (gmap (pystr * pystr) DecisionRecord).

(** What a signal must carry, beside its own consistency. *)
Definition admitted (seen : seen_map) s : Prop :=
  decision_admissible (as_contract_hash s) (as_proposer_actor_id s) seen (Some (as_stored_plan_snapshot s))
    (Some (as_plan_snapshot s)) (as_incoming_decision s).

Definition has_quorum s : Prop := quorum (h7_required (as_high_risk s)) (as_proposer_actor_id s) (as_approvals s).

Definition authorises (seen : seen_map) s : Prop :=
  admitted seen s /\ has_quorum s /\ dr_decision (as_incoming_decision s) = u "approved".

Lemma waiting_transition (seen : seen_map) s o :
  transition WAITING_APPROVAL (as_contract_hash s) (as_proposer_actor_id s) (as_approvals s) (as_high_risk s) (as_decided_at s)
    (Some seen) (Some (as_incoming_decision s)) (Some (as_stored_plan_snapshot s)) (Some (as_plan_snapshot s)) = Ok o ->
  admitted seen s /\ exists r, decision_step (as_proposer_actor_id s) (as_approvals s) (as_high_risk s) (as_incoming_decision s) (to_state o) r.
Proof. intros (d & r & Hd & Ha & Hs & _)%transition_waiting. injection Hd as <-. split; [done|]. by exists r. Qed.

Lemma never_raises ps s seen : exists r, apply_approval_signal ps s seen = Ok r.
Proof.
  unfold apply_approval_signal. destruct (transition _ _ _ _ _ _ _ _ _ _) as [o|e] eqn:Et.
  - repeat case_decide; try by eexists. destruct (guard_execution _ _); by eexists.
  - destruct e; try by eexists. exfalso. unfold transition in Et. destruct ps; try discriminate Et; cbn in Et.
    destruct (guard_immutability _ _ _ _) as [[]|e] eqn:Eg; cbn in Et.
    + unfold guard_replay, raise_if in Et. repeat case_match; cbn in Et; try discriminate Et; simplify_eq.
    + unfold guard_immutability, raise_if in Eg. repeat case_match; naive_solver.
Qed.

Lemma guard_approved d : guard_execution APPROVED (Some d) = if decide (d = u "approved") then Ok tt else Raise ExecutionBlockedError.
Proof.
  unfold guard_execution. change (bool_decide (APPROVED <> APPROVED)) with false. cbn [raise_if mbind result_bind]. unfold raise_if.
  case_decide as Hd; [rewrite bool_decide_false; [done|]|rewrite bool_decide_true; [done|]]; congruence.
Qed.

(** The answer of a waiting plan. *)
Lemma apply_waiting s seen r : apply_approval_signal WAITING_APPROVAL s (Some seen) = Ok r ->
  (rt_run_state r = EXECUTING <-> authorises seen s) /\
  (rt_run_state r = EXECUTING -> rt_plan_state r = APPROVED) /\
  (rt_run_state r = RUN_WAITING_APPROVAL -> rt_plan_state r = WAITING_APPROVAL /\ admitted seen s) /\
  rt_plan_state r <> PROPOSED /\
  (admitted seen s -> has_quorum s -> dr_decision (as_incoming_decision s) ∉ [u "approved"; u "rejected"] ->
   rt_run_state r = REFUSED /\ rt_plan_state r = APPROVED).
Proof.
  unfold apply_approval_signal. destruct (transition _ _ _ _ _ _ _ _ _ _) as [o|e] eqn:Et.
  - apply waiting_transition in Et as (Ha & reason & Hs). destruct (to_state o) eqn:Eo; inversion Hs as [Hd|Hd Hq|Hd Hq]; subst.
    + rewrite decide_True, decide_True by done. intros [= <-]. cbn. split; [split; [done|by intros (_ & Hq' & _)]|].
      split; [done|]. split; [done|]. split; [done|]. by intros _ Hq'.
    + rewrite decide_False by (intros Hn; by apply Hn).
      rewrite guard_approved. case_decide as Hd'.
      * intros [= <-]. cbn. split; [by split|].
        split; [done|]. split; [done|]. split; [done|]. rewrite Hd'. intros _ _ Hno. by destruct Hno; left.
      * intros [= <-]. cbn. split; [split; [done|by intros (_ & _ & ?)]|].
        split; [done|]. split; [done|]. by split.
    + rewrite decide_True, decide_False by done. intros [= <-]. cbn. split; [split; [done|]|].
      { intros (_ & _ & Hd'). rewrite Hd in Hd'. discriminate Hd'. }
      split; [done|]. split; [done|]. split; [done|]. intros _ _ Hno. rewrite Hd in Hno. by destruct Hno; right; left.
  - intros Hr. assert (~ admitted seen s) as Hna.
    { intros Ha. destruct (decide (dr_decision (as_incoming_decision s) = u "rejected")) as [Hd|Hd].
      - assert (exists o, transition WAITING_APPROVAL (as_contract_hash s) (as_proposer_actor_id s) (as_approvals s) (as_high_risk s) (as_decided_at s)
          (Some seen) (Some (as_incoming_decision s)) (Some (as_stored_plan_snapshot s)) (Some (as_plan_snapshot s)) = Ok o) as [o Ho]; [|congruence].
        eexists (outcome _ _ _ _ REJECTED _). apply transition_waiting. do 2 eexists. split; [done|]. split; [exact Ha|]. split; [by apply step_reject|done].
      - destruct (evaluate_h7_two_person_approval (as_proposer_actor_id s) (as_approvals s) (as_high_risk s)) eqn:Eq;
          [apply evaluate_h7_quorum in Eq|apply evaluate_h7_false in Eq];
          (assert (exists o, transition WAITING_APPROVAL (as_contract_hash s) (as_proposer_actor_id s) (as_approvals s) (as_high_risk s) (as_decided_at s)
          (Some seen) (Some (as_incoming_decision s)) (Some (as_stored_plan_snapshot s)) (Some (as_plan_snapshot s)) = Ok o) as [o Ho]; [|congruence]).
        + eexists (outcome _ _ _ _ APPROVED _). apply transition_waiting. do 2 eexists. split; [done|]. split; [exact Ha|]. split; [by apply step_approve|done].
        + eexists (outcome _ _ _ _ WAITING_APPROVAL _). apply transition_waiting. do 2 eexists. split; [done|]. split; [exact Ha|]. split; [by apply step_pending|done]. }
    assert (r = refused WAITING_APPROVAL (ByPolicy e)) as -> by (destruct e; congruence). cbn.
    split; [split; [done|by intros (? & _)]|]. split; [done|]. split; [done|]. split; [done|]. by intros ?.
Qed.

(** A terminal plan refuses every signal. *)
Lemma apply_terminal ps s seen r : ps ∈ TERMINAL_STATES -> apply_approval_signal ps s seen = Ok r ->
  rt_run_state r = REFUSED /\ rt_plan_state r = ps.
Proof. intros Hp. unfold apply_approval_signal. rewrite transition_terminal by done. by intros [= <-]. Qed.
End lemmas.

(** ** Reachable workflows *)

Section reachable.
Context `{UnicodeDB}.
Implicit Types (w : ExecutionWorkflow) (s : ApprovalSignal).

Definition key_of s : pystr * pystr := decision_key (as_incoming_decision s).

(** What a handler may not touch. *)
Definition same_run w w' : Prop :=
  w_input w' = w_input w /\ w_scheduled w' = w_scheduled w /\ w_activity_result w' = w_activity_result w /\ w_phase w' = w_phase w.

Definition authorised w s w' : Prop :=
  authorises (w_seen_decisions w) s /\ w_run_state w' = EXECUTING /\ w_plan_state w' = APPROVED /\
  w_seen_decisions w' = <[key_of s := as_incoming_decision s]> (w_seen_decisions w).

Definition not_authorised w s w' : Prop :=
  ~ authorises (w_seen_decisions w) s /\ w_run_state w' = w_run_state w /\ w_plan_state w' <> PROPOSED /\
  (w_seen_decisions w' = w_seen_decisions w \/
   admitted (w_seen_decisions w) s /\ w_plan_state w' = WAITING_APPROVAL /\
   w_seen_decisions w' = <[key_of s := as_incoming_decision s]> (w_seen_decisions w)).

Lemma handle_waiting w s : w_run_state w <> EXECUTING -> w_plan_state w = WAITING_APPROVAL ->
  exists w', _handle_approve w s = Ok w' /\ same_run w w' /\ (authorised w s w' \/ not_authorised w s w').
Proof.
  intros Hr Hp. unfold _handle_approve. rewrite decide_False by done. rewrite Hp.
  destruct (never_raises WAITING_APPROVAL s (Some (w_seen_decisions w))) as [r Er]. rewrite Er. cbn [mbind result_bind].
  destruct (apply_waiting s _ r Er) as (Hex & Hexp & Hw & Hnp & _). unfold authorised, not_authorised.
  destruct (rt_run_state r) eqn:Es; repeat (first [rewrite decide_True by done|rewrite decide_False by (by try intros Hn; try apply Hn)]);
    eexists; (split; [done|]); (split; [done|]); cbn.
  - right. destruct Hw as [Hw Hadm]; [done|]. rewrite Hw. split; [rewrite <- Hex; done|]. split; [done|]. split; [done|]. by right.
  - left. split; [by apply Hex|]. split; [done|]. split; [by apply Hexp|done].
  - right. split; [rewrite <- Hex; done|]. split; [done|]. split; [done|]. by left.
Qed.

Lemma handle_terminal w s : w_run_state w <> EXECUTING -> w_plan_state w ∈ TERMINAL_STATES ->
  exists w', _handle_approve w s = Ok w' /\ same_run w w' /\ w_run_state w' = w_run_state w /\ w_plan_state w' = w_plan_state w /\
    w_seen_decisions w' = w_seen_decisions w.
Proof.
  intros Hr Hp. unfold _handle_approve. rewrite decide_False by done.
  destruct (never_raises (w_plan_state w) s (Some (w_seen_decisions w))) as [r Er]. rewrite Er. cbn [mbind result_bind].
  destruct (apply_terminal _ _ _ _ Hp Er) as [Hf Hps]. rewrite decide_True by done. eexists. split; [done|]. split; [done|]. by cbn.
Qed.

Lemma terminal_or_waiting p : p <> PROPOSED -> p = WAITING_APPROVAL \/ p ∈ TERMINAL_STATES.
Proof. destruct p; [done|by left|..]; intros _; right; set_solver. Qed.

(** The handler, in any state that a run reaches. *)
Lemma handle_cases w s : w_plan_state w <> PROPOSED ->
  exists w', _handle_approve w s = Ok w' /\ same_run w w' /\ w_plan_state w' <> PROPOSED /\
    (w_run_state w' = w_run_state w \/ authorised w s w') /\
    (w_seen_decisions w' = w_seen_decisions w \/
     admitted (w_seen_decisions w) s /\ w_seen_decisions w' = <[key_of s := as_incoming_decision s]> (w_seen_decisions w)).
Proof.
  intros Hp. destruct (decide (w_run_state w = EXECUTING)) as [Hx|Hx].
  { exists w. unfold _handle_approve. rewrite decide_True by done. split; [done|]. split; [done|]. split; [done|]. split; by left. }
  destruct (terminal_or_waiting _ Hp) as [Hw|Ht].
  - destruct (handle_waiting w s Hx Hw) as (w' & Hh & Hsame & [Ha|Hn]); exists w'; (split; [done|]); (split; [done|]).
    + destruct Ha as (Ha & Hr & Hpl & Hs). rewrite Hpl. split; [done|]. split; [by right|]. right. split; [by destruct Ha|done].
    + destruct Hn as (_ & Hr & Hpl & Hs). split; [done|]. split; [by left|]. destruct Hs as [?|(? & _ & ?)]; [by left|by right].
  - destruct (handle_terminal w s Hx Ht) as (w' & Hh & Hsame & Hr & Hpl & Hs). exists w'. rewrite Hpl. split; [done|]. split; [done|]. split; [done|]. by split; left.
Qed.

Definition activity_of (i : ExecutionWorkflowInput) : ExecutionActivityInput :=
  {| ai_contract_hash := wi_contract_hash i; ai_manifest_ref := wi_manifest_ref i |}.

Record wf_inv (es : list event) w : Prop := {
  wi_run : w_run_state w <> REFUSED;
  wi_plan : w_plan_state w <> PROPOSED;
  wi_exec : w_run_state w = EXECUTING -> exists s, Approve s ∈ es /\ authorises ∅ s;
  wi_phase :
    match w_phase w with
    | NotStarted => w_scheduled w = []
    | AwaitExecuting => w_run_state w <> EXECUTING /\ w_scheduled w = [] /\ exists i, w_input w = Some i /\ Start i ∈ es
    | AwaitActivity | Returned | Failed =>
        w_run_state w = EXECUTING /\ exists i, w_input w = Some i /\ Start i ∈ es /\ w_scheduled w = [activity_of i]
    end
}.

Lemma authorises_empty seen s : authorises seen s -> authorises ∅ s.
Proof. intros ([Ha Hb Hc Hd He] & Hq & Hx). split; [|done]. split; [done..| |done]. intros prior Hpr. by rewrite lookup_empty in Hpr. Qed.

Lemma resume_inv es w : w_run_state w <> REFUSED -> w_plan_state w <> PROPOSED ->
  (w_run_state w = EXECUTING -> exists s, Approve s ∈ es /\ authorises ∅ s) ->
  (w_phase w = AwaitExecuting -> w_scheduled w = [] /\ exists i, w_input w = Some i /\ Start i ∈ es) ->
  (w_phase w <> AwaitExecuting -> wf_inv es w) -> wf_inv es (resume w).
Proof.
  intros Hr Hp Hx Ha Hn. unfold resume. destruct (decide (w_phase w = AwaitExecuting)) as [E|E].
  - destruct (Ha E) as (Hs & i & Hi & Hin). rewrite E, Hi. case_decide as Hd.
    + split; cbn; [done|done|done|]. split; [done|]. exists i. rewrite Hs. done.
    + split; [done|done|done|]. rewrite E. split; [done|]. split; [done|]. by exists i.
  - destruct (w_phase w) eqn:Ep; try done; by apply Hn.
Qed.

Lemma step_inv es w e w' : wf_inv es w -> step w e = Some w' -> wf_inv (es ++ [e]) w'.
Proof.
  intros [Hr Hp Hx Hph] Hstep.
  assert (forall s, Approve s ∈ es -> Approve s ∈ es ++ [e]) as Hup by set_solver.
  assert (w_run_state w = EXECUTING -> exists s, Approve s ∈ es ++ [e] /\ authorises ∅ s) as Hx'
    by (intros Hex; destruct (Hx Hex) as (s & ? & ?); exists s; auto).
  destruct e as [i|s|r|]; unfold step in Hstep.
  - destruct (w_phase w) eqn:Ep; try discriminate Hstep. injection Hstep as <-. apply resume_inv; cbn; try done.
    intros _. split; [done|]. exists i. split; [done|]. set_solver.
  - assert (w_phase w <> Returned /\ w_phase w <> Failed) as [Hn1 Hn2] by (destruct (w_phase w); naive_solver).
    assert (Some match _handle_approve w s with Ok w'' => resume w'' | Raise _ => set_phase Failed w end = Some w') as Hs
      by (destruct (w_phase w); done). clear Hstep.
    destruct (handle_cases w s Hp) as (w1 & Hh & (Hi1 & Hs1 & Ha1 & Hp1) & Hpl1 & Hrun & _). rewrite Hh in Hs. injection Hs as <-.
    assert (w_run_state w1 <> REFUSED) as Hr1 by (destruct Hrun as [-> |(_ & -> & _)]; done).
    assert (w_run_state w1 = EXECUTING -> exists s0, Approve s0 ∈ es ++ [Approve s] /\ authorises ∅ s0) as Hx1.
    { destruct Hrun as [-> |(Hau & _)]; [done|]. intros _. exists s. split; [set_solver|by eapply authorises_empty]. }
    apply resume_inv; [done|done|done| |].
    + intros E. rewrite Hp1 in E. rewrite E in Hph. destruct Hph as (_ & Hsc & i & Hi & Hin). rewrite Hs1, Hi1. split; [done|].
      exists i. split; [done|]. set_solver.
    + intros E. split; [done|done|done|]. rewrite Hp1 in *. rewrite Hs1, Hi1. destruct (w_phase w); try done.
      destruct Hph as (Hex & i & Hi & Hin & Hsc). split; [|exists i; set_solver]. destruct Hrun as [-> |(_ & -> & _)]; done.
  - destruct (w_phase w) eqn:Ep; try discriminate Hstep. injection Hstep as <-. destruct Hph as (Hex & i & Hi & Hin & Hsc).
    split; cbn; [done|done|done|]. split; [done|]. exists i. set_solver.
  - destruct (w_phase w) eqn:Ep; try discriminate Hstep. injection Hstep as <-. destruct Hph as (Hex & i & Hi & Hin & Hsc).
    split; cbn; [done|done|done|]. split; [done|]. exists i. set_solver.
Qed.

Lemma event_steps_app es1 es2 w : steps w (es1 ++ es2) = (w' ← steps w es1; steps w' es2).
Proof. revert w. induction es1 as [|e es1 IH]; intros w; [done|]. cbn. destruct (step w e); [apply IH|done]. Qed.

Lemma reach_inv es w : steps init_workflow es = Some w -> wf_inv es w.
Proof.
  revert w. induction es as [|e es IH] using rev_ind; intros w.
  - intros [= <-]. split; [done|done|done|done].
  - rewrite event_steps_app. intros (w1 & H1 & H2)%bind_Some. cbn in H2. apply bind_Some in H2 as (w2 & H2 & [= <-]).
    by eapply step_inv; [apply IH|].
Qed.
End reachable.

(** ** Theorems *)

Section theorems.
Context `{UnicodeDB}.
Implicit Types (w : ExecutionWorkflow) (s : ApprovalSignal).

(** C33: A run executes only on an approval.  In every history at most one
    activity is scheduled, it is the one of the workflow's own input, and then
    some delivered signal approves with a quorum of distinct approvers other
    than its proposer, its decision is for its own contract hash, and its two
    snapshots do not give two contents to one contract hash; no handler raises.
    Nothing ties the snapshots to that hash or to each other's: a signal that
    presents other content under another hash executes
    ([snapshot_under_another_hash], [Witness.tampered_snapshot_executes]). *)
Theorem executes_only_on_quorum es w :
  steps init_workflow es = Some w ->
  w_scheduled w = [] \/
  exists i s, Start i ∈ es /\ w_input w = Some i /\ w_scheduled w = [activity_of i] /\ Approve s ∈ es /\
    has_quorum s /\ dr_decision (as_incoming_decision s) = u "approved" /\
    dr_contract_hash (as_incoming_decision s) = as_contract_hash s /\
    canonical_actor_id (dr_approver_actor_id (as_incoming_decision s)) <> canonical_actor_id (as_proposer_actor_id s) /\
    (ps_contract_hash (as_plan_snapshot s) = ps_contract_hash (as_stored_plan_snapshot s) ->
     ps_content_fingerprint (as_plan_snapshot s) = ps_content_fingerprint (as_stored_plan_snapshot s)).
Proof.
  intros [_ _ Hx Hp]%reach_inv. destruct (w_phase w); [by left|left; by destruct Hp as (_ & ? & _)|..]; right;
    destruct Hp as (Hex & i & Hi & Hin & Hsc); destruct (Hx Hex) as (s & Hs & [_ Himm Hh _ Ho] & Hq & Hd); exists i, s; split_and!; eauto.
Qed.

(** No signal poisons the ledger of decisions: what an approver was seen to
    decide stays that decision, whatever signals follow. *)
Theorem decisions_are_kept es1 es2 w w' k d :
  steps init_workflow es1 = Some w -> steps w es2 = Some w' -> w_seen_decisions w !! k = Some d ->
  exists d', w_seen_decisions w' !! k = Some d' /\ dr_decision d' = dr_decision d.
Proof.
  intros Hw%reach_inv. revert es1 w d Hw. induction es2 as [|e es2 IH]; intros es1 w d Hw; cbn.
  { intros [= <-] Hd. by exists d. }
  intros (w1 & H1 & H2)%bind_Some Hd. assert (exists d1, w_seen_decisions w1 !! k = Some d1 /\ dr_decision d1 = dr_decision d) as (d1 & Hd1 & <-).
  { clear IH H2. destruct e as [i|s|r|]; unfold step in H1.
    - destruct (w_phase w); try discriminate H1. injection H1 as <-. unfold resume. cbn. case_decide; cbn; eauto.
    - destruct (handle_cases w s (wi_plan _ _ Hw)) as (w2 & Hh & _ & _ & _ & Hs). rewrite Hh in H1.
      assert (w1 = resume w2) as -> by (destruct (w_phase w); congruence).
      assert (w_seen_decisions (resume w2) = w_seen_decisions w2) as ->
        by (unfold resume; destruct (w_phase w2), (w_input w2); try done; by case_decide).
      destruct Hs as [-> |(Ha & ->)]; [eauto|]. destruct (decide (key_of s = k)) as [<-|Hk]; [|rewrite lookup_insert_ne by done; eauto].
      rewrite lookup_insert_eq. eexists. split; [done|]. symmetry. by apply (adm_replay _ _ _ _ _ _ Ha).
    - destruct (w_phase w); try discriminate H1. injection H1 as <-. cbn. eauto.
    - destruct (w_phase w); try discriminate H1. injection H1 as <-. cbn. eauto. }
  apply (IH (es1 ++ [e]) w1 d1); [by eapply step_inv|done|done].
Qed.

Definition present (p : PlanSnapshot) s : ApprovalSignal := {|
  as_contract_hash := as_contract_hash s; as_proposer_actor_id := as_proposer_actor_id s; as_approvals := as_approvals s;
  as_high_risk := as_high_risk s; as_decided_at := as_decided_at s; as_incoming_decision := as_incoming_decision s;
  as_plan_snapshot := p; as_stored_plan_snapshot := as_stored_plan_snapshot s; as_gate_decision_ref := as_gate_decision_ref s
|}.

(** What a signal presents under a hash other than the stored one is not looked
    at: an authorising signal authorises whatever is presented so. *)
Theorem snapshot_under_another_hash seen s p :
  ps_contract_hash p <> ps_contract_hash (as_stored_plan_snapshot s) ->
  authorises seen s -> authorises seen (present p s).
Proof.
  intros Hne ([Hpair _ Hh Hr Ho] & Hq & Hd). split; [|split; [exact Hq|exact Hd]].
  split; [split; done| |exact Hh|exact Hr|exact Ho]. by intros ? ? [= <-] [= <-] Heq.
Qed.


(** The order of the start and a signal does not matter: a signal that
    Temporal delivers before the start has the effect it has after it. *)
Theorem early_signal_counts i s :
  steps init_workflow [Approve s; Start i] = steps init_workflow [Start i; Approve s].
Proof.
  destruct (never_raises WAITING_APPROVAL s (Some ∅)) as [r Er]. unfold steps, step, _handle_approve. cbn. rewrite !Er.
  rewrite (decide_False (P := RUN_WAITING_APPROVAL = EXECUTING)) by done. cbn. rewrite ?Er. destruct r as [[] p q]; cbn;
    repeat (first [rewrite Er|rewrite decide_False by (done || (intros Hn; by apply Hn))|rewrite decide_True by done]; cbn); reflexivity.
Qed.

(** A plan that is settled without an execution is a dead end: no signal brings
    the run to execute, and it never returns. *)
Theorem settled_plan_is_dead es1 es2 w w' :
  steps init_workflow es1 = Some w -> w_plan_state w ∈ TERMINAL_STATES -> w_run_state w <> EXECUTING ->
  steps w es2 = Some w' -> w_run_state w' <> EXECUTING /\ w_scheduled w' = [] /\ w_phase w' <> Returned.
Proof.
  intros Hw%reach_inv. revert es1 w Hw. induction es2 as [|e es2 IH]; intros es1 w Hw Ht Hx; cbn.
  { intros [= <-]. split; [done|]. pose proof (wi_phase _ _ Hw) as Hp. destruct (w_phase w); [done|by destruct Hp as (_ & ? & _)|..];
      by destruct Hp. }
  intros (w1 & H1 & H2)%bind_Some. enough (w_plan_state w1 ∈ TERMINAL_STATES /\ w_run_state w1 <> EXECUTING) as [Ht1 Hx1]
    by (apply (IH (es1 ++ [e]) w1); [by eapply step_inv|done..]).
  pose proof (wi_phase _ _ Hw) as Hp. destruct e as [i|s|r|]; unfold step in H1.
  - destruct (w_phase w); try discriminate H1. injection H1 as <-. unfold resume. cbn. by case_decide.
  - destruct (handle_terminal w s Hx Ht) as (w2 & Hh & _ & Hr & Hpl & _). rewrite Hh in H1.
    assert (w1 = resume w2) as -> by (destruct (w_phase w); congruence).
    assert (w_plan_state (resume w2) = w_plan_state w2 /\ w_run_state (resume w2) = w_run_state w2) as [-> ->]
      by (unfold resume; destruct (w_phase w2), (w_input w2); try done; by case_decide).
    by rewrite Hpl, Hr.
  - destruct (w_phase w); try discriminate H1. by destruct Hp.
  - destruct (w_phase w); try discriminate H1. by destruct Hp.
Qed.

(** And a signal whose decision is neither of the two words, with the approvals
    of a quorum, is refused and leaves the plan settled. *)
Theorem odd_decision_settles w s :
  w_run_state w <> EXECUTING -> w_plan_state w = WAITING_APPROVAL ->
  admitted (w_seen_decisions w) s -> has_quorum s -> dr_decision (as_incoming_decision s) ∉ [u "approved"; u "rejected"] ->
  exists w', _handle_approve w s = Ok w' /\ w_run_state w' = w_run_state w /\ w_plan_state w' = APPROVED.
Proof.
  intros Hr Hp Ha Hq Hd. unfold _handle_approve. rewrite decide_False by done. rewrite Hp.
  destruct (never_raises WAITING_APPROVAL s (Some (w_seen_decisions w))) as [r Er]. rewrite Er. cbn [mbind result_bind].
  destruct (apply_waiting s _ r Er) as (_ & _ & _ & _ & Hodd). destruct (Hodd Ha Hq Hd) as [Hf Hpa]. rewrite decide_True by done.
  eexists. split; [done|]. by cbn.
Qed.
End theorems.

Module Witness.
#[local] Existing Instance ascii_db.

Definition decision_by (who what hash : string) : DecisionRecord := {|
  dr_contract_hash := u hash; dr_approver_actor_id := u who; dr_decision := u what; dr_proposer_actor_id := u "alice";
  dr_high_risk := false; dr_decided_at := u "t"
|}.
Definition snap (h : string) : PlanSnapshot := {| ps_contract_hash := u h; ps_content_fingerprint := u "f" |}.
Definition signal (who what hash : string) : ApprovalSignal := {|
  as_contract_hash := u hash; as_proposer_actor_id := u "alice"; as_approvals := [{| ar_approver_actor_id := u who; ar_decision := u "approved" |}];
  as_high_risk := false; as_decided_at := u "t"; as_incoming_decision := decision_by who what hash;
  as_plan_snapshot := snap hash; as_stored_plan_snapshot := snap hash; as_gate_decision_ref := u "g"
|}.
Definition input : ExecutionWorkflowInput := {| wi_contract_hash := u "c1"; wi_manifest_ref := u "m1"; wi_proposer_actor_id := u "alice" |}.
Definition done_1 : ExecutionActivityResult := run_execution_activity (activity_of input).

Example approved_run :
  status <$> steps init_workflow [Start input; Approve (signal "bob" "approved" "c1"); ActivityDone done_1] =
  Some {| st_run_state := EXECUTING; st_plan_state := APPROVED; st_last_refused_reason := None; st_activity_result := Some done_1 |}.
Proof. vm_compute. reflexivity. Qed.

(** The signal is validated against itself only: one for another contract, of
    another proposer, executes the contract of the input. *)
Example foreign_contract_executes :
  w_scheduled <$> steps init_workflow [Start input; Approve (signal "mallory" "approved" "other")] =
  Some [{| ai_contract_hash := u "c1"; ai_manifest_ref := u "m1" |}].
Proof. vm_compute. reflexivity. Qed.

(** Content presented under a hash that is not the stored one. *)
Example tampered_snapshot_executes :
  w_scheduled <$> steps init_workflow
    [Start input; Approve (present {| ps_contract_hash := u "zzz"; ps_content_fingerprint := u "tampered" |} (signal "bob" "approved" "c1"))] =
  Some [{| ai_contract_hash := u "c1"; ai_manifest_ref := u "m1" |}].
Proof. vm_compute. reflexivity. Qed.

Lemma snapshot_under_another_hash_witness :
  authorises ∅ (present {| ps_contract_hash := u "zzz"; ps_content_fingerprint := u "tampered" |} (signal "bob" "approved" "c1")).
Proof.
  apply snapshot_under_another_hash; [by vm_compute|].
  destruct (never_raises WAITING_APPROVAL (signal "bob" "approved" "c1") (Some ∅)) as [r Er].
  apply (apply_waiting _ _ r Er). vm_compute in Er. by injection Er as <-.
Qed.

(** A decision that is neither word blocks the approval that follows it. *)
Example abstention_blocks :
  (fun w => (w_plan_state w, w_scheduled w)) <$>
    steps init_workflow [Start input; Approve (signal "bob" "abstained" "c1"); Approve (signal "carol" "approved" "c1")] =
  Some (APPROVED, []).
Proof. vm_compute. reflexivity. Qed.

Example self_approval_refused :
  (fun w => (w_plan_state w, w_scheduled w)) <$> steps init_workflow [Start input; Approve (signal "Alice" "approved" "c1")] =
  Some (WAITING_APPROVAL, []).
Proof. vm_compute. reflexivity. Qed.

Example timeouts_coherent : validate_timeout_heartbeat_coherence = true.
Proof. reflexivity. Qed.

Lemma executes_only_on_quorum_witness :
  exists i s, Start i ∈ [Start input; Approve (signal "bob" "approved" "c1")] /\ has_quorum s.
Proof.
  assert (exists w, steps init_workflow [Start input; Approve (signal "bob" "approved" "c1")] = Some w /\ w_scheduled w <> []) as (w & Hw & Hs).
  { eexists. split; [reflexivity|]. vm_compute. discriminate. }
  destruct (executes_only_on_quorum _ _ Hw) as [Hno|(i & s & Hi & _ & _ & _ & Hq & _)]; [destruct (Hs Hno)|]. exists i, s. split; [exact Hi|exact Hq].
Defined.


End Witness.
