(* ===== verification/PyTime.v ===== *)
(** Python's [datetime] and [timedelta], as the sources use them.

    A [datetime] is its wall-clock fields, as microseconds since the first
    instant of year 1, with the [tzinfo] attached to it.  A [tzinfo] is its
    identity and [utcoffset], a function of the wall clock (the [fold] of an
    ambiguous hour is not modelled); [None] makes a datetime naive.  Adding a
    [timedelta] moves the wall clock and keeps the [tzinfo]; comparisons follow
    [datetime._cmp]. *)

From S2P Require Import Prelude PyStr PyVal.
Local Open Scope Z_scope.

(** Microseconds. *)
Definition SECOND : Z := 1000000.
Definition DAY : Z := 86400 * SECOND.

(** [datetime.max] is the last microsecond of year 9999. *)
Definition MAX_WALL : Z := 3652059 * DAY.

Record tzinfo := { tz_identity : N; utcoffset : Z -> option Z }.

Record datetime := { wall : Z; tz : option tzinfo }.

(** [value.utcoffset()] *)
Definition offset_of (d : datetime) : option Z := tz d ≫= fun t => utcoffset t (wall d).

(** [value.tzinfo is None or value.tzinfo.utcoffset(value) is None] *)
Definition is_naive (d : datetime) : bool := bool_decide (offset_of d = None).

(** The physical instant of an aware datetime. *)
Definition instant (d : datetime) : Z := wall d - default 0 (offset_of d).

Definition same_tzinfo (a b : datetime) : bool :=
  bool_decide (tz_identity <$> tz a = tz_identity <$> tz b).

(** [datetime._cmp]: negative, zero or positive; a naive and an aware datetime
    cannot be ordered. *)
Definition datetime_cmp (a b : datetime) : result pyexn Z :=
  if same_tzinfo a b || bool_decide (offset_of a = offset_of b) then Ok (wall a - wall b)
  else if is_naive a || is_naive b then Raise TypeError
  else Ok (instant a - instant b).

Definition datetime_lt (a b : datetime) : result pyexn bool :=
  c ← datetime_cmp a b; Ok (c <? 0).
Definition datetime_gt (a b : datetime) : result pyexn bool :=
  c ← datetime_cmp a b; Ok (0 <? c).
Definition datetime_ge (a b : datetime) : result pyexn bool :=
  c ← datetime_cmp a b; Ok (0 <=? c).

(** [a == b] never raises: a naive and an aware datetime differ. *)
Definition datetime_eq (a b : datetime) : bool :=
  match datetime_cmp a b with Ok c => c =? 0 | Raise _ => false end.

(** [min(a, b)] *)
Definition datetime_min (a b : datetime) : result pyexn datetime :=
  less ← datetime_lt b a; Ok (if less : bool then b else a).

(** [timedelta(days=n)] *)
Definition timedelta_days (n : Z) : result pyexn Z :=
  if (Z.abs n <=? 999999999) then Ok (n * DAY) else Raise OverflowError.

(** [timedelta(seconds=n)] *)
Definition timedelta_seconds (n : Z) : result pyexn Z :=
  if (Z.abs (n / 86400) <=? 999999999) then Ok (n * SECOND) else Raise OverflowError.

(** [d + delta] *)
Definition datetime_add (d : datetime) (delta : Z) : result pyexn datetime :=
  let w := wall d + delta in
  if (0 <=? w) && (w <? MAX_WALL) then Ok {| wall := w; tz := tz d |} else Raise OverflowError.

(** A fixed-offset zone, such as [timezone.utc]. *)
Definition fixed_zone (identity : N) (offset : Z) : tzinfo :=
  {| tz_identity := identity; utcoffset := fun _ => Some offset |}.

Definition utc : tzinfo := fixed_zone 0 0.

(** ** ISO 8601 text

    [datetime.fromisoformat] on the one layout the contracts admit,
    [YYYY-MM-DDTHH:MM:SS(.f+)?] followed by a zero offset; digits of the
    fraction past the sixth are dropped. *)

Definition is_leap (y : Z) : bool := (y mod 4 =? 0) && (negb (y mod 100 =? 0) || (y mod 400 =? 0)).

Definition days_before_year (y : Z) : Z :=
  let y := y - 1 in y * 365 + y / 4 - y / 100 + y / 400.

Definition month_lengths (leap : bool) : list Z :=
  [31; if leap then 29 else 28; 31; 30; 31; 30; 31; 31; 30; 31; 30; 31].

(** [datetime(y, m, d, hh, mm, ss, us, tzinfo=utc)] *)
Definition make_utc (y m d hh mm ss us : Z) : result pyexn datetime :=
  let lengths := month_lengths (is_leap y) in
  let before := firstn (Z.to_nat (m - 1)) lengths in
  _ ← raise_if (negb ((1 <=? y) && (y <=? 9999) && (1 <=? m) && (m <=? 12) && (1 <=? d)
                      && (d <=? nth (Z.to_nat (m - 1)) lengths 0)
                      && (0 <=? hh) && (hh <=? 23) && (0 <=? mm) && (mm <=? 59)
                      && (0 <=? ss) && (ss <=? 59) && (0 <=? us) && (us <=? 999999))) ValueError;
  Ok {| wall := (days_before_year y + foldr Z.add 0 before + (d - 1)) * DAY
                + (hh * 3600 + mm * 60 + ss) * SECOND + us;
        tz := Some utc |}.

Definition digits_value (s : pystr) : Z := fold_left (fun acc c => acc * 10 + (Z.of_N c - 48)) s 0.

(** The number in [n] characters of [s] from [i]. *)
Definition field_at (i n : nat) (s : pystr) : Z := digits_value (firstn n (skipn i s)).

(** [_parse_timestamp] on a string of the contract's pattern
    [^[0-9]{4}-[0-9]{2}-[0-9]{2}T[0-9]{2}:[0-9]{2}:[0-9]{2}(\.[0-9]+)?Z$]. *)
Definition parse_zulu (s : pystr) : result pyexn datetime :=
  let fraction := firstn 6 (filter (fun c => ascii_digit c = true) (skipn 19 s)) in
  make_utc (field_at 0 4 s) (field_at 5 2 s) (field_at 8 2 s)
           (field_at 11 2 s) (field_at 14 2 s) (field_at 17 2 s)
           (digits_value fraction * 10 ^ (6 - Z.of_nat (length fraction))).

(** The calendar date of a day number: its year, by an estimate that is at most
    one off, its month and its day. *)
Definition year_of (n : Z) : Z :=
  let y := n * 400 / 146097 + 1 in
  if n <? days_before_year y then y - 1 else if days_before_year (y + 1) <=? n then y + 1 else y.

Fixpoint month_day (m rest : Z) (lengths : list Z) : Z * Z :=
  match lengths with
  | [] => (m, rest + 1)
  | len :: lengths => if rest <? len then (m, rest + 1) else month_day (m + 1) (rest - len) lengths
  end.

(** [f"{z:0{n}d}"] of a natural number *)
Definition zero_pad (n : nat) (z : Z) : pystr :=
  let s := str_of_Z z in replicate (n - length s) 48%N ++ s.

Definition fraction_text (us : Z) : pystr := if us =? 0 then [] else u "." ++ zero_pad 6 us.

Definition offset_text (o : Z) : pystr :=
  let a := Z.abs o in
  let rest := a mod (60 * SECOND) in
  (if o <? 0 then u "-" else u "+") ++ zero_pad 2 (a / (3600 * SECOND)) ++ u ":" ++ zero_pad 2 (a / (60 * SECOND) mod 60)
  ++ if rest =? 0 then [] else u ":" ++ zero_pad 2 (rest / SECOND) ++ fraction_text (rest mod SECOND).

(** [d.isoformat()] *)
Definition isoformat (d : datetime) : pystr :=
  let n := wall d / DAY in
  let t := wall d mod DAY in
  let y := year_of n in
  let md := month_day 1 (n - days_before_year y) (month_lengths (is_leap y)) in
  zero_pad 4 y ++ u "-" ++ zero_pad 2 md.1 ++ u "-" ++ zero_pad 2 md.2 ++ u "T"
  ++ zero_pad 2 (t / (3600 * SECOND)) ++ u ":" ++ zero_pad 2 (t / (60 * SECOND) mod 60) ++ u ":"
  ++ zero_pad 2 (t / SECOND mod 60) ++ fraction_text (t mod SECOND)
  ++ match offset_of d with Some o => offset_text o | None => [] end.

(** A zone whose offset does not change between two wall clocks. *)
Definition steady (d : datetime) (delta : Z) : Prop :=
  offset_of {| wall := wall d + delta; tz := tz d |} = offset_of d.

(** One identity, one zone. *)
Definition coherent (a b : datetime) : Prop := same_tzinfo a b = true -> tz a = tz b.

(** How pydantic renders a datetime in a JSON dump. *)
Class DatetimeJson := { render_datetime : datetime -> pystr }.

(** A concrete rendering: the wall clock and the offset. *)
Definition plain_datetime_json : DatetimeJson := {|
  render_datetime d := str_of_Z (wall d) ++ u "/" ++
    match offset_of d with Some o => str_of_Z o | None => u "naive" end
|}.

(** ** Lemmas *)

Lemma is_naive_false d : is_naive d = false <-> exists o, offset_of d = Some o.
Proof.
  unfold is_naive. rewrite bool_decide_eq_false. destruct (offset_of d); naive_solver.
Qed.

Lemma datetime_add_Ok d delta d' :
  datetime_add d delta = Ok d' <->
  0 <= wall d + delta < MAX_WALL /\ d' = {| wall := wall d + delta; tz := tz d |}.
Proof.
  unfold datetime_add. destruct ((0 <=? _) && _) eqn:E; bprop.
  - rewrite Z.leb_le, Z.ltb_lt in E. split; [intros [= <-]; by split|]. by intros [_ ->].
  - rewrite Z.leb_gt, Z.ltb_ge in E. split; [done|]. lia.
Qed.

Lemma datetime_add_Raise d delta e :
  datetime_add d delta = Raise e <-> ~ (0 <= wall d + delta < MAX_WALL) /\ e = OverflowError.
Proof.
  unfold datetime_add. destruct ((0 <=? _) && _) eqn:E; bprop.
  - rewrite Z.leb_le, Z.ltb_lt in E. split; [done|]. lia.
  - rewrite Z.leb_gt, Z.ltb_ge in E. split; [intros [= <-]; split; [lia|done]|]. by intros [_ ->].
Qed.

(** Adding a duration moves the instant by it exactly when the zone is steady. *)
Lemma instant_add d delta d' :
  datetime_add d delta = Ok d' -> steady d delta -> instant d' = instant d + delta.
Proof.
  intros [_ ->]%datetime_add_Ok Hs. unfold steady in Hs. unfold instant at 1. rewrite Hs.
  unfold instant. cbn. lia.
Qed.

Lemma steady_fixed w i o delta : steady {| wall := w; tz := Some (fixed_zone i o) |} delta.
Proof. done. Qed.

(** Two aware datetimes are compared by their instants, provided the two
    share the offset when they share the zone. *)
Lemma datetime_cmp_instant a b :
  is_naive a = false -> is_naive b = false ->
  (same_tzinfo a b = true -> offset_of a = offset_of b) ->
  datetime_cmp a b = Ok (instant a - instant b).
Proof.
  intros [oa Ha]%is_naive_false [ob Hb]%is_naive_false Hsame. unfold datetime_cmp.
  destruct (same_tzinfo a b || _) eqn:E.
  - f_equal. assert (offset_of a = offset_of b) as Ho.
    { apply orb_true_iff in E as [E|E]; [auto|by apply bool_decide_eq_true in E]. }
    unfold instant. rewrite Ho. lia.
  - unfold is_naive. by rewrite Ha, Hb.
Qed.

Example parse_zulu_example :
  (fun d => wall d) <$> parse_zulu (u "2024-02-29T12:00:00.5Z")
  = Ok (738944 * DAY + 43200 * SECOND + 500000).
Proof. vm_compute. reflexivity. Qed.

Example parse_zulu_bad_day : parse_zulu (u "2023-02-29T12:00:00Z") = Raise ValueError.
Proof. vm_compute. reflexivity. Qed.

Lemma make_utc_range y m d hh mm ss us dt :
  make_utc y m d hh mm ss us = Ok dt -> tz dt = Some utc.
Proof. unfold make_utc. intros [_ [= <-]]%seq_Ok. done. Qed.

Example isoformat_examples :
  map isoformat [{| wall := 738944 * DAY + 43200 * SECOND + 500000; tz := Some utc |};
                 {| wall := 0; tz := None |};
                 {| wall := MAX_WALL - SECOND; tz := Some (fixed_zone 1 (- (9 * 3600 + 30 * 60) * SECOND)) |};
                 {| wall := 146096 * DAY; tz := Some (fixed_zone 1 (3600 * SECOND + 5 * SECOND)) |}]
  = [u "2024-02-29T12:00:00.500000+00:00"; u "0001-01-01T00:00:00"; u "9999-12-31T23:59:59-09:30";
     u "0400-12-31T00:00:00+01:00:05"].
Proof. vm_compute. reflexivity. Qed.

(** A contract timestamp is rendered as it was written, with the offset spelled out. *)
Example isoformat_parse :
  map (fun s => isoformat <$> parse_zulu s) [u "2000-12-31T23:59:59Z"; u "1900-03-01T00:00:00.000001Z"]
  = [Ok (u "2000-12-31T23:59:59+00:00"); Ok (u "1900-03-01T00:00:00.000001+00:00")].
Proof. vm_compute. reflexivity. Qed.
