(* ===== verification/Rational.v ===== *)
(** Exact arithmetic as the estimator uses it: [fractions.Fraction] as [Q],
    [Fraction.limit_denominator], [decimal] division and [quantize] with
    banker's rounding, and the correctly rounded conversions between rationals
    and binary64.

    A [Fraction] is a value of [Q]; [==] on [Q] is equality of fractions, and
    every operation here that reads a numerator or a denominator reduces first. *)

From Stdlib Require Import SpecFloat QArith Qabs Qreduction Qpower Lqa.
From S2P Require Import Prelude PyVal.
Local Open Scope Z_scope.

(** ** Rounding to an integer *)

(** [n / d] rounded to the nearest integer, ties to even. *)
Definition round_half_even (n d : Z) : Z :=
  let q := n / d in
  let r := n mod d in
  if 2 * r <? d then q
  else if d <? 2 * r then q + 1
  else if Z.even q then q else q + 1.

(** ** [Fraction.limit_denominator] *)

(** The loop: the last two convergents [p0/q0] and [p1/q1] of the continued
    fraction, and the last two remainders. *)
Record convergents := { cv_p0 : Z; cv_q0 : Z; cv_p1 : Z; cv_q1 : Z; cv_n : Z; cv_d : Z }.

Definition ld_start (x : Q) : convergents :=
  {| cv_p0 := 0; cv_q0 := 1; cv_p1 := 1; cv_q1 := 0; cv_n := Qnum x; cv_d := Zpos (Qden x) |}.

Definition ld_quotient (c : convergents) : Z := cv_n c / cv_d c.

Definition ld_next (c : convergents) : convergents :=
  let a := ld_quotient c in
  {| cv_p0 := cv_p1 c; cv_q0 := cv_q1 c; cv_p1 := cv_p0 c + a * cv_p1 c; cv_q1 := cv_q0 c + a * cv_q1 c;
     cv_n := cv_d c; cv_d := cv_n c - a * cv_d c |}.

(** [None] when the fuel is used up. *)
Fixpoint ld_loop (fuel : nat) (max_denominator : Z) (c : convergents) : option convergents :=
  match fuel with
  | O => None
  | S fuel =>
      if max_denominator <? cv_q0 c + ld_quotient c * cv_q1 c then Some c
      else ld_loop fuel max_denominator (ld_next c)
  end.

Definition ld_fuel (max_denominator : Z) : nat := (2 * Z.to_nat (Z.log2 max_denominator) + 5)%nat.

Definition fraction (n d : Z) : Q := Qmake n (Z.to_pos d).

(** The choice between the last convergent and the last semiconvergent. *)
Definition ld_choose (max_denominator : Z) (x : Q) (c : convergents) : Q :=
  let k := (max_denominator - cv_q0 c) / cv_q1 c in
  if 2 * cv_d c * (cv_q0 c + k * cv_q1 c) <=? Zpos (Qden x)
  then fraction (cv_p1 c) (cv_q1 c)
  else fraction (cv_p0 c + k * cv_p1 c) (cv_q0 c + k * cv_q1 c).

Definition limit_denominator (max_denominator : Z) (x : Q) : Q :=
  let x := Qred x in
  if Zpos (Qden x) <=? max_denominator then x
  else match ld_loop (ld_fuel max_denominator) max_denominator (ld_start x) with
       | Some c => ld_choose max_denominator x c
       | None => x
       end.

(** [n / d * b ^ s], as a numerator and a denominator. *)
Definition rescale (b n d s : Z) : Z * Z := if 0 <=? s then (n * b ^ s, d) else (n, d * b ^ (- s)).

(** ** Binary64 *)

(** The value of a finite float, as [Fraction] computes it. *)
Definition sf_fraction (f : spec_float) : Q :=
  match f with
  | S754_finite s m e =>
      let n := if s then Zneg m else Zpos m in
      if 0 <=? e then inject_Z (n * 2 ^ e) else Qred (fraction n (2 ^ (- e)))
  | _ => 0%Q
  end.

(** [Fraction(f)]: an infinity and a NaN have no ratio. *)
Definition Fraction_of_float (f : f64) : result pyexn Q :=
  match proj1_sig f with
  | S754_nan => Raise ValueError
  | S754_infinity _ => Raise OverflowError
  | f => Ok (sf_fraction f)
  end.

Definition sf_finite (f : spec_float) : bool :=
  match f with S754_zero _ | S754_finite _ _ _ => true | _ => false end.

Definition f64_of (f : spec_float) : f64 :=
  match bool_dec (valid_binary 53 1024 f) true with
  | left H => exist _ f H
  | right _ => exist _ S754_nan eq_refl
  end.

(** The binary64 nearest to [n / d], ties to even, for [n], [d] positive. *)
Definition nearest_f64 (neg : bool) (n d : Z) : spec_float :=
  let l := Z.log2 n - Z.log2 d in
  let below := let '(a, b) := rescale 2 n d (- l) in a <? b in
  let e := Z.max (- 1074) ((if below then l - 1 else l) - 52) in
  let m := let '(a, b) := rescale 2 n d (- e) in round_half_even a b in
  let '(m, e) := if m =? 2 ^ 53 then (2 ^ 52, e + 1) else (m, e) in
  match m with
  | Zpos p => if 971 <? e then S754_infinity neg else S754_finite neg p e
  | _ => S754_zero neg
  end.

(** ** [decimal] *)

(** The number of decimal digits of [n], positive. *)
Fixpoint digits_fuel (fuel : nat) (n : Z) : Z :=
  match fuel with
  | O => 0
  | S fuel => if n <=? 0 then 0 else 1 + digits_fuel fuel (n / 10)
  end.

Definition decimal_digits (n : Z) : Z := digits_fuel (S (Z.to_nat (Z.log2 n))) n.

(** [Decimal(n) / Decimal(d)] at [prec] significant digits, for [n], [d]
    positive: the coefficient and the exponent of ten. *)
Definition decimal_div (prec n d : Z) : Z * Z :=
  let s := decimal_digits d - decimal_digits n + prec in
  let wide := let '(a, b) := rescale 10 n d s in 10 ^ prec <=? a / b in
  let s := if wide then s - 1 else s in
  let '(a, b) := rescale 10 n d s in (round_half_even a b, - s).

(** [dec.quantize(Decimal(1).scaleb(-places))], in units of [10 ^ -places]. *)
Definition decimal_quantize (places : Z) (c : Z * Z) : Z :=
  let s := snd c + places in
  if 0 <=? s then fst c * 10 ^ s else round_half_even (fst c) (10 ^ (- s)).

(** ** Lemmas *)

Lemma round_half_even_spec n d :
  0 < d ->
  let q := round_half_even n d in
  Z.abs (2 * (n - q * d)) <= d /\ (Z.abs (2 * (n - q * d)) = d -> Z.even q = true).
Proof.
  intros Hd. cbv zeta. unfold round_half_even.
  pose proof (Z.div_mod n d ltac:(lia)) as Hn. pose proof (Z.mod_pos_bound n d Hd) as Hr.
  set (q := n / d) in *. set (r := n mod d) in *. clearbody q r. subst n.
  destruct (Z.ltb_spec (2 * r) d) as [H1|H1]; [split; [nia|intros H2; exfalso; nia]|].
  destruct (Z.ltb_spec d (2 * r)) as [H2|H2]; [split; [nia|intros H3; exfalso; nia]|].
  destruct (Z.even q) eqn:E; split; try done; try nia.
  intros _. rewrite Z.even_add, E. done.
Qed.

(** *** The continued fraction of [n0 / d0] *)

Section continued_fraction.
Context (M n0 d0 : Z).
Hypotheses (HM : 1 <= M) (Hd0 : M < d0) (Hgcd : Z.gcd n0 d0 = 1).

(** What the loop keeps, from its first iteration on. *)
Record ld_inv (c : convergents) : Prop := {
  ldi_num : n0 = cv_p1 c * cv_n c + cv_p0 c * cv_d c;
  ldi_den : d0 = cv_q1 c * cv_n c + cv_q0 c * cv_d c;
  ldi_det : cv_p1 c * cv_q0 c - cv_p0 c * cv_q1 c = 1 \/ cv_p1 c * cv_q0 c - cv_p0 c * cv_q1 c = -1;
  ldi_q0 : 0 <= cv_q0 c <= cv_q1 c;
  ldi_q1 : 1 <= cv_q1 c <= M;
  ldi_d : 0 < cv_d c < cv_n c
}.

(** A remainder is never zero: the last convergent would be [n0 / d0] itself. *)
Lemma ld_remainder p1 q1 n d p0 q0 :
  n0 = p1 * n + p0 * d -> d0 = q1 * n + q0 * d -> q1 <= M -> 0 < n -> 0 <= d -> d <> 0.
Proof.
  intros Hn Hd Hq Hpos _ ->. rewrite !Z.mul_0_r, !Z.add_0_r in *.
  assert (n = 1 \/ n = -1) as Hn1; [|nia].
  apply Z.divide_1_r. rewrite <- Hgcd. apply Z.gcd_greatest; [exists p1|exists q1]; lia.
Qed.

Lemma ld_quotient_pos c : ld_inv c -> 1 <= ld_quotient c /\ cv_n c = ld_quotient c * cv_d c + (cv_n c - ld_quotient c * cv_d c) /\ 0 <= cv_n c - ld_quotient c * cv_d c < cv_d c.
Proof.
  intros [_ _ _ _ _ Hd]. unfold ld_quotient.
  pose proof (Z.div_mod (cv_n c) (cv_d c) ltac:(lia)). pose proof (Z.mod_pos_bound (cv_n c) (cv_d c) ltac:(lia)).
  split; [|lia]. apply Z.div_le_lower_bound; lia.
Qed.

Lemma ld_inv_next c :
  ld_inv c -> cv_q0 c + ld_quotient c * cv_q1 c <= M -> ld_inv (ld_next c).
Proof.
  intros Hi Hle. pose proof (ld_quotient_pos c Hi) as (Ha & _ & Hr). destruct Hi as [Hn Hd Hdet Hq0 Hq1 Hdn].
  unfold ld_next. set (a := ld_quotient c) in *. clearbody a.
  destruct c as [p0 q0 p1 q1 n d]. cbn in *. split; cbn.
  - rewrite Hn. ring.
  - rewrite Hd. ring.
  - replace ((p0 + a * p1) * q1 - p1 * (q0 + a * q1)) with (- (p1 * q0 - p0 * q1)) by ring. lia.
  - nia.
  - nia.
  - assert (n - a * d <> 0); [|lia].
    apply (ld_remainder (p0 + a * p1) (q0 + a * q1) d _ p1 q1); [rewrite Hn|rewrite Hd| | |]; lia.
Qed.

Lemma ld_inv_first x : Qnum x = n0 -> Zpos (Qden x) = d0 -> ld_inv (ld_next (ld_start x)).
Proof.
  intros Hn Hd. unfold ld_next, ld_start, ld_quotient. cbn. rewrite Hn, Hd.
  pose proof (Z.div_mod n0 d0 ltac:(lia)). pose proof (Z.mod_pos_bound n0 d0 ltac:(lia)).
  assert (n0 - n0 / d0 * d0 <> 0).
  { eapply (ld_remainder (n0 / d0) 1 d0 _ 1 0); lia. }
  split; cbn; lia.
Qed.

(** Both denominators at least double every two iterations. *)
Lemma ld_loop_enough k : forall B c, 1 <= B -> M < B * 2 ^ Z.of_nat k ->
  ld_inv c -> B <= cv_q0 c -> exists c', ld_loop (S (2 * k)) M c = Some c'.
Proof.
  induction k as [|k IH]; intros B c HB Hk Hi Hq.
  - exfalso. destruct Hi. cbn in Hk. lia.
  - replace (S (2 * S k)) with (S (S (S (2 * k)))) by lia. rewrite Nat2Z.inj_succ, Z.pow_succ_r in Hk by lia.
    cbn [ld_loop]. destruct (Z.ltb_spec M (cv_q0 c + ld_quotient c * cv_q1 c)) as [H1|H1]; [by eexists|].
    pose proof (ld_inv_next c Hi H1) as Hi1. pose proof (ld_quotient_pos c Hi) as (Ha & _ & _).
    set (c1 := ld_next c) in *. cbn [ld_loop].
    destruct (Z.ltb_spec M (cv_q0 c1 + ld_quotient c1 * cv_q1 c1)) as [H2|H2]; [by eexists|].
    pose proof (ld_inv_next c1 Hi1 H2) as Hi2.
    apply (IH (2 * B)); [lia|lia|done|]. destruct Hi as [_ _ _ Hq0 _ _].
    unfold c1. cbn. nia.
Qed.

Lemma ld_loop_inv fuel : forall c c', ld_inv c -> ld_loop fuel M c = Some c' ->
  ld_inv c' /\ M < cv_q0 c' + ld_quotient c' * cv_q1 c'.
Proof.
  induction fuel as [|fuel IH]; intros c c' Hi; cbn [ld_loop]; [done|].
  destruct (Z.ltb_spec M (cv_q0 c + ld_quotient c * cv_q1 c)) as [H1|H1]; [intros [= <-]; by split|].
  apply IH, ld_inv_next; done.
Qed.

(** The loop ends, within the fuel, in a state of the invariant. *)
Lemma ld_loop_ends x :
  Qnum x = n0 -> Zpos (Qden x) = d0 ->
  exists c, ld_loop (ld_fuel M) M (ld_start x) = Some c /\ ld_inv c /\
            M < cv_q0 c + ld_quotient c * cv_q1 c.
Proof.
  intros Hn Hd. pose proof (ld_inv_first x Hn Hd) as Hi1. set (c1 := ld_next (ld_start x)) in *.
  assert (forall f, ld_loop (S f) M (ld_start x) = ld_loop f M c1) as Hfirst.
  { intros f. cbn [ld_loop]. rewrite (proj2 (Z.ltb_ge _ _)); [done|]. cbn. lia. }
  set (k := Z.to_nat (Z.log2 M)).
  assert (ld_fuel M = S (S (S (2 * S k)))) as -> by (unfold ld_fuel; fold k; lia).
  assert (exists c, ld_loop (S (S (2 * S k))) M c1 = Some c) as [c Hc].
  { cbn [ld_loop]. destruct (Z.ltb_spec M (cv_q0 c1 + ld_quotient c1 * cv_q1 c1)) as [H1|H1]; [by eexists|].
    apply (ld_loop_enough (S k) 1); [lia| |by apply ld_inv_next|destruct Hi1; cbn in *; lia].
    unfold k. rewrite Nat2Z.inj_succ, Z2Nat.id by apply Z.log2_nonneg.
    pose proof (Z.log2_spec M ltac:(lia)). lia. }
  exists c. rewrite Hfirst, Hc. split; [done|]. by apply (ld_loop_inv _ _ _ Hi1 Hc).
Qed.

(** The two candidates bracket [n0 / d0], no fraction with a denominator up to
    [M] lies strictly between them, and the nearer one is chosen. *)
Lemma ld_choice c r s :
  ld_inv c -> M < cv_q0 c + ld_quotient c * cv_q1 c -> 1 <= s <= M ->
  let k := (M - cv_q0 c) / cv_q1 c in
  let P := cv_p0 c + k * cv_p1 c in
  let Q := cv_q0 c + k * cv_q1 c in
  1 <= Q <= M /\
  (if 2 * cv_d c * Q <=? d0
   then Z.abs (n0 * cv_q1 c - cv_p1 c * d0) * s <= Z.abs (n0 * s - r * d0) * cv_q1 c
   else Z.abs (n0 * Q - P * d0) * s <= Z.abs (n0 * s - r * d0) * Q).
Proof.
  intros Hi Hexit Hs k P Q. pose proof (ld_quotient_pos c Hi) as (Ha & _ & Hr).
  destruct Hi as [Hn Hd Hdet Hq0 Hq1 Hdn]. set (a := ld_quotient c) in *.
  assert (cv_q1 c * k <= M - cv_q0 c < cv_q1 c * k + cv_q1 c) as Hk.
  { unfold k. pose proof (Z.div_mod (M - cv_q0 c) (cv_q1 c) ltac:(lia)).
    pose proof (Z.mod_pos_bound (M - cv_q0 c) (cv_q1 c) ltac:(lia)). lia. }
  clearbody a k. assert (0 <= k) as Hk0 by nia. assert (k < a) as Hka by nia.
  assert (1 <= Q <= M) as HQ by (unfold Q; nia). split; [done|].
  set (E := cv_n c - k * cv_d c). assert (cv_d c <= E) as HE by (unfold E; nia).
  assert (d0 = cv_q1 c * E + Q * cv_d c) as Hd0' by (rewrite Hd; unfold E, Q; ring).
  destruct c as [p0 q0 p1 q1 n d]. cbn in *.
  set (dt := p1 * q0 - p0 * q1) in *.
  assert (n0 * q1 - p1 * d0 = - dt * d) as He1 by (rewrite Hn, Hd; unfold dt; ring).
  assert (n0 * Q - P * d0 = dt * E) as He2 by (rewrite Hn, Hd; unfold dt, E, Q, P; ring).
  set (al := dt * (r * Q - P * s)). set (be := dt * (p1 * s - r * q1)).
  assert (p1 * Q - P * q1 = dt) as Hdet' by (unfold dt, P, Q; ring).
  assert (dt * dt = 1) as Hsq by (destruct Hdet as [-> | ->]; done).
  assert (s = al * q1 + be * Q) as Hs'.
  { transitivity (dt * (p1 * Q - P * q1) * s); [rewrite Hdet', Hsq; ring|unfold al, be; ring]. }
  assert (r = al * p1 + be * P) as Hr'.
  { transitivity (dt * (p1 * Q - P * q1) * r); [rewrite Hdet', Hsq; ring|unfold al, be; ring]. }
  assert (n0 * s - r * d0 = dt * (be * E - al * d)) as He.
  { rewrite Hs' at 1. rewrite Hr' at 1.
    replace (n0 * (al * q1 + be * Q) - (al * p1 + be * P) * d0)
      with (al * (n0 * q1 - p1 * d0) + be * (n0 * Q - P * d0)) by ring.
    rewrite He1, He2. ring. }
  rewrite He, He1, He2. clearbody al be dt. clear He He1 He2 Hr' Hdet'.
  assert (Z.abs dt = 1) as Habs by lia. rewrite !Z.abs_mul, Z.abs_opp, Habs, !Z.mul_1_l.
  rewrite (Z.abs_eq d), (Z.abs_eq E) by lia.
  assert (be <= 0 \/ al <= 0) as [Hb|Hb].
  { destruct (Z.le_gt_cases be 0); [by left|]. right. destruct (Z.le_gt_cases al 0); [done|]. unfold Q in *. nia. }
  - assert (0 <= - be * (E * q1)) by (apply Z.mul_nonneg_nonneg; nia).
    assert (0 <= - be * (d * Q)) by (apply Z.mul_nonneg_nonneg; nia).
    assert (0 <= - be * (E * Q)) by (apply Z.mul_nonneg_nonneg; nia).
    assert (1 <= al) by nia. rewrite Z.abs_neq by nia.
    destruct (Z.leb_spec (2 * d * Q) d0) as [Hc|Hc]; rewrite Hs'; [lia|].
    assert (0 <= al * (d * Q - E * q1)) by (apply Z.mul_nonneg_nonneg; lia). lia.
  - assert (0 <= - al * (E * q1)) by (apply Z.mul_nonneg_nonneg; nia).
    assert (0 <= - al * (d * Q)) by (apply Z.mul_nonneg_nonneg; nia).
    assert (0 <= - al * (d * q1)) by (apply Z.mul_nonneg_nonneg; nia).
    assert (1 <= be) by nia. rewrite Z.abs_eq by nia.
    destruct (Z.leb_spec (2 * d * Q) d0) as [Hc|Hc]; rewrite Hs'; [|lia].
    assert (0 <= be * (E * q1 - d * Q)) by (apply Z.mul_nonneg_nonneg; lia). lia.
Qed.
End continued_fraction.

(** *** The best approximation *)

Lemma Qdist_le n d p q r s :
  Z.abs (n * Zpos q - p * Zpos d) * Zpos s <= Z.abs (n * Zpos s - r * Zpos d) * Zpos q ->
  (Qabs ((n # d) - (p # q)) <= Qabs ((n # d) - (r # s)))%Q.
Proof.
  intros Hle. unfold Qle, Qabs, Qminus, Qplus, Qopp. cbn [Qnum Qden].
  rewrite !Pos2Z.inj_mul, !Z.mul_opp_l. change (n * Zpos q + - (p * Zpos d)) with (n * Zpos q - p * Zpos d).
  change (n * Zpos s + - (r * Zpos d)) with (n * Zpos s - r * Zpos d).
  replace (Z.abs (n * Zpos q - p * Zpos d) * (Zpos d * Zpos s))
    with (Zpos d * (Z.abs (n * Zpos q - p * Zpos d) * Zpos s)) by ring.
  replace (Z.abs (n * Zpos s - r * Zpos d) * (Zpos d * Zpos q))
    with (Zpos d * (Z.abs (n * Zpos s - r * Zpos d) * Zpos q)) by ring.
  apply Z.mul_le_mono_nonneg_l; [done|exact Hle].
Qed.

(** [limit_denominator] answers the fraction nearest to [x] among those whose
    denominator is at most [M]. *)
Lemma limit_denominator_best M x :
  1 <= M ->
  Zpos (Qden (limit_denominator M x)) <= M /\
  forall r s, Zpos s <= M -> (Qabs (x - limit_denominator M x) <= Qabs (x - (r # s)))%Q.
Proof.
  intros HM. unfold limit_denominator. pose proof (Qred_correct x) as Hx. set (y := Qred x) in *.
  destruct (Z.leb_spec (Zpos (Qden y)) M) as [Hd|Hd].
  { split; [done|]. intros r s _. rewrite Hx. unfold Qminus. rewrite Qplus_opp_r. apply Qabs_nonneg. }
  destruct (ld_loop_ends M (Qnum y) (Zpos (Qden y)) HM Hd (gcd_Qred x) y)
    as (c & -> & Hi & Hexit); [done..|].
  unfold ld_choose. cbv zeta.
  pose proof (fun r s Hs => ld_choice M (Qnum y) (Zpos (Qden y)) HM Hd c r s Hi Hexit Hs) as Hbest. cbv zeta in Hbest.
  set (k := (M - cv_q0 c) / cv_q1 c) in *.
  pose proof (proj1 (Hbest 0 1 ltac:(lia))) as HQ. pose proof (ldi_q1 _ _ _ _ Hi) as Hq1.
  match goal with |- Zpos (Qden ?t) <= _ /\ _ =>
    cut (Zpos (Qden t) <= M /\ forall r s, Zpos s <= M -> (Qabs (y - t) <= Qabs (y - (r # s)))%Q);
    [generalize t; intros t' [Ht Hy]; split; [exact Ht|]; intros r s Hs; rewrite <- Hx; exact (Hy r s Hs)|] end.
  clear Hx. destruct y as [n d]. cbn [Qnum Qden] in *.
  destruct (2 * cv_d c * (cv_q0 c + k * cv_q1 c) <=? Z.pos d) eqn:E; unfold fraction; cbn [Qden];
    (split; [rewrite Z2Pos.id; lia|]; intros r s Hs; apply Qdist_le; rewrite Z2Pos.id by lia;
     exact (proj2 (Hbest r (Zpos s) ltac:(lia)))).
Qed.

(** ** Powers in [Q] *)

Section qpower.
Context (b : Z) (Hb : 2 <= b).
Local Notation "b ^^ e" := (Qpower (inject_Z b) e) (at level 30).

Lemma qpow_pos e : (0 < b ^^ e)%Q.
Proof. apply Qpower_0_lt. unfold Qlt. cbn. lia. Qed.

Lemma qpow_ne e : ~ (b ^^ e == 0)%Q.
Proof. pose proof (qpow_pos e). intros H0. rewrite H0 in H. by apply Qlt_irrefl in H. Qed.

Lemma qbase_ne : ~ (inject_Z b == 0)%Q.
Proof. unfold Qeq. cbn. lia. Qed.

Lemma qpow_Z e : 0 <= e -> (inject_Z (b ^ e) == b ^^ e)%Q.
Proof. apply Zpower_Qpower. Qed.

Lemma qpow_add e f : (b ^^ (e + f) == b ^^ e * b ^^ f)%Q.
Proof. apply Qpower_plus, qbase_ne. Qed.

Lemma qpow_opp e : (b ^^ (- e) == / b ^^ e)%Q.
Proof. apply Qpower_opp. Qed.

Lemma qpow_mono e f : e <= f -> (b ^^ e <= b ^^ f)%Q.
Proof.
  intros Hef. replace f with ((f - e) + e) by lia. rewrite qpow_add, <- (qpow_Z (f - e)) by lia.
  rewrite <- (Qmult_1_l (b ^^ e)) at 1. apply Qmult_le_r; [apply qpow_pos|]. unfold Qle. cbn. pose proof (Z.pow_pos_nonneg b (f - e)). lia.
Qed.

Lemma rescale_spec n d s :
  0 < d -> 0 < snd (rescale b n d s) /\
  (fraction (fst (rescale b n d s)) (snd (rescale b n d s)) == fraction n d * b ^^ s)%Q.
Proof.
  intros Hd. unfold rescale. destruct (Z.leb_spec 0 s) as [Hs|Hs]; cbn [fst snd].
  - split; [done|]. rewrite <- qpow_Z by done. unfold fraction, Qeq, inject_Z, Qmult. cbn. lia.
  - pose proof (Z.pow_pos_nonneg b (- s) ltac:(lia) ltac:(lia)) as Hp. split; [lia|].
    replace (b ^^ s) with (b ^^ (- - s)) by (f_equal; lia). rewrite qpow_opp, <- qpow_Z by lia.
    unfold fraction, Qeq, inject_Z, Qmult, Qinv. cbn. destruct (b ^ (- s)) as [|p|p]; try lia.
    destruct d as [|d|d]; try lia. cbn. rewrite <- Pos2Z.inj_mul, Pos2Z.id. lia.
Qed.
End qpower.

Lemma qpow_mono_inv b (Hb : 2 <= b) e f : (Qpower (inject_Z b) e < Qpower (inject_Z b) f)%Q -> e < f.
Proof.
  intros Hlt. apply Z.nle_gt. intros Hle. apply (qpow_mono b Hb) in Hle.
  by apply (Qlt_not_le _ _ Hlt) in Hle.
Qed.

Lemma fraction_le n d q : 0 < d -> (inject_Z q <= fraction n d)%Q <-> q * d <= n.
Proof. intros Hd. unfold Qle, fraction. cbn. rewrite Z2Pos.id by done. lia. Qed.

Lemma fraction_lt n d q : 0 < d -> (fraction n d < inject_Z q)%Q <-> n < q * d.
Proof. intros Hd. unfold Qlt, fraction. cbn. rewrite Z2Pos.id by done. lia. Qed.

Lemma fraction_pos n d : 0 < n -> (0 < fraction n d)%Q.
Proof. intros Hn. unfold Qlt, fraction. cbn. lia. Qed.

Lemma round_half_even_Q n d :
  0 < d -> (Qabs (inject_Z (round_half_even n d) - fraction n d) <= 1 # 2)%Q.
Proof.
  intros Hd. pose proof (proj1 (round_half_even_spec n d Hd)) as Hr. set (q := round_half_even n d) in *.
  clearbody q. unfold fraction, inject_Z, Qminus, Qplus, Qopp, Qabs, Qle. cbn [Qnum Qden].
  rewrite Pos2Z.inj_mul, Z2Pos.id by done. lia.
Qed.

(** Rounding does not cross an integer. *)
Lemma round_half_even_between n d lo hi :
  0 < d -> (inject_Z lo <= fraction n d)%Q -> (fraction n d <= inject_Z hi)%Q -> lo <= round_half_even n d <= hi.
Proof.
  intros Hd Hlo Hhi. rewrite fraction_le in Hlo by done. unfold Qle, fraction in Hhi. cbn in Hhi.
  rewrite Z2Pos.id in Hhi by done. pose proof (proj1 (round_half_even_spec n d Hd)) as Hr.
  set (q := round_half_even n d) in *. clearbody q. nia.
Qed.

Lemma rescale_round b n d s (Hb : 2 <= b) :
  0 < d ->
  let q := let '(x, y) := rescale b n d s in round_half_even x y in
  (Qabs (inject_Z q - fraction n d * Qpower (inject_Z b) s) <= 1 # 2)%Q /\
  forall lo hi, (inject_Z lo <= fraction n d * Qpower (inject_Z b) s)%Q ->
    (fraction n d * Qpower (inject_Z b) s <= inject_Z hi)%Q -> lo <= q <= hi.
Proof.
  intros Hd. destruct (rescale_spec b Hb n d s Hd) as [Hp Hv]. destruct (rescale b n d s) as [x y]. cbn [fst snd] in *.
  cbv zeta. rewrite <- Hv. split; [by apply round_half_even_Q|]. intros lo hi. rewrite <- Hv.
  by apply round_half_even_between.
Qed.

(** *** Decimal digits *)

Lemma digits_fuel_spec fuel : forall n, 0 < n < 2 ^ Z.of_nat fuel ->
  1 <= digits_fuel fuel n /\ 10 ^ (digits_fuel fuel n - 1) <= n < 10 ^ digits_fuel fuel n.
Proof.
  induction fuel as [|fuel IH]; intros n Hn; [cbn in Hn; lia|].
  rewrite Nat2Z.inj_succ, Z.pow_succ_r in Hn by lia. cbn [digits_fuel].
  rewrite (proj2 (Z.leb_gt n 0)) by lia. pose proof (Z.div_mod n 10 ltac:(lia)). pose proof (Z.mod_pos_bound n 10 ltac:(lia)).
  destruct (Z.eq_dec (n / 10) 0) as [Hz|Hz].
  - rewrite Hz. assert (digits_fuel fuel 0 = 0) as -> by (by destruct fuel). cbn. lia.
  - destruct (IH (n / 10)) as (H1 & H2 & H3); [lia|]. set (D := digits_fuel fuel (n / 10)) in *.
    replace (1 + D - 1) with (Z.succ (D - 1)) by lia. replace (1 + D) with (Z.succ D) by lia.
    rewrite !Z.pow_succ_r by lia. lia.
Qed.

Lemma decimal_digits_spec n : 0 < n -> 1 <= decimal_digits n /\ 10 ^ (decimal_digits n - 1) <= n < 10 ^ decimal_digits n.
Proof.
  intros Hn. apply digits_fuel_spec. rewrite Nat2Z.inj_succ, Z2Nat.id by apply Z.log2_nonneg.
  pose proof (Z.log2_spec n Hn). lia.
Qed.

Lemma qpow_cancel b (Hb : 2 <= b) e : (Qpower (inject_Z b) (- e) * Qpower (inject_Z b) e == 1)%Q.
Proof. rewrite <- qpow_add by done. by rewrite Z.add_opp_diag_l. Qed.

Lemma qabs_scale_back b (Hb : 2 <= b) e x y h :
  (Qabs (x - y * Qpower (inject_Z b) (- e)) <= h)%Q ->
  (Qabs (x * Qpower (inject_Z b) e - y) <= h * Qpower (inject_Z b) e)%Q.
Proof.
  intros Hle. pose proof (qpow_pos b Hb e) as Hp. pose proof (qpow_cancel b Hb e) as Hc.
  set (t := Qpower (inject_Z b) e) in *. set (t' := Qpower (inject_Z b) (- e)) in *.
  assert (x * t - y == (x - y * t') * t)%Q as -> by (rewrite <- (Qmult_1_r y) at 1; rewrite <- Hc; ring).
  rewrite Qabs_Qmult, (Qabs_pos t) by lra. apply Qmult_le_compat_r; [done|lra].
Qed.

(** The magnitude of a quotient, from those of its terms. *)
Lemma fraction_magnitude b (Hb : 2 <= b) n d p q :
  0 <= p -> 0 <= q -> b ^ p <= n < b ^ (p + 1) -> b ^ q <= d < b ^ (q + 1) ->
  (Qpower (inject_Z b) (p - q - 1) < fraction n d /\ fraction n d < Qpower (inject_Z b) (p - q + 1))%Q.
Proof.
  intros Hp Hq Hn Hd. assert (0 < b ^ p /\ 0 < b ^ q) as [Hp0 Hq0] by (split; apply Z.pow_pos_nonneg; lia).
  assert (fraction n d == inject_Z n * / inject_Z d)%Q as Hv.
  { unfold fraction, inject_Z, Qeq, Qmult, Qinv. cbn. destruct d; try lia. cbn. lia. }
  assert (0 < inject_Z d)%Q as Hd0 by (unfold Qlt; cbn; lia).
  assert (fraction n d * inject_Z d == inject_Z n)%Q as Hvd.
  { rewrite Hv, <- Qmult_assoc, (Qmult_comm (/ _)), Qmult_inv_r by (intros H0; rewrite H0 in Hd0; by apply Qlt_irrefl in Hd0). ring. }
  split; apply (Qmult_lt_r _ _ (inject_Z d) Hd0); rewrite Hvd.
  - apply (Qlt_le_trans _ (Qpower (inject_Z b) (p - q - 1) * inject_Z (b ^ (q + 1)))).
    + apply Qmult_lt_l; [by apply qpow_pos|]. rewrite <- Zlt_Qlt. lia.
    + rewrite qpow_Z, <- qpow_add by lia. replace (p - q - 1 + (q + 1)) with p by lia.
      rewrite <- qpow_Z, <- Zle_Qle by lia. lia.
  - apply (Qlt_le_trans _ (inject_Z (b ^ (p + 1)))); [rewrite <- Zlt_Qlt; lia|].
    replace (p + 1) with (p - q + 1 + q) by lia. rewrite qpow_Z, qpow_add by lia.
    apply Qmult_le_l; [by apply qpow_pos|]. rewrite <- qpow_Z, <- Zle_Qle by lia. lia.
Qed.

(** [decimal_div] is the quotient, correctly rounded to [prec] digits. *)
Lemma decimal_div_spec prec n d :
  0 <= prec -> 0 < n -> 0 < d ->
  let '(c, e) := decimal_div prec n d in
  (Qabs (inject_Z c * Qpower (inject_Z 10) e - fraction n d) <= (1 # 2) * Qpower (inject_Z 10) e)%Q /\
  (Qpower (inject_Z 10) (prec - 1 + e) <= fraction n d)%Q.
Proof.
  intros Hprec Hn Hd. unfold decimal_div.
  destruct (decimal_digits_spec n Hn) as (HD1 & Hn1). destruct (decimal_digits_spec d Hd) as (HE1 & Hd1).
  set (D := decimal_digits n) in *. set (E := decimal_digits d) in *. clearbody D E.
  destruct (fraction_magnitude 10 ltac:(lia) n d (D - 1) (E - 1)) as [Hlo Hhi];
    [lia|lia|by replace (D - 1 + 1) with D by lia|by replace (E - 1 + 1) with E by lia|].
  set (s := E - D + prec).
  pose proof (rescale_spec 10 ltac:(lia) n d s Hd) as [Hpos Hval].
  destruct (rescale 10 n d s) as [x y]. cbn [fst snd] in *.
  set (s' := if 10 ^ prec <=? x / y then s - 1 else s).
  pose proof (rescale_round 10 n d s' ltac:(lia) Hd) as [Hr _].
  destruct (rescale 10 n d s') as [x' y'].
  split; [apply (qabs_scale_back 10 ltac:(lia)); by rewrite Z.opp_involutive|].
  unfold s'. destruct (Z.leb_spec (10 ^ prec) (x / y)) as [Hw|Hw].
  - assert (10 ^ prec * y <= x) as Hle.
    { pose proof (Z.div_mod x y ltac:(lia)). pose proof (Z.mod_pos_bound x y Hpos). nia. }
    rewrite <- fraction_le, Hval in Hle by done. rewrite qpow_Z in Hle by lia.
    replace (prec - 1 + - (s - 1)) with (prec + - s) by lia. rewrite qpow_add by lia.
    rewrite <- (Qmult_1_r (fraction n d)), <- (qpow_cancel 10 ltac:(lia) (- s)), Z.opp_involutive, Qmult_assoc.
    apply Qmult_le_r; [apply qpow_pos; lia|]. exact Hle.
  - apply Qlt_le_weak. eapply Qle_lt_trans; [|exact Hlo]. apply qpow_mono; unfold s; lia.
Qed.

(** [quantize] rounds to a multiple of the quantum. *)
Lemma decimal_quantize_spec places c e :
  let q := decimal_quantize places (c, e) in
  (Qabs (inject_Z q - inject_Z c * Qpower (inject_Z 10) (e + places)) <= 1 # 2)%Q.
Proof.
  cbv zeta. unfold decimal_quantize. cbn [fst snd]. set (s := e + places).
  destruct (Z.leb_spec 0 s) as [Hs|Hs].
  - rewrite inject_Z_mult, qpow_Z by lia. unfold Qminus. rewrite Qplus_opp_r. done.
  - pose proof (Z.pow_pos_nonneg 10 (- s) ltac:(lia) ltac:(lia)) as Hp.
    pose proof (round_half_even_Q c (10 ^ (- s)) Hp) as Hr.
    assert (fraction c (10 ^ (- s)) == inject_Z c * Qpower (inject_Z 10) s)%Q as He; [|by rewrite He in Hr].
    replace s with (- - s) at 2 by lia. rewrite qpow_opp, <- qpow_Z by lia.
    unfold fraction, inject_Z, Qeq, Qmult, Qinv. cbn. destruct (10 ^ (- s)); try lia. cbn. lia.
Qed.

(** *** The nearest binary64 *)

Lemma sf_fraction_finite s m e :
  (sf_fraction (S754_finite s m e) == inject_Z (if s then Zneg m else Zpos m) * Qpower (inject_Z 2) e)%Q.
Proof.
  unfold sf_fraction. destruct (Z.leb_spec 0 e) as [He|He].
  - by rewrite inject_Z_mult, qpow_Z.
  - rewrite Qred_correct. replace e with (- - e) at 2 by lia. rewrite qpow_opp, <- qpow_Z by lia.
    pose proof (Z.pow_pos_nonneg 2 (- e) ltac:(lia) ltac:(lia)) as Hp.
    unfold fraction, inject_Z, Qeq, Qmult, Qinv. cbn. destruct (2 ^ (- e)); try lia. cbn. lia.
Qed.

Lemma digits2_pos_spec m : 2 ^ (Zpos (digits2_pos m) - 1) <= Zpos m < 2 ^ Zpos (digits2_pos m).
Proof.
  induction m as [m IH|m IH|]; cbn [digits2_pos]; [| |done];
    rewrite Pos2Z.inj_succ, Z.pow_succ_r by lia;
    replace (Z.succ (Zpos (digits2_pos m)) - 1) with (Z.succ (Zpos (digits2_pos m) - 1)) by lia;
    rewrite Z.pow_succ_r by lia; lia.
Qed.

Lemma valid_finite s m e :
  Zpos m < 2 ^ 53 -> -1074 <= e <= 971 -> (e = -1074 \/ 2 ^ 52 <= Zpos m) ->
  valid_binary 53 1024 (S754_finite s m e) = true.
Proof.
  intros Hm He Hc. pose proof (digits2_pos_spec m) as Hd. cbn [valid_binary].
  unfold bounded, canonical_mantissa, fexp, SpecFloat.emin.
  set (D := Zpos (digits2_pos m)) in *. assert (0 < D) as HD by done. clearbody D.
  assert (D <= 53) as HD53.
  { apply Z.nlt_ge. intros Hlt. pose proof (Z.pow_le_mono_r 2 53 (D - 1) ltac:(lia) ltac:(lia)). lia. }
  assert (e = -1074 \/ D = 53) as HD'.
  { destruct Hc as [?|Hc]; [by left|right]. destruct (Z.eq_dec D 53); [done|].
    pose proof (Z.pow_le_mono_r 2 D 52 ltac:(lia) ltac:(lia)). lia. }
  apply andb_true_iff. split; [apply Z.eqb_eq|apply Z.leb_le]; lia.
Qed.

(** The exponent [nearest_f64] chooses, and what it scales [n / d] to. *)
Lemma nearest_exponent n d :
  0 < n -> 0 < d ->
  let l := Z.log2 n - Z.log2 d in
  let below := let '(a, b) := rescale 2 n d (- l) in a <? b in
  let L := if below : bool then l - 1 else l in
  (Qpower (inject_Z 2) L <= fraction n d /\ fraction n d < Qpower (inject_Z 2) (L + 1))%Q.
Proof.
  intros Hn Hd l below L.
  destruct (fraction_magnitude 2 ltac:(lia) n d (Z.log2 n) (Z.log2 d)) as [Hlo Hhi];
    [apply Z.log2_nonneg|apply Z.log2_nonneg|by apply Z.log2_spec|by apply Z.log2_spec|].
  fold l in Hlo, Hhi. unfold L, below. pose proof (rescale_spec 2 ltac:(lia) n d (- l) Hd) as [Hp Hv].
  destruct (rescale 2 n d (- l)) as [a b]. cbn [fst snd] in *.
  pose proof (qpow_cancel 2 ltac:(lia) l) as Hc. pose proof (qpow_pos 2 ltac:(lia) l) as Hl.
  assert (fraction a b * Qpower (inject_Z 2) l == fraction n d)%Q as Hback.
  { rewrite Hv, <- Qmult_assoc, Hc. ring. }
  destruct (Z.ltb_spec a b) as [Hb|Hb].
  - split; [by apply Qlt_le_weak|]. replace (l - 1 + 1) with l by lia.
    rewrite <- Hback. rewrite <- (Qmult_1_l (Qpower _ l)) at 2. apply Qmult_lt_r; [done|].
    change 1%Q with (inject_Z 1). apply fraction_lt; lia.
  - split; [|done]. rewrite <- Hback. rewrite <- (Qmult_1_l (Qpower _ l)) at 1. apply Qmult_le_r; [done|].
    change 1%Q with (inject_Z 1). apply fraction_le; lia.
Qed.

(** The significand and exponent [nearest_f64] settles on: the significand is
    of full width unless the exponent is the least, and it is nearest. *)
Lemma nearest_significand n d :
  0 < n -> 0 < d ->
  let l := Z.log2 n - Z.log2 d in
  let below := let '(a, b) := rescale 2 n d (- l) in a <? b in
  let e := Z.max (- 1074) ((if below : bool then l - 1 else l) - 52) in
  let m := let '(a, b) := rescale 2 n d (- e) in round_half_even a b in
  0 <= m <= 2 ^ 53 /\ (e = -1074 \/ 2 ^ 52 <= m) /\
  (Qabs (inject_Z m * Qpower (inject_Z 2) e - fraction n d) <= (1 # 2) * Qpower (inject_Z 2) e)%Q /\
  (e = -1074 \/ (Qpower (inject_Z 2) (e + 52) <= fraction n d)%Q).
Proof.
  intros Hn Hd. cbv zeta. pose proof (nearest_exponent n d Hn Hd) as [Hlo Hhi]. cbv zeta in Hlo, Hhi.
  set (l := Z.log2 n - Z.log2 d) in *. destruct (rescale 2 n d (- l)) as [a b].
  set (L := if a <? b then l - 1 else l) in *. set (e := Z.max (- 1074) (L - 52)).
  pose proof (rescale_round 2 n d (- e) ltac:(lia) Hd) as [Hr Hb].
  set (m := let '(a, b) := rescale 2 n d (- e) in round_half_even a b) in *. clearbody m.
  pose proof (qpow_pos 2 ltac:(lia) (- e)) as Hp. pose proof (fraction_pos n d Hn) as Hv.
  assert (fraction n d * Qpower (inject_Z 2) (- e) <= inject_Z (2 ^ 53))%Q as Hup.
  { rewrite qpow_Z by lia. apply (Qle_trans _ (Qpower (inject_Z 2) (e + 53) * Qpower (inject_Z 2) (- e))).
    - apply Qmult_le_compat_r; [|by apply Qlt_le_weak]. apply Qlt_le_weak. eapply Qlt_le_trans; [exact Hhi|].
      apply qpow_mono; lia.
    - rewrite <- qpow_add by lia. replace (e + 53 + - e) with 53 by lia. apply Qle_refl. }
  split; [|split; [|split]].
  - apply Hb; [|done]. change (inject_Z 0) with 0%Q. apply Qlt_le_weak. rewrite <- (Qmult_0_l (Qpower (inject_Z 2) (- e))).
    by apply Qmult_lt_compat_r.
  - destruct (Z.eq_dec e (-1074)) as [?|He]; [by left|right]. apply (Hb (2 ^ 52) (2 ^ 53)); [|done].
    rewrite qpow_Z by lia. replace 52 with (L + - e) by lia. rewrite qpow_add by lia.
    apply Qmult_le_compat_r; [done|by apply Qlt_le_weak].
  - apply (qabs_scale_back 2 ltac:(lia)). done.
  - destruct (Z.eq_dec e (-1074)) as [?|He]; [by left|right]. replace (e + 52) with L by lia. done.
Qed.

(** The float of a significand and an exponent, as [nearest_f64] returns it. *)
Definition pack_f64 (neg : bool) (m e : Z) : spec_float :=
  match m with
  | Zpos p => if 971 <? e then S754_infinity neg else S754_finite neg p e
  | _ => S754_zero neg
  end.

(** The normal form of the rounded significand. *)
Lemma nearest_normal neg n d :
  0 < n -> 0 < d ->
  let l := Z.log2 n - Z.log2 d in
  let below := let '(a, b) := rescale 2 n d (- l) in a <? b in
  let e := Z.max (- 1074) ((if below : bool then l - 1 else l) - 52) in
  let m := let '(a, b) := rescale 2 n d (- e) in round_half_even a b in
  exists m' e', nearest_f64 neg n d = pack_f64 neg m' e' /\ 0 <= m' < 2 ^ 53 /\ -1074 <= e' <= e + 1 /\
    (e' = -1074 \/ 2 ^ 52 <= m') /\ (inject_Z m' * Qpower (inject_Z 2) e' == inject_Z m * Qpower (inject_Z 2) e)%Q.
Proof.
  intros Hn Hd. cbv zeta. pose proof (nearest_significand n d Hn Hd) as (Hm & Hfull & _ & _). cbv zeta in *.
  unfold nearest_f64, pack_f64. cbv zeta. set (e := Z.max _ _) in *.
  set (m := let '(a, b) := rescale 2 n d (- e) in round_half_even a b) in *. assert (-1074 <= e) as He by lia.
  clearbody e m.
  destruct (Z.eqb_spec m (2 ^ 53)) as [->|Hne]; do 2 eexists; (split; [reflexivity|]); split_and!; try lia; [|reflexivity].
  rewrite qpow_add by lia. rewrite (qpow_Z 2 53), (qpow_Z 2 52) by lia.
  change 53 with (52 + 1) at 1. rewrite (qpow_add 2 ltac:(lia) 52 1). ring.
Qed.

Lemma pack_valid neg m e :
  0 <= m < 2 ^ 53 -> -1074 <= e -> (e = -1074 \/ 2 ^ 52 <= m) -> valid_binary 53 1024 (pack_f64 neg m e) = true.
Proof.
  intros Hm He Hf. unfold pack_f64. destruct m as [|p|p]; try done. destruct (Z.ltb_spec 971 e); [done|].
  apply valid_finite; lia.
Qed.

Lemma pack_value neg m e : 0 <= m -> e <= 971 ->
  sf_finite (pack_f64 neg m e) = true /\
  (sf_fraction (pack_f64 neg m e) == (if neg then - (inject_Z m * Qpower (inject_Z 2) e) else inject_Z m * Qpower (inject_Z 2) e))%Q.
Proof.
  intros Hm He. unfold pack_f64. destruct m as [|p|p]; try lia; [split; [done|]; destruct neg; cbn; ring|].
  destruct (Z.ltb_spec 971 e); [lia|]. split; [done|]. rewrite sf_fraction_finite. destruct neg; [|reflexivity].
  change (Zneg p) with (- Zpos p). rewrite inject_Z_opp. ring.
Qed.

(** What a quotient in range is rounded to. *)
Lemma nearest_value neg n d :
  0 < n -> 0 < d -> (fraction n d < Qpower (inject_Z 2) 1023)%Q ->
  let l := Z.log2 n - Z.log2 d in
  let below := let '(a, b) := rescale 2 n d (- l) in a <? b in
  let e := Z.max (- 1074) ((if below : bool then l - 1 else l) - 52) in
  let m := let '(a, b) := rescale 2 n d (- e) in round_half_even a b in
  sf_finite (nearest_f64 neg n d) = true /\
  (sf_fraction (nearest_f64 neg n d) ==
   (if neg then - (inject_Z m * Qpower (inject_Z 2) e) else inject_Z m * Qpower (inject_Z 2) e))%Q.
Proof.
  intros Hn Hd Hv. cbv zeta. pose proof (nearest_significand n d Hn Hd) as (_ & _ & _ & Hlow).
  destruct (nearest_normal neg n d Hn Hd) as (m' & e' & -> & Hm' & He' & _ & Hval). cbv zeta in *.
  set (e := Z.max _ _) in *. assert (e <= -1074 \/ e + 52 < 1023) as Hmax.
  { destruct Hlow as [?|Hlow]; [left; lia|right]. apply (qpow_mono_inv 2 ltac:(lia)). by eapply Qle_lt_trans. }
  destruct (pack_value neg m' e') as [Hfin Hfr]; [lia|lia|]. split; [done|]. rewrite Hfr. by destruct neg; rewrite Hval.
Qed.

Lemma nearest_zero neg d : 0 < d -> nearest_f64 neg 0 d = S754_zero neg.
Proof.
  intros Hd. unfold nearest_f64. cbv zeta.
  assert (forall s, (let '(a, b) := rescale 2 0 d s in round_half_even a b) = 0) as Hz; [|by rewrite Hz].
  intros s. pose proof (rescale_round 2 0 d s ltac:(lia) Hd) as [_ Hb].
  assert (fraction 0 d * Qpower (inject_Z 2) s == 0)%Q as Hz0 by (unfold fraction, Qeq; cbn; lia).
  cbv zeta in Hb. destruct (Hb 0 0); [by rewrite Hz0..|lia].
Qed.

(** Every result of [nearest_f64] is a binary64, and a quotient in range is
    within half a unit in the last place of its result. *)
Lemma nearest_f64_spec neg n d :
  0 <= n -> 0 < d ->
  valid_binary 53 1024 (nearest_f64 neg n d) = true /\
  ((fraction n d < Qpower (inject_Z 2) 1023)%Q ->
   sf_finite (nearest_f64 neg n d) = true /\
   (Qabs (sf_fraction (nearest_f64 neg n d) - (if neg then - fraction n d else fraction n d)) <=
    fraction n d * Qpower (inject_Z 2) (-53) + Qpower (inject_Z 2) (-1075))%Q).
Proof.
  intros Hn0 Hd. destruct (Z.eq_dec n 0) as [->|Hn'].
  { rewrite nearest_zero by done. split; [done|]. intros _. split; [done|]. destruct neg; cbn; done. }
  split.
  { destruct (nearest_normal neg n d ltac:(lia) Hd) as (m' & e' & -> & ? & ? & ? & _). apply pack_valid; lia. }
  intros Hv. pose proof (nearest_significand n d ltac:(lia) Hd) as (_ & _ & Hnear & Hlow).
  destruct (nearest_value neg n d ltac:(lia) Hd Hv) as [Hfin Hfr]. split; [done|]. cbv zeta in *.
  set (e := Z.max _ _) in *. set (m := let '(a, b) := rescale 2 n d (- e) in round_half_even a b) in *.
  apply (Qle_trans _ ((1 # 2) * Qpower (inject_Z 2) e)).
  - rewrite Hfr. destruct neg; [|exact Hnear].
    rewrite <- Qabs_opp. match goal with |- (Qabs ?x <= _)%Q => setoid_replace x with
      (inject_Z m * Qpower (inject_Z 2) e - fraction n d)%Q using relation Qeq by ring end. exact Hnear.
  - pose proof (qpow_pos 2 ltac:(lia) (-53)) as H53. pose proof (qpow_pos 2 ltac:(lia) (-1075)) as H1075.
    assert (forall t, (1 # 2) * Qpower (inject_Z 2) (t + 1) == Qpower (inject_Z 2) t)%Q as Hhalf.
    { intros t. rewrite qpow_add by lia. change (Qpower (inject_Z 2) 1) with 2%Q. ring. }
    replace e with (e - 1 + 1) by lia. rewrite Hhalf.
    pose proof (fraction_pos n d ltac:(lia)) as Hpos.
    assert (0 < fraction n d * Qpower (inject_Z 2) (-53))%Q as Hpp by (by apply Qmult_lt_0_compat).
    destruct Hlow as [-> | Hlow].
    + change (-1074 - 1) with (-1075). lra.
    + apply (Qmult_le_compat_r _ _ (Qpower (inject_Z 2) (-53))) in Hlow; [|lra].
      rewrite <- qpow_add in Hlow by lia. replace (e + 52 + -53) with (e - 1) in Hlow by lia. lra.
Qed.

Lemma f64_of_valid f : valid_binary 53 1024 f = true -> proj1_sig (f64_of f) = f.
Proof. intros Hf. unfold f64_of. destruct (bool_dec _ _) as [H|H]; [done|]. congruence. Qed.
