(* ===== verification/PyCmp.v ===== *)
(** Python's [==], [<=] and [>=] between JSON-shaped values: numbers of every
    type by their exact value, texts and byte strings by their elements, lists
    element by element; anything else cannot be ordered.  (The shortcut of list
    comparison for two references to one NaN object is not modelled.) *)

From Stdlib Require Import SpecFloat QArith.
From S2P Require Import Prelude PyStr PyVal Rational.
Local Open Scope Z_scope.

(** The value of a number: a [bool] is an [int]. *)
Inductive pynum := Finite (q : Q) | Infinite (negative : bool) | NaN.

Definition num_of (v : pyval) : option pynum :=
  match v with
  | PBool b => Some (Finite (inject_Z (Z.b2z b)))
  | PInt z => Some (Finite (inject_Z z))
  | PFloat f =>
      Some match proj1_sig f with
           | S754_nan => NaN
           | S754_infinity s => Infinite s
           | f => Finite (sf_fraction f)
           end
  | _ => None
  end.

Definition num_eq (x y : pynum) : bool :=
  match x, y with
  | Finite p, Finite q => Qeq_bool p q
  | Infinite s, Infinite t => Bool.eqb s t
  | _, _ => false
  end.

Definition num_le (x y : pynum) : bool :=
  match x, y with
  | NaN, _ | _, NaN => false
  | Infinite true, _ | _, Infinite false => true
  | _, Infinite true | Infinite false, _ => false
  | Finite p, Finite q => Qle_bool p q
  end.

(** [a == b] *)
Fixpoint py_eq (a b : pyval) : bool :=
  match a, b with
  | PNone, PNone => true
  | PStr s, PStr t => bool_decide (s = t)
  | PBytes s, PBytes t => bool_decide (s = t)
  | PList l, PList k =>
      (fix go l k := match l, k with
                     | [], [] => true
                     | x :: l, y :: k => py_eq x y && go l k
                     | _, _ => false
                     end) l k
  | PDict kvs, PDict kws =>
      (length kvs =? length kws)%nat &&
      forallb (fun kv => match dget kws kv.1 with Some w => py_eq kv.2 w | None => false end) kvs
  | _, _ => match num_of a, num_of b with Some x, Some y => num_eq x y | _, _ => false end
  end.

(** [a <= b] and [a >= b]; the two operators differ in their direction only. *)
Fixpoint py_ordered (at_least : bool) (a b : pyval) : result pyexn bool :=
  match a, b with
  | PStr s, PStr t => Ok (if at_least then str_leb t s else str_leb s t)
  | PBytes s, PBytes t => Ok (if at_least then str_leb t s else str_leb s t)
  | PList l, PList k =>
      (fix go l k := match l, k with
                     | [], [] => Ok true
                     | [], _ :: _ => Ok (negb at_least)
                     | _ :: _, [] => Ok at_least
                     | x :: l, y :: k => if py_eq x y then go l k else py_ordered at_least x y
                     end) l k
  | _, _ =>
      match num_of a, num_of b with
      | Some x, Some y => Ok (if at_least then num_le y x else num_le x y)
      | _, _ => Raise TypeError
      end
  end.

Definition py_ge (a b : pyval) : result pyexn bool := py_ordered true a b.
Definition py_le (a b : pyval) : result pyexn bool := py_ordered false a b.

(** A comparison raises nothing but [TypeError]. *)
Lemma py_ordered_total at_least a : forall b,
  match py_ordered at_least a b with Ok _ => True | Raise e => e = TypeError end.
Proof.
  induction a as [|x|z|f|s|s|l IH|kvs IH] using pyval_nested_ind; intros b; destruct b as [|x'|z'|f'|s'|s'|k|kws]; try done.
  cbn. revert k. induction IH as [|x l Hx _ IHl]; intros [|y k]; try done.
  destruct (py_eq x y); [apply IHl|apply Hx].
Qed.
