(* ===== verification/Float64.v ===== *)
(** Binary64 arithmetic of Python: a finite result is the exact one correctly
    rounded (ties to even, [Rational.nearest_f64]); infinities, NaN and the
    signs of zeros as IEEE 754 has them; conversion of an [int], and the
    fixed-point format of the [f] presentation type. *)

From Stdlib Require Import SpecFloat QArith Qabs Qround Lqa.
From S2P Require Import Prelude PyStr PyVal PyTime Rational PyCmp.
Local Open Scope Z_scope.

(** The float nearest to an exact result; a zero keeps the sign given. *)
Definition round_exact (negative_zero : bool) (q : Q) : spec_float :=
  if Qnum q =? 0 then S754_zero negative_zero
  else nearest_f64 (Qnum q <? 0) (Z.abs (Qnum q)) (Zpos (Qden q)).

Definition sf_sign (f : spec_float) : bool :=
  match f with S754_zero s | S754_infinity s | S754_finite s _ _ => s | S754_nan => false end.

Definition sf_mul (a b : spec_float) : spec_float :=
  let s := xorb (sf_sign a) (sf_sign b) in
  match a, b with
  | S754_nan, _ | _, S754_nan | S754_infinity _, S754_zero _ | S754_zero _, S754_infinity _ => S754_nan
  | S754_infinity _, _ | _, S754_infinity _ => S754_infinity s
  | _, _ => round_exact s (sf_fraction a * sf_fraction b)
  end.

(** [a / b] for [b] no zero. *)
Definition sf_div (a b : spec_float) : spec_float :=
  let s := xorb (sf_sign a) (sf_sign b) in
  match a, b with
  | S754_nan, _ | _, S754_nan | S754_infinity _, S754_infinity _ => S754_nan
  | S754_infinity _, _ => S754_infinity s
  | _, S754_infinity _ => S754_zero s
  | _, _ => round_exact s (sf_fraction a / sf_fraction b)
  end.

Definition sf_sub (a b : spec_float) : spec_float :=
  match a, b with
  | S754_nan, _ | _, S754_nan => S754_nan
  | S754_infinity s, S754_infinity t => if Bool.eqb s t then S754_nan else a
  | S754_infinity _, _ => a
  | _, S754_infinity t => S754_infinity (negb t)
  | _, _ => round_exact (sf_sign a && negb (sf_sign b)) (sf_fraction a - sf_fraction b)
  end.

Definition f64_mul (a b : f64) : f64 := f64_of (sf_mul (proj1_sig a) (proj1_sig b)).
Definition f64_sub (a b : f64) : f64 := f64_of (sf_sub (proj1_sig a) (proj1_sig b)).
(** The callers never divide by a zero. *)
Definition f64_div (a b : f64) : f64 := f64_of (sf_div (proj1_sig a) (proj1_sig b)).

(** [float(z)] *)
Definition float_of_int (z : Z) : result pyexn f64 :=
  match round_exact false (inject_Z z) with
  | S754_infinity _ => Raise OverflowError
  | f => Ok (f64_of f)
  end.

Definition f64_int (z : Z) : f64 := f64_of (round_exact false (inject_Z z)).

(** [x <= y] *)
Definition f64_le (x y : f64) : bool :=
  match num_of (PFloat x), num_of (PFloat y) with Some p, Some q => num_le p q | _, _ => false end.

(** [x < y] *)
Definition f64_lt (x y : f64) : bool := f64_le x y && negb (f64_le y x).

(** A float in the format [.2f], [.4f], ...: ties of the exact value go to the
    even digit, and a zero keeps its sign. *)
Definition format_fixed (places : nat) (x : f64) : pystr :=
  let sign := if sf_sign (proj1_sig x) then u "-" else [] in
  match proj1_sig x with
  | S754_nan => u "nan"
  | S754_infinity _ => sign ++ u "inf"
  | f =>
      let q := Qabs (sf_fraction f) in
      let unit := 10 ^ Z.of_nat places in
      let k := round_half_even (Qnum q * unit) (Zpos (Qden q)) in
      sign ++ str_of_Z (k / unit) ++ u "." ++ zero_pad places (k mod unit)
  end.

(** ** Lemmas *)

Lemma round_exact_valid s q : valid_binary 53 1024 (round_exact s q) = true.
Proof. unfold round_exact. destruct (_ =? 0); [done|]. apply nearest_f64_spec; lia. Qed.

Lemma Qmake_fraction q : (fraction (Qnum q) (Zpos (Qden q)) == q)%Q.
Proof. unfold fraction. rewrite Pos2Z.id. by destruct q. Qed.

(** Rounding does not cross an integer of at most 53 bits. *)
Lemma nearest_integer_bounds n d q :
  0 < n -> 0 < d -> 0 < q < 2 ^ 53 -> (fraction n d < Qpower (inject_Z 2) 1023)%Q ->
  ((inject_Z q <= fraction n d)%Q -> (inject_Z q <= sf_fraction (nearest_f64 false n d))%Q) /\
  ((fraction n d <= inject_Z q)%Q -> (sf_fraction (nearest_f64 false n d) <= inject_Z q)%Q).
Proof.
  intros Hn Hd Hq Hv. pose proof (nearest_significand n d Hn Hd) as (Hm & Hfull & _ & Hlow).
  destruct (nearest_value false n d Hn Hd Hv) as [_ Hval]. cbv zeta in *. rewrite Hval. clear Hval.
  set (e := Z.max _ _) in *. pose proof (rescale_round 2 n d (- e) ltac:(lia) Hd) as [_ Hb].
  set (m := let '(a, b) := rescale 2 n d (- e) in round_half_even a b) in *. clearbody m.
  pose proof (qpow_pos 2 ltac:(lia) e) as Hpe. pose proof (qpow_pos 2 ltac:(lia) (- e)) as Hpn.
  destruct (Z.leb_spec e 0) as [He|He].
  - assert (inject_Z (q * 2 ^ (- e)) == inject_Z q * Qpower (inject_Z 2) (- e))%Q as Hgrid.
    { rewrite inject_Z_mult, qpow_Z by lia. reflexivity. }
    pose proof (qpow_cancel 2 ltac:(lia) e) as Hc.
    assert (inject_Z (q * 2 ^ (- e)) * Qpower (inject_Z 2) e == inject_Z q)%Q as Hback.
    { rewrite Hgrid, <- Qmult_assoc, Hc. ring. }
    split; intros Hx.
    + rewrite <- Hback. apply Qmult_le_compat_r; [|by apply Qlt_le_weak]. rewrite <- Zle_Qle.
      assert (exists hi, fraction n d * Qpower (inject_Z 2) (- e) <= inject_Z hi)%Q as [hi Hhi].
      { eexists. apply Qlt_le_weak, Qlt_floor. }
      apply (Hb (q * 2 ^ (- e)) hi); [|done]. rewrite Hgrid. apply Qmult_le_compat_r; [done|by apply Qlt_le_weak].
    + rewrite <- Hback. apply Qmult_le_compat_r; [|by apply Qlt_le_weak]. rewrite <- Zle_Qle.
      apply (Hb 0 (q * 2 ^ (- e))).
      * pose proof (fraction_pos n d Hn) as Hp. apply Qlt_le_weak. rewrite <- (Qmult_0_l (Qpower (inject_Z 2) (- e))).
        by apply Qmult_lt_compat_r.
      * rewrite Hgrid. apply Qmult_le_compat_r; [done|by apply Qlt_le_weak].
  - assert (inject_Z q < Qpower (inject_Z 2) (e + 52))%Q as Hbig.
    { apply (Qlt_le_trans _ (inject_Z (2 ^ 53))); [rewrite <- Zlt_Qlt; lia|]. rewrite qpow_Z by lia. apply qpow_mono; lia. }
    destruct Hfull as [?|Hfull]; [lia|]. destruct Hlow as [?|Hlow]; [lia|]. split; intros Hx.
    + apply Qlt_le_weak. eapply Qlt_le_trans; [exact Hbig|]. rewrite (Z.add_comm e 52), qpow_add, <- qpow_Z by lia.
      apply Qmult_le_compat_r; [rewrite <- Zle_Qle; lia|by apply Qlt_le_weak].
    + exfalso. apply (Qlt_irrefl (inject_Z q)). eapply Qlt_le_trans; [exact Hbig|]. by eapply Qle_trans.
Qed.

(** *** Values *)

Definition f64_value (x : f64) : Q := sf_fraction (proj1_sig x).
Definition f64_finite (x : f64) : bool := sf_finite (proj1_sig x).

Lemma round_exact_proj s q : proj1_sig (f64_of (round_exact s q)) = round_exact s q.
Proof. apply f64_of_valid, round_exact_valid. Qed.

(** A positive result in range: finite, on the same side of every integer of 53
    bits as the exact one, and near it. *)
Lemma round_exact_pos s q :
  (0 < q)%Q -> (q < Qpower (inject_Z 2) 1023)%Q ->
  let r := sf_fraction (round_exact s q) in
  sf_finite (round_exact s q) = true /\
  (forall k, 0 < k < 2 ^ 53 -> ((inject_Z k <= q)%Q -> (inject_Z k <= r)%Q) /\ ((q <= inject_Z k)%Q -> (r <= inject_Z k)%Q)) /\
  (Qabs (r - q) <= q * Qpower (inject_Z 2) (-53) + Qpower (inject_Z 2) (-1075))%Q.
Proof.
  intros Hq Hv. pose proof (Qmake_fraction q) as Hf. set (d := Zpos (Qden q)) in *.
  assert (0 < Qnum q) as Hn by (unfold Qlt in Hq; cbn in Hq; lia).
  assert (round_exact s q = nearest_f64 false (Qnum q) d) as ->.
  { unfold round_exact. destruct (Z.eqb_spec (Qnum q) 0); [lia|]. destruct (Z.ltb_spec (Qnum q) 0); [lia|].
    by rewrite Z.abs_eq by lia. }
  rewrite <- Hf in Hv. destruct (nearest_f64_spec false (Qnum q) d ltac:(lia) ltac:(lia)) as [_ Hs].
  destruct (Hs Hv) as [Hfin Herr]. split; [done|]. split.
  - intros k Hk. destruct (nearest_integer_bounds (Qnum q) d k Hn ltac:(lia) Hk Hv) as [H1 H2]. by rewrite Hf in H1, H2.
  - by rewrite Hf in Herr.
Qed.

Lemma small_pow q : (q <= inject_Z (2 ^ 53))%Q -> (q < Qpower (inject_Z 2) 1023)%Q.
Proof.
  intros Hq. eapply Qle_lt_trans; [exact Hq|]. rewrite qpow_Z by lia.
  apply Qlt_alt. reflexivity.
Qed.

(** An integer of at most 53 bits is exact. *)
Lemma round_integer s q k : 0 <= k < 2 ^ 53 -> (q == inject_Z k)%Q ->
  sf_finite (round_exact s q) = true /\ (sf_fraction (round_exact s q) == inject_Z k)%Q.
Proof.
  intros Hk Hq. destruct (Z.eq_dec k 0) as [->|Hk0].
  - unfold round_exact. destruct (Z.eqb_spec (Qnum q) 0) as [|Hn]; [done|]. unfold Qeq in Hq. cbn in Hq. lia.
  - destruct (round_exact_pos s q) as (Hfin & Hb & _).
    + rewrite Hq. change 0%Q with (inject_Z 0). rewrite <- Zlt_Qlt. lia.
    + apply small_pow. rewrite Hq, <- Zle_Qle. lia.
    + split; [done|]. destruct (Hb k ltac:(lia)) as [H1 H2]. apply Qle_antisym; [apply H2|apply H1]; rewrite Hq; apply Qle_refl.
Qed.

Lemma f64_int_exact k : 0 <= k < 2 ^ 53 -> f64_finite (f64_int k) = true /\ (f64_value (f64_int k) == inject_Z k)%Q.
Proof. intros Hk. unfold f64_finite, f64_value, f64_int. rewrite round_exact_proj. by apply round_integer. Qed.

Lemma float_of_int_exact k : 0 <= k < 2 ^ 53 -> float_of_int k = Ok (f64_int k).
Proof.
  intros Hk. unfold float_of_int, f64_int. destruct (round_integer false (inject_Z k) k Hk (Qeq_refl _)) as [Hf _].
  by destruct (round_exact false (inject_Z k)).
Qed.

Lemma sf_mul_finite a b : sf_finite a = true -> sf_finite b = true ->
  sf_mul a b = round_exact (xorb (sf_sign a) (sf_sign b)) (sf_fraction a * sf_fraction b).
Proof. by destruct a, b. Qed.

Lemma sf_div_finite a b : sf_finite a = true -> sf_finite b = true ->
  sf_div a b = round_exact (xorb (sf_sign a) (sf_sign b)) (sf_fraction a / sf_fraction b).
Proof. by destruct a, b. Qed.

Lemma sf_sub_finite a b : sf_finite a = true -> sf_finite b = true ->
  sf_sub a b = round_exact (sf_sign a && negb (sf_sign b)) (sf_fraction a - sf_fraction b).
Proof. by destruct a, b. Qed.

Lemma f64_le_value x y : f64_finite x = true -> f64_finite y = true ->
  f64_le x y = true <-> (f64_value x <= f64_value y)%Q.
Proof.
  unfold f64_finite, f64_value, f64_le. cbn [num_of]. intros Hx Hy.
  destruct (proj1_sig x), (proj1_sig y); try done; cbn [num_le]; apply Qle_bool_iff.
Qed.

(** A percentage of two counts compares with a whole threshold as the exact one
    does, for counts below 2 ** 45. *)
Lemma percentage_exact c t k : 0 <= c <= t -> 0 < t < 2 ^ 45 -> 0 < k <= 100 ->
  f64_le (f64_int k) (f64_div (f64_mul (f64_int 100) (f64_int c)) (f64_int t)) = true <-> k * t <= 100 * c.
Proof.
  intros Hc Ht Hk. destruct (f64_int_exact k ltac:(lia)) as [Fk Vk], (f64_int_exact 100 ltac:(lia)) as [F100 V100],
    (f64_int_exact c ltac:(lia)) as [Fc Vc], (f64_int_exact t ltac:(lia)) as [Ft Vt].
  assert (f64_finite (f64_mul (f64_int 100) (f64_int c)) = true /\
          (f64_value (f64_mul (f64_int 100) (f64_int c)) == inject_Z (100 * c))%Q) as [Fp Vp].
  { unfold f64_mul, f64_finite, f64_value. rewrite sf_mul_finite, round_exact_proj by done. apply round_integer; [lia|].
    unfold f64_value in V100, Vc. by rewrite V100, Vc, <- inject_Z_mult. }
  set (p := f64_mul (f64_int 100) (f64_int c)) in *. clearbody p.
  unfold f64_value, f64_finite in Fp, Vp, Ft, Vt.
  assert (exists s, proj1_sig (f64_div p (f64_int t)) = round_exact s (sf_fraction (proj1_sig p) / sf_fraction (proj1_sig (f64_int t))))
    as [s Hdiv] by (eexists; unfold f64_div; by rewrite sf_div_finite, round_exact_proj).
  set (q := (sf_fraction (proj1_sig p) / sf_fraction (proj1_sig (f64_int t)))%Q) in *.
  assert (0 < inject_Z t)%Q as Htq by (change 0%Q with (inject_Z 0); rewrite <- Zlt_Qlt; lia).
  assert (q * inject_Z t == inject_Z (100 * c))%Q as Hq.
  { unfold q. rewrite Vp, Vt. field. intros E. rewrite E in Htq. by apply Qlt_irrefl in Htq. }
  clearbody q. clear Vp Vt Fp Ft Fc Vc.
  assert (forall x : Z, (inject_Z x <= q)%Q <-> x * t <= 100 * c) as Hle.
  { intros x. rewrite (Zle_Qle (x * t)), inject_Z_mult, <- Hq. symmetry. by apply Qmult_le_r. }
  enough (sf_finite (round_exact s q) = true /\ ((inject_Z k <= sf_fraction (round_exact s q))%Q <-> k * t <= 100 * c)) as [Hfin Hiff].
  { rewrite f64_le_value, <- Hiff by (done || (unfold f64_finite; by rewrite Hdiv)). unfold f64_value at 2. rewrite Hdiv.
    by rewrite Vk. }
  destruct (Z.eq_dec c 0) as [->|Hc0].
  - assert (q == 0)%Q as Hq0.
    { apply (Qmult_inj_r _ _ (inject_Z t)); [intros E; rewrite E in Htq; by apply Qlt_irrefl in Htq|]. by rewrite Hq, Qmult_0_l. }
    destruct (round_integer s q 0 ltac:(lia) Hq0) as [Hf ->]. split; [done|]. rewrite <- Zle_Qle. lia.
  - assert (0 < q)%Q as Hpos.
    { apply (Qmult_lt_r _ _ (inject_Z t) Htq). rewrite Hq, Qmult_0_l. change 0%Q with (inject_Z 0). rewrite <- Zlt_Qlt. lia. }
    assert (q <= inject_Z 100)%Q as Hup.
    { apply (Qmult_le_r _ _ (inject_Z t) Htq). rewrite Hq, <- inject_Z_mult, <- Zle_Qle. lia. }
    destruct (round_exact_pos s q Hpos) as (Hf & Hb & Herr); [apply small_pow; eapply Qle_trans; [exact Hup|rewrite <- Zle_Qle; lia]|].
    split; [done|]. split; [|intros Hk'; apply (Hb k ltac:(lia)), Hle, Hk'].
    intros Hr. apply Hle. apply Qnot_lt_le. intros Hlt.
    assert (q <= inject_Z k - / inject_Z t)%Q as Hgap.
    { apply (Qmult_le_r _ _ (inject_Z t) Htq). rewrite Hq.
      assert ((inject_Z k - / inject_Z t) * inject_Z t == inject_Z (k * t - 1))%Q as ->.
      { assert (/ inject_Z t * inject_Z t == 1)%Q as Hone
          by (rewrite Qmult_comm; apply Qmult_inv_r; intros E; rewrite E in Htq; by apply Qlt_irrefl in Htq).
        transitivity (inject_Z k * inject_Z t - / inject_Z t * inject_Z t)%Q; [ring|]. rewrite Hone.
        unfold Zminus. rewrite inject_Z_plus, inject_Z_mult. reflexivity. }
      rewrite <- Zle_Qle. apply Qlt_not_le in Hlt. rewrite Hle in Hlt. lia. }
    assert (1 # 35184372088832 <= / inject_Z t)%Q as Hinv.
    { apply (Qmult_le_r _ _ (inject_Z t) Htq). rewrite (Qmult_comm (/ _)), Qmult_inv_r
        by (intros E; rewrite E in Htq; by apply Qlt_irrefl in Htq).
      unfold Qle, inject_Z. cbn. lia. }
    apply Qabs_Qle_condition in Herr as [_ Herr].
    assert (q * Qpower (inject_Z 2) (-53) <= inject_Z 100 * (1 # 9007199254740992))%Q as Hrel.
    { change (Qpower (inject_Z 2) (-53)) with (1 # 9007199254740992)%Q. apply Qmult_le_compat_r; done. }
    assert (Qpower (inject_Z 2) (-1075) <= 1 # 9007199254740992)%Q as Htiny.
    { change (1 # 9007199254740992)%Q with (Qpower (inject_Z 2) (-53)). apply qpow_mono; lia. }
    change (inject_Z 100) with (100 # 1)%Q in Hrel.
    set (r := sf_fraction (round_exact s q)) in *. lra.
Qed.

(** *** Results that are not positive *)

(** A number that is at most zero; an infinity may be. *)
Definition nonpositive (f : spec_float) : Prop :=
  match f with S754_zero _ | S754_finite true _ _ | S754_infinity true => True | _ => False end.

Lemma round_exact_nonpositive s q : (q <= 0)%Q -> nonpositive (round_exact s q).
Proof.
  intros Hq. unfold round_exact. assert (Qnum q <= 0) as Hn by (unfold Qle in Hq; cbn in Hq; lia).
  destruct (Z.eqb_spec (Qnum q) 0) as [|H0]; [done|]. destruct (Z.ltb_spec (Qnum q) 0); [|lia].
  unfold nearest_f64. destruct (if _ =? 2 ^ 53 then _ else _) as [[|p|p] e]; try done. by destruct (971 <? e).
Qed.

Lemma sf_value_nonpositive f : nonpositive f -> (sf_fraction f <= 0)%Q.
Proof.
  destruct f as [s|[]| |[] m e]; try done. intros _. unfold sf_fraction. destruct (Z.leb_spec 0 e) as [He|He].
  - change 0%Q with (inject_Z 0). rewrite <- Zle_Qle. pose proof (Z.pow_pos_nonneg 2 e ltac:(lia) He). nia.
  - rewrite Qred_correct. unfold fraction, Qle. cbn. lia.
Qed.

(** [0 < f] and finite. *)
Definition positive (f : spec_float) : Prop := match f with S754_finite false _ _ => True | _ => False end.

Lemma sf_value_positive f : positive f -> (0 < sf_fraction f)%Q.
Proof.
  destruct f as [| | |[] m e]; try done. intros _. unfold sf_fraction. destruct (Z.leb_spec 0 e) as [He|He].
  - change 0%Q with (inject_Z 0). rewrite <- Zlt_Qlt. pose proof (Z.pow_pos_nonneg 2 e ltac:(lia) He). nia.
  - rewrite Qred_correct. unfold fraction, Qlt. cbn. lia.
Qed.

Lemma sf_mul_nonpositive a b : positive a -> nonpositive b -> nonpositive (sf_mul a b).
Proof.
  intros Ha Hb. pose proof (sf_value_positive _ Ha) as Hpa. pose proof (sf_value_nonpositive _ Hb) as Hpb.
  assert (sf_fraction a * sf_fraction b <= 0)%Q as Hq.
  { rewrite Qmult_comm. rewrite <- (Qmult_0_l (sf_fraction a)). apply Qmult_le_compat_r; [done|by apply Qlt_le_weak]. }
  destruct a as [| | |[] m e]; try done. destruct b as [s|[]| |[] m' e']; try done; by apply round_exact_nonpositive.
Qed.

Lemma sf_div_nonpositive a b : nonpositive a -> positive b -> nonpositive (sf_div a b).
Proof.
  intros Ha Hb. pose proof (sf_value_positive _ Hb) as Hpb. pose proof (sf_value_nonpositive _ Ha) as Hpa.
  assert (sf_fraction a / sf_fraction b <= 0)%Q as Hq.
  { apply Qle_shift_div_r; [done|]. by rewrite Qmult_0_l. }
  destruct b as [| | |[] m e]; try done. destruct a as [s|[]| |[] m' e']; try done; by apply round_exact_nonpositive.
Qed.

Lemma sf_sub_nonpositive a b : sf_finite a = true -> sf_finite b = true -> (sf_fraction a <= sf_fraction b)%Q -> nonpositive (sf_sub a b).
Proof.
  intros Ha Hb Hab. assert (sf_fraction a - sf_fraction b <= 0)%Q as Hq by lra.
  destruct a, b; try done; by apply round_exact_nonpositive.
Qed.

Lemma f64_positive x : f64_finite x = true -> f64_lt (f64_int 0) x = true -> positive (proj1_sig x).
Proof.
  unfold f64_lt. intros Hf [Hle Hn]%andb_true_iff. assert (f64_finite (f64_int 0) = true) as H0 by done.
  apply negb_true_iff, not_true_iff_false in Hn. rewrite f64_le_value in Hn by done. change (f64_value (f64_int 0)) with 0%Q in Hn.
  apply Qnot_le_lt in Hn. unfold f64_value, f64_finite in *. destruct (proj1_sig x) as [| | |[] m e] eqn:E; try done.
  assert (nonpositive (S754_finite true m e)) as Hnp by done. apply sf_value_nonpositive in Hnp. exfalso. by apply Qle_not_lt in Hnp.
Qed.

Lemma f64_le_nonpositive x y : nonpositive (proj1_sig x) -> f64_le (f64_int 0) y = true -> f64_le x y = true.
Proof.
  intros Hx. pose proof (sf_value_nonpositive _ Hx) as Hv. unfold f64_le. cbn [num_of]. change (proj1_sig (f64_int 0)) with (S754_zero false).
  destruct (proj1_sig x) as [s|[]| |[] m e]; try done; destruct (proj1_sig y) as [s'|[]| |s' m' e']; try done; cbn [num_le];
    rewrite ?Qle_bool_iff; intros Hy; first [done|by eapply Qle_trans].
Qed.

(** *** Relative change *)

Lemma sf_results_valid a b : valid_binary 53 1024 (sf_mul a b) = true /\ valid_binary 53 1024 (sf_div a b) = true /\
  valid_binary 53 1024 (sf_sub a b) = true.
Proof.
  unfold sf_mul, sf_div, sf_sub. split_and!; destruct a as [?|?| |? ? ?], b as [?|?| |? ? ?]; try (by apply round_exact_valid); try done.
  by destruct (Bool.eqb _ _).
Qed.

Lemma f64_ops_proj x y : proj1_sig (f64_mul x y) = sf_mul (proj1_sig x) (proj1_sig y) /\
  proj1_sig (f64_div x y) = sf_div (proj1_sig x) (proj1_sig y) /\ proj1_sig (f64_sub x y) = sf_sub (proj1_sig x) (proj1_sig y).
Proof. split_and!; apply f64_of_valid, sf_results_valid. Qed.

(** The change of [o] in relation to [b], in percent. *)
Definition f64_change (o b : f64) : f64 := f64_div (f64_mul (f64_int 100) (f64_sub o b)) b.

(** What does not exceed the base has a change of at most zero. *)
Lemma change_nonpositive o b : f64_finite o = true -> f64_finite b = true -> f64_lt (f64_int 0) b = true -> f64_le o b = true ->
  nonpositive (proj1_sig (f64_change o b)).
Proof.
  intros Ho Hb Hpos%f64_positive Hle; [|done]. apply f64_le_value in Hle; [|done..].
  unfold f64_change. destruct (f64_ops_proj (f64_mul (f64_int 100) (f64_sub o b)) b) as (_ & -> & _).
  destruct (f64_ops_proj (f64_int 100) (f64_sub o b)) as (-> & _). destruct (f64_ops_proj o b) as (_ & _ & ->).
  apply sf_div_nonpositive; [|done]. apply sf_mul_nonpositive; [by vm_compute|]. by apply sf_sub_nonpositive.
Qed.

(** A ratio of whole numbers, rounded, is on the same side of a whole number of
    at most 200 as the exact one, for a denominator below 2 ** 45. *)
Lemma ratio_le n t k s q : 0 < n -> 0 < t < 2 ^ 45 -> 0 <= k <= 200 -> (q == inject_Z n / inject_Z t)%Q ->
  (q < Qpower (inject_Z 2) 1023)%Q ->
  sf_finite (round_exact s q) = true /\ ((sf_fraction (round_exact s q) <= inject_Z k)%Q <-> n <= k * t).
Proof.
  intros Hn Ht Hk Hq Hv.
  assert (0 < inject_Z t)%Q as Htq by (change 0%Q with (inject_Z 0); rewrite <- Zlt_Qlt; lia).
  assert (~ inject_Z t == 0)%Q as Ht0 by (intros E; rewrite E in Htq; by apply Qlt_irrefl in Htq).
  assert (q * inject_Z t == inject_Z n)%Q as Hm by (rewrite Hq; by field).
  assert (forall x : Z, (q <= inject_Z x)%Q <-> n <= x * t) as Hle.
  { intros x. rewrite (Zle_Qle n), inject_Z_mult, <- Hm. symmetry. by apply Qmult_le_r. }
  assert (forall x : Z, (inject_Z x <= q)%Q <-> x * t <= n) as Hge.
  { intros x. rewrite (Zle_Qle (x * t)), inject_Z_mult, <- Hm. symmetry. by apply Qmult_le_r. }
  assert (0 < q)%Q as Hpos.
  { apply (Qmult_lt_r _ _ (inject_Z t) Htq). rewrite Hm, Qmult_0_l. change 0%Q with (inject_Z 0). rewrite <- Zlt_Qlt. lia. }
  destruct (round_exact_pos s q Hpos Hv) as (Hf & Hb & Herr). split; [done|]. set (r := sf_fraction (round_exact s q)) in *. split.
  - intros Hr. destruct (Z.le_gt_cases n (k * t)) as [|Hgt]; [done|exfalso].
    destruct (Z.le_gt_cases ((k + 1) * t) n) as [Hbig|Hnear].
    + assert (inject_Z (k + 1) <= r)%Q as Hr' by (apply (Hb (k + 1) ltac:(lia)), Hge, Hbig).
      assert (inject_Z (k + 1) <= inject_Z k)%Q as Hbad by (by eapply Qle_trans). rewrite <- Zle_Qle in Hbad. lia.
    + assert (inject_Z k + / inject_Z t <= q)%Q as Hgap.
      { apply (Qmult_le_r _ _ (inject_Z t) Htq). rewrite Hm.
        assert ((inject_Z k + / inject_Z t) * inject_Z t == inject_Z (k * t + 1))%Q as ->.
        { rewrite inject_Z_plus, inject_Z_mult. by field. }
        rewrite <- Zle_Qle. lia. }
      assert (q <= inject_Z (k + 1))%Q as Hup by (apply Hle; lia).
      assert (q <= 201 # 1)%Q as Hup' by (eapply Qle_trans; [exact Hup|]; change (201 # 1)%Q with (inject_Z 201); rewrite <- Zle_Qle; lia).
      assert (1 # 35184372088832 <= / inject_Z t)%Q as Hinv.
      { apply (Qmult_le_r _ _ (inject_Z t) Htq). rewrite (Qmult_comm (/ _)), Qmult_inv_r by done. unfold Qle, inject_Z. cbn. lia. }
      apply Qabs_Qle_condition in Herr as [Herr _].
      assert (q * Qpower (inject_Z 2) (-53) <= (201 # 1) * (1 # 9007199254740992))%Q as Hrel.
      { change (Qpower (inject_Z 2) (-53)) with (1 # 9007199254740992)%Q. by apply Qmult_le_compat_r. }
      assert (Qpower (inject_Z 2) (-1075) <= 1 # 9007199254740992)%Q as Htiny.
      { change (1 # 9007199254740992)%Q with (Qpower (inject_Z 2) (-53)). apply qpow_mono; lia. }
      lra.
  - intros Hnk. destruct (Z.eq_dec k 0) as [->|Hk0]; [lia|]. apply (Hb k ltac:(lia)), Hle, Hnk.
Qed.

(** For whole numbers the change compares with a whole threshold as the exact
    one does. *)
Lemma change_exact o b k : 0 <= o < 2 ^ 45 -> 0 < b < 2 ^ 45 -> 0 <= k <= 200 ->
  f64_le (f64_change (f64_int o) (f64_int b)) (f64_int k) = true <-> 100 * (o - b) <= k * b.
Proof.
  intros Ho Hb Hk. destruct (f64_int_exact o ltac:(lia)) as [Fo Vo], (f64_int_exact b ltac:(lia)) as [Fb Vb],
    (f64_int_exact k ltac:(lia)) as [Fk Vk].
  destruct (Z.le_gt_cases o b) as [Hle|Hgt].
  { split; [nia|]. intros _. apply f64_le_nonpositive.
    - apply change_nonpositive; try done.
      + unfold f64_lt. rewrite andb_true_iff, negb_true_iff, <- not_true_iff_false, !f64_le_value by done.
        rewrite Vb. change (f64_value (f64_int 0)) with (inject_Z 0). rewrite <- !Zle_Qle. lia.
      + rewrite f64_le_value by done. rewrite Vo, Vb, <- Zle_Qle. lia.
    - rewrite f64_le_value by done. rewrite Vk. change (f64_value (f64_int 0)) with (inject_Z 0). rewrite <- Zle_Qle. lia. }
  unfold f64_change. destruct (f64_ops_proj (f64_int o) (f64_int b)) as (_ & _ & Hs).
  rewrite (sf_sub_finite (proj1_sig (f64_int o)) (proj1_sig (f64_int b)) Fo Fb) in Hs.
  destruct (round_integer (sf_sign (proj1_sig (f64_int o)) && negb (sf_sign (proj1_sig (f64_int b))))
    (sf_fraction (proj1_sig (f64_int o)) - sf_fraction (proj1_sig (f64_int b))) (o - b) ltac:(lia)) as [Fd Vd].
  { unfold f64_value in Vo, Vb. rewrite Vo, Vb. unfold Z.sub. by rewrite inject_Z_plus, inject_Z_opp. }
  rewrite <- Hs in Fd, Vd. set (d := f64_sub (f64_int o) (f64_int b)) in *. clearbody d. clear Hs.
  destruct (f64_int_exact 100 ltac:(lia)) as [Fh Vh]. destruct (f64_ops_proj (f64_int 100) d) as (Hm & _).
  rewrite (sf_mul_finite _ _ Fh Fd) in Hm.
  destruct (round_integer (xorb (sf_sign (proj1_sig (f64_int 100))) (sf_sign (proj1_sig d)))
    (sf_fraction (proj1_sig (f64_int 100)) * sf_fraction (proj1_sig d)) (100 * (o - b)) ltac:(lia)) as [Fm Vm].
  { unfold f64_value in Vh. by rewrite Vh, Vd, <- inject_Z_mult. }
  rewrite <- Hm in Fm, Vm. set (m := f64_mul (f64_int 100) d) in *. clearbody m. clear Hm.
  destruct (f64_ops_proj m (f64_int b)) as (_ & Hd & _). rewrite (sf_div_finite _ _ Fm Fb) in Hd.
  destruct (ratio_le (100 * (o - b)) b k (xorb (sf_sign (proj1_sig m)) (sf_sign (proj1_sig (f64_int b))))
    (sf_fraction (proj1_sig m) / sf_fraction (proj1_sig (f64_int b)))) as [Ff Hiff]; try lia.
  - unfold f64_value in Vb. by rewrite Vm, Vb.
  - unfold f64_value in Vb. rewrite Vm, Vb. apply small_pow. apply Qle_shift_div_r.
    + change 0%Q with (inject_Z 0). rewrite <- Zlt_Qlt. lia.
    + rewrite <- inject_Z_mult, <- Zle_Qle. nia.
  - rewrite <- Hd in Ff, Hiff. rewrite f64_le_value by done. rewrite Vk. exact Hiff.
Qed.
