(* ===== verification/Did.v ===== *)
(** The difference-in-differences estimator (measurement/did.py): four cells of
    repeated observations per signal, exact rational arithmetic inside, one
    rounding at the output.

    A float is binary64 and [Fraction(raw).limit_denominator(10**12)] is
    computed on its exact value.  [_compute_signal]'s loop over the four cells
    is [scan_cell] mapped over [_CELL_NAMES]; what it accumulates is read off
    the four scans. *)

From Stdlib Require Import SpecFloat QArith Qabs Qreduction Qpower Lqa.
From stdpp Require Import gmap sorting.
From S2P Require Import Prelude PyStr PyVal PyTime Rational.
Local Open Scope Z_scope.

Definition ROUNDING_DECIMAL_PLACES : Z := 10.
Definition MAGNITUDE_LIMIT : Z := 10 ^ 18.
Definition _DECIMAL_PRECISION : Z := 60.

Inductive CellName := baseline_treatment | post_treatment | baseline_control | post_control.

#[export] Instance CellName_eq_dec : EqDecision CellName.
Proof. solve_decision. Defined.

Definition _CELL_NAMES : list CellName := [baseline_treatment; post_treatment; baseline_control; post_control].

Definition cell_key (c : CellName) : pystr :=
  match c with
  | baseline_treatment => u"baseline_treatment" | post_treatment => u"post_treatment"
  | baseline_control => u"baseline_control" | post_control => u"post_control"
  end.

(** [_round]: 60 significant digits, then ten decimal places, then binary64;
    a coefficient of more than 60 digits is an [InvalidOperation].  Zero has
    no sign, a negative number that rounds to zero keeps its own. *)
Definition round_magnitude (neg : bool) (n d : Z) : result pyexn f64 :=
  let q := decimal_quantize ROUNDING_DECIMAL_PLACES (decimal_div _DECIMAL_PRECISION n d) in
  _ ← raise_if (10 ^ _DECIMAL_PRECISION <=? q) InvalidOperation;
  Ok (f64_of (nearest_f64 neg q (10 ^ ROUNDING_DECIMAL_PLACES))).

Definition _round (value : Q) : result pyexn f64 :=
  let value := Qred value in
  match Qnum value with
  | Z0 => Ok (f64_of (S754_zero false))
  | Zpos n => round_magnitude false (Zpos n) (Zpos (Qden value))
  | Zneg n => round_magnitude true (Zpos n) (Zpos (Qden value))
  end.

Inductive InsufficiencyCode :=
  | MISSING_BASELINE | MISSING_CONTROL | MISSING_POST | INSUFFICIENT_REPEATS | NON_FINITE_VALUE
  | NON_REPRESENTABLE_MAGNITUDE | DUPLICATE_OBSERVATION_CONFLICT.

#[export] Instance InsufficiencyCode_eq_dec : EqDecision InsufficiencyCode.
Proof. solve_decision. Defined.

Definition code_value (c : InsufficiencyCode) : pystr :=
  match c with
  | MISSING_BASELINE => u"missing_baseline" | MISSING_CONTROL => u"missing_control"
  | MISSING_POST => u"missing_post" | INSUFFICIENT_REPEATS => u"insufficient_repeats"
  | NON_FINITE_VALUE => u"non_finite_value"
  | NON_REPRESENTABLE_MAGNITUDE => u"non_representable_magnitude"
  | DUPLICATE_OBSERVATION_CONFLICT => u"duplicate_observation_conflict"
  end.

(** [DiDPolicy]; its fields are constrained by [min_repeats > 0],
    [effect_threshold >= 0.0] and the closed vocabulary of labels. *)
Inductive PolicyProvenance := production | test_fixture.

Definition provenance_text (p : PolicyProvenance) : pystr :=
  match p with production => u"production" | test_fixture => u"test_fixture" end.

Record DiDPolicy := { min_repeats : Z; effect_threshold : f64; provenance : PolicyProvenance }.

Definition DiDPolicy_constraints (p : DiDPolicy) : Prop :=
  0 < min_repeats p /\ (0 <= sf_fraction (proj1_sig (effect_threshold p)))%Q.

Record CellObservation := {
  repeat_values : list f64; timestamps : list datetime; observation_ids : option (list pystr)
}.

(** The [min_length=1] of the fields and [_lengths_match]. *)
Definition make_CellObservation (c : CellObservation) : result pyexn CellObservation :=
  _ ← raise_if (bool_decide (repeat_values c = [])) ValueError;
  _ ← raise_if (match timestamps c with [] => true | _ => false end) ValueError;
  _ ← raise_if (negb (bool_decide (length (repeat_values c) = length (timestamps c)))) ValueError;
  _ ← raise_if (match observation_ids c with
                | Some ids => negb (bool_decide (length ids = length (repeat_values c)))
                | None => false end) ValueError;
  Ok c.

Record SignalSeries := {
  layer : pystr; metric_id : pystr; evidence_basis_id : pystr;
  cells : CellName -> option CellObservation
}.

Record SignalDiD := {
  sd_layer : pystr; sd_metric_id : pystr; sd_evidence_basis_id : pystr;
  treatment_raw_delta : option f64; control_raw_delta : option f64; net_of_control_lift : option f64;
  sample_counts : list (CellName * Z);
  insufficient : bool; insufficiency_codes : list InsufficiencyCode;
  late_observation : bool; excluded_late_count : Z;
  sign_stable_under_leave_one_out : option bool; min_detectable_margin : option f64;
  meets_effect_threshold : option bool
}.

Record DiDResult := { signals : list SignalDiD; policy_provenance : pystr }.

(** ** Deduplication and admission *)

(** [zip(..., strict=True)] *)
Definition zip_strict {A B} (l : list A) (k : list B) : result pyexn (list (A * B)) :=
  _ ← raise_if (negb (bool_decide (length l = length k))) ValueError; Ok (zip l k).

(** [(value.hex(), ts)] compared: [hex] tells every float apart by its bits,
    and has one text for NaN. *)
Definition content_eq (a b : f64 * datetime) : bool := bool_decide (a.1 = b.1) && datetime_eq a.2 b.2.

Record dedupe_state := { seen : gmap pystr (f64 * datetime); unique : list (f64 * datetime); conflict : bool }.

Definition dedupe_step (s : dedupe_state) (o : pystr * (f64 * datetime)) : dedupe_state :=
  match seen s !! o.1 with
  | Some c => {| seen := seen s; unique := unique s; conflict := conflict s || negb (content_eq c o.2) |}
  | None => {| seen := <[o.1 := o.2]> (seen s); unique := unique s ++ [o.2]; conflict := conflict s |}
  end.

Definition dedupe (l : list (pystr * (f64 * datetime))) : dedupe_state :=
  fold_left dedupe_step l {| seen := ∅; unique := []; conflict := false |}.

Definition _dedupe_repeats (c : CellObservation) : result pyexn (list (f64 * datetime) * bool) :=
  pairs ← zip_strict (repeat_values c) (timestamps c);
  match observation_ids c with
  | None => Ok (pairs, false)
  | Some ids =>
      observations ← zip_strict ids pairs;
      let s := dedupe observations in Ok (unique s, conflict s)
  end.

(** What happens to one repeat. *)
Inductive admission := Usable (q : Q) | Late | Non_finite | Non_representable.

Definition magnitude (f : f64) : Q := Qabs (sf_fraction (proj1_sig f)).

Definition bounded_repr (q : Q) : Q := limit_denominator (10 ^ 12) q.

Definition admit_repeat (window_start window_end : option datetime) (o : f64 * datetime) : result pyexn admission :=
  if negb (is_finite_f64 o.1) then Ok Non_finite
  else if Qle_bool (inject_Z MAGNITUDE_LIMIT) (magnitude o.1) then Ok Non_representable
  else
    early ← match window_start with Some s => datetime_lt o.2 s | None => Ok false end;
    if early : bool then Ok Late
    else
      late ← match window_end with Some e => datetime_gt o.2 e | None => Ok false end;
      if late : bool then Ok Late
      else Ok (Usable (bounded_repr (sf_fraction (proj1_sig o.1)))).

Definition usable_value (a : admission) : option Q := match a with Usable q => Some q | _ => None end.
Definition is_late (a : admission) : bool := match a with Late => true | _ => false end.
Definition is_non_finite (a : admission) : bool := match a with Non_finite => true | _ => false end.
Definition is_non_representable (a : admission) : bool := match a with Non_representable => true | _ => false end.

Record partition := { values : list Q; late_count : Z; any_non_finite : bool; any_non_representable : bool }.

Definition partition_of (l : list admission) : partition :=
  {| values := omap usable_value l; late_count := Z.of_nat (length (List.filter is_late l));
     any_non_finite := existsb is_non_finite l; any_non_representable := existsb is_non_representable l |}.

Definition _partition_in_window (pairs : list (f64 * datetime)) (window_start window_end : option datetime)
    : result pyexn partition :=
  l ← mapM (admit_repeat window_start window_end) pairs; Ok (partition_of l).

(** ** One signal *)

Definition sum_Q (l : list Q) : Q := fold_left Qplus l 0%Q.

(** [_mean] of a non-empty list. *)
Definition _mean (l : list Q) : Q := (sum_Q l / inject_Z (Z.of_nat (length l)))%Q.

Definition _sign (q : Q) : Z := match (q ?= 0)%Q with Lt => -1 | Eq => 0 | Gt => 1 end.

Definition _arm_delta (post baseline : option Q) : option Q :=
  match post, baseline with Some p, Some b => Some (p - b)%Q | _, _ => None end.

(** [_leave_one_out_sign_stable]: the other three means are held. *)
Definition drop_nth {A} (i : nat) (l : list A) : list A := firstn i l ++ skipn (S i) l.

Definition replace_mean (means : CellName -> option Q) (name : CellName) (q : Q) : CellName -> option Q :=
  fun c => if decide (c = name) then Some q else means c.

Definition net_of (means : CellName -> option Q) : option Q :=
  match _arm_delta (means post_treatment) (means baseline_treatment),
        _arm_delta (means post_control) (means baseline_control) with
  | Some t, Some c => Some (t - c)%Q
  | _, _ => None
  end.

Definition _leave_one_out_sign_stable (vals : CellName -> list Q) (means : CellName -> option Q) (full_net : Q) : bool :=
  forallb (fun name =>
    let l := vals name in
    (length l <=? 1)%nat ||
    forallb (fun i =>
      match net_of (replace_mean means name (_mean (drop_nth i l))) with
      | Some net => _sign net =? _sign full_net
      | None => true
      end) (seq 0 (length l))) _CELL_NAMES.

(** What the loop of [_compute_signal] learns of one cell. *)
Record cell_scan := { sc_values : list Q; sc_late : Z; sc_non_finite : bool; sc_non_representable : bool;
                      sc_conflict : bool; sc_present : bool }.

Definition absent_cell : cell_scan :=
  {| sc_values := []; sc_late := 0; sc_non_finite := false; sc_non_representable := false;
     sc_conflict := false; sc_present := false |}.

Definition scan_cell (series : SignalSeries) (window_start window_end : option datetime) (name : CellName)
    : result pyexn cell_scan :=
  match cells series name with
  | None => Ok absent_cell
  | Some cell =>
      dc ← _dedupe_repeats cell;
      p ← _partition_in_window dc.1 window_start window_end;
      Ok {| sc_values := values p; sc_late := late_count p; sc_non_finite := any_non_finite p;
            sc_non_representable := any_non_representable p; sc_conflict := dc.2; sc_present := true |}
  end.

Definition cell_mean (s : cell_scan) : option Q :=
  match sc_values s with [] => None | l => Some (_mean l) end.

Definition too_few (policy : DiDPolicy) (s : cell_scan) : bool :=
  sc_present s && (Z.of_nat (length (sc_values s)) <? min_repeats policy).

(** [tuple(dict.fromkeys(codes))] *)
Definition fromkeys {A} `{EqDecision A} (l : list A) : list A :=
  fold_left (fun acc x => if decide (x ∈ acc) then acc else acc ++ [x]) l [].

Definition is_none {A} (o : option A) : bool := match o with None => true | _ => false end.

(** The codes in the order they are appended. *)
Definition raw_codes (policy : DiDPolicy) (series : SignalSeries) (scans : list cell_scan) : list InsufficiencyCode :=
  let missing := fun name => is_none (cells series name) in
  let when (b : bool) code := if b then [code] else [] in
  concat (map (fun s => when (too_few policy s) INSUFFICIENT_REPEATS) scans)
  ++ when (missing baseline_treatment) MISSING_BASELINE
  ++ when (missing baseline_control || missing post_control) MISSING_CONTROL
  ++ when (missing post_treatment || missing post_control) MISSING_POST
  ++ when (existsb sc_non_finite scans) NON_FINITE_VALUE
  ++ when (existsb sc_non_representable scans) NON_REPRESENTABLE_MAGNITUDE
  ++ when (existsb sc_conflict scans) DUPLICATE_OBSERVATION_CONFLICT.

(** [d[name]] of the dicts the loop fills in the order of [_CELL_NAMES]. *)
Definition by_name (scans : list cell_scan) (name : CellName) : cell_scan :=
  match name with
  | baseline_treatment => nth 0 scans absent_cell | post_treatment => nth 1 scans absent_cell
  | baseline_control => nth 2 scans absent_cell | post_control => nth 3 scans absent_cell
  end.

(** [_round(x) if x is not None else None] *)
Definition round_opt (o : option Q) : result pyexn (option f64) :=
  match o with Some q => r ← _round q; Ok (Some r) | None => Ok None end.

Definition _compute_signal (series : SignalSeries) (policy : DiDPolicy) (window_start window_end : option datetime)
    : result pyexn SignalDiD :=
  scans ← mapM (scan_cell series window_start window_end) _CELL_NAMES;
  let ordered_codes := fromkeys (raw_codes policy series scans) in
  let insufficient := negb (bool_decide (ordered_codes = [])) in
  let total_late := foldr Z.add 0 (map sc_late scans) in
  let means := fun name => cell_mean (by_name scans name) in
  let in_window_values := fun name => sc_values (by_name scans name) in
  let treatment_delta := _arm_delta (means post_treatment) (means baseline_treatment) in
  let control_delta := _arm_delta (means post_control) (means baseline_control) in
  let net := net_of means in
  power ←
    match net with
    | Some net =>
        if insufficient then Ok None
        else
          threshold ← Fraction_of_float (effect_threshold policy);
          let threshold := bounded_repr threshold in
          margin ← _round (Qabs net - threshold)%Q;
          Ok (Some (_leave_one_out_sign_stable in_window_values means net, margin, Qle_bool threshold (Qabs net)))
    | None => Ok None
    end;
  treatment_delta_f ← round_opt treatment_delta;
  control_delta_f ← round_opt control_delta;
  net_f ← round_opt net;
  Ok {| sd_layer := layer series; sd_metric_id := metric_id series; sd_evidence_basis_id := evidence_basis_id series;
        treatment_raw_delta := treatment_delta_f; control_raw_delta := control_delta_f;
        net_of_control_lift := net_f;
        sample_counts := zip _CELL_NAMES (map (fun s => Z.of_nat (length (sc_values s))) scans);
        insufficient := insufficient; insufficiency_codes := ordered_codes;
        late_observation := 0 <? total_late; excluded_late_count := total_late;
        sign_stable_under_leave_one_out := (fun p => p.1.1) <$> power;
        min_detectable_margin := (fun p => p.1.2) <$> power;
        meets_effect_threshold := snd <$> power |}.

Definition compute_did (series : list SignalSeries) (policy : DiDPolicy) (window_start window_end : option datetime)
    : result pyexn DiDResult :=
  computed ← mapM (fun s => _compute_signal s policy window_start window_end) series;
  Ok {| signals := computed; policy_provenance := provenance_text (provenance policy) |}.

(** ** The canonical text *)

(** [model_dump(mode="json")]; the two views repeat the deltas. *)
Definition dump_float (o : option f64) : pyval := match o with Some f => PFloat f | None => PNone end.
Definition dump_bool (o : option bool) : pyval := match o with Some b => PBool b | None => PNone end.

Definition model_dump (s : SignalDiD) : pyval :=
  PDict [(u"layer", PStr (sd_layer s)); (u"metric_id", PStr (sd_metric_id s));
         (u"evidence_basis_id", PStr (sd_evidence_basis_id s));
         (u"treatment_raw_delta", dump_float (treatment_raw_delta s));
         (u"control_raw_delta", dump_float (control_raw_delta s));
         (u"net_of_control_lift", dump_float (net_of_control_lift s));
         (u"raw_view", PDict [(u"treatment_delta", dump_float (treatment_raw_delta s));
                              (u"control_delta", dump_float (control_raw_delta s))]);
         (u"adjusted_view", PDict [(u"net_of_control_lift", dump_float (net_of_control_lift s))]);
         (u"sample_counts", PDict (map (fun kv => (cell_key kv.1, PInt kv.2)) (sample_counts s)));
         (u"insufficient", PBool (insufficient s));
         (u"insufficiency_codes", PList (map (fun c => PStr (code_value c)) (insufficiency_codes s)));
         (u"late_observation", PBool (late_observation s));
         (u"excluded_late_count", PInt (excluded_late_count s));
         (u"sign_stable_under_leave_one_out", dump_bool (sign_stable_under_leave_one_out s));
         (u"min_detectable_margin", dump_float (min_detectable_margin s));
         (u"meets_effect_threshold", dump_bool (meets_effect_threshold s))].

Definition identity (s : SignalDiD) : pystr * pystr * pystr := (sd_layer s, sd_metric_id s, sd_evidence_basis_id s).

(** Comparison of the key tuples. *)
Definition triple_leb (a b : pystr * pystr * pystr) : bool :=
  if decide (a.1.1 = b.1.1) then
    if decide (a.1.2 = b.1.2) then str_leb a.2 b.2 else str_leb a.1.2 b.1.2
  else str_leb a.1.1 b.1.1.

Definition identity_le (a b : SignalDiD) : Prop := triple_leb (identity a) (identity b) = true.
#[export] Instance identity_le_dec a b : Decision (identity_le a b).
Proof. unfold identity_le. apply _. Defined.

Definition result_canonical_json `{FloatRepr} (r : DiDResult) : result pyexn pystr :=
  json_dumps (PDict [(u"policy_provenance", PStr (policy_provenance r));
                      (u"signals", PList (map model_dump (stable_sort identity_le (signals r))))]).

(** ** Lemmas *)

(** *** Rounding *)

Lemma to_Q_red (v : Q) : (v == fraction (Qnum (Qred v)) (Zpos (Qden (Qred v))))%Q.
Proof. unfold fraction. rewrite Pos2Z.id, <- (Qred_correct v) at 1. by destruct (Qred v). Qed.

Definition ten : Q := inject_Z 10.

(** [eval_pow q] replaces a closed rational by its value. *)
Ltac eval_pow q := let r := eval vm_compute in q in change q with r in *.

Lemma round_magnitude_spec neg n d :
  0 < n -> 0 < d -> (fraction n d <= Qpower ten 49)%Q ->
  exists f, round_magnitude neg n d = Ok f /\ is_finite_f64 f = true /\
    (Qabs (sf_fraction (proj1_sig f) - (if neg then - fraction n d else fraction n d))
     <= (51 # 1000000000000) + fraction n d * Qpower (inject_Z 2) (-52))%Q.
Proof.
  intros Hn Hd Hmax. unfold round_magnitude.
  pose proof (decimal_div_spec _DECIMAL_PRECISION n d ltac:(unfold _DECIMAL_PRECISION; lia) Hn Hd) as Hdiv.
  destruct (decimal_div _DECIMAL_PRECISION n d) as [c e]. destruct Hdiv as [Hc Hbig].
  pose proof (decimal_quantize_spec ROUNDING_DECIMAL_PLACES c e) as Hq. cbv zeta in Hq.
  set (q := decimal_quantize ROUNDING_DECIMAL_PLACES (c, e)) in *. clearbody q.
  set (v := fraction n d) in *. pose proof (fraction_pos n d Hn) as Hv. fold v in Hv.
  (* the exponents, in units of the quantum *)
  fold ten in Hq, Hc, Hbig.
  unfold ROUNDING_DECIMAL_PLACES, _DECIMAL_PRECISION in *.
  assert (0 < Qpower ten e)%Q as Hpe by (apply qpow_pos; lia).
  assert (Qpower ten (60 - 1 + e) == Qpower ten 59 * Qpower ten e)%Q as H59 by (apply qpow_add; lia).
  assert (Qpower ten (e + 10) == Qpower ten e * Qpower ten 10)%Q as H10 by (apply qpow_add; lia).
  rewrite H59 in Hbig. rewrite H10 in Hq. clear H59 H10.
  set (t := (inject_Z c * Qpower ten e)%Q) in *.
  assert (inject_Z c * (Qpower ten e * Qpower ten 10) == t * Qpower ten 10)%Q as Ht by (unfold t; ring).
  rewrite Ht in Hq. clear Ht. clearbody t. 
  eval_pow (Qpower ten 10). eval_pow (Qpower ten 49). eval_pow (Qpower ten 59).
  set (p := Qpower ten e) in *. clearbody p.
  apply Qabs_Qle_condition in Hc as [Hc1 Hc2]. apply Qabs_Qle_condition in Hq as [Hq1 Hq2].
  assert (0 <= inject_Z q + (1 # 2))%Q as Hq0 by lra.
  assert (0 <= q) as Hq0'.
  { unfold Qle, inject_Z, Qplus in Hq0. cbn in Hq0. lia. }
  assert (inject_Z q < inject_Z (10 ^ 60))%Q as Hq60 by (rewrite qpow_Z by lia; fold ten; eval_pow (Qpower ten 60); lra).
  rewrite <- Zlt_Qlt in Hq60. rewrite (proj2 (Z.leb_gt _ _) Hq60). cbn [raise_if].
  eexists. split; [reflexivity|].
  destruct (nearest_f64_spec neg q (10 ^ 10) Hq0' ltac:(lia)) as [Hvalid Hnear].
  rewrite (f64_of_valid _ Hvalid).
  set (w := fraction q (10 ^ 10)) in *.
  assert (w == inject_Z q * (1 # 10000000000))%Q as Hw.
  { unfold w, fraction, Qeq, inject_Z, Qmult. cbn. lia. }
  assert (10 ^ 51 # 1 < Qpower (inject_Z 2) 1023)%Q as H1023 by (vm_compute; reflexivity).
  assert (Qpower (inject_Z 2) (-1075) <= 1 # 10000000000000)%Q as H1075 by (vm_compute; discriminate).
  eval_pow (10 ^ 51 # 1)%Q.
  destruct Hnear as [Hfin Herr].
  { eapply Qlt_trans; [|exact H1023]. clearbody w. lra. }
  split; [unfold is_finite_f64; rewrite (f64_of_valid _ Hvalid); exact Hfin|].
  set (tiny := Qpower (inject_Z 2) (-1075)) in *. clearbody tiny.
  eval_pow (Qpower (inject_Z 2) (-53)). eval_pow (Qpower (inject_Z 2) (-52)).
  apply Qabs_Qle_condition in Herr as [He1 He2]. apply Qabs_Qle_condition. clearbody w v.
  destruct neg; split; lra.
Qed.

(** [_round] answers every number of reasonable size, within half a unit of
    the tenth decimal place (and the rounding of binary64). *)
Lemma _round_spec v :
  (Qabs v <= Qpower ten 49)%Q ->
  exists f, _round v = Ok f /\ is_finite_f64 f = true /\
    (Qabs (sf_fraction (proj1_sig f) - v) <= (51 # 1000000000000) + Qabs v * Qpower (inject_Z 2) (-52))%Q.
Proof.
  intros Hv. unfold _round. pose proof (to_Q_red v) as Hred. cbv zeta.
  set (n := Qnum (Qred v)) in *. set (d := Zpos (Qden (Qred v))) in *. assert (0 < d) as Hd by done.
  assert (0 <= Qpower (inject_Z 2) (-52))%Q as Hp by (vm_compute; discriminate).
  destruct n as [|n|n]; clearbody d.
  - assert (v == 0)%Q as Hz by (rewrite Hred; unfold fraction, Qeq; cbn; lia).
    eexists. split; [reflexivity|]. split; [reflexivity|]. rewrite f64_of_valid by done. rewrite Hz. cbn. done.
  - assert (Qabs v == fraction (Zpos n) d)%Q as Ha.
    { rewrite Hred. apply Qabs_pos, Qlt_le_weak, fraction_pos. lia. }
    destruct (round_magnitude_spec false (Zpos n) d) as (f & -> & Hf & He); [lia|lia|by rewrite <- Ha|].
    exists f. split; [done|]. split; [done|]. rewrite Ha, Hred. exact He.
  - assert (v == - fraction (Zpos n) d)%Q as Hneg by (rewrite Hred; unfold fraction, Qeq; cbn; lia).
    assert (Qabs v == fraction (Zpos n) d)%Q as Ha.
    { rewrite Hneg, Qabs_opp. apply Qabs_pos, Qlt_le_weak, fraction_pos. lia. }
    destruct (round_magnitude_spec true (Zpos n) d) as (f & -> & Hf & He); [lia|lia|by rewrite <- Ha|].
    exists f. split; [done|]. split; [done|]. rewrite Ha, Hneg. exact He.
Qed.

(** *** Sizes *)

Definition admitted_bound : Q := inject_Z (2 * 10 ^ 18).

Lemma bounded_repr_le x : (Qabs (bounded_repr x) <= 2 * Qabs x)%Q.
Proof.
  destruct (limit_denominator_best (10 ^ 12) x) as [_ Hbest]; [lia|].
  specialize (Hbest 0 1%positive ltac:(lia)). fold (bounded_repr x) in Hbest.
  setoid_replace (x - (0 # 1))%Q with x using relation Qeq in Hbest by ring.
  pose proof (Qabs_triangle (bounded_repr x - x) x) as Ht.
  setoid_replace (bounded_repr x - x + x)%Q with (bounded_repr x) using relation Qeq in Ht by ring.
  rewrite (Qabs_Qminus (bounded_repr x) x) in Ht. lra.
Qed.

Lemma Qle_bool_false a b : Qle_bool a b = false -> (b < a)%Q.
Proof. intros Hf. apply Qnot_le_lt. rewrite <- Qle_bool_iff. congruence. Qed.

Lemma admit_usable ws we o q : admit_repeat ws we o = Ok (Usable q) ->
  is_finite_f64 o.1 = true /\ (magnitude o.1 < inject_Z MAGNITUDE_LIMIT)%Q /\
  q = bounded_repr (sf_fraction (proj1_sig o.1)).
Proof.
  unfold admit_repeat. destruct (is_finite_f64 o.1); [|done]. cbn [negb].
  destruct (Qle_bool _ _) eqn:Hm; [done|]. intros Ha. split; [done|]. split; [by apply Qle_bool_false|].
  apply bind_Ok in Ha as (early & _ & Ha). destruct early; [done|].
  apply bind_Ok in Ha as (late & _ & Ha). destruct late; [done|]. by injection Ha as <-.
Qed.

Lemma admit_bounded ws we o q : admit_repeat ws we o = Ok (Usable q) -> (Qabs q <= admitted_bound)%Q.
Proof.
  intros (_ & Hm & ->)%admit_usable. pose proof (bounded_repr_le (sf_fraction (proj1_sig o.1))) as Hb.
  unfold magnitude in Hm. unfold admitted_bound, MAGNITUDE_LIMIT in *.
  eval_pow (inject_Z (10 ^ 18)). eval_pow (inject_Z (2 * 10 ^ 18)). lra.
Qed.

Lemma fold_Qplus l : forall a, (fold_left Qplus l a == a + sum_Q l)%Q.
Proof.
  unfold sum_Q. induction l as [|q l IH]; intros a; cbn; [ring|]. rewrite IH, (IH (0 + q)%Q). ring.
Qed.

Lemma sum_Q_cons q l : (sum_Q (q :: l) == q + sum_Q l)%Q.
Proof. unfold sum_Q. cbn. rewrite fold_Qplus. unfold sum_Q. ring. Qed.

Lemma sum_Q_bounded B l : Forall (fun q => (Qabs q <= B)%Q) l -> (Qabs (sum_Q l) <= B * inject_Z (Z.of_nat (length l)))%Q.
Proof.
  induction 1 as [|q l Hq Hl IH]; [cbn; ring_simplify; apply Qle_refl|].
  rewrite sum_Q_cons. cbn [length]. rewrite Nat2Z.inj_succ, <- Z.add_1_r, inject_Z_plus.
  pose proof (Qabs_triangle q (sum_Q l)) as Ht. change (inject_Z 1) with 1%Q. lra.
Qed.

Lemma mean_bounded B l : l <> [] -> Forall (fun q => (Qabs q <= B)%Q) l -> (Qabs (_mean l) <= B)%Q.
Proof.
  intros Hl HB. pose proof (sum_Q_bounded B l HB) as Hs. unfold _mean, Qdiv.
  assert (0 < inject_Z (Z.of_nat (length l)))%Q as Hn.
  { change 0%Q with (inject_Z 0). rewrite <- Zlt_Qlt. destruct l; [done|cbn; lia]. }
  set (n := inject_Z _) in *. rewrite Qabs_Qmult, (Qabs_pos (/ n)) by (apply Qlt_le_weak; by apply Qinv_lt_0_compat).
  apply (Qmult_le_compat_r _ _ (/ n)) in Hs; [|apply Qlt_le_weak; by apply Qinv_lt_0_compat].
  rewrite <- Qmult_assoc, Qmult_inv_r, Qmult_1_r in Hs; [done|].
  intros H0. rewrite H0 in Hn. by apply Qlt_irrefl in Hn.
Qed.

(** *** One cell *)

Definition bounded_scan (s : cell_scan) : Prop := Forall (fun q => (Qabs q <= admitted_bound)%Q) (sc_values s).

Lemma cell_mean_bounded s q : bounded_scan s -> cell_mean s = Some q -> (Qabs q <= admitted_bound)%Q.
Proof.
  unfold cell_mean, bounded_scan. intros Hb. destruct (sc_values s) eqn:Hv; [done|]. intros [= <-].
  apply mean_bounded; [done|exact Hb].
Qed.

Lemma scan_cell_bounded series ws we name s : scan_cell series ws we name = Ok s -> bounded_scan s.
Proof.
  unfold scan_cell. destruct (cells series name) as [cell|]; [|intros [= <-]; constructor].
  intros (dc & _ & (p & Hp & [= <-])%bind_Ok)%bind_Ok. unfold _partition_in_window in Hp.
  apply bind_Ok in Hp as (l & Hl & [= <-]). unfold bounded_scan. cbn [sc_values values partition_of].
  apply Forall_forall. intros q (a & Ha & Hq)%list_elem_of_omap.
  apply mapM_Ok in Hl. apply list_elem_of_lookup in Ha as [i Hi].
  destruct (Forall2_lookup_r _ _ _ _ _ Hl Hi) as (o & _ & Ho). destruct a; try done. injection Hq as ->.
  by eapply admit_bounded.
Qed.

Definition wf_series (s : SignalSeries) : Prop :=
  forall name cell, cells s name = Some cell -> make_CellObservation cell = Ok cell.

Lemma datetime_cmp_total a b :
  match datetime_cmp a b with Ok _ => True | Raise e => e = TypeError /\ (is_naive a || is_naive b) = true end.
Proof. unfold datetime_cmp. destruct (_ || _); [done|]. by destruct (is_naive a || is_naive b). Qed.

(** Every timestamp and both ends of the window are aware. *)
Definition aware_opt (o : option datetime) : Prop := forall d, o = Some d -> is_naive d = false.
Definition aware_series (s : SignalSeries) : Prop :=
  forall name cell, cells s name = Some cell -> Forall (fun d => is_naive d = false) (timestamps cell).

Lemma admit_total ws we o :
  match admit_repeat ws we o with
  | Ok _ => True
  | Raise e => e = TypeError /\ ~ (is_naive o.2 = false /\ aware_opt ws /\ aware_opt we)
  end.
Proof.
  unfold admit_repeat. destruct (negb _); [done|]. destruct (Qle_bool _ _); [done|].
  assert (forall (w : option datetime) f, (forall x, f x = datetime_lt o.2 x) \/ (forall x, f x = datetime_gt o.2 x) ->
    match (match w with Some x => f x | None => Ok false end) with
    | Ok _ => True
    | Raise e => e = TypeError /\ ~ (is_naive o.2 = false /\ aware_opt w)
    end) as Hside.
  { intros [x|] f Hf; [|done]. unfold datetime_lt, datetime_gt in Hf. pose proof (datetime_cmp_total o.2 x) as Hc.
    assert (aware_opt (Some x) -> is_naive x = false) as Hx by (intros Ha; by apply Ha).
    destruct Hf as [-> | ->]; destruct (datetime_cmp o.2 x) as [c|e]; cbn; try done;
      destruct Hc as [-> Hc]; (split; [done|]); intros [Ho Hx']; rewrite Ho, (Hx Hx') in Hc; done. }
  pose proof (Hside ws _ (or_introl (fun x => eq_refl))) as Hw. pose proof (Hside we _ (or_intror (fun x => eq_refl))) as He.
  destruct (match ws with Some s => datetime_lt o.2 s | None => Ok false end) as [[]|e]; cbn; [done| |naive_solver].
  destruct (match we with Some s => datetime_gt o.2 s | None => Ok false end) as [[]|e]; cbn; naive_solver.
Qed.

Lemma zip_strict_Ok {A B} (l : list A) (k : list B) p :
  zip_strict l k = Ok p <-> length l = length k /\ p = zip l k.
Proof. unfold zip_strict. rewrite seq_Ok, raise_if_Ok. bprop. naive_solver. Qed.

Lemma make_CellObservation_Ok c c' : make_CellObservation c = Ok c' ->
  repeat_values c <> [] /\ length (repeat_values c) = length (timestamps c) /\
  forall ids, observation_ids c = Some ids -> length ids = length (repeat_values c).
Proof.
  unfold make_CellObservation. intros [H1 [_ [H3 [H4 _]%seq_Ok]%seq_Ok]%seq_Ok]%seq_Ok.
  rewrite raise_if_Ok in H1, H3, H4. bprop. split; [done|]. split; [done|].
  intros ids Hids. rewrite Hids in H4. by bprop.
Qed.

Lemma dedupe_snoc l o : dedupe (l ++ [o]) = dedupe_step (dedupe l) o.
Proof. unfold dedupe. by rewrite fold_left_app. Qed.

Lemma dedupe_unique_incl l o : o ∈ unique (dedupe l) -> o ∈ l.*2.
Proof.
  induction l as [|x l IH] using rev_ind; [by intros ?%elem_of_nil|].
  rewrite dedupe_snoc, fmap_app, elem_of_app. unfold dedupe_step.
  destruct (seen (dedupe l) !! x.1); cbn; [naive_solver|]. rewrite elem_of_app. naive_solver.
Qed.

Lemma dedupe_repeats_total c : make_CellObservation c = Ok c ->
  exists pairs b, _dedupe_repeats c = Ok (pairs, b) /\ forall o, o ∈ pairs -> o.2 ∈ timestamps c.
Proof.
  intros (_ & Hlen & Hids)%make_CellObservation_Ok. unfold _dedupe_repeats.
  assert (zip_strict (repeat_values c) (timestamps c) = Ok (zip (repeat_values c) (timestamps c))) as ->
    by by apply zip_strict_Ok.
  assert (forall o, o ∈ zip (repeat_values c) (timestamps c) -> o.2 ∈ timestamps c) as Hin.
  { intros [v t] Ho. by apply elem_of_zip_r in Ho. }
  cbn. destruct (observation_ids c) as [ids|]; [|eauto].
  assert (zip_strict ids (zip (repeat_values c) (timestamps c)) = Ok (zip ids (zip (repeat_values c) (timestamps c)))) as ->.
  { apply zip_strict_Ok. split; [|done]. rewrite length_zip_with, (Hids ids) by done. lia. }
  cbn. do 2 eexists. split; [done|]. intros o (x & -> & Hx)%dedupe_unique_incl%list_elem_of_fmap.
  apply Hin. destruct x as [i x]. by apply elem_of_zip_r in Hx.
Qed.

Lemma scan_cell_total series ws we name :
  wf_series series ->
  match scan_cell series ws we name with
  | Ok _ => True
  | Raise e => e = TypeError /\ ~ (aware_series series /\ aware_opt ws /\ aware_opt we)
  end.
Proof.
  intros Hwf. unfold scan_cell. destruct (cells series name) as [cell|] eqn:Hc; [|done].
  destruct (dedupe_repeats_total cell (Hwf name cell Hc)) as (pairs & b & -> & Hts). cbn.
  unfold _partition_in_window. destruct (mapM (admit_repeat ws we) pairs) as [l|e] eqn:Hm; cbn; [done|].
  destruct (mapM_Raise _ _ _ Hm) as (o & Ho & He). pose proof (admit_total ws we o) as Ht. rewrite He in Ht.
  destruct Ht as [-> Hn]. split; [done|]. intros (Ha & Hws & Hwe). apply Hn. split; [|done].
  specialize (Ha name cell Hc). rewrite Forall_forall in Ha. by apply Ha, Hts.
Qed.

(** *** The four scans *)

Lemma scans_Ok series ws we scans : mapM (scan_cell series ws we) _CELL_NAMES = Ok scans ->
  (forall name, scan_cell series ws we name = Ok (by_name scans name)) /\
  scans = map (by_name scans) _CELL_NAMES.
Proof.
  rewrite mapM_Ok. unfold _CELL_NAMES. intros Hs.
  inversion Hs as [|? a ? l1 Ha H1]; subst. inversion H1 as [|? b ? l2 Hb H2]; subst.
  inversion H2 as [|? c ? l3 Hc H3]; subst. inversion H3 as [|? d ? l4 Hd H4]; subst.
  inversion H4; subst. split; [by intros []|done].
Qed.

Definition scan_means (scans : list cell_scan) (name : CellName) : option Q := cell_mean (by_name scans name).

Lemma delta_bounded B p b q : (forall x, p = Some x -> (Qabs x <= B)%Q) -> (forall x, b = Some x -> (Qabs x <= B)%Q) ->
  _arm_delta p b = Some q -> (Qabs q <= 2 * B)%Q.
Proof.
  intros Hp Hb. destruct p as [p|], b as [b|]; cbn; try done. intros [= <-].
  specialize (Hp p eq_refl). specialize (Hb b eq_refl). unfold Qminus.
  pose proof (Qabs_triangle p (- b)) as Ht. rewrite Qabs_opp in Ht. lra.
Qed.

Lemma net_of_Some means q : net_of means = Some q <-> exists t c,
  _arm_delta (means post_treatment) (means baseline_treatment) = Some t /\
  _arm_delta (means post_control) (means baseline_control) = Some c /\ q = (t - c)%Q.
Proof. unfold net_of. destruct (_arm_delta _ _), (_arm_delta _ _); naive_solver. Qed.

Section bounded_means.
Context (means : CellName -> option Q) (Hm : forall name q, means name = Some q -> (Qabs q <= admitted_bound)%Q).

Lemma arm_bounded p b q : _arm_delta (means p) (means b) = Some q -> (Qabs q <= 2 * admitted_bound)%Q.
Proof. apply delta_bounded; eauto. Qed.

Lemma net_bounded q : net_of means = Some q -> (Qabs q <= 4 * admitted_bound)%Q.
Proof.
  intros (t & c & Ht & Hc & ->)%net_of_Some.
  apply arm_bounded in Ht, Hc. pose proof (delta_bounded (2 * admitted_bound) (Some t) (Some c) (t - c)%Q) as Hd.
  assert (Qabs (t - c) <= 2 * (2 * admitted_bound))%Q; [|lra].
  apply Hd; [by intros x [= <-]|by intros x [= <-]|done].
Qed.
End bounded_means.

Lemma round_small v : (Qabs v <= 4 * admitted_bound)%Q -> exists f, _round v = Ok f /\ is_finite_f64 f = true.
Proof.
  intros Hv. destruct (_round_spec v) as (f & ? & ? & _); [|by eauto]. eapply Qle_trans; [exact Hv|].
  vm_compute. discriminate.
Qed.

Lemma round_opt_small o : (forall q, o = Some q -> (Qabs q <= 4 * admitted_bound)%Q) -> exists r, round_opt o = Ok r.
Proof.
  intros Ho. destruct o as [q|]; cbn; [|by eauto].
  destruct (round_small q (Ho q eq_refl)) as (f & -> & _). by eauto.
Qed.

(** The thresholds a policy may use without making the estimator raise. *)
Definition threshold_ok (p : DiDPolicy) : Prop :=
  is_finite_f64 (effect_threshold p) = true /\
  (0 <= sf_fraction (proj1_sig (effect_threshold p)) <= Qpower ten 48)%Q.

Lemma finite_fraction f : is_finite_f64 f = true -> Fraction_of_float f = Ok (sf_fraction (proj1_sig f)).
Proof. unfold is_finite_f64, Fraction_of_float. by destruct (proj1_sig f). Qed.

Lemma signal_total series policy ws we :
  wf_series series -> threshold_ok policy ->
  match _compute_signal series policy ws we with
  | Ok _ => True
  | Raise e => e = TypeError /\ ~ (aware_series series /\ aware_opt ws /\ aware_opt we)
  end.
Proof.
  intros Hwf [Hfin Hthr]. unfold _compute_signal.
  destruct (mapM (scan_cell series ws we) _CELL_NAMES) as [scans|e] eqn:Hs; cbn [mbind result_bind].
  2: { destruct (mapM_Raise _ _ _ Hs) as (name & _ & He). pose proof (scan_cell_total series ws we name Hwf) as Ht.
       by rewrite He in Ht. }
  destruct (scans_Ok _ _ _ _ Hs) as [Hscan _]. fold (scan_means scans).
  assert (forall name q, scan_means scans name = Some q -> (Qabs q <= admitted_bound)%Q) as Hm.
  { intros name q. apply cell_mean_bounded. by eapply scan_cell_bounded. }
  assert (0 <= admitted_bound)%Q as Hpos by (vm_compute; discriminate).
  destruct (round_opt_small (_arm_delta (scan_means scans post_treatment) (scan_means scans baseline_treatment)))
    as [rt Hrt]; [intros q Hq; apply (arm_bounded _ Hm) in Hq; lra|].
  destruct (round_opt_small (_arm_delta (scan_means scans post_control) (scan_means scans baseline_control)))
    as [rc Hrc]; [intros q Hq; apply (arm_bounded _ Hm) in Hq; lra|].
  destruct (round_opt_small (net_of (scan_means scans))) as [rn Hrn]; [apply (net_bounded _ Hm)|].
  fold (scan_means scans post_treatment) (scan_means scans baseline_treatment)
       (scan_means scans post_control) (scan_means scans baseline_control).
  match goal with |- context [ ?m ≫= _ ] => assert (exists p, m = Ok p) as [p ->] end.
  { destruct (net_of _) as [net|] eqn:Hnet; [|by eauto]. case_if; [by eauto|].
    rewrite (finite_fraction _ Hfin). cbn [mbind result_bind].
    destruct (_round_spec (Qabs net - bounded_repr (sf_fraction (proj1_sig (effect_threshold policy))))%Q)
      as (f & -> & _); [|by eauto].
    apply (net_bounded _ Hm) in Hnet. pose proof (bounded_repr_le (sf_fraction (proj1_sig (effect_threshold policy)))) as Hb.
    rewrite (Qabs_pos (sf_fraction _)) in Hb by lra. set (T := bounded_repr _) in *.
    pose proof (Qabs_triangle (Qabs net) (- T)) as Ht. rewrite Qabs_opp, (Qabs_pos (Qabs net)) in Ht by apply Qabs_nonneg.
    unfold admitted_bound in *. eval_pow (Qpower ten 48). eval_pow (Qpower ten 49). eval_pow (inject_Z (2 * 10 ^ 18)).
    unfold Qminus. lra. }
  cbn [mbind result_bind]. rewrite Hrt. cbn [mbind result_bind]. rewrite Hrc. cbn [mbind result_bind].
  rewrite Hrn. done.
Qed.

(** *** Replayed observations *)

Lemma dedupe_app l k : dedupe (l ++ k) = fold_left dedupe_step k (dedupe l).
Proof. unfold dedupe. by rewrite fold_left_app. Qed.

Lemma content_eq_refl c : content_eq c c = true.
Proof.
  unfold content_eq, datetime_eq, datetime_cmp, same_tzinfo. rewrite !bool_decide_eq_true_2 by done. cbn.
  by rewrite Z.sub_diag.
Qed.

(** The first observation of an identity is what the others are compared to. *)
Definition first_of (l : list (pystr * (f64 * datetime))) (oid : pystr) : option (f64 * datetime) :=
  snd <$> head (filter (fun o => o.1 = oid) l).

Lemma first_of_snoc l o oid :
  first_of (l ++ [o]) oid = match first_of l oid with Some c => Some c | None => if decide (o.1 = oid) then Some o.2 else None end.
Proof.
  unfold first_of. rewrite filter_app, filter_cons, filter_nil. by destruct (filter _ l), (decide (o.1 = oid)).
Qed.

Lemma dedupe_seen l oid : seen (dedupe l) !! oid = first_of l oid.
Proof.
  induction l as [|o l IH] using rev_ind; [by unfold dedupe; cbn; rewrite lookup_empty|].
  rewrite dedupe_snoc, first_of_snoc, <- IH. unfold dedupe_step. destruct (seen (dedupe l) !! o.1) eqn:Ho; cbn.
  - destruct (seen (dedupe l) !! oid) eqn:Hoid; [done|]. case_decide; congruence.
  - destruct (decide (o.1 = oid)) as [<-|Hne]; [by rewrite lookup_insert_eq, Ho|].
    rewrite lookup_insert_ne by done. by destruct (seen (dedupe l) !! oid).
Qed.

Lemma dedupe_conflict l : conflict (dedupe l) = true <->
  exists o c, o ∈ l /\ first_of l o.1 = Some c /\ content_eq c o.2 = false.
Proof.
  induction l as [|o l IH] using rev_ind.
  { split; [done|]. by intros (o & c & Ho%elem_of_nil & _). }
  rewrite dedupe_snoc. unfold dedupe_step. rewrite dedupe_seen.
  assert (forall x, x ∈ l -> exists c, first_of l x.1 = Some c) as Hsome.
  { intros x Hx. unfold first_of. assert (x ∈ filter (fun o => o.1 = x.1) l) as Hf by by apply list_elem_of_filter.
    destruct (filter _ l); [by apply elem_of_nil in Hf|]. by eexists. }
  assert ((exists x c, x ∈ l ++ [o] /\ first_of (l ++ [o]) x.1 = Some c /\ content_eq c x.2 = false) <->
          conflict (dedupe l) = true \/ exists c, first_of l o.1 = Some c /\ content_eq c o.2 = false) as ->.
  { rewrite IH. split.
    - intros (x & c & [Hx|Hx%list_elem_of_singleton]%elem_of_app & Hc & He).
      + left. destruct (Hsome x Hx) as [c' Hc']. rewrite first_of_snoc, Hc' in Hc. injection Hc as ->. by eauto.
      + subst x. right. rewrite first_of_snoc in Hc. destruct (first_of l o.1) as [c'|]; [by eauto|].
        rewrite decide_True in Hc by done. injection Hc as <-. by rewrite content_eq_refl in He.
    - intros [(x & c & Hx & Hc & He)|(c & Hc & He)]; [exists x|exists o]; exists c; rewrite elem_of_app, first_of_snoc, Hc.
      + naive_solver.
      + split; [right; by left|done]. }
  destruct (first_of l o.1) as [c|] eqn:Hc; cbn; [|naive_solver].
  rewrite orb_true_iff, negb_true_iff. naive_solver.
Qed.

(** A replay of an earlier observation changes nothing. *)
Lemma dedupe_replay l o k : o ∈ l -> dedupe (l ++ o :: k) = dedupe (l ++ k).
Proof.
  intros Ho. rewrite !dedupe_app. cbn. f_equal. unfold dedupe_step. rewrite dedupe_seen.
  assert (first_of l o.1 = None -> False) as Hsome.
  { unfold first_of. assert (o ∈ filter (fun x => x.1 = o.1) l) as Hf by by apply list_elem_of_filter.
    destruct (filter _ l); [by apply elem_of_nil in Hf|done]. }
  destruct (first_of l o.1) as [c|] eqn:Hc; [|by destruct Hsome].
  assert (conflict (dedupe l) || negb (content_eq c o.2) = conflict (dedupe l)) as ->; [|by destruct (dedupe l)].
  destruct (content_eq c o.2) eqn:He; [by rewrite orb_false_r|]. rewrite orb_true_r. symmetry.
  apply dedupe_conflict. by eauto.
Qed.

(** A cell from its observations. *)
Definition cell_of (l : list (pystr * (f64 * datetime))) : CellObservation :=
  {| repeat_values := (fun o => o.2.1) <$> l; timestamps := (fun o => o.2.2) <$> l; observation_ids := Some l.*1 |}.

Definition set_cell (s : SignalSeries) (name : CellName) (c : CellObservation) : SignalSeries :=
  {| layer := layer s; metric_id := metric_id s; evidence_basis_id := evidence_basis_id s;
     cells := fun n => if decide (n = name) then Some c else cells s n |}.

Lemma dedupe_cell_of l : _dedupe_repeats (cell_of l) = Ok (unique (dedupe l), conflict (dedupe l)).
Proof.
  unfold _dedupe_repeats, cell_of. cbn [repeat_values timestamps observation_ids].
  assert (zip_strict ((fun o => o.2.1) <$> l) ((fun o => o.2.2) <$> l) = Ok l.*2) as ->.
  { apply zip_strict_Ok. rewrite !length_fmap. split; [done|]. clear. induction l as [|[i [v t]] l IH]; cbn; congruence. }
  cbn [mbind result_bind]. assert (zip_strict l.*1 l.*2 = Ok l) as ->; [|done].
  apply zip_strict_Ok. rewrite !length_fmap. split; [done|]. clear. induction l as [|[i v] l IH]; cbn; congruence.
Qed.

(** Two series that differ in cells scanned alike are reported alike. *)
Lemma signal_scan_ext s1 s2 policy ws we :
  layer s1 = layer s2 -> metric_id s1 = metric_id s2 -> evidence_basis_id s1 = evidence_basis_id s2 ->
  (forall name, is_none (cells s1 name) = is_none (cells s2 name)) ->
  (forall name, scan_cell s1 ws we name = scan_cell s2 ws we name) ->
  _compute_signal s1 policy ws we = _compute_signal s2 policy ws we.
Proof.
  intros Hl Hm He Hnone Hscan. unfold _compute_signal, _CELL_NAMES. cbn [mapM]. rewrite !Hscan.
  unfold raw_codes. rewrite !Hnone, Hl, Hm, He. done.
Qed.

(** *** The repeats that count

    Told by their positions in the cell, without the loop that finds them. *)

Definition repeat_at (c : CellObservation) (i : nat) (o : f64 * datetime) : Prop :=
  repeat_values c !! i = Some o.1 /\ timestamps c !! i = Some o.2.

Definition same_id (c : CellObservation) (i j : nat) : Prop :=
  exists ids oid, observation_ids c = Some ids /\ ids !! i = Some oid /\ ids !! j = Some oid.

(** No earlier repeat has the id of this one. *)
Definition first_repeat (c : CellObservation) (i : nat) : Prop := forall j, (j < i)%nat -> ~ same_id c j i.

Definition no_number (v : f64) : Prop := proj1_sig v = S754_nan \/ exists s, proj1_sig v = S754_infinity s.

Definition huge (v : f64) : Prop := ~ no_number v /\ (inject_Z (10 ^ 18) <= Qabs (sf_fraction (proj1_sig v)))%Q.

Definition in_window (ws we : option datetime) (t : datetime) : Prop :=
  (forall s, ws = Some s -> datetime_lt t s = Ok false) /\ (forall e, we = Some e -> datetime_gt t e = Ok false).

Definition counts (ws we : option datetime) (c : CellObservation) (i : nat) : Prop :=
  exists o, repeat_at c i o /\ first_repeat c i /\ ~ no_number o.1 /\ ~ huge o.1 /\ in_window ws we o.2.

(** The values of the repeats that count, in order, as the fractions nearest to
    them with a denominator of at most [10 ** 12]. *)
Definition counted_values (ws we : option datetime) (c : CellObservation) (l : list Q) : Prop :=
  exists idx, StronglySorted lt idx /\ (forall i, i ∈ idx <-> counts ws we c i) /\
    Forall2 (fun i q => exists o, repeat_at c i o /\ q = limit_denominator (10 ^ 12) (sf_fraction (proj1_sig o.1))) idx l.

(** Two repeats of one id that differ in the bits of the value or the time. *)
Definition contradictory (c : CellObservation) : Prop :=
  exists i j o p, (i < j)%nat /\ same_id c i j /\ first_repeat c i /\ repeat_at c i o /\ repeat_at c j p /\
    ~ (o.1 = p.1 /\ datetime_eq o.2 p.2 = true).

Lemma sorted_snoc (l : list nat) n : StronglySorted lt l -> (forall i, i ∈ l -> (i < n)%nat) -> StronglySorted lt (l ++ [n]).
Proof.
  induction 1 as [|x l Hl IH Hx]; intros Hn; cbn; [by repeat constructor|]. constructor.
  - apply IH. intros i Hi. apply Hn. by right.
  - apply Forall_app. split; [done|]. constructor; [|done]. apply Hn. by left.
Qed.

Lemma first_of_None l oid : first_of l oid = None <-> oid ∉ l.*1.
Proof.
  unfold first_of. rewrite list_elem_of_fmap. destruct (filter _ l) as [|o k] eqn:Hf; cbn.
  - split; [|done]. intros _ (o & -> & Ho). assert (o ∈ filter (fun x => x.1 = o.1) l) as Hin by by apply list_elem_of_filter.
    rewrite Hf in Hin. by apply elem_of_nil in Hin.
  - split; [done|]. intros Hn. destruct Hn. assert (o ∈ filter (fun x => x.1 = oid) l) as Hin by (rewrite Hf; by left).
    apply list_elem_of_filter in Hin as [<- Hin]. by exists o.
Qed.

Lemma first_of_index l oid o : first_of l oid = Some o <->
  exists i, l !! i = Some (oid, o) /\ forall j, (j < i)%nat -> l.*1 !! j <> Some oid.
Proof.
  induction l as [|x l IH] using rev_ind.
  - split; [done|]. intros (i & Hi & _). by rewrite lookup_nil in Hi.
  - rewrite first_of_snoc. split.
    + destruct (first_of l oid) as [o'|] eqn:Ho.
      * intros [= ->]. destruct (proj1 IH eq_refl) as (i & Hi & Hj). exists i. pose proof (lookup_lt_Some _ _ _ Hi) as Hlt.
        split; [by rewrite lookup_app_l|]. intros j Hji. rewrite fmap_app, lookup_app_l by (rewrite length_fmap; lia). by apply Hj.
      * case_decide as Hx; [|done]. intros [= <-]. exists (length l). split; [rewrite lookup_app_r, Nat.sub_diag by done; cbn; by destruct x; cbn in *; subst|].
        intros j Hj. rewrite fmap_app, lookup_app_l by (by rewrite length_fmap). intros Hl%list_elem_of_lookup_2.
        by apply first_of_None in Ho.
    + intros (i & Hi & Hj). destruct (decide (i < length l)%nat) as [Hlt|Hge].
      * rewrite lookup_app_l in Hi by done. assert (first_of l oid = Some o) as ->; [|done]. apply IH. exists i. split; [done|].
        intros j Hji Hl. apply (Hj j Hji). rewrite fmap_app, lookup_app_l by (rewrite length_fmap; lia). done.
      * rewrite lookup_app_r in Hi by lia. destruct (i - length l)%nat as [|k] eqn:Hk; [|done]. injection Hi as ->.
        assert (first_of l oid = None) as ->; [|by rewrite decide_True].
        apply first_of_None. intros [j Hl]%list_elem_of_lookup. pose proof (lookup_lt_Some _ _ _ Hl) as Hlt. rewrite length_fmap in Hlt.
        apply (Hj j ltac:(lia)). by rewrite fmap_app, lookup_app_l by (by rewrite length_fmap).
Qed.

Lemma dedupe_positions l : exists idx, StronglySorted lt idx /\
  (forall i, i ∈ idx <-> exists oid, l.*1 !! i = Some oid /\ forall j, (j < i)%nat -> l.*1 !! j <> Some oid) /\
  Forall2 (fun i o => l.*2 !! i = Some o) idx (unique (dedupe l)).
Proof.
  induction l as [|x l (idx & Hs & Hi & HF)] using rev_ind.
  { exists []. split; [constructor|]. split; [|constructor]. intros i. split; [by intros ?%elem_of_nil|].
    intros (oid & Hoid%lookup_lt_Some & _). cbn in Hoid. lia. }
  assert (forall i, i ∈ idx -> (i < length l)%nat) as Hb.
  { intros i (oid & Hoid & _)%Hi. apply lookup_lt_Some in Hoid. by rewrite length_fmap in Hoid. }
  assert (forall o i, Forall2 (fun i o => l.*2 !! i = Some o) i o -> Forall2 (fun i o => (l ++ [x]).*2 !! i = Some o) i o) as Hmono.
  { intros o i HF'. eapply Forall2_impl; [exact HF'|]. intros j p Hj. cbv beta in *. pose proof (lookup_lt_Some _ _ _ Hj) as Hlt. by rewrite fmap_app, lookup_app_l. }
  assert (forall i oid, (i < length l)%nat -> ((l ++ [x]).*1 !! i = Some oid <-> l.*1 !! i = Some oid)) as Hl.
  { intros i oid Hlt. by rewrite fmap_app, lookup_app_l by (by rewrite length_fmap). }
  assert (forall i, (i < length l)%nat ->
    (exists oid, (l ++ [x]).*1 !! i = Some oid /\ forall j, (j < i)%nat -> (l ++ [x]).*1 !! j <> Some oid) <-> i ∈ idx) as Hold.
  { intros i Hlt. rewrite Hi. split; intros (oid & Hoid & Hj); exists oid; (split; [by apply Hl|]); intros j Hji; specialize (Hj j Hji);
      pose proof (Hl j oid ltac:(lia)); tauto. }
  assert ((l ++ [x]).*1 !! length l = Some x.1) as Hx.
  { rewrite fmap_app, lookup_app_r by (by rewrite length_fmap). by rewrite length_fmap, Nat.sub_diag. }
  assert (forall i oid, (l ++ [x]).*1 !! i = Some oid -> (i < length l)%nat \/ i = length l) as Hdom.
  { intros i oid Hlt%lookup_lt_Some. rewrite length_fmap, length_app in Hlt. cbn in Hlt. lia. }
  rewrite dedupe_snoc. unfold dedupe_step. rewrite dedupe_seen. destruct (first_of l x.1) as [c|] eqn:Hc; cbn [unique].
  - exists idx. split; [done|]. split; [|by apply Hmono]. intros i. split.
    + intros Hin. apply Hold; [by apply Hb|done].
    + intros He. destruct He as (oid & Hoid & Hj). destruct (Hdom _ _ Hoid) as [Hlt| ->]; [apply Hold; [done|by exists oid]|].
      exfalso. rewrite Hx in Hoid. injection Hoid as <-. apply first_of_index in Hc as (k & Hk & _).
      pose proof (lookup_lt_Some _ _ _ Hk) as Hlt. apply (Hj k Hlt), Hl; [done|]. by rewrite list_lookup_fmap, Hk.
  - exists (idx ++ [length l]). split; [by apply sorted_snoc|]. split.
    + intros i. rewrite elem_of_app, list_elem_of_singleton. split.
      * intros [Hin| ->]; [apply Hold; [by apply Hb|done]|]. exists x.1. split; [done|]. intros j Hj Hl'%Hl; [|done].
        apply first_of_None in Hc. by apply Hc, (list_elem_of_lookup_2 _ j).
      * intros He. pose proof He as (oid & Hoid & _). destruct (Hdom _ _ Hoid) as [Hlt| ->]; [left; by apply Hold|by right].
    + apply Forall2_app; [by apply Hmono|]. constructor; [|constructor].
      rewrite fmap_app, lookup_app_r by (by rewrite length_fmap). by rewrite length_fmap, Nat.sub_diag.
Qed.

(** What the loop keeps of a cell, and whether it saw a contradiction. *)
Lemma dedupe_repeats_spec c pairs b : _dedupe_repeats c = Ok (pairs, b) ->
  (exists idx, StronglySorted lt idx /\
     (forall i, i ∈ idx <-> first_repeat c i /\ exists o, repeat_at c i o) /\ Forall2 (repeat_at c) idx pairs) /\
  (b = true <-> contradictory c).
Proof.
  unfold _dedupe_repeats. intros (rows & [Hlen ->]%zip_strict_Ok & H)%bind_Ok.
  assert (forall i o, zip (repeat_values c) (timestamps c) !! i = Some o <-> repeat_at c i o) as Hat.
  { intros i [v t]. unfold repeat_at. rewrite lookup_zip_Some. done. }
  destruct (observation_ids c) as [ids|] eqn:Hids.
  - apply bind_Ok in H as (l & [Hlen' ->]%zip_strict_Ok & [= <- <-]). set (rows := zip (repeat_values c) (timestamps c)) in *.
    assert ((zip ids rows).*1 = ids) as H1 by (apply fst_zip; lia). assert ((zip ids rows).*2 = rows) as H2 by (apply snd_zip; lia).
    assert (forall i oid, ids !! i = Some oid -> (first_repeat c i <-> forall j, (j < i)%nat -> ids !! j <> Some oid)) as Hfirst.
    { intros i oid Hoid. unfold first_repeat, same_id. rewrite Hids. split; intros Hj j Hji; specialize (Hj j Hji); [|naive_solver congruence].
      intros Hl. apply Hj. by exists ids, oid. }
    split.
    + destruct (dedupe_positions (zip ids rows)) as (idx & Hs & Hi & HF). rewrite H1 in Hi. rewrite H2 in HF.
      exists idx. split; [done|]. split; [|eapply Forall2_impl; [exact HF|intros; by apply Hat]].
      intros i. rewrite Hi. split.
      * intros (oid & Hoid & Hj). split; [by apply (Hfirst i oid)|]. pose proof (lookup_lt_Some _ _ _ Hoid) as Hlt.
        rewrite Hlen' in Hlt. apply lookup_lt_is_Some in Hlt as [o Ho]. exists o. by apply Hat.
      * intros [Hf (o & Ho%Hat)]. apply lookup_lt_Some in Ho. rewrite <- Hlen' in Ho. apply lookup_lt_is_Some in Ho as [oid Hoid].
        exists oid. split; [done|]. by apply (Hfirst i oid).
    + rewrite dedupe_conflict. unfold contradictory. split.
      * intros ([oid p] & o & [j Hj]%list_elem_of_lookup & (i & Hi & Hf)%first_of_index & He). cbn [fst snd] in *.
        apply lookup_zip_Some in Hj as [Hj Hp], Hi as [Hi Ho]. rewrite H1 in Hf.
        assert (i <> j) as Hne by (intros ->; rewrite Hp in Ho; injection Ho as ->; by rewrite content_eq_refl in He).
        assert (i < j)%nat as Hij by (destruct (decide (j < i)%nat) as [Hji|]; [by destruct (Hf j Hji)|lia]).
        exists i, j, o, p. split; [done|]. split; [by exists ids, oid|]. split; [by apply (Hfirst i oid)|].
        split; [by apply Hat|]. split; [by apply Hat|]. intros [Hv Ht]. unfold content_eq in He.
        by rewrite bool_decide_true, Ht in He.
      * intros (i & j & o & p & Hij & (ids' & oid & Hids' & Hi & Hj) & Hf & Ho%Hat & Hp%Hat & He).
        rewrite Hids in Hids'. injection Hids' as <-. exists (oid, p), o. split; [|split].
        -- apply (list_elem_of_lookup_2 _ j). by apply lookup_zip_Some.
        -- apply first_of_index. exists i. split; [by apply lookup_zip_Some|]. rewrite H1. by apply (Hfirst i oid).
        -- unfold content_eq. cbn. case_bool_decide as Hv; [|done]. destruct (datetime_eq o.2 p.2) eqn:Ht; [|done]. by destruct He.
  - injection H as <- <-. assert (forall i, first_repeat c i) as Hfirst.
    { intros i j _ (ids & oid & Hx & _). congruence. }
    split; [|split; [done|]; intros (i & j & o & p & _ & (ids & oid & Hx & _) & _); congruence].
    exists (seq 0 (length (zip (repeat_values c) (timestamps c)))). split; [|split].
    + generalize (length (zip (repeat_values c) (timestamps c))), 0%nat. intros n. induction n as [|n IH]; intros m; constructor; [done|].
      apply Forall_forall. intros i Hi%elem_of_seq. lia.
    + intros i. rewrite elem_of_seq. setoid_rewrite <- Hat. split.
      * intros [_ Hlt]. split; [done|]. by apply lookup_lt_is_Some.
      * intros [_ [o Ho]]. apply lookup_lt_Some in Ho. lia.
    + apply Forall2_same_length_lookup_2; [by rewrite length_seq|]. intros k i o [-> _]%lookup_seq Ho. by apply Hat.
Qed.

Lemma is_finite_spec v : is_finite_f64 v = false <-> no_number v.
Proof.
  unfold is_finite_f64, no_number. destruct (proj1_sig v); split; try done; eauto.
  all: intros [|[? ?]]; congruence.
Qed.

Lemma huge_spec v : is_finite_f64 v = true -> Qle_bool (inject_Z MAGNITUDE_LIMIT) (magnitude v) = true <-> huge v.
Proof.
  intros Hv. unfold huge. rewrite <- is_finite_spec, Hv, Qle_bool_iff. unfold magnitude, MAGNITUDE_LIMIT. naive_solver.
Qed.

Lemma admit_repeat_spec ws we o a : admit_repeat ws we o = Ok a ->
  (is_non_finite a = true <-> no_number o.1) /\ (is_non_representable a = true <-> huge o.1) /\
  (forall q, usable_value a = Some q -> q = limit_denominator (10 ^ 12) (sf_fraction (proj1_sig o.1))) /\
  (is_Some (usable_value a) <-> ~ no_number o.1 /\ ~ huge o.1 /\ in_window ws we o.2).
Proof.
  unfold admit_repeat. destruct (is_finite_f64 o.1) eqn:Hf; cbn [negb].
  2:{ apply is_finite_spec in Hf. intros [= <-]. cbn. unfold huge. split; [done|]. split; [naive_solver|]. split; [done|].
      split; [by intros [? ?]|naive_solver]. }
  pose proof (huge_spec o.1 Hf) as Hh. assert (~ no_number o.1) as Hn by (rewrite <- is_finite_spec; congruence).
  destruct (Qle_bool _ _).
  { intros [= <-]. cbn. split; [done|]. split; [naive_solver|]. split; [done|]. split; [by intros [? ?]|naive_solver]. }
  assert (~ huge o.1) as Hnh by (rewrite <- Hh; done). intros (early & He & Ha)%bind_Ok. unfold in_window. destruct early.
  - injection Ha as <-. cbn. split; [done|]. split; [done|]. split; [done|]. split; [by intros [? ?]|]. intros (_ & _ & Hs & _).
    destruct ws as [s|]; [|done]. rewrite (Hs s eq_refl) in He. done.
  - assert (forall s, ws = Some s -> datetime_lt o.2 s = Ok false) as Hs by (by intros s ->).
    apply bind_Ok in Ha as (late & Hl & Ha). destruct late.
    + injection Ha as <-. cbn. split; [done|]. split; [done|]. split; [done|]. split; [by intros [? ?]|]. intros (_ & _ & _ & Hw).
      destruct we as [e|]; [|done]. rewrite (Hw e eq_refl) in Hl. done.
    + injection Ha as <-. cbn. split; [done|]. split; [done|]. split; [by intros q [= <-]|]. split; [|by eexists].
      intros _. split; [done|]. split; [done|]. split; [done|]. by intros e ->.
Qed.

Lemma usable_positions {A} (R : nat -> A -> Prop) (f : A -> result pyexn admission) idx l k :
  (forall i o o', R i o -> R i o' -> o = o') ->
  StronglySorted lt idx -> Forall2 R idx l -> mapM f l = Ok k ->
  exists idx', StronglySorted lt idx' /\
    (forall i, i ∈ idx' <-> i ∈ idx /\ exists o a, R i o /\ f o = Ok a /\ is_Some (usable_value a)) /\
    Forall2 (fun i q => exists o a, R i o /\ f o = Ok a /\ usable_value a = Some q) idx' (omap usable_value k).
Proof.
  intros Hfun Hs HF. revert k Hs. induction HF as [|i o idx l Hio HF IH]; intros k Hs Hk.
  { injection Hk as <-. exists []. split; [constructor|]. split; [|constructor]. intros i. split; [by intros ?%elem_of_nil|].
    by intros [?%elem_of_nil _]. }
  apply StronglySorted_inv in Hs as [Hs Hlt]. rewrite Forall_forall in Hlt.
  cbn in Hk. apply bind_Ok in Hk as (a & Ha & (k' & Hk & [= <-])%bind_Ok).
  destruct (IH k' Hs Hk) as (idx' & Hs' & Hi' & HF').
  assert (forall j o' a', R i o' -> f o' = Ok a' -> j = i -> a' = a) as Hsame.
  { intros j o' a' Ho' Ha' _. rewrite (Hfun _ _ _ Ho' Hio) in Ha'. congruence. }
  destruct (usable_value a) as [q|] eqn:Hq; cbn [omap list_omap]; rewrite Hq.
  - exists (i :: idx'). split; [|split].
    + constructor; [done|]. apply Forall_forall. intros j Hj%Hi'. apply Hlt, Hj.
    + intros j. rewrite !elem_of_cons, Hi'. split; [|naive_solver]. intros [->|[Hj He]]; [|naive_solver].
      split; [by left|]. exists o, a. by rewrite Hq.
    + constructor; [by exists o, a|done].
  - exists idx'. split; [done|]. split; [|done]. intros j. rewrite elem_of_cons, Hi'. split; [naive_solver|].
    intros ([->|Hj] & o' & a' & Ho' & Ha' & Hu); [|naive_solver].
    rewrite (Hsame i o' a' Ho' Ha' eq_refl), Hq in Hu. by destruct Hu.
Qed.

Lemma repeat_at_fun c i o o' : repeat_at c i o -> repeat_at c i o' -> o = o'.
Proof. intros [Hv Ht] [Hv' Ht']. destruct o, o'; cbn in *. congruence. Qed.

(** One cell: the values that count, and the reasons for its flags. *)
Lemma scan_cell_spec series ws we name s c : scan_cell series ws we name = Ok s -> cells series name = Some c ->
  sc_present s = true /\ counted_values ws we c (sc_values s) /\
  (sc_non_finite s = true <-> exists i o, first_repeat c i /\ repeat_at c i o /\ no_number o.1) /\
  (sc_non_representable s = true <-> exists i o, first_repeat c i /\ repeat_at c i o /\ huge o.1) /\
  (sc_conflict s = true <-> contradictory c).
Proof.
  unfold scan_cell. intros Hs Hc. rewrite Hc in Hs. apply bind_Ok in Hs as ([pairs b] & Hd & (p & Hp & [= <-])%bind_Ok).
  cbn [fst snd] in *. apply dedupe_repeats_spec in Hd as [(idx & Hsort & Hi & HF) Hb].
  unfold _partition_in_window in Hp. apply bind_Ok in Hp as (k & Hk & [= <-]).
  cbn [sc_present sc_values sc_non_finite sc_non_representable sc_conflict values any_non_finite any_non_representable partition_of].
  split; [done|].
  assert (forall i o, first_repeat c i -> repeat_at c i o -> exists a, a ∈ k /\ admit_repeat ws we o = Ok a) as Hin.
  { intros i o Hf Ho. assert (i ∈ idx) as [n Hn]%list_elem_of_lookup by (apply Hi; eauto).
    destruct (Forall2_lookup_l _ _ _ _ _ HF Hn) as (o' & Ho' & Hat). rewrite (repeat_at_fun _ _ _ _ Hat Ho) in Ho'.
    destruct (mapM_image _ _ _ Hk o) as (a & Ha & He); [by eapply list_elem_of_lookup_2|eauto]. }
  assert (forall a, a ∈ k -> exists i o, first_repeat c i /\ repeat_at c i o /\ admit_repeat ws we o = Ok a) as Hout.
  { intros a Ha. destruct (mapM_elem _ _ _ Hk a Ha) as (o & [n Hn]%list_elem_of_lookup & He).
    destruct (Forall2_lookup_r _ _ _ _ _ HF Hn) as (i & Hin' & Hat). exists i, o. split; [|done].
    apply (Hi i). by eapply list_elem_of_lookup_2. }
  split; [|split; [|split; [|done]]].
  - destruct (usable_positions _ _ _ _ _ (repeat_at_fun c) Hsort HF Hk) as (idx' & Hs' & Hi' & HF').
    exists idx'. split; [done|]. split.
    + intros i. rewrite Hi', Hi. unfold counts. split.
      * intros ([Hf _] & o & a & Ho & Ha & Hu). apply admit_repeat_spec in Ha as (_ & _ & _ & Hu').
        exists o. split; [done|]. split; [done|]. by apply Hu'.
      * intros (o & Ho & Hf & Hu). destruct (Hin i o Hf Ho) as (a & _ & Ha). split; [eauto|]. exists o, a.
        split; [done|]. split; [done|]. apply admit_repeat_spec in Ha as (_ & _ & _ & Hu'). by apply Hu'.
    + eapply Forall2_impl; [exact HF'|]. intros i q (o & a & Ho & Ha & Hu). exists o. split; [done|].
      by apply (admit_repeat_spec ws we o a Ha).
  - rewrite existsb_elem. split.
    + intros (a & Ha & Hn). destruct (Hout a Ha) as (i & o & Hf & Ho & He). exists i, o. split; [done|]. split; [done|].
      by apply (admit_repeat_spec ws we o a He).
    + intros (i & o & Hf & Ho & Hn). destruct (Hin i o Hf Ho) as (a & Ha & He). exists a. split; [done|].
      by apply (admit_repeat_spec ws we o a He).
  - rewrite existsb_elem. split.
    + intros (a & Ha & Hn). destruct (Hout a Ha) as (i & o & Hf & Ho & He). exists i, o. split; [done|]. split; [done|].
      by apply (admit_repeat_spec ws we o a He).
    + intros (i & o & Hf & Ho & Hn). destruct (Hin i o Hf Ho) as (a & Ha & He). exists a. split; [done|].
      by apply (admit_repeat_spec ws we o a He).
Qed.

(** *** Codes *)

Lemma fromkeys_snoc {A} `{EqDecision A} (l : list A) x :
  fromkeys (l ++ [x]) = if decide (x ∈ fromkeys l) then fromkeys l else fromkeys l ++ [x].
Proof. unfold fromkeys. by rewrite fold_left_app. Qed.

Lemma elem_of_fromkeys {A} `{EqDecision A} (l : list A) x : x ∈ fromkeys l <-> x ∈ l.
Proof.
  induction l as [|y l IH] using rev_ind; [done|]. rewrite fromkeys_snoc, elem_of_app, list_elem_of_singleton, <- IH.
  case_decide; [naive_solver|]. by rewrite elem_of_app, list_elem_of_singleton.
Qed.

Lemma NoDup_fromkeys {A} `{EqDecision A} (l : list A) : NoDup (fromkeys l).
Proof.
  induction l as [|y l IH] using rev_ind; [constructor|]. rewrite fromkeys_snoc. case_decide; [done|].
  apply NoDup_app. split; [done|]. split; [|apply NoDup_singleton]. by intros x Hx ->%list_elem_of_singleton.
Qed.

(** Why a code is reported. *)
Definition code_reason (policy : DiDPolicy) (series : SignalSeries) (vals : CellName -> list Q)
    (code : InsufficiencyCode) : Prop :=
  let some_repeat (P : f64 -> Prop) :=
    exists name c i o, cells series name = Some c /\ first_repeat c i /\ repeat_at c i o /\ P o.1 in
  match code with
  | MISSING_BASELINE => cells series baseline_treatment = None
  | MISSING_CONTROL => cells series baseline_control = None \/ cells series post_control = None
  | MISSING_POST => cells series post_treatment = None \/ cells series post_control = None
  | INSUFFICIENT_REPEATS => exists name c, cells series name = Some c /\ Z.of_nat (length (vals name)) < min_repeats policy
  | NON_FINITE_VALUE => some_repeat no_number
  | NON_REPRESENTABLE_MAGNITUDE => some_repeat huge
  | DUPLICATE_OBSERVATION_CONFLICT => exists name c, cells series name = Some c /\ contradictory c
  end.

(** The codes by what the scans say. *)
Definition scan_reason (policy : DiDPolicy) (series : SignalSeries) (scan : CellName -> cell_scan)
    (code : InsufficiencyCode) : Prop :=
  match code with
  | MISSING_BASELINE => cells series baseline_treatment = None
  | MISSING_CONTROL => cells series baseline_control = None \/ cells series post_control = None
  | MISSING_POST => cells series post_treatment = None \/ cells series post_control = None
  | INSUFFICIENT_REPEATS => exists name, sc_present (scan name) = true /\ Z.of_nat (length (sc_values (scan name))) < min_repeats policy
  | NON_FINITE_VALUE => exists name, sc_non_finite (scan name) = true
  | NON_REPRESENTABLE_MAGNITUDE => exists name, sc_non_representable (scan name) = true
  | DUPLICATE_OBSERVATION_CONFLICT => exists name, sc_conflict (scan name) = true
  end.

Lemma all_names name : name ∈ _CELL_NAMES.
Proof. destruct name; by_decide. Qed.

Lemma existsb_names (f : cell_scan -> bool) (scan : CellName -> cell_scan) :
  existsb f (map scan _CELL_NAMES) = true <-> exists name, f (scan name) = true.
Proof.
  rewrite existsb_elem. split.
  - intros (s & (name & -> & _)%list_elem_of_fmap & Hf). by eauto.
  - intros [name Hf]. exists (scan name). split; [|done]. apply list_elem_of_fmap. exists name. split; [done|apply all_names].
Qed.

Lemma elem_of_when {A} (b : bool) (x y : A) : x ∈ (if b then [y] else []) <-> b = true /\ x = y.
Proof. destruct b; [rewrite list_elem_of_singleton; naive_solver|]. split; [by intros ?%elem_of_nil|by intros [? _]]. Qed.

Lemma is_none_true {A} (o : option A) : is_none o = true <-> o = None.
Proof. by destruct o. Qed.

Lemma raw_codes_scan policy series (scan : CellName -> cell_scan) code :
  code ∈ raw_codes policy series (map scan _CELL_NAMES) <-> scan_reason policy series scan code.
Proof.
  unfold raw_codes. cbv zeta. rewrite !elem_of_app, !elem_of_when, !orb_true_iff, !is_none_true, !existsb_names.
  assert (code ∈ concat (map (fun s => if too_few policy s then [INSUFFICIENT_REPEATS] else []) (map scan _CELL_NAMES)) <->
          code = INSUFFICIENT_REPEATS /\ exists name, too_few policy (scan name) = true) as ->.
  { rewrite <- existsb_names. generalize (map scan _CELL_NAMES). intros l. induction l as [|s l IH]; cbn.
    - split; [by intros ?%elem_of_nil|by intros [_ ?]].
    - rewrite elem_of_app, IH, elem_of_when, orb_true_iff. naive_solver. }
  assert (forall name, too_few policy (scan name) = true <->
    sc_present (scan name) = true /\ Z.of_nat (length (sc_values (scan name))) < min_repeats policy) as Hfew.
  { intros name. unfold too_few. by rewrite andb_true_iff, Z.ltb_lt. }
  setoid_rewrite Hfew. clear. destruct code; cbn [scan_reason]; intuition congruence.
Qed.

Lemma scan_reason_spec series ws we policy scan code : (forall name, scan_cell series ws we name = Ok (scan name)) ->
  scan_reason policy series scan code <-> code_reason policy series (fun name => sc_values (scan name)) code.
Proof.
  intros Hscan.
  assert (forall name, cells series name = None -> scan name = absent_cell) as Habs.
  { intros name Hc. specialize (Hscan name). unfold scan_cell in Hscan. rewrite Hc in Hscan. by injection Hscan. }
  assert (forall (flag : cell_scan -> bool) (P : CellObservation -> Prop), flag absent_cell = false ->
    (forall name c, cells series name = Some c -> flag (scan name) = true <-> P c) ->
    (exists name, flag (scan name) = true) <-> exists name c, cells series name = Some c /\ P c) as Hflag.
  { intros flag P Hnone HP. split.
    - intros [name Hf]. destruct (cells series name) as [c|] eqn:Hc; [exists name, c; split; [done|by apply (HP name)]|].
      rewrite (Habs name Hc) in Hf. congruence.
    - intros (name & c & Hc & Hp). exists name. by apply (HP name c). }
  destruct code; cbn [scan_reason code_reason]; try done.
  - split.
    + intros (name & Hp & Hlen). destruct (cells series name) as [c|] eqn:Hc; [by exists name, c|]. by rewrite (Habs name Hc) in Hp.
    + intros (name & c & Hc & Hlen). exists name. split; [by apply (scan_cell_spec _ _ _ _ _ _ (Hscan name) Hc)|done].
  - rewrite (Hflag sc_non_finite (fun c => exists i o, first_repeat c i /\ repeat_at c i o /\ no_number o.1) eq_refl); [naive_solver|].
    intros name c Hc. by apply (scan_cell_spec _ _ _ _ _ _ (Hscan name) Hc).
  - rewrite (Hflag sc_non_representable (fun c => exists i o, first_repeat c i /\ repeat_at c i o /\ huge o.1) eq_refl); [naive_solver|].
    intros name c Hc. by apply (scan_cell_spec _ _ _ _ _ _ (Hscan name) Hc).
  - apply Hflag; [done|]. intros name c Hc. by apply (scan_cell_spec _ _ _ _ _ _ (Hscan name) Hc).
Qed.

Lemma mean_spec l : l <> [] -> (_mean l * inject_Z (Z.of_nat (length l)) == foldr Qplus 0 l)%Q.
Proof.
  intros Hl. assert (sum_Q l == foldr Qplus 0 l)%Q as <-.
  { induction l as [|q [|r l] IH]; [done|cbn; ring|]. rewrite sum_Q_cons. cbn [foldr]. by rewrite IH. }
  unfold _mean. field. intros H0. change 0%Q with (inject_Z 0) in H0. apply inject_Z_injective, (Nat2Z.inj _ 0), nil_length_inv in H0. done.
Qed.

(** *** Sign stability *)

Lemma leave_one_out_spec vals means net :
  _leave_one_out_sign_stable vals means net = true <->
  forall name i net', (1 < length (vals name))%nat -> (i < length (vals name))%nat ->
    net_of (replace_mean means name (_mean (drop_nth i (vals name)))) = Some net' -> _sign net' = _sign net.
Proof.
  unfold _leave_one_out_sign_stable. rewrite forallb_elem. split.
  - intros Hall name i net' Hlen Hi Hnet. specialize (Hall name (all_names name)). cbv zeta in Hall.
    apply orb_true_iff in Hall as [Hall|Hall]; [apply Nat.leb_le in Hall; lia|].
    rewrite forallb_elem in Hall. specialize (Hall i). rewrite Hnet in Hall. apply Z.eqb_eq, Hall.
    rewrite list_elem_of_In, in_seq. lia.
  - intros Hall name _. cbv zeta. destruct (Nat.leb_spec (length (vals name)) 1) as [?|Hlen]; [done|].
    cbn [orb]. rewrite forallb_elem. intros i Hi. rewrite list_elem_of_In, in_seq in Hi.
    destruct (net_of _) as [net'|] eqn:Hnet; [|done]. apply Z.eqb_eq, (Hall name i); [lia|lia|done].
Qed.

(** *** The canonical order *)

#[export] Instance identity_le_total : Total identity_le.
Proof.
  intros a b. unfold identity_le, triple_leb. repeat case_decide; try congruence; apply str_leb_total.
Qed.

#[export] Instance identity_le_trans : Transitive identity_le.
Proof.
  intros a b c. unfold identity_le, triple_leb. destruct (identity a) as [[a1 a2] a3], (identity b) as [[b1 b2] b3],
    (identity c) as [[c1 c2] c3]; cbn.
  repeat case_decide; subst; try congruence; eauto using str_leb_trans;
    intros Hab Hbc; exfalso; eauto using str_leb_antisym.
Qed.

Lemma identity_le_antisym a b : identity_le a b -> identity_le b a -> identity a = identity b.
Proof.
  unfold identity_le, triple_leb. destruct (identity a) as [[a1 a2] a3], (identity b) as [[b1 b2] b3]; cbn.
  repeat case_decide; subst; try congruence; intros Hab Hba; pose proof (str_leb_antisym _ _ Hab Hba); congruence.
Qed.

Lemma sort_canonical l1 l2 : NoDup (map identity l1) -> l1 ≡ₚ l2 -> stable_sort identity_le l1 = stable_sort identity_le l2.
Proof.
  intros Hnd Hp. apply (StronglySorted_unique_strong identity_le).
  - intros x y Hx Hy Hxy Hyx. rewrite (stable_sort_Permutation identity_le) in Hx, Hy. rewrite <- Hp in Hy.
    pose proof (identity_le_antisym x y Hxy Hyx) as Hid.
    apply list_elem_of_lookup in Hx as [i Hi], Hy as [j Hj].
    assert (i = j) as ->; [|congruence]. apply (NoDup_lookup _ i j (identity x) Hnd).
    + by rewrite list_lookup_fmap, Hi.
    + rewrite list_lookup_fmap, Hj. cbn. by rewrite Hid.
  - apply (stable_sort_sorted _).
  - apply (stable_sort_sorted _).
  - by rewrite !stable_sort_Permutation.
Qed.

Definition series_identity (s : SignalSeries) : pystr * pystr * pystr := (layer s, metric_id s, evidence_basis_id s).

Lemma signal_identity series policy ws we s : _compute_signal series policy ws we = Ok s -> identity s = series_identity series.
Proof.
  unfold _compute_signal. intros (scans & _ & H)%bind_Ok. cbv zeta in H.
  apply bind_Ok in H as (p & _ & H). apply bind_Ok in H as (rt & _ & H). apply bind_Ok in H as (rc & _ & H).
  by apply bind_Ok in H as (rn & _ & [= <-]).
Qed.

Lemma Fraction_of_float_Ok f q : Fraction_of_float f = Ok q -> q = sf_fraction (proj1_sig f).
Proof. unfold Fraction_of_float. destruct (proj1_sig f); naive_solver. Qed.

Lemma round_net_bounded series ws we scans :
  (forall name, scan_cell series ws we name = Ok (by_name scans name)) ->
  forall q, net_of (scan_means scans) = Some q -> exists f, _round q = Ok f /\ is_finite_f64 f = true /\
    (Qabs (sf_fraction (proj1_sig f) - q) <= (51 # 1000000000000) + Qabs q * Qpower (inject_Z 2) (-52))%Q.
Proof.
  intros Hscan q Hq. apply _round_spec. apply (net_bounded (scan_means scans)) in Hq.
  - eapply Qle_trans; [exact Hq|]. vm_compute. discriminate.
  - intros name x. apply cell_mean_bounded. by eapply scan_cell_bounded.
Qed.

Lemma scans_counted series ws we scan : (forall name, scan_cell series ws we name = Ok (scan name)) ->
  forall name, match cells series name with
               | Some c => counted_values ws we c (sc_values (scan name)) | None => sc_values (scan name) = [] end.
Proof.
  intros Hscan name. specialize (Hscan name). destruct (cells series name) as [c|] eqn:Hc.
  - by apply (scan_cell_spec _ _ _ _ _ _ Hscan Hc).
  - unfold scan_cell in Hscan. rewrite Hc in Hscan. by injection Hscan as <-.
Qed.

Lemma scan_means_spec scans name : match scan_means scans name with
  | Some m => sc_values (by_name scans name) <> [] /\
      (m * inject_Z (Z.of_nat (length (sc_values (by_name scans name)))) == foldr Qplus 0 (sc_values (by_name scans name)))%Q
  | None => sc_values (by_name scans name) = [] end.
Proof. unfold scan_means, cell_mean. destruct (sc_values _) eqn:Hv; [done|]. split; [done|]. by apply mean_spec. Qed.

(** ** Theorems *)

(** C12: The report of a signal.  The values of a cell are those of the
    repeats that count: the first of its id, a finite number below 10 ** 18 in
    magnitude, taken in the window.  Each insufficiency code is present, once,
    exactly for its reason in the observations; the signal is insufficient
    exactly when there is a code; the reported lift is the treatment delta less
    the control delta of the four means, to ten decimal places, and absent when
    a mean is; and sign stability and threshold verdict are reported only for a
    sufficient signal, the first saying that no single repeat decides the sign. *)
Theorem signal_report_exact series policy ws we s :
  _compute_signal series policy ws we = Ok s ->
  exists vals : CellName -> list Q,
  (forall name, match cells series name with Some c => counted_values ws we c (vals name) | None => vals name = [] end) /\
  (forall code, code ∈ insufficiency_codes s <-> code_reason policy series vals code) /\
  NoDup (insufficiency_codes s) /\
  insufficient s = negb (bool_decide (insufficiency_codes s = [])) /\
  exists means : CellName -> option Q,
  (forall name, match means name with
                | Some m => vals name <> [] /\ (m * inject_Z (Z.of_nat (length (vals name))) == foldr Qplus 0 (vals name))%Q
                | None => vals name = [] end) /\
  match means baseline_treatment, means post_treatment, means baseline_control, means post_control with
  | Some bt, Some pt, Some bc, Some pc =>
      let net := ((pt - bt) - (pc - bc))%Q in
      (exists f, net_of_control_lift s = Some f /\ is_finite_f64 f = true /\
        (Qabs (sf_fraction (proj1_sig f) - net) <= (51 # 1000000000000) + Qabs net * Qpower (inject_Z 2) (-52))%Q) /\
      match sign_stable_under_leave_one_out s, meets_effect_threshold s with
      | Some stable, Some meets =>
          insufficient s = false /\
          (stable = true <-> forall name i net', (1 < length (vals name))%nat -> (i < length (vals name))%nat ->
             net_of (replace_mean means name (_mean (drop_nth i (vals name)))) = Some net' -> _sign net' = _sign net) /\
          (meets = true <-> (bounded_repr (sf_fraction (proj1_sig (effect_threshold policy))) <= Qabs net)%Q)
      | None, None => insufficient s = true
      | _, _ => False
      end
  | _, _, _, _ => net_of_control_lift s = None /\ meets_effect_threshold s = None
  end.
Proof.
  unfold _compute_signal. intros (scans & Hs & Hrest)%bind_Ok.
  destruct (scans_Ok _ _ _ _ Hs) as [Hscan Hmap]. exists (fun name => sc_values (by_name scans name)).
  split; [by apply scans_counted|].
  cbv zeta in Hrest. apply bind_Ok in Hrest as (power & Hpower & Hrest).
  apply bind_Ok in Hrest as (rt & _ & Hrest). apply bind_Ok in Hrest as (rc & _ & Hrest).
  apply bind_Ok in Hrest as (rn & Hrn & [= <-]).
  cbn [insufficiency_codes insufficient net_of_control_lift sign_stable_under_leave_one_out meets_effect_threshold].
  split; [intros code; rewrite elem_of_fromkeys, Hmap at 1; rewrite raw_codes_scan; by apply (scan_reason_spec _ _ _ _ _ _ Hscan)|].
  split; [apply NoDup_fromkeys|]. split; [done|]. exists (scan_means scans). split; [apply scan_means_spec|].
  pose proof (round_net_bounded _ _ _ _ Hscan) as Hround. fold (scan_means scans) in *. set (m := scan_means scans) in *.
  change (fun name => cell_mean (by_name scans name)) with m in *.
  repeat match goal with |- context [ cell_mean (by_name scans ?n) ] => change (cell_mean (by_name scans n)) with (m n) end.
  cbv zeta. set (b := negb _) in *. clearbody b.
  destruct (m baseline_treatment) as [bt|] eqn:Hbt, (m post_treatment) as [pt|] eqn:Hpt,
    (m baseline_control) as [bc|] eqn:Hbc, (m post_control) as [pc|] eqn:Hpc;
    assert (Hnet := eq_refl (net_of m)); unfold net_of in Hnet at 2; rewrite Hbt, Hpt, Hbc, Hpc in Hnet; cbn [_arm_delta] in Hnet;
    rewrite Hnet in Hpower, Hrn; cbn [round_opt] in Hrn; try (injection Hpower as <-; injection Hrn as <-; done).
  specialize (Hround _ Hnet). cbn [round_opt] in Hrn. destruct Hround as (f & Hf & Hround).
  rewrite Hf in Hrn. injection Hrn as <-. split; [eauto|].
  destruct b; [by injection Hpower as <-|].
  apply bind_Ok in Hpower as (thr & Hthr & Hpower). apply bind_Ok in Hpower as (margin & _ & [= <-]).
  apply Fraction_of_float_Ok in Hthr as ->.
  cbn [fmap option_fmap option_map fst snd]. split; [done|].
  split; [apply (leave_one_out_spec (fun name => sc_values (by_name scans name)))|apply Qle_bool_iff].
Qed.

(** The estimator answers: whatever the values of well-formed cells, under
    a finite threshold of at most 10 ** 48 it raises nothing but the
    [TypeError] of comparing a naive with an aware datetime, and not that one
    when the timestamps and the window are aware. *)
Theorem did_answers series policy ws we :
  Forall wf_series series -> threshold_ok policy ->
  (exists r, compute_did series policy ws we = Ok r /\ length (signals r) = length series) \/
  (compute_did series policy ws we = Raise TypeError /\
   ~ (Forall aware_series series /\ aware_opt ws /\ aware_opt we)).
Proof.
  intros Hwf Hthr. unfold compute_did.
  destruct (mapM _ series) as [k|e] eqn:Hm; cbn.
  - left. eexists. split; [done|]. apply mapM_Ok in Hm. symmetry. by apply Forall2_length in Hm.
  - right. destruct (mapM_Raise _ _ _ Hm) as (s & Hs & He). rewrite Forall_forall in Hwf.
    pose proof (signal_total s policy ws we (Hwf s Hs) Hthr) as Ht. cbv beta in He. rewrite He in Ht.
    destruct Ht as [-> Hn]. split; [done|]. intros (Ha & Hws & Hwe). rewrite Forall_forall in Ha. naive_solver.
Qed.

(** A drift that moves the treatment and the control arm alike is removed:
    equal deltas of the means give a lift of exactly zero and equal reported
    deltas, and no positive threshold is met. *)
Theorem common_trend_cancels series policy ws we s (m : CellName -> Q) :
  (forall name, exists sc, scan_cell series ws we name = Ok sc /\ cell_mean sc = Some (m name)) ->
  (m post_treatment - m baseline_treatment == m post_control - m baseline_control)%Q ->
  _compute_signal series policy ws we = Ok s ->
  net_of_control_lift s = Some (f64_of (S754_zero false)) /\
  treatment_raw_delta s = control_raw_delta s /\
  (meets_effect_threshold s = Some true -> (bounded_repr (sf_fraction (proj1_sig (effect_threshold policy))) <= 0)%Q).
Proof.
  intros Hm Heq. unfold _compute_signal. intros (scans & Hs & Hrest)%bind_Ok.
  destruct (scans_Ok _ _ _ _ Hs) as [Hscan _].
  assert (forall name, cell_mean (by_name scans name) = Some (m name)) as Hmean.
  { intros name. destruct (Hm name) as (sc & Hsc & Hq). rewrite Hscan in Hsc. by injection Hsc as <-. }
  cbv zeta in Hrest. unfold net_of in Hrest. rewrite !Hmean in Hrest. cbn [_arm_delta] in Hrest.
  apply bind_Ok in Hrest as (power & Hpower & Hrest).
  apply bind_Ok in Hrest as (rt & Hrt & Hrest). apply bind_Ok in Hrest as (rc & Hrc & Hrest).
  apply bind_Ok in Hrest as (rn & Hrn & [= <-]).
  cbn [net_of_control_lift treatment_raw_delta control_raw_delta meets_effect_threshold].
  set (t := (m post_treatment - m baseline_treatment)%Q) in *. set (c := (m post_control - m baseline_control)%Q) in *.
  assert (t - c == 0)%Q as Hzero by (rewrite Heq; ring).
  assert (forall a b, (a == b)%Q -> _round a = _round b) as Hround by (intros a b Hab; unfold _round; by rewrite (Qred_complete _ _ Hab)).
  cbn [round_opt] in *. split; [|split].
  - rewrite (Hround _ _ Hzero) in Hrn. cbn in Hrn. by injection Hrn as <-.
  - rewrite (Hround _ _ Heq) in Hrt. rewrite Hrt in Hrc. by injection Hrc as <-.
  - destruct (negb _); [by injection Hpower as <-|].
    apply bind_Ok in Hpower as (thr & Hthr & Hpower). apply bind_Ok in Hpower as (margin & _ & [= <-]).
    apply Fraction_of_float_Ok in Hthr as ->. cbn [fmap option_fmap option_map snd]. intros [= Hle%Qle_bool_iff].
    assert (Qabs (t - c) == 0)%Q as Habs by (rewrite Hzero; reflexivity). by rewrite <- Habs.
Qed.

(** A replayed observation changes nothing: when a repeat with an identity
    already observed in the cell comes again with its value and timestamp, the
    signal is reported as without it, wherever in the cell it comes. *)
Theorem replay_changes_nothing series policy ws we name l o k :
  o ∈ l ->
  _compute_signal (set_cell series name (cell_of (l ++ o :: k))) policy ws we =
  _compute_signal (set_cell series name (cell_of (l ++ k))) policy ws we.
Proof.
  intros Ho. apply signal_scan_ext; [done..| |]; intros n; unfold scan_cell, set_cell; cbn [cells];
    destruct (decide (n = name)); try done.
  by rewrite !dedupe_cell_of, dedupe_replay.
Qed.

(** The canonical text does not depend on the order of the signals, when no
    two of them share layer, metric and evidence basis. *)
Theorem canonical_order_independent `{FloatRepr} series1 series2 policy ws we r1 :
  NoDup (map series_identity series1) -> series1 ≡ₚ series2 ->
  compute_did series1 policy ws we = Ok r1 ->
  exists r2, compute_did series2 policy ws we = Ok r2 /\ result_canonical_json r2 = result_canonical_json r1.
Proof.
  unfold compute_did. intros Hnd Hp (k1 & Hk1 & [= <-])%bind_Ok. rewrite mapM_Ok in Hk1.
  destruct (Permutation_Forall2 Hp Hk1) as (k2 & Hk & Hk2).
  apply mapM_Ok in Hk2. rewrite Hk2. cbn. eexists. split; [done|]. unfold result_canonical_json. cbn [signals policy_provenance].
  rewrite (sort_canonical k1 k2); [done| |done].
  replace (map identity k1) with (map series_identity series1); [done|].
  clear -Hk1. induction Hk1 as [|s d l k Hs _ IH]; cbn; [done|]. f_equal; [|done]. symmetry. by eapply signal_identity.
Qed.

(** ** Witnesses *)

Module Witness.

Definition flt (neg : bool) (n d : Z) : f64 := f64_of (nearest_f64 neg n d).
Definition at_day (n : Z) : datetime := {| wall := 738000 * DAY + n * DAY; tz := Some utc |}.
Definition naive_day (n : Z) : datetime := {| wall := 738000 * DAY + n * DAY; tz := None |}.

(** A cell of values in tenths, one observation a day. *)
Definition cell (day : Z) (vs : list Z) : CellObservation :=
  {| repeat_values := (fun v => flt false v 10) <$> vs;
     timestamps := (fun i => at_day (day + Z.of_nat i)) <$> seq 0 (length vs); observation_ids := None |}.

Definition series_of (metric : pystr) (bt pt bc pc : list Z) : SignalSeries :=
  {| layer := u"engine"; metric_id := metric; evidence_basis_id := u"basis";
     cells := fun name => match name with
       | baseline_treatment => Some (cell 0 bt) | post_treatment => Some (cell 10 pt)
       | baseline_control => Some (cell 0 bc) | post_control => Some (cell 10 pc) end |}.

Definition policy_of (threshold : f64) : DiDPolicy :=
  {| min_repeats := 3; effect_threshold := threshold; provenance := test_fixture |}.
Definition policy := policy_of (flt false 1 2).

Definition series0 := series_of (u"citations") [10; 11; 12] [30; 31; 32] [10; 10; 10] [15; 15; 15].

(** Treatment rises by 2, control by 0.5: the lift is 1.5, and meets 0.5. *)
Example lift_example :
  match _compute_signal series0 policy None None with
  | Ok s => bool_decide (net_of_control_lift s = Some (flt false 3 2)) && bool_decide (insufficiency_codes s = [])
            && bool_decide (meets_effect_threshold s = Some true)
            && bool_decide (sign_stable_under_leave_one_out s = Some true)
            && bool_decide (min_detectable_margin s = Some (flt false 1 1))
  | Raise _ => false
  end = true.
Proof. vm_compute. reflexivity. Qed.

Lemma signal_report_exact_witness :
  exists s, _compute_signal series0 policy None None = Ok s /\ NoDup (insufficiency_codes s).
Proof.
  destruct (_compute_signal series0 policy None None) as [s|e] eqn:E; [|vm_compute in E; discriminate E].
  exists s. split; [reflexivity|]. destruct (signal_report_exact _ _ _ _ _ E) as (scan & _ & _ & Hnd & _). exact Hnd.
Defined.

Lemma wf_series_of metric bt pt bc pc :
  forallb (fun l => match make_CellObservation (cell 0 l) with Ok _ => true | Raise _ => false end) [bt; pt; bc; pc] = true ->
  wf_series (series_of metric bt pt bc pc).
Proof.
  assert (forall day l, is_ok (make_CellObservation (cell 0 l)) = true -> make_CellObservation (cell day l) = Ok (cell day l)) as Hcell.
  { intros day l. unfold make_CellObservation, cell. cbn [repeat_values timestamps observation_ids].
    rewrite !length_fmap. destruct l; cbn; [done|]. by destruct (negb _). }
  cbn. intros Hall name c Hc. bprop. destruct Hall as (H1 & H2 & H3 & H4 & _).
  destruct name; injection Hc as <-; by apply Hcell.
Qed.

Lemma did_answers_witness :
  exists r, compute_did [series0] policy (Some (at_day 0)) (Some (at_day 12)) = Ok r /\ length (signals r) = 1%nat.
Proof.
  destruct (did_answers [series0] policy (Some (at_day 0)) (Some (at_day 12))) as [H|[H _]]; [| |exact H|].
  - constructor; [|constructor]. apply wf_series_of. vm_compute. reflexivity.
  - split; [vm_compute; reflexivity|]. split; vm_compute; discriminate.
  - vm_compute in H. discriminate H.
Defined.

(** The naive timestamps of one signal abort the whole batch, in a window. *)
Example naive_timestamp_aborts :
  compute_did [series0; {| layer := u"engine"; metric_id := u"m"; evidence_basis_id := u"basis";
     cells := fun _ => Some {| repeat_values := [flt false 1 1]; timestamps := [naive_day 1]; observation_ids := None |} |}]
    policy (Some (at_day 0)) (Some (at_day 12)) = Raise TypeError.
Proof. vm_compute. reflexivity. Qed.

(** So do an infinite threshold and one past the 60 digits of the rounding. *)
Example infinite_threshold_raises :
  compute_did [series0] (policy_of (f64_of (S754_infinity false))) None None = Raise OverflowError.
Proof. vm_compute. reflexivity. Qed.

Example large_threshold_raises :
  compute_did [series0] (policy_of (flt false (10 ^ 60) 1)) None None = Raise InvalidOperation.
Proof. vm_compute. reflexivity. Qed.

(** A threshold below half of 10 ** -12 is rounded to zero, which a lift of
    zero meets. *)
Example tiny_threshold_is_zero :
  match _compute_signal (series_of (u"m") [10; 10; 10] [20; 20; 20] [10; 10; 10] [20; 20; 20])
          (policy_of (flt false 1 (10 ^ 13))) None None with
  | Ok s => meets_effect_threshold s
  | Raise _ => None
  end = Some true.
Proof. vm_compute. reflexivity. Qed.

Lemma common_trend_cancels_witness :
  exists s, _compute_signal (series_of (u"m") [10; 10; 10] [25; 25; 25] [20; 20; 20] [35; 35; 35]) policy None None = Ok s /\
            net_of_control_lift s = Some (f64_of (S754_zero false)).
Proof.
  destruct (_compute_signal (series_of (u"m") [10; 10; 10] [25; 25; 25] [20; 20; 20] [35; 35; 35]) policy None None)
    as [s|e] eqn:E; [|vm_compute in E; discriminate E].
  exists s. split; [reflexivity|].
  eapply (common_trend_cancels _ _ _ _ _
    (fun name => match scan_cell (series_of (u"m") [10; 10; 10] [25; 25; 25] [20; 20; 20] [35; 35; 35]) None None name with
                 | Ok sc => default 0%Q (cell_mean sc) | Raise _ => 0%Q end)); [|vm_compute; reflexivity|exact E].
  intros name. destruct name; eexists; (split; [vm_compute; reflexivity|vm_compute; reflexivity]).
Defined.

Definition obs (i : pystr) (v : Z) (d : Z) : pystr * (f64 * datetime) := (i, (flt false v 10, at_day d)).

Lemma replay_changes_nothing_witness :
  _compute_signal (set_cell series0 post_treatment
    (cell_of ([obs (u"a") 30 10; obs (u"b") 31 11] ++ obs (u"a") 30 10 :: [obs (u"c") 32 12]))) policy None None =
  _compute_signal (set_cell series0 post_treatment
    (cell_of ([obs (u"a") 30 10; obs (u"b") 31 11] ++ [obs (u"c") 32 12]))) policy None None.
Proof. apply replay_changes_nothing. left. Defined.

(** An identity that comes back with another value is a conflict. *)
Example conflict_example :
  match _compute_signal (set_cell series0 post_treatment
    (cell_of [obs (u"a") 30 10; obs (u"b") 31 11; obs (u"c") 31 11; obs (u"a") 90 10])) policy None None with
  | Ok s => insufficiency_codes s
  | Raise _ => []
  end = [DUPLICATE_OBSERVATION_CONFLICT].
Proof. vm_compute. reflexivity. Qed.

Definition series1 := series_of (u"clicks") [10; 10; 10] [12; 12; 12] [10; 10; 10] [10; 10; 10].

Lemma canonical_order_independent_witness :
  exists r1 r2, compute_did [series0; series1] policy None None = Ok r1 /\
    compute_did [series1; series0] policy None None = Ok r2 /\
    @result_canonical_json sci_float_repr r2 = @result_canonical_json sci_float_repr r1.
Proof.
  destruct (compute_did [series0; series1] policy None None) as [r1|e] eqn:E; [|vm_compute in E; discriminate E].
  destruct (@canonical_order_independent sci_float_repr [series0; series1] [series1; series0] policy None None r1)
    as (r2 & H2 & Heq); [by_decide|constructor|exact E|].
  exists r1, r2. split; [reflexivity|]. split; [exact H2|exact Heq].
Defined.

(** With one identity for two signals the text follows the input order. *)
Definition same_identity := series_of (u"citations") [10; 10; 10] [12; 12; 12] [10; 10; 10] [10; 10; 10].

Example duplicate_identity_order :
  match compute_did [series0; same_identity] policy None None, compute_did [same_identity; series0] policy None None with
  | Ok r1, Ok r2 => bool_decide (@result_canonical_json sci_float_repr r1 = @result_canonical_json sci_float_repr r2)
  | _, _ => true
  end = false.
Proof. vm_compute. reflexivity. Qed.
End Witness.
