(* ===== verification/Grs.v ===== *)
(** The readiness score's policy (measurement/grs.py): signed bundles of opaque
    thresholds, loaded fail-closed, and the evaluation of eligibility.

    The signature verifier is an argument; it may answer any object or raise. *)

From S2P Require Import Prelude PyStr Regex Sha256 PyVal Canonical PyCmp.
Local Open Scope N_scope.

Inductive PolicyProvenance := PRODUCTION | TEST_FIXTURE.

#[export] Instance PolicyProvenance_eq_dec : EqDecision PolicyProvenance.
Proof. solve_decision. Defined.

Definition provenance_value (p : PolicyProvenance) : pystr :=
  match p with PRODUCTION => u"production" | TEST_FIXTURE => u"test_fixture" end.

Inductive GrsEligibility := ELIGIBLE | DENY | UNDETERMINED.

#[export] Instance GrsEligibility_eq_dec : EqDecision GrsEligibility.
Proof. solve_decision. Defined.

(** Three dotted numerals without leading zeros. *)
Definition semver_part : re := Alt (chr 48) (Cat (Cls (in_range 49 57)) (Star (Cls ascii_digit))).
Definition _SEMVER_RE : re :=
  Cat semver_part (Cat (chr 46) (Cat semver_part (Cat (chr 46) semver_part))).

(** Why a bundle is refused; the source's reason texts. *)
Inductive refusal :=
  | NotAMapping | MissingKeys (keys : list pystr) | ValuesNotAMapping | UnrecognizedProvenance
  | VersionNotAString | TestFixtureNotLoadable | SignatureRequired | VerifierRequired | Malformed
  | VerifierRaised | VerificationFailed.

Section grs.
Context `{FloatRepr}.

(** [_canonical_payload] *)
Definition _canonical_payload (version : pystr) (values : list (pystr * pyval)) (provenance : PolicyProvenance)
    : result pyexn pystr :=
  canonical_json (PDict [(u"provenance", PStr (provenance_value provenance));
                         (u"values", PDict values); (u"version", PStr version)]).

Definition compute_bundle_hash (version : pystr) (values : list (pystr * pyval)) (provenance : PolicyProvenance)
    : result pyexn pystr :=
  payload ← _canonical_payload version values provenance; sha256_hex payload.

Record GrsPolicyBundle := {
  gb_version : pystr; gb_values : list (pystr * pyval); gb_provenance : PolicyProvenance;
  gb_test_only : bool; bundle_hash : pystr
}.

(** [GrsPolicyBundle(...)] and its [__post_init__]. *)
Definition make_GrsPolicyBundle (version : pystr) (values : list (pystr * pyval)) (provenance : PolicyProvenance)
    (test_only : bool) : result pyexn GrsPolicyBundle :=
  _ ← raise_if (negb (re_match _SEMVER_RE version)) ValueError;
  let expected_test_only := bool_decide (provenance = TEST_FIXTURE) in
  _ ← raise_if (negb (Bool.eqb test_only expected_test_only)) ValueError;
  digest ← try_except (compute_bundle_hash version values provenance)
             (fun e => match e with TypeError => Raise ValueError | e => Raise e end);
  Ok {| gb_version := version; gb_values := values; gb_provenance := provenance;
        gb_test_only := test_only; bundle_hash := digest |}.

(** [require_threshold]; [None] is the [ThresholdMissingError]. *)
Definition require_threshold (b : GrsPolicyBundle) (key : pystr) : option pyval := dget (gb_values b) key.

Definition _FIXTURE_DEFAULT_VERSION : pystr := u"0.0.0".

Definition make_test_fixture_policy (values : option (list (pystr * pyval))) (version : pystr)
    : result pyexn GrsPolicyBundle :=
  make_GrsPolicyBundle version (default [] values) TEST_FIXTURE true.

(** [PolicyProvenance(raw)] *)
Definition _coerce_provenance (raw : pyval) : result refusal PolicyProvenance :=
  match raw with
  | PStr s => if decide (s = u"production") then Ok PRODUCTION
              else if decide (s = u"test_fixture") then Ok TEST_FIXTURE
              else Raise UnrecognizedProvenance
  | _ => Raise UnrecognizedProvenance
  end.

Definition SignatureVerifier : Type := pystr -> pystr -> result pyexn pyval.

(** [load_policy_bundle] *)
Definition load_policy_bundle (raw : pyval) (signature : option pystr) (verifier : option SignatureVerifier)
    : result refusal GrsPolicyBundle :=
  match raw with
  | PDict items =>
      let missing := List.filter (fun k => match dget items k with None => true | Some _ => false end)
                       [u"version"; u"values"; u"provenance"] in
      _ ← raise_if (negb (bool_decide (missing = []))) (MissingKeys missing);
      match dget items (u"values") with
      | Some (PDict raw_values) =>
          provenance ← _coerce_provenance (default PNone (dget items (u"provenance")));
          match dget items (u"version") with
          | Some (PStr version) =>
              _ ← raise_if (bool_decide (provenance = TEST_FIXTURE)) TestFixtureNotLoadable;
              match signature, verifier with
              | None, _ => Raise SignatureRequired
              | Some _, None => Raise VerifierRequired
              | Some signature, Some verify =>
                  bundle ← try_except (make_GrsPolicyBundle version raw_values provenance false)
                             (fun _ => Raise Malformed);
                  accepted ← try_except (verify (bundle_hash bundle) signature) (fun _ => Raise VerifierRaised);
                  _ ← raise_if (match accepted with PBool true => false | _ => true end) VerificationFailed;
                  Ok bundle
              end
          | _ => Raise VersionNotAString
          end
      | _ => Raise ValuesNotAMapping
      end
  | _ => Raise NotAMapping
  end.

(** ** Eligibility *)

Inductive comparator := at_least | at_most.

Definition _REQUIRED_THRESHOLDS : list (pystr * pystr * comparator) :=
  [(u"min_grs", u"grs", at_least);
   (u"min_independent_layers", u"independent_layers", at_least);
   (u"max_open_incidents", u"open_incidents", at_most)].

Definition _passes (c : comparator) (observed threshold : pyval) : result pyexn bool :=
  match c with at_least => py_ge observed threshold | at_most => py_le observed threshold end.

Record GrsDecision := {
  decision : GrsEligibility; reason : pystr; policy_version : option pystr;
  decision_bundle_hash : option pystr; decision_provenance : option PolicyProvenance;
  is_production_valid : bool
}.

(** The loop over the thresholds: the reason of the first denial. *)
Fixpoint check_thresholds (inputs : list (pystr * pyval)) (b : GrsPolicyBundle)
    (l : list (pystr * pystr * comparator)) : option pystr :=
  match l with
  | [] => None
  | (threshold_key, input_key, c) :: l =>
      match require_threshold b threshold_key with
      | None => Some (u"grs_threshold_missing:" ++ threshold_key)
      | Some threshold =>
          match dget inputs input_key with
          | None => Some (u"grs_input_missing:" ++ input_key)
          | Some observed =>
              match _passes c observed threshold with
              | Raise _ => Some (u"grs_malformed_threshold_value:" ++ threshold_key)
              | Ok false => Some (u"grs_threshold_not_met:" ++ threshold_key)
              | Ok true => check_thresholds inputs b l
              end
          end
      end
  end.

Definition evaluate_grs_eligibility (inputs : list (pystr * pyval)) (bundle : option GrsPolicyBundle) : GrsDecision :=
  match bundle with
  | None => {| decision := UNDETERMINED; reason := u"grs_policy_missing"; policy_version := None;
               decision_bundle_hash := None; decision_provenance := None; is_production_valid := false |}
  | Some b =>
      let is_production_valid := bool_decide (gb_provenance b = PRODUCTION) && negb (gb_test_only b) in
      let _decision outcome reason :=
        {| decision := outcome; reason := reason; policy_version := Some (gb_version b);
           decision_bundle_hash := Some (bundle_hash b); decision_provenance := Some (gb_provenance b);
           is_production_valid := is_production_valid |} in
      match check_thresholds inputs b _REQUIRED_THRESHOLDS with
      | Some reason => _decision DENY reason
      | None => _decision ELIGIBLE (u"grs_eligible")
      end
  end.
End grs.

(** ** Lemmas *)

Section lemmas.
Context `{FloatRepr}.

Definition payload_of (version : pystr) (values : list (pystr * pyval)) (provenance : PolicyProvenance) : pyval :=
  PDict [(u"provenance", PStr (provenance_value provenance)); (u"values", PDict values); (u"version", PStr version)].

Lemma serializable_payload version values provenance :
  serializable (payload_of version values provenance) = serializable (PDict values).
Proof. cbn. by rewrite !andb_true_r. Qed.

Lemma compute_bundle_hash_spec version values provenance :
  compute_bundle_hash version values provenance =
  if serializable (PDict values) then Ok (hexdigest (dumps (payload_of version values provenance))) else Raise TypeError.
Proof.
  unfold compute_bundle_hash, _canonical_payload, canonical_json, json_dumps.
  fold (payload_of version values provenance). rewrite serializable_payload.
  destruct (serializable (PDict values)); [|done]. cbn [mbind result_bind]. by rewrite sha256_hex_dumps.
Qed.

Lemma make_bundle_Ok version values provenance test_only b :
  make_GrsPolicyBundle version values provenance test_only = Ok b <->
  re_match _SEMVER_RE version = true /\ test_only = bool_decide (provenance = TEST_FIXTURE) /\
  serializable (PDict values) = true /\
  b = {| gb_version := version; gb_values := values; gb_provenance := provenance; gb_test_only := test_only;
         bundle_hash := hexdigest (dumps (payload_of version values provenance)) |}.
Proof.
  unfold make_GrsPolicyBundle. rewrite !seq_Ok, !raise_if_Ok, compute_bundle_hash_spec.
  rewrite !negb_false_iff, eqb_true_iff.
  destruct (serializable (PDict values)); cbn [try_except mbind result_bind]; split; naive_solver.
Qed.

Lemma make_bundle_Raise version values provenance test_only e :
  make_GrsPolicyBundle version values provenance test_only = Raise e -> e = ValueError.
Proof.
  unfold make_GrsPolicyBundle. rewrite compute_bundle_hash_spec. unfold raise_if.
  repeat case_if; cbn; naive_solver.
Qed.

(** The payload determines the bundle, up to the order of dict items. *)
Lemma payload_inj version1 values1 p1 version2 values2 p2 :
  payload_of version1 values1 p1 ≡ payload_of version2 values2 p2 ->
  version1 = version2 /\ p1 = p2 /\ PDict values1 ≡ PDict values2.
Proof.
  intros Heq. assert (forall v d p, NoDup ([(u"provenance", PStr p); (u"values", PDict d); (u"version", PStr v)] : list (pystr * pyval)).*1) as Hnd
    by (intros; apply (bool_decide_unpack _); reflexivity).
  pose proof (fun k => dget_equiv _ _ k (Hnd _ _ _) (Hnd _ _ _) Heq) as Hk.
  pose proof (Hk (u"version")) as Hversion. pose proof (Hk (u"values")) as Hvalues.
  pose proof (Hk (u"provenance")) as Hprov. clear Hk. cbn in Hversion, Hprov. injection Hversion as Hversion.
  injection Hprov as Hprov. split; [done|]. split; [by destruct p1, p2|].
  change (Some (canon (PDict values1)) = Some (canon (PDict values2))) in Hvalues. exact (f_equal (default PNone) Hvalues).
Qed.

(** The digest commits to the content: two bundles with one digest agree, or
    their payloads are a SHA-256 collision. *)
Lemma bundle_hash_commits version1 values1 p1 version2 values2 p2 :
  wf_val (PDict values1) -> wf_val (PDict values2) ->
  scalar_str version1 -> scalar_str version2 -> scalar_val (PDict values1) -> scalar_val (PDict values2) ->
  serializable (PDict values1) = true -> serializable (PDict values2) = true ->
  hexdigest (dumps (payload_of version1 values1 p1)) = hexdigest (dumps (payload_of version2 values2 p2)) ->
  version1 = version2 /\ p1 = p2 /\ PDict values1 ≡ PDict values2 \/
  text_collision (dumps (payload_of version1 values1 p1)) (dumps (payload_of version2 values2 p2)).
Proof.
  intros Hw1 Hw2 Hv1 Hv2 Hs1 Hs2 Hz1 Hz2 [Heq|Hcol]%hexdigest_eq; [left|by right].
  assert (forall v d p, wf_val (PDict d) -> wf_val (payload_of v d p)) as Hwf.
  { intros v d p Hd. split; [apply (bool_decide_unpack _); reflexivity|]. exact (conj I (conj Hd (conj I I))). }
  assert (forall v d p, scalar_str v -> scalar_val (PDict d) -> scalar_val (payload_of v d p)) as Hsc.
  { intros v d p Hv Hd.
    refine (conj (conj _ _) (conj (conj _ Hd) (conj (conj _ Hv) I))); try destruct p; apply scalar_strb; by vm_compute. }
  apply payload_inj. eapply canonical_json_inj; [by apply Hwf|by apply Hwf|by apply Hsc|by apply Hsc| |];
    apply canonical_json_Ok; rewrite serializable_payload; [split; [done|reflexivity]|by split].
Qed.
End lemmas.

(** *** Loading *)

Section theorems.
Context `{FloatRepr}.

(** Everything a load asks for. *)
Record loadable (raw : pyval) (signature : option pystr) (verifier : option SignatureVerifier)
    (b : GrsPolicyBundle) : Prop := {
  ld_raw : exists items, raw = PDict items /\ dget items (u"values") = Some (PDict (gb_values b)) /\
    dget items (u"version") = Some (PStr (gb_version b)) /\ dget items (u"provenance") = Some (PStr (u"production"));
  ld_semver : re_match _SEMVER_RE (gb_version b) = true;
  ld_serializable : serializable (PDict (gb_values b)) = true;
  ld_production : gb_provenance b = PRODUCTION /\ gb_test_only b = false;
  ld_digest : bundle_hash b = hexdigest (dumps (payload_of (gb_version b) (gb_values b) PRODUCTION));
  ld_signed : exists s v, signature = Some s /\ verifier = Some v /\ v (bundle_hash b) s = Ok (PBool true)
}.

Lemma loadable_of_load raw signature verifier b :
  load_policy_bundle raw signature verifier = Ok b -> loadable raw signature verifier b.
Proof.
  unfold load_policy_bundle. destruct raw as [| | | | | | |items]; try done.
  intros [Hmiss Hload]%seq_Ok. destruct (dget items (u"values")) as [[| | | | | | |values]|] eqn:Hvals; try done.
  apply bind_Ok in Hload as (prov & Hprov & Hload).
  destruct (dget items (u"version")) as [[| | | |version| | |]|] eqn:Hver; try done.
  apply seq_Ok in Hload as [Hfix Hload]. rewrite raise_if_Ok, bool_decide_eq_false in Hfix.
  destruct prov; [|done].
  destruct signature as [s|], verifier as [v|]; try done.
  apply bind_Ok in Hload as (b' & Hb & Hload). apply bind_Ok in Hload as (acc & Hacc & Hload).
  apply seq_Ok in Hload as [Htrue [= <-]].
  destruct (make_GrsPolicyBundle version values PRODUCTION false) as [b''|] eqn:Hmake; [|done]. injection Hb as <-.
  apply make_bundle_Ok in Hmake as (Hsem & _ & Hser & ->). cbn [bundle_hash] in Hacc.
  assert (dget items (u"provenance") = Some (PStr (u"production"))) as Hp.
  { unfold _coerce_provenance in Hprov. destruct (dget items (u"provenance")) as [[]|]; cbn in Hprov; try done.
    repeat case_decide; by subst. }
  split; cbn [gb_version gb_values gb_provenance gb_test_only bundle_hash]; try done; [by exists items|].
  exists s, v. split; [done|]. split; [done|].
  destruct (v _ s) as [a|]; [|done]. cbn in Hacc. injection Hacc as ->. by destruct acc as [|[]| | | | | |].
Qed.

Lemma load_of_loadable raw signature verifier b :
  loadable raw signature verifier b -> load_policy_bundle raw signature verifier = Ok b.
Proof.
  intros [(items & -> & Hvals & Hver & Hprov) Hsem Hser [Hp Ht] Hdig (s & v & -> & -> & Hv)].
  unfold load_policy_bundle. cbn [List.filter]. rewrite Hvals, Hver, Hprov. cbn [raise_if negb bool_decide mbind result_bind default].
  assert (make_GrsPolicyBundle (gb_version b) (gb_values b) PRODUCTION false = Ok b) as Hmake.
  { apply make_bundle_Ok. rewrite Hsem, Hser. destruct b; cbn in *; subst. done. }
  cbn -[make_GrsPolicyBundle]. rewrite decide_True by done. cbn -[make_GrsPolicyBundle]. rewrite Hmake.
  cbn [try_except mbind result_bind]. by rewrite Hv.
Qed.



(** ** Theorems *)

(** A policy bundle is loaded exactly when its payload is a mapping with a
    semantic version, serializable values and the production label, and the
    verifier answers [True] itself for the digest of that very content and the
    signature given; anything else, a verifier that raises included, is a
    refusal. *)
Theorem loaded_exactly raw signature verifier b :
  load_policy_bundle raw signature verifier = Ok b <-> loadable raw signature verifier b.
Proof. split; [apply loadable_of_load|apply load_of_loadable]. Qed.

(** A digest commits to the policy: two loaded bundles with one digest have
    the same version and the same values under every key, or their payloads
    are a SHA-256 collision; so a signature cannot be moved to other
    thresholds. *)
Theorem signed_digest_commits raw1 raw2 sig1 sig2 ver1 ver2 b1 b2 :
  wf_val raw1 -> wf_val raw2 -> scalar_val raw1 -> scalar_val raw2 ->
  load_policy_bundle raw1 sig1 ver1 = Ok b1 -> load_policy_bundle raw2 sig2 ver2 = Ok b2 ->
  bundle_hash b1 = bundle_hash b2 ->
  gb_version b1 = gb_version b2 /\
  (forall key, canon <$> require_threshold b1 key = canon <$> require_threshold b2 key) \/
  text_collision (dumps (payload_of (gb_version b1) (gb_values b1) PRODUCTION))
                 (dumps (payload_of (gb_version b2) (gb_values b2) PRODUCTION)).
Proof.
  intros Hw1 Hw2 Hs1 Hs2 H1%loadable_of_load H2%loadable_of_load Heq.
  destruct H1 as [(i1 & -> & Hvals1 & Hver1 & _) Hsem1 Hser1 [Hp1 _] Hd1 _].
  destruct H2 as [(i2 & -> & Hvals2 & Hver2 & _) Hsem2 Hser2 [Hp2 _] Hd2 _].
  rewrite Hd1, Hd2 in Heq.
  pose proof (dget_wf _ _ _ Hw1 Hvals1) as Hwv1. pose proof (dget_wf _ _ _ Hw2 Hvals2) as Hwv2.
  destruct (bundle_hash_commits (gb_version b1) (gb_values b1) PRODUCTION (gb_version b2) (gb_values b2) PRODUCTION)
    as [(Hv & _ & Hvals)|Hcol]; eauto using dget_wf, dget_scalar.
  - apply (dget_scalar _ _ _ Hs1 Hver1).
  - apply (dget_scalar _ _ _ Hs2 Hver2).
  - left. split; [done|]. intros key. unfold require_threshold. apply dget_equiv; [apply Hwv1|apply Hwv2|done].
Qed.


End theorems.

(** ** Witnesses *)

Module Witness.
#[local] Existing Instance sci_float_repr.

Definition thresholds : list (pystr * pyval) :=
  [(u"min_grs", PInt 70); (u"min_independent_layers", PInt 2); (u"max_open_incidents", PInt 0)].
Definition raw (version : pystr) (values : list (pystr * pyval)) : pyval :=
  PDict [(u"version", PStr version); (u"values", PDict values); (u"provenance", PStr (u"production"))].

(** A verifier that accepts the signature "ok" over anything. *)
Definition lenient : SignatureVerifier := fun _ s => Ok (PBool (bool_decide (s = u"ok"))).
Definition loaded (r : pyval) : option GrsPolicyBundle := result_to_option (load_policy_bundle r (Some (u"ok")) (Some lenient)).

Definition obs (grs layers incidents : Z) : list (pystr * pyval) :=
  [(u"grs", PInt grs); (u"independent_layers", PInt layers); (u"open_incidents", PInt incidents)].

Example eligible_example :
  map (fun i => decision (evaluate_grs_eligibility i (loaded (raw (u"1.0.0") thresholds))))
    [obs 70 2 0; obs 69 2 0; obs 70 1 0; obs 70 2 1] = [ELIGIBLE; DENY; DENY; DENY].
Proof. vm_compute. reflexivity. Qed.

(** A bundle built directly, without signature or verifier. *)
Example unsigned_bundle_is_valid :
  match make_GrsPolicyBundle (u"1.0.0") thresholds PRODUCTION false with
  | Ok b => let d := evaluate_grs_eligibility (obs 70 2 0) (Some b) in
            (decision d, is_production_valid d)
  | Raise _ => (DENY, false)
  end = (ELIGIBLE, true).
Proof. vm_compute. reflexivity. Qed.

(** Reordered values are the same policy. *)
Lemma signed_digest_commits_witness :
  exists b1 b2, load_policy_bundle (raw (u"1.0.0") thresholds) (Some (u"ok")) (Some lenient) = Ok b1 /\
    load_policy_bundle (raw (u"1.0.0") (rev thresholds)) (Some (u"ok")) (Some lenient) = Ok b2 /\
    gb_version b1 = gb_version b2.
Proof.
  destruct (load_policy_bundle (raw (u"1.0.0") thresholds) (Some (u"ok")) (Some lenient)) as [b1|] eqn:E1; [|vm_compute in E1; discriminate E1].
  destruct (load_policy_bundle (raw (u"1.0.0") (rev thresholds)) (Some (u"ok")) (Some lenient)) as [b2|] eqn:E2; [|vm_compute in E2; discriminate E2].
  exists b1, b2. split; [reflexivity|]. split; [reflexivity|].
  destruct (signed_digest_commits _ _ _ _ _ _ b1 b2 (wf_valb_wf (raw (u"1.0.0") thresholds) eq_refl)
    (wf_valb_wf (raw (u"1.0.0") (rev thresholds)) eq_refl) (scalar_valb_scalar (raw (u"1.0.0") thresholds) eq_refl)
    (scalar_valb_scalar (raw (u"1.0.0") (rev thresholds)) eq_refl) E1 E2)
    as [[Hv _]|[Hne _]]; [|exact Hv|].
  - vm_compute in E1. vm_compute in E2. injection E1 as <-. injection E2 as <-. reflexivity.
  - destruct Hne. vm_compute in E1. vm_compute in E2. injection E1 as <-. injection E2 as <-. vm_compute. reflexivity.
Defined.

(** A verifier that answers a truthy object, or raises, is refused. *)
Example truthy_verifier_refused :
  (load_policy_bundle (raw (u"1.0.0") thresholds) (Some (u"ok")) (Some (fun _ _ => Ok (PInt 1))),
   load_policy_bundle (raw (u"1.0.0") thresholds) (Some (u"ok")) (Some (fun _ _ => Raise ValueError)))
  = (Raise VerificationFailed, Raise VerifierRaised).
Proof. vm_compute. reflexivity. Qed.

(** A version that ends in a line feed passes the pattern. *)
Example newline_version_accepted :
  match make_test_fixture_policy None (u"1.0.0" ++ [10]) with Ok b => bool_decide (gb_version b = u"1.0.0" ++ [10]) | Raise _ => false end = true.
Proof. vm_compute. reflexivity. Qed.

(** Thresholds of another type deny, they do not raise. *)
Example malformed_threshold_denies :
  reason (evaluate_grs_eligibility (obs 70 2 0) (loaded (raw (u"1.0.0") ((u"min_grs", PStr (u"high")) :: tail thresholds))))
  = u"grs_malformed_threshold_value:min_grs".
Proof. vm_compute. reflexivity. Qed.
End Witness.
