(* ===== verification/Evidence.v ===== *)
(** Evidence-bundle manifests (measurement/evidence.py): the guard against raw
    content, content-addressed entries, the chain of commitments sealed into a
    manifest and its verification, completeness, and tenant-scoped retrieval.

    The models are built with their field constraints and validators; the
    free-form [extra] map of the metadata holds JSON values. *)

From S2P Require Import Prelude PyStr Regex Sha256 PyVal Canonical.
Local Open Scope N_scope.

(** [^sha256:[0-9a-f]{64}$]; the pattern engine of the models gives [$] the
    end of the text only. *)
Definition _SHA256_REF_PATTERN : re := Cat (lit _SHA256_PREFIX) (rep 64 (Cls lower_hex)).

Inductive EvidenceKind :=
  | REGISTRATION | DEPLOYMENT_CONFIRMATION | BASELINE_OBSERVATION | TREATMENT_OBSERVATION
  | CONTROL_OBSERVATION | RAW_OBSERVATION_REF | DID_INPUTS | DID_OUTPUTS | B_GATE_DECISION
  | GRS_POLICY | MISSINGNESS_REPORT | REMEDIATION | ROLLBACK.

#[export] Instance EvidenceKind_eq_dec : EqDecision EvidenceKind.
Proof. solve_decision. Defined.

Definition kind_value (k : EvidenceKind) : pystr :=
  match k with
  | REGISTRATION => u"registration" | DEPLOYMENT_CONFIRMATION => u"deployment_confirmation"
  | BASELINE_OBSERVATION => u"baseline_observation" | TREATMENT_OBSERVATION => u"treatment_observation"
  | CONTROL_OBSERVATION => u"control_observation" | RAW_OBSERVATION_REF => u"raw_observation_ref"
  | DID_INPUTS => u"did_inputs" | DID_OUTPUTS => u"did_outputs" | B_GATE_DECISION => u"b_gate_decision"
  | GRS_POLICY => u"grs_policy" | MISSINGNESS_REPORT => u"missingness_report"
  | REMEDIATION => u"remediation" | ROLLBACK => u"rollback"
  end.

Definition _OBSERVATION_KINDS : list EvidenceKind :=
  [BASELINE_OBSERVATION; TREATMENT_OBSERVATION; CONTROL_OBSERVATION].

Definition REQUIRED_B_GATE_KINDS : list EvidenceKind :=
  [REGISTRATION; DEPLOYMENT_CONFIRMATION; BASELINE_OBSERVATION; TREATMENT_OBSERVATION;
   CONTROL_OBSERVATION; RAW_OBSERVATION_REF; DID_INPUTS; DID_OUTPUTS; B_GATE_DECISION; GRS_POLICY].

(** The reason categories of [RawContentRejectedError]. *)
Inductive rejection := forbidden_field_name | non_ascii_field_name | oversize_blob | secret_shaped_value.

(** [EvidenceDomainError] and its subclass, pydantic's [ValidationError] (with
    no field told apart), and what hashing lets through. *)
Inductive evidence_exn :=
  | RawContentRejected (field : pystr) (why : rejection)
  | MissingProvenance (kind : EvidenceKind) (missing : list pystr)
  | ChainMismatch
  | ValidationFailed
  | Builtin (e : pyexn).

(** ** The raw-content guard *)

Definition _MAX_FIELD_VALUE_LENGTH : nat := 4096.

Definition _FORBIDDEN_FIELD_NAME_MARKERS : list pystr :=
  [u"raw_response"; u"raw_content"; u"raw_html"; u"raw_body"; u"raw_screenshot"; u"screenshot";
   u"response_body"; u"response_text"; u"query_text"; u"secret"; u"password"; u"passwd"; u"api_key";
   u"apikey"; u"access_token"; u"auth_token"; u"private_key"; u"token"].

Section evidence.
Context `{UnicodeDB} `{FloatRepr}.

Definition _normalize_field_name (name : pystr) : pystr :=
  List.filter (fun c => negb ((c =? 45) || (c =? 95))) (casefold (nfkc name)).

Definition _NORMALIZED_FORBIDDEN_MARKERS : list pystr := _normalize_field_name <$> _FORBIDDEN_FIELD_NAME_MARKERS.

(** The secret shapes.  [\b] before a word character asks that no word
    character come before it. *)
Definition word_char (c : N) : bool := is_alnum c || (c =? 95).

Fixpoint boundary_search (after_word : bool) (r : re) (s : pystr) : bool :=
  negb after_word && accepts (Cat r any) s ||
  match s with [] => false | c :: s => boundary_search (word_char c) r s end.

Definition at_least_n (n : nat) (p : N -> bool) : re := Cat (rep n (Cls p)) (Star (Cls p)).
Definition dash_alnum (c : N) : bool := ascii_alnum c || (c =? 45).
Definition url_safe (c : N) : bool := ascii_alnum c || (c =? 45) || (c =? 95).
Definition upper_alnum (c : N) : bool := ascii_digit c || ascii_upper c.
Definition one_of (s : pystr) : re := Cls (fun c => bool_decide (c ∈ s)).

Definition jwt_part : re := at_least_n 10 url_safe.

Definition searched_patterns : list re :=
  [Cat (lit (u"sk-")) (at_least_n 20 ascii_alnum);
   Cat (lit (u"AKIA")) (rep 16 (Cls upper_alnum));
   Cat (lit (u"eyJ")) (Cat jwt_part (Cat (chr 46) (Cat jwt_part (Cat (chr 46) jwt_part))));
   Cat (lit (u"-----BEGIN ")) (Cat (Star (Cls (fun c => ascii_upper c || (c =? 32)))) (lit (u"PRIVATE KEY-----")));
   Cat (lit (u"gh")) (Cat (one_of (u"opsu")) (Cat (chr 95) (rep 36 (Cls ascii_alnum))));
   Cat (lit (u"xox")) (Cat (one_of (u"baprs")) (Cat (chr 45) (at_least_n 10 dash_alnum)));
   Cat (lit (u"AIza")) (rep 35 (Cls url_safe))].

Definition stripe_pattern (sep : N) : re :=
  Cat (one_of (u"sr")) (Cat (chr 107) (Cat (chr sep) (Cat (Alt (lit (u"live")) (lit (u"test")))
    (Cat (chr sep) (at_least_n 10 ascii_alnum))))).

Definition secret_shaped (s : pystr) : bool :=
  existsb (fun r => re_search r s) searched_patterns
  || boundary_search false (stripe_pattern 95) s || boundary_search false (stripe_pattern 45) s.

(** The two checks of a field's name. *)
Definition guard_name (name : pystr) : result evidence_exn unit :=
  let normalized_name := _normalize_field_name name in
  _ ← raise_if (existsb (fun marker => contains marker normalized_name) _NORMALIZED_FORBIDDEN_MARKERS)
        (RawContentRejected name forbidden_field_name);
  raise_if (negb (forallb (fun c => c <? 128) normalized_name)) (RawContentRejected name non_ascii_field_name).

Definition guard_string (name value : pystr) : result evidence_exn unit :=
  _ ← raise_if (_MAX_FIELD_VALUE_LENGTH <? length value)%nat (RawContentRejected name oversize_blob);
  raise_if (secret_shaped value) (RawContentRejected name secret_shaped_value).

(** [_guard_value]; a mapping is walked by [guard_evidence_fields]. *)
Fixpoint _guard_value (name : pystr) (value : pyval) : result evidence_exn unit :=
  match value with
  | PStr s => guard_string name s
  | PDict fields =>
      (fix go fields :=
         match fields with
         | [] => Ok tt
         | (k, v) :: fields => _ ← guard_name k; _ ← _guard_value k v; go fields
         end) fields
  | PList l =>
      (fix go l := match l with [] => Ok tt | v :: l => _ ← _guard_value name v; go l end) l
  | _ => Ok tt
  end.

Definition guard_evidence_fields (fields : list (pystr * pyval)) : result evidence_exn unit :=
  _guard_value [] (PDict fields).

(** ** Entries *)

Record EvidenceRef := { uri : pystr; ref_content_hash : pystr }.

(** [min_length] and [max_length] *)
Definition text_within (lo hi : nat) (s : pystr) : bool := (lo <=? length s)%nat && (length s <=? hi)%nat.
Definition opt_all (p : pystr -> bool) (o : option pystr) : bool := match o with Some s => p s | None => true end.

Definition make_EvidenceRef (r : EvidenceRef) : result evidence_exn EvidenceRef :=
  _ ← raise_if (negb (text_within 1 _MAX_FIELD_VALUE_LENGTH (uri r)
                      && re_fullmatch _SHA256_REF_PATTERN (ref_content_hash r))) ValidationFailed;
  _ ← guard_evidence_fields [(u"uri", PStr (uri r)); (u"content_hash", PStr (ref_content_hash r))];
  Ok r.

Record EvidenceMetadata := {
  timestamp : option pystr; client_version : option pystr; asset_hash : option pystr;
  citation : option pystr; citation_present : option bool; extra : option (list (pystr * pyval))
}.

Definition empty_metadata : EvidenceMetadata :=
  {| timestamp := None; client_version := None; asset_hash := None; citation := None;
     citation_present := None; extra := None |}.

(** The items of the payload whose value is not [None]. *)
Definition present_item (name : pystr) (o : option pystr) : list (pystr * pyval) :=
  match o with Some s => [(name, PStr s)] | None => [] end.

Definition make_EvidenceMetadata (m : EvidenceMetadata) : result evidence_exn EvidenceMetadata :=
  _ ← raise_if (negb (opt_all (text_within 1 64) (timestamp m) && opt_all (text_within 1 256) (client_version m)
                      && opt_all (re_fullmatch _SHA256_REF_PATTERN) (asset_hash m)
                      && opt_all (text_within 1 _MAX_FIELD_VALUE_LENGTH) (citation m))) ValidationFailed;
  _ ← guard_evidence_fields
        (present_item (u"timestamp") (timestamp m) ++ present_item (u"client_version") (client_version m)
         ++ present_item (u"asset_hash") (asset_hash m) ++ present_item (u"citation") (citation m)
         ++ match extra m with Some kvs => [(u"extra", PDict kvs)] | None => [] end);
  Ok m.

Definition has_explicit_citation_decision (m : EvidenceMetadata) : bool :=
  match citation m, citation_present m with None, None => false | _, _ => true end.

Record EvidenceEntry := { kind : EvidenceKind; ref : EvidenceRef; metadata : EvidenceMetadata }.

(** The missing provenance, sorted by name. *)
Definition missing_provenance (m : EvidenceMetadata) : list pystr :=
  let when (b : bool) name := if b then [name] else [] in
  sort_by id
    (when (bool_decide (timestamp m = None)) (u"timestamp")
     ++ when (bool_decide (client_version m = None)) (u"client_version")
     ++ when (bool_decide (asset_hash m = None)) (u"asset_hash")
     ++ when (negb (has_explicit_citation_decision m)) (u"citation_decision")).

Definition make_EvidenceEntry (e : EvidenceEntry) : result evidence_exn EvidenceEntry :=
  if decide (kind e ∈ _OBSERVATION_KINDS) then
    let missing := missing_provenance (metadata e) in
    _ ← raise_if (negb (bool_decide (missing = []))) (MissingProvenance (kind e) missing); Ok e
  else Ok e.

Definition dump_text (o : option pystr) : pyval := match o with Some s => PStr s | None => PNone end.

(** [content_material]: the JSON dump of the whole entry. *)
Definition content_material (e : EvidenceEntry) : pyval :=
  let m := metadata e in
  PDict [(u"kind", PStr (kind_value (kind e)));
         (u"ref", PDict [(u"uri", PStr (uri (ref e))); (u"content_hash", PStr (ref_content_hash (ref e)))]);
         (u"metadata", PDict
            [(u"timestamp", dump_text (timestamp m)); (u"client_version", dump_text (client_version m));
             (u"asset_hash", dump_text (asset_hash m)); (u"citation", dump_text (citation m));
             (u"citation_present", match citation_present m with Some b => PBool b | None => PNone end);
             (u"extra", match extra m with Some kvs => PDict kvs | None => PNone end)])].

Definition compute_entry_content_hash (e : EvidenceEntry) : result pyexn pystr := sha256_ref (content_material e).

(** ** The chain of commitments *)

Definition commitment_material (prev : option pystr) (entry_content_hash : pystr) (index : nat) : pyval :=
  PDict [(u"prev", dump_text prev); (u"entry_hash", PStr entry_content_hash); (u"index", PInt (Z.of_nat index))].

Definition _compute_commitment (prev : option pystr) (entry_content_hash : pystr) (index : nat) : result pyexn pystr :=
  sha256_ref (commitment_material prev entry_content_hash index).

(** The commitments of [entries], from position [index] on. *)
Fixpoint commitments_from (prev : option pystr) (index : nat) (entries : list EvidenceEntry) : result pyexn (list pystr) :=
  match entries with
  | [] => Ok []
  | e :: entries =>
      h ← compute_entry_content_hash e;
      c ← _compute_commitment prev h index;
      cs ← commitments_from (Some c) (S index) entries;
      Ok (c :: cs)
  end.

Definition compute_entry_commitments (entries : list EvidenceEntry) : result pyexn (list pystr) :=
  commitments_from None 0 entries.

Definition compute_manifest_hash (entries : list EvidenceEntry) : result pyexn (option pystr) :=
  last <$> compute_entry_commitments entries.

Record EvidenceBundleManifest := {
  tenant_id : pystr; run_id : pystr; experiment_id : pystr; entries : list EvidenceEntry;
  entry_commitments : list pystr; manifest_hash : option pystr
}.

Definition builtin {A} (m : result pyexn A) : result evidence_exn A := try_except m (fun e => Raise (Builtin e)).

Definition make_EvidenceBundleManifest (m : EvidenceBundleManifest) : result evidence_exn EvidenceBundleManifest :=
  _ ← raise_if (bool_decide (tenant_id m = []) || bool_decide (run_id m = []) || bool_decide (experiment_id m = []))
        ValidationFailed;
  expected_commitments ← builtin (compute_entry_commitments (entries m));
  _ ← raise_if (negb (bool_decide (entry_commitments m = expected_commitments)
                      && bool_decide (manifest_hash m = last expected_commitments))) ChainMismatch;
  Ok m.

Definition seal (tenant run experiment : pystr) (es : list EvidenceEntry) : result evidence_exn EvidenceBundleManifest :=
  commitments ← builtin (compute_entry_commitments es);
  make_EvidenceBundleManifest
    {| tenant_id := tenant; run_id := run; experiment_id := experiment; entries := es;
       entry_commitments := commitments; manifest_hash := last commitments |}.

(** The first index at which two chains differ, below the length of both. *)
Fixpoint first_difference (a b : list pystr) (index : nat) : option nat :=
  match a, b with
  | x :: a, y :: b => if decide (x = y) then first_difference a b (S index) else Some index
  | _, _ => None
  end.

Definition verify_manifest (m : EvidenceBundleManifest) : result pyexn (bool * option nat) :=
  recomputed ← compute_entry_commitments (entries m);
  let sealed := entry_commitments m in
  Ok (if bool_decide (recomputed = sealed) && bool_decide (last recomputed = manifest_hash m) then (true, None)
      else match first_difference recomputed sealed 0 with
           | Some i => (false, Some i)
           | None =>
               if (length recomputed =? length sealed)%nat then (false, None)
               else (false, Some (Nat.min (length recomputed) (length sealed)))
           end).

(** ** Completeness and retrieval *)

(** A frozenset of kinds as a list without duplicates. *)
Definition validate_completeness (m : EvidenceBundleManifest) : bool * list EvidenceKind :=
  let present := kind <$> entries m in
  let missing := filter (fun k => k ∉ present) REQUIRED_B_GATE_KINDS in
  (bool_decide (missing = []), missing).

Definition entry_for_tenant (m : EvidenceBundleManifest) (tenant : pystr) (index : Z) : option EvidenceEntry :=
  if decide (tenant ≠ tenant_id m) then None
  else if ((index <? 0) || (Z.of_nat (length (entries m)) <=? index))%Z then None
  else entries m !! Z.to_nat index.
End evidence.

(** ** Lemmas *)

(** *** The chain *)

Section chain.
Context `{FloatRepr}.

Lemma commitment_wf prev h i :
  (forall p, prev = Some p -> scalar_str p) -> scalar_str h ->
  wf_val (commitment_material prev h i) /\ scalar_val (commitment_material prev h i).
Proof.
  intros Hp Hh. split.
  - split; [apply (bool_decide_unpack _); reflexivity|]. by destruct prev.
  - refine (conj (conj _ _) (conj (conj _ Hh) (conj (conj _ I) I))); try (apply scalar_strb; by vm_compute).
    destruct prev; [by apply Hp|done].
Qed.

Lemma commitment_inj p1 h1 i1 p2 h2 i2 :
  commitment_material p1 h1 i1 ≡ commitment_material p2 h2 i2 -> p1 = p2 /\ h1 = h2 /\ i1 = i2.
Proof.
  intros Heq.
  assert (forall p h i, NoDup ([(u"prev", dump_text p); (u"entry_hash", PStr h); (u"index", PInt (Z.of_nat i))] : list (pystr * pyval)).*1)
    as Hnd by (intros; apply (bool_decide_unpack _); reflexivity).
  pose proof (fun k => dget_equiv _ _ k (Hnd _ _ _) (Hnd _ _ _) Heq) as Hk.
  pose proof (Hk (u"prev")) as Hp. pose proof (Hk (u"entry_hash")) as Hh. pose proof (Hk (u"index")) as Hi.
  cbn in Hp, Hh, Hi. injection Hh as Hh. injection Hi as Hi.
  split; [|split; [done|lia]]. destruct p1, p2; try discriminate Hp; [by injection Hp as ->|done].
Qed.

Lemma commitments_app prev i es e :
  commitments_from prev i (es ++ [e]) =
    cs ← commitments_from prev i es; h ← compute_entry_content_hash e;
    c ← _compute_commitment (match last cs with Some p => Some p | None => prev end) h (i + length es)%nat;
    Ok (cs ++ [c]).
Proof.
  revert prev i. induction es as [|x es IH]; intros prev i; cbn [commitments_from app length].
  - rewrite Nat.add_0_r. cbn. destruct (compute_entry_content_hash e); cbn; [|done].
    by destruct (_compute_commitment _ _ _).
  - destruct (compute_entry_content_hash x); cbn [mbind result_bind]; [|done].
    destruct (_compute_commitment prev a i) as [c|]; cbn [mbind result_bind]; [|done].
    rewrite IH. replace (S i + length es)%nat with (i + S (length es))%nat by lia.
    destruct (commitments_from (Some c) (S i) es) as [cs|]; cbn [mbind result_bind]; [|done].
    destruct (compute_entry_content_hash e) as [h|]; cbn [mbind result_bind]; [|done].
    assert ((match last (c :: cs) with Some p => Some p | None => prev end) =
            (match last cs with Some p => Some p | None => Some c end)) as ->.
    { destruct cs as [|c' cs]; [done|]. rewrite last_cons_cons. by destruct (last (c' :: cs)) eqn:Hl; [|apply last_None in Hl]. }
    by destruct (_compute_commitment _ _ _).
Qed.

(** Every commitment sequence, split at its last link. *)
Lemma commitments_snoc es e cs : compute_entry_commitments (es ++ [e]) = Ok cs ->
  exists cs' h c, cs = cs' ++ [c] /\ compute_entry_commitments es = Ok cs' /\
    compute_entry_content_hash e = Ok h /\ _compute_commitment (last cs') h (length es) = Ok c.
Proof.
  unfold compute_entry_commitments. rewrite commitments_app.
  intros (cs' & Hcs & (h & Hh & (c & Hc & [= <-])%bind_Ok)%bind_Ok)%bind_Ok.
  exists cs', h, c. split; [done|]. split; [done|]. split; [done|]. rewrite Nat.add_0_l in Hc.
  by destruct (last cs').
Qed.

(** The texts a chain hashes: of each entry, and of each link. *)
Inductive hashed : list EvidenceEntry -> pystr -> Prop :=
  | hashed_entry es e es' : hashed (es ++ e :: es') (dumps (content_material e))
  | hashed_link es e es' cs h : compute_entry_commitments es = Ok cs -> compute_entry_content_hash e = Ok h ->
      hashed (es ++ e :: es') (dumps (commitment_material (last cs) h (length es))).

Lemma hashed_app es e t : hashed es t -> hashed (es ++ [e]) t.
Proof. intros [l x k|l x k cs h Hcs Hh]; rewrite <- app_assoc; cbn; by econstructor. Qed.

Definition collision_between (es1 es2 : list EvidenceEntry) : Prop :=
  exists t1 t2, hashed es1 t1 /\ hashed es2 t2 /\ text_collision t1 t2.

Definition wf_entry (e : EvidenceEntry) : Prop := wf_val (content_material e) /\ scalar_val (content_material e).
Definition same_entry (e1 e2 : EvidenceEntry) : Prop := content_material e1 ≡ content_material e2.

Lemma commitment_scalar es cs : compute_entry_commitments es = Ok cs -> forall p, last cs = Some p -> scalar_str p.
Proof.
  destruct es as [|e es _] using rev_ind; [by intros [= <-]|].
  intros (cs' & h & c & -> & _ & _ & Hc)%commitments_snoc p. rewrite last_snoc. intros [= <-].
  by eapply sha256_ref_scalar.
Qed.

(** One head, one sequence of entries. *)
Lemma head_commits es1 : forall es2 cs1 cs2,
  Forall wf_entry es1 -> Forall wf_entry es2 ->
  compute_entry_commitments es1 = Ok cs1 -> compute_entry_commitments es2 = Ok cs2 -> last cs1 = last cs2 ->
  Forall2 same_entry es1 es2 \/ collision_between es1 es2.
Proof.
  induction es1 as [|e1 es1 IH] using rev_ind; intros es2 cs1 cs2 Hw1 Hw2 H1 H2 Hlast.
  - injection H1 as <-. destruct es2 as [|e2 es2 _] using rev_ind; [by left; constructor|].
    apply commitments_snoc in H2 as (cs & h & c & -> & _). by rewrite last_snoc in Hlast.
  - destruct es2 as [|e2 es2 _] using rev_ind.
    { injection H2 as <-. apply commitments_snoc in H1 as (cs & h & c & -> & _). by rewrite last_snoc in Hlast. }
    apply commitments_snoc in H1 as (cs1' & h1 & c1 & -> & H1 & Hh1 & Hc1).
    apply commitments_snoc in H2 as (cs2' & h2 & c2 & -> & H2 & Hh2 & Hc2).
    rewrite !last_snoc in Hlast. injection Hlast as <-.
    apply Forall_app in Hw1 as [Hw1 [We1 Se1]%Forall_singleton], Hw2 as [Hw2 [We2 Se2]%Forall_singleton].
    destruct (commitment_wf (last cs1') h1 (length es1)) as [? ?];
      [by eapply commitment_scalar|by eapply sha256_ref_scalar|].
    destruct (commitment_wf (last cs2') h2 (length es2)) as [? ?];
      [by eapply commitment_scalar|by eapply sha256_ref_scalar|].
    destruct (sha256_ref_inj (commitment_material (last cs1') h1 (length es1))
      (commitment_material (last cs2') h2 (length es2)) c1) as [Heq|Hcol]; [done..| |].
    2: { right. do 2 eexists. split; [by eapply (hashed_link es1 e1 [])|]. split; [by eapply (hashed_link es2 e2 [])|done]. }
    apply commitment_inj in Heq as (Hl & <- & _).
    destruct (sha256_ref_inj _ _ _ We1 We2 Se1 Se2 Hh1 Hh2) as [He|Hcol].
    2: { right. do 2 eexists. split; [apply (hashed_entry es1 e1 [])|]. split; [apply (hashed_entry es2 e2 [])|done]. }
    destruct (IH es2 cs1' cs2' Hw1 Hw2 H1 H2 Hl) as [Hall|(t1 & t2 & Ht1 & Ht2 & Hcol)].
    + left. apply Forall2_app; [done|]. by constructor.
    + right. exists t1, t2. split; [by apply hashed_app|]. split; [by apply hashed_app|done].
Qed.
End chain.

(** *** The guard *)

(** [reached n v m w]: the walk from the value [v] of field [n] meets the value
    [w] of field [m]; an element of a list belongs to the field of the list. *)
Inductive reached : pystr -> pyval -> pystr -> pyval -> Prop :=
  | reached_here n v : reached n v n v
  | reached_item n kvs k v m w : (k, v) ∈ kvs -> reached k v m w -> reached n (PDict kvs) m w
  | reached_elem n l v m w : v ∈ l -> reached n v m w -> reached n (PList l) m w.
#[export] Hint Constructors reached : saena.

Section guard.
Context `{UnicodeDB}.

Definition allowed_name (name : pystr) : Prop :=
  (forall marker a b, marker ∈ _FORBIDDEN_FIELD_NAME_MARKERS ->
     _normalize_field_name name <> a ++ _normalize_field_name marker ++ b) /\
  ascii_str (_normalize_field_name name).

Definition safe_text (s : pystr) : Prop :=
  (length s <= _MAX_FIELD_VALUE_LENGTH)%nat /\
  (forall r a m b, r ∈ searched_patterns -> s = a ++ m ++ b -> ~ lang r m) /\
  (forall sep a m b, sep ∈ [95; 45] -> s = a ++ m ++ b -> lang (stripe_pattern sep) m ->
     exists a' c, a = a' ++ [c] /\ word_char c = true).

Lemma guard_name_Ok n : guard_name n = Ok tt <-> allowed_name n.
Proof.
  unfold guard_name, allowed_name. rewrite seq_Ok, !raise_if_Ok, existsb_false_elem, negb_false_iff, forallb_elem.
  unfold ascii_str. rewrite Forall_forall. setoid_rewrite N.ltb_lt. apply and_iff_compat_r. split.
  - intros Hno marker a b Hm Heq.
    assert (contains (_normalize_field_name marker) (_normalize_field_name n) = true) as Hc by (apply contains_spec; eauto).
    rewrite Hno in Hc; [done|]. apply list_elem_of_fmap. eauto.
  - intros Hno x (marker & -> & Hm)%list_elem_of_fmap. destruct (contains _ _) eqn:Hc; [|done].
    apply contains_spec in Hc as (a & b & Hab). by apply Hno in Hab.
Qed.

Lemma boundary_search_spec r s : forall after_word, boundary_search after_word r s = true <->
  exists a m b, s = a ++ m ++ b /\ lang r m /\
    match last a with Some c => word_char c = false | None => after_word = false end.
Proof.
  induction s as [|c s IH]; intros w; cbn [boundary_search];
    rewrite orb_true_iff, andb_true_iff, negb_true_iff, accepts_spec, cat_iff.
  - split.
    + intros [[Hw (m & b & Hmb & Hm & _)]|]; [|done]. exists [], m, b. done.
    + intros (a & m & b & Hab & Hm & Hw). left. destruct a; [|done]. split; [done|]. exists m, b.
      split; [done|]. split; [done|apply any_lang].
  - rewrite IH. split.
    + intros [[Hw (m & b & Hmb & Hm & _)]|(a & m & b & -> & Hm & Hw)]; [by exists [], m, b|].
      exists (c :: a), m, b. split; [done|]. split; [done|]. destruct a as [|d a]; [done|].
      rewrite last_cons_cons. destruct (last (d :: a)) eqn:Hl; [done|]. by apply last_None in Hl.
    + intros ([|d a] & m & b & Hab & Hm & Hw).
      * left. split; [done|]. exists m, b. split; [done|]. split; [done|apply any_lang].
      * injection Hab as -> ->. right. exists a, m, b. split; [done|]. split; [done|].
        destruct a as [|x a]; [done|]. rewrite last_cons_cons in Hw.
        destruct (last (x :: a)) eqn:Hl; [done|]. by apply last_None in Hl.
Qed.

Lemma secret_shaped_spec s : secret_shaped s = false <->
  (forall r a m b, r ∈ searched_patterns -> s = a ++ m ++ b -> ~ lang r m) /\
  (forall sep a m b, sep ∈ [95; 45] -> s = a ++ m ++ b -> lang (stripe_pattern sep) m ->
     exists a' c, a = a' ++ [c] /\ word_char c = true).
Proof.
  unfold secret_shaped. rewrite !orb_false_iff, existsb_false_elem.
  assert (forall sep, boundary_search false (stripe_pattern sep) s = false <->
    forall a m b, s = a ++ m ++ b -> lang (stripe_pattern sep) m -> exists a' c, a = a' ++ [c] /\ word_char c = true) as Hb.
  { intros sep. rewrite <- not_true_iff_false, boundary_search_spec. split.
    - intros Hno a m b Hs Hm. destruct a as [|c a _] using rev_ind; [destruct Hno; by exists [], m, b|].
      exists a, c. split; [done|]. destruct (word_char c) eqn:Hc; [done|]. destruct Hno. exists (a ++ [c]), m, b.
      by rewrite last_snoc.
    - intros Hall (a & m & b & Hs & Hm & Hl). destruct (Hall a m b Hs Hm) as (a' & c & -> & Hc).
      rewrite last_snoc in Hl. congruence. }
  rewrite !Hb. split.
  - intros [[Hr H95] H45]. split.
    + intros r a m b Hin Hs Hm. specialize (Hr r Hin). apply not_true_iff_false in Hr. apply Hr, re_search_spec. eauto.
    + intros sep a m b [->|[->|[]%elem_of_nil]%elem_of_cons]%elem_of_cons; eauto.
  - intros [Hr Hst]. split; [split|].
    + intros r Hin. apply not_true_iff_false. rewrite re_search_spec. intros (a & m & b & Hs & Hm). by eapply Hr.
    + intros a m b. apply Hst. by left.
    + intros a m b. apply Hst. right. by left.
Qed.

Lemma guard_evidence_string_Ok n s : guard_string n s = Ok tt <-> safe_text s.
Proof.
  unfold guard_string, safe_text. by rewrite seq_Ok, !raise_if_Ok, Nat.ltb_ge, secret_shaped_spec.
Qed.

Lemma guard_list_Ok n l : _guard_value n (PList l) = Ok tt <-> forall v, v ∈ l -> _guard_value n v = Ok tt.
Proof.
  induction l as [|v l IH]; cbn in *; [split; [by intros _ ? ?%elem_of_nil|done]|].
  rewrite seq_Ok, IH. setoid_rewrite elem_of_cons. naive_solver.
Qed.

Lemma guard_fields_Ok n kvs : _guard_value n (PDict kvs) = Ok tt <->
  forall k v, (k, v) ∈ kvs -> allowed_name k /\ _guard_value k v = Ok tt.
Proof.
  induction kvs as [|[k v] kvs IH]; cbn in *; [split; [by intros _ ? ? ?%elem_of_nil|done]|].
  rewrite !seq_Ok, guard_name_Ok, IH. setoid_rewrite elem_of_cons. naive_solver.
Qed.

Definition clean (n : pystr) (v : pyval) : Prop :=
  (forall m kvs k w, reached n v m (PDict kvs) -> (k, w) ∈ kvs -> allowed_name k) /\
  (forall m s, reached n v m (PStr s) -> safe_text s).

Lemma guard_value_Ok v : forall n, _guard_value n v = Ok tt <-> clean n v.
Proof.
  induction v as [|b|z|f|s|b|l IH|kvs IH] using pyval_nested_ind; intros n;
    try (split; [intros _; split; intros *; intros Hr; inversion Hr|done]).
  - cbn [_guard_value]. rewrite guard_evidence_string_Ok. split.
    + intros Hs. split; intros *; intros Hr; inversion Hr; by subst.
    + intros [_ Hs]. by eapply Hs, reached_here.
  - rewrite guard_list_Ok. rewrite Forall_forall in IH. split.
    + intros Hall. split.
      * intros m kws k w Hr Hin. inversion Hr as [| |? ? v' ? ? Hv Hr']; subst.
        destruct (proj1 (IH v' Hv n) (Hall v' Hv)) as [Hg _]. by eapply Hg.
      * intros m s Hr. inversion Hr as [| |? ? v' ? ? Hv Hr']; subst.
        destruct (proj1 (IH v' Hv n) (Hall v' Hv)) as [_ Hg]. by eapply Hg.
    + intros [H1 H2] v Hv. apply IH; [done|]. split; intros *; intros Hr; [eapply H1|eapply H2]; by eapply reached_elem.
  - rewrite guard_fields_Ok. rewrite Forall_forall in IH. split.
    + intros Hall. split.
      * intros m kws k w Hr Hin. inversion Hr as [|? ? k' v' ? ? Hv Hr'|]; subst; [by eapply Hall|].
        destruct (Hall _ _ Hv) as [_ Hg]. apply (IH (k', v') Hv) in Hg as [Hg _]. by eapply Hg.
      * intros m s Hr. inversion Hr as [|? ? k' v' ? ? Hv Hr'|]; subst.
        destruct (Hall _ _ Hv) as [_ Hg]. apply (IH (k', v') Hv) in Hg as [_ Hg]. by eapply Hg.
    + intros [H1 H2] k v Hv. split; [by eapply H1; [apply reached_here|]|].
      apply (IH (k, v) Hv). split; intros *; intros Hr; [eapply H1|eapply H2]; by eapply reached_item.
Qed.
End guard.

(** *** Verification *)

Lemma first_difference_None a : forall b i, first_difference a b i = None ->
  take (length b) a = take (length a) b.
Proof.
  induction a as [|x a IH]; intros [|y b] i; cbn; [done..|]. case_decide; [|done]. subst y.
  intros Hd. f_equal. by eapply IH.
Qed.

Lemma first_difference_Some a : forall b i j, first_difference a b i = Some j ->
  exists k, j = (i + k)%nat /\ take k a = take k b /\ a !! k <> b !! k /\ (k < length a)%nat /\ (k < length b)%nat.
Proof.
  induction a as [|x a IH]; intros [|y b] i j; cbn; [done..|]. case_decide as Hxy.
  - subst y. intros (k & -> & Ht & Hk & Ha & Hb)%IH. exists (S k). cbn. rewrite Ht. split_and!; [lia|done|done|lia|lia].
  - intros [= <-]. exists 0%nat. cbn. split_and!; [lia|done|congruence|lia|lia].
Qed.

(** *** The field names and texts of the models themselves *)

Section own_fields.
Context `{UnicodeDB} `{FloatRepr}.

Lemma ascii_b s : forallb (fun c => c <? 128) s = true -> ascii_str s.
Proof. rewrite forallb_elem. intros Hs. apply Forall_forall. intros c Hc. by apply N.ltb_lt, Hs. Qed.

Lemma normalize_ascii n : forallb (fun c => c <? 128) n = true ->
  _normalize_field_name n = List.filter (fun c => negb ((c =? 45) || (c =? 95))) (lower_char <$> n).
Proof. intros Hn%ascii_b. unfold _normalize_field_name. by rewrite nfkc_ascii, casefold_ascii. Qed.

(** On ASCII names the check can be evaluated. *)
Definition plain_name (n : pystr) : bool :=
  let norm s := List.filter (fun c => negb ((c =? 45) || (c =? 95))) (lower_char <$> s) in
  forallb (fun c => c <? 128) n && forallb (fun c => c <? 128) (norm n)
  && negb (existsb (fun marker => contains (norm marker) (norm n)) _FORBIDDEN_FIELD_NAME_MARKERS).

Lemma plain_name_allowed n : plain_name n = true -> allowed_name n.
Proof.
  unfold plain_name. cbv zeta. rewrite !andb_true_iff, negb_true_iff, existsb_false_elem. intros [[Hn Ha] Hno].
  apply guard_name_Ok. unfold guard_name. rewrite (normalize_ascii n Hn), Ha.
  assert (existsb (fun marker => contains marker (List.filter (fun c => negb ((c =? 45) || (c =? 95))) (lower_char <$> n)))
            _NORMALIZED_FORBIDDEN_MARKERS = false) as ->; [|done].
  apply existsb_false_elem. intros x (marker & -> & Hm)%list_elem_of_fmap. rewrite normalize_ascii; [by apply Hno|].
  revert marker Hm. apply Forall_forall. apply (bool_decide_unpack _). vm_compute. done.
Qed.

Definition plain_text (s : pystr) : bool :=
  (length s <=? _MAX_FIELD_VALUE_LENGTH)%nat
  && negb (existsb (fun r => re_search r s) (stripe_pattern 95 :: stripe_pattern 45 :: searched_patterns)).

Lemma plain_text_safe s : plain_text s = true -> safe_text s.
Proof.
  unfold plain_text. rewrite andb_true_iff, negb_true_iff, Nat.leb_le, existsb_false_elem. intros [Hl Hno].
  assert (forall r a m b, r ∈ stripe_pattern 95 :: stripe_pattern 45 :: searched_patterns -> s = a ++ m ++ b -> ~ lang r m) as Hr.
  { intros r a m b Hin Hs Hm. specialize (Hno r Hin). apply not_true_iff_false in Hno. apply Hno, re_search_spec. eauto. }
  split; [done|]. split.
  - intros r a m b Hin. apply Hr. by do 2 right.
  - intros sep a m b Hsep Hs Hm. exfalso. eapply (Hr (stripe_pattern sep)); [|done..].
    apply elem_of_cons in Hsep as [->|[->|[]%elem_of_nil]%elem_of_cons]; [left|right; left].
Qed.

Lemma clean_dict n kvs : clean n (PDict kvs) <-> forall k v, (k, v) ∈ kvs -> allowed_name k /\ clean k v.
Proof. rewrite <- guard_value_Ok, guard_fields_Ok. by setoid_rewrite guard_value_Ok. Qed.

Lemma clean_str n s : clean n (PStr s) <-> safe_text s.
Proof. rewrite <- guard_value_Ok. apply guard_evidence_string_Ok. Qed.

Lemma clean_other n v : match v with PStr _ | PDict _ | PList _ => False | _ => True end -> clean n v.
Proof. intros Hv. apply guard_value_Ok. by destruct v. Qed.

Lemma clean_text n o : (forall s, o = Some s -> safe_text s) -> clean n (dump_text o).
Proof. intros Ho. destruct o as [s|]; [|by apply clean_other]. apply clean_str. by apply Ho. Qed.

Lemma ref_clean r r' n : make_EvidenceRef r = Ok r' ->
  clean n (PDict [(u"uri", PStr (uri r)); (u"content_hash", PStr (ref_content_hash r))]).
Proof.
  unfold make_EvidenceRef. intros [_ [Hg _]%seq_Ok]%seq_Ok. unfold guard_evidence_fields in Hg.
  apply guard_value_Ok in Hg. rewrite clean_dict in Hg |- *. exact Hg.
Qed.

Lemma metadata_clean m m' : make_EvidenceMetadata m = Ok m' ->
  (forall o, o ∈ [timestamp m; client_version m; asset_hash m; citation m] -> forall s, o = Some s -> safe_text s) /\
  (forall kvs, extra m = Some kvs -> clean (u"extra") (PDict kvs)).
Proof.
  unfold make_EvidenceMetadata. intros [_ [Hg _]%seq_Ok]%seq_Ok.
  unfold guard_evidence_fields in Hg. rewrite guard_fields_Ok in Hg. setoid_rewrite guard_value_Ok in Hg. split.
  - intros o Ho s ->.
    assert (exists k, (k, PStr s) ∈ present_item (u"timestamp") (timestamp m) ++ present_item (u"client_version") (client_version m)
         ++ present_item (u"asset_hash") (asset_hash m) ++ present_item (u"citation") (citation m)
         ++ match extra m with Some kvs => [(u"extra", PDict kvs)] | None => [] end) as [k Hk].
    { rewrite !elem_of_cons in Ho. unfold present_item.
      destruct Ho as [Ho|[Ho|[Ho|[Ho|[]%elem_of_nil]]]]; rewrite <- Ho; eexists; rewrite !elem_of_app;
        repeat first [by left; left|by left|right]. }
    apply Hg in Hk as [_ Hk]. by apply clean_str in Hk.
  - intros kvs Hx. eapply Hg. rewrite Hx, !elem_of_app. do 4 right. by left.
Qed.

Lemma entry_clean e r m : make_EvidenceRef (ref e) = Ok r -> make_EvidenceMetadata (metadata e) = Ok m ->
  clean [] (content_material e).
Proof.
  intros Hr [Hm Hx]%metadata_clean. unfold content_material. cbv zeta. rewrite clean_dict. intros k v Hin.
  assert (forall n, n ∈ [u"kind"; u"ref"; u"metadata"; u"timestamp"; u"client_version"; u"asset_hash"; u"citation";
                         u"citation_present"; u"extra"] -> allowed_name n) as Hnames.
  { intros n Hn. apply plain_name_allowed. revert n Hn. apply Forall_forall. apply (bool_decide_unpack _). vm_compute. done. }
  repeat (apply elem_of_cons in Hin as [[= -> ->]|Hin]); [..|by apply elem_of_nil in Hin].
  - split; [apply Hnames; set_solver|]. apply clean_str, plain_text_safe. by destruct (kind e).
  - split; [apply Hnames; set_solver|]. by eapply ref_clean.
  - split; [apply Hnames; set_solver|]. apply clean_dict. intros k v Hin.
    assert (forall o, o ∈ [timestamp (metadata e); client_version (metadata e); asset_hash (metadata e); citation (metadata e)] ->
      forall n, clean n (dump_text o)) as Ht.
    { intros o Ho n. apply clean_text. intros s Hs. by eapply Hm. }
    repeat (apply elem_of_cons in Hin as [[= -> ->]|Hin]); [..|by apply elem_of_nil in Hin];
      (split; [apply Hnames; set_solver|]); try (apply Ht; set_solver).
    + apply clean_other. by destruct (citation_present (metadata e)).
    + destruct (extra (metadata e)) as [kvs|] eqn:He; [by apply Hx|by apply clean_other].
Qed.
End own_fields.

Section verified.
Context `{FloatRepr}.

Lemma verified m : verify_manifest m = Ok (true, None) <->
  exists cs, compute_entry_commitments (entries m) = Ok cs /\ cs = entry_commitments m /\ last cs = manifest_hash m.
Proof.
  unfold verify_manifest. rewrite bind_Ok. split.
  - intros (cs & Hcs & [= Hif]). exists cs. split; [done|].
    destruct (bool_decide (cs = _) && _) eqn:E; bprop; [done|].
    destruct (first_difference _ _ _); [done|]. by destruct (_ =? _)%nat.
  - intros (cs & Hcs & -> & Hl). eexists. split; [done|]. by rewrite !bool_decide_eq_true_2.
Qed.
End verified.

Lemma when_nil {A} (b : bool) (x : A) : (if b then [x] else []) = [] <-> b = false.
Proof. by destruct b. Qed.

Lemma missing_provenance_nil m : missing_provenance m = [] ->
  timestamp m <> None /\ client_version m <> None /\ asset_hash m <> None /\
  (citation m <> None \/ citation_present m <> None).
Proof.
  unfold missing_provenance. cbv zeta. intros Hs. pose proof (sort_by_Permutation id) as Hp.
  match type of Hs with sort_by _ ?l = _ => specialize (Hp l) end. rewrite Hs in Hp. apply Permutation_nil_l in Hp.
  symmetry in Hp. rewrite !app_nil, !when_nil, !bool_decide_eq_false, negb_false_iff in Hp.
  destruct Hp as (H1 & H2 & H3 & H4). split_and!; [done..|]. unfold has_explicit_citation_decision in H4.
  destruct (citation m); [by left|right]. by destruct (citation_present m).
Qed.

Lemma wf_entries_b l : forallb (fun e => wf_valb (content_material e) && scalar_valb (content_material e)) l = true -> Forall wf_entry l.
Proof.
  rewrite forallb_elem, Forall_forall. intros Hl e He. specialize (Hl e He). apply andb_true_iff in Hl as [? ?].
  split; [by apply wf_valb_wf|by apply scalar_valb_scalar].
Qed.

(** ** Theorems *)

Section theorems.
Context `{UnicodeDB} `{FloatRepr}.

(** The manifest hash commits to the bundle: two manifests that verify and
    carry one hash hold the same entries in the same order, or two texts they
    hash are a SHA-256 collision; so an entry cannot be changed, moved, added
    or removed under a known hash. *)
Theorem manifest_hash_commits m1 m2 :
  Forall wf_entry (entries m1) -> Forall wf_entry (entries m2) ->
  verify_manifest m1 = Ok (true, None) -> verify_manifest m2 = Ok (true, None) ->
  manifest_hash m1 = manifest_hash m2 ->
  Forall2 same_entry (entries m1) (entries m2) \/ collision_between (entries m1) (entries m2).
Proof.
  intros Hw1 Hw2 (cs1 & Hc1 & _ & Hh1)%verified (cs2 & Hc2 & _ & Hh2)%verified Heq.
  eapply head_commits; [done..|congruence].
Qed.

(** Verification is exact and localises: it answers intact exactly for the
    chain and head recomputed from the entries (which a built or sealed
    manifest always carries), an index for the first position at which the two
    chains differ or one of them ends, and no index for a head that alone is
    wrong. *)
Theorem verify_manifest_exact m cs :
  compute_entry_commitments (entries m) = Ok cs ->
  match verify_manifest m with
  | Ok (true, None) => entry_commitments m = cs /\ manifest_hash m = last cs
  | Ok (false, Some i) => take i (entry_commitments m) = take i cs /\ entry_commitments m !! i <> cs !! i
  | Ok (false, None) => entry_commitments m = cs /\ manifest_hash m <> last cs
  | _ => False
  end /\
  (forall m', make_EvidenceBundleManifest m' = Ok m -> verify_manifest m = Ok (true, None)) /\
  (forall t r x, seal t r x (entries m) = Ok m -> verify_manifest m = Ok (true, None)).
Proof.
  intros Hcs. assert (forall m', make_EvidenceBundleManifest m' = Ok m -> verify_manifest m = Ok (true, None)) as Hbuilt.
  { intros m' Hm. unfold make_EvidenceBundleManifest in Hm. apply seq_Ok in Hm as [_ Hm].
    apply bind_Ok in Hm as (cs' & Hcs' & Hm). apply seq_Ok in Hm as [Hm [= ->]]. rewrite raise_if_Ok in Hm. bprop.
    rewrite Hcs in Hcs'. injection Hcs' as <-. apply verified. exists cs. naive_solver. }
  split; [|split; [exact Hbuilt|]].
  - unfold verify_manifest. rewrite Hcs. cbn [mbind result_bind]. set (sealed := entry_commitments m).
    destruct (bool_decide (cs = sealed) && _) eqn:E; bprop; [naive_solver|].
    destruct (first_difference cs sealed 0) as [i|] eqn:Hd.
    + apply first_difference_Some in Hd as (k & -> & Ht & Hk & _). split; [done|]. by apply not_eq_sym.
    + apply first_difference_None in Hd. destruct (Nat.eqb_spec (length cs) (length sealed)) as [Hl|Hl].
      * assert (sealed = cs) as Heq by (rewrite <- (take_ge cs (length sealed)), Hd, take_ge by lia; done).
        split; [done|]. rewrite <- Heq in E. naive_solver.
      * destruct (Nat.lt_total (length cs) (length sealed)) as [Hlt|[?|Hlt]]; [|lia|].
        -- rewrite Nat.min_l by lia. split; [by rewrite <- Hd, !take_ge by lia|].
           rewrite (lookup_ge_None_2 cs) by lia. by apply not_eq_None_Some, lookup_lt_is_Some.
        -- rewrite Nat.min_r by lia. split; [by rewrite Hd, !take_ge by lia|].
           rewrite (lookup_ge_None_2 sealed) by lia. by apply not_eq_sym, not_eq_None_Some, lookup_lt_is_Some.
  - intros t r x Hs. unfold seal in Hs. apply bind_Ok in Hs as (cs' & _ & Hs). by eapply Hbuilt.
Qed.

(** No raw content is hashed into a bundle: the guard accepts fields exactly
    when every mapping met at any depth has only names that normalise to ASCII
    without a forbidden marker and every text is short and without a secret
    shape; and the content of an entry whose reference and metadata were built
    is such, under the names of the models as well. *)
Theorem guard_exact fields :
  (guard_evidence_fields fields = Ok tt <-> clean [] (PDict fields)) /\
  (forall e r m, make_EvidenceRef (ref e) = Ok r -> make_EvidenceMetadata (metadata e) = Ok m ->
     clean [] (content_material e)).
Proof. split; [apply guard_value_Ok|apply entry_clean]. Qed.

(** A bundle is reported complete exactly when every kind the gate requires
    is among its entries; the missing kinds are exactly the required ones
    without an entry, whatever other kinds (a missingness report too) it
    holds; an observation is built only with its provenance; and an entry is
    handed out exactly to its own tenant, so that another tenant sees what an
    absent entry looks like. *)
Theorem completeness_exact m :
  (forall k, k ∈ (validate_completeness m).2 <-> k ∈ REQUIRED_B_GATE_KINDS /\ forall e, e ∈ entries m -> kind e <> k) /\
  ((validate_completeness m).1 = true <-> forall k, k ∈ REQUIRED_B_GATE_KINDS -> exists e, e ∈ entries m /\ kind e = k) /\
  (forall e e', make_EvidenceEntry e = Ok e' -> e' = e /\ (kind e ∈ _OBSERVATION_KINDS ->
     timestamp (metadata e) <> None /\ client_version (metadata e) <> None /\ asset_hash (metadata e) <> None /\
     (citation (metadata e) <> None \/ citation_present (metadata e) <> None))) /\
  (forall t i e, entry_for_tenant m t i = Some e <-> t = tenant_id m /\ (0 <= i)%Z /\ entries m !! Z.to_nat i = Some e).
Proof.
  assert (forall k, k ∈ (validate_completeness m).2 <-> k ∈ REQUIRED_B_GATE_KINDS /\ forall e, e ∈ entries m -> kind e <> k) as Hmissing.
  { intros k. unfold validate_completeness. cbv zeta. cbn [snd]. rewrite list_elem_of_filter, list_elem_of_fmap. naive_solver. }
  split; [exact Hmissing|]. split; [|split].
  - unfold validate_completeness at 1. cbv zeta. cbn [fst]. rewrite bool_decide_eq_true.
    assert ((validate_completeness m).2 = filter (fun k => k ∉ kind <$> entries m) REQUIRED_B_GATE_KINDS) as Hm by done.
    rewrite <- Hm. split.
    + intros Hnil k Hk. destruct (decide (k ∈ kind <$> entries m)) as [(e & -> & He)%list_elem_of_fmap|Hno]; [by exists e|].
      assert (k ∈ (validate_completeness m).2) as Habs by (apply Hmissing; split; [done|]; intros e He <-; apply Hno, list_elem_of_fmap; eauto).
      rewrite Hnil in Habs. by apply elem_of_nil in Habs.
    + intros Hall. destruct ((validate_completeness m).2) as [|k ks] eqn:Hks; [done|].
      destruct (proj1 (Hmissing k) (list_elem_of_here _ _)) as [Hk Hno]. destruct (Hall k Hk) as (e & He & <-). by destruct (Hno e He).
  - intros e e'. unfold make_EvidenceEntry. case_decide as Hk; [|by intros [= <-]].
    intros [Hmiss [= <-]]%seq_Ok. split; [done|]. intros _. rewrite raise_if_Ok in Hmiss. bprop.
    by apply missing_provenance_nil.
  - intros t i e. unfold entry_for_tenant. case_decide as Ht.
    + split; [done|]. by intros [-> _].
    + subst t. destruct (_ || _) eqn:E; bprop.
      * rewrite Z.ltb_lt, Z.leb_le in E. split; [done|]. intros (_ & Hi & Hl%lookup_lt_Some). lia.
      * rewrite Z.ltb_ge in E. naive_solver.
Qed.
End theorems.

(** ** Witnesses *)

Module Witness.
#[local] Existing Instance sci_float_repr.

Definition zeros : pystr := _SHA256_PREFIX ++ replicate 64 48.

Definition entry_with (x : list (pystr * pyval)) (k : EvidenceKind) (path : pystr) : EvidenceEntry :=
  {| kind := k; ref := {| uri := path; ref_content_hash := zeros |};
     metadata := {| timestamp := Some (u"2026-01-01T00:00:00Z"); client_version := Some (u"1.0.0"); asset_hash := Some zeros;
                    citation := None; citation_present := Some false; extra := Some x |} |}.

Definition labels : list (pystr * pyval) := [(u"locale", PStr (u"ko-KR")); (u"device", PStr (u"mobile"))].
Definition entry := entry_with labels.

Definition es : list EvidenceEntry := [entry REGISTRATION (u"ref://a"); entry BASELINE_OBSERVATION (u"ref://b")].
Definition sealed (l : list EvidenceEntry) : option EvidenceBundleManifest :=
  result_to_option (seal (u"tenant") (u"run") (u"exp") l).
Definition blank : EvidenceBundleManifest :=
  {| tenant_id := []; run_id := []; experiment_id := []; entries := []; entry_commitments := []; manifest_hash := None |}.
Definition m0 : EvidenceBundleManifest := default blank (sealed es).

(** The same bundle, its labels in another order. *)
Definition es1 : list EvidenceEntry := [entry_with (rev labels) REGISTRATION (u"ref://a"); entry BASELINE_OBSERVATION (u"ref://b")].
Definition m1 : EvidenceBundleManifest := default blank (sealed es1).

Lemma manifest_hash_commits_witness :
  verify_manifest m0 = Ok (true, None) /\ verify_manifest m1 = Ok (true, None) /\
  (Forall2 same_entry (entries m0) (entries m1) \/ collision_between (entries m0) (entries m1)).
Proof.
  assert (verify_manifest m0 = Ok (true, None)) as Hv by (vm_compute; reflexivity).
  assert (verify_manifest m1 = Ok (true, None)) as Hv1 by (vm_compute; reflexivity).
  split; [exact Hv|]. split; [exact Hv1|].
  apply manifest_hash_commits; [apply wf_entries_b|apply wf_entries_b|exact Hv|exact Hv1|]; vm_compute; reflexivity.
Defined.

Definition cs0 : list pystr := match compute_entry_commitments es with Ok cs => cs | Raise _ => [] end.

Lemma verify_manifest_exact_witness : verify_manifest m0 = Ok (true, None).
Proof.
  assert (compute_entry_commitments (entries m0) = Ok cs0) as Hcs by (vm_compute; reflexivity).
  destruct (verify_manifest_exact m0 cs0 Hcs) as (_ & _ & Hseal).
  apply (Hseal (u"tenant") (u"run") (u"exp")). vm_compute. reflexivity.
Defined.

Definition with_entries (l : list EvidenceEntry) : EvidenceBundleManifest :=
  {| tenant_id := tenant_id m0; run_id := run_id m0; experiment_id := experiment_id m0; entries := l;
     entry_commitments := entry_commitments m0; manifest_hash := manifest_hash m0 |}.

(** Reordered, extended and truncated entries under the sealed chain. *)
Example tampering_located :
  map (fun l => verify_manifest (with_entries l)) [rev es; es ++ [entry REMEDIATION (u"ref://c")]; take 1 es]
  = [Ok (false, Some 0%nat); Ok (false, Some 2%nat); Ok (false, Some 1%nat)].
Proof. vm_compute. reflexivity. Qed.

(** The guard at work, with the ASCII instance of the Unicode tables. *)
Example guard_examples :
  (guard_evidence_fields [(u"uri", PStr (u"ref://a"))],
   guard_evidence_fields [(u"x", PList [PDict [(u"Raw-Content", PStr [])]])],
   guard_evidence_fields [(u"note", PStr (u"key sk_live_0123456789ab"))],
   guard_evidence_fields [(u"note", PStr (u"task_live_0123456789ab"))],
   guard_evidence_fields [(u"a" ++ [1089], PInt 1)])
  = (Ok tt, Raise (RawContentRejected (u"Raw-Content") forbidden_field_name),
     Raise (RawContentRejected (u"note") secret_shaped_value), Ok tt,
     Raise (RawContentRejected (u"a" ++ [1089]) non_ascii_field_name)).
Proof. vm_compute. reflexivity. Qed.

(** The names of the markers are folded, those of the sources are not asked
    for: a metadata key such as token_count is refused. *)
Example token_count_refused :
  guard_evidence_fields [(u"token_count", PInt 1)] = Raise (RawContentRejected (u"token_count") forbidden_field_name).
Proof. vm_compute. reflexivity. Qed.
End Witness.
