(* ===== verification/Experiment.v ===== *)
(** Experiment registrations and their ledger (experiment/models.py,
    experiment/ledger.py): the immutable pre-registration, its two hashes, the
    append-only ledger with idempotent replay, and the ledger's verification. *)

From S2P Require Import Prelude PyStr Sha256 PyVal Canonical PyTime.
Local Open Scope N_scope.

(** ** models.py *)

Inductive ArmRole := baseline | treatment | control | matched_cluster.

#[export] Instance ArmRole_eq_dec : EqDecision ArmRole.
Proof. solve_decision. Defined.

Definition role_value (r : ArmRole) : pystr :=
  match r with
  | baseline => u"baseline" | treatment => u"treatment" | control => u"control"
  | matched_cluster => u"matched_cluster"
  end.

Record ExperimentArm := {
  arm_id : pystr; role : ArmRole; asset_ref : option pystr; arm_query_cluster_ref : option pystr
}.
#[export] Instance ExperimentArm_eq_dec : EqDecision ExperimentArm.
Proof. solve_decision. Defined.

Record MetricDefinition := { metric_id : pystr; description : pystr }.
#[export] Instance MetricDefinition_eq_dec : EqDecision MetricDefinition.
Proof. solve_decision. Defined.

Record ExperimentRegistration := {
  experiment_id : pystr; tenant_id : pystr; run_id : pystr;
  arms : list ExperimentArm; metric_definitions : list MetricDefinition;
  query_cluster_ref : pystr; locale : pystr; browser_policy : pystr; repeat_count : Z;
  asset_hash : pystr; code_version_hash : pystr; created_by : pystr; approved_by : pystr;
  created_at : datetime;
  canonical_hash : option pystr; previous_hash : option pystr; content_fingerprint : option pystr
}.

(** [registration.model_copy(update={...})] of the hash-bearing fields. *)
Definition set_hashes (canonical previous fingerprint : option pystr) (r : ExperimentRegistration) : ExperimentRegistration :=
  {| experiment_id := experiment_id r; tenant_id := tenant_id r; run_id := run_id r; arms := arms r;
     metric_definitions := metric_definitions r; query_cluster_ref := query_cluster_ref r; locale := locale r;
     browser_policy := browser_policy r; repeat_count := repeat_count r; asset_hash := asset_hash r;
     code_version_hash := code_version_hash r; created_by := created_by r; approved_by := approved_by r;
     created_at := created_at r; canonical_hash := canonical; previous_hash := previous;
     content_fingerprint := fingerprint |}.

Definition empty_text (o : option pystr) : bool := match o with Some [] => true | _ => false end.

(** The roles of the arms other than the baseline. *)
Definition non_baseline_roles (r : ExperimentRegistration) : list ArmRole :=
  filter (fun x => x <> baseline) (role <$> arms r).

Definition is_matched_cluster_design (r : ExperimentRegistration) : bool :=
  negb (bool_decide (non_baseline_roles r = [])) && forallb (fun x => bool_decide (x = matched_cluster)) (non_baseline_roles r).

Definition is_asset_design (r : ExperimentRegistration) : bool :=
  forallb (fun x => bool_decide (x = treatment) || bool_decide (x = control)) (non_baseline_roles r).

(** The field constraints and [_check_arm_design]. *)
Definition make_ExperimentRegistration (r : ExperimentRegistration) : result pyexn ExperimentRegistration :=
  _ ← raise_if (existsb (fun s => bool_decide (s = []))
        [experiment_id r; tenant_id r; run_id r; query_cluster_ref r; locale r; browser_policy r; asset_hash r;
         code_version_hash r; created_by r; approved_by r]
      || existsb (fun a => bool_decide (arm_id a = []) || empty_text (asset_ref a) || empty_text (arm_query_cluster_ref a)) (arms r)
      || existsb (fun m => bool_decide (metric_id m = []) || bool_decide (description m = [])) (metric_definitions r)
      || (length (arms r) <? 2)%nat || bool_decide (metric_definitions r = []) || (repeat_count r <=? 0)%Z) ValueError;
  _ ← raise_if (negb (bool_decide (NoDup (arm_id <$> arms r)))) ValueError;
  _ ← raise_if (negb (length (filter (fun x => x = baseline) (role <$> arms r)) =? 1)%nat) ValueError;
  _ ← raise_if (bool_decide (non_baseline_roles r = [])) ValueError;
  _ ← raise_if (negb (is_matched_cluster_design r || is_asset_design r)) ValueError;
  Ok r.

(** ** ledger.py *)

Inductive experiment_exn :=
  | ConflictError (experiment_id : pystr)
  | RejectedError (experiment_id : pystr)
  | Builtin (e : pyexn).

Abbreviation LedgerState := (list ExperimentRegistration).

Definition dump_opt (o : option pystr) : pyval := match o with Some s => PStr s | None => PNone end.

Definition dump_arm (a : ExperimentArm) : pyval :=
  PDict [(u"arm_id", PStr (arm_id a)); (u"role", PStr (role_value (role a))); (u"asset_ref", dump_opt (asset_ref a));
         (u"query_cluster_ref", dump_opt (arm_query_cluster_ref a))].

Definition dump_metric (m : MetricDefinition) : pyval :=
  PDict [(u"metric_id", PStr (metric_id m)); (u"description", PStr (description m))].

Section ledger.
Context `{FloatRepr} `{DatetimeJson}.

(** [_content_fields]: the JSON dump less the hash-bearing fields. *)
Definition _content_fields (r : ExperimentRegistration) : pyval :=
  PDict
    [(u"experiment_id", PStr (experiment_id r)); (u"tenant_id", PStr (tenant_id r)); (u"run_id", PStr (run_id r));
     (u"arms", PList (dump_arm <$> arms r)); (u"metric_definitions", PList (dump_metric <$> metric_definitions r));
     (u"query_cluster_ref", PStr (query_cluster_ref r)); (u"locale", PStr (locale r));
     (u"browser_policy", PStr (browser_policy r)); (u"repeat_count", PInt (repeat_count r));
     (u"asset_hash", PStr (asset_hash r)); (u"code_version_hash", PStr (code_version_hash r));
     (u"created_by", PStr (created_by r)); (u"approved_by", PStr (approved_by r));
     (u"created_at", PStr (render_datetime (created_at r)))].

Definition compute_content_fingerprint (r : ExperimentRegistration) : result pyexn pystr := sha256_ref (_content_fields r).

Definition chain_material (previous_hash : option pystr) (fingerprint : pystr) : pyval :=
  PDict [(u"previous_hash", dump_opt previous_hash); (u"content_fingerprint", PStr fingerprint)].

Definition compute_experiment_hash (r : ExperimentRegistration) : result pyexn pystr :=
  fingerprint ← compute_content_fingerprint r; sha256_ref (chain_material (previous_hash r) fingerprint).

Definition _design_changed (existing incoming : ExperimentRegistration) : bool :=
  negb (bool_decide (arms existing = arms incoming))
  || negb (bool_decide (metric_definitions existing = metric_definitions incoming)).

Definition builtin {A} (m : result pyexn A) : result experiment_exn A := try_except m (fun e => Raise (Builtin e)).

(** The entry of an experiment: the first with its id. *)
Definition find_experiment (ledger_state : LedgerState) (id : pystr) : option ExperimentRegistration :=
  head (filter (fun e => experiment_id e = id) ledger_state).

Definition tail_hash (ledger_state : LedgerState) : option pystr := last ledger_state ≫= canonical_hash.

Definition register (ledger_state : LedgerState) (r : ExperimentRegistration)
    : result experiment_exn (LedgerState * ExperimentRegistration) :=
  match find_experiment ledger_state (experiment_id r) with
  | Some existing =>
      fe ← builtin (compute_content_fingerprint existing);
      fr ← builtin (compute_content_fingerprint r);
      if decide (fe = fr) then Ok (ledger_state, existing)
      else if _design_changed existing r then Raise (RejectedError (experiment_id r))
      else Raise (ConflictError (experiment_id r))
  | None =>
      let previous_hash := tail_hash ledger_state in
      let unanchored := set_hashes (canonical_hash r) previous_hash (content_fingerprint r) r in
      fingerprint ← builtin (compute_content_fingerprint unanchored);
      canonical ← builtin (compute_experiment_hash unanchored);
      let entry := set_hashes (Some canonical) previous_hash (Some fingerprint) r in
      Ok (ledger_state ++ [entry], entry)
  end.

Fixpoint verify_from (expected_prev : option pystr) (index : nat) (entries : LedgerState) : result pyexn (bool * option nat) :=
  match entries with
  | [] => Ok (true, None)
  | e :: entries =>
      if decide (previous_hash e ≠ expected_prev) then Ok (false, Some index)
      else
        recomputed ← compute_experiment_hash e;
        if decide (Some recomputed ≠ canonical_hash e) then Ok (false, Some index)
        else verify_from (canonical_hash e) (S index) entries
  end.

Definition verify_ledger (entries : LedgerState) : result pyexn (bool * option nat) := verify_from None 0 entries.
End ledger.

(** ** Lemmas *)

(** *** The texts that are hashed *)

Section texts.
Context `{FloatRepr} `{DatetimeJson}.

Definition fingerprint_of (r : ExperimentRegistration) : pystr := _SHA256_PREFIX ++ hexdigest (dumps (_content_fields r)).
Definition chain_hash (r : ExperimentRegistration) : pystr :=
  _SHA256_PREFIX ++ hexdigest (dumps (chain_material (previous_hash r) (fingerprint_of r))).

Lemma forallb_fmap {A B} (p : B -> bool) (f : A -> B) l : (forall x, p (f x) = true) -> forallb p (f <$> l) = true.
Proof. intros Hp. induction l as [|x l IH]; cbn; [done|]. by rewrite Hp, IH. Qed.

Lemma content_serializable r : serializable (_content_fields r) = true.
Proof.
  cbn. rewrite !forallb_fmap; [done|intros m; done|]. intros a. cbn. by destruct (asset_ref a), (arm_query_cluster_ref a).
Qed.

Lemma fingerprint_total r : compute_content_fingerprint r = Ok (fingerprint_of r).
Proof. apply sha256_ref_Ok. split; [apply content_serializable|done]. Qed.

Lemma experiment_hash_total r : compute_experiment_hash r = Ok (chain_hash r).
Proof.
  unfold compute_experiment_hash. rewrite fingerprint_total. cbn [mbind result_bind].
  apply sha256_ref_Ok. split; [|done]. cbn. by destruct (previous_hash r).
Qed.

Lemma wf_list_fmap {A} (f : A -> pyval) l : (forall x, wf_val (f x)) -> wf_val (PList (f <$> l)).
Proof. intros Hf. cbn. induction l as [|x l IH]; cbn; [done|]. by split. Qed.

Ltac static_keys := split; [apply (bool_decide_unpack _); reflexivity|].

Lemma content_wf r : wf_val (_content_fields r).
Proof.
  assert (wf_val (PList (dump_arm <$> arms r))) as Ha.
  { apply wf_list_fmap. intros a. static_keys. cbn. by destruct (asset_ref a), (arm_query_cluster_ref a). }
  assert (wf_val (PList (dump_metric <$> metric_definitions r))) as Hm by (apply wf_list_fmap; intros m; by static_keys).
  static_keys. repeat (split; [first [exact I|exact Ha|exact Hm]|]). exact I.
Qed.

Lemma chain_material_wf p h : (forall s, p = Some s -> scalar_str s) -> scalar_str h ->
  wf_val (chain_material p h) /\ scalar_val (chain_material p h).
Proof.
  intros Hp Hh. split; [static_keys; by destruct p|].
  refine (conj (conj _ _) (conj (conj _ Hh) I)); try (apply scalar_strb; by vm_compute).
  destruct p; [by apply Hp|done].
Qed.

(** The link of an entry: what is hashed, and to what. *)
Lemma chain_link x : (forall p, previous_hash x = Some p -> scalar_str p) ->
  wf_val (chain_material (previous_hash x) (fingerprint_of x)) /\
  scalar_val (chain_material (previous_hash x) (fingerprint_of x)) /\
  sha256_ref (chain_material (previous_hash x) (fingerprint_of x)) = Ok (chain_hash x).
Proof.
  intros Hx. destruct (chain_material_wf (previous_hash x) (fingerprint_of x)) as [? ?]; [done| |].
  - eapply (sha256_ref_scalar (_content_fields x)), fingerprint_total.
  - split; [done|]. split; [done|]. apply sha256_ref_Ok. split; [|done]. cbn. by destruct (previous_hash x).
Qed.

Lemma chain_material_inj p1 h1 p2 h2 : chain_material p1 h1 ≡ chain_material p2 h2 -> p1 = p2 /\ h1 = h2.
Proof.
  intros Heq.
  pose proof (fun k => field_equiv _ _ k Heq eq_refl eq_refl) as Hk.
  pose proof (Hk (u"previous_hash")) as Hp. pose proof (Hk (u"content_fingerprint")) as Hh.
  cbn in Hp, Hh. injection Hh as Hh. split; [|done]. destruct p1, p2; try discriminate Hp; [by injection Hp as ->|done].
Qed.

(** Two registrations of one content. *)
Definition same_content (r1 r2 : ExperimentRegistration) : Prop := _content_fields r1 ≡ _content_fields r2.

Lemma canon_text o1 o2 : canon (dump_opt o1) = canon (dump_opt o2) -> o1 = o2.
Proof. destruct o1, o2; cbn; naive_solver. Qed.

Lemma arm_inj a1 a2 : dump_arm a1 ≡ dump_arm a2 -> a1 = a2.
Proof.
  intros Heq. pose proof (fun k => field_equiv _ _ k Heq eq_refl eq_refl) as Hk.
  pose proof (Hk (u"arm_id")) as H1. pose proof (Hk (u"role")) as H2. pose proof (Hk (u"asset_ref")) as H3.
  pose proof (Hk (u"query_cluster_ref")) as H4. clear Hk Heq. destruct a1 as [i1 r1 a1 q1], a2 as [i2 r2 a2 q2].
  change (Some (canon (dump_opt a1)) = Some (canon (dump_opt a2))) in H3.
  change (Some (canon (dump_opt q1)) = Some (canon (dump_opt q2))) in H4.
  injection H1 as H1. apply (inj Some) in H3, H4. apply canon_text in H3 as ->, H4 as ->.
  assert (r1 = r2) as -> by (by destruct r1, r2). by f_equal.
Qed.

Lemma metric_inj m1 m2 : dump_metric m1 ≡ dump_metric m2 -> m1 = m2.
Proof.
  intros Heq. pose proof (fun k => field_equiv _ _ k Heq eq_refl eq_refl) as Hk.
  pose proof (Hk (u"metric_id")) as H1. pose proof (Hk (u"description")) as H2.
  destruct m1, m2. injection H1 as H1. injection H2 as H2. by f_equal.
Qed.

Lemma list_inj {A} (f : A -> pyval) l1 : (forall x y, f x ≡ f y -> x = y) ->
  forall l2, canon (PList (f <$> l1)) = canon (PList (f <$> l2)) -> l1 = l2.
Proof.
  intros Hf. induction l1 as [|x l1 IH]; intros [|y l2]; cbn; [done|done|done|].
  intros [= Hx Hl]. f_equal; [by apply Hf|]. apply IH. cbn. by f_equal.
Qed.

(** One content, one design, one owner. *)
Lemma same_content_design r1 r2 : same_content r1 r2 ->
  arms r1 = arms r2 /\ metric_definitions r1 = metric_definitions r2 /\ tenant_id r1 = tenant_id r2 /\
  experiment_id r1 = experiment_id r2.
Proof.
  intros Heq. pose proof (fun k => field_equiv _ _ k Heq eq_refl eq_refl) as Hk.
  pose proof (Hk (u"arms")) as H1. pose proof (Hk (u"metric_definitions")) as H2.
  pose proof (Hk (u"tenant_id")) as H3. pose proof (Hk (u"experiment_id")) as H4. clear Hk Heq.
  change (Some (canon (PList (dump_arm <$> arms r1))) = Some (canon (PList (dump_arm <$> arms r2)))) in H1.
  change (Some (canon (PList (dump_metric <$> metric_definitions r1))) = Some (canon (PList (dump_metric <$> metric_definitions r2)))) in H2.
  apply (inj Some) in H1, H2. apply list_inj in H1; [|apply arm_inj]. apply list_inj in H2; [|apply metric_inj].
  injection H3 as H3. injection H4 as H4. done.
Qed.

Lemma fingerprint_inj r1 r2 : scalar_val (_content_fields r1) -> scalar_val (_content_fields r2) ->
  fingerprint_of r1 = fingerprint_of r2 ->
  same_content r1 r2 \/ text_collision (dumps (_content_fields r1)) (dumps (_content_fields r2)).
Proof.
  intros H1 H2 Heq. apply (sha256_ref_inj _ _ (fingerprint_of r1)); try apply content_wf; try done.
  - apply fingerprint_total.
  - rewrite Heq. apply fingerprint_total.
Qed.

Lemma fingerprint_hashes c p f r : fingerprint_of (set_hashes c p f r) = fingerprint_of r.
Proof. done. Qed.
End texts.

(** *** The ledger *)

Section ledger_lemmas.
Context `{FloatRepr} `{DatetimeJson}.

(** The entry [register] appends for a new experiment. *)
Definition anchored (st : LedgerState) (r : ExperimentRegistration) : ExperimentRegistration :=
  let unanchored := set_hashes (canonical_hash r) (tail_hash st) (content_fingerprint r) r in
  set_hashes (Some (chain_hash unanchored)) (tail_hash st) (Some (fingerprint_of r)) r.

Lemma register_eq st r : register st r =
  match find_experiment st (experiment_id r) with
  | Some existing =>
      if decide (fingerprint_of existing = fingerprint_of r) then Ok (st, existing)
      else if _design_changed existing r then Raise (RejectedError (experiment_id r))
      else Raise (ConflictError (experiment_id r))
  | None => Ok (st ++ [anchored st r], anchored st r)
  end.
Proof.
  unfold register. destruct (find_experiment st (experiment_id r)) as [ex|].
  - by rewrite !fingerprint_total.
  - cbv zeta. by rewrite fingerprint_total, experiment_hash_total.
Qed.

Lemma find_experiment_Some st id e : find_experiment st id = Some e -> e ∈ st /\ experiment_id e = id.
Proof.
  unfold find_experiment. intros Hh. assert (e ∈ filter (fun e => experiment_id e = id) st) as Hin.
  { destruct (filter _ st); [done|]. injection Hh as ->. left. }
  by apply list_elem_of_filter in Hin as [? ?].
Qed.

Lemma find_experiment_None st id : find_experiment st id = None <-> id ∉ experiment_id <$> st.
Proof.
  unfold find_experiment. rewrite list_elem_of_fmap. split.
  - intros Hh (e & -> & He). assert (e ∈ filter (fun x => experiment_id x = experiment_id e) st) as Hin
      by by apply list_elem_of_filter.
    destruct (filter _ st); [by apply elem_of_nil in Hin|done].
  - intros Hno. rewrite filter_none; [done|]. intros e He <-. apply Hno. eauto.
Qed.

Lemma find_unique st e : NoDup (experiment_id <$> st) -> e ∈ st -> find_experiment st (experiment_id e) = Some e.
Proof.
  intros Hnd He. destruct (find_experiment st (experiment_id e)) as [e'|] eqn:Hf.
  - apply find_experiment_Some in Hf as [He' Hid]. apply list_elem_of_lookup in He as [i Hi], He' as [j Hj].
    assert (i = j) as ->; [|congruence]. apply (NoDup_lookup _ _ _ (experiment_id e) Hnd).
    + by rewrite list_lookup_fmap, Hi.
    + rewrite list_lookup_fmap, Hj. cbn. by f_equal.
  - apply find_experiment_None in Hf. destruct Hf. apply list_elem_of_fmap. eauto.
Qed.

Lemma verify_from_app st : forall p i k, verify_from p i (st ++ k) =
  match verify_from p i st with
  | Ok (true, _) => verify_from (match last st with Some e => canonical_hash e | None => p end) (i + length st) k
  | x => x
  end.
Proof.
  induction st as [|e st IH]; intros p i k; cbn [verify_from app length].
  - by rewrite Nat.add_0_r.
  - destruct (decide (previous_hash e ≠ p)); [done|].
    rewrite experiment_hash_total. cbn [mbind result_bind].
    destruct (decide (Some (chain_hash e) ≠ canonical_hash e)) as [|Hc]; [done|].
    rewrite IH. destruct (verify_from _ _ st) as [[[] ?]|]; [|done..].
    replace (S i + length st)%nat with (i + S (length st))%nat by lia.
    assert (match last (e :: st) with Some e0 => canonical_hash e0 | None => p end =
            match last st with Some e0 => canonical_hash e0 | None => canonical_hash e end) as ->; [|done].
    destruct st as [|x st]; [done|]. rewrite last_cons_cons. destruct (last (x :: st)) eqn:Hl; [done|].
    by apply last_None in Hl.
Qed.

Lemma tail_hash_last st : tail_hash st = match last st with Some e => canonical_hash e | None => None end.
Proof. unfold tail_hash. by destruct (last st). Qed.

(** A verified ledger, split at its last entry. *)
Lemma verify_snoc st e : verify_ledger (st ++ [e]) = Ok (true, None) <->
  verify_ledger st = Ok (true, None) /\ previous_hash e = tail_hash st /\ canonical_hash e = Some (chain_hash e).
Proof.
  unfold verify_ledger. rewrite verify_from_app, tail_hash_last, Nat.add_0_l.
  assert (forall p i l b o, verify_from p i l = Ok (b, o) -> b = true -> o = None) as Hnone.
  { intros p i l. revert p i. induction l as [|x l IH]; intros p i b o; cbn [verify_from]; [by intros [= <- <-]|].
    case_decide; [by intros [= <- <-]|]. rewrite experiment_hash_total. cbn [mbind result_bind].
    case_decide; [by intros [= <- <-]|]. apply IH. }
  destruct (verify_from None 0 st) as [[[] o]|] eqn:Hv; [|naive_solver..].
  rewrite (Hnone _ _ _ _ _ Hv eq_refl). set (p := match last st with Some e => _ | None => _ end).
  cbn [verify_from]. rewrite experiment_hash_total. cbn [mbind result_bind].
  case_decide as H1; [naive_solver|].
  case_decide as H2; [naive_solver|]. naive_solver.
Qed.

Lemma anchored_content st r : _content_fields (anchored st r) = _content_fields r.
Proof. done. Qed.

Lemma verify_anchored st r : verify_ledger st = Ok (true, None) -> verify_ledger (st ++ [anchored st r]) = Ok (true, None).
Proof. intros Hv. apply verify_snoc. done. Qed.

Definition design_differs (e r : ExperimentRegistration) : Prop := arms e <> arms r \/ metric_definitions e <> metric_definitions r.

Lemma design_changed_iff e r : _design_changed e r = true <-> design_differs e r.
Proof. unfold _design_changed, design_differs. bprop. tauto. Qed.

(** Every request in order; a refused one changes nothing. *)
Definition ledger_step (st : LedgerState) (r : ExperimentRegistration) : LedgerState :=
  match register st r with Ok (st', _) => st' | Raise _ => st end.
Definition run_ledger (requests : list ExperimentRegistration) : LedgerState := fold_left ledger_step requests [].

Lemma run_snoc l r : run_ledger (l ++ [r]) = ledger_step (run_ledger l) r.
Proof. unfold run_ledger. by rewrite fold_left_app. Qed.

Lemma step_eq st r : ledger_step st r =
  match find_experiment st (experiment_id r) with Some _ => st | None => st ++ [anchored st r] end.
Proof.
  unfold ledger_step. rewrite register_eq. destruct (find_experiment _ _); [|done].
  case_decide; [done|]. by destruct (_design_changed _ _).
Qed.

Lemma run_prefix l k : run_ledger l `prefix_of` run_ledger (l ++ k).
Proof.
  induction k as [|r k IH] using rev_ind; [by rewrite app_nil_r|]. rewrite app_assoc, run_snoc, step_eq.
  destruct (find_experiment _ _); [done|]. by apply prefix_app_r.
Qed.

Record ledger_inv (l : list ExperimentRegistration) : Prop := {
  li_verified : verify_ledger (run_ledger l) = Ok (true, None);
  li_unique : NoDup (experiment_id <$> run_ledger l);
  li_first : forall id, (fun e => _content_fields e) <$> find_experiment (run_ledger l) id =
                        (fun r => _content_fields r) <$> find_experiment l id
}.

Lemma find_app st k id : find_experiment (st ++ k) id =
  match find_experiment st id with Some e => Some e | None => find_experiment k id end.
Proof. unfold find_experiment. rewrite filter_app. by destruct (filter _ st). Qed.

Lemma find_singleton e id : find_experiment [e] id = if decide (experiment_id e = id) then Some e else None.
Proof. unfold find_experiment. rewrite filter_cons, filter_nil. by destruct (decide (experiment_id e = id)). Qed.

Lemma ledger_inv_run l : ledger_inv l.
Proof.
  induction l as [|r l [Hv Hu Hf]] using rev_ind; [by split; [|constructor|]|].
  split; rewrite run_snoc, step_eq; pose proof (Hf (experiment_id r)) as Hr;
    destruct (find_experiment (run_ledger l) (experiment_id r)) as [e|] eqn:He; try done.
  - by apply verify_anchored.
  - rewrite fmap_app. apply NoDup_app. split; [done|]. split; [|apply NoDup_singleton].
    intros id Hid ->%list_elem_of_singleton. by apply find_experiment_None in He.
  - intros id. rewrite find_app, Hf, find_singleton. destruct (find_experiment l id) eqn:Hl; [done|].
    case_decide as Hid; [|done]. subst id. by rewrite Hl in Hr.
  - intros id. rewrite !find_app, !find_singleton. specialize (Hf id).
    destruct (find_experiment (run_ledger l) id), (find_experiment l id); try done.
    change (experiment_id (anchored (run_ledger l) r)) with (experiment_id r). by case_decide.
Qed.
End ledger_lemmas.

(** *** One tail, one ledger *)

Section tail.
Context `{FloatRepr} `{DatetimeJson}.

(** The texts hashed for an entry. *)
Definition entry_texts (e : ExperimentRegistration) : list pystr :=
  [dumps (_content_fields e); dumps (chain_material (previous_hash e) (fingerprint_of e))].

Definition collide_within (st1 st2 : LedgerState) : Prop :=
  exists e1 e2 t1 t2, e1 ∈ st1 /\ e2 ∈ st2 /\ t1 ∈ entry_texts e1 /\ t2 ∈ entry_texts e2 /\ text_collision t1 t2.

Lemma collide_snoc st1 st2 e1 e2 : collide_within st1 st2 -> collide_within (st1 ++ [e1]) (st2 ++ [e2]).
Proof.
  intros (x1 & x2 & t1 & t2 & H1 & H2 & Ht). exists x1, x2, t1, t2. rewrite !elem_of_app. tauto.
Qed.

Lemma chain_hash_scalar e h : canonical_hash e = Some (chain_hash e) -> canonical_hash e = Some h -> scalar_str h.
Proof.
  intros -> [= <-]. apply (sha256_ref_scalar (chain_material (previous_hash e) (fingerprint_of e))).
  apply sha256_ref_Ok. split; [|done]. cbn. by destruct (previous_hash e).
Qed.

Lemma tail_scalar st h : verify_ledger st = Ok (true, None) -> tail_hash st = Some h -> scalar_str h.
Proof.
  destruct st as [|e st _] using rev_ind; [done|]. intros (_ & _ & Hc)%verify_snoc. unfold tail_hash. rewrite last_snoc.
  cbn. by apply chain_hash_scalar.
Qed.

End tail.

(** ** Theorems *)

Section theorems.
Context `{FloatRepr} `{DatetimeJson}.

(** C16: After any sequence of registrations, refused ones included, the ledger
    verifies and holds one entry per experiment, whose content is that of the
    first request for it; whatever is registered next only appends. *)
Theorem ledger_history l k :
  let st := run_ledger l in
  verify_ledger st = Ok (true, None) /\ NoDup (experiment_id <$> st) /\ st `prefix_of` run_ledger (l ++ k) /\
  forall id, (fun e => _content_fields e) <$> find_experiment st id = (fun r => _content_fields r) <$> find_experiment l id.
Proof. destruct (ledger_inv_run l) as [Hv Hu Hf]. split; [done|]. split; [done|]. split; [apply run_prefix|done]. Qed.

(** A registration is decided exactly: a new experiment is appended at the
    tail and keeps the ledger verified; a known one changes nothing, and is
    answered with the stored entry only for the same design and owner (up to
    a SHA-256 collision), rejected when arms or metrics differ, and a conflict
    when the rest does. *)
Theorem register_exact st r :
  match find_experiment st (experiment_id r) with
  | None => exists e, register st r = Ok (st ++ [e], e) /\ _content_fields e = _content_fields r /\
      previous_hash e = tail_hash st /\ content_fingerprint e = Some (fingerprint_of r) /\
      (verify_ledger st = Ok (true, None) -> verify_ledger (st ++ [e]) = Ok (true, None))
  | Some ex =>
      match register st r with
      | Ok (st', e) => st' = st /\ e = ex /\
          (scalar_val (_content_fields ex) -> scalar_val (_content_fields r) ->
           (arms ex = arms r /\ metric_definitions ex = metric_definitions r /\ tenant_id ex = tenant_id r) \/
           text_collision (dumps (_content_fields ex)) (dumps (_content_fields r)))
      | Raise (RejectedError id) => id = experiment_id r /\ design_differs ex r
      | Raise (ConflictError id) => id = experiment_id r /\ ~ design_differs ex r /\ ~ same_content ex r
      | Raise (Builtin _) => False
      end
  end.
Proof.
  rewrite register_eq. destruct (find_experiment st (experiment_id r)) as [ex|].
  - destruct (decide (fingerprint_of ex = fingerprint_of r)) as [Hf|Hf].
    + split; [done|]. split; [done|]. intros H1 H2. destruct (fingerprint_inj ex r H1 H2 Hf) as [Hs|Hc]; [left|by right].
      apply same_content_design in Hs. tauto.
    + destruct (_design_changed ex r) eqn:Hd; [by apply design_changed_iff in Hd|]. split; [done|]. split.
      * rewrite <- design_changed_iff. congruence.
      * intros Hs. apply Hf. unfold fingerprint_of. do 2 f_equal. rewrite !dumps_raw by apply content_wf. by f_equal.
  - exists (anchored st r). split; [done|]. split; [done|]. split; [done|]. split; [done|]. apply verify_anchored.
Qed.

(** The tail commits to the ledger: two ledgers that verify and end in one
    canonical hash hold the same registrations in the same order, or two texts
    hashed for them are a SHA-256 collision; so reordering, splicing or
    relinking entries under a known tail is detected. *)
Theorem ledger_tail_commits st1 st2 :
  Forall (fun e => scalar_val (_content_fields e)) st1 -> Forall (fun e => scalar_val (_content_fields e)) st2 ->
  verify_ledger st1 = Ok (true, None) -> verify_ledger st2 = Ok (true, None) -> tail_hash st1 = tail_hash st2 ->
  Forall2 same_content st1 st2 \/ collide_within st1 st2.
Proof.
  revert st2.
  induction st1 as [|e1 st1 IH] using rev_ind; intros st2 Hs1 Hs2 Hv1 Hv2 Ht.
  - destruct st2 as [|e2 st2 _] using rev_ind; [by left; constructor|].
    apply verify_snoc in Hv2 as (_ & _ & Hc). unfold tail_hash in Ht. rewrite last_snoc in Ht. cbn in Ht. congruence.
  - destruct st2 as [|e2 st2 _] using rev_ind.
    { apply verify_snoc in Hv1 as (_ & _ & Hc). unfold tail_hash in Ht. rewrite last_snoc in Ht. cbn in Ht. congruence. }
    apply verify_snoc in Hv1 as (Hv1 & Hp1 & Hc1), Hv2 as (Hv2 & Hp2 & Hc2).
    unfold tail_hash in Ht. rewrite !last_snoc in Ht. cbn in Ht. rewrite Hc1, Hc2 in Ht. apply (inj Some) in Ht.
    apply Forall_app in Hs1 as [Hs1 [Hs1' _]%Forall_cons], Hs2 as [Hs2 [Hs2' _]%Forall_cons].
    destruct (chain_link e1) as (W1 & S1 & R1); [intros p Hp; apply (tail_scalar st1); congruence|].
    destruct (chain_link e2) as (W2 & S2 & R2); [intros p Hp; apply (tail_scalar st2); congruence|]. rewrite <- Ht in R2.
    destruct (sha256_ref_inj _ _ _ W1 W2 S1 S2 R1 R2) as [Heq|Hcol].
    2: { right. exists e1, e2. do 2 eexists. rewrite !elem_of_app.
         split; [right; left|]. split; [right; left|]. split; [right; left|]. split; [right; left|done]. }
    apply chain_material_inj in Heq as [Hp Hf].
    destruct (fingerprint_inj e1 e2 Hs1' Hs2' Hf) as [Hsame|Hcol].
    2: { right. exists e1, e2. do 2 eexists. rewrite !elem_of_app.
         split; [right; left|]. split; [right; left|]. split; [left|]. split; [left|done]. }
    destruct (IH st2 Hs1 Hs2 Hv1 Hv2) as [Hall|Hcol]; [congruence|left|right; by apply collide_snoc].
    apply Forall2_app; [done|]. by constructor.
Qed.
End theorems.

(** ** Witnesses *)

Module Witness.
#[local] Existing Instance sci_float_repr.
#[local] Existing Instance plain_datetime_json.

Definition arm (i : string) (x : ArmRole) : ExperimentArm :=
  {| arm_id := u i; role := x; asset_ref := Some (u"asset"); arm_query_cluster_ref := None |}.

Definition registration (id : string) (metrics : list string) (locale : string) : ExperimentRegistration :=
  {| experiment_id := u id; tenant_id := u"t"; run_id := u"r";
     arms := [arm "b" baseline; arm "x" treatment; arm "y" control];
     metric_definitions := (fun m => {| metric_id := u m; description := u"d" |}) <$> metrics;
     query_cluster_ref := u"q"; locale := u locale; browser_policy := u"chrome"; repeat_count := 3; asset_hash := u"h";
     code_version_hash := u"c"; created_by := u"a"; approved_by := u"b";
     created_at := {| wall := 738000 * DAY; tz := Some utc |};
     canonical_hash := None; previous_hash := None; content_fingerprint := None |}.

Definition r1 := registration "e1" ["m"] "ko-KR".
Definition r2 := registration "e2" ["m"] "ko-KR".

Example registrations_valid : is_ok (make_ExperimentRegistration r1) && is_ok (make_ExperimentRegistration r2) = true.
Proof. vm_compute. reflexivity. Qed.

(** A replay, a changed design, another locale. *)
Example second_registrations :
  map (fun r => match register (run_ledger [r1; r2]) r with
                | Ok (st, _) => inl (length st)
                | Raise e => inr e
                end) [r1; registration "e1" ["m"; "n"] "ko-KR"; registration "e1" ["m"] "en-US"; registration "e3" ["m"] "en-US"]
  = [inl 2%nat; inr (RejectedError (u"e1")); inr (ConflictError (u"e1")); inl 3%nat].
Proof. vm_compute. reflexivity. Qed.

(** Reordered and relinked entries that keep their canonical hashes. *)
Definition relinked : LedgerState :=
  match run_ledger [r1; r2] with
  | [e1; e2] => [set_hashes (canonical_hash e2) None (content_fingerprint e2) e2;
                 set_hashes (canonical_hash e1) (canonical_hash e2) (content_fingerprint e1) e1]
  | l => l
  end.

Example relinked_detected : verify_ledger relinked = Ok (false, Some 0%nat).
Proof. vm_compute. reflexivity. Qed.

(** The stored fingerprint is no part of what verification recomputes. *)
Example stored_fingerprint_unverified :
  verify_ledger ((fun e => set_hashes (canonical_hash e) (previous_hash e) (Some (u"other")) e) <$> run_ledger [r1; r2])
  = Ok (true, None).
Proof. vm_compute. reflexivity. Qed.

Lemma ledger_tail_commits_witness :
  let st := run_ledger [r1; r2] in
  verify_ledger st = Ok (true, None) /\ (Forall2 same_content st st \/ collide_within st st).
Proof.
  assert (verify_ledger (run_ledger [r1; r2]) = Ok (true, None)) as Hv by (vm_compute; reflexivity).
  assert (Forall (fun e => scalar_val (_content_fields e)) (run_ledger [r1; r2])) as Hs.
  { apply (Forall_impl (fun e => scalar_valb (_content_fields e) = true)); [|intros e; apply scalar_valb_scalar].
    apply Forall_forall. apply forallb_elem. vm_compute. reflexivity. }
  split; [exact Hv|]. apply ledger_tail_commits; [exact Hs|exact Hs|exact Hv|exact Hv|reflexivity].
Defined.
End Witness.
