(* ===== verification/Binding.v ===== *)
(** Measurement-time binding of a registered experiment (measurement/binding.py):
    a submission is admitted against the registration it claims to measure, or
    rejected with the first guard it fails. *)

From Stdlib Require Import SpecFloat.
From S2P Require Import Prelude PyStr Sha256 PyVal Canonical PyTime Experiment.

Inductive BindingRejectReason :=
  | not_found | post_registration_mutation | conflicting_registration | metric_mutation
  | cell_mismatch | contamination | asset_hash_conflict.

(** [BindingNotFoundError], [BindingRejectedError] with its offending field,
    and what hashing lets through. *)
Inductive binding_exn :=
  | BindingNotFoundError (experiment_id : pystr)
  | BindingRejectedError (experiment_id : pystr) (reason : BindingRejectReason) (field : option pystr)
  | Builtin (e : pyexn).

Definition _CONTAMINATING_ROLE_PAIRS : list (ArmRole * ArmRole) := [(treatment, control)].

Inductive weights_mode := enforce_mode | not_registered_mode.

Record WeightsPolicy := { mode : weights_mode; registered_weights : list (pystr * f64) }.

Definition enforce (weights : list (pystr * f64)) : WeightsPolicy :=
  {| mode := enforce_mode; registered_weights := sort_by fst weights |}.
Definition not_registered : WeightsPolicy := {| mode := not_registered_mode; registered_weights := [] |}.

Fixpoint weight_in (weights : list (pystr * f64)) (metric_id : pystr) : option f64 :=
  match weights with
  | [] => None
  | (candidate_id, weight) :: weights => if decide (candidate_id = metric_id) then Some weight else weight_in weights metric_id
  end.

Definition registered_weight_for (p : WeightsPolicy) (metric_id : pystr) : option f64 := weight_in (registered_weights p) metric_id.

(** [a == b] on floats. *)
Definition f64_eqb (a b : f64) : bool := SFeqb (proj1_sig a) (proj1_sig b).

Record MeasurementMetricInput := { mm_metric_id : pystr; mm_metric_hash : pystr; mm_weight : f64 }.

Record MeasurementCell := {
  mc_locale : pystr; mc_browser_policy : pystr; mc_query_cluster_ref : pystr; mc_repeat_count : Z
}.
#[export] Instance MeasurementCell_eq_dec : EqDecision MeasurementCell.
Proof. solve_decision. Defined.

Record Observation := {
  observation_id : pystr; ob_arm_id : pystr; ob_cell : MeasurementCell;
  ob_asset_hash : option pystr; ob_query_cluster_ref : option pystr
}.

Record MeasurementSubmission := {
  ms_experiment_id : pystr; ms_tenant_id : pystr; ms_anchored_hash : pystr; ms_content_fingerprint : pystr;
  ms_metrics : list MeasurementMetricInput; ms_observations : list Observation
}.

Record BoundExperiment := {
  be_experiment_id : pystr; be_tenant_id : pystr; be_anchored_hash : pystr; be_registered_cell : MeasurementCell;
  be_arm_roles : list (pystr * ArmRole); be_metric_ids : list pystr; be_observations : list Observation
}.

Section binding.
Context `{FloatRepr} `{DatetimeJson}.

Definition _metric_hash (m : MetricDefinition) : result pyexn pystr := sha256_ref (dump_metric m).

Definition compute_metric_fingerprint (m : MetricDefinition) : result pyexn pystr := _metric_hash m.

Definition reject_when (b : bool) (r : ExperimentRegistration) (why : BindingRejectReason) (field : option pystr)
    : result binding_exn unit :=
  raise_if b (BindingRejectedError (experiment_id r) why field).

Definition builtin {A} (m : result pyexn A) : result binding_exn A := try_except m (fun e => Raise (Builtin e)).

Definition _reject_conflicting_registration (r : ExperimentRegistration) (s : MeasurementSubmission) : result binding_exn unit :=
  reject_when (negb (bool_decide (content_fingerprint r = Some (ms_content_fingerprint s)))) r conflicting_registration None.

Definition _verify_registration_integrity (r : ExperimentRegistration) (anchored_hash : pystr) : result binding_exn unit :=
  recomputed ← builtin (compute_experiment_hash r);
  reject_when (negb (bool_decide (recomputed = anchored_hash))) r post_registration_mutation None.

(** The value of a dictionary built by a comprehension: the last wins. *)
Definition metric_by_id (r : ExperimentRegistration) (id : pystr) : option MetricDefinition :=
  last (filter (fun m => metric_id m = id) (metric_definitions r)).

Definition check_metric (r : ExperimentRegistration) (weights : WeightsPolicy) (measured : MeasurementMetricInput)
    : result binding_exn unit :=
  let reject b := reject_when b r metric_mutation (Some (mm_metric_id measured)) in
  match metric_by_id r (mm_metric_id measured) with
  | None => reject true
  | Some registered =>
      h ← builtin (_metric_hash registered);
      _ ← reject (negb (bool_decide (h = mm_metric_hash measured)));
      match mode weights with
      | enforce_mode =>
          match registered_weight_for weights (mm_metric_id measured) with
          | None => reject true
          | Some w => reject (negb (f64_eqb w (mm_weight measured)))
          end
      | not_registered_mode => Ok tt
      end
  end.

(** [for x in l: check(x)] *)
Fixpoint check_all {A} (check : A -> result binding_exn unit) (l : list A) : result binding_exn unit :=
  match l with [] => Ok tt | x :: l => _ ← check x; check_all check l end.

Definition _reject_metric_mutation (r : ExperimentRegistration) (metrics : list MeasurementMetricInput)
    (weights : WeightsPolicy) : result binding_exn unit := check_all (check_metric r weights) metrics.

Definition check_cell (r : ExperimentRegistration) (o : Observation) : result binding_exn unit :=
  let cell := ob_cell o in
  _ ← reject_when (negb (bool_decide (mc_locale cell = locale r))) r cell_mismatch (Some (u "locale"));
  _ ← reject_when (negb (bool_decide (mc_browser_policy cell = browser_policy r))) r cell_mismatch (Some (u "browser_policy"));
  _ ← reject_when (negb (bool_decide (mc_query_cluster_ref cell = query_cluster_ref r))) r cell_mismatch (Some (u "query_cluster_ref"));
  reject_when (negb (bool_decide (mc_repeat_count cell = repeat_count r))) r cell_mismatch (Some (u "repeat_count")).

Definition _reject_cell_mismatch (r : ExperimentRegistration) (observations : list Observation) : result binding_exn unit :=
  check_all (check_cell r) observations.

(** What the loop of [_reject_contamination] has seen: observation ids, the
    query cells observed under each role (asset design), and the arm that owns
    each cluster (matched-cluster design). *)
Record seen_state := {
  seen_ids : list pystr; role_cells : list (ArmRole * pystr); cluster_owner : gmap pystr pystr
}.

Definition nothing_seen : seen_state := {| seen_ids := []; role_cells := []; cluster_owner := ∅ |}.

Definition arm_by_id (r : ExperimentRegistration) (id : pystr) : option ExperimentArm :=
  last (filter (fun a => arm_id a = id) (arms r)).

Definition check_observation (r : ExperimentRegistration) (s : seen_state) (o : Observation) : result binding_exn seen_state :=
  match arm_by_id r (ob_arm_id o) with
  | None => Raise (BindingRejectedError (experiment_id r) contamination (Some (ob_arm_id o)))
  | Some arm =>
      _ ← reject_when (bool_decide (observation_id o ∈ seen_ids s)) r contamination (Some (observation_id o));
      let ids := observation_id o :: seen_ids s in
      _ ← reject_when (match ob_asset_hash o with Some h => negb (bool_decide (h = asset_hash r)) | None => false end)
            r asset_hash_conflict (Some (ob_arm_id o));
      match ob_query_cluster_ref o with
      | None => Ok {| seen_ids := ids; role_cells := role_cells s; cluster_owner := cluster_owner s |}
      | Some cluster =>
          if is_matched_cluster_design r then
            _ ← reject_when (match arm_query_cluster_ref arm with Some c => negb (bool_decide (cluster = c)) | None => false end)
                  r contamination (Some (ob_arm_id o));
            let owner := default (arm_id arm) (cluster_owner s !! cluster) in
            _ ← reject_when (negb (bool_decide (owner = arm_id arm))) r contamination (Some cluster);
            Ok {| seen_ids := ids; role_cells := role_cells s; cluster_owner := <[cluster := owner]> (cluster_owner s) |}
          else Ok {| seen_ids := ids; role_cells := (role arm, cluster) :: role_cells s; cluster_owner := cluster_owner s |}
      end
  end.

Fixpoint check_observations (r : ExperimentRegistration) (s : seen_state) (l : list Observation) : result binding_exn seen_state :=
  match l with [] => Ok s | o :: l => s ← check_observation r s o; check_observations r s l end.

Definition cells_of (s : seen_state) (x : ArmRole) : list pystr := (filter (fun p => p.1 = x) (role_cells s)).*2.

(** [sorted(overlap)]; the overlap of the two sets, with repetitions. *)
Definition overlap (s : seen_state) (pair : ArmRole * ArmRole) : list pystr :=
  sort_by id (filter (fun c => c ∈ cells_of s pair.2) (cells_of s pair.1)).

Definition _reject_contamination (r : ExperimentRegistration) (observations : list Observation) : result binding_exn unit :=
  s ← check_observations r nothing_seen observations;
  check_all (fun pair =>
    match overlap s pair with
    | [] => Ok tt
    | cell :: _ => reject_when true r contamination (Some cell)
    end) _CONTAMINATING_ROLE_PAIRS.

Definition registered_cell (r : ExperimentRegistration) : MeasurementCell :=
  {| mc_locale := locale r; mc_browser_policy := browser_policy r; mc_query_cluster_ref := query_cluster_ref r;
     mc_repeat_count := repeat_count r |}.

Definition bind_experiment (registration : option ExperimentRegistration) (submission : MeasurementSubmission)
    (weights : WeightsPolicy) : result binding_exn BoundExperiment :=
  match registration with
  | None => Raise (BindingNotFoundError (ms_experiment_id submission))
  | Some r =>
      _ ← raise_if (negb (bool_decide (tenant_id r = ms_tenant_id submission)))
            (BindingNotFoundError (ms_experiment_id submission));
      _ ← _reject_conflicting_registration r submission;
      _ ← _verify_registration_integrity r (ms_anchored_hash submission);
      _ ← _reject_metric_mutation r (ms_metrics submission) weights;
      _ ← _reject_cell_mismatch r (ms_observations submission);
      _ ← _reject_contamination r (ms_observations submission);
      Ok {| be_experiment_id := experiment_id r; be_tenant_id := tenant_id r; be_anchored_hash := ms_anchored_hash submission;
            be_registered_cell := registered_cell r;
            be_arm_roles := (fun a => (arm_id a, role a)) <$> arms r;
            be_metric_ids := metric_id <$> metric_definitions r;
            be_observations := ms_observations submission |}
  end.
End binding.

(** ** Lemmas *)

Section lemmas.
Context `{FloatRepr} `{DatetimeJson}.

Lemma check_all_Ok {A} (check : A -> result binding_exn unit) l : check_all check l = Ok tt <-> forall x, x ∈ l -> check x = Ok tt.
Proof.
  induction l as [|x l IH]; cbn; [split; [by intros _ ? ?%elem_of_nil|done]|].
  rewrite seq_Ok, IH. setoid_rewrite elem_of_cons. naive_solver.
Qed.

Lemma reject_when_Ok b r why field : reject_when b r why field = Ok tt <-> b = false.
Proof. apply raise_if_Ok. Qed.

Lemma check_cell_Ok r o : check_cell r o = Ok tt <-> ob_cell o = registered_cell r.
Proof.
  unfold check_cell. rewrite !seq_Ok, !reject_when_Ok. bprop. destruct (ob_cell o). cbn. unfold registered_cell. naive_solver.
Qed.

Definition metric_hash_of (m : MetricDefinition) : pystr := _SHA256_PREFIX ++ hexdigest (dumps (dump_metric m)).

Lemma metric_hash_total m : _metric_hash m = Ok (metric_hash_of m).
Proof. by apply sha256_ref_Ok. Qed.

(** A measured metric is a registered one, with its definition and weight. *)
Definition metric_ok (r : ExperimentRegistration) (w : WeightsPolicy) (m : MeasurementMetricInput) : Prop :=
  exists d, metric_by_id r (mm_metric_id m) = Some d /\ metric_hash_of d = mm_metric_hash m /\
    (mode w = enforce_mode -> exists x, registered_weight_for w (mm_metric_id m) = Some x /\ f64_eqb x (mm_weight m) = true).

Lemma check_metric_Ok r w m : check_metric r w m = Ok tt <-> metric_ok r w m.
Proof.
  unfold check_metric, metric_ok. destruct (metric_by_id r (mm_metric_id m)) as [d|]; [|naive_solver].
  rewrite metric_hash_total. cbn [builtin try_except mbind result_bind]. rewrite seq_Ok, reject_when_Ok. bprop.
  destruct (mode w); [|naive_solver].
  destruct (registered_weight_for w (mm_metric_id m)) as [x|]; [rewrite reject_when_Ok; bprop|]; naive_solver.
Qed.

(** *** Observations *)

Section observations.
Context (r : ExperimentRegistration).

Lemma arm_by_id_Some i a : arm_by_id r i = Some a -> arm_id a = i /\ a ∈ arms r.
Proof.
  unfold arm_by_id. intros Hl. assert (a ∈ filter (fun a => arm_id a = i) (arms r)) as Hin by by apply last_Some_elem_of.
  by apply list_elem_of_filter in Hin.
Qed.

Record obs_ok (l : list Observation) : Prop := {
  oo_arm o : o ∈ l -> arm_by_id r (ob_arm_id o) <> None;
  oo_ids : NoDup (observation_id <$> l);
  oo_asset o h : o ∈ l -> ob_asset_hash o = Some h -> h = asset_hash r;
  oo_cluster o a c c' : is_matched_cluster_design r = true -> o ∈ l -> arm_by_id r (ob_arm_id o) = Some a ->
    ob_query_cluster_ref o = Some c -> arm_query_cluster_ref a = Some c' -> c = c';
  oo_owner o1 o2 c : is_matched_cluster_design r = true -> o1 ∈ l -> o2 ∈ l ->
    ob_query_cluster_ref o1 = Some c -> ob_query_cluster_ref o2 = Some c -> ob_arm_id o1 = ob_arm_id o2
}.

(** What the loop has recorded after the observations [l]. *)
Record seen_inv (l : list Observation) (s : seen_state) : Prop := {
  si_ids i : i ∈ seen_ids s <-> i ∈ observation_id <$> l;
  si_owner c a : is_matched_cluster_design r = true ->
    cluster_owner s !! c = Some a <-> exists o, o ∈ l /\ ob_query_cluster_ref o = Some c /\ ob_arm_id o = a;
  si_none : is_matched_cluster_design r = true -> role_cells s = [];
  si_cells x c : is_matched_cluster_design r = false ->
    (x, c) ∈ role_cells s <-> exists o a, o ∈ l /\ arm_by_id r (ob_arm_id o) = Some a /\ role a = x /\ ob_query_cluster_ref o = Some c
}.

Lemma obs_ok_app l k : obs_ok (l ++ k) -> obs_ok l.
Proof.
  intros [H1 H2 H3 H4 H5]. split.
  - intros o Ho. apply H1, elem_of_app. by left.
  - rewrite fmap_app in H2. by apply NoDup_app in H2 as [H2 _].
  - intros o h Ho. apply H3, elem_of_app. by left.
  - intros o a c c' Hm Ho. apply H4; [done|]. apply elem_of_app. by left.
  - intros o1 o2 c Hm Ho1 Ho2. apply (H5 o1 o2 c); [done|apply elem_of_app; by left..].
Qed.

Lemma check_observations_app s l k :
  check_observations r s (l ++ k) = (s ← check_observations r s l; check_observations r s k).
Proof.
  revert s. induction l as [|o l IH]; intros s; cbn; [done|]. destruct (check_observation r s o); cbn; [apply IH|done].
Qed.

Lemma obs_ok_snoc l o a : arm_by_id r (ob_arm_id o) = Some a ->
  obs_ok (l ++ [o]) <-> obs_ok l /\ (observation_id o ∉ observation_id <$> l) /\
    (forall h, ob_asset_hash o = Some h -> h = asset_hash r) /\
    (is_matched_cluster_design r = true -> forall c, ob_query_cluster_ref o = Some c ->
       (forall c', arm_query_cluster_ref a = Some c' -> c = c') /\
       (forall o', o' ∈ l -> ob_query_cluster_ref o' = Some c -> ob_arm_id o' = ob_arm_id o)).
Proof.
  intros Ha. assert (o ∈ l ++ [o]) as Hin by (apply elem_of_app; right; left).
  assert (forall x, x ∈ l -> x ∈ l ++ [o]) as Hl by (intros x Hx; apply elem_of_app; by left).
  split.
  - intros Hok. split; [by eapply obs_ok_app|]. destruct Hok as [H1 H2 H3 H4 H5]. split; [|split; [eauto|]].
    + rewrite fmap_app in H2. apply NoDup_app in H2 as (_ & Hd & _). intros Hx. apply (Hd _ Hx). left.
    + intros Hm c Hc. split; [eauto|]. intros o' Ho' Hc'. eauto.
  - intros ([H1 H2 H3 H4 H5] & Hid & Has & Hcl). split.
    + intros x [Hx| ->%list_elem_of_singleton]%elem_of_app; [auto|congruence].
    + rewrite fmap_app. apply NoDup_app. split; [done|]. split; [|apply NoDup_singleton]. by intros i Hi ->%list_elem_of_singleton.
    + intros x h [Hx| ->%list_elem_of_singleton]%elem_of_app; eauto.
    + intros x b c c' Hm [Hx| ->%list_elem_of_singleton]%elem_of_app; [eauto|]. rewrite Ha. intros [= <-] Hc Hc'.
      by apply (Hcl Hm c Hc).
    + intros o1 o2 c Hm [Hx| ->%list_elem_of_singleton]%elem_of_app [Hy| ->%list_elem_of_singleton]%elem_of_app Hc1 Hc2;
        [eauto|by apply (Hcl Hm c Hc2)|symmetry; by apply (Hcl Hm c Hc1)|done].
Qed.

Lemma elem_of_snoc {A} (P : A -> Prop) (l : list A) x : (exists y, y ∈ l ++ [x] /\ P y) <-> (exists y, y ∈ l /\ P y) \/ P x.
Proof. setoid_rewrite elem_of_app. setoid_rewrite list_elem_of_singleton. naive_solver. Qed.

Lemma check_observation_spec l s o : obs_ok l -> seen_inv l s ->
  match check_observation r s o with
  | Ok s' => obs_ok (l ++ [o]) /\ seen_inv (l ++ [o]) s'
  | Raise _ => ~ obs_ok (l ++ [o])
  end.
Proof.
  intros Hok [Hi Ho Hn Hc]. unfold check_observation.
  assert (o ∈ l ++ [o]) as Hin by (apply elem_of_app; right; left).
  destruct (arm_by_id r (ob_arm_id o)) as [a|] eqn:Ha; [|intros Hbad; by apply (oo_arm _ Hbad o)].
  destruct (arm_by_id_Some _ _ Ha) as [Hid _]. pose proof (obs_ok_snoc l o a Ha) as Hsnoc. unfold reject_when.
  destruct (bool_decide (observation_id o ∈ seen_ids s)) eqn:Hseen; bprop; cbn [negb raise_if mbind result_bind].
  { rewrite Hi in Hseen. rewrite Hsnoc. naive_solver. }
  rewrite Hi in Hseen.
  assert (forall i, i ∈ observation_id o :: seen_ids s <-> i ∈ observation_id <$> l ++ [o]) as Hi'.
  { intros i. rewrite fmap_app, elem_of_app, elem_of_cons, Hi. cbn. rewrite list_elem_of_singleton. tauto. }
  destruct (match ob_asset_hash o with Some h => _ | None => false end) eqn:Hasset; cbn [negb raise_if mbind result_bind].
  { destruct (ob_asset_hash o) as [h|]; [|done]. bprop. rewrite Hsnoc. naive_solver. }
  assert (forall h, ob_asset_hash o = Some h -> h = asset_hash r) as Hasset'.
  { intros h Hh. rewrite Hh in Hasset. by bprop. }
  destruct (ob_query_cluster_ref o) as [c|] eqn:Hcl.
  2: { split; [apply Hsnoc; naive_solver|]. split; [exact Hi'| |exact Hn|].
       - intros c x Hm. rewrite Ho, elem_of_snoc by done. naive_solver.
       - intros x c Hm. cbn [role_cells]. rewrite Hc by done. split; [intros (o' & b & Hb & Hrest); exists o', b; rewrite elem_of_app; tauto|].
         intros (o' & b & [Hb| ->%list_elem_of_singleton]%elem_of_app & Hrest); [by exists o', b|]. naive_solver. }
  destruct (is_matched_cluster_design r) eqn:Hm; cbn [negb raise_if mbind result_bind].
  - destruct (match arm_query_cluster_ref a with Some c' => _ | None => false end) eqn:Harm; cbn [negb raise_if mbind result_bind].
    { destruct (arm_query_cluster_ref a) as [c'|]; [|done]. bprop. rewrite Hsnoc. naive_solver. }
    destruct (bool_decide (default (arm_id a) (cluster_owner s !! c) = arm_id a)) eqn:Hown; bprop; cbn [negb raise_if mbind result_bind].
    + rewrite Hown. split.
      * apply Hsnoc. split; [done|]. split; [done|]. split; [done|]. intros _ c0 [= <-]. split.
        -- intros c' Hc'. rewrite Hc' in Harm. by bprop.
        -- intros o' Ho' Hc'. assert (cluster_owner s !! c = Some (ob_arm_id o')) as Hl by (apply Ho; eauto).
           rewrite Hl in Hown. cbn in Hown. congruence.
      * split; [exact Hi'| |by intros _; apply Hn|congruence]. intros c0 x _. cbn [cluster_owner]. rewrite elem_of_snoc.
        destruct (decide (c0 = c)) as [->|Hne].
        -- rewrite lookup_insert_eq. split; [intros [= <-]; right; by rewrite Hid|].
           intros [(o' & Ho' & Hc' & Hx)|[_ Hx]]; [|congruence].
           assert (cluster_owner s !! c = Some x) as Hl by (apply Ho; eauto). rewrite Hl in Hown. cbn in Hown. congruence.
        -- rewrite lookup_insert_ne by done. rewrite Ho by done. split; [by left|]. intros [Hx|[Hx _]]; [done|congruence].
    + rewrite Hsnoc. intros (_ & _ & _ & Hbad). destruct (cluster_owner s !! c) as [x|] eqn:Hl; [|done]. cbn in Hown.
      apply Ho in Hl as (o' & Ho' & Hc' & Hx); [|done]. destruct (Hbad eq_refl c eq_refl) as [_ Hsame].
      specialize (Hsame o' Ho' Hc'). congruence.
  - split; [apply Hsnoc; naive_solver|]. split; [exact Hi'|congruence|congruence|]. intros x c0 _. cbn [role_cells]. rewrite elem_of_cons, Hc by done. split.
    + intros [[= -> ->]|(o' & b & Hb & Hrest)]; [exists o, a; naive_solver|]. exists o', b. rewrite elem_of_app. tauto.
    + intros (o' & b & [Hb| ->%list_elem_of_singleton]%elem_of_app & Hrest); [right; by exists o', b|]. left. naive_solver.
Qed.

Lemma check_observations_spec l :
  match check_observations r nothing_seen l with
  | Ok s => obs_ok l /\ seen_inv l s
  | Raise _ => ~ obs_ok l
  end.
Proof.
  induction l as [|o l IH] using rev_ind.
  - cbn. split; [split; try by intros * ?%elem_of_nil|split]; try done; try constructor; intros *; set_solver.
  - rewrite check_observations_app. destruct (check_observations r nothing_seen l) as [s|]; cbn [mbind result_bind].
    + destruct IH as [Hok Hinv]. pose proof (check_observation_spec l s o Hok Hinv) as Hs. cbn.
      by destruct (check_observation r s o).
    + intros Hbad. by apply IH, (obs_ok_app l [o]).
Qed.

(** No query cell is observed under both roles of a pair, in an asset design. *)
Definition uncontaminated (l : list Observation) : Prop :=
  is_matched_cluster_design r = false -> forall o1 o2 a1 a2 c, o1 ∈ l -> o2 ∈ l ->
    arm_by_id r (ob_arm_id o1) = Some a1 -> arm_by_id r (ob_arm_id o2) = Some a2 ->
    role a1 = treatment -> role a2 = control ->
    ob_query_cluster_ref o1 = Some c -> ob_query_cluster_ref o2 <> Some c.

Lemma elem_of_cells s x c : c ∈ cells_of s x <-> (x, c) ∈ role_cells s.
Proof.
  unfold cells_of. rewrite list_elem_of_fmap. setoid_rewrite list_elem_of_filter. split.
  - intros ([x' c'] & -> & <- & Hin). done.
  - intros Hin. by exists (x, c).
Qed.

Lemma reject_contamination_Ok l : _reject_contamination r l = Ok tt <-> obs_ok l /\ uncontaminated l.
Proof.
  unfold _reject_contamination. pose proof (check_observations_spec l) as Hs.
  destruct (check_observations r nothing_seen l) as [s|e]; cbn [mbind result_bind]; [|naive_solver].
  destruct Hs as [Hok Hinv]. rewrite check_all_Ok. unfold _CONTAMINATING_ROLE_PAIRS.
  assert ((forall x, x ∈ [(treatment, control)] -> match overlap s x with [] => Ok tt | c :: _ => reject_when true r contamination (Some c) end = Ok tt)
          <-> forall c, (treatment, c) ∈ role_cells s -> (control, c) ∉ role_cells s) as ->.
  { assert (forall c, c ∈ overlap s (treatment, control) <-> (treatment, c) ∈ role_cells s /\ (control, c) ∈ role_cells s) as Hov.
    { intros c. unfold overlap. rewrite elem_of_sort_by, list_elem_of_filter, !elem_of_cells. cbn. tauto. }
    split.
    - intros Hall c Hc1 Hc2. specialize (Hall (treatment, control) (list_elem_of_here _ _)).
      destruct (overlap s (treatment, control)) as [|x l'] eqn:Hl; [|done].
      assert (c ∈ ([] : list pystr)) as Habs by by apply Hov. by apply elem_of_nil in Habs.
    - intros Hno x ->%list_elem_of_singleton. destruct (overlap s (treatment, control)) as [|c l'] eqn:Hl; [done|].
      assert (c ∈ c :: l') as Hc by left. apply Hov in Hc as [H1 H2]. by destruct (Hno c H1). }
  assert ((forall c, (treatment, c) ∈ role_cells s -> (control, c) ∉ role_cells s) <-> uncontaminated l); [|tauto].
  unfold uncontaminated. destruct (is_matched_cluster_design r) eqn:Hm.
  - rewrite (si_none _ _ Hinv Hm). split; [done|]. by intros _ c ?%elem_of_nil.
  - setoid_rewrite (fun x c => si_cells _ _ Hinv x c Hm). split.
    + intros Hno _ o1 o2 a1 a2 c H1 H2 Ha1 Ha2 Hr1 Hr2 Hc1 Hc2. apply (Hno c); [by exists o1, a1|by exists o2, a2].
    + intros Hno c (o1 & a1 & H1 & Ha1 & Hr1 & Hc1) (o2 & a2 & H2 & Ha2 & Hr2 & Hc2). by apply (Hno eq_refl o1 o2 a1 a2 c).
Qed.
End observations.
End lemmas.

Section anchors.
Context `{FloatRepr} `{DatetimeJson}.

Lemma verified_entry st e : verify_ledger st = Ok (true, None) -> e ∈ st -> canonical_hash e = Some (chain_hash e).
Proof.
  induction st as [|x st IH] using rev_ind; [by intros _ ?%elem_of_nil|].
  intros (Hv & _ & Hc)%verify_snoc [He| ->%list_elem_of_singleton]%elem_of_app; [by apply IH|done].
Qed.

Lemma bind_Ok_chain r s w b : bind_experiment (Some r) s w = Ok b ->
  chain_hash r = ms_anchored_hash s /\
  b = {| be_experiment_id := experiment_id r; be_tenant_id := tenant_id r; be_anchored_hash := ms_anchored_hash s;
         be_registered_cell := registered_cell r; be_arm_roles := (fun a => (arm_id a, role a)) <$> arms r;
         be_metric_ids := metric_id <$> metric_definitions r; be_observations := ms_observations s |}.
Proof.
  cbn [bind_experiment]. intros [_ [_ [Hi [_ [_ [_ [= <-]]%seq_Ok]%seq_Ok]%seq_Ok]%seq_Ok]%seq_Ok]%seq_Ok.
  split; [|done]. unfold _verify_registration_integrity in Hi. rewrite experiment_hash_total in Hi.
  cbn [builtin try_except mbind result_bind] in Hi. apply reject_when_Ok in Hi. by bprop.
Qed.
End anchors.

(** ** Theorems *)

Section theorems.
Context `{FloatRepr} `{DatetimeJson}.

(** C18: A submission is bound exactly when the registration is its tenant's, has
    the fingerprint and the recomputed hash it names, every measured metric is
    a registered definition with (under enforcement) its registered weight,
    every observation is of the registered cell and of a registered arm with
    the registered asset, no observation comes twice, and no query cell or
    cluster crosses arms; the bound experiment is the registered one.  Another
    tenant's registration is answered as an absent one. *)
Theorem bind_exact registration s w b :
  (bind_experiment registration s w = Ok b <-> exists r, registration = Some r /\
     tenant_id r = ms_tenant_id s /\ content_fingerprint r = Some (ms_content_fingerprint s) /\
     chain_hash r = ms_anchored_hash s /\ (forall m, m ∈ ms_metrics s -> metric_ok r w m) /\
     (forall o, o ∈ ms_observations s -> ob_cell o = registered_cell r) /\
     obs_ok r (ms_observations s) /\ uncontaminated r (ms_observations s) /\
     b = {| be_experiment_id := experiment_id r; be_tenant_id := tenant_id r; be_anchored_hash := ms_anchored_hash s;
            be_registered_cell := registered_cell r; be_arm_roles := (fun a => (arm_id a, role a)) <$> arms r;
            be_metric_ids := metric_id <$> metric_definitions r; be_observations := ms_observations s |}) /\
  (forall r, registration = Some r -> tenant_id r <> ms_tenant_id s ->
     bind_experiment registration s w = bind_experiment None s w).
Proof.
  split.
  - destruct registration as [r|]; cbn [bind_experiment]; [|naive_solver].
    rewrite !seq_Ok, raise_if_Ok. unfold _reject_conflicting_registration, _verify_registration_integrity,
      _reject_metric_mutation, _reject_cell_mismatch.
    rewrite experiment_hash_total, reject_contamination_Ok, !check_all_Ok. cbn [builtin try_except mbind result_bind].
    rewrite !reject_when_Ok. bprop. setoid_rewrite check_metric_Ok. setoid_rewrite check_cell_Ok.
    split; [intros (? & ? & ? & ? & ? & [? ?] & [= <-]); by exists r|]. intros (r' & [= <-] & Hrest). naive_solver.
  - intros r -> Hne. cbn [bind_experiment]. by rewrite bool_decide_eq_false_2.
Qed.

(** C13: What is measured is what was registered: a submission anchored at an
    entry of a verified ledger binds only a registration with that entry's
    arms, metrics and owner, unless two hashed texts are a SHA-256 collision;
    so a design altered after registration cannot be measured. *)
Theorem bound_design_is_registered st e r s w b :
  verify_ledger st = Ok (true, None) -> e ∈ st -> canonical_hash e = Some (ms_anchored_hash s) ->
  scalar_val (_content_fields e) -> scalar_val (_content_fields r) ->
  (forall p, previous_hash e = Some p -> scalar_str p) -> (forall p, previous_hash r = Some p -> scalar_str p) ->
  bind_experiment (Some r) s w = Ok b ->
  (be_arm_roles b = (fun a => (arm_id a, role a)) <$> arms e /\ be_metric_ids b = metric_id <$> metric_definitions e /\
   be_experiment_id b = experiment_id e /\ be_tenant_id b = tenant_id e) \/
  collide_within [e] [r].
Proof.
  intros Hv He Hanch Hs1 Hs2 Hp1 Hp2 Hb. apply bind_Ok_chain in Hb as (Hchain & ->).
  assert (chain_hash e = chain_hash r) as Heq.
  { rewrite Hchain. apply (verified_entry _ _ Hv) in He. congruence. }
  destruct (chain_link e Hp1) as (W1 & S1 & R1), (chain_link r Hp2) as (W2 & S2 & R2). rewrite <- Heq in R2.
  assert (forall t1 t2, t1 ∈ entry_texts e -> t2 ∈ entry_texts r -> text_collision t1 t2 -> collide_within [e] [r]) as Hcol.
  { intros t1 t2 H1 H2 Hc. exists e, r, t1, t2. split; [left|]. split; [left|done]. }
  destruct (sha256_ref_inj _ _ _ W1 W2 S1 S2 R1 R2) as [Hm|Hc].
  2: { right. eapply Hcol; [|  |exact Hc]; right; left. }
  apply chain_material_inj in Hm as [_ Hf]. destruct (fingerprint_inj e r Hs1 Hs2 Hf) as [Hsame|Hc].
  2: { right. eapply Hcol; [|  |exact Hc]; left. }
  left. cbn. apply same_content_design in Hsame as (-> & -> & -> & ->). done.
Qed.
End theorems.

(** ** Witnesses *)

Module Witness.
#[local] Existing Instance sci_float_repr.
#[local] Existing Instance plain_datetime_json.
Import Experiment.Witness.

Definition st : LedgerState := run_ledger [r1; r2].
Definition e1 : ExperimentRegistration := default r1 (head st).

Definition observe (i : string) (a : string) (cluster : option pystr) : Observation :=
  {| observation_id := u i; ob_arm_id := u a; ob_cell := registered_cell e1; ob_asset_hash := Some (u "h");
     ob_query_cluster_ref := cluster |}.

Definition submission (obs : list Observation) : MeasurementSubmission :=
  {| ms_experiment_id := u "e1"; ms_tenant_id := u "t"; ms_anchored_hash := default [] (canonical_hash e1);
     ms_content_fingerprint := default [] (content_fingerprint e1);
     ms_metrics := [{| mm_metric_id := u "m"; mm_metric_hash := metric_hash_of {| metric_id := u "m"; description := u "d" |};
                       mm_weight := exist _ (S754_zero false) eq_refl |}];
     ms_observations := obs |}.

Definition clean_run := [observe "1" "x" (Some (u "q1")); observe "2" "y" (Some (u "q2")); observe "3" "b" None].

(** Admitted; a query cell under both roles, an observation id used twice. *)
Example bind_examples :
  map (fun obs => match bind_experiment (Some e1) (submission obs) not_registered with Ok _ => None | Raise e => Some e end)
    [clean_run; [observe "1" "x" (Some (u "q1")); observe "2" "y" (Some (u "q1"))]; [observe "1" "x" None; observe "1" "y" None]]
  = [None; Some (BindingRejectedError (u "e1") contamination (Some (u "q1")));
     Some (BindingRejectedError (u "e1") contamination (Some (u "1")))].
Proof. vm_compute. reflexivity. Qed.

Lemma e1_registered : e1 ∈ st.
Proof. unfold e1. assert (st <> []) as Hne by (vm_compute; discriminate). revert Hne. generalize st. intros [|e l] Hne; [done|left]. Qed.

Lemma bound_design_is_registered_witness :
  exists b, bind_experiment (Some e1) (submission clean_run) not_registered = Ok b /\
    (be_tenant_id b = tenant_id e1 \/ collide_within [e1] [e1]).
Proof.
  assert (verify_ledger st = Ok (true, None)) as Hv by (vm_compute; reflexivity).
  assert (canonical_hash e1 = Some (ms_anchored_hash (submission clean_run))) as Ha by (vm_compute; reflexivity).
  assert (scalar_val (_content_fields e1)) as Hs by (apply scalar_valb_scalar; vm_compute; reflexivity).
  assert (previous_hash e1 = None) as Hn by (vm_compute; reflexivity).
  assert (forall p, previous_hash e1 = Some p -> scalar_str p) as Hp by (intros p; rewrite Hn; discriminate).
  destruct (bind_experiment (Some e1) (submission clean_run) not_registered) as [b|] eqn:E; [|vm_compute in E; discriminate E].
  exists b. split; [reflexivity|].
  destruct (bound_design_is_registered st e1 e1 (submission clean_run) not_registered b Hv e1_registered Ha Hs Hs Hp Hp E)
    as [(_ & _ & _ & Ht)|Hc]; [left; exact Ht|right; exact Hc].
Defined.

(** Two definitions of one metric id can be registered; the last is the one a
    submission is checked against. *)
Definition twice : ExperimentRegistration :=
  let r := registration "e3" [] "ko-KR" in
  {| experiment_id := experiment_id r; tenant_id := tenant_id r; run_id := run_id r; arms := arms r;
     metric_definitions := [{| metric_id := u "m"; description := u "clicks" |}; {| metric_id := u "m"; description := u "views" |}];
     query_cluster_ref := query_cluster_ref r; locale := locale r;
     browser_policy := browser_policy r; repeat_count := repeat_count r; asset_hash := asset_hash r;
     code_version_hash := code_version_hash r; created_by := created_by r; approved_by := approved_by r;
     created_at := created_at r; canonical_hash := None; previous_hash := None; content_fingerprint := None |}.

Example duplicate_metric_ids :
  (is_ok (make_ExperimentRegistration twice), description <$> metric_by_id twice (u "m")) = (true, Some (u "views")).
Proof. vm_compute. reflexivity. Qed.
End Witness.
