(* ===== verification/Intake.v ===== *)
(** The intake boundary of the strategy skill bank (intake.py): a candidate is
    admitted only on a verified PASS.

    The payload is JSON as decoded off the bus.  The patterns of the values and
    the folding of names are those of [Evidence], which this file's source
    repeats; [verify_manifest] is [Evidence]'s. *)

From stdpp Require Import sorting.
From S2P Require Import Prelude PyStr Regex Sha256 PyVal Canonical Evidence BGate.

Inductive CandidatePool := PRODUCTION_POOL | TEST_POOL.

Inductive SourceOutcomeProvenance := FROM_PRODUCTION | FROM_TEST_FIXTURE.
#[export] Instance SourceOutcomeProvenance_eq_dec : EqDecision SourceOutcomeProvenance.
Proof. solve_decision. Defined.

#[export] Instance BVerdict_eq_dec : EqDecision BVerdict.
Proof. solve_decision. Defined.

Record SourceOutcomeAssertion := {
  b_verdict : BVerdict; outcome_provenance : SourceOutcomeProvenance; manifest : option EvidenceBundleManifest
}.

Definition _FORBIDDEN_FIELD_NAME_MARKERS : list pystr :=
  u <$> ["tenant_id"; "tenant"; "customer_id"; "customer"; "workspace_id"; "project_id"; "site_id"; "run_id";
         "experiment_id"; "actor_id"; "user_id"; "account_id"; "raw_response"; "raw_content"; "raw_html"; "raw_body";
         "raw_screenshot"; "screenshot"; "response_body"; "response_text"; "query_text"; "secret"; "password";
         "passwd"; "api_key"; "apikey"; "access_token"; "auth_token"; "private_key"; "token"]%string.

Inductive IntakeRejectReason :=
  | NOT_B_VERIFIED | MISSING_REQUIRED_FIELD | UNVERIFIABLE_EVIDENCE | TAMPERED_EVIDENCE
  | TENANT_IDENTIFYING_FIELD | RAW_CONTENT_FIELD.
#[export] Instance IntakeRejectReason_eq_dec : EqDecision IntakeRejectReason.
Proof. solve_decision. Defined.
#[export, refine] Instance IntakeRejectReason_finite : finite.Finite IntakeRejectReason :=
  {| finite.enum := [NOT_B_VERIFIED; MISSING_REQUIRED_FIELD; UNVERIFIABLE_EVIDENCE; TAMPERED_EVIDENCE;
                     TENANT_IDENTIFYING_FIELD; RAW_CONTENT_FIELD] |}.
Proof. - by apply (bool_decide_unpack _). - by intros []; apply (bool_decide_unpack _). Defined.

Definition reason_value (r : IntakeRejectReason) : pystr :=
  match r with
  | NOT_B_VERIFIED => u "not_b_verified" | MISSING_REQUIRED_FIELD => u "missing_required_field"
  | UNVERIFIABLE_EVIDENCE => u "unverifiable_evidence" | TAMPERED_EVIDENCE => u "tampered_evidence"
  | TENANT_IDENTIFYING_FIELD => u "tenant_identifying_field" | RAW_CONTENT_FIELD => u "raw_content_field"
  end.

Record IntakeCandidate := {
  card_candidate_ref : pystr; evidence_bundle_manifest_hash : pystr; source_outcome : SourceOutcomeAssertion;
  extra_payload_fields : list (pystr * pyval)
}.

(** The two statuses; an admission carries its pool and the reference. *)
Inductive IntakeDecision :=
  | ADMIT_AS_CANDIDATE (pool : CandidatePool) (ref : pystr)
  | REJECT (reject_reasons : list IntakeRejectReason).

Definition _sorted_reasons (reasons : gset IntakeRejectReason) : list IntakeRejectReason :=
  sort_by reason_value (elements reasons).

Section intake.
Context `{UnicodeDB} `{FloatRepr}.

Definition _NORMALIZED_FORBIDDEN_MARKERS : list pystr := _normalize_field_name <$> _FORBIDDEN_FIELD_NAME_MARKERS.

(** Which category a name with a forbidden marker belongs to. *)
Definition content_markers : list pystr :=
  u <$> ["raw"; "response"; "screenshot"; "query"; "secret"; "password"; "passwd"; "token"; "key"]%string.

(** The verdict on a name, if it is refused. *)
Definition name_reason (name : pystr) : option IntakeRejectReason :=
  let normalized_name := _normalize_field_name name in
  if existsb (fun marker => contains marker normalized_name) _NORMALIZED_FORBIDDEN_MARKERS then
    Some (if existsb (fun m => contains m normalized_name) content_markers then RAW_CONTENT_FIELD
          else TENANT_IDENTIFYING_FIELD)
  else if negb (forallb (fun c => c <? 128)%N normalized_name) then Some TENANT_IDENTIFYING_FIELD
  else None.

Definition text_refused (value : pystr) : bool := (_MAX_FIELD_VALUE_LENGTH <? length value)%nat || secret_shaped value.

Fixpoint _guard_value (name : pystr) (value : pyval) (offenders : gset IntakeRejectReason) : gset IntakeRejectReason :=
  match name_reason name with
  | Some r => {[ r ]} ∪ offenders
  | None =>
      match value with
      | PStr s => if text_refused s then {[ RAW_CONTENT_FIELD ]} ∪ offenders else offenders
      | PDict fields =>
          (fix go fields offenders := match fields with
             | [] => offenders
             | (k, v) :: fields => go fields (_guard_value k v offenders)
             end) fields offenders
      | PList items =>
          (fix go items offenders := match items with
             | [] => offenders
             | v :: items => go items (_guard_value name v offenders)
             end) items offenders
      | _ => offenders
      end
  end.

Definition _guard_mapping (fields : list (pystr * pyval)) (offenders : gset IntakeRejectReason) : gset IntakeRejectReason :=
  fold_left (fun offenders kv => _guard_value kv.1 kv.2 offenders) fields offenders.

Definition reason_when (b : bool) (r : IntakeRejectReason) (s : gset IntakeRejectReason) : gset IntakeRejectReason :=
  if b then {[ r ]} ∪ s else s.

(** Gate (b): what the manifest says of the claimed hash. *)
Definition evidence_reason (c : IntakeCandidate) : result pyexn (option IntakeRejectReason) :=
  match manifest (source_outcome c) with
  | None => Ok (Some UNVERIFIABLE_EVIDENCE)
  | Some m =>
      verified ← verify_manifest m;
      Ok (if negb verified.1 then Some TAMPERED_EVIDENCE
          else if bool_decide (manifest_hash m <> Some (evidence_bundle_manifest_hash c)) then Some UNVERIFIABLE_EVIDENCE
          else None)
  end.

Definition pool_of (p : SourceOutcomeProvenance) : CandidatePool :=
  match p with FROM_PRODUCTION => PRODUCTION_POOL | FROM_TEST_FIXTURE => TEST_POOL end.

(** Gates (a), (b) and (d): the reasons collected. *)
Definition reasons_of (c : IntakeCandidate) : result pyexn (gset IntakeRejectReason) :=
  let reasons := reason_when (negb (bool_decide (b_verdict (source_outcome c) = PASS))) NOT_B_VERIFIED ∅ in
  e ← evidence_reason c;
  let reasons := match e with Some r => {[ r ]} ∪ reasons | None => reasons end in
  let reasons := _guard_value (u "card_candidate_ref") (PStr (card_candidate_ref c)) reasons in
  Ok (_guard_mapping (extra_payload_fields c) reasons).

Definition evaluate (c : IntakeCandidate) : result pyexn IntakeDecision :=
  reasons ← reasons_of c;
  Ok (if bool_decide (reasons <> ∅) then REJECT (_sorted_reasons reasons)
      else ADMIT_AS_CANDIDATE (pool_of (outcome_provenance (source_outcome c))) (card_candidate_ref c)).

(** [BVerdict(raw)] *)
Definition verdict_of (raw : pyval) : option BVerdict :=
  match raw with
  | PStr s => if decide (s = u "pass") then Some PASS else if decide (s = u "fail") then Some FAIL
              else if decide (s = u "undetermined") then Some UNDETERMINED else None
  | _ => None
  end.

(** The constraints of the fields of [IntakeCandidate]; the model refuses a lone
    surrogate in a constrained text. *)
Definition candidate_ok (ref hash : pystr) : bool :=
  text_within 1 128 ref && forallb scalar ref && re_fullmatch _SHA256_REF_PATTERN hash.

(** The fields that are scanned: all but the two read by name. *)
Definition extra_fields (fields : list (pystr * pyval)) : list (pystr * pyval) :=
  filter (fun kv => kv.1 <> u "card_candidate_ref" /\ kv.1 <> u "source_outcome") fields.

(** The candidate a payload builds; [None] is any of the exceptions caught. *)
Definition candidate_of (payload : pyval) (p : SourceOutcomeProvenance) (m : option EvidenceBundleManifest)
    : option IntakeCandidate :=
  match payload with
  | PDict fields =>
      match dget fields (u "source_outcome"), dget fields (u "card_candidate_ref") with
      | Some (PDict outcome), Some (PStr ref) =>
          match dget outcome (u "b_verdict") ≫= verdict_of, dget outcome (u "evidence_bundle_manifest_hash") with
          | Some v, Some (PStr hash) =>
              if candidate_ok ref hash then
                Some {| card_candidate_ref := ref; evidence_bundle_manifest_hash := hash;
                        source_outcome := {| b_verdict := v; outcome_provenance := p; manifest := m |};
                        extra_payload_fields := extra_fields fields |}
              else None
          | _, _ => None
          end
      | _, _ => None
      end
  | _ => None
  end.

Definition evaluate_payload (payload : pyval) (p : SourceOutcomeProvenance) (m : option EvidenceBundleManifest)
    : result pyexn IntakeDecision :=
  match candidate_of payload p m with
  | None => Ok (REJECT [MISSING_REQUIRED_FIELD])
  | Some c => evaluate c
  end.

(** ** What each reason stands for *)

(** A field refused for [r], somewhere inside the value found under a name; a
    refused name or text hides what is below it. *)
Inductive offends : pystr -> pyval -> IntakeRejectReason -> Prop :=
  | offends_name n v r : name_reason n = Some r -> offends n v r
  | offends_text n s : name_reason n = None -> text_refused s = true -> offends n (PStr s) RAW_CONTENT_FIELD
  | offends_field n kvs k v r : name_reason n = None -> (k, v) ∈ kvs -> offends k v r -> offends n (PDict kvs) r
  | offends_item n l v r : name_reason n = None -> v ∈ l -> offends n v r -> offends n (PList l) r.

Definition offends_fields (kvs : list (pystr * pyval)) (r : IntakeRejectReason) : Prop :=
  exists k v, (k, v) ∈ kvs /\ offends k v r.

(** The manifest is intact, and its hash is the claimed one. *)
Definition backed (c : IntakeCandidate) : Prop :=
  exists m i, manifest (source_outcome c) = Some m /\ verify_manifest m = Ok (true, i) /\
    manifest_hash m = Some (evidence_bundle_manifest_hash c).

Definition ground (c : IntakeCandidate) (r : IntakeRejectReason) : Prop :=
  match r with
  | NOT_B_VERIFIED => b_verdict (source_outcome c) <> PASS
  | UNVERIFIABLE_EVIDENCE => forall m, manifest (source_outcome c) = Some m ->
      (exists i, verify_manifest m = Ok (true, i)) /\ manifest_hash m <> Some (evidence_bundle_manifest_hash c)
  | TAMPERED_EVIDENCE => exists m i, manifest (source_outcome c) = Some m /\ verify_manifest m = Ok (false, i)
  | MISSING_REQUIRED_FIELD => False
  | TENANT_IDENTIFYING_FIELD | RAW_CONTENT_FIELD =>
      offends (u "card_candidate_ref") (PStr (card_candidate_ref c)) r \/ offends_fields (extra_payload_fields c) r
  end.

(** ** Lemmas *)

Lemma guard_items_elem r n l : forall s,
  (forall v s, v ∈ l -> r ∈ _guard_value n v s <-> r ∈ s \/ offends n v r) ->
  r ∈ fold_left (fun s v => _guard_value n v s) l s <-> r ∈ s \/ exists v, v ∈ l /\ offends n v r.
Proof.
  induction l as [|v l IH]; intros s Hv; cbn [fold_left]; [set_solver|].
  rewrite IH by (intros; apply Hv; by right). rewrite Hv by left. set_solver.
Qed.

Lemma guard_mapping_elem r l : forall s,
  (forall k v s, (k, v) ∈ l -> r ∈ _guard_value k v s <-> r ∈ s \/ offends k v r) ->
  r ∈ _guard_mapping l s <-> r ∈ s \/ offends_fields l r.
Proof.
  unfold offends_fields. induction l as [|[k v] l IH]; intros s Hv; cbn [_guard_mapping fold_left]; [set_solver|].
  rewrite IH by (intros; apply Hv; by right). cbn [fst snd]. rewrite Hv by left. split.
  - intros [[Hr|Ho]|(k' & v' & Hin & Ho)]; [by left| |]; right; [exists k, v|exists k', v']; split; [left|done|by right|done].
  - intros [Hr|(k' & v' & [[= -> ->]|Hin]%elem_of_cons & Ho)]; [by do 2 left|by left; right|]. right. by exists k', v'.
Qed.

Lemma guard_list_eq n l s : name_reason n = None ->
  _guard_value n (PList l) s = fold_left (fun s v => _guard_value n v s) l s.
Proof. intros Hn. cbn [_guard_value]. rewrite Hn. revert s. by induction l; intros s; cbn. Qed.

Lemma guard_dict_eq n kvs s : name_reason n = None -> _guard_value n (PDict kvs) s = _guard_mapping kvs s.
Proof.
  intros Hn. cbn [_guard_value]. rewrite Hn. revert s. induction kvs as [|[k v] kvs IH]; intros s; [done|].
  cbn [_guard_mapping fold_left]. apply IH.
Qed.

(** The scan adds exactly the reasons of what it meets. *)
Lemma guard_scan_elem r v : forall n s, r ∈ _guard_value n v s <-> r ∈ s \/ offends n v r.
Proof.
  induction v as [|b|z|f|t|b|l IH|kvs IH] using pyval_nested_ind; intros n s; destruct (name_reason n) as [r'|] eqn:Hn;
    try (cbn [_guard_value]; rewrite Hn; split;
         [intros [->%elem_of_singleton|Hr]%elem_of_union; [right; by apply offends_name|by left]
         |intros [Hr|Ho]; [set_solver|inversion Ho; subst; set_solver || congruence]]);
    try (cbn [_guard_value]; rewrite Hn; split; [by left|intros [Hr|Ho]; [done|inversion Ho; congruence]]).
  - cbn [_guard_value]. rewrite Hn. destruct (text_refused t) eqn:Ht.
    + rewrite elem_of_union, elem_of_singleton. split; [intros [->|Hr]; [right; by apply offends_text|by left]|].
      intros [Hr|Ho]; [by right|]. inversion Ho; subst; [congruence|by left].
    + split; [by left|]. intros [Hr|Ho]; [done|]. inversion Ho; congruence.
  - rewrite guard_list_eq, guard_items_elem by (done || (intros; by apply (proj1 (Forall_forall _ _) IH))).
    split; (intros [Hr|Ho]; [by left|right]).
    + destruct Ho as (v & Hin & Ho). by apply offends_item with v.
    + inversion Ho; subst; [congruence|eauto].
  - rewrite guard_dict_eq, guard_mapping_elem by (done || (intros k v s' Hin; by apply (proj1 (Forall_forall _ _) IH (k, v)))).
    split; (intros [Hr|Ho]; [by left|right]).
    + destruct Ho as (k & v & Hin & Ho). by apply offends_field with k v.
    + inversion Ho; subst; [congruence|]. unfold offends_fields. eauto.
Qed.

Lemma guard_fields_elem r kvs s : r ∈ _guard_mapping kvs s <-> r ∈ s \/ offends_fields kvs r.
Proof. apply guard_mapping_elem. intros. apply guard_scan_elem. Qed.

(** A name or a text is refused for its tenant or for its content only. *)
Lemma offends_why n v r : offends n v r -> r = TENANT_IDENTIFYING_FIELD \/ r = RAW_CONTENT_FIELD.
Proof.
  induction 1 as [n v r Hn|n s Hn Ht|n kvs k v r Hn Hin Ho IH|n l v r Hn Hin Ho IH]; [|by right|done|done].
  unfold name_reason in Hn. repeat case_match; naive_solver.
Qed.

Lemma elem_of_sorted_reasons r s : r ∈ _sorted_reasons s <-> r ∈ s.
Proof. unfold _sorted_reasons. by rewrite elem_of_sort_by, elem_of_elements. Qed.

(** The evidence gate names its ground. *)
Lemma evidence_reason_Ok c e : evidence_reason c = Ok e ->
  (e = Some UNVERIFIABLE_EVIDENCE <-> ground c UNVERIFIABLE_EVIDENCE) /\
  (e = Some TAMPERED_EVIDENCE <-> ground c TAMPERED_EVIDENCE) /\
  (e = None <-> backed c) /\
  e ∈ [None; Some UNVERIFIABLE_EVIDENCE; Some TAMPERED_EVIDENCE].
Proof.
  unfold evidence_reason, ground, backed. destruct (manifest (source_outcome c)) as [m|].
  - intros (v & Hv & [= <-])%bind_Ok. rewrite !elem_of_cons. destruct v as [[] i]; cbn [fst negb].
    + case_bool_decide as Hh.
      * split_and!; [split; [|done]|split; [done|]|split; [done|]|auto].
        -- intros _ m' [= <-]. eauto.
        -- intros (m' & i' & [= <-] & Hv'). congruence.
        -- intros (m' & i' & [= <-] & _ & Hm). done.
      * split_and!; [split; [done|]|split; [done|]|split; [|done]|auto].
        -- intros Hg. by destruct (Hg m eq_refl).
        -- intros (m' & i' & [= <-] & Hv'). congruence.
        -- intros _. eauto.
    + split_and!; [split; [done|]|split; [|done]|split; [done|]|auto].
      * intros Hg. destruct (Hg m eq_refl) as [[i' Hi] _]. congruence.
      * intros _. eauto.
      * intros (m' & i' & [= <-] & Hv' & _). congruence.
  - intros [= <-]. rewrite !elem_of_cons. split_and!; [split; [|done]|split; [done|]|split; [done|]|auto].
    + intros _ m [=].
    + intros (? & ? & [=] & _).
    + intros (? & ? & [=] & _).
Qed.

(** What is collected is what has a ground. *)
Lemma reasons_ground c rs r : reasons_of c = Ok rs -> r ∈ rs <-> ground c r.
Proof.
  unfold reasons_of. intros (e & He & Hrs)%bind_Ok. cbv zeta in Hrs.
  match type of Hrs with Ok ?x = _ => assert (x = rs) as <- by congruence end. clear Hrs.
  rewrite guard_fields_elem, guard_scan_elem. set (ref := PStr (card_candidate_ref c)).
  apply evidence_reason_Ok in He as (Hu & Ht & _ & Hin).
  assert (r ∈ match e with Some r => {[ r ]} ∪ reason_when (negb (bool_decide (b_verdict (source_outcome c) = PASS))) NOT_B_VERIFIED ∅
              | None => reason_when (negb (bool_decide (b_verdict (source_outcome c) = PASS))) NOT_B_VERIFIED ∅ end <->
          e = Some r \/ r = NOT_B_VERIFIED /\ b_verdict (source_outcome c) <> PASS) as ->.
  { unfold reason_when. case_bool_decide as Hp; cbn [negb]; destruct e;
      rewrite ?elem_of_union, ?elem_of_singleton; set_solver. }
  assert (forall n v, offends n v r -> r = TENANT_IDENTIFYING_FIELD \/ r = RAW_CONTENT_FIELD) as Hoff by (intros; by eapply offends_why).
  assert (offends_fields (extra_payload_fields c) r -> r = TENANT_IDENTIFYING_FIELD \/ r = RAW_CONTENT_FIELD) as Hfields
    by (intros (k & v & _ & Ho); by eapply offends_why).
  assert (e <> Some NOT_B_VERIFIED /\ e <> Some MISSING_REQUIRED_FIELD /\ e <> Some TENANT_IDENTIFYING_FIELD /\
          e <> Some RAW_CONTENT_FIELD) as Hne by (clear -Hin; set_solver).
  specialize (Hoff (u "card_candidate_ref") ref). destruct r; cbn [ground] in *; naive_solver.
Qed.

Lemma evaluate_decides c d : evaluate c = Ok d ->
  match d with
  | ADMIT_AS_CANDIDATE pool ref =>
      (forall r, ~ ground c r) /\ pool = pool_of (outcome_provenance (source_outcome c)) /\ ref = card_candidate_ref c
  | REJECT rs => rs <> [] /\ NoDup rs /\ Sorted.StronglySorted (key_le reason_value) rs /\ forall r, r ∈ rs <-> ground c r
  end.
Proof.
  intros (rs & Hrs & [= <-])%bind_Ok. pose proof (fun r => reasons_ground c rs r Hrs) as Hg.
  case_bool_decide as Hne.
  - split; [|split; [|split]].
    + intros He. apply Hne. apply set_eq. intros r. rewrite <- elem_of_sorted_reasons, He. set_solver.
    + unfold _sorted_reasons. rewrite sort_by_Permutation. apply NoDup_elements.
    + apply sort_by_sorted.
    + intros r. by rewrite elem_of_sorted_reasons.
  - subst rs. split; [|done]. intros r. rewrite <- Hg. set_solver.
Qed.

(** No ground is left exactly when the outcome passed, its evidence is there
    and nothing in the payload offends. *)
Lemma no_ground c e : evidence_reason c = Ok e ->
  (forall r, ~ ground c r) <->
  b_verdict (source_outcome c) = PASS /\ backed c /\
  forall r, ~ offends (u "card_candidate_ref") (PStr (card_candidate_ref c)) r /\ ~ offends_fields (extra_payload_fields c) r.
Proof.
  intros He%evidence_reason_Ok. destruct He as (Hu & Ht & Hb & Hin). rewrite !elem_of_cons in Hin. split.
  - intros Hn. split; [|split].
    + apply dec_stable, (Hn NOT_B_VERIFIED).
    + apply Hb. destruct Hin as [Hin|[Hin|[Hin|[]%elem_of_nil]]]; [done| |].
      * destruct (Hn _ (proj1 Hu Hin)).
      * destruct (Hn _ (proj1 Ht Hin)).
    + intros r. split; intros Ho.
      * destruct (offends_why _ _ _ Ho) as [E|E]; subst r;
          [exact (Hn TENANT_IDENTIFYING_FIELD (or_introl Ho))|exact (Hn RAW_CONTENT_FIELD (or_introl Ho))].
      * assert (r = TENANT_IDENTIFYING_FIELD \/ r = RAW_CONTENT_FIELD) as [E|E]
          by (destruct Ho as (k & v & _ & Ho); by eapply offends_why); subst r;
          [exact (Hn TENANT_IDENTIFYING_FIELD (or_intror Ho))|exact (Hn RAW_CONTENT_FIELD (or_intror Ho))].
  - intros (Hp & Hb' & Ho) r. apply Hb in Hb' as ->. destruct (Ho r) as [Ho1 Ho2].
    assert (ground c UNVERIFIABLE_EVIDENCE -> False) as Hnu by (intros Hg; discriminate (proj2 Hu Hg)).
    assert (ground c TAMPERED_EVIDENCE -> False) as Hnt by (intros Hg; discriminate (proj2 Ht Hg)).
    destruct r; [exact (fun Hr => Hr Hp)|exact id|exact Hnu|exact Hnt|intros [Hr|Hr]; auto..].
Qed.
End intake.

(** ** Admission *)

Section admission.
Context `{UnicodeDB} `{FloatRepr}.

Lemma verdict_of_pass v : verdict_of v = Some PASS <-> v = PStr (u "pass").
Proof.
  unfold verdict_of. destruct v; split; try done; intros E.
  - by repeat case_decide; subst.
  - injection E as ->. by case_decide.
Qed.

(** What a payload has to hold to build a candidate. *)
Lemma candidate_of_Some payload p m c : candidate_of payload p m = Some c <->
  exists fields outcome ref hash raw v,
    payload = PDict fields /\ dget fields (u "source_outcome") = Some (PDict outcome) /\
    dget fields (u "card_candidate_ref") = Some (PStr ref) /\ dget outcome (u "b_verdict") = Some raw /\
    verdict_of raw = Some v /\ dget outcome (u "evidence_bundle_manifest_hash") = Some (PStr hash) /\
    candidate_ok ref hash = true /\
    c = {| card_candidate_ref := ref; evidence_bundle_manifest_hash := hash;
           source_outcome := {| b_verdict := v; outcome_provenance := p; manifest := m |};
           extra_payload_fields := extra_fields fields |}.
Proof.
  unfold candidate_of. split.
  - destruct payload as [| | | | | | |fields]; try done.
    destruct (dget fields (u "source_outcome")) as [[| | | | | | |outcome]|] eqn:Eo; try done.
    destruct (dget fields (u "card_candidate_ref")) as [[| | | |ref| | |]|] eqn:Er; try done.
    destruct (dget outcome (u "b_verdict")) as [raw|] eqn:Eb; cbn [mbind option_bind]; [|done].
    destruct (verdict_of raw) as [v|] eqn:Ev; [|done].
    destruct (dget outcome (u "evidence_bundle_manifest_hash")) as [[| | | |hash| | |]|] eqn:Eh; try done.
    destruct (candidate_ok ref hash) eqn:Ec; [|done]. intros [= <-].
    exists fields, outcome, ref, hash, raw, v. by rewrite Eb.
  - intros (fields & outcome & ref & hash & raw & v & -> & -> & -> & Hb & Hv & Hh & Hc & ->).
    rewrite Hb. cbn [mbind option_bind]. by rewrite Hv, Hh, Hc.
Qed.

(** C25: A payload is admitted exactly when it has the required fields in their
    shapes, its outcome is a pass, the supplied manifest is intact and carries
    the claimed hash, and neither the reference nor any field outside
    [source_outcome], however deep, has a forbidden name or text; the pool is
    that of the asserted provenance, so a test fixture never enters the
    production pool. *)
Theorem admitted_exactly payload p m pool ref :
  evaluate_payload payload p m = Ok (ADMIT_AS_CANDIDATE pool ref) <->
  pool = pool_of p /\
  exists fields outcome hash mf i,
    payload = PDict fields /\ dget fields (u "source_outcome") = Some (PDict outcome) /\
    dget fields (u "card_candidate_ref") = Some (PStr ref) /\
    dget outcome (u "b_verdict") = Some (PStr (u "pass")) /\
    dget outcome (u "evidence_bundle_manifest_hash") = Some (PStr hash) /\ candidate_ok ref hash = true /\
    m = Some mf /\ verify_manifest mf = Ok (true, i) /\ manifest_hash mf = Some hash /\
    forall r, ~ offends (u "card_candidate_ref") (PStr ref) r /\ ~ offends_fields (extra_fields fields) r.
Proof.
  unfold evaluate_payload. split.
  - destruct (candidate_of payload p m) as [c|] eqn:Ec; [|done]. intros He.
    pose proof (evaluate_decides _ _ He) as (Hg & Hpool & Href).
    apply bind_Ok in He as (rs & Hrs & _). apply bind_Ok in Hrs as (e & Hev & _).
    apply (no_ground _ _ Hev) in Hg as (Hpass & Hback & Hclean).
    apply candidate_of_Some in Ec as (fields & outcome & ref' & hash & raw & v & -> & Ho & Hr & Hb & Hv & Hh & Hc & ->).
    cbn in Hpass, Hback, Hclean, Hpool, Href. destruct Hback as (mf & i & Hm & Hver & Hmh). cbn in Hm, Hmh. subst v ref' pool m.
    apply verdict_of_pass in Hv as ->. split; [done|]. exists fields, outcome, hash, mf, i. done.
  - intros (-> & fields & outcome & hash & mf & i & -> & Ho & Hr & Hb & Hh & Hc & -> & Hver & Hmh & Hclean).
    set (c := {| card_candidate_ref := ref; evidence_bundle_manifest_hash := hash;
                 source_outcome := {| b_verdict := PASS; outcome_provenance := p; manifest := Some mf |};
                 extra_payload_fields := extra_fields fields |}).
    replace (candidate_of _ p (Some mf)) with (Some c)
      by (symmetry; apply candidate_of_Some; exists fields, outcome, ref, hash, (PStr (u "pass")), PASS; done).
    assert (evidence_reason c = Ok None) as Hev.
    { unfold evidence_reason, c. cbn [source_outcome manifest evidence_bundle_manifest_hash]. rewrite Hver, Hmh. cbn.
      by rewrite bool_decide_false by auto. }
    assert (is_ok (evaluate c) = true) as Hok by (unfold evaluate, reasons_of; by rewrite Hev).
    destruct (evaluate c) as [d|] eqn:Hd; [|done]. pose proof (evaluate_decides _ _ Hd) as Hdec.
    assert (forall r, ~ ground c r) as Hg by (apply (no_ground _ _ Hev); split; [done|]; split; [by exists mf, i|done]).
    destruct d as [pool ref'|rs]; [by destruct Hdec as (_ & -> & ->)|].
    destruct Hdec as (Hne & _ & _ & Hr'). destruct rs as [|r rs]; [done|]. destruct (Hg r). apply Hr'. by left.
Qed.

(** A refusal is honest and complete: a candidate whose evaluation answers
    is either admitted, and then nothing speaks against it, or rejected for a
    non-empty, sorted list, without repetition, of exactly the reasons that
    have a ground; it is always answered when its manifest can be verified. *)
Theorem rejected_exactly c :
  (forall m, manifest (source_outcome c) = Some m -> exists v, verify_manifest m = Ok v) ->
  exists d, evaluate c = Ok d /\
  match d with
  | ADMIT_AS_CANDIDATE pool ref => (forall r, ~ ground c r) /\ ref = card_candidate_ref c
  | REJECT rs => rs <> [] /\ NoDup rs /\ Sorted.StronglySorted (key_le reason_value) rs /\ forall r, r ∈ rs <-> ground c r
  end.
Proof.
  intros Hm. assert (exists e, evidence_reason c = Ok e) as [e He].
  { unfold evidence_reason. destruct (manifest (source_outcome c)) as [m|]; [|eauto].
    destruct (Hm m eq_refl) as [v ->]. cbn. eauto. }
  assert (is_ok (evaluate c) = true) as Hok by (unfold evaluate, reasons_of; by rewrite He).
  destruct (evaluate c) as [d|] eqn:Hd; [|done]. exists d. split; [done|].
  apply evaluate_decides in Hd. destruct d; naive_solver.
Qed.
End admission.

(** ** Witnesses *)

Module Witness.
#[local] Existing Instance sci_float_repr.
Import Evidence.Witness.

Definition hash0 : pystr := default [] (manifest_hash m0).
Definition outcome_fields (extra : list (pystr * pyval)) : list (pystr * pyval) :=
  [(u "b_verdict", PStr (u "pass")); (u "evidence_bundle_manifest_hash", PStr hash0)] ++ extra.
Definition payload_with (outcome extra : list (pystr * pyval)) : pyval :=
  PDict ([(u "card_candidate_ref", PStr (u "card:1")); (u "source_outcome", PDict (outcome_fields outcome))] ++ extra).

(** A clean payload, a name deep below, a text, and no manifest. *)
Example intake_examples :
  map (fun pm => evaluate_payload pm.1 FROM_TEST_FIXTURE pm.2)
    [(payload_with [] [(u "lift_bucket", PStr (u "high"))], Some m0);
     (payload_with [] [(u "notes", PList [PDict [(u "Tenant-ID", PInt 1)]])], Some m0);
     (payload_with [] [(u "note", PStr (u "sk-live-0123456789ab"))], None);
     (PDict [(u "card_candidate_ref", PStr (u "card:1"))], Some m0)]
  = [Ok (ADMIT_AS_CANDIDATE TEST_POOL (u "card:1")); Ok (REJECT [TENANT_IDENTIFYING_FIELD]);
     Ok (REJECT [RAW_CONTENT_FIELD; UNVERIFIABLE_EVIDENCE]); Ok (REJECT [MISSING_REQUIRED_FIELD])].
Proof. vm_compute. reflexivity. Qed.

(** What lies next to the two known fields of [source_outcome] is not scanned. *)
Example nested_tenant_admitted :
  evaluate_payload (payload_with [(u "tenant_id", PStr (u "acme"))] []) FROM_PRODUCTION (Some m0)
  = Ok (ADMIT_AS_CANDIDATE PRODUCTION_POOL (u "card:1")).
Proof. vm_compute. reflexivity. Qed.

Definition failed : IntakeCandidate :=
  {| card_candidate_ref := u "card:1"; evidence_bundle_manifest_hash := hash0;
     source_outcome := {| b_verdict := FAIL; outcome_provenance := FROM_PRODUCTION; manifest := None |};
     extra_payload_fields := [(u "run_id", PInt 1)] |}.

Lemma rejected_exactly_witness : exists d, evaluate failed = Ok d.
Proof.
  destruct (rejected_exactly failed) as (d & Hd & _); [intros m Hm; discriminate Hm|].
  exists d. exact Hd.
Defined.
End Witness.
