(* ===== verification/QualityGates.v ===== *)
(** The quality evaluation of a patch
    (src/services/platform/quality-eval-service): the pure gates, their results
    with redacted failures, and the run that aggregates them into verification
    results, events, audit records and the promotion verdict.

    A gate reads outcomes that adapters collected.  The generated models that
    validate and dump the rows and payloads are the class [GateContracts]; which
    characters beyond ASCII are printable in a [repr] is the class [Printable]. *)

From Stdlib Require Import SpecFloat QArith.
From S2P Require Import Prelude PyStr PyRepr Regex Sha256 PyVal Float64 AuditChain Execution.
Local Open Scope nat_scope.

(** ** gate_ids.py *)

Inductive GateId :=
  | BUILD | TESTS | LINK_ROUTE | CRAWLABILITY | STRUCTURED_DATA | CONTENT_FIDELITY | SECURITY | ACCESSIBILITY
  | PERFORMANCE | DIFF_RATIONALITY
  | COMMIT_COHERENCE | SCHEMA_CONTRACT | LINT | TYPECHECK | UNIT_TESTS | INTEGRATION_TESTS | BOUNDARY
  | CHANGED_LINE_COVERAGE | FORBIDDEN_FILE | SECRET_SCAN | GENERATED_CODE_DRIFT.
#[export] Instance GateId_eq_dec : EqDecision GateId.
Proof. solve_decision. Defined.

Definition gate_value (g : GateId) : pystr :=
  match g with
  | BUILD => u "build" | TESTS => u "tests" | LINK_ROUTE => u "link_route" | CRAWLABILITY => u "crawlability"
  | STRUCTURED_DATA => u "structured_data" | CONTENT_FIDELITY => u "content_fidelity" | SECURITY => u "security"
  | ACCESSIBILITY => u "accessibility" | PERFORMANCE => u "performance" | DIFF_RATIONALITY => u "diff_rationality"
  | COMMIT_COHERENCE => u "commit_coherence" | SCHEMA_CONTRACT => u "schema_contract" | LINT => u "lint"
  | TYPECHECK => u "typecheck" | UNIT_TESTS => u "unit_tests" | INTEGRATION_TESTS => u "integration_tests"
  | BOUNDARY => u "boundary" | CHANGED_LINE_COVERAGE => u "changed_line_coverage"
  | FORBIDDEN_FILE => u "forbidden_file" | SECRET_SCAN => u "secret_scan"
  | GENERATED_CODE_DRIFT => u "generated_code_drift"
  end.

Definition ALGORITHM_11_1_GATE_IDS : list GateId :=
  [BUILD; TESTS; LINK_ROUTE; CRAWLABILITY; STRUCTURED_DATA; CONTENT_FIDELITY; SECURITY; ACCESSIBILITY;
   PERFORMANCE; DIFF_RATIONALITY].
Definition ADDITIONAL_GATE_IDS : list GateId :=
  [COMMIT_COHERENCE; SCHEMA_CONTRACT; LINT; TYPECHECK; UNIT_TESTS; INTEGRATION_TESTS; BOUNDARY;
   CHANGED_LINE_COVERAGE; FORBIDDEN_FILE; SECRET_SCAN; GENERATED_CODE_DRIFT].
Definition ALL_GATE_IDS : list GateId := ALGORITHM_11_1_GATE_IDS ++ ADDITIONAL_GATE_IDS.

(** ** inputs.py *)

Record BuildOutcome := { succeeded : bool; command : pystr; exit_code : Z; log_summary : pystr }.
Record TestOutcome := {
  suite : pystr; total : Z; tests_passed : Z; tests_failed : Z; failing_test_names : list pystr
}.
Record LintOutcome := { lint_tool : pystr; violation_count : Z; sample_violations : list pystr }.
Record TypecheckOutcome := { typecheck_tool : pystr; error_count : Z; sample_errors : list pystr }.
Record SchemaContractOutcome := { valid : bool; invalid_contract_ids : list pystr }.
Record SecurityScanOutcome := {
  secret_leak_count : Z; injection_finding_count : Z; supply_chain_anomaly_count : Z; security_findings : list pystr
}.
Record BoundaryOutcome := {
  boundary_changed_files : list pystr; approved_scope_globs : list pystr; out_of_scope_files : list pystr
}.
Record CoverageReport := { changed_lines_total : Z; changed_lines_covered : Z }.
Record DiffHunk := { hunk_file_path : pystr; hunk_id : pystr; hunk_patch_unit_id : option pystr }.
Record PatchDiff := { diff_changed_files : list pystr; hunks : list DiffHunk }.
Record SecretScanFinding := { file_path : pystr; line : Z; rule_id : pystr; matched_snippet : pystr }.
Record LinkRouteOutcome := { broken_links : list pystr; redirect_errors : list pystr }.
Record CrawlabilityOutcome := { blocked_paths : list pystr; rendering_ok : bool }.
Record StructuredDataOutcome := {
  syntax_errors : list pystr; fabricated_markup_paths : list pystr; visible_content_parity_ok : bool
}.
Record Claim := { claim_id : pystr; evidence_id : option pystr }.
Record PerformanceOutcome := {
  metric_name : pystr; baseline_value : f64; observed_value : f64; regression_threshold_pct : f64
}.

Definition all_passed (o : TestOutcome) : bool := (tests_failed o =? 0)%Z && (total o =? tests_passed o)%Z.

Definition make_CoverageReport (r : CoverageReport) : result pyexn CoverageReport :=
  _ ← raise_if ((changed_lines_total r <? 0) || (changed_lines_covered r <? 0))%Z ValueError;
  _ ← raise_if (changed_lines_total r <? changed_lines_covered r)%Z ValueError;
  Ok r.

Definition covered_pct (r : CoverageReport) : result pyexn f64 :=
  if (changed_lines_total r =? 0)%Z then Ok (f64_int 100)
  else
    covered ← float_of_int (changed_lines_covered r);
    total ← float_of_int (changed_lines_total r);
    Ok (f64_div (f64_mul (f64_int 100) covered) total).

Definition make_PerformanceOutcome (o : PerformanceOutcome) : result pyexn PerformanceOutcome :=
  _ ← raise_if (f64_le (baseline_value o) (f64_int 0)) ValueError;
  _ ← raise_if (f64_lt (regression_threshold_pct o) (f64_int 0)) ValueError;
  Ok o.

Definition regression_pct (o : PerformanceOutcome) : f64 :=
  f64_div (f64_mul (f64_int 100) (f64_sub (observed_value o) (baseline_value o))) (baseline_value o).

(** ** redaction.py *)

Definition _SECRET_MASK : pystr := u "[REDACTED]".

Definition redact_secret_snippet (rule_id file_path : pystr) (line : Z) : pystr :=
  rule_id ++ u " finding at " ++ file_path ++ u ":" ++ str_of_Z line ++ u " (" ++ _SECRET_MASK ++ u ")".

(** The markers are those of [job_error.py]. *)
Definition contains_stack_trace_marker (text : pystr) : bool :=
  existsb (fun marker => contains marker text) _STACK_TRACE_MARKERS.

Definition redact_stack_trace (text : pystr) : pystr :=
  if contains_stack_trace_marker text then u "[REDACTED: stack-trace-shaped content omitted]" else text.

Definition truncate (text : pystr) : pystr :=
  if length text <=? 200 then text else take 200 text ++ u "...[truncated]".

(** ** gate_result.py *)

Inductive quality_exn :=
  | JobErrorInvalid (e : execution_exn)
  | VerificationResultValidationError (gate : GateId)
  | EventPayloadValidationError
  | Builtin (e : pyexn).

Record GateResult := { gate_id : GateId; passed : bool; failures : list JobError }.

Definition make_GateResult (g : GateResult) : result quality_exn GateResult :=
  _ ← raise_if (passed g && negb (bool_decide (failures g = []))) (Builtin ValueError);
  _ ← raise_if (negb (passed g) && bool_decide (failures g = [])) (Builtin ValueError);
  Ok g.

Definition builtin {A} (m : result pyexn A) : result quality_exn A := try_except m (fun e => Raise (Builtin e)).

(** ** Text of the failures *)

Definition str_of_nat (n : nat) : pystr := str_of_Z (Z.of_nat n).
Definition str_of_bool (b : bool) : pystr := if b then u "True" else u "False".
Definition comma (l : list pystr) : pystr := join (u ", ") l.

(** ** gates.py *)

Definition _error (code summary : pystr) (retryable : bool) (detail : list (pystr * pystr)) : result quality_exn JobError :=
  try_except (make_JobError
    {| error_code := code; summary := truncate (redact_stack_trace summary); retryable := retryable;
       redacted_detail := (fun kv => (kv.1, truncate (redact_stack_trace kv.2))) <$> detail |})
    (fun e => Raise (JobErrorInvalid e)).

(** [passed(gate_id)] when the rule holds, else [failed(gate_id, failures)]. *)
Definition gate_unless (gate : GateId) (ok : bool) (failures : result quality_exn (list JobError)) : result quality_exn GateResult :=
  if ok then make_GateResult {| gate_id := gate; passed := true; failures := [] |}
  else fs ← failures; make_GateResult {| gate_id := gate; passed := false; failures := fs |}.

Definition one (e : result quality_exn JobError) : result quality_exn (list JobError) := f ← e; Ok [f].

Definition CHANGED_LINE_COVERAGE_THRESHOLD_PCT : f64 := f64_int 90.

Definition DEFAULT_FORBIDDEN_PATH_PREFIXES : list pystr :=
  [u ".cursor/rules/"; u "docs/specs/"; u "packages/contracts/"; u "packages/schemas/"; u "events/"; u "workflows/";
   u "deploy/"; u ".claude/settings"; u "docs/decisions/"].

Definition gate_commit_coherence (approved_base_commit artifact_base_commit : pystr) : result quality_exn GateResult :=
  gate_unless COMMIT_COHERENCE (bool_decide (approved_base_commit = artifact_base_commit))
    (one (_error (u "saena.validation.base_commit_mismatch")
            (u "patch artifact base_commit does not match the approved ChangePlan repo_commit") false
            [(u "expected_base_commit", approved_base_commit); (u "actual_base_commit", artifact_base_commit)])).

Definition gate_build `{Printable} (o : BuildOutcome) : result quality_exn GateResult :=
  gate_unless BUILD (succeeded o)
    (one (_error (u "saena.internal.build_failed")
            (u "build command " ++ py_repr (command o) ++ u " exited " ++ str_of_Z (exit_code o)) true
            [(u "command", command o); (u "exit_code", str_of_Z (exit_code o)); (u "log_summary", log_summary o)])).

Definition _test_gate (gate : GateId) (o : TestOutcome) : result quality_exn GateResult :=
  gate_unless gate (all_passed o)
    (one (_error (u "saena.internal.tests_failed")
            (suite o ++ u " suite: " ++ str_of_Z (tests_failed o) ++ u "/" ++ str_of_Z (total o) ++ u " tests failed") true
            [(u "suite", suite o); (u "failed_count", str_of_Z (tests_failed o));
             (u "failing_tests", comma (take 5 (failing_test_names o)))])).

Definition gate_tests := _test_gate TESTS.
Definition gate_unit_tests := _test_gate UNIT_TESTS.
Definition gate_integration_tests := _test_gate INTEGRATION_TESTS.

Definition gate_lint (o : LintOutcome) : result quality_exn GateResult :=
  gate_unless LINT (violation_count o =? 0)%Z
    (one (_error (u "saena.validation.lint_violations")
            (lint_tool o ++ u ": " ++ str_of_Z (violation_count o) ++ u " lint violation(s)") true
            [(u "tool", lint_tool o); (u "sample_violations", comma (take 5 (sample_violations o)))])).

Definition gate_typecheck (o : TypecheckOutcome) : result quality_exn GateResult :=
  gate_unless TYPECHECK (error_count o =? 0)%Z
    (one (_error (u "saena.validation.typecheck_errors")
            (typecheck_tool o ++ u ": " ++ str_of_Z (error_count o) ++ u " type error(s)") true
            [(u "tool", typecheck_tool o); (u "sample_errors", comma (take 5 (sample_errors o)))])).

Definition gate_schema_contract (o : SchemaContractOutcome) : result quality_exn GateResult :=
  gate_unless SCHEMA_CONTRACT (valid o)
    (one (_error (u "saena.validation.contract_shape_invalid")
            (str_of_nat (length (invalid_contract_ids o)) ++ u " contract(s) failed schema validation") false
            [(u "invalid_contract_ids", comma (invalid_contract_ids o))])).

Definition gate_security (o : SecurityScanOutcome) : result quality_exn GateResult :=
  let total := (secret_leak_count o + injection_finding_count o + supply_chain_anomaly_count o)%Z in
  gate_unless SECURITY (total =? 0)%Z
    (one (_error (u "saena.upstream_engine.security_finding")
            (str_of_Z (secret_leak_count o) ++ u " secret leak(s), " ++ str_of_Z (injection_finding_count o)
             ++ u " injection finding(s), " ++ str_of_Z (supply_chain_anomaly_count o) ++ u " supply-chain anomaly(ies)")
            false [(u "findings", comma (take 5 (security_findings o)))])).

Definition gate_boundary (o : BoundaryOutcome) : result quality_exn GateResult :=
  gate_unless BOUNDARY (bool_decide (out_of_scope_files o = []))
    (one (_error (u "saena.policy_denied.out_of_scope_files")
            (str_of_nat (length (out_of_scope_files o)) ++ u " changed file(s) outside approved scope") false
            [(u "out_of_scope_files", comma (out_of_scope_files o));
             (u "approved_scope_globs", comma (approved_scope_globs o))])).

Definition gate_changed_line_coverage (r : CoverageReport) (threshold_pct : f64) : result quality_exn GateResult :=
  pct ← builtin (covered_pct r);
  gate_unless CHANGED_LINE_COVERAGE (f64_le threshold_pct pct)
    (one (_error (u "saena.validation.changed_line_coverage_below_threshold")
            (u "changed-line coverage " ++ format_fixed 2 pct ++ u "% is below the " ++ format_fixed 2 threshold_pct
             ++ u "% blocking threshold (ADR-0017)") false
            [(u "covered_pct", format_fixed 2 pct); (u "threshold_pct", format_fixed 2 threshold_pct);
             (u "changed_lines_total", str_of_Z (changed_lines_total r));
             (u "changed_lines_covered", str_of_Z (changed_lines_covered r))])).

Definition _is_forbidden (forbidden_prefixes : list pystr) (path : pystr) : bool :=
  existsb (fun prefix => startswith prefix path) forbidden_prefixes.

Definition gate_forbidden_file (changed_files forbidden_prefixes : list pystr) : result quality_exn GateResult :=
  let touched := filter (fun f => _is_forbidden forbidden_prefixes f = true) changed_files in
  gate_unless FORBIDDEN_FILE (bool_decide (touched = []))
    (one (_error (u "saena.policy_denied.forbidden_file_touched")
            (str_of_nat (length touched) ++ u " changed file(s) touch a protected path") false
            [(u "touched_files", comma touched)])).

Definition gate_secret_scan (findings : list SecretScanFinding) : result quality_exn GateResult :=
  let redacted_findings := map (fun f => redact_secret_snippet (rule_id f) (file_path f) (line f)) findings in
  gate_unless SECRET_SCAN (bool_decide (findings = []))
    (one (_error (u "saena.internal.secret_detected")
            (str_of_nat (length findings) ++ u " secret(s) detected in the patch") false
            [(u "findings", comma redacted_findings)])).

Definition gate_generated_code_drift (drifted_paths : list pystr) : result quality_exn GateResult :=
  gate_unless GENERATED_CODE_DRIFT (bool_decide (drifted_paths = []))
    (one (_error (u "saena.conflict.generated_code_drift")
            (str_of_nat (length drifted_paths) ++ u " generated file(s) drifted from source") false
            [(u "drifted_paths", comma drifted_paths)])).

Definition gate_link_route (o : LinkRouteOutcome) : result quality_exn GateResult :=
  gate_unless LINK_ROUTE (length (broken_links o) + length (redirect_errors o) =? 0)
    (one (_error (u "saena.validation.link_route_errors")
            (str_of_nat (length (broken_links o)) ++ u " broken link(s), " ++ str_of_nat (length (redirect_errors o))
             ++ u " redirect error(s)") false
            [(u "broken_links", comma (take 5 (broken_links o)));
             (u "redirect_errors", comma (take 5 (redirect_errors o)))])).

Definition gate_crawlability (o : CrawlabilityOutcome) : result quality_exn GateResult :=
  gate_unless CRAWLABILITY (bool_decide (blocked_paths o = []) && rendering_ok o)
    (one (_error (u "saena.validation.crawlability_regression")
            (str_of_nat (length (blocked_paths o)) ++ u " path(s) blocked for allowed crawlers"
             ++ (if rendering_ok o then [] else u "; public rendering condition violated")) false
            [(u "blocked_paths", comma (take 5 (blocked_paths o))); (u "rendering_ok", str_of_bool (rendering_ok o))])).

Definition gate_structured_data (o : StructuredDataOutcome) : result quality_exn GateResult :=
  gate_unless STRUCTURED_DATA
    ((length (syntax_errors o) + length (fabricated_markup_paths o) =? 0) && visible_content_parity_ok o)
    (one (_error (u "saena.validation.structured_data_invalid")
            (str_of_nat (length (syntax_errors o)) ++ u " syntax error(s), "
             ++ str_of_nat (length (fabricated_markup_paths o)) ++ u " fabricated markup path(s)"
             ++ (if visible_content_parity_ok o then [] else u "; visible-content parity violated")) false
            [(u "syntax_errors", comma (take 5 (syntax_errors o)));
             (u "fabricated_markup_paths", comma (take 5 (fabricated_markup_paths o)))])).

Definition gate_content_fidelity `{Printable} (claims : list Claim) : result quality_exn GateResult :=
  let unsupported := filter (fun c => evidence_id c = None) claims in
  gate_unless CONTENT_FIDELITY (bool_decide (unsupported = []))
    (mapM (fun c => _error (u "saena.validation.unsupported_claim")
             (u "claim " ++ py_repr (claim_id c) ++ u " has no evidence_id (content-fidelity zero tolerance)") false
             [(u "claim_id", claim_id c)]) unsupported).

Definition gate_accessibility (critical_violations : list pystr) : result quality_exn GateResult :=
  gate_unless ACCESSIBILITY (bool_decide (critical_violations = []))
    (one (_error (u "saena.validation.accessibility_regression")
            (str_of_nat (length critical_violations) ++ u " critical a11y violation(s)") false
            [(u "critical_violations", comma (take 5 critical_violations))])).

Definition gate_performance (o : PerformanceOutcome) : result quality_exn GateResult :=
  gate_unless PERFORMANCE (f64_le (regression_pct o) (regression_threshold_pct o))
    (one (_error (u "saena.validation.performance_regression")
            (metric_name o ++ u " regressed " ++ format_fixed 2 (regression_pct o) ++ u "% (threshold "
             ++ format_fixed 2 (regression_threshold_pct o) ++ u "%)") false
            [(u "metric_name", metric_name o); (u "baseline_value", format_fixed 4 (baseline_value o));
             (u "observed_value", format_fixed 4 (observed_value o));
             (u "regression_pct", format_fixed 2 (regression_pct o))])).

Definition linked (approved_patch_unit_ids : gset pystr) (h : DiffHunk) : bool :=
  match hunk_patch_unit_id h with None => false | Some id => bool_decide (id ∈ approved_patch_unit_ids) end.

Definition gate_diff_rationality `{Printable} (d : PatchDiff) (approved_patch_unit_ids : gset pystr) : result quality_exn GateResult :=
  let unlinked := filter (fun h => linked approved_patch_unit_ids h = false) (hunks d) in
  gate_unless DIFF_RATIONALITY (bool_decide (unlinked = []))
    (mapM (fun h => _error (u "saena.validation.unlinked_diff_hunk")
             (u "hunk " ++ py_repr (hunk_id h) ++ u " in " ++ py_repr (hunk_file_path h)
              ++ u " is not linked to an approved Action Contract patch unit") false
             [(u "hunk_id", hunk_id h); (u "file_path", hunk_file_path h);
              (u "patch_unit_id", default [] (hunk_patch_unit_id h))]) unlinked).

(** ** engine.py *)

Record GateInputBundle := {
  build : BuildOutcome; unit_tests : TestOutcome; integration_tests : TestOutcome; lint : LintOutcome;
  typecheck : TypecheckOutcome; schema_contract : SchemaContractOutcome; security : SecurityScanOutcome;
  boundary : BoundaryOutcome; coverage : CoverageReport; secret_scan : list SecretScanFinding;
  generated_code_drift : list pystr; link_route : LinkRouteOutcome; crawlability : CrawlabilityOutcome;
  structured_data : StructuredDataOutcome; content_fidelity : list Claim; accessibility : list pystr;
  performance : PerformanceOutcome; diff : PatchDiff
}.

Record QualityEvalRequest := {
  tenant_id : pystr; run_id : pystr; patch_unit_id : pystr; worktree_commit : pystr;
  artifact_base_commit : pystr; approved_base_commit : pystr; approved_patch_unit_ids : gset pystr;
  evaluated_at : pystr; gate_inputs : GateInputBundle; report_uri : option pystr
}.

Definition _combined_test_outcome (unit integration : TestOutcome) : TestOutcome :=
  {| suite := u "unit+integration"; total := total unit + total integration;
     tests_passed := tests_passed unit + tests_passed integration;
     tests_failed := tests_failed unit + tests_failed integration;
     failing_test_names := failing_test_names unit ++ failing_test_names integration |}.

Definition _run_all_gates `{Printable} (r : QualityEvalRequest) : result quality_exn (list GateResult) :=
  let gi := gate_inputs r in
  mapM id
    [gate_commit_coherence (approved_base_commit r) (artifact_base_commit r);
     gate_build (build gi);
     gate_tests (_combined_test_outcome (unit_tests gi) (integration_tests gi));
     gate_unit_tests (unit_tests gi);
     gate_integration_tests (integration_tests gi);
     gate_lint (lint gi);
     gate_typecheck (typecheck gi);
     gate_schema_contract (schema_contract gi);
     gate_security (security gi);
     gate_boundary (boundary gi);
     gate_changed_line_coverage (coverage gi) CHANGED_LINE_COVERAGE_THRESHOLD_PCT;
     gate_forbidden_file (boundary_changed_files (boundary gi)) DEFAULT_FORBIDDEN_PATH_PREFIXES;
     gate_secret_scan (secret_scan gi);
     gate_generated_code_drift (generated_code_drift gi);
     gate_link_route (link_route gi);
     gate_crawlability (crawlability gi);
     gate_structured_data (structured_data gi);
     gate_content_fidelity (content_fidelity gi);
     gate_accessibility (accessibility gi);
     gate_performance (performance gi);
     gate_diff_rationality (diff gi) (approved_patch_unit_ids r)].

(** *** verification.py, events.py and audit.py *)

(** [model_validate] followed by [model_dump(mode="json", exclude_none=True)] of
    the two generated models; [None] is the [ValidationError].  A validated text
    of these fields is dumped as it is. *)
Class GateContracts := {
  verification_result_model : list (pystr * pyval) -> option (list (pystr * pyval));
  gate_result_payload_model : list (pystr * pyval) -> option (list (pystr * pyval));
  verification_dump_keeps p d k : verification_result_model p = Some d -> k ∈ [u "gate_id"; u "status"] ->
    dget d k = dget p k
}.

Definition failure_payload (f : JobError) : pyval :=
  let p := to_error_detail_payload f in
  PDict [(u "error_code", PStr (ed_error_code p)); (u "retryable", PBool (ed_retryable p));
         (u "summary", PStr (ed_summary p))].

Definition status_text (g : GateResult) : pystr := if passed g then u "passed" else u "failed".

Definition report_field (report_uri : option pystr) : list (pystr * pyval) :=
  match report_uri with Some uri => [(u "report_uri", PStr uri)] | None => [] end.

Definition verification_payload (r : QualityEvalRequest) (g : GateResult) : list (pystr * pyval) :=
  [(u "tenant_id", PStr (tenant_id r)); (u "run_id", PStr (run_id r)); (u "patch_unit_id", PStr (patch_unit_id r));
   (u "gate_id", PStr (gate_value (gate_id g))); (u "status", PStr (status_text g));
   (u "worktree_commit", PStr (worktree_commit r)); (u "evaluated_at", PStr (evaluated_at r))]
  ++ (if bool_decide (failures g = []) then [] else [(u "failures", PList (map failure_payload (failures g)))])
  ++ report_field (report_uri r).

Definition build_verification_result `{GateContracts} (r : QualityEvalRequest) (g : GateResult)
    : result quality_exn (list (pystr * pyval)) :=
  match verification_result_model (verification_payload r g) with
  | Some dump => Ok dump
  | None => Raise (VerificationResultValidationError (gate_id g))
  end.

Definition _build_quality_gate_result_payload `{GateContracts} (patch_unit_id gate_id : pystr)
    (failures : option (list JobError)) (report_uri : option pystr) : result quality_exn (list (pystr * pyval)) :=
  match gate_result_payload_model
          ([(u "patch_unit_id", PStr patch_unit_id); (u "gate_id", PStr gate_id)]
           ++ (match failures with Some fs => [(u "failures", PList (map failure_payload fs))] | None => [] end)
           ++ report_field report_uri) with
  | Some dump => Ok dump
  | None => Raise EventPayloadValidationError
  end.

Definition build_quality_gate_passed_payload `{GateContracts} (patch_unit_id gate_id : pystr) (report_uri : option pystr) :=
  _build_quality_gate_result_payload patch_unit_id gate_id None report_uri.

Definition build_quality_gate_failed_payload `{GateContracts} (patch_unit_id gate_id : pystr) (failures : list JobError)
    (report_uri : option pystr) : result quality_exn (list (pystr * pyval)) :=
  _ ← raise_if (bool_decide (failures = [])) EventPayloadValidationError;
  _build_quality_gate_result_payload patch_unit_id gate_id (Some failures) report_uri.

Definition build_gate_event_payload `{GateContracts} (r : QualityEvalRequest) (g : GateResult)
    : result quality_exn (pystr * list (pystr * pyval)) :=
  if passed g then
    payload ← build_quality_gate_passed_payload (patch_unit_id r) (gate_value (gate_id g)) (report_uri r);
    Ok (u "quality.gate.passed.v1", payload)
  else
    payload ← build_quality_gate_failed_payload (patch_unit_id r) (gate_value (gate_id g)) (failures g) (report_uri r);
    Ok (u "quality.gate.failed.v1", payload).

Record GateAuditRecord := {
  audit_gate_id : GateId; audit_status : pystr; audit_evaluated_at : pystr; error_codes : list pystr
}.

Definition build_gate_audit_record (g : GateResult) (evaluated_at : pystr) : GateAuditRecord :=
  {| audit_gate_id := gate_id g; audit_status := status_text g; audit_evaluated_at := evaluated_at;
     error_codes := error_code <$> failures g |}.

(** *** The run *)

Record QualityEvalOutcome := {
  verification_results : list (list (pystr * pyval)); events : list (pystr * list (pystr * pyval));
  audit_records : list GateAuditRecord; forbids_promotion : bool; overall_status : pystr
}.

Definition run_quality_evaluation `{Printable} `{GateContracts} (r : QualityEvalRequest)
    : result quality_exn QualityEvalOutcome :=
  gate_results ← _run_all_gates r;
  rows ← mapM (build_verification_result r) gate_results;
  payloads ← mapM (build_gate_event_payload r) gate_results;
  let forbids := existsb (fun g => negb (passed g)) gate_results in
  Ok {| verification_results := rows; events := payloads;
        audit_records := map (fun g => build_gate_audit_record g (evaluated_at r)) gate_results;
        forbids_promotion := forbids; overall_status := if forbids then u "failed" else u "passed" |}.

(** [gate_result_for]; [None] is its [KeyError]. *)
Definition gate_result_for (o : QualityEvalOutcome) (g : GateId) : option (list (pystr * pyval)) :=
  List.find (fun row => match dget row (u "gate_id") with
                        | Some (PStr id) => bool_decide (id = gate_value g)
                        | _ => false
                        end) (verification_results o).

Definition next_job_status (o : QualityEvalOutcome) : JobStatus := if forbids_promotion o then FAILED else SUCCEEDED.

Definition advance_job_status (current : JobStatus) (o : QualityEvalOutcome) : result execution_exn JobTransitionOutcome :=
  Execution.transition current (next_job_status o).

(** ** What each gate asks for *)

Definition criterion (r : QualityEvalRequest) (g : GateId) : Prop :=
  let gi := gate_inputs r in
  let suite_ok o := tests_failed o = 0%Z /\ total o = tests_passed o in
  match g with
  | COMMIT_COHERENCE => artifact_base_commit r = approved_base_commit r
  | BUILD => succeeded (build gi) = true
  | TESTS => suite_ok (unit_tests gi) /\ suite_ok (integration_tests gi)
  | UNIT_TESTS => suite_ok (unit_tests gi)
  | INTEGRATION_TESTS => suite_ok (integration_tests gi)
  | LINT => violation_count (lint gi) = 0%Z
  | TYPECHECK => error_count (typecheck gi) = 0%Z
  | SCHEMA_CONTRACT => valid (schema_contract gi) = true
  | SECURITY => secret_leak_count (security gi) = 0%Z /\ injection_finding_count (security gi) = 0%Z /\
      supply_chain_anomaly_count (security gi) = 0%Z
  | BOUNDARY => out_of_scope_files (boundary gi) = []
  | CHANGED_LINE_COVERAGE =>
      (90 * changed_lines_total (coverage gi) <= 100 * changed_lines_covered (coverage gi))%Z
  | FORBIDDEN_FILE => forall f p, f ∈ boundary_changed_files (boundary gi) -> p ∈ DEFAULT_FORBIDDEN_PATH_PREFIXES ->
      ~ p `prefix_of` f
  | SECRET_SCAN => secret_scan gi = []
  | GENERATED_CODE_DRIFT => generated_code_drift gi = []
  | LINK_ROUTE => broken_links (link_route gi) = [] /\ redirect_errors (link_route gi) = []
  | CRAWLABILITY => blocked_paths (crawlability gi) = [] /\ rendering_ok (crawlability gi) = true
  | STRUCTURED_DATA => syntax_errors (structured_data gi) = [] /\ fabricated_markup_paths (structured_data gi) = [] /\
      visible_content_parity_ok (structured_data gi) = true
  | CONTENT_FIDELITY => forall c, c ∈ content_fidelity gi -> is_Some (evidence_id c)
  | ACCESSIBILITY => accessibility gi = []
  | PERFORMANCE => f64_le (f64_change (observed_value (performance gi)) (baseline_value (performance gi)))
      (regression_threshold_pct (performance gi)) = true
  | DIFF_RATIONALITY => forall h, h ∈ hunks (diff gi) ->
      exists id, hunk_patch_unit_id h = Some id /\ id ∈ approved_patch_unit_ids r
  end.

(** The counts of a report, as its constructor checks them, below 2 ** 45. *)
Definition counts_ok (r : CoverageReport) : Prop :=
  (0 <= changed_lines_covered r <= changed_lines_total r)%Z /\ (changed_lines_total r < 2 ^ 45)%Z.

(** The counts of a suite: no negative failures, no more passed than run. *)
Definition suite_counts (o : TestOutcome) : Prop := (0 <= tests_failed o /\ tests_passed o <= total o)%Z.

(** Sensible counts: those of the coverage report, of the two suites and of the
    security sweep.  The constructors check the first only. *)
Record sensible (gi : GateInputBundle) : Prop := {
  sensible_coverage : counts_ok (coverage gi);
  sensible_unit : suite_counts (unit_tests gi);
  sensible_integration : suite_counts (integration_tests gi);
  sensible_leaks : (0 <= secret_leak_count (security gi))%Z;
  sensible_injections : (0 <= injection_finding_count (security gi))%Z;
  sensible_anomalies : (0 <= supply_chain_anomaly_count (security gi))%Z
}.

(** The regression of a measurement, without the rounding of floats: what is no
    worse than a positive baseline passes any threshold, and whole numbers
    compare as in exact arithmetic. *)
Definition regression_exact (o : PerformanceOutcome) (ok : Prop) : Prop :=
  (f64_finite (observed_value o) = true -> f64_finite (baseline_value o) = true -> f64_lt (f64_int 0) (baseline_value o) = true ->
   f64_le (f64_int 0) (regression_threshold_pct o) = true -> f64_le (observed_value o) (baseline_value o) = true -> ok) /\
  forall observed baseline threshold : Z, observed_value o = f64_int observed -> baseline_value o = f64_int baseline ->
    regression_threshold_pct o = f64_int threshold ->
    (0 <= observed < 2 ^ 45)%Z -> (0 < baseline < 2 ^ 45)%Z -> (0 <= threshold <= 200)%Z ->
    ok <-> (100 * (observed - baseline) <= threshold * baseline)%Z.

(** ** Lemmas *)

(** *** Redaction *)

(** Neither marker starts in the truncation mark or holds a full stop. *)
Lemma marker_chars m : m ∈ _STACK_TRACE_MARKERS -> (46%N ∉ m) /\ exists c l, m = c :: l /\ c ∉ u "...[truncated]".
Proof.
  unfold _STACK_TRACE_MARKERS. rewrite !elem_of_cons, elem_of_nil. intros [->|[->|[]]].
  - split; [by_decide|]. do 2 eexists. split; [vm_compute; reflexivity|by_decide].
  - split; [by_decide|]. do 2 eexists. split; [reflexivity|by_decide].
Qed.

(** Cutting a text brings no marker about. *)
Lemma truncate_marker m t : m ∈ _STACK_TRACE_MARKERS -> contains m t = false -> contains m (truncate t) = false.
Proof.
  intros Hm Ht. unfold truncate. destruct (length t <=? 200) eqn:Hlen; [done|]. apply Nat.leb_gt in Hlen.
  apply not_true_iff_false. rewrite contains_spec. intros (a & b & Hab).
  destruct (marker_chars m Hm) as (Hdot & c & l & Hml & Hc). apply not_true_iff_false in Ht.
  assert (length (take 200 t) = 200) as Htake by (rewrite length_take; lia).
  assert (length a < 200) as Ha.
  { apply Nat.nle_gt. intros Hle. apply Hc. apply (list_elem_of_lookup_2 _ (length a - 200)).
    assert ((take 200 t ++ u "...[truncated]") !! length a = Some c) as Hat.
    { rewrite Hab, Hml, lookup_app_r by done. by rewrite Nat.sub_diag. }
    rewrite lookup_app_r in Hat by lia. by rewrite Htake in Hat. }
  assert (length a + length m <= 200) as Hend.
  { apply Nat.nlt_ge. intros Hlt. apply Hdot. apply (list_elem_of_lookup_2 _ (200 - length a)).
    assert ((take 200 t ++ u "...[truncated]") !! 200 = Some 46%N) as Hat.
    { rewrite lookup_app_r by lia. by rewrite Htake, Nat.sub_diag. }
    rewrite Hab, lookup_app_r, lookup_app_l in Hat by lia. done. }
  apply Ht, contains_spec. exists a, (drop (length a + length m) t).
  rewrite <- (take_drop 200 t) at 1.
  assert (take (length a + length m) (take 200 t) = a ++ m) as Hpre.
  { rewrite <- (take_app_le (take 200 t) (u "...[truncated]")) by lia.
    rewrite Hab, app_assoc, take_app_le by (rewrite length_app; lia). apply take_ge. rewrite length_app. lia. }
  rewrite take_take, Nat.min_l in Hpre by lia. rewrite take_drop.
  rewrite <- (take_drop (length a + length m) t) at 1. by rewrite Hpre, <- app_assoc.
Qed.

Lemma redact_marker m t : m ∈ _STACK_TRACE_MARKERS -> contains m (redact_stack_trace t) = false.
Proof.
  intros Hm. unfold redact_stack_trace. destruct (contains_stack_trace_marker t) eqn:Ht.
  - revert m Hm. apply Forall_forall. repeat constructor; vm_compute; reflexivity.
  - unfold contains_stack_trace_marker in Ht. rewrite existsb_false_elem in Ht. by apply Ht.
Qed.

Lemma truncate_length t : length (truncate t) <= 214.
Proof.
  unfold truncate. destruct (length t <=? 200) eqn:Hlen; [apply Nat.leb_le in Hlen; lia|].
  rewrite length_app, length_take. change (length (u "...[truncated]")) with 14. lia.
Qed.

(** Whatever goes in, what comes out is short and shows no stack trace. *)
Lemma redacted_safe t : safe_text 214 (truncate (redact_stack_trace t)).
Proof. split; [apply truncate_length|]. intros m Hm. by apply truncate_marker, redact_marker. Qed.

Lemma truncate_nonempty t : t <> [] -> truncate (redact_stack_trace t) <> [].
Proof.
  intros Ht. unfold redact_stack_trace. destruct (contains_stack_trace_marker t); unfold truncate.
  - vm_compute. done.
  - destruct (length t <=? 200); [done|]. by destruct t.
Qed.

(** A failure that may leave the service. *)
Definition safe_failure (f : JobError) : Prop :=
  safe_text 214 (summary f) /\ forall k v, (k, v) ∈ redacted_detail f -> safe_text 214 v.

(** The codes of the gates. *)
Definition code_ok (code : pystr) : bool :=
  re_fullmatch error_code_re code && bool_decide (error_category code ∈ KNOWN_ERROR_CATEGORIES).

Lemma error_answers code text again detail : code_ok code = true -> text <> [] -> length detail <= 16 ->
  exists f, _error code text again detail = Ok f /\ safe_failure f.
Proof.
  intros [Hcode Hcat%bool_decide_eq_true]%andb_true_iff Hsum Hlen. unfold _error.
  set (f := {| error_code := code; summary := _; retryable := _; redacted_detail := _ |}).
  assert (safe_failure f) as Hsafe.
  { split; [apply redacted_safe|]. intros k v ([k' v'] & [= -> ->] & _)%list_elem_of_fmap. apply redacted_safe. }
  assert (make_JobError f = Ok f) as ->; [|by exists f].
  unfold make_JobError. rewrite !seq_Ok, !raise_if_Ok, reject_unsafe_text_Ok, reject_unsafe_details_Ok. destruct Hsafe as [[H1 H2] H3].
  split_and!; try done; cbn [error_code summary redacted_detail f].
  - by rewrite Hcode.
  - apply bool_decide_eq_false. naive_solver.
  - apply bool_decide_eq_false. by apply truncate_nonempty.
  - cbn [summary f] in H1. split; [unfold _SUMMARY_MAX_LENGTH; lia|exact H2].
  - apply Nat.ltb_ge. rewrite length_fmap. exact Hlen.
  - intros k v Hin. destruct (H3 k v Hin) as [Hl Hm]. split; [unfold _DETAIL_VALUE_MAX_LENGTH; lia|done].
Qed.

(** *** The gates *)

(** A result says what its gate asks for, with failures exactly when it fails. *)
Definition reported (r : QualityEvalRequest) (g : GateResult) : Prop :=
  (passed g = true <-> criterion r (gate_id g)) /\ (passed g = true <-> failures g = []) /\
  Forall safe_failure (failures g).

Definition answers (r : QualityEvalRequest) (gate : GateId) (m : result quality_exn GateResult) : Prop :=
  exists g, m = Ok g /\ gate_id g = gate /\ reported r g.

Lemma gate_unless_answers r gate ok fs :
  (ok = true <-> criterion r gate) ->
  (ok = false -> exists l, fs = Ok l /\ l <> [] /\ Forall safe_failure l) ->
  answers r gate (gate_unless gate ok fs).
Proof.
  intros Hok Hfs. unfold gate_unless, answers, reported. destruct ok.
  - eexists. split; [reflexivity|]. naive_solver.
  - destruct (Hfs eq_refl) as (l & -> & Hne & Hall). cbn. unfold make_GateResult. cbn.
    rewrite bool_decide_false by done. cbn. eexists. split; [reflexivity|]. cbn. naive_solver.
Qed.

Lemma one_answers e : (exists f, e = Ok f /\ safe_failure f) ->
  exists l, one e = Ok l /\ l <> [] /\ Forall safe_failure l.
Proof. intros (f & -> & Hf). exists [f]. split; [done|]. split; [done|by constructor]. Qed.

(** One failure for each element of a selection that is not empty. *)
Lemma each_answers {A} (f : A -> result quality_exn JobError) l : l <> [] ->
  (forall x, x ∈ l -> exists e, f x = Ok e /\ safe_failure e) ->
  exists k, mapM f l = Ok k /\ k <> [] /\ Forall safe_failure k.
Proof.
  intros Hl Hf. destruct (mapM_ok f l) as [k Hk]; [naive_solver|]. exists k. split; [done|]. split.
  - intros ->. apply mapM_Ok, Forall2_length in Hk. by destruct l.
  - apply Forall_forall. intros e He. destruct (mapM_elem f l k Hk e He) as (x & Hx & Hfx).
    destruct (Hf x Hx) as (e' & He' & Hs). congruence.
Qed.

Ltac some_text :=
  let E := fresh in intros E;
  repeat match goal with H : _ ++ _ = [] |- _ => apply app_eq_nil in H as [? ?] end;
  match goal with H : u _ = [] |- _ => discriminate H end.

(** The failure of a gate: a constant code, a summary with constant words. *)
Ltac failure := apply error_answers; [vm_compute; reflexivity|some_text|cbn; lia].

Ltac gate := apply gate_unless_answers; [|intros _; apply one_answers; failure].

Lemma filter_nil {A} (P : A -> Prop) `{forall x, Decision (P x)} l :
  filter P l = [] <-> forall x, x ∈ l -> ~ P x.
Proof.
  split.
  - intros Hf x Hx HP. assert (x ∈ filter P l) as Hin by (by apply list_elem_of_filter). rewrite Hf in Hin. by apply elem_of_nil in Hin.
  - intros Hl. destruct (filter P l) as [|x k] eqn:E; [done|]. assert (x ∈ filter P l) as Hin by (rewrite E; left).
    apply list_elem_of_filter in Hin as [HP Hx]. by destruct (Hl x Hx).
Qed.

Section gates.
Context `{Printable} (r : QualityEvalRequest).
Abbreviation gi := (gate_inputs r).

Lemma commit_answers : answers r COMMIT_COHERENCE (gate_commit_coherence (approved_base_commit r) (artifact_base_commit r)).
Proof. gate. rewrite bool_decide_eq_true. cbn [criterion]. naive_solver. Qed.

Lemma combined_answers : suite_counts (unit_tests gi) -> suite_counts (integration_tests gi) ->
  answers r TESTS (gate_tests (_combined_test_outcome (unit_tests gi) (integration_tests gi))).
Proof.
  intros [Hf1 Hp1] [Hf2 Hp2]. unfold gate_tests, _test_gate. gate. unfold all_passed. rewrite andb_true_iff, !Z.eqb_eq.
  cbn [criterion _combined_test_outcome tests_failed total tests_passed]. lia.
Qed.

Lemma security_answers : (0 <= secret_leak_count (security gi))%Z -> (0 <= injection_finding_count (security gi))%Z ->
  (0 <= supply_chain_anomaly_count (security gi))%Z -> answers r SECURITY (gate_security (security gi)).
Proof. intros H1 H2 H3. unfold gate_security. gate. rewrite Z.eqb_eq. cbn [criterion]. lia. Qed.

Lemma test_answers g o :
  (criterion r g <-> tests_failed o = 0%Z /\ total o = tests_passed o) -> answers r g (_test_gate g o).
Proof. intros Hc. unfold _test_gate. gate. rewrite Hc. unfold all_passed. rewrite andb_true_iff, !Z.eqb_eq. done. Qed.

Lemma coverage_answers : counts_ok (coverage gi) ->
  answers r CHANGED_LINE_COVERAGE (gate_changed_line_coverage (coverage gi) CHANGED_LINE_COVERAGE_THRESHOLD_PCT).
Proof.
  intros [Hc Ht]. unfold gate_changed_line_coverage, covered_pct. destruct (Z.eqb_spec (changed_lines_total (coverage gi)) 0) as [E|E]; cbn.
  - gate. cbn [criterion]. split; [intros _; lia|intros _; vm_compute; reflexivity].
  - rewrite !float_of_int_exact by lia. cbn. gate. apply percentage_exact; lia.
Qed.

Lemma forbidden_answers :
  answers r FORBIDDEN_FILE (gate_forbidden_file (boundary_changed_files (boundary gi)) DEFAULT_FORBIDDEN_PATH_PREFIXES).
Proof.
  unfold gate_forbidden_file. gate. rewrite bool_decide_eq_true, filter_nil. cbn [criterion]. unfold _is_forbidden.
  setoid_rewrite existsb_elem. setoid_rewrite startswith_spec. split.
  - intros Hf f p Hin Hp [b Hb]. apply (Hf f Hin). exists p. split; [done|]. by exists b.
  - intros Hf f Hin (p & Hp & b & Hb). apply (Hf f p Hin Hp). by exists b.
Qed.

Lemma content_answers : answers r CONTENT_FIDELITY (gate_content_fidelity (content_fidelity gi)).
Proof.
  unfold gate_content_fidelity. apply gate_unless_answers.
  - rewrite bool_decide_eq_true, filter_nil. cbn [criterion]. by setoid_rewrite <- not_eq_None_Some.
  - intros Hne%bool_decide_eq_false. apply each_answers; [done|]. intros c _. failure.
Qed.

Lemma diff_answers : answers r DIFF_RATIONALITY (gate_diff_rationality (diff gi) (approved_patch_unit_ids r)).
Proof.
  unfold gate_diff_rationality. apply gate_unless_answers.
  - rewrite bool_decide_eq_true, filter_nil. cbn [criterion].
    assert (forall h, linked (approved_patch_unit_ids r) h <> false <->
      exists id, hunk_patch_unit_id h = Some id /\ id ∈ approved_patch_unit_ids r) as Hl; [|by setoid_rewrite Hl].
    intros h. unfold linked. rewrite not_false_iff_true. destruct (hunk_patch_unit_id h) as [id|]; [|naive_solver].
    rewrite bool_decide_eq_true. naive_solver.
  - intros Hne%bool_decide_eq_false. apply each_answers; [done|]. intros h _. failure.
Qed.

Lemma both_empty {A B} (l : list A) (k : list B) : (length l + length k =? 0) = true <-> l = [] /\ k = [].
Proof. rewrite Nat.eqb_eq. destruct l, k; cbn; naive_solver. Qed.

Lemma structured_answers : answers r STRUCTURED_DATA (gate_structured_data (structured_data gi)).
Proof. unfold gate_structured_data. gate. rewrite andb_true_iff, both_empty. cbn [criterion]. naive_solver. Qed.

Lemma crawl_answers : answers r CRAWLABILITY (gate_crawlability (crawlability gi)).
Proof. unfold gate_crawlability. gate. by rewrite andb_true_iff, bool_decide_eq_true. Qed.
End gates.

(** The order in which a run reports the gates. *)
Definition run_order : list GateId :=
  [COMMIT_COHERENCE; BUILD; TESTS; UNIT_TESTS; INTEGRATION_TESTS; LINT; TYPECHECK; SCHEMA_CONTRACT; SECURITY; BOUNDARY;
   CHANGED_LINE_COVERAGE; FORBIDDEN_FILE; SECRET_SCAN; GENERATED_CODE_DRIFT; LINK_ROUTE; CRAWLABILITY;
   STRUCTURED_DATA; CONTENT_FIDELITY; ACCESSIBILITY; PERFORMANCE; DIFF_RATIONALITY].

Lemma run_order_all : NoDup run_order /\ run_order ≡ₚ ALL_GATE_IDS /\ forall g, g ∈ run_order.
Proof.
  assert (NoDup run_order) as Hnd by by_decide. assert (forall g, g ∈ run_order) as Hin by (intros []; by_decide).
  assert (NoDup ALL_GATE_IDS) as Hnd' by by_decide. split; [done|]. split; [|done].
  apply NoDup_Permutation; [done..|]. intros g. split; [intros _; destruct g; by_decide|intros _; apply Hin].
Qed.

Lemma answers_all r ms ids : Forall2 (fun m g => answers r g m) ms ids ->
  exists k, mapM id ms = Ok k /\ gate_id <$> k = ids /\ Forall (reported r) k.
Proof.
  induction 1 as [|m g ms ids (x & Hm & Hg & Hr) _ (k & Hk & Hids & Hall)]; [by exists []|].
  exists (x :: k). split; [|split; [cbn; congruence|by constructor]].
  apply mapM_Ok. constructor; [exact Hm|]. by apply mapM_Ok in Hk.
Qed.

Lemma all_gates_answer `{Printable} r : sensible (gate_inputs r) ->
  exists k, _run_all_gates r = Ok k /\ gate_id <$> k = run_order /\ Forall (reported r) k.
Proof.
  intros [Hc Hu Hi Hl Hj Ha]. apply answers_all. unfold run_order.
  repeat (apply Forall2_cons; split); [..|apply Forall2_nil; done];
    first [apply commit_answers|apply (coverage_answers r Hc)|apply (combined_answers r Hu Hi)|apply (security_answers r Hl Hj Ha)|apply forbidden_answers|apply content_answers|apply diff_answers
          |apply structured_answers|apply crawl_answers|by apply test_answers|idtac]; gate; cbn [criterion];
    rewrite ?bool_decide_eq_true, ?Z.eqb_eq, ?both_empty; try done.
Qed.

(** C27: The gates always answer: on sensible counts every gate returns a
    result, no exception; each gate is reported once; it passes exactly when the
    outcome meets its criterion, carries failures exactly when it does not, and
    no text of a failure is longer than 214 characters or shows a stack trace,
    whatever the tools wrote.  The performance gate passes what is no worse than
    its baseline, and on whole numbers exactly what does not exceed the threshold
    in exact arithmetic. *)
Theorem gates_always_answer `{Printable} r :
  sensible (gate_inputs r) ->
  exists k, _run_all_gates r = Ok k /\ NoDup (gate_id <$> k) /\ gate_id <$> k ≡ₚ ALL_GATE_IDS /\
    forall g, g ∈ k -> (passed g = true <-> criterion r (gate_id g)) /\ (passed g = true <-> failures g = []) /\
      Forall safe_failure (failures g) /\
      (gate_id g = PERFORMANCE -> regression_exact (performance (gate_inputs r)) (passed g = true)).
Proof.
  intros Hc. destruct (all_gates_answer r Hc) as (k & Hk & Hids & Hall). exists k. rewrite Hids.
  destruct run_order_all as (Hnd & Hp & _). split_and!; [done..|]. intros g Hg. rewrite Forall_forall in Hall.
  destruct (Hall g Hg) as (Hpass & Hfail & Hsafe). split_and!; [done..|]. intros Hid. rewrite Hid in Hpass. cbn [criterion] in Hpass.
  split.
  - intros Ho Hb Hpos Ht Hle. apply Hpass. apply f64_le_nonpositive; [|done]. by apply change_nonpositive.
  - intros observed baseline threshold Ho Hb Ht ???. rewrite Hpass, Ho, Hb, Ht. by apply change_exact.
Qed.

(** *** The run *)

Lemma run_Ok `{Printable} `{GateContracts} r o : run_quality_evaluation r = Ok o ->
  exists k, _run_all_gates r = Ok k /\ mapM (build_verification_result r) k = Ok (verification_results o) /\
    mapM (build_gate_event_payload r) k = Ok (events o) /\
    audit_records o = map (fun g => build_gate_audit_record g (evaluated_at r)) k /\
    forbids_promotion o = existsb (fun g => negb (passed g)) k /\
    overall_status o = (if forbids_promotion o then u "failed" else u "passed").
Proof.
  intros (k & Hk & (rows & Hrows & (payloads & Hp & [= <-])%bind_Ok)%bind_Ok)%bind_Ok. by exists k.
Qed.

(** The row of a gate is found under its id and carries its status. *)
Lemma row_of `{GateContracts} r k rows g : mapM (build_verification_result r) k = Ok rows -> NoDup (gate_id <$> k) -> g ∈ k ->
  exists row, List.find (fun row => match dget row (u "gate_id") with
      | Some (PStr id) => bool_decide (id = gate_value (gate_id g)) | _ => false end) rows = Some row /\
    dget row (u "status") = Some (PStr (status_text g)).
Proof.
  assert (forall g1 g2, gate_value g1 = gate_value g2 -> g1 = g2) as Hinj.
  { intros g1 g2 Heq. assert (bool_decide (gate_value g1 = gate_value g2) = true) as Hb by (by rewrite bool_decide_eq_true).
    destruct g1, g2; first [done|vm_compute in Hb; discriminate Hb]. }
  assert (forall x row, build_verification_result r x = Ok row ->
    dget row (u "gate_id") = Some (PStr (gate_value (gate_id x))) /\ dget row (u "status") = Some (PStr (status_text x))) as Hrow.
  { intros x row Hx. unfold build_verification_result in Hx.
    destruct (verification_result_model _) as [d|] eqn:E; [|done]. injection Hx as <-.
    split; (rewrite (verification_dump_keeps _ _ _ E) by set_solver); reflexivity. }
  intros HF%mapM_Ok. revert rows HF. induction k as [|x k IH]; intros rows HF Hnd Hin; [by apply elem_of_nil in Hin|].
  inversion HF as [|? row ? rows' Hx HF']; subst. destruct (Hrow _ _ Hx) as [Hid Hst]. cbn [List.find]. rewrite Hid.
  apply NoDup_cons in Hnd as [Hni Hnd]. apply elem_of_cons in Hin as [->|Hin].
  - rewrite bool_decide_true by done. by exists row.
  - rewrite bool_decide_false; [by apply IH|]. intros Heq%Hinj. apply Hni. rewrite Heq. by apply list_elem_of_fmap_2.
Qed.

(** C26: On sensible counts promotion is allowed exactly when every gate meets
    its criterion: no gate is optional.  Then and only then the overall status is passed and the
    job succeeds; the row of each gate says passed exactly when its criterion
    holds. *)
Theorem promotion_exact `{Printable} `{GateContracts} r o :
  sensible (gate_inputs r) -> run_quality_evaluation r = Ok o ->
  (forbids_promotion o = false <-> forall g, criterion r g) /\
  (overall_status o = u "passed" <-> forall g, criterion r g) /\
  (advance_job_status RUNNING o = Ok {| status := SUCCEEDED; changed := true |} <-> forall g, criterion r g) /\
  forall g, exists row, gate_result_for o g = Some row /\
    (dget row (u "status") = Some (PStr (u "passed")) <-> criterion r g).
Proof.
  intros Hc (k & Hk & Hrows & _ & _ & Hf & Hs)%run_Ok.
  destruct (all_gates_answer r Hc) as (k' & Hk' & Hids & Hall). rewrite Hk in Hk'. injection Hk' as <-.
  destruct run_order_all as (Hnd & _ & Hin). rewrite <- Hids in Hnd. rewrite Forall_forall in Hall.
  assert (forall g, exists x, x ∈ k /\ gate_id x = g) as Hget.
  { intros g. specialize (Hin g). rewrite <- Hids in Hin. apply list_elem_of_fmap in Hin as (x & -> & Hx). by exists x. }
  assert (forbids_promotion o = false <-> forall g, criterion r g) as Hprom.
  { rewrite Hf, existsb_false_elem. split.
    - intros Hp g. destruct (Hget g) as (x & Hx & <-). apply (Hall x Hx). apply Hp in Hx. by apply negb_false_iff in Hx.
    - intros Hp x Hx. apply negb_false_iff. destruct (Hall x Hx) as [Hr _]. apply Hr, Hp. }
  split; [done|]. split; [|split].
  - rewrite Hs, <- Hprom. destruct (forbids_promotion o); [|done]. split; [|done]. intros E. vm_compute in E. discriminate E.
  - rewrite <- Hprom. unfold advance_job_status, next_job_status. destruct (forbids_promotion o); [|done]. split; [|done].
    intros E. vm_compute in E. discriminate E.
  - intros g. destruct (Hget g) as (x & Hx & <-). destruct (row_of r k _ x Hrows Hnd Hx) as (row & Hrow & Hst).
    exists row. split; [exact Hrow|]. rewrite Hst. destruct (Hall x Hx) as [<- _]. unfold status_text.
    destruct (passed x); [done|]. split; [|done]. intros E. vm_compute in E. discriminate E.
Qed.

(** *** Secrets *)

Definition hide_finding (f : SecretScanFinding) : SecretScanFinding :=
  {| file_path := file_path f; line := line f; rule_id := rule_id f; matched_snippet := [] |}.

Definition with_findings (fs : list SecretScanFinding) (r : QualityEvalRequest) : QualityEvalRequest :=
  let gi := gate_inputs r in
  {| tenant_id := tenant_id r; run_id := run_id r; patch_unit_id := patch_unit_id r; worktree_commit := worktree_commit r;
     artifact_base_commit := artifact_base_commit r; approved_base_commit := approved_base_commit r;
     approved_patch_unit_ids := approved_patch_unit_ids r; evaluated_at := evaluated_at r;
     gate_inputs := {| build := build gi; unit_tests := unit_tests gi; integration_tests := integration_tests gi;
       lint := lint gi; typecheck := typecheck gi; schema_contract := schema_contract gi; security := security gi;
       boundary := boundary gi; coverage := coverage gi; secret_scan := fs;
       generated_code_drift := generated_code_drift gi; link_route := link_route gi; crawlability := crawlability gi;
       structured_data := structured_data gi; content_fidelity := content_fidelity gi;
       accessibility := accessibility gi; performance := performance gi; diff := diff gi |};
     report_uri := report_uri r |}.

Lemma secret_scan_hides fs1 fs2 : hide_finding <$> fs1 = hide_finding <$> fs2 -> gate_secret_scan fs1 = gate_secret_scan fs2.
Proof.
  intros Heq. unfold gate_secret_scan.
  assert (map (fun f => redact_secret_snippet (rule_id f) (file_path f) (line f)) fs1 =
          map (fun f => redact_secret_snippet (rule_id f) (file_path f) (line f)) fs2) as ->.
  { assert (forall fs, map (fun f => redact_secret_snippet (rule_id f) (file_path f) (line f)) fs =
      map (fun f => redact_secret_snippet (rule_id f) (file_path f) (line f)) (hide_finding <$> fs)) as Hm
      by (intros fs; induction fs as [|f fs IH]; [done|cbn [map fmap list_fmap hide_finding rule_id file_path line]; by f_equal]).
    rewrite (Hm fs1), (Hm fs2). by rewrite Heq. }
  assert (length fs1 = length fs2) as -> by (rewrite <- (length_fmap hide_finding fs1), Heq; apply length_fmap).
  f_equal. apply bool_decide_ext. by destruct fs1, fs2.
Qed.

(** C28: A matched secret never leaves: two runs whose findings differ in the
    matched text only have the same outcome, in every row, event and record. *)
Theorem secrets_never_leak `{Printable} `{GateContracts} r fs1 fs2 :
  hide_finding <$> fs1 = hide_finding <$> fs2 ->
  run_quality_evaluation (with_findings fs1 r) = run_quality_evaluation (with_findings fs2 r).
Proof.
  intros Heq%secret_scan_hides. unfold run_quality_evaluation.
  assert (_run_all_gates (with_findings fs1 r) = _run_all_gates (with_findings fs2 r)) as ->; [|done].
  unfold _run_all_gates. cbn [with_findings gate_inputs secret_scan]. by rewrite Heq.
Qed.

(** ** Witnesses *)

Module Witness.
#[local] Instance latin_printable : Printable := fun c => (160 <? c)%N && (c <? 256)%N.

(** Models that accept every payload and dump it as it is. *)
#[local] Program Instance plain_contracts : GateContracts :=
  {| verification_result_model p := Some p; gate_result_payload_model p := Some p |}.
Next Obligation. congruence. Qed.

Definition suite_of (failed : Z) : TestOutcome :=
  {| suite := u "unit"; total := 3; tests_passed := 3 - failed; tests_failed := failed; failing_test_names := [] |}.
Definition hundredth : f64 := f64_div (f64_int 1) (f64_int 100).

Definition bundle (covered : Z) (sec : SecurityScanOutcome) (changed : list pystr) (findings : list SecretScanFinding) : GateInputBundle :=
  {| build := {| succeeded := true; command := u "make"; exit_code := 0; log_summary := [] |};
     unit_tests := suite_of 0; integration_tests := suite_of 0;
     lint := {| lint_tool := u "ruff"; violation_count := 0; sample_violations := [] |};
     typecheck := {| typecheck_tool := u "mypy"; error_count := 0; sample_errors := [] |};
     schema_contract := {| valid := true; invalid_contract_ids := [] |}; security := sec;
     boundary := {| boundary_changed_files := changed; approved_scope_globs := [u "src/**"]; out_of_scope_files := [] |};
     coverage := {| changed_lines_total := 10; changed_lines_covered := covered |}; secret_scan := findings;
     generated_code_drift := []; link_route := {| broken_links := []; redirect_errors := [] |};
     crawlability := {| blocked_paths := []; rendering_ok := true |};
     structured_data := {| syntax_errors := []; fabricated_markup_paths := []; visible_content_parity_ok := true |};
     content_fidelity := [{| claim_id := u "c1"; evidence_id := Some (u "e1") |}]; accessibility := [];
     performance := {| metric_name := u "LCP"; baseline_value := f64_int 2; observed_value := f64_int 2;
                       regression_threshold_pct := hundredth |};
     diff := {| diff_changed_files := changed;
                hunks := [{| hunk_file_path := u "src/a"; hunk_id := u "h1"; hunk_patch_unit_id := Some (u "p1") |}] |} |}.

Definition no_findings : SecurityScanOutcome :=
  {| secret_leak_count := 0; injection_finding_count := 0; supply_chain_anomaly_count := 0; security_findings := [] |}.

Definition request (gi : GateInputBundle) : QualityEvalRequest :=
  {| tenant_id := u "t"; run_id := u "r"; patch_unit_id := u "p1"; worktree_commit := u "w"; artifact_base_commit := u "b";
     approved_base_commit := u "b"; approved_patch_unit_ids := {[ u "p1" ]}; evaluated_at := u "2026-01-01T00:00:00Z";
     gate_inputs := gi; report_uri := None |}.

Definition clean : QualityEvalRequest := request (bundle 9 no_findings [u "src/a"] []).

Definition leaked (secret : string) : SecretScanFinding :=
  {| file_path := u "src/a"; line := 3; rule_id := u "aws"; matched_snippet := u secret |}.

(** The gates that stop a request. *)
Definition stopped_by (r : QualityEvalRequest) : option (list GateId) :=
  match _run_all_gates r with
  | Ok k => Some (gate_id <$> filter (fun g => passed g = false) k)
  | Raise _ => None
  end.

Example gate_examples :
  map stopped_by [clean; request (bundle 8 no_findings [u "src/a"] []); request (bundle 10 no_findings [u "deploy/x"] []);
                  request (bundle 10 no_findings [] [leaked "AKIA"])]
  = [Some []; Some [CHANGED_LINE_COVERAGE]; Some [FORBIDDEN_FILE]; Some [SECRET_SCAN]].
Proof. vm_compute. reflexivity. Qed.

(** The prefixes are compared with the path as it is written. *)
Example dotted_path_passes : stopped_by (request (bundle 10 no_findings [u "./deploy/x"; u "src/../docs/specs/y"] [])) = Some [].
Proof. vm_compute. reflexivity. Qed.

(** A negative count, which nothing refuses, hides a leak of the sweep: the gate
    adds the counts up. *)
Example counts_cancel :
  stopped_by (request (bundle 10 {| secret_leak_count := 1; injection_finding_count := -1; supply_chain_anomaly_count := 0;
                                    security_findings := [u "leak"] |} [] [])) = Some [].
Proof. vm_compute. reflexivity. Qed.

Example texts :
  (option_map (map summary) (match _run_all_gates (request (bundle 8 no_findings [u "src/a"] [])) with
                             | Ok k => failures <$> k !! 10 | Raise _ => None end), py_repr (u "it's"))
  = (Some [u "changed-line coverage 80.00% is below the 90.00% blocking threshold (ADR-0017)"], 34%N :: u "it's" ++ [34%N]).
Proof. vm_compute. reflexivity. Qed.

Lemma clean_counts : sensible (gate_inputs clean).
Proof. split; unfold counts_ok, suite_counts; cbn; lia. Qed.

Lemma gates_always_answer_witness : exists k, _run_all_gates clean = Ok k /\ gate_id <$> k ≡ₚ ALL_GATE_IDS.
Proof.
  destruct (gates_always_answer clean clean_counts) as (k & Hk & _ & Hp & _). exists k. split; [exact Hk|exact Hp].
Defined.

Definition promoted (m : result quality_exn QualityEvalOutcome) : bool :=
  match m with Ok o => negb (forbids_promotion o) | Raise _ => false end.

Lemma promotion_exact_witness : criterion clean SECURITY /\ criterion clean DIFF_RATIONALITY.
Proof.
  assert (promoted (run_quality_evaluation clean) = true) as Hp by (vm_compute; reflexivity).
  destruct (run_quality_evaluation clean) as [o|] eqn:E; [|discriminate Hp].
  enough (forall g, criterion clean g) as Hall by (split; apply Hall).
  refine (proj1 (proj1 (promotion_exact clean o clean_counts E)) _).
  destruct (forbids_promotion o) eqn:Ef; [|reflexivity]. unfold promoted in Hp. rewrite Ef in Hp. discriminate Hp.
Defined.

Lemma secrets_never_leak_witness :
  run_quality_evaluation (with_findings [leaked "AKIA0"] clean) = run_quality_evaluation (with_findings [leaked "hunter2"] clean).
Proof. apply secrets_never_leak. reflexivity. Defined.
End Witness.
