(* ===== verification/Qeeg.v ===== *)
(** The question-entity-evidence graph (qeeg/models.py, qeeg/replay.py): the
    read model that a replay of claim and evidence facts builds.

    A state keeps its two dictionaries as tuples of items sorted by key; every
    fold rebuilds the dictionary, changes it and sorts it again.  The keys of a
    dictionary differ, so sorting the items compares keys only. *)

From S2P Require Import Prelude PyStr.

(** ** models.py and errors.py *)

Inductive QeegLinkStatus := QLINKED | QBLOCKED.

#[export] Instance QeegLinkStatus_eq_dec : EqDecision QeegLinkStatus.
Proof. solve_decision. Defined.

Record ClaimFact := {
  cf_tenant_id : pystr; cf_project_id : pystr; cf_claim_id : pystr; cf_entity_id : pystr;
  cf_status : pystr; cf_publishable : bool; cf_blocking_reasons : list pystr;
  cf_supporting_evidence_ids : list pystr
}.

Record EvidenceFact := {
  ef_tenant_id : pystr; ef_project_id : pystr; ef_evidence_id : pystr; ef_claim_id : pystr;
  ef_link_status : QeegLinkStatus
}.

Inductive fact := AClaim (f : ClaimFact) | AnEvidence (f : EvidenceFact).

Record QeegClaimView := {
  qv_claim_id : pystr; qv_entity_id : pystr; qv_status : pystr; qv_publishable : bool;
  qv_blocking_reasons : list pystr; qv_supporting_evidence_ids : list pystr;
  qv_evidence_ids : list pystr
}.

#[export] Instance QeegClaimView_eq_dec : EqDecision QeegClaimView.
Proof. solve_decision. Defined.

Record QeegProjectionState := {
  qs_tenant_id : pystr;
  qs_claims : list (pystr * QeegClaimView);
  qs_entity_claims : list (pystr * list pystr)
}.

Inductive qeeg_exn := CrossTenantProjectionAccessError | UnknownClaimError (claim_id : pystr).

(** ** replay.py *)

(** [dict(items)]: the last item of a key wins. *)
Definition dict_of {A} (items : list (pystr * A)) : gmap pystr A := list_to_map (reverse items).

(** [tuple(sorted(d.items()))] *)
Definition sorted_items {A} (d : gmap pystr A) : list (pystr * A) := sort_by fst (map_to_list d).

Definition _claims_dict (state : QeegProjectionState) : gmap pystr QeegClaimView := dict_of (qs_claims state).
Definition _entity_claims_dict (state : QeegProjectionState) : gmap pystr (list pystr) :=
  dict_of (qs_entity_claims state).

Definition _guard_tenant (state : QeegProjectionState) (fact_tenant_id : pystr) : result qeeg_exn unit :=
  raise_if (negb (bool_decide (qs_tenant_id state = fact_tenant_id))) CrossTenantProjectionAccessError.

(** The view of a claim fact that is linked to these evidence ids. *)
Definition view_of (f : ClaimFact) (evidence_ids : list pystr) : QeegClaimView := {|
  qv_claim_id := cf_claim_id f; qv_entity_id := cf_entity_id f; qv_status := cf_status f;
  qv_publishable := cf_publishable f; qv_blocking_reasons := cf_blocking_reasons f;
  qv_supporting_evidence_ids := cf_supporting_evidence_ids f; qv_evidence_ids := evidence_ids
|}.

(** The entity index without the claim under its old entity, when that changes. *)
Definition unindex (old_entity_id : option pystr) (f : ClaimFact) (index : gmap pystr (list pystr)) : gmap pystr (list pystr) :=
  match old_entity_id with
  | Some old =>
      if decide (old = cf_entity_id f) then index
      else
        let old_list := default [] (index !! old) in
        if decide (cf_claim_id f ∈ old_list)
        then <[old := filter (fun c => c <> cf_claim_id f) old_list]> index
        else index
  | None => index
  end.

Definition reindex (f : ClaimFact) (index : gmap pystr (list pystr)) : gmap pystr (list pystr) :=
  let current_list := default [] (index !! cf_entity_id f) in
  if decide (cf_claim_id f ∈ current_list) then index
  else <[cf_entity_id f := current_list ++ [cf_claim_id f]]> index.

Definition apply_claim_fact (state : QeegProjectionState) (f : ClaimFact) : result qeeg_exn QeegProjectionState :=
  _ ← _guard_tenant state (cf_tenant_id f);
  let claims := _claims_dict state in
  let existing := claims !! cf_claim_id f in
  let new_view := view_of f (match existing with Some v => qv_evidence_ids v | None => [] end) in
  let entity_claims := _entity_claims_dict state in
  let old_entity_id := qv_entity_id <$> existing in
  if bool_decide (existing = Some new_view) && bool_decide (old_entity_id = Some (cf_entity_id f)) then Ok state
  else
    let claims := <[cf_claim_id f := new_view]> claims in
    let entity_claims := reindex f (unindex old_entity_id f entity_claims) in
    Ok {| qs_tenant_id := qs_tenant_id state; qs_claims := sorted_items claims;
          qs_entity_claims := sorted_items entity_claims |}.

Definition link_evidence (v : QeegClaimView) (evidence_id : pystr) : QeegClaimView := {|
  qv_claim_id := qv_claim_id v; qv_entity_id := qv_entity_id v; qv_status := qv_status v;
  qv_publishable := qv_publishable v; qv_blocking_reasons := qv_blocking_reasons v;
  qv_supporting_evidence_ids := qv_supporting_evidence_ids v;
  qv_evidence_ids := qv_evidence_ids v ++ [evidence_id]
|}.

Definition apply_evidence_fact (state : QeegProjectionState) (f : EvidenceFact) : result qeeg_exn QeegProjectionState :=
  _ ← _guard_tenant state (ef_tenant_id f);
  let claims := _claims_dict state in
  match claims !! ef_claim_id f with
  | None => Raise (UnknownClaimError (ef_claim_id f))
  | Some claim_view =>
      if decide (ef_evidence_id f ∈ qv_evidence_ids claim_view) then Ok state
      else
        let claims := <[ef_claim_id f := link_evidence claim_view (ef_evidence_id f)]> claims in
        Ok {| qs_tenant_id := qs_tenant_id state; qs_claims := sorted_items claims;
              qs_entity_claims := qs_entity_claims state |}
  end.

Definition empty_projection (tenant_id : pystr) : QeegProjectionState :=
  {| qs_tenant_id := tenant_id; qs_claims := []; qs_entity_claims := [] |}.

Definition apply_fact (state : QeegProjectionState) (f : fact) : result qeeg_exn QeegProjectionState :=
  match f with AClaim f => apply_claim_fact state f | AnEvidence f => apply_evidence_fact state f end.

Definition replay_from (state : QeegProjectionState) (facts : list fact) : result qeeg_exn QeegProjectionState :=
  fold_left (fun s f => state ← s; apply_fact state f) facts (Ok state).

Definition replay (tenant_id : pystr) (facts : list fact) : result qeeg_exn QeegProjectionState :=
  replay_from (empty_projection tenant_id) facts.

Definition claims_by_entity (state : QeegProjectionState) (entity_id : pystr) : list QeegClaimView :=
  omap (fun c => _claims_dict state !! c) (default [] (_entity_claims_dict state !! entity_id)).

Definition publishability_of (state : QeegProjectionState) (claim_id : pystr) : result qeeg_exn QeegClaimView :=
  match _claims_dict state !! claim_id with Some v => Ok v | None => Raise (UnknownClaimError claim_id) end.

Definition evidence_by_claim (state : QeegProjectionState) (claim_id : pystr) : result qeeg_exn (list pystr) :=
  match _claims_dict state !! claim_id with
  | Some v => Ok (qv_evidence_ids v)
  | None => Raise (UnknownClaimError claim_id)
  end.

(** ** Dictionaries *)

Lemma sorted_items_keys {A} (d : gmap pystr A) : NoDup (sorted_items d).*1.
Proof. unfold sorted_items. rewrite sort_by_Permutation. apply NoDup_fst_map_to_list. Qed.

Lemma dict_of_sorted {A} (d : gmap pystr A) : dict_of (sorted_items d) = d.
Proof.
  unfold dict_of. rewrite (list_to_map_proper _ (map_to_list d)), list_to_map_to_list; [done| |].
  - rewrite reverse_Permutation. apply sorted_items_keys.
  - rewrite reverse_Permutation. apply sort_by_Permutation.
Qed.

(** ** What a replay builds *)

Section spec.
Implicit Types F : list fact.

(** The facts of a claim, and the evidence linked to it. *)
Definition claim_facts (c : pystr) F : list ClaimFact :=
  omap (fun f => match f with AClaim f => if decide (cf_claim_id f = c) then Some f else None | _ => None end) F.
Definition evidence_facts (c : pystr) F : list EvidenceFact :=
  omap (fun f => match f with AnEvidence f => if decide (ef_claim_id f = c) then Some f else None | _ => None end) F.

Definition add_new (ids : list pystr) (i : pystr) : list pystr := if decide (i ∈ ids) then ids else ids ++ [i].

(** The ids in the order of their first occurrence. *)
Definition first_occurrences (ids : list pystr) : list pystr := fold_left add_new ids [].

Definition linked (c : pystr) F : list pystr := first_occurrences (ef_evidence_id <$> evidence_facts c F).
Definition latest (c : pystr) F : option ClaimFact := last (claim_facts c F).
Definition spec_view (c : pystr) F : option QeegClaimView := (fun f => view_of f (linked c F)) <$> latest c F.

Definition fact_tenant (f : fact) : pystr := match f with AClaim f => cf_tenant_id f | AnEvidence f => ef_tenant_id f end.

(** What the replay answers to a fact after a history, if it refuses it. *)
Definition refusal (t : pystr) F (f : fact) : option qeeg_exn :=
  if decide (t = fact_tenant f)
  then match f with
       | AClaim _ => None
       | AnEvidence f => match latest (ef_claim_id f) F with
                         | Some _ => None
                         | None => Some (UnknownClaimError (ef_claim_id f))
                         end
       end
  else Some CrossTenantProjectionAccessError.

Definition well_formed (t : pystr) F : Prop := forall i f, F !! i = Some f -> refusal t (take i F) f = None.

Record represents (t : pystr) F (s : QeegProjectionState) : Prop := {
  rep_tenant : qs_tenant_id s = t;
  rep_views : exists m, qs_claims s = sorted_items m /\ forall c, m !! c = spec_view c F;
  rep_unlinked : forall c, latest c F = None -> linked c F = [];
  rep_index : exists m, qs_entity_claims s = sorted_items m /\ forall e,
    NoDup (default [] (m !! e)) /\ forall c, c ∈ default [] (m !! e) <-> exists f, latest c F = Some f /\ cf_entity_id f = e
}.
End spec.

(** ** The replay represents its history *)

Section replay_lemmas.
Implicit Types (F : list fact) (t c e : pystr).

Lemma claim_facts_snoc c F f : claim_facts c (F ++ [f]) =
  claim_facts c F ++ match f with AClaim f => if decide (cf_claim_id f = c) then [f] else [] | _ => [] end.
Proof. unfold claim_facts. rewrite omap_app. f_equal. destruct f as [f|f]; cbn; [|done]. by case_decide. Qed.

Lemma evidence_facts_snoc c F f : evidence_facts c (F ++ [f]) =
  evidence_facts c F ++ match f with AnEvidence f => if decide (ef_claim_id f = c) then [f] else [] | _ => [] end.
Proof. unfold evidence_facts. rewrite omap_app. f_equal. destruct f as [f|f]; cbn; [done|]. by case_decide. Qed.

Lemma latest_claim c F f : latest c (F ++ [AClaim f]) = if decide (cf_claim_id f = c) then Some f else latest c F.
Proof. unfold latest. rewrite claim_facts_snoc. case_decide; [apply last_snoc|by rewrite app_nil_r]. Qed.

Lemma latest_evidence c F f : latest c (F ++ [AnEvidence f]) = latest c F.
Proof. unfold latest. rewrite claim_facts_snoc. by rewrite app_nil_r. Qed.

Lemma latest_id c F f : latest c F = Some f -> cf_claim_id f = c.
Proof.
  intros Hl%last_Some_elem_of. unfold claim_facts in Hl. apply list_elem_of_omap in Hl as ([x|x] & _ & Hx); [|done].
  case_decide; [by injection Hx as <-|done].
Qed.

Lemma linked_claim c F f : linked c (F ++ [AClaim f]) = linked c F.
Proof. unfold linked. rewrite evidence_facts_snoc. by rewrite app_nil_r. Qed.

Lemma linked_evidence c F f : linked c (F ++ [AnEvidence f]) =
  if decide (ef_claim_id f = c) then add_new (linked c F) (ef_evidence_id f) else linked c F.
Proof.
  unfold linked. rewrite evidence_facts_snoc. case_decide; [|by rewrite app_nil_r].
  unfold first_occurrences. by rewrite fmap_app, fold_left_app.
Qed.

Lemma replay_snoc t F f : replay t (F ++ [f]) = (s ← replay t F; apply_fact s f).
Proof. unfold replay, replay_from. by rewrite fold_left_app. Qed.

Lemma guard_Ok s t : _guard_tenant s t = Ok tt <-> qs_tenant_id s = t.
Proof. unfold _guard_tenant. rewrite raise_if_Ok, negb_false_iff, bool_decide_eq_true. naive_solver. Qed.

Lemma guard_Raise s t : qs_tenant_id s <> t -> _guard_tenant s t = Raise CrossTenantProjectionAccessError.
Proof. intros Hne. unfold _guard_tenant. by rewrite bool_decide_false. Qed.

(** Moving a claim to its entity keeps the index exact: [ent] is the entity of
    each claim before, [f] the fact. *)
Lemma moved_index (f : ClaimFact) (ent : pystr -> option pystr) (index : gmap pystr (list pystr)) :
  (forall e, NoDup (default [] (index !! e)) /\ forall c, c ∈ default [] (index !! e) <-> ent c = Some e) ->
  let index' := reindex f (unindex (ent (cf_claim_id f)) f index) in
  forall e, NoDup (default [] (index' !! e)) /\
    forall c, c ∈ default [] (index' !! e) <-> (if decide (cf_claim_id f = c) then Some (cf_entity_id f) else ent c) = Some e.
Proof.
  intros Hi. set (i := cf_claim_id f). set (n := cf_entity_id f).
  assert (forall e, NoDup (default [] (unindex (ent i) f index !! e)) /\
    forall c, c ∈ default [] (unindex (ent i) f index !! e) <-> ent c = Some e /\ (c = i -> e = n)) as Hu.
  { intros e. destruct (Hi e) as [Hnd Hin]. unfold unindex. fold i n.
    destruct (ent i) as [old|] eqn:Eo; [|split; [done|]; intros c; rewrite Hin; naive_solver].
    destruct (decide (old = n)) as [->|Hne]; [split; [done|]; intros c; rewrite Hin; naive_solver|].
    destruct (decide (i ∈ default [] (index !! old))) as [_|Hno]; [|by destruct Hno; apply Hi].
    destruct (decide (e = old)) as [->|He].
    - rewrite lookup_insert_eq. cbn [from_option id]. split; [by apply NoDup_filter|].
      intros c. rewrite list_elem_of_filter, Hin. naive_solver.
    - rewrite lookup_insert_ne by done. split; [done|]. intros c. rewrite Hin. split; [|naive_solver].
      intros Hc. split; [done|]. intros ->. congruence. }
  clear Hi. set (ix := unindex (ent i) f index) in *. clearbody ix. intros index' e. subst index'. destruct (Hu e) as [Hnd Hin].
  unfold reindex. fold i n. destruct (decide (i ∈ default [] (ix !! n))) as [Hold|Hnew].
  - split; [done|]. intros c. rewrite Hin. apply Hu in Hold as [Hold _]. destruct (decide (i = c)) as [<-|Hc]; [|naive_solver].
    split; [|intros [= <-]; done]. intros [_ ->]; done.
  - destruct (decide (e = n)) as [->|He].
    + rewrite lookup_insert_eq. cbn [from_option id]. split.
      * apply NoDup_app. split; [done|]. split; [|apply NoDup_singleton]. intros x Hx ->%list_elem_of_singleton. done.
      * intros c. rewrite elem_of_app, list_elem_of_singleton, Hin. destruct (decide (i = c)) as [<-|Hc]; naive_solver.
    + rewrite lookup_insert_ne by done. split; [done|]. intros c. rewrite Hin.
      destruct (decide (i = c)) as [<-|Hc]; naive_solver.
Qed.

Lemma represents_empty t : represents t [] (empty_projection t).
Proof.
  split; [done| |done|].
  - exists ∅. split; [done|]. intros c. apply lookup_empty.
  - exists ∅. split; [done|]. intros e. rewrite lookup_empty. split; [constructor|]. intros c. cbn. split; [by intros ?%elem_of_nil|naive_solver].
Qed.

Lemma spec_view_claim c F f : spec_view c (F ++ [AClaim f]) =
  if decide (cf_claim_id f = c) then Some (view_of f (linked c F)) else spec_view c F.
Proof. unfold spec_view. rewrite latest_claim, linked_claim. by case_decide. Qed.

Lemma represents_claim t F s f : represents t F s -> t = cf_tenant_id f ->
  exists s', apply_claim_fact s f = Ok s' /\ represents t (F ++ [AClaim f]) s'.
Proof.
  intros [Ht (m & Hm & Hv) Hu (ix & Hix & Hi)] Hf.
  assert (_guard_tenant s (cf_tenant_id f) = Ok tt) as Hg by (apply guard_Ok; congruence).
  assert (Hunl : forall c, latest c (F ++ [AClaim f]) = None -> linked c (F ++ [AClaim f]) = []).
  { intros c. rewrite latest_claim, linked_claim. case_decide; [done|apply Hu]. }
  unfold apply_claim_fact. rewrite Hg. cbn [mbind result_bind]. unfold _claims_dict, _entity_claims_dict.
  rewrite Hm, Hix, !dict_of_sorted, Hv. set (i := cf_claim_id f).
  assert (match spec_view i F with Some v => qv_evidence_ids v | None => [] end = linked i F) as ->.
  { unfold spec_view. specialize (Hu i). destruct (latest i F); [done|]. symmetry. auto. }
  assert (qv_entity_id <$> spec_view i F = cf_entity_id <$> latest i F) as -> by (unfold spec_view; by destruct (latest i F)).
  destruct (_ && _) eqn:Eno; eexists; (split; [done|]).
  - apply andb_true_iff in Eno as [Es%bool_decide_eq_true Ee%bool_decide_eq_true]. split; [done| |done|].
    + exists m. split; [done|]. intros c. rewrite spec_view_claim, Hv. case_decide as Hc; [|done]. subst i. by rewrite <- Hc.
    + exists ix. split; [done|]. intros e. destruct (Hi e) as [Hnd Hin]. split; [done|]. intros c. rewrite Hin, latest_claim.
      case_decide as Hc; [|done]. subst i. rewrite <- Hc. destruct (latest (cf_claim_id f) F) as [g|]; [|done]. injection Ee as Ee.
      split; [intros (g' & [= <-] & <-); eauto|intros (g' & [= <-] & <-); eauto].
  - split; cbn [qs_tenant_id qs_claims qs_entity_claims]; [done| |done|].
    + eexists. split; [done|]. intros c. rewrite spec_view_claim. destruct (decide (cf_claim_id f = c)) as [<-|Hc].
      * by rewrite lookup_insert_eq.
      * by rewrite lookup_insert_ne, Hv.
    + eexists. split; [done|].
      subst i. intros e. destruct (moved_index f (fun c => cf_entity_id <$> latest c F) ix) with (e := e) as [Hnd Hin].
      { intros e'. destruct (Hi e') as [Hnd Hin]. split; [done|]. intros c. rewrite Hin, fmap_Some. naive_solver. }
      split; [done|]. intros c. rewrite Hin, latest_claim.
      destruct (decide (cf_claim_id f = c)); [|rewrite fmap_Some; naive_solver]. naive_solver.
Qed.

Lemma represents_evidence t F s f : represents t F s -> t = ef_tenant_id f -> latest (ef_claim_id f) F <> None ->
  exists s', apply_evidence_fact s f = Ok s' /\ represents t (F ++ [AnEvidence f]) s'.
Proof.
  intros [Ht (m & Hm & Hv) Hu (ix & Hix & Hi)] Hf Hl.
  assert (_guard_tenant s (ef_tenant_id f) = Ok tt) as Hg by (apply guard_Ok; congruence).
  assert (Hunl : forall c, latest c (F ++ [AnEvidence f]) = None -> linked c (F ++ [AnEvidence f]) = []).
  { intros c. rewrite latest_evidence, linked_evidence. case_decide as Hc; [by subst c|apply Hu]. }
  assert (Hidx : exists m, qs_entity_claims s = sorted_items m /\ forall e, NoDup (default [] (m !! e)) /\
    forall c, c ∈ default [] (m !! e) <-> exists g, latest c (F ++ [AnEvidence f]) = Some g /\ cf_entity_id g = e).
  { exists ix. split; [done|]. intros e. destruct (Hi e) as [Hnd Hin]. split; [done|]. intros c. by rewrite Hin, latest_evidence. }
  assert (Hsv : forall c, spec_view c (F ++ [AnEvidence f]) =
    (fun g => view_of g (if decide (ef_claim_id f = c) then add_new (linked c F) (ef_evidence_id f) else linked c F)) <$> latest c F).
  { intros c. unfold spec_view. rewrite latest_evidence. destruct (latest c F); cbn; [|done]. by rewrite linked_evidence. }
  unfold apply_evidence_fact. rewrite Hg. cbn [mbind result_bind]. unfold _claims_dict.
  rewrite Hm, !dict_of_sorted, Hv. unfold spec_view at 1. set (i := ef_claim_id f) in *.
  destruct (latest i F) as [g|] eqn:El; [|done]. cbn [fmap option_fmap option_map].
  change (qv_evidence_ids (view_of g (linked i F))) with (linked i F).
  destruct (decide (ef_evidence_id f ∈ linked i F)) as [Hold|Hnew]; eexists; (split; [done|]);
    (split; cbn [qs_tenant_id qs_claims qs_entity_claims]; [done| |done|done]).
  - exists m. split; [done|]. intros c. rewrite Hsv, Hv. unfold spec_view, add_new.
    destruct (decide (i = c)) as [<-|]; [|done]. by rewrite decide_True.
  - eexists. split; [done|]. intros c. rewrite Hsv. destruct (decide (i = c)) as [<-|Hc].
    + rewrite lookup_insert_eq, El. unfold add_new. by rewrite decide_False.
    + by rewrite lookup_insert_ne, Hv.
Qed.

Lemma represents_snoc t F s f : represents t F s ->
  match refusal t F f with
  | None => exists s', apply_fact s f = Ok s' /\ represents t (F ++ [f]) s'
  | Some x => apply_fact s f = Raise x
  end.
Proof.
  intros Hr. unfold refusal. destruct (decide (t = fact_tenant f)) as [Ht|Ht].
  - destruct f as [f|f]; cbn [fact_tenant apply_fact] in *; [by apply represents_claim|].
    destruct (latest (ef_claim_id f) F) eqn:El; [apply represents_evidence; congruence|].
    destruct Hr as [Hq (m & Hm & Hv) _ _]. unfold apply_evidence_fact. rewrite (proj2 (guard_Ok s _)) by congruence.
    cbn [mbind result_bind]. unfold _claims_dict. rewrite Hm, dict_of_sorted, Hv. unfold spec_view. by rewrite El.
  - destruct Hr as [Hq _ _ _]. destruct f as [f|f]; cbn [fact_tenant apply_fact] in *;
      unfold apply_claim_fact, apply_evidence_fact; by rewrite guard_Raise by congruence.
Qed.

Lemma well_formed_snoc t F f : well_formed t (F ++ [f]) <-> well_formed t F /\ refusal t F f = None.
Proof.
  split.
  - intros Hw. split.
    + intros i g Hi. pose proof (lookup_lt_Some _ _ _ Hi). rewrite <- (take_app_le F [f] i) by lia. apply Hw. by apply lookup_app_l_Some.
    + rewrite <- (take_app_length F [f]). apply Hw. by rewrite lookup_app_r, Nat.sub_diag.
  - intros [Hw Hf] i g Hi. apply lookup_app_Some in Hi as [Hi|[Hle Hi]].
    + pose proof (lookup_lt_Some _ _ _ Hi). rewrite take_app_le by lia. by apply Hw.
    + apply list_lookup_singleton_Some in Hi as [Hz <-]. assert (i = length F) as -> by lia. by rewrite take_app_length.
Qed.

Lemma replay_cases t F :
  (well_formed t F /\ exists s, replay t F = Ok s /\ represents t F s) \/
  (exists F1 f F2 x, F = F1 ++ f :: F2 /\ well_formed t F1 /\ refusal t F1 f = Some x /\ replay t F = Raise x).
Proof.
  induction F as [|f F IH] using rev_ind.
  - left. split; [by intros i f ?|]. eexists. split; [done|apply represents_empty].
  - rewrite replay_snoc. destruct IH as [(Hw & s & Hs & Hr)|(F1 & g & F2 & x & -> & Hw & Hx & Hs)].
    + rewrite Hs. cbn [mbind result_bind]. pose proof (represents_snoc t F s f Hr) as Hf.
      destruct (refusal t F f) as [x|] eqn:Ex; [right; by exists F, f, [], x|].
      left. split; [by apply well_formed_snoc|exact Hf].
    + right. rewrite Hs. exists F1, g, (F2 ++ [f]), x. by rewrite <- app_assoc.
Qed.
End replay_lemmas.

(** ** Queries of a represented state *)

Section queries.
Context (t : pystr) (F : list fact) (s : QeegProjectionState) (Hs : represents t F s).

Lemma claims_dict_view c : _claims_dict s !! c = spec_view c F.
Proof. destruct Hs as [_ (m & Hm & Hv) _ _]. unfold _claims_dict. by rewrite Hm, dict_of_sorted. Qed.

Lemma spec_view_id c v : spec_view c F = Some v -> qv_claim_id v = c.
Proof. unfold spec_view. intros (f & Hl & ->)%fmap_Some. by apply latest_id in Hl. Qed.

Lemma publishability_view c :
  publishability_of s c = match spec_view c F with Some v => Ok v | None => Raise (UnknownClaimError c) end.
Proof. unfold publishability_of. by rewrite claims_dict_view. Qed.

Lemma evidence_view c :
  evidence_by_claim s c = match spec_view c F with Some v => Ok (linked c F) | None => Raise (UnknownClaimError c) end.
Proof. unfold evidence_by_claim. rewrite claims_dict_view. unfold spec_view. by destruct (latest c F). Qed.

Lemma entity_view e :
  NoDup (qv_claim_id <$> claims_by_entity s e) /\
  forall v, v ∈ claims_by_entity s e <-> spec_view (qv_claim_id v) F = Some v /\ qv_entity_id v = e.
Proof.
  pose proof claims_dict_view as Hv. destruct Hs as [_ _ _ (ix & Hix & Hi)]. destruct (Hi e) as [Hnd Hin].
  unfold claims_by_entity, _entity_claims_dict. rewrite Hix, dict_of_sorted. set (ids := default [] (ix !! e)) in *.
  assert (qv_claim_id <$> omap (fun c => _claims_dict s !! c) ids = ids) as Hids.
  { assert (forall c, c ∈ ids -> exists v, spec_view c F = Some v) as Hall.
    { intros c (f & Hf & _)%Hin. unfold spec_view. rewrite Hf. by eexists. }
    clear Hnd Hin. clearbody ids. induction ids as [|c ids IH]; [done|]. cbn.
    destruct (Hall c) as [v Hc]; [by left|]. rewrite Hv, Hc. cbn. rewrite (spec_view_id _ _ Hc). f_equal.
    apply IH. intros x Hx. apply Hall. by right. }
  split; [by rewrite Hids|]. intros v. rewrite list_elem_of_omap. split.
  - intros (c & Hc & Hcv). rewrite Hv in Hcv. pose proof (spec_view_id _ _ Hcv) as <-. split; [done|].
    apply Hin in Hc as (f & Hf & <-). unfold spec_view in Hcv. rewrite Hf in Hcv. by injection Hcv as <-.
  - intros [Hc He]. exists (qv_claim_id v). rewrite Hv. split; [|done]. apply Hin. unfold spec_view in Hc.
    apply fmap_Some in Hc as (f & Hf & Hvf). exists f. split; [done|]. rewrite <- He. by rewrite Hvf.
Qed.
End queries.

(** ** Theorems *)

(** A replay builds exactly the view of its history, or names what it
    refuses.  When it answers, every claim is seen with the content of its last
    fact and the ids of its evidence in first-linked order, and an entity lists
    exactly the claims whose last fact names it, each once.  Otherwise the
    answer is that of the first fact of another tenant or of the first evidence
    without a claim. *)
Theorem replay_exact t F :
  match replay t F with
  | Ok s =>
      well_formed t F /\
      (forall c, publishability_of s c = match spec_view c F with Some v => Ok v | None => Raise (UnknownClaimError c) end) /\
      (forall c, evidence_by_claim s c = match spec_view c F with Some _ => Ok (linked c F) | None => Raise (UnknownClaimError c) end) /\
      (forall e, NoDup (qv_claim_id <$> claims_by_entity s e) /\
         forall v, v ∈ claims_by_entity s e <-> spec_view (qv_claim_id v) F = Some v /\ qv_entity_id v = e)
  | Raise x => exists F1 f F2, F = F1 ++ f :: F2 /\ well_formed t F1 /\ refusal t F1 f = Some x
  end.
Proof.
  destruct (replay_cases t F) as [(Hw & s & -> & Hr)|(F1 & f & F2 & x & -> & Hw & Hx & ->)]; [|by exists F1, f, F2].
  split; [done|]. split; [intros c; by apply (publishability_view t)|]. split; [intros c; by apply (evidence_view t)|].
  intros e. by apply (entity_view t F).
Qed.

(** A fact that is delivered twice changes nothing. *)
Theorem replay_idempotent t F f : replay t (F ++ [f; f]) = replay t (F ++ [f]).
Proof.
  change [f; f] with ([f] ++ [f]). rewrite app_assoc, replay_snoc.
  destruct (replay_cases t (F ++ [f])) as [(Hw & s & Hs & Hr)|(F1 & g & F2 & x & _ & _ & _ & Hs)]; rewrite Hs; [|done].
  cbn [mbind result_bind]. apply well_formed_snoc in Hw as [_ Hf]. pose proof (claims_dict_view _ _ _ Hr) as Hv.
  unfold refusal in Hf. destruct (decide (t = fact_tenant f)) as [Ht|]; [|done]. destruct f as [f|f]; cbn [apply_fact fact_tenant] in *.
  - unfold apply_claim_fact. rewrite (proj2 (guard_Ok s _)) by (by rewrite (rep_tenant _ _ _ Hr)). cbn [mbind result_bind].
    rewrite Hv, spec_view_claim, decide_True by done. by rewrite !bool_decide_true.
  - unfold apply_evidence_fact. rewrite (proj2 (guard_Ok s _)) by (by rewrite (rep_tenant _ _ _ Hr)). cbn [mbind result_bind].
    rewrite Hv. unfold spec_view. rewrite latest_evidence. destruct (latest (ef_claim_id f) F) as [g|]; [|done].
    cbn [fmap option_fmap option_map]. change (qv_evidence_ids (view_of g ?l)) with l.
    assert (linked (ef_claim_id f) (F ++ [AnEvidence f]) = add_new (linked (ef_claim_id f) F) (ef_evidence_id f)) as ->
      by (by rewrite linked_evidence, decide_True).
    rewrite decide_True; [done|]. unfold add_new. case_decide; [done|]. apply elem_of_app. right. by apply list_elem_of_singleton.
Qed.

Module Witness.
Definition claim (c e : string) (p : bool) : fact :=
  AClaim {| cf_tenant_id := u "acme"; cf_project_id := u "p"; cf_claim_id := u c; cf_entity_id := u e;
            cf_status := u "active"; cf_publishable := p; cf_blocking_reasons := []; cf_supporting_evidence_ids := [] |}.
Definition evidence (t i c : string) : fact :=
  AnEvidence {| ef_tenant_id := u t; ef_project_id := u "p"; ef_evidence_id := u i; ef_claim_id := u c; ef_link_status := QBLOCKED |}.

(** A claim that moves to another entity is listed there only. *)
Example moved_claim :
  (fun s => (qv_claim_id <$> claims_by_entity s (u "e1"), qv_claim_id <$> claims_by_entity s (u "e2"), evidence_by_claim s (u "c1")))
    <$> replay (u "acme") [claim "c1" "e1" false; claim "c2" "e1" false; evidence "acme" "x" "c1"; claim "c1" "e2" true]
  = Ok ([u "c2"], [u "c1"], Ok [u "x"]).
Proof. vm_compute. reflexivity. Qed.

Example other_tenant : replay (u "acme") [claim "c1" "e1" false; evidence "rival" "x" "c1"] = Raise CrossTenantProjectionAccessError.
Proof. vm_compute. reflexivity. Qed.

Example dangling_evidence : replay (u "acme") [evidence "acme" "x" "c9"] = Raise (UnknownClaimError (u "c9")).
Proof. vm_compute. reflexivity. Qed.
End Witness.
