(* ===== verification/RunnerGuards.v ===== *)
(** The guards of the agent runner (errors.py, contract.py, approval.py,
    scope.py, commands.py of agent-runner-service): who approved what, which
    paths a patch unit may write, which commands it may run.

    The generated models of a contract and of an approval are records of the
    fields that are read.  An exception is its class and its text. *)

From S2P Require Import Prelude PyStr PyRepr Glob.

(** ** errors.py *)

Inductive agent_class :=
  | AgentRunnerError | ApprovalContractHashMismatchError | ApprovalIdentityMismatchError | ApprovalRejectedError
  | PatchUnitNotApprovedError | OutOfScopeWriteError | ProtectedPathWriteError | PathTraversalError | DiffBudgetExceededError
  | CommandNotAllowlistedError | ForbiddenCommandError | CrossTenantWorktreeError | BaseCommitMismatchError
  | JobTimedOutError | JobCancelledError | ContractValidationError.

#[export] Instance agent_class_eq_dec : EqDecision agent_class.
Proof. solve_decision. Defined.

(** The last segment of the [error_code]; the prefix is common. *)
Definition agent_reason (c : agent_class) : pystr :=
  u match c with
    | AgentRunnerError => "error"
    | ApprovalContractHashMismatchError => "approval_contract_hash_mismatch"
    | ApprovalIdentityMismatchError => "approval_identity_mismatch"
    | ApprovalRejectedError => "approval_rejected"
    | PatchUnitNotApprovedError => "patch_unit_not_approved"
    | OutOfScopeWriteError => "out_of_scope_write"
    | ProtectedPathWriteError => "protected_path_write"
    | PathTraversalError => "path_traversal"
    | DiffBudgetExceededError => "diff_budget_exceeded"
    | CommandNotAllowlistedError => "command_not_allowlisted"
    | ForbiddenCommandError => "forbidden_command"
    | CrossTenantWorktreeError => "cross_tenant_worktree"
    | BaseCommitMismatchError => "base_commit_mismatch"
    | JobTimedOutError => "job_timed_out"
    | JobCancelledError => "job_cancelled"
    | ContractValidationError => "contract_invalid"
    end.

Definition agent_error_code (c : agent_class) : pystr := u "saena.agent_runner." ++ agent_reason c.

(** Whether [c] is a subclass of [ApprovalRequiredError]. *)
Definition approval_required (c : agent_class) : bool :=
  match c with ApprovalContractHashMismatchError | ApprovalIdentityMismatchError | ApprovalRejectedError => true | _ => false end.

Definition agent_retryable (c : agent_class) : bool :=
  match c with JobTimedOutError | JobCancelledError => true | _ => false end.

Record AgentError := { ae_class : agent_class; ae_text : pystr }.

Definition agent_error (c : agent_class) (text : pystr) : AgentError := {| ae_class := c; ae_text := text |}.

(** ** contract.py *)

Record PatchUnit := {
  pu_id : pystr; pu_files : list pystr; pu_allowed_transformations : list pystr; pu_tests : list pystr; pu_rollback : pystr
}.
Record Hypothesis_ := { hy_evidence_ids : list pystr }.
Record ChangeplanActionContract := {
  cc_repo_commit : pystr; cc_approved_scope : list pystr; cc_patch_units : list PatchUnit; cc_max_files : Z; cc_max_lines : Z;
  cc_hypotheses : list Hypothesis_
}.

Section guards.
Context `{Printable}.

Definition get_patch_unit (contract : ChangeplanActionContract) (patch_unit_id : pystr) : result AgentError PatchUnit :=
  match find (fun unit_ => bool_decide (pu_id unit_ = patch_unit_id)) (cc_patch_units contract) with
  | Some unit_ => Ok unit_
  | None => Raise (agent_error PatchUnitNotApprovedError
      (u "patch_unit_id " ++ py_repr patch_unit_id ++ u " is not a member of this ChangePlan's patch_units " ++
       [8212%N] ++ u " refusing to execute a unit the contract never named"))
  end.

(** ** approval.py *)

Inductive Decision := approved | rejected.

#[export] Instance Decision_eq_dec : EqDecision Decision.
Proof. solve_decision. Defined.

Record PatchUnitDecision := { pd_patch_unit_id : pystr; pd_decision : Decision }.
Record ApprovalDecision := {
  ap_contract_hash : pystr; ap_tenant_id : pystr; ap_run_id : pystr; ap_decision : Decision;
  ap_patch_unit_decisions : list PatchUnitDecision
}.

(** The approved ids. *)
Definition verify_approval (approval : ApprovalDecision) (expected_contract_hash expected_tenant_id expected_run_id : pystr)
    : result AgentError (list pystr) :=
  _ ← raise_if (bool_decide (ap_contract_hash approval <> expected_contract_hash))
        (agent_error ApprovalContractHashMismatchError
          (u "ApprovalDecision.contract_hash does not match the contract being executed " ++ [8212%N] ++
           u " refusing execution (unapproved/forged/mismatched contract_hash, ADR-0003)"));
  _ ← raise_if (bool_decide (ap_tenant_id approval <> expected_tenant_id \/ ap_run_id approval <> expected_run_id))
        (agent_error ApprovalIdentityMismatchError
          (u "ApprovalDecision.tenant_id/run_id does not match the executing JobContext " ++ [8212%N] ++
           u " refusing a replayed/cross-run approval instance"));
  _ ← raise_if (bool_decide (ap_decision approval <> approved))
        (agent_error ApprovalRejectedError
          (u "ApprovalDecision.decision is " ++ py_repr (u "rejected") ++ u ", not 'approved' " ++ [8212%N] ++ u " refusing execution"));
  Ok (pd_patch_unit_id <$> filter (fun d => pd_decision d = approved) (ap_patch_unit_decisions approval)).

(** ** scope.py *)

Definition PROTECTED_PATH_PREFIXES : list pystr :=
  u <$> [".cursor/rules/"; "docs/specs/"; "packages/contracts/"; "packages/schemas/"; "events/"; "workflows/"; "deploy/";
         ".claude/settings"; ".git/"; ".github/"]%string.

(** [PurePosixPath(p).parts] of a relative path. *)
Definition path_parts (p : pystr) : list pystr := filter (fun x => x <> [] /\ x <> u ".") (split_at (N.eqb 47) p).
Definition as_posix (parts : list pystr) : pystr := match parts with [] => u "." | _ => join (u "/") parts end.

Definition _normalize_relative (relative_path : pystr) : result AgentError pystr :=
  _ ← raise_if (bool_decide (relative_path = []))
        (agent_error PathTraversalError (u "empty relative_path is not a valid write target"));
  _ ← raise_if (startswith (u "/") relative_path)
        (agent_error PathTraversalError
          (u "relative_path " ++ py_repr relative_path ++ u " is absolute " ++ [8212%N] ++ u " not permitted"));
  _ ← raise_if (existsb (fun part => bool_decide (part = u "..")) (path_parts relative_path))
        (agent_error PathTraversalError (u "relative_path " ++ py_repr relative_path ++ u " contains a '..' traversal segment"));
  Ok (as_posix (path_parts relative_path)).

Fixpoint drop_slashes (p : pystr) : pystr := match p with c :: q => if (c =? 47)%N then drop_slashes q else p | [] => [] end.
Definition rstrip_slash (p : pystr) : pystr := reverse (drop_slashes (reverse p)).

Definition under_prefix (normalized prefix : pystr) : bool :=
  bool_decide (normalized = rstrip_slash prefix) || startswith prefix normalized.

Definition guard_protected_path (relative_path : pystr) : result AgentError unit :=
  normalized ← _normalize_relative relative_path;
  match find (under_prefix normalized) PROTECTED_PATH_PREFIXES with
  | None => Ok tt
  | Some prefix => Raise (agent_error ProtectedPathWriteError
      (py_repr relative_path ++ u " falls under the protected path prefix " ++ py_repr prefix ++
       u " (CLAUDE.md Protected paths) " ++ [8212%N] ++ u " denied regardless of approved_scope"))
  end.

Definition is_in_approved_scope (relative_path : pystr) (approved_scope : list pystr) : result AgentError bool :=
  normalized ← _normalize_relative relative_path;
  Ok (existsb (fnmatch normalized) approved_scope).

Definition guard_scope (relative_path : pystr) (patch_unit_files approved_scope : list pystr) : result AgentError unit :=
  normalized ← _normalize_relative relative_path;
  files ← mapM _normalize_relative patch_unit_files;
  _ ← raise_if (bool_decide (normalized ∉ files))
        (agent_error OutOfScopeWriteError
          (py_repr relative_path ++ u " is not declared in this patch unit's own files list " ++ [8212%N] ++ u " refusing write"));
  in_scope ← is_in_approved_scope normalized approved_scope;
  raise_if (negb in_scope)
    (agent_error OutOfScopeWriteError (py_repr relative_path ++ u " is not matched by any approved_scope glob")).
End guards.

(** ** commands.py *)

Definition _ABSOLUTE_DENY_PREFIXES : list (list pystr) :=
  (fun ws : list string => u <$> ws) <$>
  [["git"; "push"]; ["kubectl"]; ["helm"]; ["docker"; "push"]; ["terraform"; "apply"]; ["terraform"; "destroy"]; ["aws"]; ["gcloud"];
   ["az"]; ["gh"; "pr"; "merge"]; ["git"; "remote"]]%string%list.

Definition _ABSOLUTE_DENY_TOKEN_SUBSTRINGS : list pystr :=
  u <$> [".ssh"; "id_rsa"; "id_ed25519"; ".kube/config"; "kubeconfig"; ".env"; "credentials"; ".aws/credentials"; ".netrc"]%string.

Section commands.
Context `{Printable} `{UnicodeDB}.

Definition denied_by_prefix (tokens prefix : list pystr) : bool := bool_decide (take (length prefix) tokens = prefix).

(** The first marker of the first token that has one. *)
Fixpoint denied_marker (tokens : list pystr) : option pystr :=
  match tokens with
  | [] => None
  | token :: tokens =>
      match find (fun marker => contains marker (lower token)) _ABSOLUTE_DENY_TOKEN_SUBSTRINGS with
      | Some marker => Some marker
      | None => denied_marker tokens
      end
  end.

Definition guard_absolute_deny (argv : list pystr) : result AgentError unit :=
  match find (denied_by_prefix argv) _ABSOLUTE_DENY_PREFIXES with
  | Some deny_prefix => Raise (agent_error ForbiddenCommandError
      (u "command " ++ py_repr_list argv ++ u " matches the absolute structural denylist prefix " ++ py_repr_list deny_prefix ++ u " " ++
       [8212%N] ++ u " never permitted regardless of any contract allowlist"))
  | None =>
      match denied_marker argv with
      | Some marker => Raise (agent_error ForbiddenCommandError
          (u "command " ++ py_repr_list argv ++ u " references a credential-shaped path (" ++ py_repr marker ++ u ") " ++ [8212%N] ++
           u " never permitted"))
      | None => Ok tt
      end
  end.

Definition is_allowlisted (argv allowed_transformations : list pystr) : bool :=
  let command_str := join (u " ") argv in
  existsb (fun allowed => bool_decide (command_str = allowed) || startswith (allowed ++ u " ") command_str) allowed_transformations.

Definition guard_command (argv allowed_transformations : list pystr) : result AgentError unit :=
  _ ← guard_absolute_deny argv;
  raise_if (negb (is_allowlisted argv allowed_transformations))
    (agent_error CommandNotAllowlistedError
      (u "command " ++ py_repr_list argv ++ u " is not present in this patch unit's own allowed_transformations " ++ [8212%N] ++
       u " default DENY")).
End commands.

(** ** Lemmas: paths *)

Section paths.
Context `{Printable}.

Definition clean_part (x : pystr) : Prop := x <> [] /\ x <> u "." /\ x <> u ".." /\ Forall (fun c => (47 =? c)%N = false) x.

(** A normalised path: [.], or clean parts with slashes between them. *)
Definition normal (p : pystr) : Prop := exists parts, Forall clean_part parts /\ p = as_posix parts.

Lemma normalize_Ok p q : _normalize_relative p = Ok q <->
  p <> [] /\ startswith (u "/") p = false /\ u ".." ∉ path_parts p /\ q = as_posix (path_parts p).
Proof.
  unfold _normalize_relative. rewrite !seq_Ok, !raise_if_Ok, bool_decide_eq_false. split.
  - intros (? & ? & Hd & [= <-]). split_and!; try done. intros Hin. rewrite existsb_false_elem in Hd.
    specialize (Hd _ Hin). by rewrite bool_decide_eq_false in Hd.
  - intros (? & ? & Hd & ->). split_and!; try done. apply existsb_false_elem. intros x Hx. apply bool_decide_eq_false. by intros ->.
Qed.

Lemma normalize_normal p q : _normalize_relative p = Ok q -> normal q.
Proof.
  intros (_ & _ & Hd & ->)%normalize_Ok. exists (path_parts p). split; [|done]. apply Forall_forall. intros x Hx.
  assert (x <> u "..") as Hdd by (by intros ->). apply list_elem_of_filter in Hx as [[? ?] Hx]. split_and!; try done.
  by apply split_at_pieces in Hx.
Qed.

Lemma path_parts_clean parts : Forall clean_part parts -> path_parts (as_posix parts) = parts.
Proof.
  intros Hp. destruct parts as [|x parts]; [done|]. unfold path_parts, as_posix.
  assert (split_at (N.eqb 47) (join (u "/") (x :: parts)) = x :: parts) as ->.
  { apply split_at_join; [done|]. intros y Hy. rewrite Forall_forall in Hp. by destruct (Hp y Hy) as (_ & _ & _ & ?). }
  apply filter_all. intros y Hy. rewrite Forall_forall in Hp. destruct (Hp y Hy) as (? & ? & _). done.
Qed.

Lemma as_posix_relative parts : Forall clean_part parts -> as_posix parts <> [] /\ startswith (u "/") (as_posix parts) = false.
Proof.
  intros Hp. destruct parts as [|x parts]; [done|]. apply Forall_cons in Hp as [(Hx & _ & _ & Hs) _]. destruct x as [|c x]; [done|].
  apply Forall_cons in Hs as [Hc _]. split; [by destruct parts|].
  change (u "/") with [47%N]. destruct parts; cbn [as_posix join app startswith]; by rewrite Hc.
Qed.

(** Normalising a normal path changes nothing. *)
Lemma normalize_idem q : normal q -> _normalize_relative q = Ok q.
Proof.
  intros (parts & Hp & ->). apply normalize_Ok. destruct (as_posix_relative parts Hp) as [? ?]. rewrite path_parts_clean by done.
  split_and!; try done. intros Hin. rewrite Forall_forall in Hp. by destruct (Hp _ Hin) as (_ & _ & ? & _).
Qed.

(** ** What the guards let through *)

Definition protected (q : pystr) : Prop :=
  exists prefix, prefix ∈ PROTECTED_PATH_PREFIXES /\ (q = rstrip_slash prefix \/ exists rest, q = prefix ++ rest).

(** A target of a patch unit with these files under these globs. *)
Definition may_write (files approved_scope : list pystr) (path : pystr) : Prop :=
  exists q, _normalize_relative path = Ok q /\ ~ protected q /\
    (exists f, f ∈ files /\ _normalize_relative f = Ok q) /\ (exists g, g ∈ approved_scope /\ fnmatch q g = true).

Lemma under_prefix_spec q prefix : under_prefix q prefix = true <-> q = rstrip_slash prefix \/ exists rest, q = prefix ++ rest.
Proof. unfold under_prefix. by rewrite orb_true_iff, bool_decide_eq_true, startswith_spec. Qed.

Lemma protected_path_Ok path : (guard_protected_path path = Ok tt) <-> exists q, _normalize_relative path = Ok q /\ ~ protected q.
Proof.
  unfold guard_protected_path. rewrite bind_Ok. split.
  - intros (q & Hq & Hf). exists q. split; [done|]. intros (prefix & Hin & Hu%under_prefix_spec).
    destruct (find _ _) eqn:E; [done|]. pose proof (find_none _ _ E prefix (proj1 (list_elem_of_In _ _) Hin)). congruence.
  - intros (q & Hq & Hno). exists q. split; [done|]. destruct (find _ _) as [prefix|] eqn:E; [|done]. exfalso. apply Hno.
    apply find_some in E as [Hin Hu%under_prefix_spec]. exists prefix. split; [by apply list_elem_of_In|done].
Qed.

Lemma guard_scope_Ok path files scope : (guard_scope path files scope = Ok tt) <->
  (forall f, f ∈ files -> exists q, _normalize_relative f = Ok q) /\
  exists q, _normalize_relative path = Ok q /\ (exists f, f ∈ files /\ _normalize_relative f = Ok q) /\
    (exists g, g ∈ scope /\ fnmatch q g = true).
Proof.
  unfold guard_scope, is_in_approved_scope. rewrite bind_Ok. split.
  - intros (q & Hq & Hr). apply bind_Ok in Hr as (qs & Hqs & Hr). apply seq_Ok in Hr as [Hin%raise_if_Ok Hr].
    rewrite normalize_idem in Hr by (by eapply normalize_normal). cbn in Hr. apply raise_if_Ok, negb_false_iff in Hr.
    apply bool_decide_eq_false, dec_stable in Hin. split.
    + intros f Hf. destruct (mapM_image _ _ _ Hqs f Hf) as (y & _ & Hy). by exists y.
    + exists q. split; [done|]. split.
      * apply (mapM_elem _ _ _ Hqs) in Hin as (f & ? & ?). eauto.
      * apply existsb_elem in Hr as (g & ? & ?). eauto.
  - intros (Hok & q & Hq & (f & Hf & Hfq) & (g & Hg & Hm)). exists q. split; [done|].
    destruct (mapM_ok _ _ Hok) as [qs Hqs]. apply bind_Ok. exists qs. split; [done|]. apply seq_Ok. split.
    + apply raise_if_Ok, bool_decide_eq_false. intros Hn. apply Hn. destruct (mapM_image _ _ _ Hqs f Hf) as (y & Hy & Hfy).
      rewrite Hfq in Hfy. by injection Hfy as <-.
    + rewrite normalize_idem by (by eapply normalize_normal). cbn. apply raise_if_Ok, negb_false_iff, existsb_elem. eauto.
Qed.

Lemma guards_may_write path files scope :
  guard_protected_path path = Ok tt -> guard_scope path files scope = Ok tt -> may_write files scope path.
Proof. intros (q & Hq & Hp)%protected_path_Ok (_ & q' & Hq' & Hf & Hg)%guard_scope_Ok. rewrite Hq in Hq'. injection Hq' as <-. by exists q. Qed.
End paths.

(** ** Lemmas: commands *)

Section command_lemmas.
Context `{Printable} `{UnicodeDB}.

(** What may run: no denied prefix, no credential marker in a token, and the
    words of an allowed transformation, or more words after them. *)
Definition may_run (allowed_transformations argv : list pystr) : Prop :=
  (forall prefix, prefix ∈ _ABSOLUTE_DENY_PREFIXES -> ~ prefix `prefix_of` argv) /\
  (forall token marker, token ∈ argv -> marker ∈ _ABSOLUTE_DENY_TOKEN_SUBSTRINGS -> contains marker (lower token) = false) /\
  exists allowed, allowed ∈ allowed_transformations /\
    (join (u " ") argv = allowed \/ exists rest, join (u " ") argv = allowed ++ u " " ++ rest).

Lemma denied_by_prefix_spec argv prefix : denied_by_prefix argv prefix = true <-> prefix `prefix_of` argv.
Proof.
  unfold denied_by_prefix. rewrite bool_decide_eq_true. split.
  - intros Ht. exists (drop (length prefix) argv). by rewrite <- Ht at 1; rewrite take_drop.
  - intros [rest ->]. by rewrite take_app_length.
Qed.

Lemma denied_marker_none argv : denied_marker argv = None <->
  forall token marker, token ∈ argv -> marker ∈ _ABSOLUTE_DENY_TOKEN_SUBSTRINGS -> contains marker (lower token) = false.
Proof.
  induction argv as [|token argv IH]; cbn [denied_marker]; [set_solver|]. destruct (find _ _) as [m|] eqn:E.
  - split; [done|]. intros Hall. apply find_some in E as [Hin Hm]. rewrite (Hall token m) in Hm; [done|by left|by apply list_elem_of_In].
  - rewrite IH. split.
    + intros Hall t m [-> |Ht]%elem_of_cons Hm; [|by apply Hall]. by apply (find_none _ _ E), list_elem_of_In.
    + intros Hall t m Ht. apply Hall. by right.
Qed.

Lemma guard_absolute_deny_Ok argv : (guard_absolute_deny argv = Ok tt) <->
  (forall prefix, prefix ∈ _ABSOLUTE_DENY_PREFIXES -> ~ prefix `prefix_of` argv) /\ denied_marker argv = None.
Proof.
  unfold guard_absolute_deny. destruct (find _ _) as [prefix|] eqn:E.
  - split; [done|]. intros [Hno _]. apply find_some in E as [Hin Hd%denied_by_prefix_spec]. exfalso. by apply (Hno prefix); [apply list_elem_of_In|].
  - destruct (denied_marker argv); [split; [done|by intros [_ ?]]|]. split; [|done]. intros _. split; [|done].
    intros prefix Hin Hp%denied_by_prefix_spec. apply list_elem_of_In in Hin. by rewrite (find_none _ _ E _ Hin) in Hp.
Qed.

Theorem guard_command_exact argv allowed_transformations :
  guard_command argv allowed_transformations = Ok tt <-> may_run allowed_transformations argv.
Proof.
  unfold guard_command, may_run. rewrite seq_Ok, raise_if_Ok, negb_false_iff, guard_absolute_deny_Ok, denied_marker_none.
  unfold is_allowlisted. rewrite existsb_elem. setoid_rewrite orb_true_iff. setoid_rewrite bool_decide_eq_true.
  setoid_rewrite startswith_spec. setoid_rewrite <- app_assoc. tauto.
Qed.
End command_lemmas.

Module Examples.
#[local] Existing Instance ascii_db.
#[local] Instance no_printable : Printable := fun _ => false.

Example scope_is_normalised :
  guard_scope (u "src/./a.py") [u "src//a.py"] [u "src/*"] = Ok tt /\ is_ok (guard_protected_path (u "./docs//specs/x")) = false /\
  is_ok (guard_protected_path (u "docs/specs")) = false /\ guard_protected_path (u "docs/specs-old/x") = Ok tt.
Proof. done. Qed.

(** A git option before the subcommand hides the push from the denylist. *)
Example git_option_hides_push :
  is_ok (guard_command (u <$> ["git"; "push"]%string) [u "git"]) = false /\
  guard_command (u <$> ["git"; "-C"; "."; "push"]%string) [u "git"] = Ok tt /\
  guard_command (u <$> ["/usr/bin/git"; "push"]%string) [u "/usr/bin/git push"] = Ok tt.
Proof. by vm_compute. Qed.
End Examples.
