(* ===== verification/AgentRunner.v ===== *)
(** The agent runner (runner.py, audit.py, artifact.py and skill_bundle.py of
    agent-runner-service): one job executes the approved patch units of a
    contract in worktrees.

    What the runner does to its surroundings is a list of effects.  The
    surroundings (worktrees, executor, gateway, clock, cancellation) answer by
    arbitrary functions of all the effects so far, and may raise anything, so a
    theorem holds against every behaviour of theirs.  The audit chain is that of
    [AuditChain]. *)

From S2P Require Import Prelude PyStr Sha256 PyVal PyTime PyRepr Canonical AuditGuard AuditChain Float64.
From S2P Require Import Identity Execution SkillBundle Glob RunnerGuards.

(** ** Data *)

Record FileWrite := { fw_relative_path : pystr; fw_content : bytes }.
Record PatchUnitRequest := { rq_patch_unit_id : pystr; rq_file_writes : list FileWrite; rq_commands : list (list pystr) }.
Record RegisteredArtifactRef := { ra_manifest_uri : pystr; ra_artifact_uri : pystr; ra_artifact_hash : pystr }.

Abbreviation json := (list (pystr * pyval)).

Record PatchUnitOutcome := {
  po_patch_unit_id : pystr; po_status : JobStatus; po_decision : pystr; po_error : option JobError; po_worktree_commit : option pystr;
  po_artifact : option json; po_event_payload : option json
}.
Record JobRunResult := { job_status : JobStatus; outcomes : list PatchUnitOutcome }.

(** [Foreign] is any exception that is none of the others. *)
Inductive runner_exn :=
  | Agent (e : AgentError) | Skill (e : skill_exn) | Job (e : execution_exn) | Audit (e : audit_exn) | EventInvalid | Os | Foreign.

(** The handles of worktrees, with the attributes fixed at construction. *)
Class Worktrees := { worktree : Type; wt_tenant_id : worktree -> pystr; wt_base_commit : worktree -> pystr }.

Inductive effect `{Worktrees} :=
  | Cancelled | Monotonic | Now | LoadBundle
  | Create (tenant_id run_id patch_unit_id base_commit : pystr)
  | Resolve (wt : worktree) (path : pystr)
  | Write (wt : worktree) (path : pystr) (content : bytes)
  | DiffStat (wt : worktree)
  | Run (argv : list pystr) (wt : worktree)
  | ChangedFiles (wt : worktree)
  | Commit (wt : worktree) (message : pystr)
  | Rollback (wt : worktree)
  | Register (tenant_id run_id patch_unit_id worktree_commit base_commit : pystr) (changed_files : list pystr).

(** What the surroundings answer to the last of the effects. *)
Class Ports `{Worktrees} := {
  port_cancelled : list effect -> result runner_exn bool;
  port_monotonic : list effect -> result runner_exn f64;
  port_now : list effect -> result runner_exn pystr;
  port_bundle : list effect -> result runner_exn (option SkillBundle);
  port_create : list effect -> result runner_exn worktree;
  port_root : list effect -> result runner_exn (list pystr);
  port_resolve : list effect -> result runner_exn (list pystr);
  port_write : list effect -> result runner_exn unit;
  port_diff_stat : list effect -> result runner_exn (Z * Z);
  port_run : list effect -> result runner_exn Z;
  port_changed_files : list effect -> result runner_exn (list pystr);
  port_commit : list effect -> result runner_exn pystr;
  port_rollback : list effect -> result runner_exn unit;
  port_register : list effect -> result runner_exn RegisteredArtifactRef
}.

(** The generated models around the artifact and the event; a patch artifact
    names at least one changed file. *)
Class PatchContracts := {
  patch_artifact_model : json -> result pystr json;
  patch_completed_model : json -> option json;
  artifact_has_files p : dget p (u "changed_files") = Some (PList []) -> exists text, patch_artifact_model p = Raise text
}.

Record World `{Worktrees} := { effects : list effect; chain : list AuditEntry }.

(** The two optional collaborators. *)
Record PatchUnitRunner := { has_cancellation_signal : bool; has_skill_bundle_source : bool }.

Section runner.
Context `{FloatRepr} `{UnicodeDB} `{PydanticDump} `{Printable} `{PatchContracts} `{Ports}.

Abbreviation R A := (M World runner_exn A).

Definition perform {A} (e : effect) (port : list effect -> result runner_exn A) : R A := fun w =>
  let es := effects w ++ [e] in ({| effects := es; chain := chain w |}, port es).

Definition agent {A} (m : result AgentError A) : result runner_exn A := try_except m (fun e => Raise (Agent e)).
Definition job {A} (m : result execution_exn A) : result runner_exn A := try_except m (fun e => Raise (Job e)).

(** [except AgentRunnerError]: the answer, or the error that was caught. *)
Definition try_agent {A} (m : R A) : R (AgentError + A) := fun w =>
  match m w with
  | (w', Ok a) => (w', Ok (inr a))
  | (w', Raise (Agent e)) => (w', Ok (inl e))
  | (w', Raise e) => (w', Raise e)
  end.

(** ** audit.py *)

(** [InMemoryAuditChain.append] *)
Definition append_audit (action : pystr) (jc : JobContext) (code : option pystr) (payload : json) (recorded_at : pystr) : R unit := fun w =>
  match append (chain w) action recorded_at tenant (jc_trace_id jc) payload (Some (jc_tenant_id jc)) (Some (jc_run_id jc))
          (Some [(u "actor_id", PStr (jc_actor_id jc))]) code with
  | Ok (es, _) => ({| effects := effects w; chain := es |}, Ok tt)
  | Raise e => (w, Raise (Audit e))
  end.

Definition record_approval_refused (jc : JobContext) (code : pystr) : R unit :=
  now ← perform Now port_now;
  append_audit (u "agent_runner.approval.refused.v1") jc (Some code) [(u "decision", PStr (u "refused")); (u "error_code", PStr code)] now.

Definition record_skill_bundle_refused (jc : JobContext) (code : pystr) : R unit :=
  now ← perform Now port_now;
  append_audit (u "agent_runner.skill_bundle.refused.v1") jc (Some code) [(u "decision", PStr (u "refused")); (u "error_code", PStr code)] now.

Definition decision_payload (patch_unit_id decision : pystr) (code worktree_commit : option pystr) : json :=
  [(u "patch_unit_id", PStr patch_unit_id); (u "decision", PStr decision)] ++
  opt_item (u "worktree_commit") worktree_commit ++ opt_item (u "error_code") code.

Definition record_patch_unit_decision (jc : JobContext) (patch_unit_id decision : pystr) (code worktree_commit : option pystr) : R unit :=
  now ← perform Now port_now;
  append_audit (u "agent_runner.patch_unit.decision.v1") jc code (decision_payload patch_unit_id decision code worktree_commit) now.

(** ** skill_bundle.py *)

Definition skill_error_code (e : skill_exn) : pystr :=
  u "saena.policy_denied.skill_bundle_" ++
  u match e with
    | SkillBundleHashMissingError => "hash_missing"
    | SkillBundleHashMalformedError => "hash_malformed"
    | SkillBundleMissingError => "missing"
    | SkillBundleHashMismatchError _ _ => "hash_mismatch"
    | _ => "unreadable"
    end.

Definition enforce_skill_bundle_integrity (r : PatchUnitRunner) (expected_skill_bundle_hash : option pystr) : R pystr :=
  if has_skill_bundle_source r then
    bundle ← perform LoadBundle port_bundle;
    lift (try_except (verify_skill_bundle expected_skill_bundle_hash bundle) (fun e => Raise (Skill e)))
  else throw (Skill SkillBundleMissingError).

(** ** scope.py, over the file system *)

Definition escape (relative_path : pystr) : AgentError :=
  agent_error PathTraversalError
    (py_repr relative_path ++ u " resolves outside the worktree root (symlink escape or traversal)").

Definition resolved (relative_path : pystr) (es : list effect) : result runner_exn (list pystr) :=
  resolved_root ← port_root es;
  match port_resolve es with
  | Ok target => if decide (resolved_root `prefix_of` target) then Ok target else Raise (Agent (escape relative_path))
  | Raise Os => Raise (Agent (agent_error PathTraversalError
      (u "failed to resolve " ++ py_repr relative_path ++ u " against the worktree root")))
  | Raise e => Raise e
  end.

Definition resolve_within_worktree (wt : worktree) (relative_path : pystr) : R (list pystr) :=
  normalized ← lift (agent (_normalize_relative relative_path));
  perform (Resolve wt normalized) (resolved relative_path).

(** ** runner.py *)

Definition job_category (c : agent_class) : pystr :=
  match c with JobTimedOutError | JobCancelledError => u "unavailable" | _ => u "policy_denied" end.

Definition _job_error (e : AgentError) : result runner_exn JobError :=
  let summary := ae_text e in
  let summary := if 500 <? length summary then take 497 summary ++ u "..." else summary in
  job (make_JobError {| error_code := u "saena." ++ job_category (ae_class e) ++ u ".agent_runner_denied"; summary := summary;
                        retryable := agent_retryable (ae_class e); redacted_detail := [] |}).

Definition _advance (current target : JobStatus) : result runner_exn JobStatus := job (status <$> transition current target).

Definition _terminal_status_for (e : AgentError) : JobStatus :=
  match ae_class e with JobTimedOutError => TIMED_OUT | JobCancelledError => CANCELLED | _ => FAILED end.

Definition _decision_for (e : AgentError) : pystr :=
  match ae_class e with
  | JobTimedOutError => u "timed_out"
  | JobCancelledError => u "cancelled"
  | c => u "denied_" ++ agent_reason c
  end.

Definition _aggregate_status (outcomes : list PatchUnitOutcome) : JobStatus :=
  let statuses := po_status <$> outcomes in
  if bool_decide (outcomes = []) then SUCCEEDED
  else if forallb (fun s => bool_decide (s = SUCCEEDED)) statuses then SUCCEEDED
  else if bool_decide (CANCELLED ∈ statuses) then CANCELLED
  else if bool_decide (TIMED_OUT ∈ statuses) then TIMED_OUT
  else FAILED.

Definition _check_liveness (r : PatchUnitRunner) (start_time : f64) (deadline_seconds : Z) : R unit :=
  cancelled ← (if has_cancellation_signal r then perform Cancelled port_cancelled else mret false);
  _ ← raise_when cancelled (Agent (agent_error JobCancelledError
        (u "cancellation requested " ++ [8212%N] ++ u " aborting patch unit execution")));
  now ← perform Monotonic port_monotonic;
  let elapsed := f64_sub now start_time in
  raise_when (f64_lt (f64_int deadline_seconds) elapsed) (Agent (agent_error JobTimedOutError
    (u "active_deadline_seconds (" ++ str_of_Z deadline_seconds ++ u ") exceeded (elapsed=" ++ format_fixed 1 elapsed ++ u "s)"))).

Definition _deny (jc : JobContext) (patch_unit_id decision : pystr) (e : AgentError) : R PatchUnitOutcome :=
  job_error ← lift (_job_error e);
  _ ← record_patch_unit_decision jc patch_unit_id decision (Some (agent_error_code (ae_class e))) None;
  running ← lift (_advance PENDING RUNNING);
  final ← lift (_advance running (_terminal_status_for e));
  mret {| po_patch_unit_id := patch_unit_id; po_status := final; po_decision := decision; po_error := Some job_error;
          po_worktree_commit := None; po_artifact := None; po_event_payload := None |}.

Section job.
Context (r : PatchUnitRunner) (jc : JobContext) (contract : ChangeplanActionContract) (expected_contract_hash : pystr).
Context (start_time : f64) (deadline_seconds : Z).

Fixpoint write_files (patch_unit : PatchUnit) (wt : worktree) (file_writes : list FileWrite) : R unit :=
  match file_writes with
  | [] => mret tt
  | f :: file_writes =>
      _ ← _check_liveness r start_time deadline_seconds;
      _ ← lift (agent (guard_protected_path (fw_relative_path f)));
      _ ← lift (agent (guard_scope (fw_relative_path f) (pu_files patch_unit) (cc_approved_scope contract)));
      _ ← resolve_within_worktree wt (fw_relative_path f);
      _ ← perform (Write wt (fw_relative_path f) (fw_content f)) port_write;
      write_files patch_unit wt file_writes
  end.

Definition over_budget (diff : Z * Z) : bool := (cc_max_files contract <? diff.1)%Z || (cc_max_lines contract <? diff.2)%Z.

Definition check_budget (wt : worktree) : R unit :=
  diff ← perform (DiffStat wt) port_diff_stat;
  raise_when (over_budget diff) (Agent (agent_error DiffBudgetExceededError
    (u "diff_stat files_changed=" ++ str_of_Z diff.1 ++ u "/lines_changed=" ++ str_of_Z diff.2 ++ u " exceeds diff_budget max_files=" ++
     str_of_Z (cc_max_files contract) ++ u "/max_lines=" ++ str_of_Z (cc_max_lines contract)))).

Fixpoint run_commands (patch_unit : PatchUnit) (wt : worktree) (commands : list (list pystr)) : R unit :=
  match commands with
  | [] => mret tt
  | argv :: commands =>
      _ ← _check_liveness r start_time deadline_seconds;
      _ ← lift (agent (guard_command argv (pu_allowed_transformations patch_unit)));
      returncode ← perform (Run argv wt) port_run;
      _ ← raise_when (negb (bool_decide (returncode = 0%Z))) (Agent (agent_error AgentRunnerError
            (u "command " ++ py_repr_list argv ++ u " exited non-zero (" ++ str_of_Z returncode ++ u ")")));
      run_commands patch_unit wt commands
  end.

(** The body of the [try]. *)
Definition attempt (request : PatchUnitRequest) (patch_unit : PatchUnit) (wt : worktree) : R (list pystr * pystr) :=
  _ ← write_files patch_unit wt (rq_file_writes request);
  _ ← check_budget wt;
  _ ← run_commands patch_unit wt (rq_commands request);
  changed_files ← perform (ChangedFiles wt) port_changed_files;
  worktree_commit ← perform (Commit wt (u "patch unit " ++ rq_patch_unit_id request)) port_commit;
  mret (changed_files, worktree_commit).

Definition evidence_ids : list pystr :=
  sort_by (fun x => x) (remove_dups (concat (hy_evidence_ids <$> cc_hypotheses contract))).

Definition strs (l : list pystr) : pyval := PList (PStr <$> l).

Definition build_patch_artifact (patch_unit_id : pystr) (patch_unit : PatchUnit) (worktree_commit : pystr) (changed_files : list pystr) (created_at : pystr)
    (registered_ref : RegisteredArtifactRef) : result runner_exn json :=
  let candidate :=
    [(u "tenant_id", PStr (jc_tenant_id jc)); (u "run_id", PStr (jc_run_id jc)); (u "patch_unit_id", PStr patch_unit_id);
     (u "worktree_commit", PStr worktree_commit); (u "base_commit", PStr (cc_repo_commit contract));
     (u "artifact_uri", PStr (ra_artifact_uri registered_ref)); (u "artifact_hash", PStr (ra_artifact_hash registered_ref));
     (u "manifest_uri", PStr (ra_manifest_uri registered_ref)); (u "changed_files", strs changed_files);
     (u "quality_gate_ids", strs (pu_tests patch_unit)); (u "evidence_ids", strs evidence_ids);
     (u "contract_hash", PStr expected_contract_hash); (u "rollback_ref", PStr (pu_rollback patch_unit)); (u "created_at", PStr created_at)] in
  match patch_artifact_model candidate with
  | Ok validated => Ok validated
  | Raise exc => Raise (Agent (agent_error ContractValidationError (u "assembled PatchArtifact failed schema validation: " ++ exc)))
  end.

Definition build_patch_unit_completed_payload (patch_unit_id : pystr) (patch_unit : PatchUnit) (worktree_commit manifest_uri : pystr) (changed_files : list pystr)
    : result runner_exn json :=
  let payload :=
    [(u "patch_unit_id", PStr patch_unit_id); (u "worktree_commit", PStr worktree_commit); (u "manifest_uri", PStr manifest_uri);
     (u "changed_files", strs changed_files); (u "quality_gate_ids", strs (pu_tests patch_unit))] in
  match patch_completed_model payload with Some p => Ok p | None => Raise EventInvalid end.

(** After a commit. *)
Definition publish (patch_unit_id : pystr) (patch_unit : PatchUnit) (changed_files : list pystr) (worktree_commit : pystr) : R PatchUnitOutcome :=
  registered_ref ← perform (Register (jc_tenant_id jc) (jc_run_id jc) patch_unit_id worktree_commit (cc_repo_commit contract) changed_files)
                     port_register;
  created_at ← perform Now port_now;
  artifact ← lift (build_patch_artifact patch_unit_id patch_unit worktree_commit changed_files created_at registered_ref);
  event_payload ← lift (build_patch_unit_completed_payload patch_unit_id patch_unit worktree_commit (ra_manifest_uri registered_ref) changed_files);
  _ ← record_patch_unit_decision jc patch_unit_id (u "executed") None (Some worktree_commit);
  running ← lift (_advance PENDING RUNNING);
  final ← lift (_advance running SUCCEEDED);
  mret {| po_patch_unit_id := patch_unit_id; po_status := final; po_decision := u "executed"; po_error := None;
          po_worktree_commit := Some worktree_commit; po_artifact := Some artifact; po_event_payload := Some event_payload |}.

Definition execute (request : PatchUnitRequest) (patch_unit : PatchUnit) (wt : worktree) : R PatchUnitOutcome :=
  tried ← try_agent (attempt request patch_unit wt);
  match tried with
  | inl e =>
      _ ← perform (Rollback wt) port_rollback;
      _deny jc (rq_patch_unit_id request) (_decision_for e) e
  | inr (changed_files, worktree_commit) => publish (rq_patch_unit_id request) patch_unit changed_files worktree_commit
  end.

Definition _run_one (approved_ids : list pystr) (request : PatchUnitRequest) : R PatchUnitOutcome :=
  let patch_unit_id := rq_patch_unit_id request in
  if bool_decide (patch_unit_id ∉ approved_ids) then
    _deny jc patch_unit_id (u "refused_not_approved") (agent_error PatchUnitNotApprovedError
      (u "patch_unit_id " ++ py_repr patch_unit_id ++
       u " was not individually approved in ApprovalDecision.patch_unit_decisions " ++ [8212%N] ++ u " refusing execution"))
  else
    match get_patch_unit contract patch_unit_id with
    | Raise e => _deny jc patch_unit_id (u "refused_not_in_contract") e
    | Ok patch_unit =>
        wt ← perform (Create (jc_tenant_id jc) (jc_run_id jc) patch_unit_id (cc_repo_commit contract)) port_create;
        if bool_decide (wt_tenant_id wt <> jc_tenant_id jc) then
          _deny jc patch_unit_id (u "denied_cross_tenant") (agent_error CrossTenantWorktreeError
            (u "WorktreeHandle.tenant_id does not match the executing JobContext.tenant_id " ++ [8212%N] ++ u " refusing to touch this worktree"))
        else if bool_decide (wt_base_commit wt <> cc_repo_commit contract) then
          _deny jc patch_unit_id (u "denied_base_commit_mismatch") (agent_error BaseCommitMismatchError
            (u "WorktreeHandle.base_commit does not match the approved ChangePlan.repo_commit " ++ [8212%N] ++ u " refusing execution"))
        else execute request patch_unit wt
    end.

Fixpoint run_all (approved_ids : list pystr) (requests : list PatchUnitRequest) : R (list PatchUnitOutcome) :=
  match requests with
  | [] => mret []
  | request :: requests =>
      outcome ← _run_one approved_ids request;
      outcomes ← run_all approved_ids requests;
      mret (outcome :: outcomes)
  end.
End job.

(** The two gates before any worktree: a refusal is recorded and raised. *)
Definition approval_gate (jc : JobContext) (expected_contract_hash : pystr) (approval : ApprovalDecision) : R (list pystr) :=
  match verify_approval approval expected_contract_hash (jc_tenant_id jc) (jc_run_id jc) with
  | Ok approved_ids => mret approved_ids
  | Raise e =>
      _ ← (if approval_required (ae_class e) then record_approval_refused jc (agent_error_code (ae_class e)) else mret tt);
      throw (Agent e)
  end.

Definition bundle_gate (r : PatchUnitRunner) (jc : JobContext) (expected_skill_bundle_hash : option pystr) : R unit := fun w =>
  match enforce_skill_bundle_integrity r expected_skill_bundle_hash w with
  | (w', Ok _) => (w', Ok tt)
  | (w', Raise (Skill e)) =>
      (_ ← (if is_integrity_error e then record_skill_bundle_refused jc (skill_error_code e) else mret tt);
       throw (Skill e)) w'
  | (w', Raise e) => (w', Raise e)
  end.

Definition run (r : PatchUnitRunner) (jc : JobContext) (contract : ChangeplanActionContract) (expected_contract_hash : pystr)
    (approval : ApprovalDecision) (requests : list PatchUnitRequest) (expected_skill_bundle_hash : option pystr) : R JobRunResult :=
  approved_ids ← approval_gate jc expected_contract_hash approval;
  _ ← bundle_gate r jc expected_skill_bundle_hash;
  limits ← lift (job (resource_limits_for AGENT_RUNNER));
  start_time ← perform Monotonic port_monotonic;
  outcomes ← run_all r jc contract expected_contract_hash start_time (active_deadline_seconds limits) approved_ids requests;
  mret {| job_status := _aggregate_status outcomes; outcomes := outcomes |}.
End runner.

(** ** Lemmas *)

Section lemmas.
Context `{FloatRepr} `{UnicodeDB} `{PydanticDump} `{Printable} `{PatchContracts} `{Ports}.
Implicit Types (w : World) (wt : worktree).

(** The effects that touch more than the clock and the reads. *)
Definition acting (e : effect) : bool :=
  match e with Create _ _ _ _ | Write _ _ _ | Run _ _ | Commit _ _ | Rollback _ | Register _ _ _ _ _ _ => true | _ => false end.

Definition acts (es : list effect) : list effect := filter (fun e => acting e = true) es.

(** From [w] to [w'] the acting effects were [l], and the chain grew by [es]. *)
Definition did (l : list effect) (es : list AuditEntry) w w' : Prop :=
  (exists new, effects w' = effects w ++ new /\ acts new = l) /\ chain w' = chain w ++ es /\
  (verify_chain (chain w) = Ok (true, None) -> verify_chain (chain w') = Ok (true, None)).

Lemma did_refl w : did [] [] w w.
Proof. split; [exists []; by rewrite app_nil_r|]. by rewrite app_nil_r. Qed.

Lemma did_trans l1 l2 es1 es2 w1 w2 w3 : did l1 es1 w1 w2 -> did l2 es2 w2 w3 -> did (l1 ++ l2) (es1 ++ es2) w1 w3.
Proof.
  intros ((n1 & E1 & <-) & C1 & V1) ((n2 & E2 & <-) & C2 & V2). split.
  - exists (n1 ++ n2). split; [by rewrite E2, E1, app_assoc|]. apply filter_app.
  - split; [by rewrite C2, C1, app_assoc|auto].
Qed.

Lemma perform_inv {A} e (port : list effect -> result runner_exn A) w w' res :
  perform e port w = (w', res) -> did (if acting e then [e] else []) [] w w' /\ res = port (effects w ++ [e]).
Proof.
  intros [= <- <-]. split; [|done]. split; [|by rewrite app_nil_r]. exists [e]. split; [done|]. unfold acts. rewrite filter_cons, filter_nil.
  by destruct (acting e).
Qed.

Lemma append_audit_inv a jc c p now w w' res : append_audit a jc c p now w = (w', res) ->
  (exists e, res = Ok tt /\ payload e = p /\ did [] [e] w w') \/ (exists x, res = Raise (Audit x) /\ w' = w).
Proof.
  unfold append_audit. destruct (append _ _ _ _ _ _ _ _ _ _) as [[es e]|x] eqn:E; intros [= <- <-]; [left|right; eauto].
  exists e. split; [done|]. pose proof E as E'. unfold append in E'. apply bind_Ok in E' as (e0 & Hb & E'). apply bind_Ok in E' as (es0 & He & E').
  injection E' as <- <-. apply build_entry_Ok in Hb as (_ & _ & _ & _ & Hp). apply append_entry_Ok in He as [-> _]. split; [done|].
  split; [exists []; by rewrite app_nil_r|]. split; [done|]. intros Hv. by destruct (append_preserves_verify _ _ _ _ _ _ _ _ _ _ _ _ Hv E) as (_ & ? & _).
Qed.

Lemma record_inv jc p d c wc w w' res : record_patch_unit_decision jc p d c wc w = (w', res) ->
  (exists e, res = Ok tt /\ payload e = decision_payload p d c wc /\ did [] [e] w w') \/ (exists x, res = Raise x /\ did [] [] w w').
Proof.
  unfold record_patch_unit_decision. intros [(w1 & now & [Hd _]%perform_inv & Ha)|(e & [Hd _]%perform_inv & ->)]%M_bind_inv; [|eauto].
  destruct (append_audit_inv _ _ _ _ _ _ _ _ Ha) as [(e & -> & Hp & Hd')|(x & -> & ->)]; [left|eauto].
  exists e. split; [done|]. split; [done|]. exact (did_trans _ _ _ _ _ _ _ Hd Hd').
Qed.

Lemma lift_did {A} (m : result runner_exn A) w w' res : lift m w = (w', res) -> did [] [] w w' /\ res = m.
Proof. intros [-> ->]%lift_inv. split; [apply did_refl|done]. Qed.

Lemma raise_when_did b (e : runner_exn) w w' res : raise_when b e w = (w', res) -> did [] [] w w' /\ res = if b then Raise e else Ok tt.
Proof. intros [-> ->]%raise_when_inv. split; [apply did_refl|done]. Qed.

Lemma check_liveness_did r start_time deadline w w' res : _check_liveness r start_time deadline w = (w', res) -> did [] [] w w'.
Proof.
  unfold _check_liveness. intros [(w1 & c & E1 & Hr)|(e & E1 & ->)]%M_bind_inv.
  - assert (did [] [] w w1) as D1 by (destruct (has_cancellation_signal r); [by apply perform_inv in E1 as [? _]|by injection E1 as <- _; apply did_refl]).
    apply M_bind_inv in Hr as [(w2 & [] & [D2 _]%raise_when_did & Hr)|(e & [D2 _]%raise_when_did & ->)]; [|exact (did_trans _ _ _ _ _ _ _ D1 D2)].
    apply M_bind_inv in Hr as [(w3 & now & [D3 _]%perform_inv & [D4 _]%raise_when_did)|(e & [D3 _]%perform_inv & ->)].
    + exact (did_trans _ _ _ _ _ _ _ D1 (did_trans _ _ _ _ _ _ _ D2 (did_trans _ _ _ _ _ _ _ D3 D4))).
    + exact (did_trans _ _ _ _ _ _ _ D1 (did_trans _ _ _ _ _ _ _ D2 D3)).
  - destruct (has_cancellation_signal r); [by apply perform_inv in E1 as [? _]|done].
Qed.

Lemma resolve_did wt path w w' res : resolve_within_worktree wt path w = (w', res) -> did [] [] w w'.
Proof.
  unfold resolve_within_worktree. intros [(w1 & q & [D1 _]%lift_did & [D2 _]%perform_inv)|(e & [D1 _]%lift_did & ->)]%M_bind_inv; [|done].
  exact (did_trans _ _ _ _ _ _ _ D1 D2).
Qed.

Definition writes wt (fs : list FileWrite) : list effect := (fun f => Write wt (fw_relative_path f) (fw_content f)) <$> fs.
Definition runs wt (cmds : list (list pystr)) : list effect := (fun argv => Run argv wt) <$> cmds.

(** A run does a beginning of [full], and all of it when it returns. *)
Definition does (full : list effect) {A} w w' (res : result runner_exn A) : Prop :=
  exists l, did l [] w w' /\ l `prefix_of` full /\ (is_ok res = true -> l = full).

Lemma does_none {A} full w w' e : did [] [] w w' -> @does full A w w' (Raise e).
Proof. intros Hd. exists []. split; [done|]. split; [apply prefix_nil|done]. Qed.

Lemma does_step {A} l full w w1 w' (res : result runner_exn A) : did l [] w w1 -> does full w1 w' res -> does (l ++ full) w w' res.
Proof.
  intros D1 (k & D2 & Hp & Hk). exists (l ++ k). split; [exact (did_trans _ _ _ _ _ _ _ D1 D2)|]. split; [by apply prefix_app|].
  intros Hr. by rewrite Hk.
Qed.

Lemma write_files_does r contract start_time deadline unit_ wt fs w w' res :
  write_files r contract start_time deadline unit_ wt fs w = (w', res) -> does (writes wt fs) w w' res.
Proof.
  revert w. induction fs as [|f fs IH]; intros w; cbn [write_files].
  - intros [= <- <-]. exists []. split; [apply did_refl|]. done.
  - intros [(w1 & [] & D1%check_liveness_did & Hr)|(e & D1%check_liveness_did & ->)]%M_bind_inv; [|by apply does_none].
    apply M_bind_inv in Hr as [(w2 & [] & [D2 _]%lift_did & Hr)|(e & [D2 _]%lift_did & ->)]; [|apply does_none; exact (did_trans _ _ _ _ _ _ _ D1 D2)].
    pose proof (did_trans _ _ _ _ _ _ _ D1 D2) as D12. clear D1 D2.
    apply M_bind_inv in Hr as [(w3 & [] & [D3 _]%lift_did & Hr)|(e & [D3 _]%lift_did & ->)]; [|apply does_none; exact (did_trans _ _ _ _ _ _ _ D12 D3)].
    pose proof (did_trans _ _ _ _ _ _ _ D12 D3) as D. clear D12 D3.
    apply M_bind_inv in Hr as [(w4 & ? & D4%resolve_did & Hr)|(e & D4%resolve_did & ->)]; [|apply does_none; exact (did_trans _ _ _ _ _ _ _ D D4)].
    pose proof (did_trans _ _ _ _ _ _ _ D D4) as D'. clear D D4.
    apply M_bind_inv in Hr as [(w5 & [] & [D5 _]%perform_inv & Hr)|(e & [D5 _]%perform_inv & ->)].
    + apply (does_step [Write wt (fw_relative_path f) (fw_content f)] (writes wt fs) w w5); [exact (did_trans _ _ _ _ _ _ _ D' D5)|by apply IH].
    + exists [Write wt (fw_relative_path f) (fw_content f)]. split; [exact (did_trans _ _ _ _ _ _ _ D' D5)|]. split; [|done].
      by exists (writes wt fs).
Qed.

Lemma run_commands_does r start_time deadline unit_ wt cmds w w' res :
  run_commands r start_time deadline unit_ wt cmds w = (w', res) -> does (runs wt cmds) w w' res.
Proof.
  revert w. induction cmds as [|argv cmds IH]; intros w; cbn [run_commands].
  - intros [= <- <-]. exists []. split; [apply did_refl|]. done.
  - intros [(w1 & [] & D1%check_liveness_did & Hr)|(e & D1%check_liveness_did & ->)]%M_bind_inv; [|by apply does_none].
    apply M_bind_inv in Hr as [(w2 & [] & [D2 _]%lift_did & Hr)|(e & [D2 _]%lift_did & ->)]; [|apply does_none; exact (did_trans _ _ _ _ _ _ _ D1 D2)].
    pose proof (did_trans _ _ _ _ _ _ _ D1 D2) as D. clear D1 D2.
    assert (forall w3, did [Run argv wt] [] w2 w3 -> did [Run argv wt] [] w w3) as Hrun by (intros w3 D3; exact (did_trans _ _ _ _ _ _ _ D D3)).
    apply M_bind_inv in Hr as [(w3 & code & [D3%Hrun _]%perform_inv & Hr)|(e & [D3%Hrun _]%perform_inv & ->)].
    + apply M_bind_inv in Hr as [(w4 & [] & [D4 _]%raise_when_did & Hr)|(e & [D4 _]%raise_when_did & ->)].
      * apply (does_step [Run argv wt] (runs wt cmds) w w4); [exact (did_trans _ _ _ _ _ _ _ D3 D4)|by apply IH].
      * exists [Run argv wt]. split; [exact (did_trans _ _ _ _ _ _ _ D3 D4)|]. split; [|done]. by exists (runs wt cmds).
    + exists [Run argv wt]. split; [done|]. split; [|done]. by exists (runs wt cmds).
Qed.

Lemma does_bind {A B} full1 full2 (m : M World runner_exn A) (k : A -> M World runner_exn B) w w' res :
  (forall w1 r1, m w = (w1, r1) -> does full1 w w1 r1) -> (forall a w1, k a w1 = (w', res) -> does full2 w1 w' res) ->
  (m ≫= k) w = (w', res) -> does (full1 ++ full2) w w' res.
Proof.
  intros Hm Hk [(w1 & a & Ha & Hr)|(e & Ha & ->)]%M_bind_inv; destruct (Hm _ _ Ha) as (l1 & D1 & P1 & F1).
  - rewrite (F1 eq_refl) in D1. by eapply does_step; [|apply (Hk a)].
  - exists l1. split; [done|]. split; [by apply prefix_app_r|done].
Qed.

Lemma perform_does {A} e (port : list effect -> result runner_exn A) w w' res :
  perform e port w = (w', res) -> does (if acting e then [e] else []) w w' res.
Proof. intros [D _]%perform_inv. eexists. split; [exact D|]. done. Qed.

Definition full_pass (request : PatchUnitRequest) wt : list effect :=
  writes wt (rq_file_writes request) ++ runs wt (rq_commands request) ++ [Commit wt (u "patch unit " ++ rq_patch_unit_id request)].

Lemma check_budget_does contract wt w w' res : check_budget contract wt w = (w', res) -> does [] w w' res.
Proof.
  unfold check_budget. apply (does_bind [] []); [apply perform_does|]. intros d w1 [D ->]%raise_when_did. exists []. split; [done|]. by split.
Qed.

Lemma attempt_does r contract start_time deadline request unit_ wt w w' res :
  attempt r contract start_time deadline request unit_ wt w = (w', res) -> does (full_pass request wt) w w' res.
Proof.
  unfold attempt, full_pass. apply does_bind; [intros w1 r1; apply write_files_does|intros _ w1].
  apply (does_bind []); [intros ? ?; apply check_budget_does|intros _ w2].
  apply does_bind; [intros ? ?; apply run_commands_does|intros _ w3].
  apply (does_bind []); [apply perform_does|intros files w4].
  apply (does_bind [_] []); [apply perform_does|intros commit w5]. intros [= <- <-]. exists []. split; [apply did_refl|]. done.
Qed.

(** What a denial returns and records. *)
Lemma deny_inv jc p d e w w' res : _deny jc p d e w = (w', res) ->
  exists es, did [] es w w' /\
  forall o, res = Ok o -> po_patch_unit_id o = p /\ po_decision o = d /\ po_status o = _terminal_status_for e /\ po_worktree_commit o = None /\
    po_artifact o = None /\ po_event_payload o = None /\
    exists en, es = [en] /\ payload en = decision_payload p d (Some (agent_error_code (ae_class e))) None.
Proof.
  unfold _deny. intros [(w1 & je & [D1 _]%lift_did & Hr)|(x & [D1 _]%lift_did & ->)]%M_bind_inv; [|by exists []].
  apply M_bind_inv in Hr as [(w2 & [] & Hc & Hr)|(x & Hc & ->)].
  - apply record_inv in Hc as [(en & _ & Hp & D2)|(x & [=] & _)].
    assert (_advance PENDING RUNNING = Ok RUNNING) as Ea by done.
    assert (_advance RUNNING (_terminal_status_for e) = Ok (_terminal_status_for e)) as Eb by (unfold _terminal_status_for; by destruct (ae_class e)).
    rewrite Ea in Hr. apply M_bind_inv in Hr as [(w3 & s & [= <- <-] & Hr)|(x & [=] & ->)].
    rewrite Eb in Hr. apply M_bind_inv in Hr as [(w4 & s & [= <- <-] & Hr)|(x & [=] & ->)].
    injection Hr as <- <-. exists [en]. split; [exact (did_trans _ _ _ _ _ _ _ D1 D2)|]. intros o [= <-]. cbn. split_and!; try done. by exists en.
  - apply record_inv in Hc as [(en & [=] & _)|(y & _ & D2)]. exists []. split; [exact (did_trans _ _ _ _ _ _ _ D1 D2)|done].
Qed.

Lemma publish_inv jc contract hash p unit_ files commit w w' res : publish jc contract hash p unit_ files commit w = (w', res) ->
  exists es, did [Register (jc_tenant_id jc) (jc_run_id jc) p commit (cc_repo_commit contract) files] es w w' /\
  forall o, res = Ok o -> po_patch_unit_id o = p /\ po_decision o = u "executed" /\ po_status o = SUCCEEDED /\ po_worktree_commit o = Some commit /\
    is_Some (po_artifact o) /\ is_Some (po_event_payload o) /\
    exists en, es = [en] /\ payload en = decision_payload p (u "executed") None (Some commit).
Proof.
  unfold publish. intros [(w1 & ref & [D1 _]%perform_inv & Hr)|(x & [D1 _]%perform_inv & ->)]%M_bind_inv; [|by eexists].
  apply M_bind_inv in Hr as [(w2 & now & [D2 _]%perform_inv & Hr)|(x & [D2 _]%perform_inv & ->)];
    [|eexists; split; [exact (did_trans _ _ _ _ _ _ _ D1 D2)|done]].
  pose proof (did_trans _ _ _ _ _ _ _ D1 D2) as D. clear D1 D2.
  apply M_bind_inv in Hr as [(w3 & a & [D3 _]%lift_did & Hr)|(x & [D3 _]%lift_did & ->)];
    [|eexists; split; [exact (did_trans _ _ _ _ _ _ _ D D3)|done]].
  apply M_bind_inv in Hr as [(w4 & ev & [D4 _]%lift_did & Hr)|(x & [D4 _]%lift_did & ->)]; pose proof (did_trans _ _ _ _ _ _ _ D D3) as D';
    [|eexists; split; [exact (did_trans _ _ _ _ _ _ _ D' D4)|done]].
  pose proof (did_trans _ _ _ _ _ _ _ D' D4) as Dp. clear D D3 D' D4.
  apply M_bind_inv in Hr as [(w5 & [] & Hc & Hr)|(x & Hc & ->)].
  - apply record_inv in Hc as [(en & _ & Hp & D5)|(x & [=] & _)].
    apply M_bind_inv in Hr as [(w6 & s & [= <- <-] & Hr)|(x & [=] & ->)].
    apply M_bind_inv in Hr as [(w7 & s & [= <- <-] & Hr)|(x & [=] & ->)].
    injection Hr as <- <-. eexists. split; [exact (did_trans _ _ _ _ _ _ _ Dp D5)|]. intros o [= <-]. cbn. split_and!; try done. by exists en.
  - apply record_inv in Hc as [(en & [=] & _)|(y & _ & D5)]. eexists. split; [exact (did_trans _ _ _ _ _ _ _ Dp D5)|done].
Qed.
End lemmas.

(** ** One patch unit *)

Section units.
Context `{FloatRepr} `{UnicodeDB} `{PydanticDump} `{Printable} `{PatchContracts} `{Ports}.
Context (r : PatchUnitRunner) (jc : JobContext) (contract : ChangeplanActionContract) (hash : pystr) (start_time : f64) (deadline : Z).

Definition own (wt : worktree) : Prop := wt_tenant_id wt = jc_tenant_id jc /\ wt_base_commit wt = cc_repo_commit contract.

Definition creation (request : PatchUnitRequest) : effect :=
  Create (jc_tenant_id jc) (jc_run_id jc) (rq_patch_unit_id request) (cc_repo_commit contract).

(** A unit that succeeded did all of its work, one commit and one registration;
    any other was refused before or in the worktree, or rolled back after a
    beginning of the work. *)
Definition transaction (request : PatchUnitRequest) (o : PatchUnitOutcome) (l : list effect) : Prop :=
  (po_status o = SUCCEEDED /\ po_decision o = u "executed" /\ exists wt commit files, own wt /\ po_worktree_commit o = Some commit /\
     l = creation request :: full_pass request wt ++
         [Register (jc_tenant_id jc) (jc_run_id jc) (rq_patch_unit_id request) commit (cc_repo_commit contract) files]) \/
  (po_status o <> SUCCEEDED /\ po_decision o <> u "executed" /\ po_worktree_commit o = None /\ po_artifact o = None /\ po_event_payload o = None /\
     (l = [] \/ l = [creation request] \/
      exists wt k, own wt /\ k `prefix_of` full_pass request wt /\ l = creation request :: k ++ [Rollback wt])).

(** The entry that records an outcome. *)
Definition recorded (o : PatchUnitOutcome) (en : AuditEntry) : Prop :=
  exists code, payload en = decision_payload (po_patch_unit_id o) (po_decision o) code (po_worktree_commit o) /\
    (code = None <-> po_status o = SUCCEEDED).

Lemma terminal_no_success e : _terminal_status_for e <> SUCCEEDED.
Proof. unfold _terminal_status_for. by destruct (ae_class e). Qed.

Lemma decision_not_executed e : _decision_for e <> u "executed".
Proof. unfold _decision_for. by destruct (ae_class e). Qed.

Lemma deny_unit request d e l w w1 w' res : did l [] w w1 -> _deny jc (rq_patch_unit_id request) d e w1 = (w', res) -> d <> u "executed" ->
  (l = [] \/ l = [creation request] \/ exists wt k, own wt /\ k `prefix_of` full_pass request wt /\ l = creation request :: k ++ [Rollback wt]) ->
  exists l es, did l es w w' /\
    forall o, res = Ok o -> po_patch_unit_id o = rq_patch_unit_id request /\ transaction request o l /\ exists en, es = [en] /\ recorded o en.
Proof.
  intros D1 (es & D2 & Ho)%deny_inv Hd Hl. exists (l ++ []), es. split; [exact (did_trans _ _ _ _ _ _ _ D1 D2)|]. rewrite app_nil_r.
  intros o (Hid & Hdec & Hst & Hwc & Ha & Hev & en & -> & Hp)%Ho. split; [done|]. pose proof (terminal_no_success e) as Hts. split.
  - right. split_and!; try done; by rewrite ?Hst, ?Hdec.
  - exists en. split; [done|]. exists (Some (agent_error_code (ae_class e))). rewrite Hid, Hdec, Hwc. split; [done|]. by rewrite Hst.
Qed.

Lemma try_agent_inv {A} (m : M World runner_exn A) w w' res : try_agent m w = (w', res) ->
  (exists a, m w = (w', Ok a) /\ res = Ok (inr a)) \/ (exists e, m w = (w', Raise (Agent e)) /\ res = Ok (inl e)) \/
  (exists e, m w = (w', Raise e) /\ res = Raise e).
Proof. unfold try_agent. destruct (m w) as [w1 [a|[]]]; intros [= <- <-]; eauto 10. Qed.

Lemma execute_unit request unit_ wt w w1 w' res : did [creation request] [] w w1 -> own wt ->
  execute r jc contract hash start_time deadline request unit_ wt w1 = (w', res) ->
  exists l es, did l es w w' /\
    forall o, res = Ok o -> po_patch_unit_id o = rq_patch_unit_id request /\ transaction request o l /\ exists en, es = [en] /\ recorded o en.
Proof.
  intros D1 Hown. unfold execute. intros [(w2 & t & Ht & Hr)|(e & Ht & ->)]%M_bind_inv; apply try_agent_inv in Ht.
  - destruct Ht as [([files commit] & Ha & [= ->])|[(e & Ha & [= ->])|(e & _ & [=])]]; destruct (attempt_does _ _ _ _ _ _ _ _ _ _ Ha) as (k & D2 & Hp & Hk).
    + rewrite (Hk eq_refl) in D2. apply publish_inv in Hr as (es & D3 & Ho).
      pose proof (did_trans _ _ _ _ _ _ _ D1 (did_trans _ _ _ _ _ _ _ D2 D3)) as D. eexists _, es. split; [exact D|].
      intros o (Hid & Hdec & Hst & Hwc & _ & _ & en & -> & Hpl)%Ho. split; [done|]. split.
      * left. split; [done|]. split; [done|]. exists wt, commit, files. done.
      * exists en. split; [done|]. exists None. rewrite Hid, Hdec, Hwc. done.
    + apply M_bind_inv in Hr as [(w3 & [] & [D3 _]%perform_inv & Hr)|(x & [D3 _]%perform_inv & ->)];
        pose proof (did_trans _ _ _ _ _ _ _ D1 (did_trans _ _ _ _ _ _ _ D2 D3)) as D.
      * eapply deny_unit; [exact D|exact Hr|apply decision_not_executed|]. right. right. by exists wt, k.
      * eexists _, _. split; [exact D|done].
  - destruct Ht as [(? & _ & [=])|[(? & _ & [=])|(x & Ha & [= ->])]]. destruct (attempt_does _ _ _ _ _ _ _ _ _ _ Ha) as (k & D2 & _).
    eexists _, _. split; [exact (did_trans _ _ _ _ _ _ _ D1 D2)|done].
Qed.

Lemma run_one_unit approved_ids request w w' res :
  _run_one r jc contract hash start_time deadline approved_ids request w = (w', res) ->
  exists l es, did l es w w' /\
    forall o, res = Ok o -> po_patch_unit_id o = rq_patch_unit_id request /\ transaction request o l /\ exists en, es = [en] /\ recorded o en.
Proof.
  unfold _run_one. case_bool_decide as Hin.
  { intros Hr. eapply deny_unit; [apply did_refl|exact Hr|done|by left]. }
  destruct (get_patch_unit _ _) as [unit_|e] eqn:Eu.
  2:{ intros Hr. eapply deny_unit; [apply did_refl|exact Hr|done|by left]. }
  intros [(w1 & wt & [D1 _]%perform_inv & Hr)|(e & [D1 _]%perform_inv & ->)]%M_bind_inv; [|by eexists _, _].
  case_bool_decide as Ht; [|case_bool_decide as Hb].
  - eapply deny_unit; [exact D1|exact Hr|done|by right; left].
  - eapply deny_unit; [exact D1|exact Hr|done|by right; left].
  - eapply execute_unit; [exact D1| |exact Hr]. by split.
Qed.

Lemma run_all_units approved_ids requests w w' res :
  run_all r jc contract hash start_time deadline approved_ids requests w = (w', res) ->
  exists ls es, did (concat ls) es w w' /\
    forall os, res = Ok os -> Forall2 (fun request o => po_patch_unit_id o = rq_patch_unit_id request) requests os /\
      Forall3 transaction requests os ls /\ Forall2 recorded os es.
Proof.
  revert w res. induction requests as [|request requests IH]; intros w res; cbn [run_all].
  { intros [= <- <-]. exists [], []. split; [apply did_refl|]. intros os [= <-]. split_and!; constructor. }
  intros [(w1 & o & Ho%run_one_unit & Hr)|(e & (l & es & D & _)%run_one_unit & ->)]%M_bind_inv.
  - destruct Ho as (l & es & D1 & Ho). apply M_bind_inv in Hr as [(w2 & os & Hos & [= <- <-])|(e & Hos & ->)];
      destruct (IH _ _ Hos) as (ls & es' & D2 & Hall).
    + exists (l :: ls), (es ++ es'). split; [exact (did_trans _ _ _ _ _ _ _ D1 D2)|]. intros os' [= <-].
      destruct (Ho o eq_refl) as (Hid & Ht & en & -> & Hen). destruct (Hall os eq_refl) as (? & ? & ?). split_and!; by constructor.
    + exists (l :: ls), (es ++ es'). split; [exact (did_trans _ _ _ _ _ _ _ D1 D2)|done].
  - exists [l], es. cbn. rewrite app_nil_r. split; [exact D|done].
Qed.
End units.

(** ** What is permitted at each effect *)

Section emits.
Context `{FloatRepr} `{UnicodeDB} `{PydanticDump} `{Printable} `{PatchContracts} `{Ports}.
Variable P : list effect -> effect -> Prop.

(** Each of the effects [new] after the history [h] is allowed by [P]. *)
Fixpoint allowed_after (h new : list effect) : Prop :=
  match new with [] => True | e :: new => P h e /\ allowed_after (h ++ [e]) new end.

Definition emits {A} (m : M World runner_exn A) (w : World) : Prop :=
  exists new, effects (m w).1 = effects w ++ new /\ allowed_after (effects w) new.

Lemma allowed_after_app h n1 n2 : allowed_after h (n1 ++ n2) <-> allowed_after h n1 /\ allowed_after (h ++ n1) n2.
Proof.
  revert h. induction n1 as [|e n1 IH]; intros h; cbn; [rewrite app_nil_r; tauto|]. rewrite IH, <- app_assoc. cbn. tauto.
Qed.

Lemma emits_bind {A B} (m : M World runner_exn A) (k : A -> M World runner_exn B) w :
  emits m w -> (forall w1 a, m w = (w1, Ok a) -> emits (k a) w1) -> emits (m ≫= k) w.
Proof.
  intros (n1 & E1 & A1) Hk. unfold emits, mbind, M_bind. destruct (m w) as [w1 [a|e]] eqn:Em; [|by exists n1].
  destruct (Hk w1 a eq_refl) as (n2 & E2 & A2). cbn in E1. exists (n1 ++ n2). rewrite E2, E1, app_assoc. split; [done|].
  apply allowed_after_app. split; [done|]. by rewrite <- E1.
Qed.

Lemma emits_silent {A} (m : M World runner_exn A) w : effects (m w).1 = effects w -> emits m w.
Proof. intros E. exists []. by rewrite app_nil_r. Qed.

Lemma emits_perform {A} e (port : list effect -> result runner_exn A) w : P (effects w) e -> emits (perform e port) w.
Proof. intros Hp. exists [e]. by cbn. Qed.

Lemma emits_try_agent {A} (m : M World runner_exn A) w : emits m w -> emits (try_agent m) w.
Proof. intros (n & E & A1). exists n. unfold try_agent. destruct (m w) as [w1 [a|[]]]; done. Qed.

Lemma emits_raise_when b e w : emits (raise_when b e) w.
Proof. apply emits_silent. by destruct b. Qed.

Lemma emits_append_audit a jc c p now w : emits (append_audit a jc c p now) w.
Proof. apply emits_silent. unfold append_audit. by destruct (append _ _ _ _ _ _ _ _ _ _) as [[]|]. Qed.

(** The reads are always allowed. *)
Hypothesis reads : forall h e, acting e = false -> P h e.

Lemma emits_record jc p d c wc w : emits (record_patch_unit_decision jc p d c wc) w.
Proof. apply emits_bind; [by apply emits_perform, reads|]. intros. apply emits_append_audit. Qed.

Lemma emits_deny jc p d e w : emits (_deny jc p d e) w.
Proof.
  unfold _deny. apply emits_bind; [by apply emits_silent|]. intros. apply emits_bind; [apply emits_record|]. intros.
  apply emits_bind; [by apply emits_silent|]. intros. apply emits_bind; [by apply emits_silent|]. intros. by apply emits_silent.
Qed.

Lemma emits_check_liveness r start_time deadline w : emits (_check_liveness r start_time deadline) w.
Proof.
  unfold _check_liveness. apply emits_bind; [destruct (has_cancellation_signal r); [by apply emits_perform, reads|by apply emits_silent]|]. intros.
  apply emits_bind; [apply emits_raise_when|]. intros. apply emits_bind; [by apply emits_perform, reads|]. intros. apply emits_raise_when.
Qed.
End emits.

Section permitted.
Context `{FloatRepr} `{UnicodeDB} `{PydanticDump} `{Printable} `{PatchContracts} `{Ports}.
Context (r : PatchUnitRunner) (jc : JobContext) (contract : ChangeplanActionContract) (hash : pystr) (start_time : f64) (deadline : Z).
Context (approved_ids : list pystr) (requests : list PatchUnitRequest).

(** The unit of the contract that an approved request names. *)
Definition approved_unit (request : PatchUnitRequest) (unit_ : PatchUnit) : Prop :=
  request ∈ requests /\ rq_patch_unit_id request ∈ approved_ids /\ get_patch_unit contract (rq_patch_unit_id request) = Ok unit_.

(** The last answer of the file system puts the target of [path] under the root
    of the worktree. *)
Definition confined (h : list effect) (wt : worktree) (path : pystr) : Prop :=
  exists q root target, _normalize_relative path = Ok q /\ last h = Some (Resolve wt q) /\ port_root h = Ok root /\ port_resolve h = Ok target /\
    root `prefix_of` target.

(** The worktree in use is the one that was created for the patch unit [p]: the
    last creation was for [p] and answered [wt]. *)
Definition is_create (e : effect) : bool := match e with Create _ _ _ _ => true | _ => false end.

Definition in_use (h : list effect) (wt : worktree) (p : pystr) : Prop :=
  exists h1 h2, let created := h1 ++ [Create (jc_tenant_id jc) (jc_run_id jc) p (cc_repo_commit contract)] in
    h = created ++ h2 /\ port_create created = Ok wt /\ Forall (fun e => is_create e = false) h2.

(** [wt] is the own worktree of an approved request, for a unit of the contract. *)
Definition serves (h : list effect) (wt : worktree) (request : PatchUnitRequest) (unit_ : PatchUnit) : Prop :=
  approved_unit request unit_ /\ own jc contract wt /\ in_use h wt (rq_patch_unit_id request).

(** What one unit may do in its worktree. *)
Definition unit_effect (request : PatchUnitRequest) (unit_ : PatchUnit) (own_wt : worktree) (h : list effect) (e : effect) : Prop :=
  match e with
  | Create _ _ _ _ => False
  | Write wt path content => wt = own_wt /\ confined h wt path /\
      {| fw_relative_path := path; fw_content := content |} ∈ rq_file_writes request /\
      may_write (pu_files unit_) (cc_approved_scope contract) path
  | Run argv wt => wt = own_wt /\ argv ∈ rq_commands request /\ may_run (pu_allowed_transformations unit_) argv
  | Commit wt message => wt = own_wt /\ message = u "patch unit " ++ rq_patch_unit_id request
  | Rollback wt => wt = own_wt
  | Register t run_id p _ base _ =>
      t = jc_tenant_id jc /\ run_id = jc_run_id jc /\ p = rq_patch_unit_id request /\ base = cc_repo_commit contract
  | _ => True
  end.

(** A worktree is created for an approved unit, and every other acting effect
    is one of the unit whose worktree is in use. *)
Definition permitted (h : list effect) (e : effect) : Prop :=
  match e with
  | Create t run_id p base => t = jc_tenant_id jc /\ run_id = jc_run_id jc /\ p ∈ approved_ids /\ base = cc_repo_commit contract
  | _ => acting e = true -> exists request unit_ wt, serves h wt request unit_ /\ unit_effect request unit_ wt h e
  end.

Lemma permitted_reads h e : acting e = false -> permitted h e.
Proof. by destruct e. Qed.

Lemma unit_reads request unit_ wt h e : acting e = false -> unit_effect request unit_ wt h e.
Proof. by destruct e. Qed.

Lemma in_use_step h e wt p : in_use h wt p -> is_create e = false -> in_use (h ++ [e]) wt p.
Proof.
  intros (h1 & h2 & -> & Hc & Hf) He. exists h1, (h2 ++ [e]). rewrite <- app_assoc. split; [done|]. split; [done|].
  apply Forall_app. by split; [|constructor].
Qed.

Lemma unit_permitted request unit_ wt h new : serves h wt request unit_ ->
  allowed_after (unit_effect request unit_ wt) h new -> allowed_after permitted h new.
Proof.
  revert h. induction new as [|e new IH]; intros h Hs; cbn; [done|]. intros [He Hnew]. split.
  - destruct e; cbn; try done; intros _; exists request, unit_, wt; split; done.
  - apply IH; [|done]. destruct Hs as (Hu & Ho & Hin). split; [done|]. split; [done|]. apply in_use_step; [done|]. by destruct e.
Qed.

Lemma emits_unit {A} request unit_ wt (m : M World runner_exn A) w : serves (effects w) wt request unit_ ->
  emits (unit_effect request unit_ wt) m w -> emits permitted m w.
Proof. intros Hs (new & E & Ha). exists new. split; [done|]. by eapply unit_permitted. Qed.

Lemma lift_agent_inv {A} (m : result AgentError A) (w w1 : World) a : lift (E := runner_exn) (agent m) w = (w1, Ok a) -> w1 = w /\ m = Ok a.
Proof. intros [-> Hm]%lift_inv. split; [done|]. unfold agent, try_except in Hm. destruct m; [by injection Hm as ->|done]. Qed.

Lemma resolve_confined wt path w w1 target : resolve_within_worktree wt path w = (w1, Ok target) -> confined (effects w1) wt path.
Proof.
  unfold resolve_within_worktree. intros [(w2 & q & [-> Hq]%lift_agent_inv & Hr)|(e & _ & [=])]%M_bind_inv. injection Hr as <- Hr.
  unfold resolved in Hr. apply bind_Ok in Hr as (root & Hroot & Hr). cbn [effects] in *.
  destruct (port_resolve _) as [t|[]] eqn:Et; try done. case_decide; [|done]. injection Hr as <-. exists q, root, t. split; [done|].
  split; [by rewrite last_snoc|]. done.
Qed.

Lemma write_files_permitted request unit_ wt fs w : fs ⊆ rq_file_writes request ->
  emits (unit_effect request unit_ wt) (write_files r contract start_time deadline unit_ wt fs) w.
Proof.
  revert w. induction fs as [|[path content] fs IH]; intros w Hfs; cbn [write_files fw_relative_path fw_content]; [by apply emits_silent|].
  apply emits_bind; [apply (emits_check_liveness _ (unit_reads _ _ _))|]. intros w1 [] _.
  apply emits_bind; [by apply emits_silent|]. intros w2 [] [-> Hp]%lift_agent_inv.
  apply emits_bind; [by apply emits_silent|]. intros w3 [] [-> Hs]%lift_agent_inv.
  apply emits_bind.
  { unfold resolve_within_worktree. apply emits_bind; [by apply emits_silent|]. intros. apply emits_perform. done. }
  intros w4 target Hr%resolve_confined.
  apply emits_bind; [|intros; apply IH; set_solver]. apply emits_perform. cbn. split; [done|]. split; [done|].
  split; [set_solver|]. by apply guards_may_write.
Qed.

Lemma run_commands_permitted request unit_ wt cmds w : cmds ⊆ rq_commands request ->
  emits (unit_effect request unit_ wt) (run_commands r start_time deadline unit_ wt cmds) w.
Proof.
  revert w. induction cmds as [|argv cmds IH]; intros w Hc; cbn [run_commands]; [by apply emits_silent|].
  apply emits_bind; [apply (emits_check_liveness _ (unit_reads _ _ _))|]. intros w1 [] _.
  apply emits_bind; [by apply emits_silent|]. intros w2 [] [-> Hg]%lift_agent_inv.
  apply emits_bind.
  { apply emits_perform. cbn. split; [done|]. split; [set_solver|]. by apply guard_command_exact. }
  intros w3 code _. apply emits_bind; [apply emits_raise_when|]. intros. apply IH. set_solver.
Qed.

Lemma execute_permitted request unit_ wt w :
  emits (unit_effect request unit_ wt) (execute r jc contract hash start_time deadline request unit_ wt) w.
Proof.
  unfold execute. apply emits_bind.
  - apply emits_try_agent. unfold attempt. apply emits_bind; [by eapply write_files_permitted|]. intros w1 _ _.
    apply emits_bind. { unfold check_budget. apply emits_bind; [by apply emits_perform|]. intros. apply emits_raise_when. }
    intros w2 _ _. apply emits_bind; [by eapply run_commands_permitted|]. intros w3 _ _.
    apply emits_bind; [by apply emits_perform|]. intros w4 files _. apply emits_bind; [by apply emits_perform|]. intros. by apply emits_silent.
  - intros w1 [e|[files commit]] _.
    + apply emits_bind; [by apply emits_perform|]. intros. apply (emits_deny _ (unit_reads _ _ _)).
    + unfold publish. apply emits_bind; [by apply emits_perform|]. intros.
      apply emits_bind; [by apply emits_perform|]. intros. apply emits_bind; [by apply emits_silent|]. intros.
      apply emits_bind; [by apply emits_silent|]. intros. apply emits_bind; [apply (emits_record _ (unit_reads _ _ _))|]. intros.
      apply emits_bind; [by apply emits_silent|]. intros. apply emits_bind; [by apply emits_silent|]. intros. by apply emits_silent.
Qed.

Lemma run_one_permitted request w : request ∈ requests ->
  emits permitted (_run_one r jc contract hash start_time deadline approved_ids request) w.
Proof.
  intros Hin. unfold _run_one. case_bool_decide as Hid; [apply (emits_deny _ permitted_reads)|].
  destruct (get_patch_unit _ _) as [unit_|e] eqn:Eu; [|apply (emits_deny _ permitted_reads)].
  apply emits_bind; [by apply emits_perform|]. intros w1 wt Hc.
  case_bool_decide as Ht; [apply (emits_deny _ permitted_reads)|]. case_bool_decide as Hb; [apply (emits_deny _ permitted_reads)|].
  apply (emits_unit request unit_ wt); [|apply execute_permitted]. injection Hc as <- Hc. cbn [effects].
  split; [by split_and!|]. split; [by split|].
  exists (effects w), []. cbv zeta. rewrite app_nil_r. split; [done|]. by split.
Qed.

Lemma run_all_permitted rs w : rs ⊆ requests -> emits permitted (run_all r jc contract hash start_time deadline approved_ids rs) w.
Proof.
  revert w. induction rs as [|request rs IH]; intros w Hrs; cbn [run_all]; [by apply emits_silent|].
  apply emits_bind; [apply run_one_permitted; set_solver|]. intros. apply emits_bind; [apply IH; set_solver|]. intros. by apply emits_silent.
Qed.
End permitted.

(** ** Theorems *)

Section theorems.
Context `{FloatRepr} `{UnicodeDB} `{PydanticDump} `{Printable} `{PatchContracts} `{Ports}.
Implicit Types (w : World).

Definition approved_units (approval : ApprovalDecision) : list pystr :=
  pd_patch_unit_id <$> filter (fun d => pd_decision d = approved) (ap_patch_unit_decisions approval).

(** An approval of the expected contract hash, for this tenant and run. *)
Definition authorises_run (approval : ApprovalDecision) (hash : pystr) (jc : JobContext) : Prop :=
  ap_contract_hash approval = hash /\ ap_tenant_id approval = jc_tenant_id jc /\ ap_run_id approval = jc_run_id jc /\ ap_decision approval = approved.

Lemma verify_approval_Ok approval hash jc ids : verify_approval approval hash (jc_tenant_id jc) (jc_run_id jc) = Ok ids <->
  authorises_run approval hash jc /\ ids = approved_units approval.
Proof.
  unfold verify_approval, authorises_run. rewrite !seq_Ok, !raise_if_Ok, !bool_decide_eq_false. split.
  - intros (Hh & Hi & Hd & [= <-]). apply dec_stable in Hh, Hd. split; [|done]. split_and!; try done; apply dec_stable; tauto.
  - intros ((-> & -> & -> & ->) & ->). split_and!; tauto.
Qed.

Lemma timed_audit_did a jc c p w w' res :
  (perform Now port_now ≫= append_audit a jc c p) w = (w', res) -> exists es, did [] es w w'.
Proof.
  intros [(w1 & now & [D1 _]%perform_inv & Ha)|(e & [D1 _]%perform_inv & ->)]%M_bind_inv; [|by exists []].
  apply append_audit_inv in Ha as [(en & _ & _ & D2)|(x & _ & ->)]; [|by exists []]. exists [en]. exact (did_trans _ _ _ _ _ _ _ D1 D2).
Qed.

(** A refusal that is recorded when [b], then raised. *)
Lemma refuse_did {A} (b : bool) (record : M World runner_exn unit) x w w' (res : result runner_exn A) :
  (forall w1 r1, record w = (w1, r1) -> exists es, did [] es w w1) ->
  (_ ← (if b then record else mret tt); throw x) w = (w', res) -> exists e es, res = Raise e /\ did [] es w w'.
Proof.
  intros Hrec Hg. assert (forall w1 r1, (if b then record else mret tt) w = (w1, r1) -> exists es, did [] es w w1) as Hd.
  { intros w1 r1. destruct b; [apply Hrec|]. intros [= <- <-]. exists []. apply did_refl. }
  apply M_bind_inv in Hg as [(w1 & [] & (es & D)%Hd & [= <- <-])|(y & (es & D)%Hd & ->)]; by eexists _, es.
Qed.

Lemma approval_gate_inv jc hash approval w w' res : approval_gate jc hash approval w = (w', res) ->
  (w' = w /\ res = Ok (approved_units approval) /\ authorises_run approval hash jc) \/ (exists e es, res = Raise e /\ did [] es w w').
Proof.
  unfold approval_gate. destruct (verify_approval _ _ _ _) as [ids|e] eqn:Ev.
  - intros [= <- <-]. apply verify_approval_Ok in Ev as [? ->]. by left.
  - intros Hg. right. eapply refuse_did; [|exact Hg]. intros w1 r1. apply timed_audit_did.
Qed.

Definition intact_bundle (r : PatchUnitRunner) (pin : option pystr) w : Prop :=
  has_skill_bundle_source r = true /\
  exists bundle h, port_bundle (effects w ++ [LoadBundle]) = Ok bundle /\ verify_skill_bundle pin bundle = Ok h.

Lemma enforce_inv r pin w w' res : enforce_skill_bundle_integrity r pin w = (w', res) ->
  did [] [] w w' /\ (is_ok res = true -> intact_bundle r pin w /\ effects w' = effects w ++ [LoadBundle]).
Proof.
  unfold enforce_skill_bundle_integrity, intact_bundle. destruct (has_skill_bundle_source r); [|intros [= <- <-]; split; [apply did_refl|done]].
  intros [(w1 & b & Hp & Hr)|(e & Hp & ->)]%M_bind_inv; pose proof (perform_inv _ _ _ _ _ Hp) as [D Hb]; [|by split].
  apply lift_inv in Hr as [-> ->]. split; [exact D|]. intros Hok. injection Hp as <- _. split; [|done]. split; [done|].
  destruct (verify_skill_bundle pin b) as [h|] eqn:Ev; [|done]. by exists b, h.
Qed.

Lemma bundle_gate_inv r jc pin w w' res : bundle_gate r jc pin w = (w', res) ->
  (res = Ok tt /\ did [] [] w w' /\ intact_bundle r pin w /\ effects w' = effects w ++ [LoadBundle]) \/ (exists e es, res = Raise e /\ did [] es w w').
Proof.
  unfold bundle_gate. destruct (enforce_skill_bundle_integrity r pin w) as [w1 [h|x]] eqn:Ee; apply enforce_inv in Ee as [D1 Hok].
  - intros [= <- <-]. left. destruct (Hok eq_refl). done.
  - intros Hg. right. destruct x; try (injection Hg as <- <-; eexists _, []; split; [done|exact D1]).
    eapply refuse_did in Hg as (y & es & -> & D2); [|intros w2 r2; apply timed_audit_did]. exists y, es. split; [done|].
    exact (did_trans _ _ _ _ _ _ _ D1 D2).
Qed.

Lemma aggregate_succeeded os : _aggregate_status os = SUCCEEDED <-> Forall (fun o => po_status o = SUCCEEDED) os.
Proof.
  unfold _aggregate_status. case_bool_decide as Hos; [by rewrite Hos|]. destruct (forallb _ _) eqn:Ef.
  - rewrite forallb_elem in Ef. split; [|done]. intros _. apply Forall_forall. intros o Ho.
    assert (po_status o ∈ po_status <$> os) as Hin by (by apply list_elem_of_fmap_2). by apply Ef, bool_decide_eq_true in Hin.
  - split; [by repeat case_bool_decide|]. intros Hall. assert (forallb (fun s => bool_decide (s = SUCCEEDED)) (po_status <$> os) = true) as Ht; [|congruence].
    apply forallb_elem. intros s (o & -> & Ho)%list_elem_of_fmap. apply bool_decide_eq_true. rewrite Forall_forall in Hall. by apply Hall.
Qed.

Lemma executed_succeeded jc contract requests os ls : Forall3 (transaction jc contract) requests os ls ->
  Forall (fun o => po_status o = SUCCEEDED) os <-> Forall (fun o => po_decision o = u "executed") os.
Proof.
  induction 1 as [|request o l requests os ls Ht _ IH]; [done|]. rewrite !Forall_cons, IH.
  destruct Ht as [(-> & -> & _)|(? & ? & _)]; tauto.
Qed.

(** C5: The runner does nothing that was not approved.  However the worktrees,
    the file system, the executor, the gateway and the clock behave, a run
    either only reads, or it has an approval that names the contract hash the
    caller expects, its tenant and its run, and an intact pinned skill bundle;
    then each worktree is created for an approved unit, and each write, command,
    commit, rollback and registration is of the approved request whose own
    worktree (of the tenant, at the base commit) was created last and is in use:
    a write is one of its writes, to a target inside the root of that worktree
    that the unit declares, a glob of the scope matches and no protected prefix
    covers; a command is one of its commands and passes the denylist and the
    allowlist of the unit; a commit bears its id; what is registered is its id.
    The code compares hashes and never recomputes the one of the contract: that
    the expected hash is the contract's is up to the caller. *)
Theorem execution_is_authorised r jc contract hash approval requests pin w :
  exists new, effects (run r jc contract hash approval requests pin w).1 = effects w ++ new /\
    (acts new = [] \/
     authorises_run approval hash jc /\ intact_bundle r pin w /\
     allowed_after (permitted jc contract (approved_units approval) requests) (effects w) new).
Proof.
  destruct (run r jc contract hash approval requests pin w) as [w' res] eqn:Er. cbn [fst]. unfold run in Er.
  apply M_bind_inv in Er as [(w1 & ids & Hg & Er)|(e & Hg & ->)]; apply approval_gate_inv in Hg as [(-> & Hi & Ha)|(e' & es & He & D)]; try congruence.
  2:{ destruct D as ((new & E & Hl) & _). exists new. split; [done|]. by left. }
  injection Hi as ->. apply M_bind_inv in Er as [(w1 & [] & Hb & Er)|(e & Hb & ->)];
    apply bundle_gate_inv in Hb as [(Hi & _ & Hint & E1)|(e' & es & He & D)]; try congruence.
  2:{ destruct D as ((new & E & Hl) & _). exists new. split; [done|]. by left. }
  assert (emits (permitted jc contract (approved_units approval) requests)
    (limits ← lift (job (resource_limits_for AGENT_RUNNER)); start_time ← perform Monotonic port_monotonic;
     outcomes ← run_all r jc contract hash start_time (active_deadline_seconds limits) (approved_units approval) requests;
     mret {| job_status := _aggregate_status outcomes; outcomes := outcomes |}) w1) as (new & E2 & Hal).
  { apply emits_bind; [by apply emits_silent|]. intros w2 limits _. apply emits_bind; [by apply emits_perform|]. intros w3 start _.
    apply emits_bind; [by apply run_all_permitted|]. intros. by apply emits_silent. }
  rewrite Er in E2. cbn [fst] in E2. exists (LoadBundle :: new). rewrite E2, E1, <- app_assoc. split; [done|]. right.
  split; [done|]. split; [done|]. cbn. split; [done|]. by rewrite <- E1.
Qed.

(** C6: Each patch unit is a transaction, and each is recorded.  A run that
    returns has one outcome and one new audit entry per request, in order.  A unit
    that succeeded did all of its writes and commands, one commit and one
    registration; every other was refused first, or did a beginning of them and
    was rolled back, with no commit and no artifact in its outcome.  The job
    succeeded exactly when every unit did.  In every run, also one that raises,
    the audit chain only grows and stays verified. *)
Theorem units_are_transactions r jc contract hash approval requests pin w :
  match run r jc contract hash approval requests pin w with
  | (w', Ok job) =>
      exists ls es, did (concat ls) es w w' /\
        Forall2 (fun request o => po_patch_unit_id o = rq_patch_unit_id request) requests (outcomes job) /\
        Forall3 (transaction jc contract) requests (outcomes job) ls /\ Forall2 recorded (outcomes job) es /\
        (job_status job = SUCCEEDED <-> Forall (fun o => po_decision o = u "executed") (outcomes job))
  | (w', Raise _) => exists l es, did l es w w'
  end.
Proof.
  destruct (run r jc contract hash approval requests pin w) as [w' res] eqn:Er. unfold run in Er.
  apply M_bind_inv in Er as [(w1 & ids & Hg & Er)|(e & Hg & ->)]; apply approval_gate_inv in Hg as [(-> & Hids & _)|(e' & es & He & D)]; try congruence; [|by eexists _, _].
  apply M_bind_inv in Er as [(w1 & [] & Hb & Er)|(e & Hb & ->)];
    apply bundle_gate_inv in Hb as [(Hi & D1 & _)|(e' & es & He & D)]; try congruence; [|by eexists _, _].
  apply M_bind_inv in Er as [(w2 & limits & [D2 _]%lift_did & Er)|(e & [D2 _]%lift_did & ->)]; pose proof (did_trans _ _ _ _ _ _ _ D1 D2) as D;
    [|by eexists _, _].
  apply M_bind_inv in Er as [(w3 & start & [D3 _]%perform_inv & Er)|(e & [D3 _]%perform_inv & ->)]; pose proof (did_trans _ _ _ _ _ _ _ D D3) as D';
    [|by eexists _, _].
  apply M_bind_inv in Er as [(w4 & os & Ho & [= <- <-])|(e & Ho & ->)]; apply run_all_units in Ho as (ls & es & D4 & Hall);
    pose proof (did_trans _ _ _ _ _ _ _ D' D4) as Dr; [|by eexists _, _].
  destruct (Hall os eq_refl) as (Hid & Ht & Hrec). exists ls, es. cbn [outcomes job_status]. split; [exact Dr|]. split_and!; try done.
  rewrite aggregate_succeeded. by eapply executed_succeeded.
Qed.

(** A unit that committed no file has no artifact: the run raises, after the
    commit. *)
Theorem empty_patch_aborts jc contract hash p unit_ commit w : is_ok (publish jc contract hash p unit_ [] commit w).2 = false.
Proof.
  unfold publish, mbind, M_bind, perform, lift. cbn. destruct (port_register _) as [ref|]; [|done]. cbn. destruct (port_now _) as [now|]; [|done]. cbn.
  unfold build_patch_artifact. match goal with |- context [patch_artifact_model ?c] => destruct (artifact_has_files c) as [text ->] end; [reflexivity|]. done.
Qed.
End theorems.

Module Witness.
#[local] Existing Instance ascii_db.
#[local] Existing Instance sci_float_repr.
#[local] Instance no_printable : Printable := fun _ => false.

#[local] Instance pairs : Worktrees := {| worktree := pystr * pystr; wt_tenant_id := fst; wt_base_commit := snd |}.

#[local, refine] Instance demo_contracts : PatchContracts := {|
  patch_artifact_model p := match dget p (u "changed_files") with Some (PList []) => Raise (u "too short") | _ => Ok p end;
  patch_completed_model p := Some p
|}.
Proof. intros p ->. by eexists. Defined.

(** A well-behaved environment but for the file writes. *)
Definition ports (on_write : result runner_exn unit) : Ports := {|
  port_cancelled _ := Ok false; port_monotonic _ := Ok (f64_int 5); port_now _ := Ok (u "2026-01-01T00:00:00Z"); port_bundle _ := Ok None;
  port_create es := match last es with Some (Create t _ _ b) => Ok (t, b) | _ => Raise Foreign end;
  port_root _ := Ok [u "/"; u "w"]; port_resolve _ := Ok [u "/"; u "w"; u "src"; u "a.py"]; port_write _ := on_write;
  port_diff_stat _ := Ok (1, 3)%Z; port_run _ := Ok 0%Z; port_changed_files _ := Ok [u "src/a.py"]; port_commit _ := Ok (u "abcdef0");
  port_rollback _ := Ok tt; port_register _ := Ok {| ra_manifest_uri := u "m"; ra_artifact_uri := u "a"; ra_artifact_hash := u "h" |}
|}.

Definition context : JobContext := {|
  jc_tenant_id := u "acme"; jc_workspace_id := u "w"; jc_project_id := u "p"; jc_run_id := u "r1";
  jc_trace_id := u "0123456789abcdef0123456789abcdef"; jc_idempotency_key := u "k"; jc_actor_id := u "op"
|}.
Definition unit_1 : PatchUnit := {|
  pu_id := u "pu1"; pu_files := [u "src/a.py"]; pu_allowed_transformations := [u "pytest"]; pu_tests := [u "t1"]; pu_rollback := u "rb"
|}.
Definition contract_1 : ChangeplanActionContract := {|
  cc_repo_commit := u "c0"; cc_approved_scope := [u "src/*"]; cc_patch_units := [unit_1]; cc_max_files := 1; cc_max_lines := 10; cc_hypotheses := []
|}.
Definition request (path : string) : PatchUnitRequest := {|
  rq_patch_unit_id := u "pu1"; rq_file_writes := [{| fw_relative_path := u path; fw_content := [] |}]; rq_commands := [[u "pytest"; u "-q"]]
|}.
Definition runner : PatchUnitRunner := {| has_cancellation_signal := true; has_skill_bundle_source := true |}.
Definition start : World := {| effects := []; chain := [] |}.
Definition one (on_write : result runner_exn unit) (path : string) : World * result runner_exn PatchUnitOutcome :=
  let _ := ports on_write in _run_one runner context contract_1 (u "h") (f64_int 0) 7200 [u "pu1"] (request path) start.

(** The unit is executed, committed, registered and recorded. *)
Example unit_executes :
  let '(w, res) := one (Ok tt) "src/a.py" in
  let wt : worktree := (u "acme", u "c0") in
  (acts (effects w), length (chain w), po_status <$> res) =
  ([creation context contract_1 (request "src/a.py"); Write wt (u "src/a.py") []; Run [u "pytest"; u "-q"] wt; Commit wt (u "patch unit pu1");
    Register (u "acme") (u "r1") (u "pu1") (u "abcdef0") (u "c0") [u "src/a.py"]], 1, Ok SUCCEEDED).
Proof. vm_compute. reflexivity. Qed.

(** A write that fails with an [OSError] leaves the worktree as it is: no
    rollback, no audit entry, no outcome. *)
Example os_error_skips_rollback :
  let '(w, res) := one (Raise Os) "src/a.py" in
  (acts (effects w), chain w, res) =
  ([creation context contract_1 (request "src/a.py"); Write ((u "acme", u "c0") : worktree) (u "src/a.py") []], [], Raise Os).
Proof. vm_compute. reflexivity. Qed.

(** The text of a denial quotes the path; a path that holds the marker of a
    stack trace makes the denial itself raise, unrecorded. *)
Example marked_path_is_not_recorded :
  let '(w, res) := one (Ok tt) "docs/specs/Traceback (most recent call last)" in
  (chain w, res) = ([], Raise (Job (JobErrorValidationError FieldSummary))).
Proof. vm_compute. reflexivity. Qed.
End Witness.
