(* ===== verification/ClaimLedger.v ===== *)
(** The claim and evidence ledger (claim-evidence-service): when a claim may be
    published, the append-only chain of claim and evidence entries, the store
    that keeps one ledger for each project of a tenant, and the projection of a
    ledger into the graph of [Qeeg].

    A ledger is a tuple of entries.  The map of link statuses is mutable state
    next to it, which an operation changes before it can still raise; an
    operation is a computation over that map, and one over the store below its
    single lock. *)

From Stdlib Require Import SpecFloat QArith Lqa.
From S2P Require Import Prelude PyStr Sha256 PyVal Canonical PyTime Rational PyCmp Float64 Qeeg.
Local Open Scope Z_scope.

(** ** The generated models and errors.py *)

Record ExtractedClaim := {
  ec_tenant_id : pystr; ec_project_id : pystr; ec_claim_id : pystr; ec_entity_id : pystr;
  ec_claim_text : pystr; ec_status : pystr; ec_effective_from : pystr; ec_created_at : pystr
}.

Record EvidenceRecord := {
  er_tenant_id : pystr; er_project_id : pystr; er_evidence_id : pystr; er_claim_id : pystr;
  er_source_uri : pystr; er_excerpt : pystr; er_freshness_checked_at : pystr; er_content_hash : pystr
}.

#[export] Instance ExtractedClaim_eq_dec : EqDecision ExtractedClaim.
Proof. solve_decision. Defined.
#[export] Instance EvidenceRecord_eq_dec : EqDecision EvidenceRecord.
Proof. solve_decision. Defined.

Inductive claim_exn :=
  | DuplicateClaimIdError (claim_id : pystr) | DuplicateEvidenceIdError (evidence_id : pystr)
  | ClaimNotFoundError (claim_id : pystr) | EvidenceClaimMismatchError (claim_id evidence_id : pystr)
  | UnknownEvidenceLinkError (evidence_id : pystr) | CrossTenantLedgerAccessError (requested_tenant_id : pystr)
  | LedgerIntegrityError (broken_index : option nat) | ClaimPy (e : pyexn).

Definition builtin {A} (m : result pyexn A) : result claim_exn A := try_except m (fun e => Raise (ClaimPy e)).

(** ** evaluation.py *)

Inductive EvidenceLinkStatus := LINKED | BLOCKED.

#[export] Instance EvidenceLinkStatus_eq_dec : EqDecision EvidenceLinkStatus.
Proof. solve_decision. Defined.

Abbreviation links := (gmap pystr EvidenceLinkStatus).

Record EvidenceFreshnessPolicy := { max_age_seconds : Z }.

Definition make_EvidenceFreshnessPolicy (n : Z) : result pyexn EvidenceFreshnessPolicy :=
  _ ← raise_if (n <=? 0) ValueError; Ok {| max_age_seconds := n |}.

Definition _parse_timestamp_utc (value : pystr) : result pyexn datetime := parse_zulu value.

(** [a - b] distinguishes the cases of a comparison. *)
Definition datetime_sub (a b : datetime) : result pyexn Z := datetime_cmp a b.

(** [delta.total_seconds()]: the nearest float. *)
Definition total_seconds (delta : Z) : f64 := f64_of (round_exact false (delta # 1000000)).

Definition is_evidence_fresh (evidence : EvidenceRecord) (policy : EvidenceFreshnessPolicy) (now : datetime)
    : result pyexn bool :=
  checked_at ← _parse_timestamp_utc (er_freshness_checked_at evidence);
  age ← datetime_sub now checked_at;
  let age_seconds := total_seconds age in
  if f64_lt age_seconds (f64_int 0) then Ok false
  else py_le (PFloat age_seconds) (PInt (max_age_seconds policy)).

Record ClaimPublishability := {
  cp_claim_id : pystr; cp_publishable : bool; cp_blocking_reasons : list pystr;
  cp_supporting_evidence_ids : list pystr
}.

#[export] Instance ClaimPublishability_eq_dec : EqDecision ClaimPublishability.
Proof. solve_decision. Defined.

Definition unsupported (claim_id : pystr) : ClaimPublishability := {|
  cp_claim_id := claim_id; cp_publishable := false; cp_blocking_reasons := [u "no_evidence"];
  cp_supporting_evidence_ids := []
|}.

(** The loop: what supports, and why the rest does not. *)
Fixpoint weigh (evidence_records : list EvidenceRecord) (link_statuses : links)
    (policy : EvidenceFreshnessPolicy) (now : datetime) (supporting : list pystr) (reasons : gset pystr)
    : result pyexn (list pystr * gset pystr) :=
  match evidence_records with
  | [] => Ok (supporting, reasons)
  | evidence :: rest =>
      let status := default BLOCKED (link_statuses !! er_evidence_id evidence) in
      if decide (status = BLOCKED) then weigh rest link_statuses policy now supporting ({[u "blocked"]} ∪ reasons)
      else
        fresh ← is_evidence_fresh evidence policy now;
        if negb fresh then weigh rest link_statuses policy now supporting ({[u "stale"]} ∪ reasons)
        else weigh rest link_statuses policy now (supporting ++ [er_evidence_id evidence]) reasons
  end.

Definition or_no_evidence (reasons : list pystr) : list pystr :=
  match reasons with [] => [u "no_evidence"] | _ => reasons end.

Definition evaluate_claim_publishability (claim_id : pystr) (evidence_records : list EvidenceRecord)
    (link_statuses : links) (policy : EvidenceFreshnessPolicy) (now : datetime) : result pyexn ClaimPublishability :=
  match evidence_records with
  | [] => Ok (unsupported claim_id)
  | _ =>
      '(supporting, reasons) ← weigh evidence_records link_statuses policy now [] ∅;
      let publishable := (0 <? length supporting)%nat in
      Ok {| cp_claim_id := claim_id; cp_publishable := publishable;
            cp_blocking_reasons := if publishable then [] else or_no_evidence (sort_by id (elements reasons));
            cp_supporting_evidence_ids := supporting |}
  end.

(** ** ledger.py and hashing.py *)

Definition DEFAULT_FRESHNESS_POLICY : EvidenceFreshnessPolicy := {| max_age_seconds := 90 * 24 * 3600 |}.

Record ClaimEvidenceLedgerEntry := {
  le_kind : pystr; le_tenant_id : pystr; le_project_id : pystr; le_claim : option ExtractedClaim;
  le_evidence : option EvidenceRecord; le_publishability : option ClaimPublishability;
  le_canonical_hash : pystr; le_previous_hash : option pystr
}.

Abbreviation ClaimEvidenceLedgerState := (list ClaimEvidenceLedgerEntry).

Definition make_ClaimEvidenceLedgerEntry (e : ClaimEvidenceLedgerEntry) : result pyexn ClaimEvidenceLedgerEntry :=
  _ ← raise_if (negb (bool_decide (le_kind e ∈ [u "claim"; u "evidence"]))) ValueError;
  _ ← raise_if (bool_decide (le_kind e = u "claim") && bool_decide (le_claim e = None)) ValueError;
  _ ← raise_if (bool_decide (le_kind e = u "evidence") && bool_decide (le_evidence e = None)) ValueError;
  Ok e.

(** [entry.kind == "claim" and entry.claim is not None], and the claim. *)
Definition claim_of (e : ClaimEvidenceLedgerEntry) : option ExtractedClaim :=
  if decide (le_kind e = u "claim") then le_claim e else None.
Definition evidence_of (e : ClaimEvidenceLedgerEntry) : option EvidenceRecord :=
  if decide (le_kind e = u "evidence") then le_evidence e else None.

Definition _claim_material (c : ExtractedClaim) : list (pystr * pystr) :=
  [(u "kind", u "claim"); (u "tenant_id", ec_tenant_id c); (u "project_id", ec_project_id c);
   (u "claim_id", ec_claim_id c); (u "entity_id", ec_entity_id c); (u "claim_text", ec_claim_text c);
   (u "status", ec_status c); (u "effective_from", ec_effective_from c); (u "created_at", ec_created_at c)].

Definition _evidence_material (e : EvidenceRecord) : list (pystr * pystr) :=
  [(u "kind", u "evidence"); (u "tenant_id", er_tenant_id e); (u "project_id", er_project_id e);
   (u "evidence_id", er_evidence_id e); (u "claim_id", er_claim_id e); (u "source_uri", er_source_uri e);
   (u "excerpt", er_excerpt e); (u "freshness_checked_at", er_freshness_checked_at e);
   (u "content_hash", er_content_hash e)].

(** [d[k] = v] on the items in insertion order. *)
Fixpoint dict_set {A} (d : list (pystr * A)) (k : pystr) (v : A) : list (pystr * A) :=
  match d with
  | [] => [(k, v)]
  | (k', x) :: d => if decide (k' = k) then (k', v) :: d else (k', x) :: dict_set d k v
  end.

(** Its callers only look ids up. *)
Definition _latest_claims (ledger_state : ClaimEvidenceLedgerState) : gmap pystr ClaimEvidenceLedgerEntry :=
  fold_left (fun latest e => match claim_of e with Some c => <[ec_claim_id c := e]> latest | None => latest end)
    ledger_state ∅.

Definition _all_evidence_for_claim (ledger_state : ClaimEvidenceLedgerState) (claim_id : pystr) : list EvidenceRecord :=
  snd <$> fold_left (fun latest_by_id e =>
            match evidence_of e with
            | Some ev => if decide (er_claim_id ev = claim_id) then dict_set latest_by_id (er_evidence_id ev) ev else latest_by_id
            | None => latest_by_id
            end) ledger_state [].

Definition tail_hash (ledger_state : ClaimEvidenceLedgerState) : option pystr := le_canonical_hash <$> last ledger_state.

(** The last evidence entry of an id: [next(... reversed(ledger_state) ...)]. *)
Definition find_evidence (ledger_state : ClaimEvidenceLedgerState) (evidence_id : pystr)
    : option (ClaimEvidenceLedgerEntry * EvidenceRecord) :=
  head (omap (fun e => match evidence_of e with
                       | Some ev => if decide (er_evidence_id ev = evidence_id) then Some (e, ev) else None
                       | None => None
                       end) (reverse ledger_state)).

Section ledger.
Context `{FloatRepr}.

Definition _prefixed_hash (material : list (pystr * pystr)) : result pyexn pystr :=
  sha256_ref (PDict (prod_map id PStr <$> material)).

Definition compute_evidence_content_hash (tenant_id project_id evidence_id claim_id source_uri excerpt : pystr)
    : result pyexn pystr :=
  _prefixed_hash [(u "tenant_id", tenant_id); (u "project_id", project_id); (u "evidence_id", evidence_id);
                  (u "claim_id", claim_id); (u "source_uri", source_uri); (u "excerpt", excerpt)].

Definition compute_ledger_entry_hash (material : list (pystr * pystr)) : result pyexn pystr := _prefixed_hash material.

Definition _reevaluate (ledger_state : ClaimEvidenceLedgerState) (claim_id : pystr) (link_statuses : links)
    (policy : EvidenceFreshnessPolicy) (now : datetime) : result claim_exn ClaimEvidenceLedgerState :=
  match (current ← _latest_claims ledger_state !! claim_id; (fun c => (current, c)) <$> le_claim current) with
  | None => Raise (ClaimNotFoundError claim_id)
  | Some (current, claim) =>
      let evidence_records := _all_evidence_for_claim ledger_state claim_id in
      publishability ← builtin (evaluate_claim_publishability claim_id evidence_records link_statuses policy now);
      if decide (le_publishability current = Some publishability) then Ok ledger_state
      else
        canonical_hash ← builtin (compute_ledger_entry_hash (_claim_material claim));
        entry ← builtin (make_ClaimEvidenceLedgerEntry
          {| le_kind := u "claim"; le_tenant_id := le_tenant_id current; le_project_id := le_project_id current;
             le_claim := Some claim; le_evidence := None; le_publishability := Some publishability;
             le_canonical_hash := canonical_hash; le_previous_hash := tail_hash ledger_state |});
        Ok (ledger_state ++ [entry])
  end.

Definition _parse_effective_from (claim : ExtractedClaim) : result pyexn datetime := parse_zulu (ec_effective_from claim).

Definition append_claim (ledger_state : ClaimEvidenceLedgerState) (claim : ExtractedClaim)
    : result claim_exn (ClaimEvidenceLedgerState * ClaimEvidenceLedgerEntry) :=
  match (existing ← _latest_claims ledger_state !! ec_claim_id claim; (fun c => (existing, c)) <$> le_claim existing) with
  | Some (existing, stored) =>
      if decide (_claim_material stored = _claim_material claim) then Ok (ledger_state, existing)
      else Raise (DuplicateClaimIdError (ec_claim_id claim))
  | None =>
      canonical_hash ← builtin (compute_ledger_entry_hash (_claim_material claim));
      now ← builtin (_parse_effective_from claim);
      publishability ← builtin (evaluate_claim_publishability (ec_claim_id claim) [] ∅ DEFAULT_FRESHNESS_POLICY now);
      entry ← builtin (make_ClaimEvidenceLedgerEntry
        {| le_kind := u "claim"; le_tenant_id := ec_tenant_id claim; le_project_id := ec_project_id claim;
           le_claim := Some claim; le_evidence := None; le_publishability := Some publishability;
           le_canonical_hash := canonical_hash; le_previous_hash := tail_hash ledger_state |});
      Ok (ledger_state ++ [entry], entry)
  end.

Definition append_evidence (ledger_state : ClaimEvidenceLedgerState) (evidence : EvidenceRecord)
    (policy : EvidenceFreshnessPolicy) (now : datetime)
    : M links claim_exn (ClaimEvidenceLedgerState * ClaimEvidenceLedgerEntry) :=
  match _latest_claims ledger_state !! er_claim_id evidence with
  | None => throw (EvidenceClaimMismatchError (er_claim_id evidence) (er_evidence_id evidence))
  | Some _ =>
      match find_evidence ledger_state (er_evidence_id evidence) with
      | Some (existing_entry, existing_evidence) =>
          if decide (_evidence_material existing_evidence = _evidence_material evidence)
          then mret (ledger_state, existing_entry)
          else throw (DuplicateEvidenceIdError (er_evidence_id evidence))
      | None =>
          canonical_hash ← lift (builtin (compute_ledger_entry_hash (_evidence_material evidence)));
          entry ← lift (builtin (make_ClaimEvidenceLedgerEntry
            {| le_kind := u "evidence"; le_tenant_id := er_tenant_id evidence; le_project_id := er_project_id evidence;
               le_claim := None; le_evidence := Some evidence; le_publishability := None;
               le_canonical_hash := canonical_hash; le_previous_hash := tail_hash ledger_state |}));
          _ ← modify (fun link_statuses =>
                <[er_evidence_id evidence := default LINKED (link_statuses !! er_evidence_id evidence)]> link_statuses);
          link_statuses ← gets id;
          new_state ← lift (_reevaluate (ledger_state ++ [entry]) (er_claim_id evidence) link_statuses policy now);
          mret (new_state, entry)
      end
  end.

(** The claim of the first evidence entry of an id. *)
Definition owning_claim_id (ledger_state : ClaimEvidenceLedgerState) (evidence_id : pystr) : option pystr :=
  head (omap (fun e => match evidence_of e with
                       | Some ev => if decide (er_evidence_id ev = evidence_id) then Some (er_claim_id ev) else None
                       | None => None
                       end) ledger_state).

Definition set_evidence_link_status (ledger_state : ClaimEvidenceLedgerState) (evidence_id : pystr)
    (status : EvidenceLinkStatus) (policy : EvidenceFreshnessPolicy) (now : datetime)
    : M links claim_exn ClaimEvidenceLedgerState :=
  match owning_claim_id ledger_state evidence_id with
  | None => throw (UnknownEvidenceLinkError evidence_id)
  | Some claim_id =>
      _ ← modify (fun link_statuses => <[evidence_id := status]> link_statuses);
      link_statuses ← gets id;
      lift (_reevaluate ledger_state claim_id link_statuses policy now)
  end.

Fixpoint verify_from (expected_prev : option pystr) (index : nat) (ledger_state : ClaimEvidenceLedgerState)
    : result pyexn (bool * option nat) :=
  match ledger_state with
  | [] => Ok (true, None)
  | entry :: rest =>
      if decide (le_previous_hash entry = expected_prev) then
        match _claim_material <$> claim_of entry, _evidence_material <$> evidence_of entry with
        | Some material, _ | None, Some material =>
            recomputed ← compute_ledger_entry_hash material;
            if decide (recomputed = le_canonical_hash entry) then verify_from (Some (le_canonical_hash entry)) (S index) rest
            else Ok (false, Some index)
        | None, None => Ok (false, Some index)
        end
      else Ok (false, Some index)
  end.

Definition verify_ledger_chain (ledger_state : ClaimEvidenceLedgerState) : result pyexn (bool * option nat) :=
  verify_from None 0 ledger_state.

Definition raise_if_broken (ledger_state : ClaimEvidenceLedgerState) : result claim_exn unit :=
  '(ok, index) ← builtin (verify_ledger_chain ledger_state);
  raise_if (negb ok) (LedgerIntegrityError index).
End ledger.

(** ** events.py *)

(** Not only the entries of the kind: any entry that carries a claim. *)
Definition summarize_ledger (ledger_state : ClaimEvidenceLedgerState) : nat * nat :=
  (size (list_to_set (ec_claim_id <$> omap le_claim ledger_state) : gset pystr),
   size (list_to_set (er_evidence_id <$> omap le_evidence ledger_state) : gset pystr)).

Definition versioned_payload (project_id ledger_version provenance_ref : pystr) (ledger_state : ClaimEvidenceLedgerState)
    : list (pystr * pyval) :=
  let '(claim_count, evidence_count) := summarize_ledger ledger_state in
  [(u "project_id", PStr project_id); (u "ledger_version", PStr ledger_version);
   (u "claim_count", PInt (Z.of_nat claim_count)); (u "evidence_count", PInt (Z.of_nat evidence_count));
   (u "provenance_ref", PStr provenance_ref)].

(** ** store.py *)

Record ClaimEvidenceStore := {
  _ledgers : gmap (pystr * pystr) ClaimEvidenceLedgerState;
  _link_statuses : gmap (pystr * pystr) links
}.

Definition empty_store : ClaimEvidenceStore := {| _ledgers := ∅; _link_statuses := ∅ |}.

Definition ledger_at (key : pystr * pystr) (s : ClaimEvidenceStore) : ClaimEvidenceLedgerState := default [] (_ledgers s !! key).
Definition links_at (key : pystr * pystr) (s : ClaimEvidenceStore) : links := default ∅ (_link_statuses s !! key).

Definition put_ledger (key : pystr * pystr) (l : ClaimEvidenceLedgerState) (s : ClaimEvidenceStore) : ClaimEvidenceStore :=
  {| _ledgers := <[key := l]> (_ledgers s); _link_statuses := _link_statuses s |}.
Definition put_links (key : pystr * pystr) (l : links) (s : ClaimEvidenceStore) : ClaimEvidenceStore :=
  {| _ledgers := _ledgers s; _link_statuses := <[key := l]> (_link_statuses s) |}.

(** A computation over the mutable map of a key. *)
Definition in_links {A} (key : pystr * pystr) (m : M links claim_exn A) : M ClaimEvidenceStore claim_exn A := fun s =>
  let '(l, r) := m (links_at key s) in (put_links key l s, r).

Definition _guard_tenant (tenant_id record_tenant_id : pystr) : result claim_exn unit :=
  raise_if (negb (bool_decide (tenant_id = record_tenant_id))) (CrossTenantLedgerAccessError tenant_id).

Section store.
Context `{FloatRepr}.

Definition store_append_claim (tenant_id : pystr) (claim : ExtractedClaim)
    : M ClaimEvidenceStore claim_exn ClaimEvidenceLedgerEntry :=
  _ ← lift (_guard_tenant tenant_id (ec_tenant_id claim));
  let key := (tenant_id, ec_project_id claim) in
  ledger_state ← gets (ledger_at key);
  '(new_state, entry) ← lift (append_claim ledger_state claim);
  _ ← modify (put_ledger key new_state);
  _ ← modify (fun s => put_links key (links_at key s) s);
  mret entry.

Definition store_append_evidence (tenant_id : pystr) (evidence : EvidenceRecord) (now : datetime)
    (policy : EvidenceFreshnessPolicy) : M ClaimEvidenceStore claim_exn ClaimEvidenceLedgerEntry :=
  _ ← lift (_guard_tenant tenant_id (er_tenant_id evidence));
  let key := (tenant_id, er_project_id evidence) in
  ledger_state ← gets (ledger_at key);
  '(new_state, entry) ← in_links key (append_evidence ledger_state evidence policy now);
  _ ← modify (put_ledger key new_state);
  mret entry.

Definition store_set_evidence_link_status (tenant_id project_id evidence_id : pystr) (status : EvidenceLinkStatus)
    (now : datetime) (policy : EvidenceFreshnessPolicy) : M ClaimEvidenceStore claim_exn ClaimEvidenceLedgerState :=
  let key := (tenant_id, project_id) in
  ledger_state ← gets (ledger_at key);
  new_state ← in_links key (set_evidence_link_status ledger_state evidence_id status policy now);
  _ ← modify (put_ledger key new_state);
  mret new_state.
End store.

Definition get_ledger (s : ClaimEvidenceStore) (tenant_id project_id : pystr) : ClaimEvidenceLedgerState :=
  ledger_at (tenant_id, project_id) s.

Definition get_claim_publishability (s : ClaimEvidenceStore) (tenant_id project_id claim_id : pystr)
    : result claim_exn ClaimPublishability :=
  match head (filter (fun e => ec_claim_id <$> claim_of e = Some claim_id) (reverse (get_ledger s tenant_id project_id))) with
  | Some entry =>
      match le_publishability entry with Some p => Ok p | None => Raise (ClaimPy AssertionError) end
  | None => Raise (ClaimNotFoundError claim_id)
  end.

(** ** qeeg_projection.py *)

Inductive projection_exn := AQeeg (e : qeeg_exn) | AnAssertion.

Definition _LINK_STATUS_MAP (s : EvidenceLinkStatus) : QeegLinkStatus :=
  match s with LINKED => QLINKED | BLOCKED => QBLOCKED end.

Definition _claim_entry_to_fact (e : ClaimEvidenceLedgerEntry) : result projection_exn fact :=
  match le_claim e, le_publishability e with
  | Some claim, Some p =>
      Ok (AClaim {| cf_tenant_id := le_tenant_id e; cf_project_id := le_project_id e; cf_claim_id := ec_claim_id claim;
                    cf_entity_id := ec_entity_id claim; cf_status := ec_status claim; cf_publishable := cp_publishable p;
                    cf_blocking_reasons := cp_blocking_reasons p;
                    cf_supporting_evidence_ids := cp_supporting_evidence_ids p |})
  | _, _ => Raise AnAssertion
  end.

Definition _evidence_entry_to_fact (e : ClaimEvidenceLedgerEntry) (link_statuses : links) : result projection_exn fact :=
  match le_evidence e with
  | Some evidence =>
      Ok (AnEvidence {| ef_tenant_id := le_tenant_id e; ef_project_id := le_project_id e;
                        ef_evidence_id := er_evidence_id evidence; ef_claim_id := er_claim_id evidence;
                        ef_link_status := _LINK_STATUS_MAP (default BLOCKED (link_statuses !! er_evidence_id evidence)) |})
  | None => Raise AnAssertion
  end.

Definition build_qeeg_projection (tenant_id : pystr) (ledger_state : ClaimEvidenceLedgerState) (link_statuses : option links)
    : result projection_exn QeegProjectionState :=
  facts ← mapM (fun e => if decide (le_kind e = u "claim") then _claim_entry_to_fact e
                         else _evidence_entry_to_fact e (default ∅ link_statuses))
            (filter (fun e => le_tenant_id e = tenant_id) ledger_state);
  try_except (replay_from (empty_projection tenant_id) facts) (fun e => Raise (AQeeg e)).

Definition replay_qeeg_projection_from_store (s : ClaimEvidenceStore) (tenant_id project_id : pystr)
    : result projection_exn QeegProjectionState :=
  build_qeeg_projection tenant_id (get_ledger s tenant_id project_id) None.

(** ** Freshness and support *)

(** Every timestamp of the contracts is aware, in the zone [utc]. *)
Lemma parse_zulu_utc s d : parse_zulu s = Ok d -> tz d = Some utc /\ offset_of d = Some 0.
Proof.
  unfold parse_zulu, make_utc. intros (_ & _ & Hd)%bind_Ok. injection Hd as <-. done.
Qed.

(** An aware [now] in the range of a datetime, in a zone that is [utc] when it
    has its identity. *)
Definition proper_clock (now : datetime) : Prop :=
  is_naive now = false /\ (tz_identity <$> tz now = Some (tz_identity utc) -> offset_of now = Some 0) /\
  0 <= wall now < MAX_WALL /\ Z.abs (default 0 (offset_of now)) < DAY.

Lemma age_instant now checked : proper_clock now -> tz checked = Some utc -> offset_of checked = Some 0 ->
  datetime_sub now checked = Ok (instant now - instant checked).
Proof.
  intros (Hn & Hp & _) Hz Ho. apply datetime_cmp_instant; [done| |].
  - unfold is_naive. by rewrite Ho.
  - intros Hs. apply bool_decide_eq_true in Hs. rewrite Hz in Hs. rewrite Ho. by apply Hp.
Qed.

Lemma py_le_float f z : exists b, py_le (PFloat f) (PInt z) = Ok b.
Proof. unfold py_le. cbn. by eexists. Qed.

Lemma fresh_total ev policy now d :
  proper_clock now -> _parse_timestamp_utc (er_freshness_checked_at ev) = Ok d -> exists b, is_evidence_fresh ev policy now = Ok b.
Proof.
  intros Hc Hd. unfold is_evidence_fresh. rewrite Hd. cbn [mbind result_bind].
  destruct (parse_zulu_utc _ _ Hd) as [Hz Ho]. rewrite (age_instant now d Hc Hz Ho). cbn [mbind result_bind].
  case_match; [by eexists|apply py_le_float].
Qed.

Definition link_ok (l : links) (ev : EvidenceRecord) : Prop := l !! er_evidence_id ev = Some LINKED.

Definition supports (l : links) (policy : EvidenceFreshnessPolicy) (now : datetime) (ev : EvidenceRecord) : Prop :=
  link_ok l ev /\ is_evidence_fresh ev policy now = Ok true.

#[export] Instance supports_dec l policy now ev : Decision (supports l policy now ev).
Proof. unfold supports, link_ok. apply _. Defined.

Definition answers (l : links) (policy : EvidenceFreshnessPolicy) (now : datetime) (ev : EvidenceRecord) : Prop :=
  link_ok l ev -> exists b, is_evidence_fresh ev policy now = Ok b.

Lemma status_blocked (l : links) i : default BLOCKED (l !! i) = BLOCKED <-> l !! i <> Some LINKED.
Proof. destruct (l !! i) as [[]|]; naive_solver. Qed.

Lemma weigh_Ok l policy now evs : forall supporting reasons supporting' reasons',
  weigh evs l policy now supporting reasons = Ok (supporting', reasons') ->
  supporting' = supporting ++ (er_evidence_id <$> filter (supports l policy now) evs) /\
  Forall (answers l policy now) evs /\ reasons ⊆ reasons' /\
  (evs <> [] -> filter (supports l policy now) evs = [] -> reasons' <> ∅).
Proof.
  induction evs as [|ev evs IH]; intros sup rs sup' rs'; cbn [weigh].
  { intros [= <- <-]. rewrite app_nil_r. done. }
  destruct (decide (default BLOCKED (l !! er_evidence_id ev) = BLOCKED)) as [Hb%status_blocked|Hb].
  - intros (Hs & Hf & Hr & _)%IH. rewrite filter_cons_False by (by intros [? _]). split; [done|].
    split; [constructor; [by intros ?|done]|]. set_solver.
  - assert (link_ok l ev) as Hl by (unfold link_ok; destruct (l !! er_evidence_id ev) as [[]|]; done).
    intros (b & Hfr & Hk)%bind_Ok.
    assert (answers l policy now ev) as Ha by (intros _; by eexists).
    destruct b; cbn [negb] in Hk; apply IH in Hk as (Hs & Hf & Hr & Hn).
    + rewrite filter_cons_True by (by split). split; [by rewrite Hs, <- app_assoc|]. split; [by constructor|]. split; [done|]. done.
    + rewrite filter_cons_False by (intros [_ ?]; congruence). split; [done|]. split; [by constructor|]. set_solver.
Qed.

Lemma weigh_total l policy now evs : forall supporting reasons,
  Forall (answers l policy now) evs -> exists r, weigh evs l policy now supporting reasons = Ok r.
Proof.
  induction evs as [|ev evs IH]; intros sup rs; cbn [weigh]; [by eexists|]. intros [Ha Hf]%Forall_cons.
  destruct (decide _) as [Hb|Hb]; [by apply IH|]. rewrite status_blocked in Hb.
  destruct Ha as [b ->]; [unfold link_ok; destruct (l !! er_evidence_id ev) as [[]|]; naive_solver|]. cbn [mbind result_bind].
  destruct b; cbn [negb]; by apply IH.
Qed.

Lemma weigh_ext l1 l2 policy now evs : forall supporting reasons,
  (forall ev, ev ∈ evs -> l1 !! er_evidence_id ev = l2 !! er_evidence_id ev) ->
  weigh evs l1 policy now supporting reasons = weigh evs l2 policy now supporting reasons.
Proof.
  induction evs as [|ev evs IH]; intros sup rs Hl; cbn [weigh]; [done|]. rewrite (Hl ev) by left.
  assert (forall e, e ∈ evs -> l1 !! er_evidence_id e = l2 !! er_evidence_id e) as Hl' by (intros e He; apply Hl; by right).
  destruct (decide _); [by apply IH|]. destruct (is_evidence_fresh ev policy now) as [[]|]; cbn [mbind result_bind negb]; [by apply IH..|done].
Qed.

(** What an evaluation says: the ids of the evidence that supports, and
    publishable exactly when there is one, without reasons exactly then. *)
Lemma evaluate_Ok c evs l policy now p :
  evaluate_claim_publishability c evs l policy now = Ok p ->
  cp_claim_id p = c /\ cp_supporting_evidence_ids p = er_evidence_id <$> filter (supports l policy now) evs /\
  (cp_publishable p = true <-> exists ev, ev ∈ evs /\ supports l policy now ev) /\
  (cp_publishable p = true <-> cp_blocking_reasons p = []) /\ Forall (answers l policy now) evs.
Proof.
  unfold evaluate_claim_publishability. destruct evs as [|ev0 evs0].
  { intros [= <-]. cbn. split; [done|]. split; [done|]. split; [|split; [split; discriminate|constructor]].
    split; [done|]. intros (ev & Hin & _). by apply elem_of_nil in Hin. }
  set (evs := ev0 :: evs0). intros ([sup rs] & Hw & Hp)%bind_Ok. injection Hp as <-. cbn [cp_claim_id cp_publishable cp_blocking_reasons cp_supporting_evidence_ids].
  apply weigh_Ok in Hw as (Hs & Hf & _ & Hr). cbn [app] in Hs. subst sup. split; [done|]. split; [done|].
  assert ((0 <? length (er_evidence_id <$> filter (supports l policy now) evs))%nat = true
          <-> exists ev, ev ∈ evs /\ supports l policy now ev) as Hpub.
  { rewrite Nat.ltb_lt, length_fmap. split.
    - intros Hlen. destruct (filter (supports l policy now) evs) as [|ev k] eqn:E; [cbn in Hlen; lia|].
      exists ev. assert (ev ∈ filter (supports l policy now) evs) as Hin by (rewrite E; by left).
      apply list_elem_of_filter in Hin as [? ?]. done.
    - intros (ev & Hin & Hev). assert (ev ∈ filter (supports l policy now) evs) as Hin' by (by apply list_elem_of_filter).
      destruct (filter _ evs); [by apply elem_of_nil in Hin'|cbn; lia]. }
  split; [done|]. split; [|done]. destruct (_ <? _)%nat eqn:E; [by split|]. split; [done|]. intros Hno.
  apply Nat.ltb_ge in E. rewrite length_fmap in E. exfalso.
  destruct (filter (supports l policy now) evs) eqn:Ef; [|cbn in E; lia].
  apply (Hr ltac:(done)); [done|]. destruct (decide (rs = ∅)) as [|Hne]; [done|].
  apply set_choose_L in Hne as [x Hx]. apply elem_of_elements, (elem_of_sort_by id) in Hx.
  unfold or_no_evidence in Hno. by destruct (sort_by id (elements rs)).
Qed.

Lemma evaluate_total c evs l policy now : Forall (answers l policy now) evs ->
  exists p, evaluate_claim_publishability c evs l policy now = Ok p.
Proof.
  intros Hf. unfold evaluate_claim_publishability. destruct evs as [|ev evs]; [by eexists|].
  destruct (weigh_total l policy now (ev :: evs) [] ∅ Hf) as [[sup rs] ->]. by eexists.
Qed.

Lemma evaluate_ext c evs l1 l2 policy now :
  (forall ev, ev ∈ evs -> l1 !! er_evidence_id ev = l2 !! er_evidence_id ev) ->
  evaluate_claim_publishability c evs l1 policy now = evaluate_claim_publishability c evs l2 policy now.
Proof. intros Hl. unfold evaluate_claim_publishability. destruct evs; [done|]. by rewrite (weigh_ext l1 l2). Qed.

(** The age in seconds as a float stays on its side of zero, and of every bound
    of fewer than 33 bits. *)
Lemma total_seconds_near delta : Z.abs delta < 2 ^ 60 ->
  let r := f64_value (total_seconds delta) in
  f64_finite (total_seconds delta) = true /\
  (Qabs.Qabs (r - (delta # 1000000)) <= Qabs.Qabs (delta # 1000000) * (1 # 9007199254740992) + (1 # 9007199254740992))%Q.
Proof.
  intros Hd. unfold f64_value, f64_finite, total_seconds. rewrite round_exact_proj. unfold round_exact. cbn [Qnum Qden].
  destruct (Z.eqb_spec delta 0) as [->|Hne]; [by vm_compute|].
  destruct (nearest_f64_spec (delta <? 0) (Z.abs delta) (Zpos 1000000) ltac:(lia) ltac:(lia)) as [_ Hs].
  destruct Hs as [Hf Hn].
  { apply small_pow. unfold Qle, fraction. cbn. lia. }
  split; [done|]. assert (Qpower (inject_Z 2) (-1075) <= 1 # 9007199254740992)%Q as Htiny.
  { change (1 # 9007199254740992)%Q with (Qpower (inject_Z 2) (-53)). apply qpow_mono; lia. }
  change (Qpower (inject_Z 2) (-53)) with (1 # 9007199254740992)%Q in Hn.
  assert ((if delta <? 0 then - fraction (Z.abs delta) (Zpos 1000000) else fraction (Z.abs delta) (Zpos 1000000)) == delta # 1000000)%Q as Hq.
  { destruct (Z.ltb_spec delta 0); unfold Qeq, fraction; cbn; lia. }
  rewrite Hq in Hn. assert (fraction (Z.abs delta) (Zpos 1000000) == Qabs.Qabs (delta # 1000000))%Q as Ha.
  { unfold Qeq, fraction. cbn. lia. }
  rewrite Ha in Hn. eapply Qle_trans; [exact Hn|]. lra.
Qed.

Lemma total_seconds_sign delta : Z.abs delta < 2 ^ 60 -> (0 <= f64_value (total_seconds delta))%Q <-> 0 <= delta.
Proof.
  intros Hd. destruct (Z.eq_dec delta 0) as [->|Hne]; [by vm_compute|].
  destruct (total_seconds_near delta Hd) as [_ Hn]. cbv zeta in Hn. set (r := f64_value (total_seconds delta)) in *. clearbody r.
  apply Qabs.Qabs_Qle_condition in Hn as [H1 H2]. destruct (Z.lt_ge_cases delta 0) as [Hneg|Hpos].
  - split; [|lia]. intros Hr. exfalso. rewrite Qabs.Qabs_neg in H2 by (unfold Qle; cbn; lia).
    assert (delta # 1000000 <= -1 # 1000000)%Q by (unfold Qle; cbn; lia). lra.
  - split; [lia|]. intros _. rewrite Qabs.Qabs_pos in H1 by (unfold Qle; cbn; lia).
    assert (1 # 1000000 <= delta # 1000000)%Q by (unfold Qle; cbn; lia). lra.
Qed.

Lemma total_seconds_bound delta k : 0 <= delta < 2 ^ 60 -> 0 < k < 2 ^ 32 ->
  (f64_value (total_seconds delta) <= inject_Z k)%Q <-> delta <= k * SECOND.
Proof.
  intros Hd Hk. destruct (Z.eq_dec delta 0) as [->|Hne].
  { split; [unfold SECOND; lia|]. intros _. change (f64_value (total_seconds 0)) with 0%Q. unfold Qle. cbn. lia. }
  destruct (total_seconds_near delta ltac:(lia)) as [_ Hn]. cbv zeta in Hn.
  assert (0 < delta # 1000000)%Q as Hpos by (unfold Qlt; cbn; lia).
  assert (forall j : Z, 0 < j < 2 ^ 53 ->
    ((inject_Z j <= delta # 1000000)%Q -> (inject_Z j <= f64_value (total_seconds delta))%Q) /\
    ((delta # 1000000 <= inject_Z j)%Q -> (f64_value (total_seconds delta) <= inject_Z j)%Q)) as Hb.
  { unfold f64_value, total_seconds. rewrite round_exact_proj. apply round_exact_pos; [done|].
    apply small_pow. unfold Qle. cbn. lia. }
  set (r := f64_value (total_seconds delta)) in *. clearbody r.
  rewrite (Qabs.Qabs_pos (delta # 1000000)) in Hn by (by apply Qlt_le_weak). apply Qabs.Qabs_Qle_condition in Hn as [H1 _].
  unfold SECOND. split; [|intros Hle; apply (Hb k ltac:(lia)); unfold Qle; cbn; lia].
  intros Hr. apply Z.nlt_ge. intros Hlt. destruct (Z.le_gt_cases ((k + 1) * 1000000) delta) as [Hfar|Hclose].
  - assert (inject_Z (k + 1) <= r)%Q as Hr1 by (apply (Hb (k + 1) ltac:(lia)); unfold Qle; cbn; lia).
    rewrite inject_Z_plus in Hr1. change (inject_Z 1) with 1%Q in Hr1. lra.
  - assert (inject_Z k + (1 # 1000000) <= delta # 1000000)%Q as Hgap by (unfold Qle; cbn; lia).
    assert (delta # 1000000 <= 4294967296 # 1)%Q as Hup by (unfold Qle; cbn; lia). lra.
Qed.

(** Evidence is fresh exactly when its check lies at most the allowed age
    before [now] and not after it, to the microsecond, although the code
    compares floats: for any policy below 2^32 seconds the rounding of
    [total_seconds] never decides. *)
Theorem fresh_exact ev policy now checked :
  proper_clock now -> _parse_timestamp_utc (er_freshness_checked_at ev) = Ok checked ->
  0 <= wall checked < MAX_WALL -> 0 < max_age_seconds policy < 2 ^ 32 ->
  is_evidence_fresh ev policy now =
    Ok (bool_decide (0 <= instant now - instant checked <= max_age_seconds policy * SECOND)).
Proof.
  intros Hc Hd Hw Hp. unfold is_evidence_fresh. rewrite Hd. cbn [mbind result_bind].
  destruct (parse_zulu_utc _ _ Hd) as [Hz Ho]. rewrite (age_instant now checked Hc Hz Ho). cbn [mbind result_bind].
  destruct Hc as (_ & _ & Hn & Hoff).
  assert (Z.abs (instant now - instant checked) < 2 ^ 60) as Habs.
  { unfold instant. rewrite Ho. unfold MAX_WALL, DAY, SECOND in *. cbn [default from_option]. cbn in *. lia. }
  set (delta := instant now - instant checked) in *. clearbody delta.
  destruct (total_seconds_near delta Habs) as [Hf _]. destruct (f64_int_exact 0 ltac:(lia)) as [Hf0 Hv0].
  pose proof (total_seconds_sign delta Habs) as Hs. rewrite <- Hv0 in Hs. rewrite <- (f64_le_value _ _ Hf0 Hf) in Hs.
  unfold f64_lt. destruct (f64_le (f64_int 0) (total_seconds delta)) eqn:E.
  - rewrite andb_false_r. assert (0 <= delta) as Hpos by (by apply Hs).
    assert (0 <= delta < 2 ^ 60) as Hrange by lia. pose proof (total_seconds_bound delta _ Hrange Hp) as Hb.
    unfold py_le. cbn [py_ordered num_of]. f_equal.
    assert (num_le match proj1_sig (total_seconds delta) with
              | S754_nan => NaN | S754_infinity s => Infinite s | f => Finite (sf_fraction f) end
              (Finite (inject_Z (max_age_seconds policy)))
            = Qle_bool (f64_value (total_seconds delta)) (inject_Z (max_age_seconds policy))) as ->.
    { unfold f64_value, f64_finite in *. by destruct (proj1_sig (total_seconds delta)). }
    apply eq_true_iff_eq. rewrite Qle_bool_iff, Hb, bool_decide_eq_true. lia.
  - assert (~ 0 <= delta) as Hneg by (intros Hle; apply Hs in Hle; discriminate Hle).
    rewrite (proj2 (f64_le_value _ _ Hf Hf0)); [cbn [andb negb]; f_equal; symmetry; apply bool_decide_eq_false; lia|].
    rewrite Hv0. apply Qnot_lt_le. intros Hlt. apply Hneg. apply total_seconds_sign; [done|]. by apply Qlt_le_weak.
Qed.

(** ** The abstract ledger

    A ledger without its chain: what was recorded, in order.  [seal] puts the
    chain back; every ledger an operation builds is a sealed one. *)

Inductive recorded := RClaim (c : ExtractedClaim) (p : ClaimPublishability) | REvidence (ev : EvidenceRecord).

Definition record_claim (r : recorded) : option (ExtractedClaim * ClaimPublishability) :=
  match r with RClaim c p => Some (c, p) | REvidence _ => None end.
Definition record_evidence (r : recorded) : option EvidenceRecord :=
  match r with RClaim _ _ => None | REvidence ev => Some ev end.

(** The last statement of a claim, and the evidence of a claim in order. *)
Definition statements (c : pystr) (rs : list recorded) : list (ExtractedClaim * ClaimPublishability) :=
  filter (fun x => ec_claim_id x.1 = c) (omap record_claim rs).
Definition statement (c : pystr) (rs : list recorded) : option (ExtractedClaim * ClaimPublishability) := last (statements c rs).
Definition evidences (rs : list recorded) : list EvidenceRecord := omap record_evidence rs.
Definition evidence_for (c : pystr) (rs : list recorded) : list EvidenceRecord :=
  filter (fun ev => er_claim_id ev = c) (evidences rs).
Definition evidence_ids (rs : list recorded) : list pystr := er_evidence_id <$> evidences rs.

Definition refreshed (rs : list recorded) (c : pystr) (l : links) (policy : EvidenceFreshnessPolicy) (now : datetime)
    : result claim_exn (list recorded) :=
  match statement c rs with
  | None => Raise (ClaimNotFoundError c)
  | Some (claim, p) =>
      p' ← builtin (evaluate_claim_publishability c (evidence_for c rs) l policy now);
      Ok (if decide (p = p') then rs else rs ++ [RClaim claim p'])
  end.

Definition claim_added (rs : list recorded) (claim : ExtractedClaim) : result claim_exn (list recorded) :=
  match statement (ec_claim_id claim) rs with
  | Some (stored, _) => if decide (stored = claim) then Ok rs else Raise (DuplicateClaimIdError (ec_claim_id claim))
  | None => _ ← builtin (_parse_effective_from claim); Ok (rs ++ [RClaim claim (unsupported (ec_claim_id claim))])
  end.

Definition find_record (i : pystr) (rs : list recorded) : option EvidenceRecord :=
  head (filter (fun ev => er_evidence_id ev = i) (evidences rs)).

Definition evidence_added (rs : list recorded) (ev : EvidenceRecord) (policy : EvidenceFreshnessPolicy) (now : datetime)
    : M links claim_exn (list recorded) :=
  match statement (er_claim_id ev) rs with
  | None => throw (EvidenceClaimMismatchError (er_claim_id ev) (er_evidence_id ev))
  | Some _ =>
      match find_record (er_evidence_id ev) rs with
      | Some stored => if decide (stored = ev) then mret rs else throw (DuplicateEvidenceIdError (er_evidence_id ev))
      | None =>
          _ ← modify (fun l => <[er_evidence_id ev := default LINKED (l !! er_evidence_id ev)]> l);
          l ← gets id;
          lift (refreshed (rs ++ [REvidence ev]) (er_claim_id ev) l policy now)
      end
  end.

Definition status_set (rs : list recorded) (i : pystr) (status : EvidenceLinkStatus) (policy : EvidenceFreshnessPolicy)
    (now : datetime) : M links claim_exn (list recorded) :=
  match find_record i rs with
  | None => throw (UnknownEvidenceLinkError i)
  | Some ev =>
      _ ← modify (fun l => <[i := status]> l);
      l ← gets id;
      lift (refreshed rs (er_claim_id ev) l policy now)
  end.

Section seal.
Context `{FloatRepr}.

Definition record_material (r : recorded) : list (pystr * pystr) :=
  match r with RClaim c _ => _claim_material c | REvidence ev => _evidence_material ev end.

Definition material_hash (material : list (pystr * pystr)) : pystr :=
  _SHA256_PREFIX ++ hexdigest (dumps (PDict (prod_map id PStr <$> material))).

Definition entry_of (t p : pystr) (prev : option pystr) (r : recorded) : ClaimEvidenceLedgerEntry := {|
  le_kind := match r with RClaim _ _ => u "claim" | REvidence _ => u "evidence" end;
  le_tenant_id := t; le_project_id := p;
  le_claim := fst <$> record_claim r; le_evidence := record_evidence r;
  le_publishability := snd <$> record_claim r;
  le_canonical_hash := material_hash (record_material r); le_previous_hash := prev
|}.

Fixpoint seal_from (t p : pystr) (prev : option pystr) (rs : list recorded) : ClaimEvidenceLedgerState :=
  match rs with
  | [] => []
  | r :: rs => entry_of t p prev r :: seal_from t p (Some (material_hash (record_material r))) rs
  end.
Definition seal (t p : pystr) (rs : list recorded) : ClaimEvidenceLedgerState := seal_from t p None rs.

Lemma hash_total m : compute_ledger_entry_hash m = Ok (material_hash m).
Proof.
  apply sha256_ref_Ok. split; [|done]. cbn. induction m as [|[k v] m IH]; [done|]. cbn. by rewrite IH.
Qed.

Lemma claim_of_entry t p prev r : claim_of (entry_of t p prev r) = fst <$> record_claim r.
Proof. by destruct r. Qed.
Lemma evidence_of_entry t p prev r : evidence_of (entry_of t p prev r) = record_evidence r.
Proof. by destruct r. Qed.

Lemma seal_from_snoc t p rs r : forall prev, seal_from t p prev (rs ++ [r]) =
  seal_from t p prev rs ++ [entry_of t p (match last rs with Some x => Some (material_hash (record_material x)) | None => prev end) r].
Proof.
  induction rs as [|x rs IH]; intros prev; [done|]. cbn [seal_from app]. rewrite IH. do 3 f_equal.
  destruct rs as [|y rs]; [done|]. rewrite last_cons_cons. destruct (last (y :: rs)) eqn:E; [done|by apply last_None in E].
Qed.

Lemma tail_seal t p rs : tail_hash (seal t p rs) = (fun r => material_hash (record_material r)) <$> last rs.
Proof.
  unfold tail_hash. destruct rs as [|r rs _] using rev_ind; [done|]. unfold seal. by rewrite seal_from_snoc, !last_snoc.
Qed.

Lemma seal_snoc t p rs r : seal t p (rs ++ [r]) = seal t p rs ++ [entry_of t p (tail_hash (seal t p rs)) r].
Proof. rewrite tail_seal. unfold seal. rewrite seal_from_snoc. by destruct (last rs). Qed.

Lemma seal_prefix t p rs k : seal t p rs `prefix_of` seal t p (rs ++ k).
Proof.
  induction k as [|r k IH] using rev_ind; [by rewrite app_nil_r|]. rewrite app_assoc, seal_snoc. by apply prefix_app_r.
Qed.

Lemma verify_seal_from t p rs : forall prev i, verify_from prev i (seal_from t p prev rs) = Ok (true, None).
Proof.
  induction rs as [|r rs IH]; intros prev i; [done|]. cbn [seal_from verify_from]. rewrite decide_True by done.
  assert (forall m : list (pystr * pystr), (recomputed ← compute_ledger_entry_hash m;
    if decide (recomputed = material_hash m) then verify_from (Some (material_hash m)) (S i) (seal_from t p (Some (material_hash m)) rs)
    else Ok (false, Some i)) = Ok (true, None)) as Hm.
  { intros m. rewrite hash_total. cbn [mbind result_bind]. rewrite decide_True by done. apply IH. }
  rewrite claim_of_entry, evidence_of_entry. destruct r as [c q|ev]; apply Hm.
Qed.

(** A scan that reads the recorded part of an entry only. *)
Lemma omap_seal {A} t p (f : ClaimEvidenceLedgerEntry -> option A) (g : recorded -> option A) :
  (forall prev r, f (entry_of t p prev r) = g r) -> forall rs prev, omap f (seal_from t p prev rs) = omap g rs.
Proof.
  intros Hfg rs. induction rs as [|r rs IH]; intros prev; [done|]. cbn. rewrite Hfg. destruct (g r); by rewrite IH.
Qed.
End seal.

(** ** The operations on a sealed ledger *)

Lemma statement_snoc c rs r : statement c (rs ++ [r]) =
  match r with RClaim k q => if decide (ec_claim_id k = c) then Some (k, q) else statement c rs | REvidence _ => statement c rs end.
Proof.
  unfold statement, statements. rewrite omap_app, filter_app. destruct r as [k q|ev]; cbn; [|by rewrite app_nil_r].
  case_decide; [apply last_snoc|by rewrite app_nil_r].
Qed.

Lemma statement_elem c rs k q : statement c rs = Some (k, q) -> RClaim k q ∈ rs /\ ec_claim_id k = c.
Proof.
  intros Hl%last_Some_elem_of. unfold statements in Hl. apply list_elem_of_filter in Hl as [Hc Hl].
  apply list_elem_of_omap in Hl as (r & Hr & Hq). destruct r; [|done]. by injection Hq as -> ->.
Qed.

Lemma statement_some rs k q : RClaim k q ∈ rs -> statement (ec_claim_id k) rs <> None.
Proof.
  intros Hin. unfold statement. intros Hn%last_None. unfold statements in Hn.
  assert ((k, q) ∈ filter (fun x => ec_claim_id x.1 = ec_claim_id k) (omap record_claim rs)) as Hf.
  { apply list_elem_of_filter. split; [done|]. apply list_elem_of_omap. by exists (RClaim k q). }
  rewrite Hn in Hf. by apply elem_of_nil in Hf.
Qed.

Lemma evidences_snoc rs r : evidences (rs ++ [r]) = evidences rs ++ match r with RClaim _ _ => [] | REvidence ev => [ev] end.
Proof. unfold evidences. rewrite omap_app. by destruct r. Qed.

Lemma evidence_ids_snoc rs r :
  evidence_ids (rs ++ [r]) = evidence_ids rs ++ match r with RClaim _ _ => [] | REvidence ev => [er_evidence_id ev] end.
Proof. unfold evidence_ids. rewrite evidences_snoc, fmap_app. by destruct r. Qed.

Lemma evidence_for_snoc c rs r : evidence_for c (rs ++ [r]) =
  evidence_for c rs ++ match r with REvidence ev => if decide (er_claim_id ev = c) then [ev] else [] | _ => [] end.
Proof. unfold evidence_for. rewrite evidences_snoc, filter_app. f_equal. destruct r; [done|]. by cbn; case_decide. Qed.

Lemma evidence_for_elem c rs ev : ev ∈ evidence_for c rs <-> ev ∈ evidences rs /\ er_claim_id ev = c.
Proof. unfold evidence_for. rewrite list_elem_of_filter. naive_solver. Qed.

Lemma evidences_elem rs ev : ev ∈ evidences rs <-> REvidence ev ∈ rs.
Proof.
  unfold evidences. rewrite list_elem_of_omap. split; [|intros Hr; by exists (REvidence ev)].
  intros ([k q|e] & Hr & He); [done|]. by injection He as ->.
Qed.

Lemma evidence_ids_elem rs i : i ∈ evidence_ids rs <-> exists ev, ev ∈ evidences rs /\ er_evidence_id ev = i.
Proof. unfold evidence_ids. rewrite list_elem_of_fmap. naive_solver. Qed.

Lemma find_record_spec i rs :
  match find_record i rs with Some ev => ev ∈ evidences rs /\ er_evidence_id ev = i | None => i ∉ evidence_ids rs end.
Proof.
  unfold find_record. pose proof (fun ev => list_elem_of_filter (fun x => er_evidence_id x = i) (evidences rs) ev) as Hf.
  destruct (filter (fun x => er_evidence_id x = i) (evidences rs)) as [|ev k]; cbn [head].
  - rewrite evidence_ids_elem. intros (ev & Hin & Hi). assert (ev ∈ []) as Hno by (by apply Hf). by apply elem_of_nil in Hno.
  - assert (ev ∈ ev :: k) as Hin by left. by apply Hf in Hin as [? ?].
Qed.

Lemma same_id rs ev1 ev2 : NoDup (evidence_ids rs) -> ev1 ∈ evidences rs -> ev2 ∈ evidences rs ->
  er_evidence_id ev1 = er_evidence_id ev2 -> ev1 = ev2.
Proof.
  intros Hnd [i Hi]%list_elem_of_lookup [j Hj]%list_elem_of_lookup Heq.
  assert (i = j) as ->; [|congruence]. apply (NoDup_lookup _ _ _ (er_evidence_id ev1) Hnd); unfold evidence_ids;
    rewrite list_lookup_fmap; [by rewrite Hi|rewrite Hj; cbn; by rewrite Heq].
Qed.

Section sealed.
Context `{FloatRepr} (t p : pystr).
Implicit Types rs : list recorded.

Lemma latest_seal rs c :
  match statement c rs with
  | Some (k, q) => exists e, _latest_claims (seal t p rs) !! c = Some e /\ le_claim e = Some k /\ le_publishability e = Some q /\
                             le_tenant_id e = t /\ le_project_id e = p
  | None => _latest_claims (seal t p rs) !! c = None
  end.
Proof.
  induction rs as [|r rs IH] using rev_ind; [apply lookup_empty|].
  rewrite statement_snoc, seal_snoc. unfold _latest_claims in *. rewrite fold_left_app. cbn [fold_left].
  rewrite claim_of_entry. destruct r as [k q|ev]; cbn [record_claim fmap option_fmap option_map fst]; [|exact IH].
  case_decide as Hc; [subst c; rewrite lookup_insert_eq; by eexists|by rewrite lookup_insert_ne].
Qed.

Lemma dict_set_new {A} (d : list (pystr * A)) k v : k ∉ d.*1 -> dict_set d k v = d ++ [(k, v)].
Proof.
  induction d as [|[k' x] d IH]; [done|]. cbn. intros [Hne Hd]%not_elem_of_cons. rewrite decide_False by done. by rewrite IH.
Qed.

Lemma all_evidence_seal rs c : NoDup (evidence_ids rs) -> _all_evidence_for_claim (seal t p rs) c = evidence_for c rs.
Proof.
  intros Hnd. unfold _all_evidence_for_claim.
  enough (forall rs, NoDup (evidence_ids rs) -> fold_left (fun latest_by_id e => match evidence_of e with
            | Some ev => if decide (er_claim_id ev = c) then dict_set latest_by_id (er_evidence_id ev) ev else latest_by_id
            | None => latest_by_id end) (seal t p rs) [] = (fun ev => (er_evidence_id ev, ev)) <$> evidence_for c rs) as Hfold.
  { rewrite Hfold by done. rewrite <- list_fmap_compose. apply list_fmap_id. }
  clear rs Hnd. intros rs. induction rs as [|r rs IH] using rev_ind; [done|]. rewrite evidence_ids_snoc, NoDup_app. intros (Hnd & Hno & _).
  rewrite seal_snoc, fold_left_app, (IH Hnd). cbn [fold_left]. rewrite evidence_of_entry, evidence_for_snoc.
  destruct r as [k q|ev]; cbn [record_evidence]; [by rewrite app_nil_r|]. case_decide; [|by rewrite app_nil_r].
  rewrite fmap_app. apply dict_set_new. rewrite <- list_fmap_compose. intros (ev' & Hid & Hin)%list_elem_of_fmap.
  apply evidence_for_elem in Hin as [Hin _]. apply (Hno (er_evidence_id ev)); [|by left]. apply evidence_ids_elem. by exists ev'.
Qed.

Lemma find_evidence_seal rs i : NoDup (evidence_ids rs) ->
  match find_record i rs with
  | Some ev => exists e, find_evidence (seal t p rs) i = Some (e, ev)
  | None => find_evidence (seal t p rs) i = None
  end.
Proof.
  intros Hnd. pose proof (find_record_spec i rs) as Hr. unfold find_evidence. set (f := fun e => match evidence_of e with _ => _ end).
  assert (omap evidence_of (seal t p rs) = evidences rs) as Hev by (apply omap_seal; intros; apply evidence_of_entry).
  assert (forall x, x ∈ omap f (reverse (seal t p rs)) -> x.2 ∈ evidences rs /\ er_evidence_id x.2 = i) as Hf.
  { intros [e ev] (e' & He & Hx)%list_elem_of_omap. unfold f in Hx. destruct (evidence_of e') as [ev'|] eqn:E; [|done].
    case_decide; [|done]. injection Hx as <- <-. split; [|done]. rewrite <- Hev. apply list_elem_of_omap. exists e'.
    split; [by apply elem_of_reverse|done]. }
  destruct (omap f (reverse (seal t p rs))) as [|[e ev] k] eqn:Eo; cbn [head].
  - destruct (find_record i rs) as [ev|]; [|done]. exfalso. destruct Hr as [Hin Hi]. rewrite <- Hev in Hin.
    apply list_elem_of_omap in Hin as (e & He & Heq). assert ((e, ev) ∈ omap f (reverse (seal t p rs))) as Hno.
    { apply list_elem_of_omap. exists e. split; [by apply elem_of_reverse|]. unfold f. rewrite Heq. by rewrite decide_True. }
    rewrite Eo in Hno. by apply elem_of_nil in Hno.
  - destruct (Hf (e, ev)) as [Hin Hi]; [left|]. cbn [snd] in *. destruct (find_record i rs) as [ev'|].
    + destruct Hr as [Hin' Hi']. exists e. do 2 f_equal. apply (same_id rs); congruence.
    + destruct Hr. apply evidence_ids_elem. by exists ev.
Qed.

Lemma owning_seal rs i : owning_claim_id (seal t p rs) i = er_claim_id <$> find_record i rs.
Proof.
  unfold owning_claim_id, find_record, evidences, seal. erewrite (omap_seal t p _ (fun r => match record_evidence r with
    | Some ev => if decide (er_evidence_id ev = i) then Some (er_claim_id ev) else None | None => None end)).
  - induction rs as [|r rs IH]; [done|]. cbn. destruct r as [k q|ev]; cbn [record_evidence]; [exact IH|].
    cbn. case_decide; [done|exact IH].
  - intros prev r. by rewrite evidence_of_entry.
Qed.

Lemma claim_material_inj c1 c2 : _claim_material c1 = _claim_material c2 <-> c1 = c2.
Proof.
  split; [|by intros ->]. unfold _claim_material. intros Heq. destruct c1, c2. by injection Heq as -> -> -> -> -> -> -> ->.
Qed.

Lemma evidence_material_inj e1 e2 : _evidence_material e1 = _evidence_material e2 <-> e1 = e2.
Proof.
  split; [|by intros ->]. unfold _evidence_material. intros Heq. destruct e1, e2. by injection Heq as -> -> -> -> -> -> -> ->.
Qed.
End sealed.

Section refine_ops.
Context `{FloatRepr}.
Implicit Types (rs : list recorded) (t p : pystr).

Lemma make_entry t p prev r : make_ClaimEvidenceLedgerEntry (entry_of t p prev r) = Ok (entry_of t p prev r).
Proof. by destruct r. Qed.

Lemma reevaluate_seal t p rs c l policy now : NoDup (evidence_ids rs) ->
  _reevaluate (seal t p rs) c l policy now = seal t p <$> refreshed rs c l policy now.
Proof.
  intros Hnd. unfold _reevaluate, refreshed. pose proof (latest_seal t p rs c) as Hl. destruct (statement c rs) as [[k q]|].
  - destruct Hl as (e & -> & Hc & Hq & Ht & Hp). cbn [mbind option_bind]. rewrite Hc. cbn [fmap option_fmap option_map].
    rewrite all_evidence_seal by done. destruct (evaluate_claim_publishability _ _ _ _ _) as [p'|]; cbn [builtin try_except mbind result_bind]; [|done].
    rewrite Hq. destruct (decide (q = p')) as [->|Hne]; [by rewrite decide_True|]. rewrite decide_False by congruence.
    rewrite hash_total. cbn [builtin try_except mbind result_bind]. rewrite Ht, Hp.
    change (make_ClaimEvidenceLedgerEntry _) with (make_ClaimEvidenceLedgerEntry (entry_of t p (tail_hash (seal t p rs)) (RClaim k p'))).
    rewrite make_entry. cbn [builtin try_except mbind result_bind fmap result_fmap]. by rewrite seal_snoc.
  - by rewrite Hl.
Qed.

Lemma append_claim_seal t p rs c : ec_tenant_id c = t -> ec_project_id c = p ->
  fst <$> append_claim (seal t p rs) c = seal t p <$> claim_added rs c.
Proof.
  intros Ht Hp. unfold append_claim, claim_added, builtin. pose proof (latest_seal t p rs (ec_claim_id c)) as Hl.
  destruct (statement (ec_claim_id c) rs) as [[k q]|].
  - destruct Hl as (e & -> & Hc & _). cbn [mbind option_bind]. rewrite Hc. cbn [fmap option_fmap option_map].
    destruct (decide (k = c)) as [->|Hne]; [by rewrite decide_True|]. rewrite decide_False; [done|]. by rewrite claim_material_inj.
  - rewrite Hl. cbn [mbind option_bind]. rewrite hash_total. cbn [builtin try_except mbind result_bind].
    destruct (_parse_effective_from c) as [d|x]; cbn [try_except mbind result_bind]; [|done].
    change (evaluate_claim_publishability _ [] _ _ _) with (Ok (E:=pyexn) (unsupported (ec_claim_id c))). cbn [try_except mbind result_bind].
    rewrite Ht, Hp.
    change (make_ClaimEvidenceLedgerEntry _) with (make_ClaimEvidenceLedgerEntry (entry_of t p (tail_hash (seal t p rs)) (RClaim c (unsupported (ec_claim_id c))))).
    rewrite make_entry. cbn [builtin try_except mbind result_bind fmap result_fmap fst]. by rewrite seal_snoc.
Qed.

Definition on_result {A B} (f : A -> B) (x : links * result claim_exn A) : links * result claim_exn B := (x.1, f <$> x.2).

Lemma fresh_ids rs ev : NoDup (evidence_ids rs) -> find_record (er_evidence_id ev) rs = None -> NoDup (evidence_ids (rs ++ [REvidence ev])).
Proof.
  intros Hnd Hf. pose proof (find_record_spec (er_evidence_id ev) rs) as Hr. rewrite Hf in Hr. rewrite evidence_ids_snoc.
  apply NoDup_app. split; [done|]. split; [|apply NoDup_singleton]. intros x Hx ->%list_elem_of_singleton. done.
Qed.

Lemma append_evidence_seal t p rs ev policy now l : NoDup (evidence_ids rs) -> er_tenant_id ev = t -> er_project_id ev = p ->
  on_result fst (append_evidence (seal t p rs) ev policy now l) = on_result (seal t p) (evidence_added rs ev policy now l).
Proof.
  intros Hnd Ht Hp. unfold append_evidence, evidence_added. pose proof (latest_seal t p rs (er_claim_id ev)) as Hl.
  destruct (statement (er_claim_id ev) rs) as [[k q]|]; [|by rewrite Hl]. destruct Hl as (e & -> & _).
  pose proof (find_evidence_seal t p rs (er_evidence_id ev) Hnd) as Hf.
  destruct (find_record (er_evidence_id ev) rs) as [stored|] eqn:Er.
  - destruct Hf as [e' ->]. destruct (decide (stored = ev)) as [->|Hne]; [by rewrite decide_True|].
    rewrite decide_False; [done|]. by rewrite evidence_material_inj.
  - rewrite Hf, hash_total, Ht, Hp. unfold mbind, M_bind, lift, modify, gets, mret, M_ret, on_result. cbn [builtin try_except fst snd id].
    change (make_ClaimEvidenceLedgerEntry _) with (make_ClaimEvidenceLedgerEntry (entry_of t p (tail_hash (seal t p rs)) (REvidence ev))).
    rewrite make_entry. cbn [builtin try_except fst snd id]. rewrite <- seal_snoc.
    rewrite reevaluate_seal by (by apply fresh_ids). by destruct (refreshed _ _ _ _ _).
Qed.

Lemma status_set_seal t p rs i status policy now l : NoDup (evidence_ids rs) ->
  set_evidence_link_status (seal t p rs) i status policy now l = on_result (seal t p) (status_set rs i status policy now l).
Proof.
  intros Hnd. unfold set_evidence_link_status, status_set. rewrite owning_seal. destruct (find_record i rs) as [ev|]; [|done].
  cbn [fmap option_fmap option_map]. unfold mbind, M_bind, lift, modify, gets, on_result. cbn [fst snd id].
  by rewrite reevaluate_seal.
Qed.
End refine_ops.

(** ** Histories of a store, and one abstract ledger for each key *)

Inductive store_op :=
  | OpClaim (tenant_id : pystr) (claim : ExtractedClaim)
  | OpEvidence (tenant_id : pystr) (ev : EvidenceRecord) (now : datetime) (policy : EvidenceFreshnessPolicy)
  | OpStatus (tenant_id project_id evidence_id : pystr) (status : EvidenceLinkStatus) (now : datetime)
      (policy : EvidenceFreshnessPolicy).

Definition op_key (o : store_op) : pystr * pystr :=
  match o with
  | OpClaim t c => (t, ec_project_id c)
  | OpEvidence t ev _ _ => (t, er_project_id ev)
  | OpStatus t p _ _ _ _ => (t, p)
  end.

(** The clock and the policy an operation evaluates with. *)
Definition op_context (o : store_op) : option (EvidenceFreshnessPolicy * datetime) :=
  match o with OpClaim _ _ => None | OpEvidence _ _ now policy | OpStatus _ _ _ _ now policy => Some (policy, now) end.

Definition proper_op (o : store_op) : Prop :=
  match op_context o with Some (_, now) => proper_clock now | None => True end.

(** A raise keeps the records. *)
Definition kept {A E} (old : A) (r : result E A) : A := match r with Ok new => new | Raise _ => old end.

Definition abstract_step (x : list recorded * links) (o : store_op) : list recorded * links :=
  match o with
  | OpClaim t c => if decide (t = ec_tenant_id c) then (kept x.1 (claim_added x.1 c), x.2) else x
  | OpEvidence t ev now policy =>
      if decide (t = er_tenant_id ev)
      then let y := evidence_added x.1 ev policy now x.2 in (kept x.1 y.2, y.1)
      else x
  | OpStatus _ _ i status now policy => let y := status_set x.1 i status policy now x.2 in (kept x.1 y.2, y.1)
  end.

Definition abstract_run (key : pystr * pystr) (ops : list store_op) : list recorded * links :=
  fold_left abstract_step (filter (fun o => op_key o = key) ops) ([], ∅).

Lemma abstract_run_snoc key ops o : abstract_run key (ops ++ [o]) =
  if decide (op_key o = key) then abstract_step (abstract_run key ops) o else abstract_run key ops.
Proof.
  unfold abstract_run. rewrite filter_app, fold_left_app. cbn. by case_decide.
Qed.

Lemma refreshed_cases rs c l policy now rs' : refreshed rs c l policy now = Ok rs' <->
  exists k q q', statement c rs = Some (k, q) /\ evaluate_claim_publishability c (evidence_for c rs) l policy now = Ok q' /\
    rs' = if decide (q = q') then rs else rs ++ [RClaim k q'].
Proof.
  unfold refreshed. destruct (statement c rs) as [[k q]|].
  - destruct (evaluate_claim_publishability _ _ _ _ _) as [q'|e]; cbn.
    + split; [intros [= <-]; by exists k, q, q'|]. intros (? & ? & ? & [= <- <-] & [= <-] & ->). done.
    + split; [done|]. by intros (? & ? & ? & _ & ? & _).
  - split; [done|]. by intros (? & ? & ? & ? & _).
Qed.

Section invariant.
Context (t p : pystr).

Definition owned (r : recorded) : Prop :=
  match r with
  | RClaim c _ => ec_tenant_id c = t /\ ec_project_id c = p
  | REvidence ev => er_tenant_id ev = t /\ er_project_id ev = p
  end.

Record ledger_inv (rs : list recorded) (l : links) : Prop := {
  li_content : forall c1 q1 c2 q2, RClaim c1 q1 ∈ rs -> RClaim c2 q2 ∈ rs -> ec_claim_id c1 = ec_claim_id c2 -> c1 = c2;
  li_ids : NoDup (evidence_ids rs);
  li_after : forall rs1 ev rs2, rs = rs1 ++ REvidence ev :: rs2 -> statement (er_claim_id ev) rs1 <> None;
  li_linked : forall i, i ∈ evidence_ids rs -> is_Some (l !! i);
  li_unblocked : forall i, i ∉ evidence_ids rs -> l !! i <> Some BLOCKED;
  li_parsed : forall ev, ev ∈ evidences rs -> exists d, _parse_timestamp_utc (er_freshness_checked_at ev) = Ok d;
  li_owned : Forall owned rs
}.

Lemma inv_empty : ledger_inv [] ∅.
Proof.
  split; try done.
  - by intros ? ? ? ? ?%elem_of_nil.
  - constructor.
  - intros rs1 ev rs2 Heq. by destruct rs1.
  - intros i Hi. by apply elem_of_nil in Hi.
  - intros ev Hi. by apply elem_of_nil in Hi.
Qed.

Lemma statement_mono c rs k : statement c rs <> None -> statement c (rs ++ k) <> None.
Proof.
  intros Hs. induction k as [|r k IH] using rev_ind; [by rewrite app_nil_r|]. rewrite app_assoc, statement_snoc.
  destruct r; [by case_decide|done].
Qed.

Lemma claimed rs l ev : ledger_inv rs l -> ev ∈ evidences rs -> statement (er_claim_id ev) rs <> None.
Proof.
  intros Hi (rs1 & rs2 & Heq)%evidences_elem%list_elem_of_split. rewrite Heq. apply statement_mono. by apply (li_after _ _ Hi rs1 ev rs2).
Qed.

Lemma after_snoc (r : recorded) rs :
  (forall rs1 ev rs2, rs = rs1 ++ REvidence ev :: rs2 -> statement (er_claim_id ev) rs1 <> None) ->
  match r with RClaim _ _ => True | REvidence ev => statement (er_claim_id ev) rs <> None end ->
  forall rs1 ev rs2, rs ++ [r] = rs1 ++ REvidence ev :: rs2 -> statement (er_claim_id ev) rs1 <> None.
Proof.
  intros Ha Hr rs1 ev rs2. destruct rs2 as [|x rs2 _] using rev_ind.
  - intros [-> Hx]%app_inj_tail. by subst r.
  - rewrite app_comm_cons, app_assoc. intros [-> _]%app_inj_tail. by eapply Ha.
Qed.

Lemma inv_claim rs l c q : ledger_inv rs l -> owned (RClaim c q) ->
  (statement (ec_claim_id c) rs = None \/ exists q', statement (ec_claim_id c) rs = Some (c, q')) -> ledger_inv (rs ++ [RClaim c q]) l.
Proof.
  intros [Hc Hi Ha Hl Hu Hp Ho] Hown Hs.
  assert (forall k q', RClaim k q' ∈ rs -> ec_claim_id k = ec_claim_id c -> k = c) as Hsame.
  { intros k q' Hk Hid. destruct Hs as [Hn|[q0 Hq]]; [|apply statement_elem in Hq as [Hq _]; by apply (Hc k q' c q0)].
    apply statement_some in Hk. by rewrite Hid in Hk. }
  split.
  - intros c1 q1 c2 q2. rewrite !elem_of_app, !list_elem_of_singleton. intros [H1|H1] [H2|H2] Hid; try injection H1 as -> ->; try injection H2 as -> ->;
      [by eapply Hc|by eapply Hsame|symmetry; by eapply Hsame|done].
  - by rewrite evidence_ids_snoc, app_nil_r.
  - by apply after_snoc.
  - intros i. rewrite evidence_ids_snoc, app_nil_r. apply Hl.
  - intros i. rewrite evidence_ids_snoc, app_nil_r. apply Hu.
  - intros ev. rewrite evidences_snoc, app_nil_r. apply Hp.
  - apply Forall_app. split; [done|]. by constructor.
Qed.

Lemma inv_evidence rs l ev : ledger_inv rs l -> owned (REvidence ev) -> statement (er_claim_id ev) rs <> None ->
  er_evidence_id ev ∉ evidence_ids rs -> is_Some (l !! er_evidence_id ev) ->
  (exists d, _parse_timestamp_utc (er_freshness_checked_at ev) = Ok d) -> ledger_inv (rs ++ [REvidence ev]) l.
Proof.
  intros [Hc Hi Ha Hl Hu Hp Ho] Hown Hs Hnew Hsome Hd. split.
  - intros c1 q1 c2 q2. rewrite !elem_of_app, !list_elem_of_singleton. intros [H1|H1] [H2|H2] Hid; try discriminate. by eapply Hc.
  - rewrite evidence_ids_snoc. apply NoDup_app. split; [done|]. split; [|apply NoDup_singleton]. by intros x Hx ->%list_elem_of_singleton.
  - by apply after_snoc.
  - intros i. rewrite evidence_ids_snoc, elem_of_app, list_elem_of_singleton. intros [Hin| ->]; auto.
  - intros i. rewrite evidence_ids_snoc, not_elem_of_app. intros [Hno _]. auto.
  - intros e. rewrite evidences_snoc, elem_of_app, list_elem_of_singleton. intros [Hin| ->]; auto.
  - apply Forall_app. split; [done|]. by constructor.
Qed.

Lemma inv_links rs l i s : ledger_inv rs l -> (i ∈ evidence_ids rs \/ s <> BLOCKED) -> ledger_inv rs (<[i := s]> l).
Proof.
  intros [Hc Hi Ha Hl Hu Hp Ho] Hs. split; try done.
  - intros j Hj. destruct (decide (i = j)) as [->|]; [rewrite lookup_insert_eq; by eexists|rewrite lookup_insert_ne by done; auto].
  - intros j Hj. destruct (decide (i = j)) as [->|]; [rewrite lookup_insert_eq|rewrite lookup_insert_ne by done; auto].
    intros [= ->]. by destruct Hs.
Qed.

Lemma inv_refreshed rs l c policy now rs' : ledger_inv rs l -> refreshed rs c l policy now = Ok rs' -> ledger_inv rs' l.
Proof.
  intros Hi (k & q & q' & Hs & _ & ->)%refreshed_cases. case_decide; [done|]. apply statement_elem in Hs as Hk.
  destruct Hk as [Hk Hid]. apply inv_claim; [done| |right; exists q; by rewrite Hid].
  pose proof (li_owned _ _ Hi) as Ho. rewrite Forall_forall in Ho. exact (Ho _ Hk).
Qed.
End invariant.

(** ** Currency: what a claim says now was evaluated by an operation *)

Section currency.
Implicit Types (rs : list recorded) (l : links).

Definition current (contexts : list (EvidenceFreshnessPolicy * datetime)) rs l : Prop :=
  forall c k q, statement c rs = Some (k, q) ->
    (evidence_for c rs = [] /\ q = unsupported c) \/
    exists policy now, (policy, now) ∈ contexts /\ evaluate_claim_publishability c (evidence_for c rs) l policy now = Ok q.

Lemma current_mono ctxs1 ctxs2 rs l : ctxs1 ⊆ ctxs2 -> current ctxs1 rs l -> current ctxs2 rs l.
Proof. intros Hs Hc c k q Hst. destruct (Hc c k q Hst) as [?|(po & n & Hin & He)]; [by left|right]. exists po, n. split; [by apply Hs|done]. Qed.

(** A change of a status that no evidence of the ledger has. *)
Lemma current_links ctxs rs l i s : current ctxs rs l -> i ∉ evidence_ids rs -> current ctxs rs (<[i := s]> l).
Proof.
  intros Hc Hi c k q Hst. destruct (Hc c k q Hst) as [?|(po & n & Hin & He)]; [by left|right]. exists po, n. split; [done|].
  rewrite <- He. apply evaluate_ext. intros ev [Hev _]%evidence_for_elem. rewrite lookup_insert_ne; [done|]. intros ->.
  apply Hi, evidence_ids_elem. by exists ev.
Qed.

(** The claim of the change is refreshed; the others do not see it. *)
Lemma current_refreshed ctxs rs0 l0 rs l c policy now rs' :
  current ctxs rs0 l0 -> (policy, now) ∈ ctxs -> refreshed rs c l policy now = Ok rs' ->
  (forall c', c' <> c -> statement c' rs = statement c' rs0 /\ evidence_for c' rs = evidence_for c' rs0 /\
     forall ev, ev ∈ evidence_for c' rs -> l !! er_evidence_id ev = l0 !! er_evidence_id ev) ->
  current ctxs rs' l.
Proof.
  intros Hc Hin (k & q & q' & Hs & He & ->)%refreshed_cases Hother c' k' p' Hst.
  assert (forall x, evidence_for c' (if decide (q = q') then rs else rs ++ [RClaim x q']) = evidence_for c' rs) as Hev.
  { intros x. case_decide; [done|]. by rewrite evidence_for_snoc, app_nil_r. }
  rewrite Hev. destruct (decide (c' = c)) as [->|Hne].
  - right. exists policy, now. split; [done|]. case_decide as Hq.
    + rewrite Hs in Hst. injection Hst as <- <-. by rewrite Hq.
    + apply statement_elem in Hs as Hk. destruct Hk as [_ Hk]. rewrite statement_snoc, decide_True in Hst by done. by injection Hst as _ <-.
  - destruct (Hother c' Hne) as (Hs' & He' & Hl). rewrite He' in *.
    assert (statement c' rs0 = Some (k', p')) as Hst0.
    { rewrite <- Hs', <- Hst. case_decide; [done|]. rewrite statement_snoc. apply statement_elem in Hs as [_ Hk].
      rewrite decide_False; [done|congruence]. }
    destruct (Hc c' k' p' Hst0) as [?|(po & n & Hpn & Hev0)]; [by left|right]. exists po, n. split; [done|].
    rewrite <- Hev0. by apply evaluate_ext.
Qed.

Lemma refreshed_total t p rs l c policy now k q : ledger_inv t p rs l -> statement c rs = Some (k, q) -> proper_clock now ->
  exists rs', refreshed rs c l policy now = Ok rs'.
Proof.
  intros Hi Hs Hn. destruct (evaluate_total c (evidence_for c rs) l policy now) as [q' Hq].
  - apply Forall_forall. intros ev [Hev _]%evidence_for_elem _. destruct (li_parsed _ _ _ _ Hi ev Hev) as [d Hd]. by eapply fresh_total.
  - eexists. apply refreshed_cases. by exists k, q, q'.
Qed.
End currency.

Section steps.
Context (t p : pystr).
Implicit Types (rs : list recorded) (l : links).

Lemma unlinked_default l i : l !! i <> Some BLOCKED -> default LINKED (l !! i) = LINKED.
Proof. destruct (l !! i) as [[]|]; naive_solver. Qed.

Lemma find_new rs i : find_record i rs = None -> i ∉ evidence_ids rs.
Proof. intros Hf. pose proof (find_record_spec i rs) as Hr. by rewrite Hf in Hr. Qed.

(** What adding new evidence leaves behind. *)
Lemma evidence_step ctxs rs l ev policy now :
  ledger_inv t p rs l -> owned t p (REvidence ev) -> statement (er_claim_id ev) rs <> None -> find_record (er_evidence_id ev) rs = None ->
  let l' := <[er_evidence_id ev := default LINKED (l !! er_evidence_id ev)]> l in
  let r := refreshed (rs ++ [REvidence ev]) (er_claim_id ev) l' policy now in
  ledger_inv t p (kept rs r) l' /\ (current ctxs rs l -> (policy, now) ∈ ctxs -> current ctxs (kept rs r) l').
Proof.
  intros Hi Hown Hs Hf%find_new. cbv zeta.
  rewrite !(unlinked_default l) by (by apply (li_unblocked _ _ _ _ Hi)).
  set (l' := <[er_evidence_id ev := LINKED]> l).
  assert (ledger_inv t p rs l') as Hi' by (apply inv_links; [done|by right]).
  destruct (refreshed _ _ _ _ _) as [rs'|x] eqn:Er; cbn [kept].
  - assert (ledger_inv t p (rs ++ [REvidence ev]) l') as Hadd.
    { apply refreshed_cases in Er as (k & q & q' & _ & He & _). apply evaluate_Ok in He as (_ & _ & _ & _ & Hans).
      rewrite Forall_forall in Hans. destruct (Hans ev) as [b Hb].
      - apply evidence_for_elem. rewrite evidences_snoc. split; [|done]. apply elem_of_app. right. by apply list_elem_of_singleton.
      - apply lookup_insert_eq.
      - apply inv_evidence; [done..|unfold l'; rewrite lookup_insert_eq; by eexists|].
        unfold is_evidence_fresh in Hb. apply bind_Ok in Hb as (d & Hd & _). by exists d. }
    split; [by eapply inv_refreshed|]. intros Hc Hin. eapply (current_refreshed ctxs rs l); [done..|]. intros c' Hne.
    rewrite statement_snoc, evidence_for_snoc, decide_False, app_nil_r by congruence. split; [done|]. split; [done|].
    intros e [He _]%evidence_for_elem. apply lookup_insert_ne. intros Heq. apply Hf. rewrite Heq. apply evidence_ids_elem. by exists e.
  - split; [done|]. intros Hc _. by apply current_links.
Qed.

Lemma status_step ctxs rs l i ev status policy now :
  ledger_inv t p rs l -> find_record i rs = Some ev ->
  let l' := <[i := status]> l in
  let r := refreshed rs (er_claim_id ev) l' policy now in
  ledger_inv t p (kept rs r) l' /\
  (current ctxs rs l -> (policy, now) ∈ ctxs -> proper_clock now -> current ctxs (kept rs r) l').
Proof.
  intros Hi Hf l' r. pose proof (find_record_spec i rs) as Hr. rewrite Hf in Hr. destruct Hr as [Hev Hid].
  assert (ledger_inv t p rs l') as Hi'.
  { apply inv_links; [done|]. left. apply evidence_ids_elem. by exists ev. }
  subst r. split.
  - destruct (refreshed _ _ _ _ _) as [rs'|x] eqn:Er; cbn [kept]; [by eapply inv_refreshed|done].
  - intros Hc Hin Hn. pose proof (claimed _ _ _ _ _ Hi' Hev) as Hs. destruct (statement (er_claim_id ev) rs) as [[k q]|] eqn:Es; [|done].
    destruct (refreshed_total t p rs l' _ policy now k q Hi' Es Hn) as [rs' Hrs]. rewrite Hrs. cbn [kept].
    eapply (current_refreshed ctxs rs l); [done..|]. intros c' Hne. split; [done|]. split; [done|].
    intros e [He Hcl]%evidence_for_elem. apply lookup_insert_ne. intros Heq. apply Hne. rewrite <- Hcl. f_equal.
    apply (same_id rs); [apply (li_ids _ _ _ _ Hi)|done|done|congruence].
Qed.

Lemma claim_step ctxs rs l c : ledger_inv t p rs l -> ec_tenant_id c = t -> ec_project_id c = p ->
  ledger_inv t p (kept rs (claim_added rs c)) l /\ (current ctxs rs l -> current ctxs (kept rs (claim_added rs c)) l).
Proof.
  intros Hi Ht Hp. unfold claim_added. destruct (statement (ec_claim_id c) rs) as [[k q]|] eqn:Es.
  - by case_decide.
  - destruct (_parse_effective_from c) as [d|]; cbn; [|done]. split.
    + apply inv_claim; [done|done|by left].
    + intros Hc c' k' q' Hst. cbn [kept] in Hst. rewrite evidence_for_snoc, app_nil_r. rewrite statement_snoc in Hst.
      case_decide as Hid; [|by apply (Hc c' k' q')]. injection Hst as <- <-. left. rewrite Hid. split; [|done].
      apply elem_of_nil_inv. intros ev [Hev Hcl]%evidence_for_elem. apply (claimed _ _ _ _ _ Hi Hev). by rewrite Hcl, <- Hid.
Qed.
End steps.

(** ** The store *)

Section store_lemmas.
Context `{FloatRepr}.

Definition run_op (s : ClaimEvidenceStore) (o : store_op) : ClaimEvidenceStore :=
  match o with
  | OpClaim t c => (store_append_claim t c s).1
  | OpEvidence t ev now policy => (store_append_evidence t ev now policy s).1
  | OpStatus t p i status now policy => (store_set_evidence_link_status t p i status now policy s).1
  end.

Definition run_ops (ops : list store_op) : ClaimEvidenceStore := fold_left run_op ops empty_store.

Lemma ledger_at_put k k' l s : ledger_at k (put_ledger k' l s) = if decide (k' = k) then l else ledger_at k s.
Proof. unfold ledger_at, put_ledger. cbn. case_decide as Hk; [subst; by rewrite lookup_insert_eq|by rewrite lookup_insert_ne]. Qed.
Lemma links_at_put k k' l s : links_at k (put_links k' l s) = if decide (k' = k) then l else links_at k s.
Proof. unfold links_at, put_links. cbn. case_decide as Hk; [subst; by rewrite lookup_insert_eq|by rewrite lookup_insert_ne]. Qed.
Lemma ledger_at_links k k' l s : ledger_at k (put_links k' l s) = ledger_at k s.
Proof. done. Qed.
Lemma links_at_ledger k k' l s : links_at k (put_ledger k' l s) = links_at k s.
Proof. done. Qed.

(** What is kept at a key. *)
Definition at_key (k : pystr * pystr) (s : ClaimEvidenceStore) : ClaimEvidenceLedgerState * links := (ledger_at k s, links_at k s).

Lemma claim_at k t c s : at_key k (store_append_claim t c s).1 =
  if decide (t = ec_tenant_id c) then
    if decide ((t, ec_project_id c) = k) then (kept (ledger_at k s) (fst <$> append_claim (ledger_at k s) c), links_at k s) else at_key k s
  else at_key k s.
Proof.
  unfold store_append_claim, _guard_tenant, mbind, M_bind, lift, gets, modify, mret, M_ret, raise_if. destruct (decide (t = ec_tenant_id c)) as [Ht|Ht].
  - rewrite bool_decide_true by done. cbn [negb]. destruct (append_claim _ c) as [[st e]|x] eqn:E; cbn [fst].
    + unfold at_key. rewrite ledger_at_links, ledger_at_put, links_at_put, !links_at_ledger.
      case_decide as Hk; [|done]. subst k. by rewrite E.
    + case_decide as Hk; [|done]. subst k. by rewrite E.
  - by rewrite bool_decide_false.
Qed.

Lemma evidence_at k t ev now policy s : at_key k (store_append_evidence t ev now policy s).1 =
  if decide (t = er_tenant_id ev) then
    if decide ((t, er_project_id ev) = k)
    then let y := on_result fst (append_evidence (ledger_at k s) ev policy now (links_at k s)) in (kept (ledger_at k s) y.2, y.1)
    else at_key k s
  else at_key k s.
Proof.
  unfold store_append_evidence, _guard_tenant, mbind, M_bind, lift, gets, modify, mret, M_ret, raise_if, in_links.
  destruct (decide (t = er_tenant_id ev)) as [Ht|Ht]; [|by rewrite bool_decide_false].
  rewrite bool_decide_true by done. cbn [negb]. destruct (append_evidence _ ev policy now _) as [l' [[st e]|x]] eqn:E; cbn [fst]; unfold at_key.
  - rewrite ledger_at_put, links_at_ledger, links_at_put, ledger_at_links. case_decide as Hk; [|done]. subst k. by rewrite E.
  - rewrite links_at_put, ledger_at_links. case_decide as Hk; [|done]. subst k. by rewrite E.
Qed.

Lemma status_at k t p i status now policy s : at_key k (store_set_evidence_link_status t p i status now policy s).1 =
  if decide ((t, p) = k)
  then let y := set_evidence_link_status (ledger_at k s) i status policy now (links_at k s) in (kept (ledger_at k s) y.2, y.1)
  else at_key k s.
Proof.
  unfold store_set_evidence_link_status, mbind, M_bind, lift, gets, modify, mret, M_ret, in_links.
  destruct (set_evidence_link_status _ i status policy now _) as [l' [st|x]] eqn:E; cbn [fst]; unfold at_key.
  - rewrite ledger_at_put, links_at_ledger, links_at_put, ledger_at_links. case_decide as Hk; [|done]. subst k. by rewrite E.
  - rewrite links_at_put, ledger_at_links. case_decide as Hk; [|done]. subst k. by rewrite E.
Qed.

Lemma kept_fmap {A B} (f : A -> B) (old : A) (r : result claim_exn A) : kept (f old) (f <$> r) = f (kept old r).
Proof. by destruct r. Qed.

(** The contexts of a history. *)
Definition contexts_of (key : pystr * pystr) (ops : list store_op) : list (EvidenceFreshnessPolicy * datetime) :=
  omap op_context (filter (fun o => op_key o = key) ops).

Lemma contexts_snoc key ops o : contexts_of key (ops ++ [o]) =
  contexts_of key ops ++ (if decide (op_key o = key) then match op_context o with Some x => [x] | None => [] end else []).
Proof. unfold contexts_of. rewrite filter_app, omap_app. f_equal. cbn. case_decide; [|done]. cbn. by destruct (op_context o). Qed.

(** One step on a sealed key. *)
Lemma sealed_step t p s rs l o ctxs :
  at_key (t, p) s = (seal t p rs, l) -> ledger_inv t p rs l -> op_key o = (t, p) ->
  (forall x, op_context o = Some x -> x ∈ ctxs) ->
  let x := abstract_step (rs, l) o in
  at_key (t, p) (run_op s o) = (seal t p x.1, x.2) /\ ledger_inv t p x.1 x.2 /\
  (current ctxs rs l -> proper_op o -> current ctxs x.1 x.2).
Proof.
  intros Hat Hi Hk Hctx x. subst x. pose proof (li_ids _ _ _ _ Hi) as Hnd. assert (ledger_at (t, p) s = seal t p rs /\ links_at (t, p) s = l) as [Hs Hl]
    by (unfold at_key in Hat; by injection Hat).
  destruct o as [t' c|t' ev now policy|t' p' i status now policy]; cbn [op_key run_op abstract_step fst snd] in *.
  - injection Hk as -> Hp. rewrite claim_at, Hat. destruct (decide (t = ec_tenant_id c)) as [Ht|Ht]; [|done].
    rewrite decide_True by (by rewrite Hp). rewrite Hs, Hl, (append_claim_seal t p) by done. cbn [fst snd].
    destruct (claim_step t p ctxs rs l c) as [Hi' Hc']; [done..|]. split; [by rewrite kept_fmap|]. split; [done|]. by intros Hc _; apply Hc'.
  - injection Hk as -> Hp. rewrite evidence_at, Hat. destruct (decide (t = er_tenant_id ev)) as [Ht|Ht]; [|done].
    rewrite decide_True by (by rewrite Hp). rewrite Hs, Hl, (append_evidence_seal t p) by done.
    unfold on_result. cbv zeta. cbn [fst snd]. rewrite kept_fmap. split; [done|]. unfold evidence_added.
    destruct (statement (er_claim_id ev) rs) as [kq|] eqn:Es; [|done]. destruct (find_record (er_evidence_id ev) rs) as [stored|] eqn:Ef; [by case_decide|].
    destruct (evidence_step t p ctxs rs l ev policy now) as [Hi' Hc']; [done|done|by rewrite Es|done|]. split; [done|]. intros Hc _. apply Hc'; [done|].
    by apply Hctx.
  - rewrite status_at. injection Hk as -> ->. rewrite decide_True by done. rewrite Hs, Hl, (status_set_seal t p) by done.
    unfold on_result. cbv zeta. cbn [fst snd]. rewrite kept_fmap. split; [done|]. unfold status_set.
    destruct (find_record i rs) as [ev|] eqn:Ef; [|done].
    destruct (status_step t p ctxs rs l i ev status policy now) as [Hi' Hc']; [done|done|]. split; [done|]. intros Hc Hp. apply Hc'; [done| |done].
    by apply Hctx.
Qed.

Lemma other_step k s o : op_key o <> k -> at_key k (run_op s o) = at_key k s.
Proof.
  intros Hne. destruct o as [t' c|t' ev now policy|t' p' i status now policy]; cbn [op_key run_op] in *;
    rewrite ?claim_at, ?evidence_at, ?status_at; repeat case_decide; done.
Qed.

Lemma history t p ops :
  let x := abstract_run (t, p) ops in
  at_key (t, p) (run_ops ops) = (seal t p x.1, x.2) /\ ledger_inv t p x.1 x.2 /\
  (Forall proper_op ops -> current (contexts_of (t, p) ops) x.1 x.2).
Proof.
  induction ops as [|o ops IH] using rev_ind.
  { split; [done|]. split; [apply inv_empty|]. by intros _ c k q. }
  cbv zeta in *. destruct IH as (Hat & Hi & Hc). rewrite abstract_run_snoc.
  assert (run_ops (ops ++ [o]) = run_op (run_ops ops) o) as -> by (unfold run_ops; by rewrite fold_left_app).
  assert (contexts_of (t, p) ops ⊆ contexts_of (t, p) (ops ++ [o])) as Hsub by (rewrite contexts_snoc; set_solver).
  destruct (decide (op_key o = (t, p))) as [Hk|Hk].
  - destruct (abstract_run (t, p) ops) as [rs l]. cbn [fst snd] in *.
    destruct (sealed_step t p (run_ops ops) rs l o (contexts_of (t, p) (ops ++ [o]))) as (Hat' & Hi' & Hc'); [done..| |].
    { intros x Hx. rewrite contexts_snoc, decide_True, Hx by done. apply elem_of_app. right. by left. }
    split; [done|]. split; [done|]. intros [Hp Ho]%Forall_app. apply Hc'; [|by inversion Ho].
    by apply (current_mono (contexts_of (t, p) ops)), Hc.
  - rewrite other_step by done. split; [done|]. split; [done|]. intros [Hp _]%Forall_app.
    by apply (current_mono (contexts_of (t, p) ops)), Hc.
Qed.

Lemma get_seal s t p rs c : get_ledger s t p = seal t p rs ->
  get_claim_publishability s t p c = match statement c rs with Some (_, q) => Ok q | None => Raise (ClaimNotFoundError c) end.
Proof.
  intros Hs. unfold get_claim_publishability. rewrite Hs. clear Hs. induction rs as [|r rs IH] using rev_ind; [done|].
  rewrite seal_snoc, reverse_snoc, statement_snoc. destruct r as [k q|ev].
  - case_decide as Hc; [by rewrite filter_cons_True by (rewrite claim_of_entry; cbn; by f_equal)|].
    rewrite filter_cons_False; [exact IH|]. rewrite claim_of_entry. cbn. congruence.
  - rewrite filter_cons_False; [exact IH|]. by rewrite claim_of_entry.
Qed.
End store_lemmas.

(** ** The projection of a sealed ledger *)

Section projection.
Context `{FloatRepr} (t p : pystr).
Implicit Types rs : list recorded.

Definition claim_fact (k : ExtractedClaim) (q : ClaimPublishability) : ClaimFact := {|
  cf_tenant_id := t; cf_project_id := p; cf_claim_id := ec_claim_id k; cf_entity_id := ec_entity_id k;
  cf_status := ec_status k; cf_publishable := cp_publishable q; cf_blocking_reasons := cp_blocking_reasons q;
  cf_supporting_evidence_ids := cp_supporting_evidence_ids q
|}.

(** A projection from the store sees no link status. *)
Definition fact_of (r : recorded) : fact :=
  match r with
  | RClaim k q => AClaim (claim_fact k q)
  | REvidence ev => AnEvidence {| ef_tenant_id := t; ef_project_id := p; ef_evidence_id := er_evidence_id ev;
                                  ef_claim_id := er_claim_id ev; ef_link_status := QBLOCKED |}
  end.

Lemma facts_seal rs : forall prev,
  mapM (fun e => if decide (le_kind e = u "claim") then _claim_entry_to_fact e else _evidence_entry_to_fact e (default ∅ None))
    (filter (fun e => le_tenant_id e = t) (seal_from t p prev rs)) = Ok (fact_of <$> rs).
Proof.
  intros prev. rewrite filter_all.
  - apply mapM_Ok. revert prev. induction rs as [|r rs IH]; intros prev; constructor; [by destruct r|apply IH].
  - revert prev. induction rs as [|r rs IH]; intros prev e; cbn [seal_from]; [by intros ?%elem_of_nil|].
    intros [-> |He]%elem_of_cons; [done|by eapply IH].
Qed.

Lemma latest_facts rs c : latest c (fact_of <$> rs) = (fun x => claim_fact x.1 x.2) <$> statement c rs.
Proof.
  induction rs as [|r rs IH] using rev_ind; [done|]. rewrite fmap_app, statement_snoc. destruct r as [k q|ev].
  - change (fact_of <$> [RClaim k q]) with [AClaim (claim_fact k q)]. rewrite latest_claim. cbn [claim_fact cf_claim_id].
    by case_decide.
  - by apply (eq_trans (latest_evidence _ _ _)).
Qed.

Lemma linked_facts rs c : NoDup (evidence_ids rs) -> linked c (fact_of <$> rs) = er_evidence_id <$> evidence_for c rs.
Proof.
  induction rs as [|r rs IH] using rev_ind; [done|]. rewrite evidence_ids_snoc, NoDup_app. intros (Hnd & Hno & _).
  rewrite fmap_app, evidence_for_snoc. destruct r as [k q|ev].
  - change (fact_of <$> [RClaim k q]) with [AClaim (claim_fact k q)]. by rewrite linked_claim, app_nil_r, IH.
  - cbn [fmap list_fmap fact_of]. rewrite linked_evidence, IH by done. cbn [ef_claim_id ef_evidence_id].
    case_decide; [|by rewrite app_nil_r]. rewrite fmap_app. unfold add_new. rewrite decide_False; [done|].
    intros (ev' & Hid & [Hin _]%evidence_for_elem)%list_elem_of_fmap. apply (Hno (er_evidence_id ev)); [|by left].
    apply evidence_ids_elem. by exists ev'.
Qed.

Lemma facts_well_formed rs :
  (forall rs1 ev rs2, rs = rs1 ++ REvidence ev :: rs2 -> statement (er_claim_id ev) rs1 <> None) -> well_formed t (fact_of <$> rs).
Proof.
  induction rs as [|r rs IH] using rev_ind; intros Ha; [by intros i f ?|]. rewrite fmap_app. apply well_formed_snoc. split.
  - apply IH. intros rs1 ev rs2 ->. apply (Ha rs1 ev (rs2 ++ [r])). by rewrite <- app_assoc.
  - unfold refusal. destruct r as [k q|ev]; cbn [fact_of fact_tenant claim_fact cf_tenant_id ef_tenant_id]; rewrite decide_True by done; [done|].
    cbn [ef_claim_id]. rewrite latest_facts. specialize (Ha rs ev [] eq_refl). by destruct (statement (er_claim_id ev) rs).
Qed.

(** The view of a claim with its last statement. *)
Definition ledger_view (k : ExtractedClaim) (q : ClaimPublishability) (evs : list EvidenceRecord) : QeegClaimView := {|
  qv_claim_id := ec_claim_id k; qv_entity_id := ec_entity_id k; qv_status := ec_status k;
  qv_publishable := cp_publishable q; qv_blocking_reasons := cp_blocking_reasons q;
  qv_supporting_evidence_ids := cp_supporting_evidence_ids q; qv_evidence_ids := er_evidence_id <$> evs
|}.

Lemma projection_seal rs l : ledger_inv t p rs l ->
  exists s, build_qeeg_projection t (seal t p rs) None = Ok s /\ represents t (fact_of <$> rs) s /\
    forall c, spec_view c (fact_of <$> rs) = (fun x => ledger_view x.1 x.2 (evidence_for c rs)) <$> statement c rs.
Proof.
  intros Hi. unfold build_qeeg_projection, seal. rewrite facts_seal. cbn [mbind result_bind].
  pose proof (facts_well_formed rs (li_after _ _ _ _ Hi)) as Hw. destruct (replay_cases t (fact_of <$> rs)) as [(_ & s & Hs & Hr)|(F1 & f & F2 & x & Heq & _ & Hx & _)].
  - exists s. unfold replay in Hs. rewrite Hs. split; [done|]. split; [done|]. intros c. unfold spec_view.
    rewrite latest_facts, linked_facts by apply (li_ids _ _ _ _ Hi). by destruct (statement c rs) as [[k q]|].
  - exfalso. rewrite Heq in Hw. rewrite cons_middle, app_assoc in Hw.
    assert (refusal t F1 f = None) as Hn; [|congruence].
    pose proof (Hw (length F1) f) as Hf. rewrite <- app_assoc in Hf. rewrite lookup_app_r, Nat.sub_diag in Hf by done.
    specialize (Hf eq_refl). by rewrite take_app_length in Hf.
Qed.
End projection.

Lemma seal_split t p `{FloatRepr} st1 e st2 : forall rs prev, seal_from t p prev rs = st1 ++ e :: st2 ->
  exists rs1 r rs2 prev', rs = rs1 ++ r :: rs2 /\ st1 = seal_from t p prev rs1 /\ e = entry_of t p prev' r.
Proof.
  induction st1 as [|x st1 IH]; intros rs prev; destruct rs as [|r rs]; cbn [seal_from app]; try done.
  - intros [= <- _]. by exists [], r, rs, prev.
  - intros [= <- Hrest]. apply IH in Hrest as (rs1 & r' & rs2 & prev' & -> & -> & ->). by exists (r :: rs1), r', rs2, prev'.
Qed.

Lemma seal_claim_elem `{FloatRepr} t p rs e c : e ∈ seal t p rs -> claim_of e = Some c -> exists q, RClaim c q ∈ rs.
Proof.
  intros He Hc. assert (c ∈ omap claim_of (seal t p rs)) as Hin by (apply list_elem_of_omap; by exists e).
  unfold seal in Hin. rewrite (omap_seal t p _ (fun r => fst <$> record_claim r)) in Hin by (intros; apply claim_of_entry).
  apply list_elem_of_omap in Hin as ([k q|ev] & Hr & Hk); [|done]. injection Hk as ->. by exists q.
Qed.

Lemma seal_owner `{FloatRepr} t p rs : Forall (fun e => le_tenant_id e = t /\ le_project_id e = p) (seal t p rs).
Proof. unfold seal. generalize (None : option pystr). induction rs as [|r rs IH]; intros prev; constructor; [done|apply IH]. Qed.

(** ** Theorems *)

Section theorems.
Context `{FloatRepr}.

(** C29: A claim is publishable exactly with support.  After any history of
    requests at proper clocks, what the store answers for a claim was evaluated
    at the clock and under the policy of one of the requests: publishable
    exactly when some evidence of the claim in the ledger is linked and was
    fresh then, with those ids, and with blocking reasons exactly when not. *)
Theorem publishable_exactly ops t p c q :
  Forall proper_op ops -> get_claim_publishability (run_ops ops) t p c = Ok q ->
  let evs := _all_evidence_for_claim (get_ledger (run_ops ops) t p) c in
  let l := links_at (t, p) (run_ops ops) in
  (evs = [] /\ q = unsupported c) \/
  exists policy now, (policy, now) ∈ contexts_of (t, p) ops /\
    cp_supporting_evidence_ids q = er_evidence_id <$> filter (supports l policy now) evs /\
    (cp_publishable q = true <-> exists ev, ev ∈ evs /\ supports l policy now ev) /\
    (cp_publishable q = true <-> cp_blocking_reasons q = []).
Proof.
  intros Hp Hq. destruct (history t p ops) as (Hat & Hi & Hc). destruct (abstract_run (t, p) ops) as [rs l]. cbn [fst snd] in *.
  unfold at_key in Hat. injection Hat as Hs Hl. unfold get_ledger. rewrite Hl. cbv zeta.
  rewrite (get_seal _ t p rs) in Hq by done. rewrite Hs, all_evidence_seal by apply (li_ids _ _ _ _ Hi).
  destruct (statement c rs) as [[k q']|] eqn:Es; [|done]. injection Hq as ->.
  destruct (Hc Hp c k q Es) as [?|(policy & now & Hin & He)]; [by left|right]. exists policy, now. split; [done|].
  by apply evaluate_Ok in He as (_ & ? & ? & ? & _).
Qed.

(** C30: The projection refines the ledger.  After any history of requests the
    replay from the store succeeds; every claim of the ledger is seen with its
    content, with the publishability the store answers and with the ids of its
    evidence in ledger order, and nothing else is seen; an entity lists exactly
    the claims that name it. *)
Theorem projection_refines_ledger ops t p :
  exists s, replay_qeeg_projection_from_store (run_ops ops) t p = Ok s /\
    (forall c,
       match _latest_claims (get_ledger (run_ops ops) t p) !! c with
       | Some e => exists k q, le_claim e = Some k /\ ec_claim_id k = c /\ get_claim_publishability (run_ops ops) t p c = Ok q /\
           publishability_of s c = Ok (ledger_view k q (_all_evidence_for_claim (get_ledger (run_ops ops) t p) c))
       | None => get_claim_publishability (run_ops ops) t p c = Raise (ClaimNotFoundError c) /\
           publishability_of s c = Raise (UnknownClaimError c)
       end) /\
    (forall e, NoDup (qv_claim_id <$> claims_by_entity s e) /\
       forall v, v ∈ claims_by_entity s e <-> publishability_of s (qv_claim_id v) = Ok v /\ qv_entity_id v = e).
Proof.
  destruct (history t p ops) as (Hat & Hi & _). destruct (abstract_run (t, p) ops) as [rs l]. cbn [fst snd] in *.
  unfold at_key in Hat. injection Hat as Hs Hl. unfold replay_qeeg_projection_from_store.
  assert (get_ledger (run_ops ops) t p = seal t p rs) as Hg by done. rewrite Hg.
  destruct (projection_seal t p rs l Hi) as (s & Hb & Hr & Hv). exists s. split; [done|].
  pose proof (publishability_view t _ s Hr) as Hpub. split.
  - intros c. rewrite (get_seal _ t p rs c Hg), Hpub, Hv. pose proof (latest_seal t p rs c) as Hlat.
    destruct (statement c rs) as [[k q]|] eqn:Es; [|by rewrite Hlat]. destruct Hlat as (e & -> & Hk & _).
    exists k, q. apply statement_elem in Es as [_ Hid]. rewrite all_evidence_seal by apply (li_ids _ _ _ _ Hi). done.
  - intros e. destruct (entity_view t _ s Hr e) as [Hnd Hin]. split; [done|]. intros v. rewrite Hin, Hpub.
    split; intros [Ha Hb']; (split; [|done]); [by rewrite Ha|]. destruct (spec_view _ _); [by injection Ha as ->|done].
Qed.

(** C31: The ledger under any history, whatever the clocks: it verifies; a claim
    id has one content, an evidence id one record, and evidence its claim before
    it; everything in it is the tenant's and the project's own; and what other
    keys are asked changes nothing: it is the ledger of the requests of its key. *)
Theorem ledger_integrity ops t p :
  let st := get_ledger (run_ops ops) t p in
  verify_ledger_chain st = Ok (true, None) /\
  (forall e1 e2 c1 c2, e1 ∈ st -> e2 ∈ st -> claim_of e1 = Some c1 -> claim_of e2 = Some c2 -> ec_claim_id c1 = ec_claim_id c2 -> c1 = c2) /\
  NoDup (er_evidence_id <$> omap evidence_of st) /\
  Forall (fun e => le_tenant_id e = t /\ le_project_id e = p) st /\
  (forall st1 e ev st2, st = st1 ++ e :: st2 -> evidence_of e = Some ev -> is_Some (_latest_claims st1 !! er_claim_id ev)) /\
  st = get_ledger (run_ops (filter (fun o => op_key o = (t, p)) ops)) t p.
Proof.
  cbv zeta. destruct (history t p ops) as (Hat & Hi & _). destruct (history t p (filter (fun o => op_key o = (t, p)) ops)) as (Hat' & _ & _).
  assert (abstract_run (t, p) (filter (fun o => op_key o = (t, p)) ops) = abstract_run (t, p) ops) as Heq.
  { unfold abstract_run. f_equal. apply filter_all. intros o Ho. by apply list_elem_of_filter in Ho as [? _]. }
  rewrite Heq in Hat'. clear Heq. destruct (abstract_run (t, p) ops) as [rs l]. cbn [fst snd] in *. unfold at_key in Hat, Hat'.
  injection Hat as Hs _. injection Hat' as Hs' _. unfold get_ledger. rewrite Hs, Hs'. split; [apply verify_seal_from|]. split_and!.
  - intros e1 e2 c1 c2 H1 H2 Hc1 Hc2. destruct (seal_claim_elem _ _ _ _ _ H1 Hc1) as [q1 Hr1], (seal_claim_elem _ _ _ _ _ H2 Hc2) as [q2 Hr2].
    by apply (li_content _ _ _ _ Hi c1 q1 c2 q2).
  - unfold seal. rewrite (omap_seal t p _ record_evidence) by (intros; apply evidence_of_entry). apply (li_ids _ _ _ _ Hi).
  - apply seal_owner.
  - intros st1 e ev st2 Hst Hev. unfold seal in Hst. apply seal_split in Hst as (rs1 & r & rs2 & prev & Hrs & -> & ->).
    rewrite evidence_of_entry in Hev. destruct r as [k q|ev']; [done|]. injection Hev as ->.
    pose proof (li_after _ _ _ _ Hi rs1 ev rs2 Hrs) as Hn. pose proof (latest_seal t p rs1 (er_claim_id ev)) as Hl.
    destruct (statement (er_claim_id ev) rs1) as [[k q]|]; [|done]. destruct Hl as (e & He & _). unfold seal in He. rewrite He. by eexists.
  - done.
Qed.

(** The chain commits to neither the publishability nor the position: stating
    another publishability in an entry, or taking an entry out and relinking
    the next, leaves a verified ledger verified. *)
Definition restate (q : option ClaimPublishability) (e : ClaimEvidenceLedgerEntry) : ClaimEvidenceLedgerEntry := {|
  le_kind := le_kind e; le_tenant_id := le_tenant_id e; le_project_id := le_project_id e; le_claim := le_claim e;
  le_evidence := le_evidence e; le_publishability := q; le_canonical_hash := le_canonical_hash e;
  le_previous_hash := le_previous_hash e
|}.

Definition relink (prev : option pystr) (st : ClaimEvidenceLedgerState) : ClaimEvidenceLedgerState :=
  match st with
  | [] => []
  | e :: st => {| le_kind := le_kind e; le_tenant_id := le_tenant_id e; le_project_id := le_project_id e; le_claim := le_claim e;
                  le_evidence := le_evidence e; le_publishability := le_publishability e;
                  le_canonical_hash := le_canonical_hash e; le_previous_hash := prev |} :: st
  end.

Lemma verify_from_index st : forall prev i j, verify_from prev i st = Ok (true, None) -> verify_from prev j st = Ok (true, None).
Proof.
  induction st as [|e st IH]; intros prev i j; [done|]. cbn [verify_from]. destruct (decide _); [|done].
  destruct (_claim_material <$> claim_of e) as [m|]; [|destruct (_evidence_material <$> evidence_of e) as [m|]; [|done]];
    rewrite hash_total; cbn [mbind result_bind]; (destruct (decide _); [|done]); apply IH.
Qed.

Theorem publishability_is_not_sealed st : forall prev i, verify_from prev i st = Ok (true, None) ->
  forall qs, length qs = length st -> verify_from prev i (zip_with restate qs st) = Ok (true, None).
Proof.
  induction st as [|e st IH]; intros prev i Hv [|q qs] Hlen; try done. cbn [zip_with verify_from] in *.
  change (claim_of (restate q e)) with (claim_of e). change (evidence_of (restate q e)) with (evidence_of e).
  change (le_previous_hash (restate q e)) with (le_previous_hash e). change (le_canonical_hash (restate q e)) with (le_canonical_hash e).
  destruct (decide (le_previous_hash e = prev)); [|done].
  destruct (_claim_material <$> claim_of e) as [m|]; [|destruct (_evidence_material <$> evidence_of e) as [m|]; [|done]];
    rewrite hash_total in *; cbn [mbind result_bind] in *; (destruct (decide _); [|done]); (apply IH; [done|by injection Hlen]).
Qed.

Theorem deletion_is_not_seen e st : forall prev i, verify_from prev i (e :: st) = Ok (true, None) ->
  verify_from prev i (relink prev st) = Ok (true, None).
Proof.
  intros prev i Hv. assert (verify_from (Some (le_canonical_hash e)) (S i) st = Ok (true, None)) as Hs.
  { cbn [verify_from] in Hv. destruct (decide _); [|done].
    destruct (_claim_material <$> claim_of e) as [m|]; [|destruct (_evidence_material <$> evidence_of e) as [m|]; [|done]];
      rewrite hash_total in Hv; cbn [mbind result_bind] in Hv; by destruct (decide _). }
  clear Hv. destruct st as [|x st]; [done|]. cbn [relink verify_from] in *. rewrite decide_True by done.
  destruct (decide (le_previous_hash x = Some (le_canonical_hash e))) in Hs; [|done]. change (claim_of {| le_kind := _ |}) with (claim_of x). change (evidence_of {| le_kind := _ |}) with (evidence_of x).
  cbn [le_canonical_hash].
  destruct (_claim_material <$> claim_of x) as [m|]; [|destruct (_evidence_material <$> evidence_of x) as [m|]; [|done]];
    rewrite hash_total in *; cbn [mbind result_bind] in *; (destruct (decide (material_hash m = _)); [|done]); by eapply verify_from_index.
Qed.
End theorems.

Module Witness.
#[local] Existing Instance sci_float_repr.

Definition c1 (status : string) : ExtractedClaim := {|
  ec_tenant_id := u "acme"; ec_project_id := u "p1"; ec_claim_id := u "c1"; ec_entity_id := u "acme-crm"; ec_claim_text := u "fast";
  ec_status := u status; ec_effective_from := u "2026-01-01T00:00:00Z"; ec_created_at := u "2026-01-01T00:00:00Z"
|}.
Definition e1 : EvidenceRecord := {|
  er_tenant_id := u "acme"; er_project_id := u "p1"; er_evidence_id := u "e1"; er_claim_id := u "c1"; er_source_uri := u "https://acme.example/x";
  er_excerpt := u "x"; er_freshness_checked_at := u "2026-01-02T00:00:00.5Z"; er_content_hash := u "sha256:0"
|}.
Definition at_time (s : string) : datetime := match parse_zulu (u s) with Ok d => d | Raise _ => {| wall := 0; tz := None |} end.
Definition day : EvidenceFreshnessPolicy := {| max_age_seconds := 86400 |}.
Definition noon := at_time "2026-01-02T12:00:00Z".
Definition naive_noon : datetime := {| wall := wall noon; tz := None |}.

Definition linked_run := [OpClaim (u "acme") (c1 "active"); OpEvidence (u "acme") e1 noon day].

Lemma answer ops t p c : get_claim_publishability (run_ops ops) t p c =
  match statement c (abstract_run (t, p) ops).1 with Some (_, q) => Ok q | None => Raise (ClaimNotFoundError c) end.
Proof.
  destruct (history t p ops) as (Hat & _). apply get_seal. unfold at_key in Hat. by injection Hat.
Qed.

Lemma answer_links ops t p : links_at (t, p) (run_ops ops) = (abstract_run (t, p) ops).2.
Proof. destruct (history t p ops) as (Hat & _). unfold at_key in Hat. by injection Hat. Qed.

Lemma noon_proper : proper_clock noon.
Proof. split; [reflexivity|]. split; [by intros _|]. vm_compute. done. Qed.

Definition supported : ClaimPublishability := {|
  cp_claim_id := u "c1"; cp_publishable := true; cp_blocking_reasons := []; cp_supporting_evidence_ids := [u "e1"]
|}.

Lemma publishable_exactly_witness :
  get_claim_publishability (run_ops linked_run) (u "acme") (u "p1") (u "c1") = Ok supported /\
  exists ev, ev ∈ _all_evidence_for_claim (get_ledger (run_ops linked_run) (u "acme") (u "p1")) (u "c1") /\
    links_at (u "acme", u "p1") (run_ops linked_run) !! er_evidence_id ev = Some LINKED.
Proof.
  assert (get_claim_publishability (run_ops linked_run) (u "acme") (u "p1") (u "c1") = Ok supported) as Hq
    by (rewrite answer; vm_compute; reflexivity).
  split; [exact Hq|]. destruct (publishable_exactly linked_run (u "acme") (u "p1") (u "c1") supported) as [[_ Hno]|(po & now & _ & _ & Hs & _)].
  - constructor; [exact I|]. constructor; [exact noon_proper|constructor].
  - exact Hq.
  - discriminate Hno.
  - destruct (proj1 Hs eq_refl) as (ev & Hin & Hl & _). exists ev. split; [exact Hin|exact Hl].
Defined.

Lemma fresh_exact_witness : is_evidence_fresh e1 day noon = Ok true.
Proof.
  rewrite (fresh_exact e1 day noon (at_time "2026-01-02T00:00:00.5Z") noon_proper).
  - reflexivity.
  - vm_compute. reflexivity.
  - vm_compute. done.
  - vm_compute. done.
Defined.

(** A status that is set under a naive clock: the status is stored, the
    evaluation raises, and the ledger still counts the blocked evidence. *)
Definition e2 : EvidenceRecord := {|
  er_tenant_id := u "acme"; er_project_id := u "p1"; er_evidence_id := u "e2"; er_claim_id := u "c1"; er_source_uri := u "https://acme.example/y";
  er_excerpt := u "y"; er_freshness_checked_at := u "2026-01-02T00:00:00Z"; er_content_hash := u "sha256:0"
|}.
Definition blocked_run :=
  linked_run ++ [OpEvidence (u "acme") e2 noon day; OpStatus (u "acme") (u "p1") (u "e1") BLOCKED naive_noon day].
Example blocked_but_counted :
  cp_supporting_evidence_ids <$> get_claim_publishability (run_ops blocked_run) (u "acme") (u "p1") (u "c1") = Ok [u "e1"; u "e2"] /\
  links_at (u "acme", u "p1") (run_ops blocked_run) !! u "e1" = Some BLOCKED.
Proof. rewrite answer, answer_links. split; vm_compute; reflexivity. Qed.

(** Freshness is judged when a request arrives: the answer of the store does
    not age with its evidence. *)
Example stale_but_publishable :
  get_claim_publishability (run_ops linked_run) (u "acme") (u "p1") (u "c1") = Ok supported /\
  is_evidence_fresh e1 day (at_time "2026-01-04T12:00:00Z") = Ok false.
Proof. rewrite answer. split; vm_compute; reflexivity. Qed.

(** The status of the claim itself is not asked. *)
Example retracted_but_publishable :
  cp_publishable <$> get_claim_publishability
    (run_ops [OpClaim (u "acme") (c1 "retracted"); OpEvidence (u "acme") e1 noon day]) (u "acme") (u "p1") (u "c1") = Ok true.
Proof. rewrite answer. vm_compute. reflexivity. Qed.

(** A check in the future is no support. *)
Example future_check : is_evidence_fresh e1 day (at_time "2026-01-02T00:00:00Z") = Ok false.
Proof. vm_compute. reflexivity. Qed.

Example impossible_day : _parse_effective_from {|
  ec_tenant_id := []; ec_project_id := []; ec_claim_id := []; ec_entity_id := []; ec_claim_text := []; ec_status := [];
  ec_effective_from := u "2026-02-30T00:00:00Z"; ec_created_at := [] |} = Raise ValueError.
Proof. vm_compute. reflexivity. Qed.
End Witness.
