(* ===== verification/Schedule.v ===== *)
(** The observation scheduler of the ChatGPT observer
    (measurement_scheduling.py): slots laid out over a measurement window under
    a rate policy, and the observer that replays approved fixtures.

    The fields of a cell, a window and a policy are objects that [validate]
    tests: they are Python values ([pyval]), where a [bool] is no [int].  What
    follows the validation reads them with [as_text] and [as_int]. *)

From Stdlib Require Import SpecFloat QArith Lqa.
From S2P Require Import Prelude PyStr PyVal Rational PyCmp Float64.
Local Open Scope Z_scope.

Definition _SECONDS_PER_DAY : Z := 86400.
Definition APPROVAL_TOKEN_PREFIX : pystr := u "human-approval:".

Inductive schedule_exn :=
  | SchedulingBoundaryError (field : pystr) | SchedulingWindowError | SchedulingRatePolicyError (field : pystr)
  | SchedulingApprovalRequiredError.

Inductive Arm := BASELINE | TREATMENT | CONTROL.
Inductive Provenance := FIXTURE | PRODUCTION.

#[export] Instance Arm_eq_dec : EqDecision Arm.
Proof. solve_decision. Defined.
#[export] Instance Provenance_eq_dec : EqDecision Provenance.
Proof. solve_decision. Defined.

(** ** Values *)

Record ObservationCell := {
  query_cluster_ref : pyval; locale : pyval; browser_policy : pyval; repeat_count : pyval; domain_key : pyval
}.
Record MeasurementWindow := { start_epoch_s : pyval; end_epoch_s : pyval }.
Record RatePolicy := {
  max_per_day : pyval; max_concurrent : pyval; min_gap_seconds : pyval; backoff_base_seconds : pyval;
  backoff_factor : pyval; backoff_cap_seconds : pyval; max_retries : pyval; imbalance_ratio_cap : pyval
}.

(** [isinstance(v, int) and not isinstance(v, bool)] *)
Definition is_int (v : pyval) : bool := match v with PInt _ => true | _ => false end.
Definition as_int (v : pyval) : Z := match v with PInt z => z | _ => 0 end.
Definition as_text (v : pyval) : pystr := match v with PStr s => s | _ => [] end.
Definition nonempty_text (v : pyval) : bool := match v with PStr (_ :: _) => true | _ => false end.

Definition validate_cell (c : ObservationCell) : result schedule_exn unit :=
  _ ← raise_if (negb (nonempty_text (query_cluster_ref c))) (SchedulingBoundaryError (u "query_cluster_ref"));
  _ ← raise_if (negb (nonempty_text (locale c))) (SchedulingBoundaryError (u "locale"));
  _ ← raise_if (negb (nonempty_text (browser_policy c))) (SchedulingBoundaryError (u "browser_policy"));
  _ ← raise_if (negb (nonempty_text (domain_key c))) (SchedulingBoundaryError (u "domain_key"));
  _ ← raise_if (negb (is_int (repeat_count c))) (SchedulingBoundaryError (u "repeat_count"));
  raise_if (as_int (repeat_count c) <? 1) (SchedulingBoundaryError (u "repeat_count")).

Definition validate_window (w : MeasurementWindow) : result schedule_exn unit :=
  _ ← raise_if (negb (is_int (start_epoch_s w))) SchedulingWindowError;
  _ ← raise_if (negb (is_int (end_epoch_s w))) SchedulingWindowError;
  raise_if (as_int (end_epoch_s w) <=? as_int (start_epoch_s w)) SchedulingWindowError.

Definition duration_s (w : MeasurementWindow) : Z := as_int (end_epoch_s w) - as_int (start_epoch_s w).

Definition positive_int (v : pyval) : bool := is_int v && (1 <=? as_int v).

(** [isinstance(v, (int, float)) and not isinstance(v, bool)] and [v < 1.0] *)
Definition real_number (v : pyval) : option pynum :=
  match v with PInt _ | PFloat _ => num_of v | _ => None end.
Definition num_lt (x y : pynum) : bool := num_le x y && negb (num_le y x).

Definition validate_policy (p : RatePolicy) : result schedule_exn unit :=
  _ ← raise_if (negb (positive_int (max_per_day p))) (SchedulingRatePolicyError (u "max_per_day"));
  _ ← raise_if (negb (positive_int (max_concurrent p))) (SchedulingRatePolicyError (u "max_concurrent"));
  _ ← raise_if (negb (positive_int (min_gap_seconds p))) (SchedulingRatePolicyError (u "min_gap_seconds"));
  _ ← raise_if (negb (positive_int (backoff_base_seconds p))) (SchedulingRatePolicyError (u "backoff_base_seconds"));
  _ ← raise_if (negb (positive_int (backoff_factor p))) (SchedulingRatePolicyError (u "backoff_factor"));
  _ ← raise_if (negb (positive_int (backoff_cap_seconds p))) (SchedulingRatePolicyError (u "backoff_cap_seconds"));
  _ ← raise_if (negb (is_int (max_retries p))) (SchedulingRatePolicyError (u "max_retries"));
  _ ← raise_if (as_int (max_retries p) <? 0) (SchedulingRatePolicyError (u "max_retries"));
  _ ← raise_if (as_int (backoff_cap_seconds p) <? as_int (backoff_base_seconds p)) (SchedulingRatePolicyError (u "backoff_cap_seconds"));
  match real_number (imbalance_ratio_cap p) with
  | None => Raise (SchedulingRatePolicyError (u "imbalance_ratio_cap"))
  | Some cap => raise_if (num_lt cap (Finite 1)) (SchedulingRatePolicyError (u "imbalance_ratio_cap"))
  end.

Definition slot_stride_seconds (p : RatePolicy) : Z :=
  let day_stride := - (- _SECONDS_PER_DAY / as_int (max_per_day p)) in
  Z.max (as_int (min_gap_seconds p)) day_stride.

Definition backoff_stagger_for (p : RatePolicy) (slot_index : Z) : Z :=
  let exponent := slot_index mod (as_int (max_retries p) + 1) in
  let raw := as_int (backoff_base_seconds p) * as_int (backoff_factor p) ^ exponent in
  Z.min raw (as_int (backoff_cap_seconds p)).

Record ObservationSlot := {
  os_arm : Arm; os_provenance : Provenance; os_slot_index : Z; os_lane : Z; os_scheduled_at_epoch_s : Z;
  os_backoff_stagger_seconds : Z; os_query_cluster_ref : pystr; os_locale : pystr; os_browser_policy : pystr; os_domain_key : pystr
}.

(** ** The scheduler *)

Definition _ARM_ROTATION : list Arm := [BASELINE; CONTROL; TREATMENT].

Definition _assign_arms (total_slots : Z) : list Arm :=
  (fun i => nth (Z.to_nat (i mod 3)) _ARM_ROTATION BASELINE) <$> seqZ 0 total_slots.

Definition _arm_counts (arms : list Arm) (arm : Arm) : Z := Z.of_nat (length (filter (fun a => a = arm) arms)).

Definition _guard_production_approval (provenance : Provenance) (token : pyval) : result schedule_exn unit :=
  match provenance with
  | FIXTURE => Ok tt
  | PRODUCTION =>
      raise_if match token with
               | PStr s => negb (startswith APPROVAL_TOKEN_PREFIX s) || (length s <=? length APPROVAL_TOKEN_PREFIX)%nat
               | _ => true
               end SchedulingApprovalRequiredError
  end.

(** [hi / lo] of two integers: the nearest float. *)
Definition true_div (hi lo : Z) : pynum := Finite (sf_fraction (round_exact false (inject_Z hi / inject_Z lo))).

Definition _guard_imbalance (arms : list Arm) (p : RatePolicy) : result schedule_exn unit :=
  let populated := filter (fun c => 0 < c) (_arm_counts arms <$> _ARM_ROTATION) in
  match populated with
  | [] => Ok tt
  | c :: rest =>
      let lo := foldr Z.min c rest in
      let hi := foldr Z.max c rest in
      let ratio := true_div hi lo in
      match real_number (imbalance_ratio_cap p) with
      | Some cap => raise_if (num_lt cap ratio) (SchedulingRatePolicyError (u "imbalance_ratio"))
      | None => Ok tt
      end
  end.

Definition _guard_rate_limits (total_slots : Z) (w : MeasurementWindow) (p : RatePolicy) : result schedule_exn unit :=
  let stride := slot_stride_seconds p in
  let capacity := duration_s w / stride + 1 in
  raise_if (capacity <? total_slots) (SchedulingRatePolicyError (u "total_slots")).

Definition lay_out_slot (c : ObservationCell) (w : MeasurementWindow) (p : RatePolicy) (provenance : Provenance) (i : nat) (arm : Arm)
    : ObservationSlot := {|
  os_arm := arm; os_provenance := provenance; os_slot_index := Z.of_nat i;
  os_lane := Z.of_nat i mod as_int (max_concurrent p);
  os_scheduled_at_epoch_s := as_int (start_epoch_s w) + Z.of_nat i * slot_stride_seconds p;
  os_backoff_stagger_seconds := backoff_stagger_for p (Z.of_nat i);
  os_query_cluster_ref := as_text (query_cluster_ref c); os_locale := as_text (locale c);
  os_browser_policy := as_text (browser_policy c); os_domain_key := as_text (domain_key c)
|}.

Definition _lay_out_slots (c : ObservationCell) (w : MeasurementWindow) (p : RatePolicy) (provenance : Provenance) (arms : list Arm)
    : list ObservationSlot := imap (lay_out_slot c w p provenance) arms.

Record ObservationCellSchedule := {
  sc_cell : ObservationCell; sc_window : MeasurementWindow; sc_policy : RatePolicy; sc_provenance : Provenance;
  slots : list ObservationSlot
}.

Definition build (c : ObservationCell) (w : MeasurementWindow) (p : RatePolicy) (provenance : Provenance) (token : pyval)
    : result schedule_exn ObservationCellSchedule :=
  _ ← _guard_production_approval provenance token;
  _ ← validate_cell c;
  _ ← validate_window w;
  _ ← validate_policy p;
  let total_slots := as_int (repeat_count c) * 3 in
  let arms := _assign_arms total_slots in
  _ ← _guard_imbalance arms p;
  _ ← _guard_rate_limits total_slots w p;
  Ok {| sc_cell := c; sc_window := w; sc_policy := p; sc_provenance := provenance; slots := _lay_out_slots c w p provenance arms |}.

Definition slots_for_arm (s : ObservationCellSchedule) (arm : Arm) : list ObservationSlot := filter (fun x => os_arm x = arm) (slots s).
Definition arm_counts (s : ObservationCellSchedule) (arm : Arm) : Z := _arm_counts (os_arm <$> slots s) arm.

(** ** The approved-fixture observer *)

Record FixtureObservation := {
  fo_slot_index : Z; fo_arm : Arm; fo_query_cluster_ref : pystr; fo_locale : pystr; fo_citation_refs : list pystr;
  fo_raw_object_ref : pystr; fo_provenance : Provenance
}.

Record ApprovedFixtureObserver := {
  _fixtures : gmap (pystr * pystr) (list pystr * pystr); observe_calls : list Z
}.

Definition register (q l : pystr) (citation_refs : list pystr) (raw_object_ref : pystr) (o : ApprovedFixtureObserver)
    : ApprovedFixtureObserver :=
  {| _fixtures := <[(q, l) := (citation_refs, raw_object_ref)]> (_fixtures o); observe_calls := observe_calls o |}.

Definition record_call (i : Z) (o : ApprovedFixtureObserver) : ApprovedFixtureObserver :=
  {| _fixtures := _fixtures o; observe_calls := observe_calls o ++ [i] |}.

Definition observe_slot (slot : ObservationSlot) : M ApprovedFixtureObserver schedule_exn FixtureObservation :=
  _ ← raise_when (negb (bool_decide (os_provenance slot = FIXTURE))) SchedulingApprovalRequiredError;
  _ ← modify (record_call (os_slot_index slot));
  fixture ← gets (fun o => _fixtures o !! (os_query_cluster_ref slot, os_locale slot));
  match fixture with
  | None => throw (SchedulingBoundaryError (u "fixture"))
  | Some (citation_refs, raw_object_ref) =>
      mret {| fo_slot_index := os_slot_index slot; fo_arm := os_arm slot; fo_query_cluster_ref := os_query_cluster_ref slot;
              fo_locale := os_locale slot; fo_citation_refs := citation_refs; fo_raw_object_ref := raw_object_ref;
              fo_provenance := FIXTURE |}
  end.

Fixpoint observe_all (l : list ObservationSlot) : M ApprovedFixtureObserver schedule_exn (list FixtureObservation) :=
  match l with
  | [] => mret []
  | slot :: l => x ← observe_slot slot; xs ← observe_all l; mret (x :: xs)
  end.

Definition replay_schedule (s : ObservationCellSchedule) : M ApprovedFixtureObserver schedule_exn (list FixtureObservation) :=
  _ ← raise_when (negb (bool_decide (sc_provenance s = FIXTURE))) SchedulingApprovalRequiredError;
  observe_all (slots s).

(** ** Counting *)

Lemma least_elem (l : list Z) : l <> [] -> exists m, m ∈ l /\ forall x, x ∈ l -> m <= x.
Proof.
  induction l as [|x l IH]; [done|]. intros _. destruct l as [|y l].
  - exists x. split; [by left|]. intros z ->%list_elem_of_singleton. lia.
  - destruct IH as (m & Hm & Hle); [done|]. destruct (Z.le_gt_cases x m).
    + exists x. split; [by left|]. intros z [-> |Hz]%elem_of_cons; [lia|]. specialize (Hle z Hz). lia.
    + exists m. split; [by right|]. intros z [-> |Hz]%elem_of_cons; [lia|auto].
Qed.

(** Different integers that lie less than [k] apart are at most [k]. *)
Lemma close_NoDup (l : list Z) k : 0 <= k -> NoDup l -> (forall x y, x ∈ l -> y ∈ l -> x - y < k) -> Z.of_nat (length l) <= k.
Proof.
  intros Hk Hnd Hclose. destruct (decide (l = [])) as [->|Hne]; [cbn; lia|]. destruct (least_elem l Hne) as (m & Hm & Hle).
  assert (length l <= length (seqZ m k))%nat as Hlen.
  { apply submseteq_length, NoDup_submseteq; [done|]. intros x Hx. apply elem_of_seqZ.
    specialize (Hclose x m Hx Hm). specialize (Hle x Hx). lia. }
  rewrite length_seqZ in Hlen. lia.
Qed.

(** The guards of a sequence that returned. *)
Ltac guards H := repeat (apply seq_Ok in H; let G := fresh "G" in destruct H as [G H]; cbn beta in H; apply raise_if_Ok in G).

Lemma positive_int_le v : negb (positive_int v) = false -> 1 <= as_int v.
Proof. unfold positive_int. rewrite negb_false_iff, andb_true_iff. lia. Qed.

Lemma validate_policy_Ok p : validate_policy p = Ok tt ->
  (1 <= as_int (max_per_day p) /\ 1 <= as_int (max_concurrent p) /\ 1 <= as_int (min_gap_seconds p)) /\
  (1 <= as_int (backoff_base_seconds p) <= as_int (backoff_cap_seconds p) /\ 1 <= as_int (backoff_factor p) /\ 0 <= as_int (max_retries p)) /\
  exists cap, real_number (imbalance_ratio_cap p) = Some cap /\ num_lt cap (Finite 1) = false.
Proof.
  unfold validate_policy. intros Hp. guards Hp. apply positive_int_le in G, G0, G1, G2, G3, G4. apply Z.ltb_ge in G6, G7.
  split; [lia|]. split; [lia|]. destruct (real_number (imbalance_ratio_cap p)) as [cap|]; [|done]. exists cap. split; [done|].
  by apply raise_if_Ok in Hp.
Qed.

(** A stride is at least the gap, and a day of strides reaches the cap. *)
Lemma stride_bounds p : 1 <= as_int (max_per_day p) -> 1 <= as_int (min_gap_seconds p) ->
  1 <= slot_stride_seconds p /\ as_int (min_gap_seconds p) <= slot_stride_seconds p /\
  _SECONDS_PER_DAY <= slot_stride_seconds p * as_int (max_per_day p).
Proof.
  intros Hm Hg. unfold slot_stride_seconds. set (n := as_int (max_per_day p)) in *. clearbody n.
  pose proof (Z.div_mod (- _SECONDS_PER_DAY) n ltac:(lia)) as Hd. pose proof (Z.mod_pos_bound (- _SECONDS_PER_DAY) n ltac:(lia)) as Hb.
  set (q := - _SECONDS_PER_DAY / n) in *. clearbody q. split; [lia|]. split; [lia|]. nia.
Qed.

(** ** The arms are equal *)

Lemma assign_arms_more r : 0 <= r -> _assign_arms ((r + 1) * 3) = _assign_arms (r * 3) ++ _ARM_ROTATION.
Proof.
  intros Hr. unfold _assign_arms. replace ((r + 1) * 3) with (r * 3 + 3) by lia. rewrite (seqZ_app 0 (r * 3) 3), fmap_app by lia.
  f_equal. rewrite Z.add_0_l. rewrite seqZ_cons, seqZ_cons, seqZ_cons by lia. cbn [fmap list_fmap].
  replace (Z.pred (Z.pred (Z.pred 3))) with 0 by lia. cbn [seqZ Z.to_nat seq fmap list_fmap].
  replace (Z.succ (r * 3) mod 3) with 1 by (apply (Z.mod_unique _ _ r); lia).
  replace (Z.succ (Z.succ (r * 3)) mod 3) with 2 by (apply (Z.mod_unique _ _ r); lia).
  by rewrite Z.mod_mul.
Qed.

Lemma equal_arms r arm : 0 <= r -> _arm_counts (_assign_arms (r * 3)) arm = r.
Proof.
  intros Hr. pattern r. apply natlike_ind; [by destruct arm| |done]. intros x Hx IH. unfold Z.succ. rewrite assign_arms_more by done.
  unfold _arm_counts in *. rewrite filter_app, length_app, Nat2Z.inj_add, IH. by destruct arm.
Qed.

Lemma assign_arms_length n : 0 <= n -> Z.of_nat (length (_assign_arms n)) = n.
Proof. intros Hn. unfold _assign_arms. rewrite length_fmap, length_seqZ. lia. Qed.

Lemma num_lt_one cap q : (q == 1)%Q -> num_lt cap (Finite 1) = false -> num_lt cap (Finite q) = false.
Proof.
  intros Hq. unfold num_lt. destruct cap as [c|[]|]; cbn [num_le]; try done.
  assert (Qle_bool c q = Qle_bool c 1) as -> by (apply eq_true_iff_eq; rewrite !Qle_bool_iff; by rewrite Hq).
  assert (Qle_bool q c = Qle_bool 1 c) as -> by (apply eq_true_iff_eq; rewrite !Qle_bool_iff; by rewrite Hq). done.
Qed.

(** The imbalance guard never fires on the path of [build]. *)
Lemma imbalance_silent r p cap : 1 <= r -> real_number (imbalance_ratio_cap p) = Some cap -> num_lt cap (Finite 1) = false ->
  _guard_imbalance (_assign_arms (r * 3)) p = Ok tt.
Proof.
  intros Hr Hc Hlt. unfold _guard_imbalance. unfold _ARM_ROTATION. cbn [fmap list_fmap]. rewrite !equal_arms by lia.
  rewrite !filter_cons_True by lia. rewrite filter_nil. cbn [foldr]. rewrite !Z.min_id, !Z.max_id, Hc.
  apply raise_if_Ok. apply num_lt_one; [|done]. unfold true_div. apply (round_integer false _ 1); [lia|].
  assert (~ inject_Z r == 0)%Q as Hne by (unfold Qeq, inject_Z; cbn; lia). by field.
Qed.

(** ** What [build] returns *)

Definition approved (provenance : Provenance) (token : pyval) : Prop :=
  provenance = FIXTURE \/ exists s, token = PStr (APPROVAL_TOKEN_PREFIX ++ s) /\ s <> [].

Lemma approval_Ok provenance token : _guard_production_approval provenance token = Ok tt <-> approved provenance token.
Proof.
  unfold approved. destruct provenance; [cbn; naive_solver|]. unfold _guard_production_approval. rewrite raise_if_Ok.
  destruct token as [|b|z|f|s|s|l|kvs]; try (split; [done|intros [?|(s' & ? & _)]; done]).
  rewrite orb_false_iff, negb_false_iff, Nat.leb_gt, startswith_spec. split.
  - intros [[k ->] Hlen]. right. exists k. split; [done|]. intros ->. rewrite app_nil_r in Hlen. lia.
  - intros [?|(k & E & Hk)]; [done|]. assert (s = APPROVAL_TOKEN_PREFIX ++ k) as -> by congruence. split; [by exists k|].
    rewrite length_app. destruct k; [done|cbn [length]; lia].
Qed.

Definition fits (c : ObservationCell) (w : MeasurementWindow) (p : RatePolicy) : Prop :=
  as_int (repeat_count c) * 3 <= duration_s w / slot_stride_seconds p + 1.

Definition the_slots c w p provenance : list ObservationSlot :=
  _lay_out_slots c w p provenance (_assign_arms (as_int (repeat_count c) * 3)).

Lemma validate_cell_Ok c : validate_cell c = Ok tt -> 1 <= as_int (repeat_count c).
Proof. unfold validate_cell. intros Hc. guards Hc. apply raise_if_Ok, Z.ltb_ge in Hc. lia. Qed.

Lemma build_Ok c w p provenance token s : build c w p provenance token = Ok s <->
  approved provenance token /\ validate_cell c = Ok tt /\ validate_window w = Ok tt /\ validate_policy p = Ok tt /\ fits c w p /\
  s = {| sc_cell := c; sc_window := w; sc_policy := p; sc_provenance := provenance; slots := the_slots c w p provenance |}.
Proof.
  unfold build. rewrite !seq_Ok, approval_Ok. unfold _guard_rate_limits. rewrite raise_if_Ok, Z.ltb_ge. unfold fits. split.
  - intros (Ha & Hc & Hw & Hp & _ & Hf & [= <-]). done.
  - intros (Ha & Hc & Hw & Hp & Hf & ->). split_and!; try done. apply validate_policy_Ok in Hp as (_ & _ & cap & Hcap & Hlt).
    by apply (imbalance_silent _ _ cap); [apply validate_cell_Ok|..].
Qed.

Section slots.
Context (c : ObservationCell) (w : MeasurementWindow) (p : RatePolicy) (provenance : Provenance).
Abbreviation all := (the_slots c w p provenance).

Lemma slot_lookup i x : all !! i = Some x -> exists arm, x = lay_out_slot c w p provenance i arm /\ Z.of_nat i < Z.max 0 (as_int (repeat_count c) * 3).
Proof.
  unfold the_slots, _lay_out_slots. rewrite list_lookup_imap. intros (arm & Ha & ->)%fmap_Some. exists arm. split; [done|].
  apply lookup_lt_Some in Ha. unfold _assign_arms in Ha. rewrite length_fmap, length_seqZ in Ha. lia.
Qed.

Lemma slot_elem x : x ∈ all -> exists i arm, x = lay_out_slot c w p provenance i arm /\ Z.of_nat i < Z.max 0 (as_int (repeat_count c) * 3).
Proof. intros [i Hi]%list_elem_of_lookup. exists i. by apply slot_lookup. Qed.

Lemma slot_index_NoDup : NoDup (os_slot_index <$> all).
Proof.
  apply NoDup_alt. intros i j z Hi Hj. rewrite list_lookup_fmap in Hi, Hj. apply fmap_Some in Hi as (x & Hx & ->), Hj as (y & Hy & Heq).
  apply slot_lookup in Hx as (a & -> & _), Hy as (b & -> & _). cbn in Heq. lia.
Qed.

(** Slots that satisfy a test are at most [k] when any two of them are less
    than [k] places apart. *)
Lemma few_slots (P : ObservationSlot -> Prop) `{!forall x, Decision (P x)} k : 0 <= k ->
  (forall x y, x ∈ all -> y ∈ all -> P x -> P y -> os_slot_index x - os_slot_index y < k) ->
  Z.of_nat (length (filter P all)) <= k.
Proof.
  intros Hk Hclose. rewrite <- (length_fmap os_slot_index). apply close_NoDup; [done| |].
  - eapply sublist_NoDup; [apply slot_index_NoDup|]. apply fmap_sublist, sublist_filter.
  - intros i j (x & -> & [Hx Hxin]%list_elem_of_filter)%list_elem_of_fmap (y & -> & [Hy Hyin]%list_elem_of_filter)%list_elem_of_fmap. auto.
Qed.
End slots.

(** ** Theorems *)

(** C36: A schedule respects its policy.  What [build] returns has [repeat_count]
    slots for each arm; any half-open interval of 24 hours, wherever it starts,
    holds at most [max_per_day] of them; consecutive slots are the gap apart,
    slots of one lane [max_concurrent] strides; all lie in the window, in a lane
    of the quota, with a stagger between the base and the cap. *)
Theorem schedule_respects_policy c w p provenance token s :
  build c w p provenance token = Ok s ->
  (forall arm, arm_counts s arm = as_int (repeat_count c)) /\
  (forall t, Z.of_nat (length (filter (fun x => t <= os_scheduled_at_epoch_s x < t + _SECONDS_PER_DAY) (slots s))) <= as_int (max_per_day p)) /\
  (forall i x y, slots s !! i = Some x -> slots s !! S i = Some y ->
     os_scheduled_at_epoch_s x + as_int (min_gap_seconds p) <= os_scheduled_at_epoch_s y) /\
  (forall x y, x ∈ slots s -> y ∈ slots s -> os_slot_index x < os_slot_index y -> os_lane x = os_lane y ->
     os_scheduled_at_epoch_s x + as_int (max_concurrent p) * slot_stride_seconds p <= os_scheduled_at_epoch_s y) /\
  (forall x, x ∈ slots s -> as_int (start_epoch_s w) <= os_scheduled_at_epoch_s x <= as_int (end_epoch_s w) /\
     0 <= os_lane x < as_int (max_concurrent p) /\
     as_int (backoff_base_seconds p) <= os_backoff_stagger_seconds x <= as_int (backoff_cap_seconds p)).
Proof.
  intros (_ & Hc & Hw & Hp & Hf & ->)%build_Ok. apply validate_cell_Ok in Hc. apply validate_policy_Ok in Hp as ((Hm & Hq & Hg) & (Hb & Hfac & Hr) & _).
  destruct (stride_bounds p Hm Hg) as (Hst & Hgap & Hday). cbn [slots]. unfold fits in Hf.
  set (st := slot_stride_seconds p) in *. set (n := as_int (repeat_count c)) in *. split_and!.
  - intros arm. unfold arm_counts. cbn [slots].
    assert (os_arm <$> the_slots c w p provenance = _assign_arms (n * 3)) as ->; [|apply equal_arms; lia].
    unfold the_slots, _lay_out_slots. fold n. rewrite fmap_imap. generalize (_assign_arms (n * 3)). intros l.
    apply list_eq. intros i. rewrite list_lookup_imap. by destruct (l !! i).
  - intros t. apply few_slots; [lia|]. intros x y (i & a & -> & _)%slot_elem (j & b & -> & _)%slot_elem Hx Hy. cbn in *. fold st in Hx, Hy. nia.
  - intros i x y (a & -> & _)%slot_lookup (b & -> & _)%slot_lookup. cbn. fold st. lia.
  - intros x y (i & a & -> & _)%slot_elem (j & b & -> & _)%slot_elem. cbn. fold st. intros Hlt Hlane.
    set (q := as_int (max_concurrent p)) in *. pose proof (Z.div_mod (Z.of_nat i) q ltac:(lia)). pose proof (Z.div_mod (Z.of_nat j) q ltac:(lia)).
    assert (Z.of_nat i / q + 1 <= Z.of_nat j / q) by nia. nia.
  - intros x (i & a & -> & Hi)%slot_elem. cbn. fold st. fold n in Hi. split.
    + unfold duration_s in Hf. pose proof (Z.mul_div_le (as_int (end_epoch_s w) - as_int (start_epoch_s w)) st ltac:(lia)). nia.
    + split; [apply Z.mod_pos_bound; lia|]. unfold backoff_stagger_for.
      pose proof (Z.pow_pos_nonneg (as_int (backoff_factor p)) (Z.of_nat i mod (as_int (max_retries p) + 1)) ltac:(lia)
        (proj1 (Z.mod_pos_bound (Z.of_nat i) (as_int (max_retries p) + 1) ltac:(lia)))). nia.
Qed.

(** The concurrency quota under its documented precondition: if every
    observation runs for at most [max_concurrent] strides, then at no instant are
    more than [max_concurrent] in flight. *)
Theorem concurrency_quota c w p provenance token s (runtime : ObservationSlot -> Z) t :
  build c w p provenance token = Ok s ->
  (forall x, x ∈ slots s -> runtime x <= as_int (max_concurrent p) * slot_stride_seconds p) ->
  Z.of_nat (length (filter (fun x => os_scheduled_at_epoch_s x <= t < os_scheduled_at_epoch_s x + runtime x) (slots s)))
    <= as_int (max_concurrent p).
Proof.
  intros (_ & Hc & _ & Hp & _ & ->)%build_Ok Hrt. apply validate_policy_Ok in Hp as ((Hm & Hq & Hg) & _ & _).
  destruct (stride_bounds p Hm Hg) as (Hst & _ & _). cbn [slots] in *. apply few_slots; [lia|].
  intros x y Hx Hy Px Py. pose proof (Hrt x Hx) as Rx. pose proof (Hrt y Hy) as Ry.
  apply slot_elem in Hx as (i & a & -> & _), Hy as (j & b & -> & _). cbn in *. nia.
Qed.

(** [build] answers exactly when it may: with an approval for production,
    a complete cell, a window and a policy in range, and slots that fit the
    window at the stride; nothing is truncated. *)
Theorem build_exact c w p provenance token :
  (exists s, build c w p provenance token = Ok s) <->
  approved provenance token /\ validate_cell c = Ok tt /\ validate_window w = Ok tt /\ validate_policy p = Ok tt /\ fits c w p.
Proof.
  split.
  - intros (s & (? & ? & ? & ? & ? & _)%build_Ok). done.
  - intros (? & ? & ? & ? & ?). eexists. by apply build_Ok.
Qed.

(** ** The observer *)

Lemma observe_slot_eq slot o : observe_slot slot o =
  if decide (os_provenance slot = FIXTURE) then
    (record_call (os_slot_index slot) o,
     match _fixtures o !! (os_query_cluster_ref slot, os_locale slot) with
     | Some (cs, raw) => Ok {| fo_slot_index := os_slot_index slot; fo_arm := os_arm slot; fo_query_cluster_ref := os_query_cluster_ref slot;
                               fo_locale := os_locale slot; fo_citation_refs := cs; fo_raw_object_ref := raw; fo_provenance := FIXTURE |}
     | None => Raise (SchedulingBoundaryError (u "fixture"))
     end)
  else (o, Raise SchedulingApprovalRequiredError).
Proof.
  unfold observe_slot, mbind, M_bind, raise_when, modify, gets, throw, mret, M_ret. destruct (decide _) as [Hd|Hd].
  - rewrite bool_decide_true by done. cbn. by destruct (_ !! _) as [[cs raw]|].
  - by rewrite bool_decide_false.
Qed.

Lemma observe_all_served l : forall o cs raw,
  Forall (fun x => os_provenance x = FIXTURE /\ _fixtures o !! (os_query_cluster_ref x, os_locale x) = Some (cs, raw)) l ->
  exists o' xs, observe_all l o = (o', Ok xs) /\ _fixtures o' = _fixtures o /\ observe_calls o' = observe_calls o ++ (os_slot_index <$> l) /\
    xs = (fun x => {| fo_slot_index := os_slot_index x; fo_arm := os_arm x; fo_query_cluster_ref := os_query_cluster_ref x;
                      fo_locale := os_locale x; fo_citation_refs := cs; fo_raw_object_ref := raw; fo_provenance := FIXTURE |}) <$> l.
Proof.
  induction l as [|x l IH]; intros o cs raw Hl; cbn.
  - exists o, []. by rewrite app_nil_r.
  - apply Forall_cons in Hl as [[Hp Hx] Hl]. destruct (IH (record_call (os_slot_index x) o) cs raw Hl) as (o' & xs & Ho & Hf & Hc & ->).
    unfold mbind, M_bind at 1. rewrite observe_slot_eq, decide_True, Hx by done. unfold M_bind. rewrite Ho. do 2 eexists.
    split; [done|]. split; [done|]. split; [|done]. rewrite Hc. cbn. by rewrite <- app_assoc.
Qed.

(** A fixture schedule is replayed whole: with its fixture registered the
    replay returns one observation for each slot, in order, stamped fixture,
    with the registered references, and records the calls; a production schedule
    is refused without a call. *)
Theorem replay_serves_fixtures c w p provenance token s o :
  build c w p provenance token = Ok s ->
  (provenance = PRODUCTION -> replay_schedule s o = (o, Raise SchedulingApprovalRequiredError)) /\
  (forall cs raw, provenance = FIXTURE -> _fixtures o !! (as_text (query_cluster_ref c), as_text (locale c)) = Some (cs, raw) ->
   exists o' xs, replay_schedule s o = (o', Ok xs) /\ observe_calls o' = observe_calls o ++ (os_slot_index <$> slots s) /\
     fo_slot_index <$> xs = os_slot_index <$> slots s /\ fo_arm <$> xs = os_arm <$> slots s /\
     Forall (fun x => fo_provenance x = FIXTURE /\ fo_citation_refs x = cs /\ fo_raw_object_ref x = raw) xs).
Proof.
  intros (_ & _ & _ & _ & _ & ->)%build_Ok. unfold replay_schedule. cbn [sc_provenance slots]. split; [by intros ->|].
  intros cs raw -> Hf. unfold mbind, M_bind, raise_when. rewrite bool_decide_true by done. cbn [negb].
  unfold mret, M_ret. cbv iota beta.
  destruct (observe_all_served (the_slots c w p FIXTURE) o cs raw) as (o' & xs & Ho & _ & Hc & ->).
  { apply Forall_forall. intros x (i & a & -> & _)%slot_elem. by cbn. }
  exists o'. eexists. split; [exact Ho|]. split; [done|]. rewrite <- !list_fmap_compose. split; [done|]. split; [done|].
  apply Forall_fmap, Forall_true. by intros x.
Qed.

Module Witness.

Definition cell : ObservationCell := {|
  query_cluster_ref := PStr (u "q"); locale := PStr (u "ko"); browser_policy := PStr (u "b"); repeat_count := PInt 2; domain_key := PStr (u "d")
|}.
Definition window (end_ : Z) : MeasurementWindow := {| start_epoch_s := PInt 1000; end_epoch_s := PInt end_ |}.
Definition policy : RatePolicy := {|
  max_per_day := PInt 100; max_concurrent := PInt 2; min_gap_seconds := PInt 60; backoff_base_seconds := PInt 5; backoff_factor := PInt 3;
  backoff_cap_seconds := PInt 20; max_retries := PInt 2; imbalance_ratio_cap := PInt 1
|}.
Definition schedule (p : Provenance) : ObservationCellSchedule := {|
  sc_cell := cell; sc_window := window 5320; sc_policy := policy; sc_provenance := p; slots := the_slots cell (window 5320) policy p
|}.

(** Six slots need five strides of 864 seconds: they fit to the second. *)
Example exact_fit :
  (fun s => (fun x => (os_arm x, os_lane x, os_scheduled_at_epoch_s x, os_backoff_stagger_seconds x)) <$> slots s) <$>
    build cell (window 5320) policy FIXTURE PNone =
  Ok [(BASELINE, 0, 1000, 5); (CONTROL, 1, 1864, 15); (TREATMENT, 0, 2728, 20);
      (BASELINE, 1, 3592, 5); (CONTROL, 0, 4456, 15); (TREATMENT, 1, 5320, 20)].
Proof. vm_compute. reflexivity. Qed.

Example one_second_short : build cell (window 5319) policy FIXTURE PNone = Raise (SchedulingRatePolicyError (u "total_slots")).
Proof. vm_compute. reflexivity. Qed.

Example production_needs_a_token :
  build cell (window 5320) policy PRODUCTION PNone = Raise SchedulingApprovalRequiredError /\
  build cell (window 5320) policy PRODUCTION (PStr (u "human-approval:")) = Raise SchedulingApprovalRequiredError /\
  is_ok (build cell (window 5320) policy PRODUCTION (PStr (u "human-approval:x"))) = true.
Proof. vm_compute. done. Qed.

Example bool_is_no_count :
  build {| query_cluster_ref := PStr (u "q"); locale := PStr (u "ko"); browser_policy := PStr (u "b"); repeat_count := PBool true;
           domain_key := PStr (u "d") |} (window 5320) policy FIXTURE PNone = Raise (SchedulingBoundaryError (u "repeat_count")).
Proof. vm_compute. reflexivity. Qed.

(** The guard that [build] never trips refuses an uneven list of arms. *)
Example uneven_arms : _guard_imbalance [BASELINE; BASELINE; CONTROL] policy = Raise (SchedulingRatePolicyError (u "imbalance_ratio")).
Proof. vm_compute. reflexivity. Qed.

Lemma schedule_respects_policy_witness :
  build cell (window 5320) policy FIXTURE PNone = Ok (schedule FIXTURE) /\ arm_counts (schedule FIXTURE) TREATMENT = 2.
Proof.
  assert (build cell (window 5320) policy FIXTURE PNone = Ok (schedule FIXTURE)) as Hb by (vm_compute; reflexivity).
  split; [exact Hb|]. exact (proj1 (schedule_respects_policy _ _ _ _ _ _ Hb) TREATMENT).
Defined.

Lemma concurrency_quota_witness :
  Z.of_nat (length (filter (fun x => os_scheduled_at_epoch_s x <= 3000 < os_scheduled_at_epoch_s x + 1728) (slots (schedule FIXTURE)))) <= 2.
Proof.
  apply (concurrency_quota cell (window 5320) policy FIXTURE PNone (schedule FIXTURE) (fun _ => 1728) 3000); [vm_compute; reflexivity|].
  intros x _. vm_compute. discriminate.
Defined.

Definition observer : ApprovedFixtureObserver := register (u "q") (u "ko") [u "c1"] (u "raw") {| _fixtures := ∅; observe_calls := [] |}.

Lemma replay_serves_fixtures_witness :
  replay_schedule (schedule PRODUCTION) observer = (observer, Raise SchedulingApprovalRequiredError).
Proof.
  apply (replay_serves_fixtures cell (window 5320) policy PRODUCTION (PStr (u "human-approval:x")) (schedule PRODUCTION) observer);
    [vm_compute; reflexivity|reflexivity].
Defined.
End Witness.
