(* ===== verification/MeasurementStore.v ===== *)
(** The measurement stores (measurement/ports.py): the frozen records, their
    canonical fingerprints and the four in-memory adapters.

    The adapters share one write: a key that is absent is stored, a replay of
    the same canonical content is a no-op that returns what is stored, other
    content under the key is a conflict.  A store is the dictionary in
    insertion order with the dictionary of fingerprints next to it; every
    method runs under the one lock of its store, so it is one function.

    [_deep_freeze] and [_thaw] change which container class holds a JSON shape,
    not the shape: values here are JSON shapes ([pyval]) and immutable. *)

From S2P Require Import Prelude PyStr PyVal Canonical.

(** ** measurement/errors.py, and the exceptions of the language *)

Inductive measurement_exn :=
  | TenantIsolationError | IdempotencyConflictError | AppendOnlyViolationError
  | EvidenceHashMismatchError | NotFoundError | MPy (e : pyexn).

#[export] Instance measurement_exn_eq_dec : EqDecision measurement_exn.
Proof. solve_decision. Defined.

Definition lift_py {A} (m : result pyexn A) : result measurement_exn A :=
  try_except m (fun e => Raise (MPy e)).

Inductive PutOutcome := STORED | DUPLICATE.

#[export] Instance PutOutcome_eq_dec : EqDecision PutOutcome.
Proof. solve_decision. Defined.

Record PutResult (R : Type) := { pr_outcome : PutOutcome; pr_record : R }.
Arguments Build_PutResult {R}.
Arguments pr_outcome {R}.
Arguments pr_record {R}.

(** ** Records

    [not value] of a string is that it is empty. *)

Definition empty (s : pystr) : bool := bool_decide (s = []).

Record ConfirmationRecord := {
  cr_tenant_id : pystr; cr_confirmation_key : pystr; cr_measurement_kind : pystr;
  cr_payload : list (pystr * pyval)
}.

Definition make_ConfirmationRecord (r : ConfirmationRecord) : result measurement_exn ConfirmationRecord :=
  _ ← raise_if (empty (cr_tenant_id r)) (MPy ValueError);
  _ ← raise_if (empty (cr_confirmation_key r)) (MPy ValueError);
  _ ← raise_if (empty (cr_measurement_kind r)) (MPy ValueError);
  Ok r.

Record StoredWindow := {
  sw_tenant_id : pystr; sw_experiment_id : pystr; sw_starts_at : pystr;
  sw_ends_at : option pystr; sw_policy_version : pystr
}.

Definition make_StoredWindow (w : StoredWindow) : result measurement_exn StoredWindow :=
  _ ← raise_if (empty (sw_tenant_id w)) (MPy ValueError);
  _ ← raise_if (empty (sw_experiment_id w)) (MPy ValueError);
  _ ← raise_if (empty (sw_starts_at w)) (MPy ValueError);
  _ ← raise_if (empty (sw_policy_version w)) (MPy ValueError);
  Ok w.

Record OutcomeDecisionRecord := {
  od_tenant_id : pystr; od_decision_key : pystr * pystr; od_outcome : pystr;
  od_evidence_bundle_ref : pystr; od_policy_metadata : list (pystr * pyval)
}.

Definition make_OutcomeDecisionRecord (d : OutcomeDecisionRecord)
    : result measurement_exn OutcomeDecisionRecord :=
  _ ← raise_if (empty (od_tenant_id d)) (MPy ValueError);
  _ ← raise_if (empty (od_decision_key d).1 || empty (od_decision_key d).2) (MPy ValueError);
  _ ← raise_if (empty (od_outcome d)) (MPy ValueError);
  _ ← raise_if (empty (od_evidence_bundle_ref d)) (MPy ValueError);
  _ ← raise_if (match od_policy_metadata d with [] => true | _ => false end) (MPy ValueError);
  Ok d.

Record EvidenceBundle := { eb_tenant_id : pystr; eb_manifest : list (pystr * pyval) }.

Definition make_EvidenceBundle (b : EvidenceBundle) : result measurement_exn EvidenceBundle :=
  _ ← raise_if (empty (eb_tenant_id b)) (MPy ValueError); Ok b.

(** ** Fingerprints *)

Section fingerprints.
Context `{FloatRepr}.

Definition opt_text (o : option pystr) : pyval := match o with Some s => PStr s | None => PNone end.

Definition _confirmation_fingerprint (r : ConfirmationRecord) : result pyexn pystr :=
  canonical_json (PDict
    [(u "tenant_id", PStr (cr_tenant_id r)); (u "confirmation_key", PStr (cr_confirmation_key r));
     (u "measurement_kind", PStr (cr_measurement_kind r)); (u "payload", PDict (cr_payload r))]).

Definition _window_fingerprint (w : StoredWindow) : result pyexn pystr :=
  canonical_json (PDict
    [(u "tenant_id", PStr (sw_tenant_id w)); (u "experiment_id", PStr (sw_experiment_id w));
     (u "starts_at", PStr (sw_starts_at w)); (u "ends_at", opt_text (sw_ends_at w));
     (u "policy_version", PStr (sw_policy_version w))]).

Definition _decision_fingerprint (d : OutcomeDecisionRecord) : result pyexn pystr :=
  canonical_json (PDict
    [(u "tenant_id", PStr (od_tenant_id d));
     (u "decision_key", PList [PStr (od_decision_key d).1; PStr (od_decision_key d).2]);
     (u "outcome", PStr (od_outcome d)); (u "evidence_bundle_ref", PStr (od_evidence_bundle_ref d));
     (u "policy_metadata", PDict (od_policy_metadata d))]).

Definition _bundle_fingerprint (b : EvidenceBundle) : result pyexn pystr :=
  canonical_json (PDict [(u "tenant_id", PStr (eb_tenant_id b)); (u "manifest", PDict (eb_manifest b))]).
End fingerprints.

Definition _ensure_caller_owns (caller_tenant record_tenant : pystr) : result measurement_exn unit :=
  raise_if (bool_decide (record_tenant <> caller_tenant)) TenantIsolationError.

Definition _require_tenant (tenant_id : pystr) : result measurement_exn unit :=
  raise_if (empty tenant_id) (MPy ValueError).

(** ** The keyed store *)

Section keyed.
Context {K : Type} `{EqDecision K} `{!Countable K} {R : Type}.

(** A dictionary in insertion order. *)
Fixpoint assoc (l : list (K * R)) (k : K) : option R :=
  match l with
  | [] => None
  | (k', r) :: l' => if decide (k' = k) then Some r else assoc l' k
  end.

Record KeyedStore := { ks_store : list (K * R); ks_fingerprints : gmap K pystr }.

Definition empty_store : KeyedStore := {| ks_store := []; ks_fingerprints := ∅ |}.

(** The block under the lock. *)
Definition keyed_put (conflict : measurement_exn) (store_key : K) (incoming_fp : pystr) (record : R)
    (st : KeyedStore) : result measurement_exn (KeyedStore * PutResult R) :=
  match assoc (ks_store st) store_key with
  | Some existing =>
      match ks_fingerprints st !! store_key with
      | Some fp =>
          if bool_decide (fp = incoming_fp) then Ok (st, Build_PutResult DUPLICATE existing)
          else Raise conflict
      | None => Raise (MPy KeyError)
      end
  | None =>
      Ok ({| ks_store := ks_store st ++ [(store_key, record)];
             ks_fingerprints := <[store_key := incoming_fp]> (ks_fingerprints st) |},
          Build_PutResult STORED record)
  end.

Definition keyed_get (store_key : K) (st : KeyedStore) : result measurement_exn R :=
  match assoc (ks_store st) store_key with Some r => Ok r | None => Raise NotFoundError end.
End keyed.
Arguments KeyedStore K {_ _} R.

(** ** The adapters *)

Section adapters.
Context `{FloatRepr}.

(** [InMemoryConfirmationStore]: the store and its journal of accepted writes. *)
Record JournalEntry := { je_tenant_id : pystr; je_key : pystr; je_record : ConfirmationRecord }.

Record ConfirmationStore := {
  cs_keyed : KeyedStore (pystr * pystr) ConfirmationRecord;
  cs_journal : list JournalEntry
}.

Definition empty_confirmations : ConfirmationStore :=
  {| cs_keyed := empty_store; cs_journal := [] |}.

Definition put_confirmation (tenant_id key : pystr) (record : ConfirmationRecord) (st : ConfirmationStore)
    : result measurement_exn (ConfirmationStore * PutResult ConfirmationRecord) :=
  _ ← _require_tenant tenant_id;
  _ ← raise_if (empty key) (MPy ValueError);
  _ ← _ensure_caller_owns tenant_id (cr_tenant_id record);
  incoming_fp ← lift_py (_confirmation_fingerprint record);
  p ← keyed_put IdempotencyConflictError (tenant_id, key) incoming_fp record (cs_keyed st);
  Ok ({| cs_keyed := p.1;
         cs_journal := match pr_outcome p.2 with
                       | STORED => cs_journal st ++
                           [{| je_tenant_id := tenant_id; je_key := key; je_record := record |}]
                       | DUPLICATE => cs_journal st
                       end |}, p.2).

Definition get_confirmation (tenant_id key : pystr) (st : ConfirmationStore)
    : result measurement_exn ConfirmationRecord :=
  _ ← _require_tenant tenant_id; keyed_get (tenant_id, key) (cs_keyed st).

Definition snapshot (tenant_id : pystr) (st : ConfirmationStore)
    : result measurement_exn (list (pystr * ConfirmationRecord)) :=
  _ ← _require_tenant tenant_id;
  Ok (omap (fun kr => if bool_decide (kr.1.1 = tenant_id) then Some (kr.1.2, kr.2) else None)
        (ks_store (cs_keyed st))).

(** [replay_confirmation_journal] *)
Fixpoint replay_from (journal : list JournalEntry) (st : ConfirmationStore)
    : result measurement_exn ConfirmationStore :=
  match journal with
  | [] => Ok st
  | entry :: journal =>
      p ← put_confirmation (je_tenant_id entry) (je_key entry) (je_record entry) st;
      replay_from journal p.1
  end.

Definition replay_confirmation_journal (journal : list JournalEntry)
    : result measurement_exn ConfirmationStore := replay_from journal empty_confirmations.

(** [InMemoryMeasurementWindowStore] *)
Definition open_window (tenant_id : pystr) (window : StoredWindow)
    (st : KeyedStore (pystr * pystr) StoredWindow)
    : result measurement_exn (KeyedStore (pystr * pystr) StoredWindow * PutResult StoredWindow) :=
  _ ← _require_tenant tenant_id;
  _ ← _ensure_caller_owns tenant_id (sw_tenant_id window);
  incoming_fp ← lift_py (_window_fingerprint window);
  keyed_put IdempotencyConflictError (tenant_id, sw_experiment_id window) incoming_fp window st.

Definition get_active (tenant_id experiment_id : pystr) (st : KeyedStore (pystr * pystr) StoredWindow)
    : result measurement_exn StoredWindow :=
  _ ← _require_tenant tenant_id; keyed_get (tenant_id, experiment_id) st.

(** [InMemoryOutcomeDecisionStore] *)
Definition append_decision (tenant_id : pystr) (decision : OutcomeDecisionRecord)
    (st : KeyedStore (pystr * (pystr * pystr)) OutcomeDecisionRecord)
    : result measurement_exn (KeyedStore (pystr * (pystr * pystr)) OutcomeDecisionRecord
                              * PutResult OutcomeDecisionRecord) :=
  _ ← _require_tenant tenant_id;
  _ ← _ensure_caller_owns tenant_id (od_tenant_id decision);
  incoming_fp ← lift_py (_decision_fingerprint decision);
  keyed_put AppendOnlyViolationError (tenant_id, od_decision_key decision) incoming_fp decision st.

Definition get_decision (tenant_id : pystr) (decision_key : pystr * pystr)
    (st : KeyedStore (pystr * (pystr * pystr)) OutcomeDecisionRecord)
    : result measurement_exn OutcomeDecisionRecord :=
  _ ← _require_tenant tenant_id; keyed_get (tenant_id, decision_key) st.

Definition list_decisions (tenant_id : pystr)
    (st : KeyedStore (pystr * (pystr * pystr)) OutcomeDecisionRecord)
    : result measurement_exn (list OutcomeDecisionRecord) :=
  _ ← _require_tenant tenant_id;
  Ok (omap (fun kr => if bool_decide (kr.1.1 = tenant_id) then Some kr.2 else None) (ks_store st)).

(** [InMemoryEvidenceBundleStore] *)
Definition put_bundle (tenant_id manifest_hash : pystr) (bundle : EvidenceBundle)
    (st : KeyedStore (pystr * pystr) EvidenceBundle)
    : result measurement_exn (KeyedStore (pystr * pystr) EvidenceBundle * PutResult EvidenceBundle) :=
  _ ← _require_tenant tenant_id;
  _ ← raise_if (empty manifest_hash) (MPy ValueError);
  _ ← _ensure_caller_owns tenant_id (eb_tenant_id bundle);
  incoming_fp ← lift_py (_bundle_fingerprint bundle);
  keyed_put EvidenceHashMismatchError (tenant_id, manifest_hash) incoming_fp bundle st.

Definition get_bundle (tenant_id manifest_hash : pystr) (st : KeyedStore (pystr * pystr) EvidenceBundle)
    : result measurement_exn EvidenceBundle :=
  _ ← _require_tenant tenant_id; keyed_get (tenant_id, manifest_hash) st.
End adapters.

(** ** Lemmas on the keyed store *)

Section keyed_lemmas.
Context {K : Type} `{EqDecision K} `{!Countable K} {R : Type}.
Implicit Types (l : list (K * R)) (st : KeyedStore K R).

Lemma assoc_Some l k r : assoc l k = Some r -> (k, r) ∈ l.
Proof.
  induction l as [|[k' r'] l IH]; cbn; [done|].
  destruct (decide (k' = k)) as [->|]; [intros [= ->]; by left|right; by apply IH].
Qed.

Lemma assoc_None l k : assoc l k = None <-> k ∉ l.*1.
Proof.
  induction l as [|[k' r'] l IH]; cbn; [split; [inversion 2|done]|].
  rewrite not_elem_of_cons. destruct (decide (k' = k)) as [->|Hne]; [naive_solver|].
  rewrite IH. naive_solver.
Qed.

Lemma assoc_elem l k r : NoDup l.*1 -> (k, r) ∈ l -> assoc l k = Some r.
Proof.
  induction l as [|[k' r'] l IH]; cbn; [inversion 2|].
  intros [Hk Hnd]%NoDup_cons [[= <- <-]|Hin]%elem_of_cons; [by rewrite decide_True|].
  rewrite decide_False; [by apply IH|]. intros ->. apply Hk, list_elem_of_fmap. by exists (k, r).
Qed.

Lemma assoc_snoc l k r k' :
  k ∉ l.*1 -> assoc (l ++ [(k, r)]) k' = if decide (k = k') then Some r else assoc l k'.
Proof.
  intros Hk. induction l as [|[k1 r1] l IH]; cbn; [by destruct (decide (k = k'))|].
  cbn in Hk. apply not_elem_of_cons in Hk as [Hk1 Hk]. rewrite IH by done.
  destruct (decide (k1 = k')) as [->|], (decide (k = k')) as [->|]; naive_solver.
Qed.

(** Distinct keys, each with its fingerprint. *)
Record ks_wf st : Prop := {
  ks_keys : NoDup (ks_store st).*1;
  ks_fp : forall k, is_Some (ks_fingerprints st !! k) <-> k ∈ (ks_store st).*1
}.

Lemma ks_wf_empty : ks_wf empty_store.
Proof.
  split; [constructor|]. intros k. cbn. rewrite lookup_empty. split; [by intros []|by inversion 1].
Qed.

(** What a write that returns did. *)
Lemma keyed_put_Ok conflict k fp r st st' p :
  keyed_put conflict k fp r st = Ok (st', p) ->
  ((k ∉ (ks_store st).*1) /\ p = Build_PutResult STORED r /\
   st' = {| ks_store := ks_store st ++ [(k, r)];
            ks_fingerprints := <[k := fp]> (ks_fingerprints st) |}) \/
  (exists existing, assoc (ks_store st) k = Some existing /\ ks_fingerprints st !! k = Some fp /\
   p = Build_PutResult DUPLICATE existing /\ st' = st).
Proof.
  unfold keyed_put. destruct (assoc (ks_store st) k) as [existing|] eqn:Ea.
  - destruct (ks_fingerprints st !! k) as [fp'|]; [|done]. case_bool_decide; [|done].
    intros [= <- <-]. right. exists existing. by subst.
  - intros [= <- <-]. left. by apply assoc_None in Ea.
Qed.

Lemma keyed_put_wf conflict k fp r st st' p :
  ks_wf st -> keyed_put conflict k fp r st = Ok (st', p) -> ks_wf st'.
Proof.
  intros [Hk Hf] [(Hn & _ & ->)|(? & _ & _ & _ & ->)]%keyed_put_Ok; [|done].
  split; cbn; rewrite fmap_app.
  - apply NoDup_app. split; [done|]. split; [|apply NoDup_singleton].
    intros x Hx Hin%list_elem_of_singleton. by subst.
  - intros k'. change ([(k, r)].*1) with [k]. rewrite elem_of_app, list_elem_of_singleton, <- Hf. cbn.
    destruct (decide (k = k')) as [->|Hne]; [rewrite lookup_insert_eq|rewrite lookup_insert_ne by done];
      naive_solver.
Qed.

(** A write that raises on a well-formed store is the conflict. *)
Lemma keyed_put_Raise conflict k fp r st e :
  ks_wf st -> keyed_put conflict k fp r st = Raise e ->
  e = conflict /\ exists existing fp', assoc (ks_store st) k = Some existing /\
    ks_fingerprints st !! k = Some fp' /\ fp' <> fp.
Proof.
  intros [Hk Hf]. unfold keyed_put. destruct (assoc (ks_store st) k) as [existing|] eqn:Ea; [|done].
  assert (is_Some (ks_fingerprints st !! k)) as [fp' Hfp'].
  { apply Hf, list_elem_of_fmap. exists (k, existing). split; [done|by apply assoc_Some]. }
  rewrite Hfp'. case_bool_decide; [done|]. intros [= <-]. split; [done|]. by exists existing, fp'.
Qed.

(** [extends P st st']: [st'] adds entries under keys of [P] to [st]. *)
Definition extends (P : K -> Prop) st st' : Prop :=
  ks_wf st' /\ exists more, ks_store st' = ks_store st ++ more /\ Forall (fun kr => P kr.1) more.

Lemma extends_refl P st : ks_wf st -> extends P st st.
Proof. split; [done|]. exists []. by rewrite app_nil_r. Qed.

Lemma extends_trans P st1 st2 st3 : extends P st1 st2 -> extends P st2 st3 -> extends P st1 st3.
Proof.
  intros [_ (m1 & H1 & F1)] [Hwf (m2 & H2 & F2)]. split; [done|]. exists (m1 ++ m2).
  rewrite H2, H1, app_assoc. split; [done|by apply Forall_app].
Qed.

Lemma extends_put (P : K -> Prop) conflict k fp r st st' p :
  ks_wf st -> P k -> keyed_put conflict k fp r st = Ok (st', p) -> extends P st st'.
Proof.
  intros Hwf HP Hput. split; [by eapply keyed_put_wf|].
  apply keyed_put_Ok in Hput as [(_ & _ & ->)|(? & _ & _ & _ & ->)].
  - exists [(k, r)]. split; [done|]. by constructor.
  - exists []. by rewrite app_nil_r.
Qed.

(** Stored content stays; keys outside [P] keep their reads. *)
Lemma extends_get P st st' k r :
  extends P st st' -> keyed_get k st = Ok r -> keyed_get k st' = Ok r.
Proof.
  intros [[Hnd _] (more & Hs & _)]. unfold keyed_get.
  destruct (assoc (ks_store st) k) as [r'|] eqn:E; [|done]. intros [= ->].
  rewrite (assoc_elem (ks_store st') k r); [done..|]. rewrite Hs. apply elem_of_app. left.
  by apply assoc_Some.
Qed.

Lemma extends_get_other P st st' k : extends P st st' -> ~ P k -> keyed_get k st' = keyed_get k st.
Proof.
  intros [[Hnd _] (more & Hs & HP)] Hk. unfold keyed_get. rewrite Hs in *. clear Hs.
  assert (assoc (ks_store st ++ more) k = assoc (ks_store st) k) as ->; [|done].
  rewrite Forall_forall in HP. induction (ks_store st) as [|[k' r'] l IH]; cbn in *.
  - apply assoc_None. intros (kr & -> & Hin)%list_elem_of_fmap. by apply Hk, HP.
  - destruct (decide _); [done|]. apply IH. by inversion Hnd.
Qed.
End keyed_lemmas.

(** ** Histories of writes *)

Section histories.
Context `{FloatRepr}.

Record Stores := {
  st_confirmations : ConfirmationStore;
  st_windows : KeyedStore (pystr * pystr) StoredWindow;
  st_decisions : KeyedStore (pystr * (pystr * pystr)) OutcomeDecisionRecord;
  st_bundles : KeyedStore (pystr * pystr) EvidenceBundle
}.

Definition empty_stores : Stores :=
  {| st_confirmations := empty_confirmations; st_windows := empty_store;
     st_decisions := empty_store; st_bundles := empty_store |}.

Inductive store_op :=
  | PutConfirmation (t key : pystr) (r : ConfirmationRecord)
  | OpenWindow (t : pystr) (w : StoredWindow)
  | AppendDecision (t : pystr) (d : OutcomeDecisionRecord)
  | PutBundle (t h : pystr) (b : EvidenceBundle).

Definition op_tenant (o : store_op) : pystr :=
  match o with
  | PutConfirmation t _ _ | OpenWindow t _ | AppendDecision t _ | PutBundle t _ _ => t
  end.

(** A write that raises leaves the stores as they were. *)
Definition run_op (s : Stores) (o : store_op) : Stores :=
  match o with
  | PutConfirmation t key r =>
      match put_confirmation t key r (st_confirmations s) with
      | Ok (c, _) => {| st_confirmations := c; st_windows := st_windows s;
                        st_decisions := st_decisions s; st_bundles := st_bundles s |}
      | Raise _ => s
      end
  | OpenWindow t w =>
      match open_window t w (st_windows s) with
      | Ok (ws, _) => {| st_confirmations := st_confirmations s; st_windows := ws;
                         st_decisions := st_decisions s; st_bundles := st_bundles s |}
      | Raise _ => s
      end
  | AppendDecision t d =>
      match append_decision t d (st_decisions s) with
      | Ok (ds, _) => {| st_confirmations := st_confirmations s; st_windows := st_windows s;
                         st_decisions := ds; st_bundles := st_bundles s |}
      | Raise _ => s
      end
  | PutBundle t h b =>
      match put_bundle t h b (st_bundles s) with
      | Ok (bs, _) => {| st_confirmations := st_confirmations s; st_windows := st_windows s;
                         st_decisions := st_decisions s; st_bundles := bs |}
      | Raise _ => s
      end
  end.

Definition run_ops (ops : list store_op) (s : Stores) : Stores := fold_left run_op ops s.

Definition tenant_in {K} (T : pystr -> Prop) (k : pystr * K) : Prop := T k.1.

(** What a history of the tenants [T] does to the stores. *)
Record stores_extend (T : pystr -> Prop) (s s' : Stores) : Prop := {
  ext_confirmations :
    extends (tenant_in T) (cs_keyed (st_confirmations s)) (cs_keyed (st_confirmations s'));
  ext_windows : extends (tenant_in T) (st_windows s) (st_windows s');
  ext_decisions : extends (tenant_in T) (st_decisions s) (st_decisions s');
  ext_bundles : extends (tenant_in T) (st_bundles s) (st_bundles s')
}.

Record stores_wf (s : Stores) : Prop := {
  wf_confirmations : ks_wf (cs_keyed (st_confirmations s));
  wf_windows : ks_wf (st_windows s);
  wf_decisions : ks_wf (st_decisions s);
  wf_bundles : ks_wf (st_bundles s)
}.

Lemma stores_extend_refl T s : stores_wf s -> stores_extend T s s.
Proof. intros []. by split; apply extends_refl. Qed.

Lemma stores_extend_trans T s1 s2 s3 :
  stores_extend T s1 s2 -> stores_extend T s2 s3 -> stores_extend T s1 s3.
Proof. intros [] []. split; by eapply extends_trans. Qed.

Lemma stores_extend_wf T s s' : stores_extend T s s' -> stores_wf s'.
Proof. intros [[? _] [? _] [? _] [? _]]. by split. Qed.

(** A successful write is a [keyed_put] of the caller's own record. *)
Lemma put_confirmation_Ok t key r c c' p :
  put_confirmation t key r c = Ok (c', p) ->
  t <> [] /\ key <> [] /\ cr_tenant_id r = t /\
  exists fp ks, _confirmation_fingerprint r = Ok fp /\
    keyed_put IdempotencyConflictError (t, key) fp r (cs_keyed c) = Ok (ks, p) /\
    c' = {| cs_keyed := ks;
            cs_journal := match pr_outcome p with
                          | STORED => cs_journal c ++
                              [{| je_tenant_id := t; je_key := key; je_record := r |}]
                          | DUPLICATE => cs_journal c
                          end |}.
Proof.
  unfold put_confirmation, _require_tenant, _ensure_caller_owns, lift_py, empty.
  intros (Ht%raise_if_Ok & Hp)%seq_Ok. apply seq_Ok in Hp as (Hk%raise_if_Ok & Hp).
  apply seq_Ok in Hp as (Ho%raise_if_Ok & Hp). apply bind_Ok in Hp as (fp & Hfp & Hp).
  apply bind_Ok in Hp as ([ks q] & Hput & Hp). injection Hp as <- <-. bprop.
  split_and!; [done..|by apply dec_stable|]. exists fp, ks. split; [|by split].
  by destruct (_confirmation_fingerprint r); cbn in Hfp; simplify_eq.
Qed.

Lemma run_op_extends s o : stores_wf s -> stores_extend (eq (op_tenant o)) s (run_op s o).
Proof.
  intros Hwf. pose proof (stores_extend_refl (eq (op_tenant o)) s Hwf) as Hrefl.
  destruct o as [t key r|t w|t d|t h b]; cbn.
  - destruct (put_confirmation t key r _) as [[c p]|] eqn:Ep; [|done].
    apply put_confirmation_Ok in Ep as (_ & _ & _ & fp & ks & _ & Hput & ->).
    destruct Hrefl, Hwf. split; [|done..]. cbn. by refine (extends_put _ _ _ _ _ _ _ _ _ eq_refl Hput).
  - destruct (open_window t w _) as [[c p]|] eqn:Ep; [|done].
    unfold open_window in Ep. apply seq_Ok in Ep as [_ Ep]. apply seq_Ok in Ep as [_ Ep].
    apply bind_Ok in Ep as (fp & _ & Hput).
    destruct Hrefl, Hwf. split; [done| |done..]. by refine (extends_put _ _ _ _ _ _ _ _ _ eq_refl Hput).
  - destruct (append_decision t d _) as [[c p]|] eqn:Ep; [|done].
    unfold append_decision in Ep. apply seq_Ok in Ep as [_ Ep]. apply seq_Ok in Ep as [_ Ep].
    apply bind_Ok in Ep as (fp & _ & Hput).
    destruct Hrefl, Hwf. split; [done..| |done]. by refine (extends_put _ _ _ _ _ _ _ _ _ eq_refl Hput).
  - destruct (put_bundle t h b _) as [[c p]|] eqn:Ep; [|done].
    unfold put_bundle in Ep. apply seq_Ok in Ep as [_ Ep]. apply seq_Ok in Ep as [_ Ep].
    apply seq_Ok in Ep as [_ Ep]. apply bind_Ok in Ep as (fp & _ & Hput).
    destruct Hrefl, Hwf. split; [done..|]. by refine (extends_put _ _ _ _ _ _ _ _ _ eq_refl Hput).
Qed.

Lemma extends_weaken {K} `{Countable K} {R} (P Q : K -> Prop) (st st' : KeyedStore K R) :
  (forall k, P k -> Q k) -> extends P st st' -> extends Q st st'.
Proof.
  intros HPQ [Hwf (more & Hs & HF)]. split; [done|]. exists more. split; [done|].
  eapply Forall_impl; [exact HF|]. auto.
Qed.

Lemma run_ops_extends (T : pystr -> Prop) ops s :
  stores_wf s -> Forall (fun o => T (op_tenant o)) ops -> stores_extend T s (run_ops ops s).
Proof.
  intros Hwf HT. revert s Hwf. induction HT as [|o ops Ho HT IH]; intros s Hwf; cbn.
  - by apply stores_extend_refl.
  - pose proof (run_op_extends s o Hwf) as Hstep.
    assert (stores_extend T s (run_op s o)) as Hstep'.
    { destruct Hstep. split; (eapply extends_weaken; [|eassumption]); intros k Hk;
        unfold tenant_in in *; by rewrite <- Hk. }
    eapply stores_extend_trans; [exact Hstep'|]. apply IH. by eapply stores_extend_wf.
Qed.

Lemma stores_wf_empty : stores_wf empty_stores.
Proof. split; apply ks_wf_empty. Qed.

Lemma stores_ops_wf ops : stores_wf (run_ops ops empty_stores).
Proof.
  apply (stores_extend_wf (fun _ => True) empty_stores), run_ops_extends; [apply stores_wf_empty|].
  by apply Forall_forall.
Qed.

Lemma seq_get_Ok {K} `{Countable K} {R} t (k : K) (st st' : KeyedStore K R) r :
  (forall x, keyed_get k st = Ok x -> keyed_get k st' = Ok x) ->
  (_ ← _require_tenant t; keyed_get k st) = Ok r -> (_ ← _require_tenant t; keyed_get k st') = Ok r.
Proof. intros Hk (Ht & Hr)%seq_Ok. apply seq_Ok. auto. Qed.

Lemma omap_other {K R A} (f : pystr * K -> R -> A) (T : pystr -> Prop) t (l more : list ((pystr * K) * R)) :
  Forall (fun kr => tenant_in T kr.1) more -> ~ T t ->
  omap (fun kr => if bool_decide (kr.1.1 = t) then Some (f kr.1 kr.2) else None) (l ++ more) =
  omap (fun kr => if bool_decide (kr.1.1 = t) then Some (f kr.1 kr.2) else None) l.
Proof.
  intros HF Ht. rewrite omap_app. set (g := fun kr => _).
  assert (omap g more = []) as ->; [|by rewrite app_nil_r].
  induction HF as [|[[t' k] r] more Hk HF IH]; [done|]. cbn. unfold g at 1. cbn.
  rewrite bool_decide_eq_false_2; [done|]. intros ->. by apply Ht.
Qed.

(** ** The journal *)

Definition entry_key (e : JournalEntry) : pystr * pystr := (je_tenant_id e, je_key e).
Definition entry_fp (e : JournalEntry) : pystr :=
  default [] (result_to_option (_confirmation_fingerprint (je_record e))).

(** An entry the store accepted. *)
Definition acceptable (e : JournalEntry) : Prop :=
  je_tenant_id e <> [] /\ je_key e <> [] /\ cr_tenant_id (je_record e) = je_tenant_id e /\
  _confirmation_fingerprint (je_record e) = Ok (entry_fp e).

(** The store a journal describes. *)
Definition state_of (j : list JournalEntry) : ConfirmationStore :=
  {| cs_keyed := {| ks_store := (fun e => (entry_key e, je_record e)) <$> j;
                    ks_fingerprints := list_to_map ((fun e => (entry_key e, entry_fp e)) <$> j) |};
     cs_journal := j |}.

Definition journal_ok (j : list JournalEntry) : Prop :=
  NoDup (entry_key <$> j) /\ Forall acceptable j.

Lemma store_keys j : (ks_store (cs_keyed (state_of j))).*1 = entry_key <$> j.
Proof. cbn. by rewrite <- list_fmap_compose. Qed.

Lemma fp_keys j : ((fun e => (entry_key e, entry_fp e)) <$> j).*1 = entry_key <$> j.
Proof. by rewrite <- list_fmap_compose. Qed.

Lemma put_checks t key r c :
  t <> [] -> key <> [] -> cr_tenant_id r = t ->
  put_confirmation t key r c =
  (fp ← lift_py (_confirmation_fingerprint r);
   p ← keyed_put IdempotencyConflictError (t, key) fp r (cs_keyed c);
   Ok ({| cs_keyed := p.1;
          cs_journal := match pr_outcome p.2 with
                        | STORED => cs_journal c ++
                            [{| je_tenant_id := t; je_key := key; je_record := r |}]
                        | DUPLICATE => cs_journal c
                        end |}, p.2)).
Proof.
  intros Ht Hk Hr. unfold put_confirmation, _require_tenant, _ensure_caller_owns, empty.
  by rewrite !bool_decide_eq_false_2 by (by try intros ?).
Qed.

(** Delivering an entry of the journal again changes nothing. *)
Lemma put_again j e :
  journal_ok j -> e ∈ j ->
  put_confirmation (je_tenant_id e) (je_key e) (je_record e) (state_of j) =
    Ok (state_of j, Build_PutResult DUPLICATE (je_record e)).
Proof.
  intros [Hnd Hall] He. pose proof (proj1 (Forall_forall _ _) Hall e He) as (Ht & Hk & Hr & Hfp).
  rewrite put_checks, Hfp by done. unfold mbind, result_bind, lift_py, try_except, keyed_put.
  change (je_tenant_id e, je_key e) with (entry_key e).
  rewrite (assoc_elem _ (entry_key e) (je_record e)).
  2: { by rewrite store_keys. }
  2: { apply list_elem_of_fmap. by exists e. }
  assert (ks_fingerprints (cs_keyed (state_of j)) !! entry_key e = Some (entry_fp e)) as ->.
  { apply elem_of_list_to_map_1; [by rewrite fp_keys|]. apply list_elem_of_fmap. by exists e. }
  by rewrite bool_decide_eq_true_2.
Qed.

(** Delivering the next entry extends the state with it. *)
Lemma put_next j e :
  journal_ok (j ++ [e]) ->
  put_confirmation (je_tenant_id e) (je_key e) (je_record e) (state_of j) =
    Ok (state_of (j ++ [e]), Build_PutResult STORED (je_record e)).
Proof.
  intros [Hnd Hall]. apply Forall_app in Hall as [_ [(Ht & Hk & Hr & Hfp) _]%Forall_cons].
  rewrite fmap_app in Hnd. apply NoDup_app in Hnd as (_ & Hd & _).
  assert (entry_key e ∉ entry_key <$> j) as Hn.
  { intros Hin. apply (Hd _ Hin). by left. }
  rewrite put_checks, Hfp by done. unfold mbind, result_bind, lift_py, try_except, keyed_put.
  change (je_tenant_id e, je_key e) with (entry_key e).
  rewrite (proj2 (assoc_None _ _)) by (by rewrite store_keys). cbn. f_equal. f_equal. unfold state_of.
  rewrite !fmap_app. f_equal; [|by destruct e]. f_equal.
  symmetry. apply list_to_map_snoc. by rewrite fp_keys.
Qed.

Lemma journal_ok_prefix j j' : journal_ok (j ++ j') -> journal_ok j.
Proof.
  intros [Hnd Hall]. rewrite fmap_app in Hnd. split; [by apply NoDup_app in Hnd as [? _]|].
  by apply Forall_app in Hall as [? _].
Qed.

(** Every store a history reaches is the one its journal describes. *)
Lemma put_confirmation_state t key r j c' p :
  journal_ok j -> put_confirmation t key r (state_of j) = Ok (c', p) ->
  exists j', journal_ok (j ++ j') /\ c' = state_of (j ++ j').
Proof.
  intros Hj Hput. pose proof Hput as Hput'.
  apply put_confirmation_Ok in Hput as (Ht & Hk & Hr & fp & ks & Hfp & Hks & Hc).
  set (e := {| je_tenant_id := t; je_key := key; je_record := r |}).
  apply keyed_put_Ok in Hks as [(Hn & -> & _)|(? & _ & _ & -> & ->)].
  - exists [e]. assert (journal_ok (j ++ [e])) as Hj'; [|split; [done|]].
    + rewrite store_keys in Hn. destruct Hj as [Hnd Hall]. split.
      * rewrite fmap_app. apply NoDup_app. split; [done|]. split; [|apply NoDup_singleton].
        intros x Hx Hin%list_elem_of_singleton. by subst.
      * apply Forall_app. split; [done|]. constructor; [|done]. split_and!; try done.
        unfold entry_fp. cbn. by rewrite Hfp.
    + pose proof (put_next j e Hj') as Hnext. cbn in Hnext. rewrite Hnext in Hput'. by injection Hput'.
  - exists []. rewrite app_nil_r. split; [done|]. rewrite Hc. by destruct j.
Qed.

Lemma reachable_state ops : exists j, journal_ok j /\ st_confirmations (run_ops ops empty_stores) = state_of j.
Proof.
  unfold run_ops. induction ops as [|o ops IH] using rev_ind.
  - exists []. split; [|done]. split; [constructor|done].
  - rewrite fold_left_app. cbn. destruct IH as (j & Hj & Hst).
    set (s := fold_left run_op ops empty_stores) in *.
    destruct o as [t key r|t w|t d|t h b]; cbn.
    + rewrite Hst. destruct (put_confirmation t key r (state_of j)) as [[c p]|] eqn:Ep; [|by exists j].
      apply put_confirmation_state in Ep as (j' & Hj' & ->); [|done]. by exists (j ++ j').
    + destruct (open_window t w _) as [[]|]; by exists j.
    + destruct (append_decision t d _) as [[]|]; by exists j.
    + destruct (put_bundle t h b _) as [[]|]; by exists j.
Qed.

(** The content of a stored record is the content its fingerprint records. *)
Lemma state_content j k r :
  journal_ok j -> assoc (ks_store (cs_keyed (state_of j))) k = Some r ->
  exists fp, ks_fingerprints (cs_keyed (state_of j)) !! k = Some fp /\ _confirmation_fingerprint r = Ok fp.
Proof.
  intros [Hnd Hall] Ha. apply assoc_Some in Ha. cbn in Ha.
  apply list_elem_of_fmap in Ha as (e & [= -> ->] & He). exists (entry_fp e).
  destruct (proj1 (Forall_forall _ _) Hall e He) as (_ & _ & _ & ->). split; [|done].
  apply elem_of_list_to_map_1; [by rewrite fp_keys|]. apply list_elem_of_fmap. by exists e.
Qed.

(** A write that returns leaves the written content under its key. *)
Lemma put_confirmation_content j t key r c' p :
  journal_ok j -> put_confirmation t key r (state_of j) = Ok (c', p) ->
  exists r', get_confirmation t key c' = Ok r' /\
    _confirmation_fingerprint r' = _confirmation_fingerprint r.
Proof.
  intros Hj (Ht & _ & _ & fp & ks & Hfp & Hks & ->)%put_confirmation_Ok.
  unfold get_confirmation, _require_tenant, empty, keyed_get. cbn [cs_keyed].
  rewrite bool_decide_eq_false_2 by done. unfold mbind, result_bind. cbn [raise_if].
  apply keyed_put_Ok in Hks as [(Hn & _ & ->)|(existing & Ha & Hf & _ & ->)].
  - exists r. cbn [ks_store]. rewrite assoc_snoc by done. by rewrite decide_True.
  - exists existing. rewrite Ha. split; [done|].
    destruct (state_content _ _ _ Hj Ha) as (fp' & Hf' & ->). rewrite Hfp. congruence.
Qed.

(** A delivery of a journal: its entries in order, any of those already
    delivered possibly again in between. *)
Inductive delivery : list JournalEntry -> list JournalEntry -> list JournalEntry -> Prop :=
  | delivery_done seen : delivery seen [] []
  | delivery_next seen e j d : delivery (seen ++ [e]) j d -> delivery seen (e :: j) (e :: d)
  | delivery_again seen e j d : e ∈ seen -> delivery seen j d -> delivery seen j (e :: d).

Lemma replay_delivery seen j d :
  delivery seen j d -> journal_ok (seen ++ j) -> replay_from d (state_of seen) = Ok (state_of (seen ++ j)).
Proof.
  induction 1 as [seen|seen e j d Hd IH|seen e j d He Hd IH]; intros Hok; cbn [replay_from].
  - by rewrite app_nil_r.
  - replace (seen ++ e :: j) with ((seen ++ [e]) ++ j) in * by (by rewrite <- app_assoc).
    rewrite put_next by (by eapply journal_ok_prefix). unfold mbind, result_bind. by apply IH.
  - rewrite put_again by (done || by eapply journal_ok_prefix). unfold mbind, result_bind. by apply IH.
Qed.

(** ** Properties *)

(** stored content is final and tenants are separate: after any history, a
    later history changes no value that a store returned, and a history of
    other tenants changes nothing a tenant can read. *)
Theorem stored_content_is_final history later t :
  let s := run_ops history empty_stores in
  let s' := run_ops later s in
  (forall key r, get_confirmation t key (st_confirmations s) = Ok r ->
                 get_confirmation t key (st_confirmations s') = Ok r) /\
  (forall e w, get_active t e (st_windows s) = Ok w -> get_active t e (st_windows s') = Ok w) /\
  (forall k d, get_decision t k (st_decisions s) = Ok d -> get_decision t k (st_decisions s') = Ok d) /\
  (forall h b, get_bundle t h (st_bundles s) = Ok b -> get_bundle t h (st_bundles s') = Ok b) /\
  ((forall o, o ∈ later -> op_tenant o <> t) ->
     (forall key, get_confirmation t key (st_confirmations s') = get_confirmation t key (st_confirmations s)) /\
     (forall e, get_active t e (st_windows s') = get_active t e (st_windows s)) /\
     (forall k, get_decision t k (st_decisions s') = get_decision t k (st_decisions s)) /\
     (forall h, get_bundle t h (st_bundles s') = get_bundle t h (st_bundles s)) /\
     snapshot t (st_confirmations s') = snapshot t (st_confirmations s) /\
     list_decisions t (st_decisions s') = list_decisions t (st_decisions s)).
Proof.
  intros s s'. pose proof (stores_ops_wf history) as Hwf.
  assert (stores_extend (fun _ => True) s s') as [Hc Hw Hd Hb].
  { apply run_ops_extends; [done|]. by apply Forall_forall. }
  split_and!; try (intros k r; apply seq_get_Ok; intros x; by eapply extends_get).
  intros Hother. assert (stores_extend (fun t' => t' <> t) s s') as [Hc' Hw' Hd' Hb'].
  { apply run_ops_extends; [done|]. apply Forall_forall. intros o Ho. by apply Hother. }
  unfold get_confirmation, get_active, get_decision, get_bundle, snapshot, list_decisions.
  split_and!.
  - intros key. by rewrite (extends_get_other _ _ _ (t, key) Hc') by (intros Hn; by apply Hn).
  - intros e. by rewrite (extends_get_other _ _ _ (t, e) Hw') by (intros Hn; by apply Hn).
  - intros k. by rewrite (extends_get_other _ _ _ (t, k) Hd') by (intros Hn; by apply Hn).
  - intros h. by rewrite (extends_get_other _ _ _ (t, h) Hb') by (intros Hn; by apply Hn).
  - destruct Hc' as [_ (more & -> & HF)].
    by rewrite (omap_other (fun k r => (k.2, r)) (fun t' => t' <> t) t _ more HF) by auto.
  - destruct Hd' as [_ (more & -> & HF)].
    by rewrite (omap_other (fun _ r => r) (fun t' => t' <> t) t _ more HF) by auto.
Qed.

(** A write is idempotent and never picks a winner: on every reachable
    store, a well-formed record is stored exactly when its key is absent, is a
    no-op returning the stored record exactly when the canonical contents
    agree, and is refused as a conflict otherwise. *)
Theorem put_confirmation_exact history t key r fp :
  let st := st_confirmations (run_ops history empty_stores) in
  t <> [] -> key <> [] -> cr_tenant_id r = t -> _confirmation_fingerprint r = Ok fp ->
  match get_confirmation t key st with
  | Ok existing =>
      put_confirmation t key r st =
        if bool_decide (_confirmation_fingerprint existing = Ok fp)
        then Ok (st, Build_PutResult DUPLICATE existing) else Raise IdempotencyConflictError
  | Raise _ =>
      exists st', put_confirmation t key r st = Ok (st', Build_PutResult STORED r) /\
                  get_confirmation t key st' = Ok r
  end.
Proof.
  intros st Ht Hk Hr Hfp. destruct (reachable_state history) as (j & [Hnd Hall] & Hst).
  unfold st. rewrite Hst. clear st Hst. unfold get_confirmation, _require_tenant, empty.
  rewrite put_checks, Hfp, bool_decide_eq_false_2 by done.
  unfold mbind, result_bind, lift_py, try_except, keyed_put, keyed_get. cbn [raise_if].
  destruct (assoc _ (t, key)) as [existing|] eqn:Ea.
  - destruct (state_content _ _ _ (conj Hnd Hall) Ea) as (fp' & -> & ->).
    case_bool_decide as E1; case_bool_decide as E2; try done; [by destruct E2; f_equal|congruence].
  - apply assoc_None in Ea. eexists. split; [done|].
    cbn [cs_keyed ks_store fst]. rewrite assoc_snoc by done. by rewrite decide_True.
Qed.

(** C38: a restart loses nothing: replaying the journal of any reachable store
    rebuilds that store exactly, also when the log delivers entries again. *)
Theorem journal_replay_restores history d :
  let st := st_confirmations (run_ops history empty_stores) in
  delivery [] (cs_journal st) d -> replay_confirmation_journal d = Ok st.
Proof.
  intros st Hd. destruct (reachable_state history) as (j & Hj & Hst). unfold st in *.
  rewrite Hst in *. exact (replay_delivery [] j d Hd Hj).
Qed.
End histories.

(** ** A concrete history *)

Module Witness.
#[local] Existing Instance sci_float_repr.

Definition record1 (t k : string) (n : Z) : ConfirmationRecord :=
  {| cr_tenant_id := u t; cr_confirmation_key := u k; cr_measurement_kind := u "deployment_confirmation";
     cr_payload := [(u "n", PInt n)] |}.

Definition history1 : list store_op :=
  [PutConfirmation (u "acme") (u "k1") (record1 "acme" "k1" 1);
   PutConfirmation (u "acme") (u "k1") (record1 "acme" "k1" 2);
   PutConfirmation (u "other") (u "k1") (record1 "other" "k1" 3)].

Definition entry1 : JournalEntry :=
  {| je_tenant_id := u "acme"; je_key := u "k1"; je_record := record1 "acme" "k1" 1 |}.
Definition entry2 : JournalEntry :=
  {| je_tenant_id := u "other"; je_key := u "k1"; je_record := record1 "other" "k1" 3 |}.

Lemma journal_replay_restores_witness :
  replay_confirmation_journal [entry1; entry1; entry2; entry1]
  = Ok (st_confirmations (run_ops history1 empty_stores)).
Proof.
  refine (journal_replay_restores history1 [entry1; entry1; entry2; entry1] _).
  assert (cs_journal (st_confirmations (run_ops history1 empty_stores)) = [entry1; entry2]) as ->
    by (vm_compute; reflexivity).
  apply delivery_next. apply delivery_again; [left|]. apply delivery_next.
  apply delivery_again; [left|]. apply delivery_done.
Defined.

Lemma put_confirmation_exact_witness :
  put_confirmation (u "acme") (u "k1") (record1 "acme" "k1" 2)
    (st_confirmations (run_ops history1 empty_stores)) = Raise IdempotencyConflictError.
Proof.
  assert (exists fp, _confirmation_fingerprint (record1 "acme" "k1" 2) = Ok fp) as [fp Hfp]
    by (eexists; vm_compute; reflexivity).
  pose proof (put_confirmation_exact history1 (u "acme") (u "k1") (record1 "acme" "k1" 2) fp
    ltac:(discriminate) ltac:(discriminate) eq_refl Hfp) as Hp.
  assert (get_confirmation (u "acme") (u "k1") (st_confirmations (run_ops history1 empty_stores))
    = Ok (record1 "acme" "k1" 1)) as Hg by (vm_compute; reflexivity).
  cbv zeta in Hp. rewrite Hg in Hp. rewrite Hp, bool_decide_eq_false_2; [reflexivity|].
  rewrite <- Hfp. vm_compute. discriminate.
Defined.
End Witness.
