(* ===== verification/Confirmation.v ===== *)
(** Deployment confirmations and the measurement clock
    (measurement/confirmation.py, measurement/clock.py).

    A confirmation is an untrusted claim; [validate_confirmation] is the only
    producer of [Accepted], and [start_measurement_window] starts a window only
    from one.  The verifier of the confirmer is an argument; how pydantic
    renders a datetime in a JSON dump is the class [DatetimeJson]. *)

From S2P Require Import Prelude PyStr Sha256 PyVal Canonical PyTime.

(** ** confirmation.py *)

Inductive RejectionReason :=
  | CROSS_TENANT_REPLAY | IDENTITY_MISMATCH | MISSING_DEPLOY_ARTIFACT | MISSING_DEPLOYMENT_TARGET
  | UNTRUSTED_CONFIRMER | CONFIRMER_VERIFICATION_FAILED | BACKDATED_CONFIRMATION
  | FUTURE_CONFIRMATION | CONFLICTING_REPLAY | UNKNOWN_REGISTRATION | NAIVE_TIMESTAMP.

#[export] Instance RejectionReason_eq_dec : EqDecision RejectionReason.
Proof. solve_decision. Defined.

Record RegistrationView := {
  rv_experiment_id : pystr; rv_tenant_id : pystr; rv_run_id : pystr; rv_project : pystr;
  rv_site : pystr; rv_registration_canonical_hash : pystr;
  rv_created_at : datetime; rv_approved_at : datetime
}.

(** [a == b] of the frozen models. *)
Definition view_eq (a b : RegistrationView) : bool :=
  bool_decide (rv_experiment_id a = rv_experiment_id b) && bool_decide (rv_tenant_id a = rv_tenant_id b)
  && bool_decide (rv_run_id a = rv_run_id b) && bool_decide (rv_project a = rv_project b)
  && bool_decide (rv_site a = rv_site b)
  && bool_decide (rv_registration_canonical_hash a = rv_registration_canonical_hash b)
  && datetime_eq (rv_created_at a) (rv_created_at b)
  && datetime_eq (rv_approved_at a) (rv_approved_at b).

Record DeploymentConfirmation := {
  dc_experiment_id : pystr; dc_tenant_id : pystr; dc_run_id : pystr; dc_project : pystr;
  dc_site : pystr; dc_registration_canonical_hash : pystr;
  dc_deployment_target : option pystr; dc_deployed_commit_sha : option pystr;
  dc_artifact_hash : option pystr; dc_confirmed_at : datetime; dc_idempotency_key : pystr;
  dc_confirmer_identity : pystr; dc_confirmer_signature : pystr
}.

(** The [min_length] of the fields and [_forbid_empty_after_strip]. *)
Definition blank_text (o : option pystr) : bool :=
  match o with Some s => bool_decide (strip s = []) | None => false end.

Definition make_DeploymentConfirmation (c : DeploymentConfirmation)
    : result pyexn DeploymentConfirmation :=
  _ ← raise_if (existsb (fun s => bool_decide (s = []))
        [dc_experiment_id c; dc_tenant_id c; dc_run_id c; dc_project c; dc_site c;
         dc_registration_canonical_hash c; dc_idempotency_key c; dc_confirmer_identity c;
         dc_confirmer_signature c]) ValueError;
  _ ← raise_if (existsb blank_text
        [dc_deployment_target c; dc_deployed_commit_sha c; dc_artifact_hash c]) ValueError;
  Ok c.

Record Accepted := {
  ac_confirmation : DeploymentConfirmation;
  ac_registration_view : RegistrationView;
  ac_server_received_at : datetime;
  ac_content_fingerprint : pystr
}.

Record Rejected := { rj_reason_code : RejectionReason; rj_idempotency_key : pystr; rj_experiment_id : pystr }.

Inductive ConfirmationVerdict :=
  | VAccepted (a : Accepted)
  | VRejected (r : Rejected)
  | VDuplicate (a : Accepted).

Abbreviation PriorState := (gmap pystr Accepted).

Definition dump_opt (o : option pystr) : pyval := match o with Some s => PStr s | None => PNone end.

(** [confirmation.model_dump(mode="json")] *)
Definition confirmation_dump `{DatetimeJson} (c : DeploymentConfirmation) : pyval :=
  PDict
    [(u "experiment_id", PStr (dc_experiment_id c)); (u "tenant_id", PStr (dc_tenant_id c));
     (u "run_id", PStr (dc_run_id c)); (u "project", PStr (dc_project c)); (u "site", PStr (dc_site c));
     (u "registration_canonical_hash", PStr (dc_registration_canonical_hash c));
     (u "deployment_target", dump_opt (dc_deployment_target c));
     (u "deployed_commit_sha", dump_opt (dc_deployed_commit_sha c));
     (u "artifact_hash", dump_opt (dc_artifact_hash c));
     (u "confirmed_at", PStr (render_datetime (dc_confirmed_at c)));
     (u "idempotency_key", PStr (dc_idempotency_key c));
     (u "confirmer_identity", PStr (dc_confirmer_identity c));
     (u "confirmer_signature", PStr (dc_confirmer_signature c))].

Definition _content_fingerprint `{FloatRepr} `{DatetimeJson} (c : DeploymentConfirmation)
    : result pyexn pystr :=
  text ← canonical_json (confirmation_dump c);
  digest ← sha256_hex text;
  Ok (u "sha256:" ++ digest).

Definition _reject (reason : RejectionReason) (c : DeploymentConfirmation) : ConfirmationVerdict :=
  VRejected {| rj_reason_code := reason; rj_idempotency_key := dc_idempotency_key c;
               rj_experiment_id := dc_experiment_id c |}.

(** [if b: return _reject(...)] and what follows. *)
Definition reject_if (b : bool) (reason : RejectionReason) (c : DeploymentConfirmation)
    (rest : result pyexn ConfirmationVerdict) : result pyexn ConfirmationVerdict :=
  if b then Ok (_reject reason c) else rest.

(** The object a verifier returns; only the literal [True] counts. *)
Definition is_True (v : pyval) : bool := match v with PBool true => true | _ => false end.

Definition Verifier : Type := DeploymentConfirmation -> result pyexn pyval.

Definition validate_confirmation `{FloatRepr} `{DatetimeJson}
    (confirmation : DeploymentConfirmation) (registration_view : RegistrationView)
    (server_received_at : datetime) (trust_verifier : option Verifier) (prior_state : PriorState)
    (allowed_skew_seconds : Z) : result pyexn ConfirmationVerdict :=
  let reject_if b reason rest := reject_if b reason confirmation rest in
  reject_if (is_naive server_received_at || is_naive (dc_confirmed_at confirmation)) NAIVE_TIMESTAMP (
  reject_if (bool_decide (dc_tenant_id confirmation <> rv_tenant_id registration_view))
    CROSS_TENANT_REPLAY (
  reject_if (bool_decide (dc_run_id confirmation <> rv_run_id registration_view)
             || bool_decide (dc_project confirmation <> rv_project registration_view)
             || bool_decide (dc_site confirmation <> rv_site registration_view)
             || bool_decide (dc_experiment_id confirmation <> rv_experiment_id registration_view))
    IDENTITY_MISMATCH (
  fingerprint ← _content_fingerprint confirmation;
  match prior_state !! dc_idempotency_key confirmation with
  | Some prior =>
      if bool_decide (ac_content_fingerprint prior = fingerprint) then Ok (VDuplicate prior)
      else Ok (_reject CONFLICTING_REPLAY confirmation)
  | None =>
  reject_if (bool_decide (dc_registration_canonical_hash confirmation
                          <> rv_registration_canonical_hash registration_view))
    UNKNOWN_REGISTRATION (
  reject_if (bool_decide (dc_deployed_commit_sha confirmation = None)
             && bool_decide (dc_artifact_hash confirmation = None))
    MISSING_DEPLOY_ARTIFACT (
  reject_if (bool_decide (dc_deployment_target confirmation = None)) MISSING_DEPLOYMENT_TARGET (
  match trust_verifier with
  | None => Ok (_reject UNTRUSTED_CONFIRMER confirmation)
  | Some verify =>
  verification_result ← verify confirmation;
  reject_if (negb (is_True verification_result)) CONFIRMER_VERIFICATION_FAILED (
  earliest_valid ← datetime_min (rv_created_at registration_view) (rv_approved_at registration_view);
  backdated ← datetime_lt (dc_confirmed_at confirmation) earliest_valid;
  reject_if backdated BACKDATED_CONFIRMATION (
  _ ← raise_if (allowed_skew_seconds <? 0)%Z ValueError;
  skew ← timedelta_seconds allowed_skew_seconds;
  latest ← datetime_add server_received_at skew;
  future ← datetime_gt (dc_confirmed_at confirmation) latest;
  reject_if future FUTURE_CONFIRMATION (
  Ok (VAccepted {| ac_confirmation := confirmation; ac_registration_view := registration_view;
                   ac_server_received_at := server_received_at;
                   ac_content_fingerprint := fingerprint |}))))
  end)))
  end))).

(** ** clock.py *)

Record MeasurementPolicy := { window_days : Z; max_deploy_delay_days : Z }.

Definition default_policy : MeasurementPolicy := {| window_days := 7; max_deploy_delay_days := 2 |}.

Definition make_MeasurementPolicy (p : MeasurementPolicy) : result pyexn MeasurementPolicy :=
  _ ← raise_if ((window_days p <=? 0)%Z || (max_deploy_delay_days p <? 0)%Z) ValueError; Ok p.

Record MeasurementWindow := {
  mw_anchor : datetime; mw_end : datetime; mw_window_days : Z;
  mw_idempotency_key : pystr; mw_content_fingerprint : pystr
}.

(** [Undetermined] has one reason, [deployment_late]. *)
Inductive ClockStartVerdict :=
  | Started (w : MeasurementWindow)
  | DeploymentLate.

Inductive clock_exn := ClockPy (e : pyexn) | ConflictingConfirmationError (idempotency_key : pystr).

Definition window_complete (w : MeasurementWindow) (at_ : datetime) : result pyexn bool :=
  _ ← raise_if (is_naive at_) ValueError;
  datetime_ge at_ (mw_end w).

Definition _day2_deadline (registration_view : RegistrationView) (policy : MeasurementPolicy)
    : result pyexn datetime :=
  delay ← timedelta_days (max_deploy_delay_days policy);
  datetime_add (rv_approved_at registration_view) delay.

(** [policy or MeasurementPolicy()]: a model is truthy. *)
Definition start_measurement_window (accepted : Accepted) (registration_view : RegistrationView)
    (policy : option MeasurementPolicy) : result pyexn ClockStartVerdict :=
  _ ← raise_if (negb (view_eq (ac_registration_view accepted) registration_view)) ValueError;
  let policy := default default_policy policy in
  let anchor := ac_server_received_at accepted in
  _ ← raise_if (is_naive anchor) ValueError;
  deadline ← _day2_deadline registration_view policy;
  late ← datetime_gt anchor deadline;
  if (late : bool) then Ok DeploymentLate
  else
    delta ← timedelta_days (window_days policy);
    end_ ← datetime_add anchor delta;
    Ok (Started {| mw_anchor := anchor; mw_end := end_; mw_window_days := window_days policy;
                   mw_idempotency_key := dc_idempotency_key (ac_confirmation accepted);
                   mw_content_fingerprint := ac_content_fingerprint accepted |}).

Definition resolve_duplicate_window (existing_window : MeasurementWindow) (accepted : Accepted)
    : result clock_exn MeasurementWindow :=
  _ ← raise_if
    (bool_decide (dc_idempotency_key (ac_confirmation accepted) <> mw_idempotency_key existing_window)
     || bool_decide (ac_content_fingerprint accepted <> mw_content_fingerprint existing_window))
    (ConflictingConfirmationError (mw_idempotency_key existing_window));
  Ok existing_window.

(** ** Lemmas *)

Section confirmation.
Context `{FloatRepr} `{DatetimeJson}.

Lemma reject_if_accepted b reason c rest a :
  reject_if b reason c rest = Ok (VAccepted a) <-> b = false /\ rest = Ok (VAccepted a).
Proof. destruct b; cbn; naive_solver. Qed.

Lemma confirmation_dump_serializable c : serializable (confirmation_dump c) = true.
Proof.
  assert (forall o, serializable (dump_opt o) = true) as Ho by (by intros []).
  cbn. by rewrite !Ho.
Qed.

(** The fingerprint of a confirmation never fails. *)
Lemma content_fingerprint_total c :
  _content_fingerprint c = Ok (u "sha256:" ++ hexdigest (dumps (confirmation_dump c))).
Proof.
  unfold _content_fingerprint.
  rewrite canonical_json_total by apply confirmation_dump_serializable.
  unfold mbind, result_bind. by rewrite sha256_hex_dumps.
Qed.

(** What an acceptance rests on. *)
Record acceptance (c : DeploymentConfirmation) (v : RegistrationView) (received : datetime)
    (verifier : option Verifier) (prior : PriorState) (skew : Z) : Prop := {
  acc_aware : is_naive received = false /\ is_naive (dc_confirmed_at c) = false;
  acc_identity : dc_tenant_id c = rv_tenant_id v /\ dc_run_id c = rv_run_id v /\
    dc_project c = rv_project v /\ dc_site c = rv_site v /\ dc_experiment_id c = rv_experiment_id v;
  acc_fresh : prior !! dc_idempotency_key c = None;
  acc_linked : dc_registration_canonical_hash c = rv_registration_canonical_hash v;
  acc_artifact : is_Some (dc_deployed_commit_sha c) \/ is_Some (dc_artifact_hash c);
  acc_target : is_Some (dc_deployment_target c);
  acc_verified : exists verify, verifier = Some verify /\ verify c = Ok (PBool true);
  acc_not_backdated : exists earliest, datetime_min (rv_created_at v) (rv_approved_at v) = Ok earliest /\
    datetime_lt (dc_confirmed_at c) earliest = Ok false;
  acc_not_future : exists delta latest, (0 <= skew)%Z /\ timedelta_seconds skew = Ok delta /\
    datetime_add received delta = Ok latest /\ datetime_gt (dc_confirmed_at c) latest = Ok false
}.

Lemma is_True_iff x : negb (is_True x) = false <-> x = PBool true.
Proof. destruct x as [|[]| | | | | |]; cbn; naive_solver. Qed.

Lemma not_None_iff {A} (o : option A) : o <> None <-> is_Some o.
Proof. by rewrite not_eq_None_Some. Qed.

Lemma validate_accepted c v received verifier prior skew a :
  validate_confirmation c v received verifier prior skew = Ok (VAccepted a) <->
  acceptance c v received verifier prior skew /\
  a = {| ac_confirmation := c; ac_registration_view := v; ac_server_received_at := received;
         ac_content_fingerprint := u "sha256:" ++ hexdigest (dumps (confirmation_dump c)) |}.
Proof.
  unfold validate_confirmation. rewrite content_fingerprint_total.
  cbv zeta. rewrite !reject_if_accepted. split.
  - intros (Hn & Ht & Hi & Hrest). bprop. cbn [mbind result_bind] in Hrest.
    destruct (prior !! _) as [p|] eqn:Ep; [by case_bool_decide|].
    rewrite !reject_if_accepted in Hrest. destruct Hrest as (Hh & Ha & Htg & Hrest).
    destruct verifier as [verify|]; [|done]. apply bind_Ok in Hrest as (r & Hv & Hrest).
    apply reject_if_accepted in Hrest as (->%is_True_iff & Hrest).
    apply bind_Ok in Hrest as (earliest & He & Hrest). apply bind_Ok in Hrest as (b & Hb & Hrest).
    apply reject_if_accepted in Hrest as (-> & Hrest).
    apply seq_Ok in Hrest as (Hs%raise_if_Ok & Hrest). apply bind_Ok in Hrest as (delta & Hd & Hrest).
    apply bind_Ok in Hrest as (latest & Hl & Hrest). apply bind_Ok in Hrest as (f & Hf & Hrest).
    apply reject_if_accepted in Hrest as (-> & [= <-]). bprop. apply Z.ltb_ge in Hs.
    split; [|done]. destruct Hi as [[[Hi1 Hi2] Hi3] Hi4].
    split; [done|split_and!; by apply dec_stable|done|by apply dec_stable| |by apply not_None_iff
           |by exists verify|by exists earliest|by exists delta, latest].
    rewrite <- !not_None_iff. destruct Ha; auto.
  - intros ([[Hn1 Hn2] (H1 & H2 & H3 & H4 & H5) Hf Hh Ha Ht (verify & -> & Hv)
             (earliest & He & Hb) (delta & latest & Hs & Hd & Hl & Hfut)] & ->).
    rewrite Hn1, Hn2, H1, H2, H3, H4, H5. cbn [orb]. rewrite !bool_decide_eq_false_2 by auto.
    cbn [orb]. split; [done|]. split; [done|]. split; [done|].
    cbn [mbind result_bind]. rewrite Hf, !reject_if_accepted. split; [done|]. split.
    { apply andb_false_iff. rewrite !bool_decide_eq_false, !not_None_iff. done. }
    split; [by apply bool_decide_eq_false, not_None_iff|].
    rewrite Hv. cbn [mbind result_bind]. rewrite reject_if_accepted. split; [done|].
    unfold mbind, result_bind. rewrite He, Hb. cbn [reject_if].
    rewrite (proj2 (Z.ltb_ge _ _)) by done. cbn [raise_if]. by rewrite Hd, Hl, Hfut.
Qed.

(** *** Datetimes at fixed offsets

    [offsets] gives the offset of each fixed-offset zone; orders are orders of
    instants and additions move instants. *)

Section fixed.
Context (offsets : N -> Z).

Definition at_fixed_offset (d : datetime) : Prop :=
  exists i, tz d = Some (fixed_zone i (offsets i)).

Lemma fixed_aware d : at_fixed_offset d -> is_naive d = false.
Proof. unfold is_naive, offset_of. by intros [i ->]. Qed.

Lemma fixed_cmp a b :
  at_fixed_offset a -> at_fixed_offset b -> datetime_cmp a b = Ok (instant a - instant b)%Z.
Proof.
  intros Ha Hb. apply datetime_cmp_instant; [by apply fixed_aware..|].
  destruct Ha as [i Ha], Hb as [j Hb]. unfold same_tzinfo, offset_of. rewrite Ha, Hb. cbn.
  intros [= ->]%bool_decide_eq_true. done.
Qed.

Lemma fixed_lt a b : at_fixed_offset a -> at_fixed_offset b ->
  datetime_lt a b = Ok (bool_decide (instant a < instant b)%Z).
Proof.
  intros Ha Hb. unfold datetime_lt. rewrite fixed_cmp by done. cbn. f_equal.
  apply Bool.eq_iff_eq_true. rewrite Z.ltb_lt, bool_decide_eq_true. lia.
Qed.

Lemma fixed_gt a b : at_fixed_offset a -> at_fixed_offset b ->
  datetime_gt a b = Ok (bool_decide (instant b < instant a)%Z).
Proof.
  intros Ha Hb. unfold datetime_gt. rewrite fixed_cmp by done. cbn. f_equal.
  apply Bool.eq_iff_eq_true. rewrite Z.ltb_lt, bool_decide_eq_true. lia.
Qed.

Lemma fixed_ge a b : at_fixed_offset a -> at_fixed_offset b ->
  datetime_ge a b = Ok (bool_decide (instant b <= instant a)%Z).
Proof.
  intros Ha Hb. unfold datetime_ge. rewrite fixed_cmp by done. cbn. f_equal.
  apply Bool.eq_iff_eq_true. rewrite Z.leb_le, bool_decide_eq_true. lia.
Qed.

Lemma fixed_add d delta d' : at_fixed_offset d -> datetime_add d delta = Ok d' ->
  at_fixed_offset d' /\ instant d' = (instant d + delta)%Z.
Proof.
  intros [i Hd] Ha. apply instant_add in Ha as Hi.
  - split; [|done]. apply datetime_add_Ok in Ha as [_ ->]. by exists i.
  - unfold steady, offset_of. cbn. by rewrite Hd.
Qed.

Lemma fixed_min a b : at_fixed_offset a -> at_fixed_offset b ->
  exists m, datetime_min a b = Ok m /\ at_fixed_offset m /\ instant m = Z.min (instant a) (instant b).
Proof.
  intros Ha Hb. unfold datetime_min. rewrite fixed_lt by done. cbn.
  case_bool_decide; eexists; split_and!; try done; lia.
Qed.

Lemma seconds_in_range n w :
  (0 <= n)%Z -> (0 <= w)%Z -> (w + n * SECOND < MAX_WALL)%Z -> timedelta_seconds n = Ok (n * SECOND)%Z.
Proof.
  intros Hn Hw Hlt. unfold timedelta_seconds. rewrite (proj2 (Z.leb_le _ _)); [done|].
  assert (0 <= n / 86400 <= n)%Z as Hd by (split; [apply Z.div_pos|apply Z.div_le_upper_bound]; lia).
  assert (n <= 999999999 * 86400)%Z by (unfold MAX_WALL, DAY, SECOND in Hlt; lia).
  assert (n / 86400 <= 999999999)%Z by (apply Z.div_le_upper_bound; lia). lia.
Qed.

Lemma timedelta_seconds_value n d : timedelta_seconds n = Ok d -> d = (n * SECOND)%Z.
Proof. unfold timedelta_seconds. case_if; [by intros [= <-]|done]. Qed.

(** ** Properties *)

(** C17: for times at fixed offsets, a confirmation is accepted exactly when it
    names the registered experiment of its own tenant, run, project and site,
    its key is new, it references the registered hash, names a deployed artifact
    and a target, the verifier returned the literal [True], the skew is no
    negative number and leaves the receive time within the calendar, and the
    claimed time lies between the earlier of creation and approval of the
    registration and the receive time plus the skew.

    The lower bound is the earlier of the two times, as the comment in the body
    says; the docstring of [RegistrationView] calls both of them lower bounds
    ([Witness.deployed_before_approval_is_accepted]). *)
Theorem accepted_exactly c v received verifier prior skew a :
  at_fixed_offset received -> at_fixed_offset (dc_confirmed_at c) ->
  at_fixed_offset (rv_created_at v) -> at_fixed_offset (rv_approved_at v) -> (0 <= wall received)%Z ->
  validate_confirmation c v received verifier prior skew = Ok (VAccepted a) <->
  (dc_tenant_id c = rv_tenant_id v /\ dc_run_id c = rv_run_id v /\
   dc_project c = rv_project v /\ dc_site c = rv_site v /\ dc_experiment_id c = rv_experiment_id v) /\
  prior !! dc_idempotency_key c = None /\
  dc_registration_canonical_hash c = rv_registration_canonical_hash v /\
  (is_Some (dc_deployed_commit_sha c) \/ is_Some (dc_artifact_hash c)) /\
  is_Some (dc_deployment_target c) /\
  (exists verify, verifier = Some verify /\ verify c = Ok (PBool true)) /\
  ((0 <= skew)%Z /\ (wall received + skew * SECOND < MAX_WALL)%Z) /\
  (Z.min (instant (rv_created_at v)) (instant (rv_approved_at v)) <= instant (dc_confirmed_at c)
     <= instant received + skew * SECOND)%Z /\
  a = {| ac_confirmation := c; ac_registration_view := v; ac_server_received_at := received;
         ac_content_fingerprint := u "sha256:" ++ hexdigest (dumps (confirmation_dump c)) |}.
Proof.
  intros Hr Hc Hcr Hap Hw. rewrite validate_accepted.
  destruct (fixed_min _ _ Hcr Hap) as (m & Hm & Hmf & Hmi). split.
  - intros [[Hn Hid Hf Hh Ha Ht Hv (e & He & Hb) (d & l & Hs & Hd & Hl & Hfut)] ->].
    pose proof (timedelta_seconds_value _ _ Hd) as ->. destruct (fixed_add _ _ _ Hr Hl) as [Hlf Hli].
    apply datetime_add_Ok in Hl as [Hrange ->]. split_and!; try done; try naive_solver; try lia.
    + rewrite Hm in He. injection He as <-. rewrite fixed_lt in Hb by done. injection Hb as Hb.
      apply bool_decide_eq_false in Hb. lia.
    + rewrite fixed_gt in Hfut by done. injection Hfut as Hg. apply bool_decide_eq_false in Hg. lia.
  - intros (Hid & Hf & Hh & Ha & Ht & Hv & [Hs Hrange] & Htime & ->). split; [|done].
    pose proof (seconds_in_range skew (wall received) Hs Hw Hrange) as Hd.
    assert (0 <= skew * SECOND)%Z as Hpos by (unfold SECOND; lia).
    set (latest := {| wall := (wall received + skew * SECOND)%Z; tz := tz received |}).
    assert (datetime_add received (skew * SECOND) = Ok latest) as Hl by (apply datetime_add_Ok; split; [lia|done]).
    destruct (fixed_add _ _ _ Hr Hl) as [Hlf Hli]. split; try done.
    + split; by apply fixed_aware.
    + exists m. split; [done|]. rewrite fixed_lt by done. f_equal. apply bool_decide_eq_false. lia.
    + exists (skew * SECOND)%Z, latest. split_and!; try done. rewrite fixed_gt by done. f_equal.
      apply bool_decide_eq_false. lia.
Qed.

(** Adding whole days: done, or an overflow past the last date. *)
Lemma days_add d n :
  (0 <= wall d)%Z -> (0 <= n)%Z ->
  (exists d', timedelta_days n = Ok (n * DAY)%Z /\ datetime_add d (n * DAY) = Ok d') \/
  (MAX_WALL <= wall d + n * DAY)%Z /\
  (timedelta_days n = Raise OverflowError \/
   timedelta_days n = Ok (n * DAY)%Z /\ datetime_add d (n * DAY) = Raise OverflowError).
Proof.
  intros Hw Hn. assert (0 <= n * DAY)%Z as Hpos by (unfold DAY, SECOND; lia).
  unfold timedelta_days. destruct (Z.leb_spec (Z.abs n) 999999999) as [Hle|Hgt].
  - destruct (decide (wall d + n * DAY < MAX_WALL)%Z) as [Hlt|Hge].
    + left. eexists. split; [done|]. apply datetime_add_Ok. split; [lia|done].
    + right. split; [lia|]. right. split; [done|]. apply datetime_add_Raise. split; [lia|done].
  - right. split; [unfold MAX_WALL, DAY, SECOND; lia|by left].
Qed.

Lemma datetime_eq_refl d : datetime_eq d d = true.
Proof.
  unfold datetime_eq, datetime_cmp, same_tzinfo. rewrite bool_decide_eq_true_2 by done. cbn.
  by rewrite Z.sub_diag.
Qed.

Lemma view_eq_refl v : view_eq v v = true.
Proof. unfold view_eq. by rewrite !bool_decide_eq_true_2, !datetime_eq_refl. Qed.

(** C35: the measurement window.  From an acceptance anchored at [t], registered
    with approval time [t0], all at fixed offsets: the clock does not start
    exactly when [t] is past [t0] plus the delay; a started window ends exactly
    [window_days] after [t] as instants, whatever the offsets, and is complete
    at the instants from its end on; and the computation fails only by
    overflow, when a date would fall after the year 9999. *)
Theorem window_exact a p :
  let anchor := ac_server_received_at a in
  let approved := rv_approved_at (ac_registration_view a) in
  at_fixed_offset anchor -> at_fixed_offset approved -> (0 <= wall anchor)%Z -> (0 <= wall approved)%Z ->
  make_MeasurementPolicy p = Ok p ->
  let deadline := (instant approved + max_deploy_delay_days p * DAY)%Z in
  match start_measurement_window a (ac_registration_view a) (Some p) with
  | Ok DeploymentLate => (deadline < instant anchor)%Z
  | Ok (Started w) =>
      (instant anchor <= deadline)%Z /\ mw_anchor w = anchor /\ mw_window_days w = window_days p /\
      instant (mw_end w) = (instant anchor + window_days p * DAY)%Z /\
      mw_idempotency_key w = dc_idempotency_key (ac_confirmation a) /\
      mw_content_fingerprint w = ac_content_fingerprint a /\
      forall t, at_fixed_offset t ->
        window_complete w t = Ok (bool_decide (instant anchor + window_days p * DAY <= instant t)%Z)
  | Raise e =>
      e = OverflowError /\
      ((MAX_WALL <= wall approved + max_deploy_delay_days p * DAY)%Z \/
       (MAX_WALL <= wall anchor + window_days p * DAY)%Z)
  end.
Proof.
  intros anchor approved Ha Hap Hwa Hwp Hp deadline.
  unfold make_MeasurementPolicy in Hp. apply seq_Ok in Hp as [Hp%raise_if_Ok _].
  apply orb_false_iff in Hp as [Hdays%Z.leb_gt Hdelay%Z.ltb_ge].
  unfold start_measurement_window. rewrite view_eq_refl. fold anchor approved.
  rewrite (fixed_aware anchor Ha).
  cbn [raise_if negb default from_option id]. unfold mbind, result_bind, _day2_deadline. fold approved.
  destruct (days_add approved (max_deploy_delay_days p) Hwp Hdelay)
    as [(d & Ht & Hd)|[Ho [Ht|[Ht Hd]]]]; unfold mbind, result_bind; rewrite Ht; try rewrite Hd;
    [|by split; [|left]..].
  destruct (fixed_add _ _ _ Hap Hd) as [Hdf Hdi]. rewrite fixed_gt by done.
  case_bool_decide as Hlate; [by unfold deadline; lia|].
  destruct (days_add anchor (window_days p) Hwa ltac:(lia))
    as [(e & Ht' & He)|[Ho [Ht'|[Ht' He]]]]; rewrite Ht'; try rewrite He; [|by split; [|right]..].
  destruct (fixed_add _ _ _ Ha He) as [Hef Hei]. cbn.
  split_and!; [unfold deadline; lia|done..|].
  intros t Hft. unfold window_complete. rewrite (fixed_aware t Hft). cbn [raise_if mw_end].
  unfold mbind, result_bind. rewrite fixed_ge by done. by rewrite Hei.
Qed.
End fixed.

(** In any zone the end keeps the wall clock, so its instant moves by the
    change of the offset in between. *)
Lemma window_end_shift a p w :
  start_measurement_window a (ac_registration_view a) (Some p) = Ok (Started w) ->
  wall (mw_end w) = (wall (ac_server_received_at a) + window_days p * DAY)%Z /\
  instant (mw_end w) = (instant (ac_server_received_at a) + window_days p * DAY
    + (default 0 (offset_of (ac_server_received_at a)) - default 0 (offset_of (mw_end w))))%Z.
Proof.
  unfold start_measurement_window. rewrite view_eq_refl. intros Hs.
  apply seq_Ok in Hs as [_ Hs]. apply seq_Ok in Hs as [_ Hs].
  apply bind_Ok in Hs as (d & _ & Hs). apply bind_Ok in Hs as (late & _ & Hs).
  destruct late; [done|]. apply bind_Ok in Hs as (delta & Ht & Hs).
  apply bind_Ok in Hs as (e & He & [= <-]). cbn [mw_end default from_option id] in *.
  unfold timedelta_days in Ht. destruct (_ <=? _)%Z; [|done]. injection Ht as <-.
  apply datetime_add_Ok in He as [_ ->]. split; [done|]. unfold instant at 1 2. cbn [wall]. lia.
Qed.

(** *** Histories of submissions *)

Record submission := {
  sb_confirmation : DeploymentConfirmation; sb_view : RegistrationView; sb_received : datetime;
  sb_verifier : option Verifier; sb_skew : Z
}.

Definition submit (prior : PriorState) (s : submission) : result pyexn ConfirmationVerdict :=
  validate_confirmation (sb_confirmation s) (sb_view s) (sb_received s) (sb_verifier s) prior (sb_skew s).

(** The caller keeps an accepted verdict under its key. *)
Definition keep (prior : PriorState) (r : result pyexn ConfirmationVerdict) : PriorState :=
  match r with
  | Ok (VAccepted a) => <[dc_idempotency_key (ac_confirmation a) := a]> prior
  | _ => prior
  end.

Fixpoint submissions (h : list submission) (prior : PriorState)
    : list (submission * result pyexn ConfirmationVerdict) :=
  match h with
  | [] => []
  | s :: h => (s, submit prior s) :: submissions h (keep prior (submit prior s))
  end.

Definition key_of (c : DeploymentConfirmation) : pystr := dc_idempotency_key c.

Lemma reject_if_replay b reason c rest r :
  r <> _reject reason c -> reject_if b reason c rest = Ok r -> rest = Ok r.
Proof. destruct b; cbn; [intros Hne Hr; destruct Hne; congruence|done]. Qed.

(** Step past a check that did not answer. *)
Ltac skip Hv Hr := apply reject_if_replay in Hv; [|by apply Hr].

(** A replay is answered from the stored verdict of its key. *)
Lemma validate_replay c v received verifier prior skew r :
  validate_confirmation c v received verifier prior skew = Ok r ->
  (exists a, r = VDuplicate a) \/ r = _reject CONFLICTING_REPLAY c ->
  exists p, prior !! key_of c = Some p /\
    (forall a, r = VDuplicate a -> a = p) /\
    (ac_content_fingerprint p = u "sha256:" ++ hexdigest (dumps (confirmation_dump c)) <->
     r <> _reject CONFLICTING_REPLAY c).
Proof.
  unfold validate_confirmation. rewrite content_fingerprint_total. cbv zeta. intros Hv Ha.
  assert (forall reason, reason <> CONFLICTING_REPLAY -> r <> _reject reason c) as Hr.
  { intros reason Hne ->. destruct Ha as [[a Ha]|[= Ha]]; done. }
  do 3 (skip Hv Hr). unfold mbind at 1, result_bind at 1 in Hv.
  unfold key_of. destruct (prior !! dc_idempotency_key c) as [p|].
  - exists p. split; [done|].
    case_bool_decide as E; injection Hv as <-; (split; [by intros ? [= <-]|]); split; done.
  - exfalso. do 3 (skip Hv Hr).
    destruct verifier as [verify|]; [|injection Hv as <-; by apply (Hr UNTRUSTED_CONFIRMER)].
    apply bind_Ok in Hv as (x & _ & Hv). apply reject_if_replay in Hv; [|by apply Hr].
    apply bind_Ok in Hv as (e & _ & Hv). apply bind_Ok in Hv as (b & _ & Hv).
    apply reject_if_replay in Hv; [|by apply Hr]. apply bind_Ok in Hv as (? & _ & Hv).
    apply bind_Ok in Hv as (? & _ & Hv). apply bind_Ok in Hv as (? & _ & Hv).
    apply bind_Ok in Hv as (? & _ & Hv). apply reject_if_replay in Hv; [|by apply Hr].
    injection Hv as <-. by destruct Ha as [[? ?]|?].
Qed.

(** A submission accepted earlier in the history, or before it. *)
Definition accepted_before (h : list submission) (prior : PriorState) (j : nat) (k : pystr) (a : Accepted)
    : Prop :=
  prior !! k = Some a \/
  exists i s, (i < j)%nat /\ submissions h prior !! i = Some (s, Ok (VAccepted a)) /\
    key_of (sb_confirmation s) = k.

Lemma submit_accepted prior s a :
  submit prior s = Ok (VAccepted a) ->
  ac_confirmation a = sb_confirmation s /\ prior !! key_of (sb_confirmation s) = None /\
  ac_content_fingerprint a = u "sha256:" ++ hexdigest (dumps (confirmation_dump (sb_confirmation s))).
Proof. intros [[] ->]%validate_accepted. by split_and!. Qed.

Lemma submissions_fresh h : forall prior j s a,
  submissions h prior !! j = Some (s, Ok (VAccepted a)) -> prior !! key_of (sb_confirmation s) = None.
Proof.
  induction h as [|s0 h IH]; intros prior [|j] s a; cbn; try done.
  - intros [= <- Hs]. by apply submit_accepted in Hs as (_ & ? & _).
  - intros Hj%IH. unfold keep in Hj. destruct (submit prior s0) as [[a0|r|d]|]; try done.
    apply lookup_insert_None in Hj as [? _]. done.
Qed.

Lemma submissions_replay h : forall prior j s r,
  submissions h prior !! j = Some (s, Ok r) ->
  (exists a, r = VDuplicate a) \/ r = _reject CONFLICTING_REPLAY (sb_confirmation s) ->
  exists p, accepted_before h prior j (key_of (sb_confirmation s)) p /\
    (forall a, r = VDuplicate a -> a = p) /\
    (ac_content_fingerprint p = u "sha256:" ++ hexdigest (dumps (confirmation_dump (sb_confirmation s))) <->
     r <> _reject CONFLICTING_REPLAY (sb_confirmation s)).
Proof.
  induction h as [|s0 h IH]; intros prior [|j] s r; cbn; try done.
  - intros [= <- Hs] Ha. unfold submit in Hs.
    destruct (validate_replay _ _ _ _ _ _ _ Hs Ha) as (p & Hp & Hrest).
    exists p. split; [by left|done].
  - intros Hj Ha. destruct (IH _ _ _ _ Hj Ha) as (p & Hp & Hrest).
    exists p. split; [|done]. destruct Hp as [Hp|(i & s' & Hi & Hs' & Hk)].
    + unfold keep in Hp. destruct (submit prior s0) as [[a0|r0|d0]|] eqn:E0; try by left.
      apply lookup_insert_Some in Hp as [[Hk ->]|[_ Hp]]; [|by left].
      right. exists 0%nat, s0. cbn. rewrite E0. split_and!; [lia|done|].
      apply submit_accepted in E0 as (Hc & _ & _). rewrite <- Hk, Hc. done.
    + right. exists (S i), s'. split_and!; [lia|done|done].
Qed.

Lemma submissions_accepted h : forall prior j s a,
  submissions h prior !! j = Some (s, Ok (VAccepted a)) ->
  ac_confirmation a = sb_confirmation s /\
  ac_content_fingerprint a = u "sha256:" ++ hexdigest (dumps (confirmation_dump (sb_confirmation s))).
Proof.
  induction h as [|s0 h IH]; intros prior [|j] s a; cbn; try done.
  - intros [= <- Hs]. by apply submit_accepted in Hs as (? & _ & ?).
  - intros Hj. by apply IH in Hj.
Qed.

Lemma submissions_distinct h : forall prior i j si sj ai aj, (i < j)%nat ->
  submissions h prior !! i = Some (si, Ok (VAccepted ai)) ->
  submissions h prior !! j = Some (sj, Ok (VAccepted aj)) ->
  key_of (sb_confirmation si) <> key_of (sb_confirmation sj).
Proof.
  induction h as [|s0 h IH]; intros prior [|i] [|j] si sj ai aj Hij; cbn; try done; try lia.
  - intros [= <- Hs] Hj%submissions_fresh. rewrite Hs in Hj. cbn in Hj.
    apply submit_accepted in Hs as (Hc & _). apply lookup_insert_None in Hj as [_ Hne].
    by rewrite <- Hc.
  - apply IH. lia.
Qed.

(** The acceptance a window was started from resolves to that window. *)
Lemma started_resolves a p w :
  start_measurement_window a (ac_registration_view a) p = Ok (Started w) ->
  resolve_duplicate_window w a = Ok w.
Proof.
  unfold start_measurement_window. intros Hs.
  apply seq_Ok in Hs as [_ Hs]. apply seq_Ok in Hs as [_ Hs].
  apply bind_Ok in Hs as (d & _ & Hs). apply bind_Ok in Hs as (late & _ & Hs).
  destruct late; [done|]. apply bind_Ok in Hs as (delta & _ & Hs).
  apply bind_Ok in Hs as (e & _ & [= <-]). unfold resolve_duplicate_window. cbn.
  by rewrite !bool_decide_eq_false_2 by auto.
Qed.

(** one acceptance per key.  In any history of submissions, whatever their
    registrations, verifiers and times: no key is accepted twice; a duplicate
    answers with the one acceptance of its key, whose content it repeats (or
    the two contents are a SHA-256 collision), so it resolves to the window
    already started; and a conflicting replay has other content than the
    acceptance of its key, and changes nothing. *)
Theorem first_acceptance_wins h :
  let answers := submissions h ∅ in
  (forall i j si sj ai aj, i <> j ->
     answers !! i = Some (si, Ok (VAccepted ai)) -> answers !! j = Some (sj, Ok (VAccepted aj)) ->
     key_of (sb_confirmation si) <> key_of (sb_confirmation sj)) /\
  (forall j s a, answers !! j = Some (s, Ok (VDuplicate a)) ->
     (exists i s', (i < j)%nat /\ answers !! i = Some (s', Ok (VAccepted a)) /\
        key_of (sb_confirmation s') = key_of (sb_confirmation s) /\
        (dumps (confirmation_dump (sb_confirmation s')) = dumps (confirmation_dump (sb_confirmation s)) \/
         text_collision (dumps (confirmation_dump (sb_confirmation s')))
           (dumps (confirmation_dump (sb_confirmation s))))) /\
     forall p w, start_measurement_window a (ac_registration_view a) p = Ok (Started w) ->
       resolve_duplicate_window w a = Ok w) /\
  (forall j s, answers !! j = Some (s, Ok (_reject CONFLICTING_REPLAY (sb_confirmation s))) ->
     exists i s' a, (i < j)%nat /\ answers !! i = Some (s', Ok (VAccepted a)) /\
       key_of (sb_confirmation s') = key_of (sb_confirmation s) /\
       dumps (confirmation_dump (sb_confirmation s')) <> dumps (confirmation_dump (sb_confirmation s))).
Proof.
  intros answers. split_and!.
  - assert (forall i j si sj ai aj, (i < j)%nat ->
      answers !! i = Some (si, Ok (VAccepted ai)) -> answers !! j = Some (sj, Ok (VAccepted aj)) ->
      key_of (sb_confirmation si) <> key_of (sb_confirmation sj)) as Hlt.
    { intros i j si sj ai aj Hij Hi Hj. by apply (submissions_distinct _ _ _ _ _ _ _ _ Hij Hi Hj). }
    intros i j si sj ai aj Hne Hi Hj.
    destruct (decide (i < j)%nat); [by eapply Hlt|]. apply not_eq_sym. eapply (Hlt j i); eauto. lia.
  - intros j s a Hj.
    destruct (submissions_replay _ _ _ _ _ Hj ltac:(eauto)) as (p & Hp & Ha & Hfp).
    rewrite (Ha _ eq_refl) in *. split.
    + destruct Hp as [Hp|(i & s' & Hi & Hs' & Hk)]; [by rewrite lookup_empty in Hp|].
      exists i, s'. split_and!; [done..|]. apply hexdigest_eq.
      apply submissions_accepted in Hs' as (_ & Hf).
      apply (app_inv_head (u "sha256:")). rewrite <- Hf. apply Hfp. done.
    + intros pol w Hw. by apply (started_resolves _ _ _ Hw).
  - intros j s Hj.
    destruct (submissions_replay _ _ _ _ _ Hj (or_intror eq_refl))
      as (p & Hp & _ & Hfp).
    destruct Hp as [Hp|(i & s' & Hi & Hs' & Hk)]; [by rewrite lookup_empty in Hp|].
    exists i, s', p. split_and!; [done..|]. intros Heq.
    apply submissions_accepted in Hs' as (_ & Hf). rewrite Heq in Hf. by apply Hfp in Hf.
Qed.
End confirmation.

(** ** The theorems at concrete inputs *)

Module Witness.
#[local] Existing Instance sci_float_repr.
#[local] Existing Instance plain_datetime_json.

(** 2026-03-05T12:00:00 in UTC, as a wall clock. *)
Definition NOON : Z := 739679 * DAY + 43200 * SECOND.

Definition at_utc (w : Z) : datetime := {| wall := w; tz := Some utc |}.
Definition zero_offsets (_ : N) : Z := 0%Z.

Lemma at_utc_fixed w : at_fixed_offset zero_offsets (at_utc w).
Proof. by exists 0%N. Defined.

Definition confirmation1 : DeploymentConfirmation := {|
  dc_experiment_id := u "exp-1"; dc_tenant_id := u "acme"; dc_run_id := u "run-1";
  dc_project := u "web"; dc_site := u "acme.example"; dc_registration_canonical_hash := u "sha256:ab";
  dc_deployment_target := Some (u "prod"); dc_deployed_commit_sha := Some (u "c0ffee");
  dc_artifact_hash := None; dc_confirmed_at := at_utc NOON; dc_idempotency_key := u "k-1";
  dc_confirmer_identity := u "ci@acme"; dc_confirmer_signature := u "sig"
|}.

Definition view1 : RegistrationView := {|
  rv_experiment_id := u "exp-1"; rv_tenant_id := u "acme"; rv_run_id := u "run-1";
  rv_project := u "web"; rv_site := u "acme.example";
  rv_registration_canonical_hash := u "sha256:ab";
  rv_created_at := at_utc (NOON - 2 * DAY); rv_approved_at := at_utc (NOON - DAY)
|}.

Definition trusting : Verifier := fun c => Ok (PBool (bool_decide (dc_confirmer_signature c = u "sig"))).

Definition accepted_in (received : datetime) (v : RegistrationView) : Accepted := {|
  ac_confirmation := confirmation1; ac_registration_view := v; ac_server_received_at := received;
  ac_content_fingerprint := u "sha256:" ++ hexdigest (dumps (confirmation_dump confirmation1))
|}.

Definition received1 : datetime := at_utc (NOON + 60 * SECOND).
Definition accepted1 : Accepted := accepted_in received1 view1.

(** Ahead of the server's clock by more than the skew. *)
Definition early1 : datetime := at_utc (NOON - 301 * SECOND).

Lemma accepted_exactly_witness :
  validate_confirmation confirmation1 view1 received1 (Some trusting) ∅ 300 = Ok (VAccepted accepted1) /\
  validate_confirmation confirmation1 view1 early1 (Some trusting) ∅ 300
  <> Ok (VAccepted (accepted_in early1 view1)).
Proof.
  split.
  - refine (proj2 (accepted_exactly zero_offsets confirmation1 view1 received1 (Some trusting) ∅ 300
      accepted1 (at_utc_fixed _) (at_utc_fixed _) (at_utc_fixed _) (at_utc_fixed _) _) _);
      [by vm_compute|].
    split; [done|]. split; [done|]. split; [done|]. split; [left; eexists; reflexivity|].
    split; [eexists; reflexivity|]. split; [exists trusting; split; [done|by vm_compute]|].
    split; [split; by vm_compute|]. split; [split; by vm_compute|reflexivity].
  - intros Hv.
    refine (_ (proj1 (accepted_exactly zero_offsets confirmation1 view1 early1 (Some trusting) ∅ 300
      (accepted_in early1 view1) (at_utc_fixed _) (at_utc_fixed _) (at_utc_fixed _) (at_utc_fixed _) _) Hv));
      [|by vm_compute].
    intros (_ & _ & _ & _ & _ & _ & _ & [_ Hlate] & _). vm_compute in Hlate. by apply Hlate.
Defined.

(** Seven days from the server's receive time, in the default policy. *)
Lemma window_exact_witness :
  exists w, start_measurement_window accepted1 view1 (Some default_policy) = Ok (Started w) /\
    instant (mw_end w) = (instant received1 + 7 * DAY)%Z.
Proof.
  pose proof (window_exact zero_offsets accepted1 default_policy (at_utc_fixed _) (at_utc_fixed _)
    ltac:(by vm_compute) ltac:(by vm_compute) eq_refl) as Hw.
  cbv zeta in Hw. change (ac_registration_view accepted1) with view1 in Hw.
  destruct (start_measurement_window accepted1 view1 (Some default_policy)) as [[w|]|e] eqn:E.
  - exists w. split; [done|]. by destruct Hw as (_ & _ & _ & He & _).
  - exfalso. vm_compute in Hw. done.
  - exfalso. destruct Hw as [_ [Hw|Hw]]; vm_compute in Hw; by apply Hw.
Defined.

(** A zone whose clocks go forward by one hour between the anchor and the end
    of the window: the end keeps the wall clock, and the window is one hour
    short of seven days. *)
Definition spring_zone : tzinfo := {|
  tz_identity := 7;
  utcoffset w := Some (if (w <? NOON + 3 * DAY)%Z then 3600 * SECOND else 7200 * SECOND)%Z
|}.

Definition received_spring : datetime := {| wall := NOON + 3660 * SECOND; tz := Some spring_zone |}.

Example spring_window_is_an_hour_short :
  match start_measurement_window (accepted_in received_spring view1) view1 None with
  | Ok (Started w) => instant (mw_end w) = (instant received_spring + 7 * DAY - 3600 * SECOND)%Z
  | _ => False
  end.
Proof. vm_compute. reflexivity. Qed.

(** A claimed deployment time before the approval, and after the creation, of
    the registration is accepted: the lower bound is the earlier of the two. *)
Definition before_approval : DeploymentConfirmation := {|
  dc_experiment_id := u "exp-1"; dc_tenant_id := u "acme"; dc_run_id := u "run-1";
  dc_project := u "web"; dc_site := u "acme.example"; dc_registration_canonical_hash := u "sha256:ab";
  dc_deployment_target := Some (u "prod"); dc_deployed_commit_sha := Some (u "c0ffee");
  dc_artifact_hash := None; dc_confirmed_at := at_utc (NOON - 36 * 3600 * SECOND);
  dc_idempotency_key := u "k-1"; dc_confirmer_identity := u "ci@acme"; dc_confirmer_signature := u "sig"
|}.

Example deployed_before_approval_is_accepted :
  datetime_lt (dc_confirmed_at before_approval) (rv_approved_at view1) = Ok true /\
  match validate_confirmation before_approval view1 received1 (Some trusting) ∅ 300 with
  | Ok (VAccepted _) => True
  | _ => False
  end.
Proof. split; vm_compute; [reflexivity|exact I]. Qed.

(** Verdicts are kept by key alone: under a shared state, a tenant whose own
    confirmation reuses the key of another tenant is told of a conflict, and
    cannot confirm its deployment. *)
Definition rival_view : RegistrationView := {|
  rv_experiment_id := u "exp-9"; rv_tenant_id := u "rival"; rv_run_id := u "run-9";
  rv_project := u "web"; rv_site := u "rival.example";
  rv_registration_canonical_hash := u "sha256:cd";
  rv_created_at := at_utc (NOON - 2 * DAY); rv_approved_at := at_utc (NOON - DAY)
|}.

Definition rival_confirmation : DeploymentConfirmation := {|
  dc_experiment_id := u "exp-9"; dc_tenant_id := u "rival"; dc_run_id := u "run-9";
  dc_project := u "web"; dc_site := u "rival.example"; dc_registration_canonical_hash := u "sha256:cd";
  dc_deployment_target := Some (u "prod"); dc_deployed_commit_sha := Some (u "c0ffee");
  dc_artifact_hash := None; dc_confirmed_at := at_utc NOON; dc_idempotency_key := u "k-1";
  dc_confirmer_identity := u "ci@rival"; dc_confirmer_signature := u "sig"
|}.

Definition reason_in (prior : PriorState) : option RejectionReason :=
  match validate_confirmation rival_confirmation rival_view received1 (Some trusting) prior 300 with
  | Ok (VRejected r) => Some (rj_reason_code r)
  | _ => None
  end.

Example foreign_key_conflicts :
  reason_in ∅ = None /\ reason_in {[ u "k-1" := accepted1 ]} = Some CONFLICTING_REPLAY.
Proof. split; vm_compute; reflexivity. Qed.
End Witness.
