(* ===== verification/ConfirmedConsumer.v ===== *)
(** The consumer of [deployment.confirmed.v1]
    (experiment-attribution-service: boundary/confirmed_consumer.py,
    boundary/errors.py, boundary/ports.py).

    One message becomes a [DeploymentConfirmation] of the envelope's tenant,
    which is validated against the registration of that tenant; an acceptance
    is stored and then signalled to the measurement workflow.  The generated
    payload model is the class [PayloadModel]; the registration lookup, the
    caller's prior verdicts and whether a signal is delivered are arguments. *)

From S2P Require Import Prelude PyStr Sha256 PyVal Canonical PyTime MeasurementStore Confirmation.

Inductive boundary_exn :=
  | PayloadValidationError | TenantDuplicationError
  | SignalError | BStore (e : measurement_exn) | BPy (e : pyexn).

Record TransportMetadata := {
  tm_server_received_at : datetime; tm_envelope_tenant_id : pystr; tm_envelope_run_id : pystr
}.

(** The fields of [DeploymentConfirmedV1Payload] that the consumer reads. *)
Record Payload := {
  pl_deployment_id : pystr; pl_experiment_id : pystr; pl_registration_canonical_hash : pystr;
  pl_deployed_commit_sha : option pystr; pl_artifact_hash : option pystr;
  pl_target_kind : pystr; pl_target_identifier : pystr;
  pl_confirmer_identity : pystr; pl_confirmer_method : pystr;
  pl_signature_ref : option pystr; pl_confirmed_at : pystr
}.

(** [DeploymentConfirmedV1Payload.model_validate], [None] for a
    [ValidationError], and [datetime.isoformat]. *)
Class PayloadModel := {
  model_validate : list (pystr * pyval) -> option Payload;
  isoformat : datetime -> pystr
}.

Record RejectionRecord := {
  rr_reason_code : RejectionReason; rr_idempotency_key : pystr; rr_experiment_id : pystr
}.

Inductive ConsumeOutcome :=
  | CAccepted (a : Accepted)
  | CDuplicate (a : Accepted)
  | CRejected (r : RejectionRecord).

Definition RegistrationLookup : Type := pystr -> pystr -> option RegistrationView.

(** The state behind the collaborators: the store, and the signals sent. *)
Record Collaborators := {
  co_store : ConfirmationStore;
  co_signals : list (pystr * pystr * pystr)
}.

Definition empty_collaborators : Collaborators :=
  {| co_store := empty_confirmations; co_signals := [] |}.

Definition _ENVELOPE_IDENTIFIER_FIELDS : list pystr := [u "tenant_id"; u "run_id"].

Definition _reject_payload_tenant_duplication (payload : list (pystr * pyval)) : result boundary_exn unit :=
  raise_if (existsb (fun field => bool_decide (is_Some (dget payload field))) _ENVELOPE_IDENTIFIER_FIELDS)
    TenantDuplicationError.

Section consumer.
Context `{FloatRepr} `{DatetimeJson} `{PayloadModel}.
Context (lookup : RegistrationLookup) (trust_verifier : option Verifier) (allowed_skew_seconds : Z).

Definition _parse_payload (payload : list (pystr * pyval)) : result boundary_exn Payload :=
  match model_validate payload with Some p => Ok p | None => Raise PayloadValidationError end.

Definition lift_b {A} (m : result pyexn A) : result boundary_exn A :=
  try_except m (fun e => Raise (BPy e)).

Definition _to_domain_confirmation (parsed : Payload) (transport : TransportMetadata)
    : result pyexn DeploymentConfirmation :=
  confirmed_at ← parse_zulu (pl_confirmed_at parsed);
  make_DeploymentConfirmation {|
    dc_experiment_id := pl_experiment_id parsed;
    dc_tenant_id := tm_envelope_tenant_id transport;
    dc_run_id := tm_envelope_run_id transport;
    dc_project := pl_target_kind parsed;
    dc_site := pl_target_identifier parsed;
    dc_registration_canonical_hash := pl_registration_canonical_hash parsed;
    dc_deployment_target := Some (pl_target_identifier parsed);
    dc_deployed_commit_sha := pl_deployed_commit_sha parsed;
    dc_artifact_hash := pl_artifact_hash parsed;
    dc_confirmed_at := confirmed_at;
    dc_idempotency_key := pl_deployment_id parsed;
    dc_confirmer_identity := pl_confirmer_identity parsed;
    dc_confirmer_signature := default (pl_confirmer_method parsed) (pl_signature_ref parsed)
  |}.

(** The fields of [confirmation.model_dump(mode="json")]. *)
Definition dump_fields (c : DeploymentConfirmation) : list (pystr * pyval) :=
  match confirmation_dump c with PDict kvs => kvs | _ => [] end.

Definition record_of (c : DeploymentConfirmation) : ConfirmationRecord := {|
  cr_tenant_id := dc_tenant_id c;
  cr_confirmation_key := dc_idempotency_key c;
  cr_measurement_kind := u "deployment_confirmation";
  cr_payload := dump_fields c
|}.

Definition signal_of (a : Accepted) : pystr * pystr * pystr :=
  (dc_tenant_id (ac_confirmation a), dc_experiment_id (ac_confirmation a),
   isoformat (ac_server_received_at a)).

(** [delivered] is whether [signal_confirmed] returns; otherwise it raises. *)
Definition _apply_accepted (accepted : Accepted) (delivered : bool)
    : M Collaborators boundary_exn ConsumeOutcome := fun st =>
  let c := ac_confirmation accepted in
  match record ← make_ConfirmationRecord (record_of c);
        put_confirmation (dc_tenant_id c) (dc_idempotency_key c) record (co_store st) with
  | Raise e => (st, Raise (BStore e))
  | Ok (store, _) =>
      if delivered then
        ({| co_store := store; co_signals := co_signals st ++ [signal_of accepted] |},
         Ok (CAccepted accepted))
      else ({| co_store := store; co_signals := co_signals st |}, Raise SignalError)
  end.

Definition _to_rejection_record (rejected : Rejected) : RejectionRecord := {|
  rr_reason_code := rj_reason_code rejected; rr_idempotency_key := rj_idempotency_key rejected;
  rr_experiment_id := rj_experiment_id rejected
|}.

Definition consume (payload : list (pystr * pyval)) (transport : TransportMetadata)
    (prior_state : PriorState) (delivered : bool) : M Collaborators boundary_exn ConsumeOutcome :=
  _ ← lift (_reject_payload_tenant_duplication payload);
  parsed ← lift (_parse_payload payload);
  confirmation ← lift (lift_b (_to_domain_confirmation parsed transport));
  match lookup (tm_envelope_tenant_id transport) (pl_registration_canonical_hash parsed) with
  | None =>
      mret (CRejected {| rr_reason_code := UNKNOWN_REGISTRATION;
                         rr_idempotency_key := dc_idempotency_key confirmation;
                         rr_experiment_id := dc_experiment_id confirmation |})
  | Some registration_view =>
      verdict ← lift (lift_b (validate_confirmation confirmation registration_view
        (tm_server_received_at transport) trust_verifier prior_state allowed_skew_seconds));
      match verdict with
      | VAccepted a => _apply_accepted a delivered
      | VDuplicate a => mret (CDuplicate a)
      | VRejected r => mret (CRejected (_to_rejection_record r))
      end
  end.
End consumer.

(** ** Lemmas *)

Section laws.
Context `{FloatRepr} `{DatetimeJson} `{PayloadModel}.

(** One message, with the verdicts the caller knows and the fate of its signal. *)
Record message := {
  ms_payload : list (pystr * pyval); ms_transport : TransportMetadata;
  ms_prior : PriorState; ms_delivered : bool
}.

Section config.
Context (lookup : RegistrationLookup) (trust_verifier : option Verifier) (skew : Z).

Definition consume1 (m : message) : M Collaborators boundary_exn ConsumeOutcome :=
  consume lookup trust_verifier skew (ms_payload m) (ms_transport m) (ms_prior m) (ms_delivered m).

(** The acceptance of a message: the confirmation it carries, of the
    envelope's tenant and run, validated against that tenant's registration. *)
Record accepts_message (m : message) (a : Accepted) : Prop := {
  am_no_identifiers : _reject_payload_tenant_duplication (ms_payload m) = Ok tt;
  am_parsed : exists p, model_validate (ms_payload m) = Some p /\
    _to_domain_confirmation p (ms_transport m) = Ok (ac_confirmation a) /\
    lookup (tm_envelope_tenant_id (ms_transport m)) (pl_registration_canonical_hash p)
      = Some (ac_registration_view a);
  am_tenant : dc_tenant_id (ac_confirmation a) = tm_envelope_tenant_id (ms_transport m);
  am_valid : validate_confirmation (ac_confirmation a) (ac_registration_view a)
    (tm_server_received_at (ms_transport m)) trust_verifier (ms_prior m) skew = Ok (VAccepted a)
}.

Lemma to_domain_identity p transport c :
  _to_domain_confirmation p transport = Ok c ->
  dc_tenant_id c = tm_envelope_tenant_id transport /\ dc_run_id c = tm_envelope_run_id transport /\
  dc_tenant_id c <> [] /\ dc_idempotency_key c <> [].
Proof.
  unfold _to_domain_confirmation. intros (t & _ & Hc)%bind_Ok.
  apply seq_Ok in Hc as (Hb%raise_if_Ok & Hc). apply seq_Ok in Hc as [_ [= <-]].
  cbn in Hb. bprop. cbn. split_and!; try done; tauto.
Qed.

Lemma lift_b_Ok {A} (m : result pyexn A) x : lift_b m = Ok x <-> m = Ok x.
Proof. destruct m; cbn; naive_solver. Qed.

Lemma duplication_answer payload :
  _reject_payload_tenant_duplication payload = Ok tt \/
  _reject_payload_tenant_duplication payload = Raise TenantDuplicationError.
Proof.
  unfold _reject_payload_tenant_duplication. destruct (existsb _ _); [by right|by left].
Qed.

(** What one message does. *)
Lemma consume_cases m st st' r :
  consume1 m st = (st', r) ->
  (exists a, accepts_message m a /\ _apply_accepted a (ms_delivered m) st = (st', r)) \/
  (st' = st /\
   match r with
   | Ok (CAccepted _) => False
   | Ok (CDuplicate a) => exists k, ms_prior m !! k = Some a
   | Ok (CRejected _) => True
   | Raise TenantDuplicationError =>
       _reject_payload_tenant_duplication (ms_payload m) = Raise TenantDuplicationError
   | Raise PayloadValidationError => model_validate (ms_payload m) = None
   | Raise (BPy _) => True
   | Raise _ => False
   end).
Proof.
  unfold consume1, consume. intros Hc.
  apply M_bind_inv in Hc as [(s1 & [] & Hd & Hc)|(e & Hd & ->)]; apply lift_inv in Hd as [-> Hd].
  2: { right. split; [done|]. destruct (duplication_answer (ms_payload m)) as [E|E]; [congruence|].
       rewrite E in Hd. by simplify_eq. }
  apply M_bind_inv in Hc as [(s1 & p & Hp & Hc)|(e & Hp & ->)]; apply lift_inv in Hp as [-> Hp];
    unfold _parse_payload in Hp; destruct (model_validate (ms_payload m)) as [p'|] eqn:Em; try done.
  2: { simplify_eq. by right. }
  injection Hp as <-.
  apply M_bind_inv in Hc as [(s1 & c & Hd' & Hc)|(e & Hd' & ->)]; apply lift_inv in Hd' as [-> Hd'].
  2: { right. split; [done|]. destruct (_to_domain_confirmation p (ms_transport m)); cbn in Hd'; by inversion Hd'. }
  symmetry in Hd'. apply lift_b_Ok in Hd'. destruct (lookup _ _) as [v|] eqn:El.
  2: { apply mret_inv in Hc as [-> ->]. by right. }
  apply M_bind_inv in Hc as [(s1 & verdict & Hv & Hc)|(e & Hv & ->)]; apply lift_inv in Hv as [-> Hv].
  2: { right. split; [done|]. destruct (validate_confirmation _ _ _ _ _ _); cbn in Hv; by inversion Hv. }
  symmetry in Hv. apply lift_b_Ok in Hv. destruct verdict as [a|rj|a].
  - left. exists a. split; [|done].
    pose proof Hv as Hv'. apply validate_accepted in Hv' as [_ Ha].
    assert (ac_confirmation a = c) as Hac by (by rewrite Ha).
    assert (ac_registration_view a = v) as Hav by (by rewrite Ha).
    split; rewrite ?Hac, ?Hav; [congruence| |by apply to_domain_identity in Hd' as (? & _)|done].
    exists p. by split_and!.
  - apply mret_inv in Hc as [-> ->]. by right.
  - apply mret_inv in Hc as [-> ->]. right. split; [done|].
    destruct (validate_replay _ _ _ _ _ _ _ Hv ltac:(eauto)) as (p0 & Hp0 & Ha & _).
    rewrite (Ha a eq_refl). by eexists.
Qed.

Lemma accepts_message_inj m a b : accepts_message m a -> accepts_message m b -> a = b.
Proof.
  intros [_ (p & Hp & Hc & Hv) _ Ha] [_ (q & Hq & Hc' & Hv') _ Hb].
  assert (p = q) as -> by congruence. rewrite Hc in Hc'. injection Hc' as Hc'.
  rewrite Hv in Hv'. injection Hv' as Hv'. rewrite Hc', Hv' in Ha. rewrite Ha in Hb. by injection Hb.
Qed.

(** What applying an acceptance does: the write, then the signal. *)
Lemma apply_accepted_cases a delivered st st' r :
  _apply_accepted a delivered st = (st', r) ->
  (exists e, r = Raise (BStore e) /\ st' = st) \/
  (exists p, put_confirmation (dc_tenant_id (ac_confirmation a)) (dc_idempotency_key (ac_confirmation a))
               (record_of (ac_confirmation a)) (co_store st) = Ok (co_store st', p) /\
     ((delivered = true /\ r = Ok (CAccepted a) /\ co_signals st' = co_signals st ++ [signal_of a]) \/
      (delivered = false /\ r = Raise SignalError /\ co_signals st' = co_signals st))).
Proof.
  unfold _apply_accepted. destruct (_ ← make_ConfirmationRecord _; _) as [[store p]|e] eqn:Ep.
  - apply bind_Ok in Ep as (rec & Hrec & Hput).
    assert (rec = record_of (ac_confirmation a)) as ->.
    { unfold make_ConfirmationRecord in Hrec. do 3 apply seq_Ok in Hrec as [_ Hrec].
      by injection Hrec. }
    right. exists p. destruct delivered; simplify_eq/=; split; auto.
  - intros [= <- <-]. left. by exists e.
Qed.

Fixpoint run_messages (ms : list message) (st : Collaborators)
    : list (message * result boundary_exn ConsumeOutcome) * Collaborators :=
  match ms with
  | [] => ([], st)
  | m :: ms =>
      let '(st', r) := consume1 m st in
      let '(answers, st'') := run_messages ms st' in ((m, r) :: answers, st'')
  end.

(** A message that wrote: it was accepted, its signal delivered or not. *)
Definition wrote (mr : message * result boundary_exn ConsumeOutcome) (a : Accepted) : Prop :=
  accepts_message mr.1 a /\ (mr.2 = Ok (CAccepted a) \/ mr.2 = Raise SignalError).

(** [stored c st]: the store holds the content of [c] under its key. *)
Definition stored (c : DeploymentConfirmation) (st : Collaborators) : Prop :=
  exists r, get_confirmation (dc_tenant_id c) (dc_idempotency_key c) (co_store st) = Ok r /\
    _confirmation_fingerprint r = _confirmation_fingerprint (record_of c).

(** The stores of the consumer are stores of confirmation writes. *)
Definition reachable_store (st : Collaborators) : Prop :=
  exists ops, co_store st = st_confirmations (run_ops ops empty_stores).

Lemma put_reachable st t key r c p :
  reachable_store st -> put_confirmation t key r (co_store st) = Ok (c, p) ->
  exists ops, c = st_confirmations (run_ops ops empty_stores).
Proof.
  intros [ops Hst] Hput. exists (ops ++ [PutConfirmation t key r]). unfold run_ops in *.
  rewrite fold_left_app. cbn. by rewrite <- Hst, Hput.
Qed.

(** Applying an acceptance stores its content and keeps what was stored. *)
Lemma apply_stored a delivered st st' r :
  reachable_store st -> _apply_accepted a delivered st = (st', r) ->
  reachable_store st' /\ (forall c, stored c st -> stored c st') /\
  (r = Ok (CAccepted a) \/ r = Raise SignalError -> stored (ac_confirmation a) st').
Proof.
  intros Hreach Happly. destruct (apply_accepted_cases _ _ _ _ _ Happly)
    as [(e & -> & ->)|(p & Hput & Hr)]; [split_and!; [done|done|naive_solver]|].
  split_and!.
  - by eapply put_reachable.
  - intros c (r0 & Hg & Hf). exists r0. split; [|done].
    destruct Hreach as [ops Hst]. pose proof (stores_ops_wf ops) as [Hwf _ _ _]. rewrite <- Hst in Hwf.
    unfold get_confirmation in *. eapply seq_get_Ok; [|exact Hg]. intros x.
    apply put_confirmation_Ok in Hput as (_ & _ & _ & fp & ks & _ & Hks & Heq).
    eapply (extends_get (fun _ => True)). rewrite Heq. by eapply extends_put.
  - intros _. destruct Hreach as [ops Hst]. destruct (reachable_state ops) as (j & Hj & Hs).
    rewrite Hs in Hst. rewrite Hst in Hput. by eapply put_confirmation_content.
Qed.

Lemma run_stored ms : forall st answers st',
  reachable_store st -> run_messages ms st = (answers, st') ->
  reachable_store st' /\ (forall c, stored c st -> stored c st') /\
  (forall i mr a, answers !! i = Some mr -> wrote mr a -> stored (ac_confirmation a) st').
Proof.
  induction ms as [|m ms IH]; intros st answers st' Hreach; cbn [run_messages].
  { intros [= <- <-]. by split_and!. }
  destruct (consume1 m st) as [st1 r] eqn:Ec. destruct (run_messages ms st1) as [l st2] eqn:Er.
  intros [= <- <-]. pose proof (consume_cases _ _ _ _ Ec) as Hcase.
  assert (reachable_store st1 /\ (forall c, stored c st -> stored c st1) /\
          (forall a, wrote (m, r) a -> stored (ac_confirmation a) st1)) as (Hr1 & Hmono & Hw).
  { destruct Hcase as [(a & Ha & Happly)|(-> & Hans)].
    - destruct (apply_stored _ _ _ _ _ Hreach Happly) as (? & ? & Hst). split_and!; [done..|].
      intros a' [Ha' Hr']. cbn in Ha', Hr'. rewrite (accepts_message_inj _ _ _ Ha' Ha) in *. auto.
    - split_and!; [done..|]. intros a [_ [Hr|Hr]]; cbn in Hr; subst r; done. }
  destruct (IH _ _ _ Hr1 Er) as (Hr2 & Hmono2 & Hw2). split_and!; [done|auto|].
  intros [|i] mr a; cbn; [intros [= <-] Hwr; auto|apply Hw2].
Qed.

(** The signals of a list of answers. *)
Definition signals_of (answers : list (message * result boundary_exn ConsumeOutcome))
    : list (pystr * pystr * pystr) :=
  omap (fun mr => match mr.2 with Ok (CAccepted a) => Some (signal_of a) | _ => None end) answers.

Lemma consume_signals m st st' r :
  consume1 m st = (st', r) ->
  co_signals st' = co_signals st ++ signals_of [(m, r)].
Proof.
  intros Hc. destruct (consume_cases _ _ _ _ Hc) as [(a & _ & Happly)|(-> & Hans)].
  - destruct (apply_accepted_cases _ _ _ _ _ Happly)
      as [(e & -> & ->)|(p & _ & [(_ & -> & ->)|(_ & -> & ->)])]; cbn; by rewrite ?app_nil_r.
  - destruct r as [[a|a|rj]|e]; cbn; by rewrite ?app_nil_r.
Qed.

Lemma run_signals ms : forall st answers st',
  run_messages ms st = (answers, st') -> co_signals st' = co_signals st ++ signals_of answers.
Proof.
  induction ms as [|m ms IH]; intros st answers st'; cbn [run_messages].
  { intros [= <- <-]. cbn. by rewrite app_nil_r. }
  destruct (consume1 m st) as [st1 r] eqn:Ec. destruct (run_messages ms st1) as [l st2] eqn:Er.
  intros [= <- <-]. rewrite (IH _ _ _ Er), (consume_signals _ _ _ _ Ec), <- app_assoc.
  f_equal. by destruct r as [[]|].
Qed.

Lemma run_answers ms : forall st i m r,
  (run_messages ms st).1 !! i = Some (m, r) -> exists st1 st2, consume1 m st1 = (st2, r).
Proof.
  induction ms as [|m0 ms IH]; intros st i m r; cbn [run_messages]; [done|].
  destruct (consume1 m0 st) as [st1 r0] eqn:Ec. destruct (run_messages ms st1) as [l st2] eqn:Er.
  destruct i as [|i]; cbn; [intros [= <- <-]; by eexists _, _|].
  intros Hi. apply (IH st1 i). by rewrite Er.
Qed.

(** An acceptance answers a message that wrote. *)
Lemma accepted_wrote m r st st' a :
  consume1 m st = (st', r) -> r = Ok (CAccepted a) -> wrote (m, r) a.
Proof.
  intros Hc ->. destruct (consume_cases _ _ _ _ Hc) as [(a' & Ha & Happly)|(_ & [])].
  destruct (apply_accepted_cases _ _ _ _ _ Happly)
    as [(e & [=] & _)|(p & _ & [(_ & [= <-] & _)|(_ & [=] & _)])]. by split; [|left].
Qed.

(** The verdicts a caller knows that keeps every acceptance it was answered. *)
Definition known (answers : list (message * result boundary_exn ConsumeOutcome)) : PriorState :=
  fold_left (fun p mr => match mr.2 with
                         | Ok (CAccepted a) => <[dc_idempotency_key (ac_confirmation a) := a]> p
                         | _ => p
                         end) answers ∅.

Lemma known_lookup answers i m a :
  answers !! i = Some (m, Ok (CAccepted a)) ->
  is_Some (known answers !! dc_idempotency_key (ac_confirmation a)).
Proof.
  unfold known. revert i. induction answers as [|mr answers IH] using rev_ind; intros i Hi; [done|].
  rewrite fold_left_app. cbn. apply lookup_app_Some in Hi as [Hi|[_ Hi]].
  - apply IH in Hi. destruct mr as [m' [[b|b|rj]|e]]; cbn; try done.
    destruct (decide (dc_idempotency_key (ac_confirmation b) = dc_idempotency_key (ac_confirmation a))) as [->|].
    + by rewrite lookup_insert_eq.
    + by rewrite lookup_insert_ne.
  - apply list_lookup_singleton_Some in Hi as [_ ->]. cbn. by rewrite lookup_insert_eq.
Qed.

(** ** Properties *)

(** C22: what is signalled is stored.  Over any history of messages, with
    whatever prior verdicts and undelivered signals: the signals sent are
    those of the accepted messages, in order; every accepted message, and
    every one whose signal failed, carried a confirmation of its envelope's
    tenant that was validated against a registration of that tenant, and its
    content is the content the store holds at the end; so two such messages of
    one tenant and key carry the same content. *)
Theorem signalled_content_is_stored ms :
  let '(answers, st) := run_messages ms empty_collaborators in
  co_signals st = signals_of answers /\
  (forall i m r a, answers !! i = Some (m, r) -> r = Ok (CAccepted a) -> wrote (m, r) a) /\
  (forall i mr a, answers !! i = Some mr -> wrote mr a ->
     dc_tenant_id (ac_confirmation a) = tm_envelope_tenant_id (ms_transport mr.1) /\
     (exists hash, lookup (tm_envelope_tenant_id (ms_transport mr.1)) hash = Some (ac_registration_view a)) /\
     acceptance (ac_confirmation a) (ac_registration_view a)
       (tm_server_received_at (ms_transport mr.1)) trust_verifier (ms_prior mr.1) skew /\
     stored (ac_confirmation a) st) /\
  (forall i j mi mj a b, answers !! i = Some mi -> answers !! j = Some mj -> wrote mi a -> wrote mj b ->
     dc_tenant_id (ac_confirmation a) = dc_tenant_id (ac_confirmation b) ->
     dc_idempotency_key (ac_confirmation a) = dc_idempotency_key (ac_confirmation b) ->
     _confirmation_fingerprint (record_of (ac_confirmation a))
     = _confirmation_fingerprint (record_of (ac_confirmation b))).
Proof.
  destruct (run_messages ms empty_collaborators) as [answers st] eqn:Er.
  destruct (run_stored ms empty_collaborators answers st) as (_ & _ & Hst); [by exists []|done|].
  split_and!.
  - by rewrite (run_signals _ _ _ _ Er).
  - intros i m r a Hi Ha. destruct (run_answers ms empty_collaborators i m r) as (s1 & s2 & Hc);
      [by rewrite Er|]. by eapply accepted_wrote.
  - intros i mr a Hi Hw. pose proof (Hst _ _ _ Hi Hw) as Hs. destruct Hw as [[_ (p & _ & _ & Hv) Ht Ha] _].
    split_and!; [done|by eexists| |done]. by apply validate_accepted in Ha as [Ha _].
  - intros i j mi mj a b Hi Hj Ha Hb Ht Hk.
    destruct (Hst _ _ _ Hi Ha) as (r & Hr & <-), (Hst _ _ _ Hj Hb) as (r' & Hr' & <-). congruence.
Qed.

(** No double signal.  When the caller gives each message the acceptances
    answered before it, no idempotency key is accepted, and so signalled,
    twice. *)
Theorem signalled_once ms :
  let '(answers, st) := run_messages ms empty_collaborators in
  (forall i m r, answers !! i = Some (m, r) -> ms_prior m = known (firstn i answers)) ->
  forall i j mi mj a b, i <> j ->
    answers !! i = Some (mi, Ok (CAccepted a)) -> answers !! j = Some (mj, Ok (CAccepted b)) ->
    dc_idempotency_key (ac_confirmation a) <> dc_idempotency_key (ac_confirmation b).
Proof.
  destruct (run_messages ms empty_collaborators) as [answers st] eqn:Er. intros Hsync.
  assert (forall i j mi mj a b, (i < j)%nat ->
    answers !! i = Some (mi, Ok (CAccepted a)) -> answers !! j = Some (mj, Ok (CAccepted b)) ->
    dc_idempotency_key (ac_confirmation a) <> dc_idempotency_key (ac_confirmation b)) as Hlt.
  { intros i j mi mj a b Hij Hi Hj Hk.
    destruct (run_answers ms empty_collaborators j mj (Ok (CAccepted b))) as (s1 & s2 & Hc); [by rewrite Er|].
    destruct (accepted_wrote _ _ _ _ b Hc eq_refl) as [[_ _ _ Hv] _]. cbn in Hv.
    apply validate_accepted in Hv as [[_ _ Hfresh _ _ _ _ _ _] _].
    rewrite (Hsync _ _ _ Hj), <- Hk in Hfresh.
    destruct (known_lookup (firstn j answers) i mi a) as [x Hx]; [|congruence].
    by rewrite lookup_take_lt. }
  intros i j mi mj a b Hne Hi Hj. destruct (decide (i < j)%nat); [by eapply Hlt|].
  apply not_eq_sym. eapply (Hlt j i); eauto. lia.
Qed.
End config.
End laws.

(** ** The theorems at concrete inputs *)

Module Witness.
#[local] Existing Instance sci_float_repr.
#[local] Existing Instance plain_datetime_json.

Definition text_at (kvs : list (pystr * pyval)) (k : string) : option pystr :=
  match dget kvs (u k) with Some (PStr s) => Some s | _ => None end.

Definition dict_at (kvs : list (pystr * pyval)) (k : string) : option (list (pystr * pyval)) :=
  match dget kvs (u k) with Some (PDict d) => Some d | _ => None end.

(** A payload model that reads the fields and their types. *)
Definition plain_model : PayloadModel := {|
  model_validate kvs :=
    id_ ← text_at kvs "deployment_id";
    reg ← dict_at kvs "registration_ref"; exp ← text_at reg "experiment_id";
    hash ← text_at reg "registration_canonical_hash";
    target ← dict_at kvs "deployment_target"; kind ← text_at target "kind";
    identifier ← text_at target "identifier";
    who ← dict_at kvs "confirmer"; identity ← text_at who "identity"; method ← text_at who "method";
    at_ ← text_at kvs "confirmed_at";
    Some {| pl_deployment_id := id_; pl_experiment_id := exp; pl_registration_canonical_hash := hash;
            pl_deployed_commit_sha := text_at kvs "deployed_commit_sha";
            pl_artifact_hash := text_at kvs "artifact_hash";
            pl_target_kind := kind; pl_target_identifier := identifier;
            pl_confirmer_identity := identity; pl_confirmer_method := method;
            pl_signature_ref := text_at who "signature_ref"; pl_confirmed_at := at_ |};
  isoformat := render_datetime
|}.
#[local] Existing Instance plain_model.

Definition payload1 (id_ sha : string) : list (pystr * pyval) :=
  [(u "deployment_id", PStr (u id_));
   (u "registration_ref", PDict [(u "experiment_id", PStr (u "exp-1"));
      (u "registration_canonical_hash", PStr (u "sha256:ab"))]);
   (u "deployed_commit_sha", PStr (u sha));
   (u "deployment_target", PDict [(u "kind", PStr (u "web")); (u "identifier", PStr (u "acme.example"))]);
   (u "confirmer", PDict [(u "identity", PStr (u "ci@acme")); (u "method", PStr (u "sig"))]);
   (u "confirmed_at", PStr (u "2026-03-05T12:00:00Z"))].

Definition transport1 : TransportMetadata := {|
  tm_server_received_at := Confirmation.Witness.received1;
  tm_envelope_tenant_id := u "acme"; tm_envelope_run_id := u "run-1"
|}.

Definition lookup1 : RegistrationLookup := fun t h =>
  if bool_decide (t = u "acme") && bool_decide (h = u "sha256:ab")
  then Some Confirmation.Witness.view1 else None.

Definition verifier1 : option Verifier := Some Confirmation.Witness.trusting.

Definition first_message : message := {|
  ms_payload := payload1 "d-1" "c0ffee"; ms_transport := transport1; ms_prior := ∅; ms_delivered := true
|}.

Definition answer_kinds (ms : list message) : list string :=
  (fun mr => match mr.2 with
             | Ok (CAccepted _) => "accepted" | Ok (CDuplicate _) => "duplicate"
             | Ok (CRejected _) => "rejected"
             | Raise SignalError => "signal error"
             | Raise (BStore IdempotencyConflictError) => "conflict"
             | Raise _ => "refused" end%string)
    <$> (run_messages lookup1 verifier1 300 ms empty_collaborators).1.

Definition signal_count (ms : list message) : nat :=
  length (co_signals (run_messages lookup1 verifier1 300 ms empty_collaborators).2).

(** The acceptances the caller kept from the first message. *)
Definition prior1 : PriorState :=
  known ((run_messages lookup1 verifier1 300 [first_message] empty_collaborators).1).

Definition with_prior (m : message) (p : PriorState) : message :=
  {| ms_payload := ms_payload m; ms_transport := ms_transport m; ms_prior := p;
     ms_delivered := ms_delivered m |}.

Definition other_message : message := {|
  ms_payload := payload1 "d-2" "c0ffee"; ms_transport := transport1; ms_prior := prior1;
  ms_delivered := true
|}.

Definition history1 : list message := [first_message; other_message].

(** A redelivery to a caller that lost its verdicts is accepted and signalled
    again, other content is stopped by the store. *)
Example forgetful_caller :
  answer_kinds [first_message; first_message;
     {| ms_payload := payload1 "d-1" "beef"; ms_transport := transport1; ms_prior := ∅;
        ms_delivered := true |}]
  = ["accepted"; "accepted"; "conflict"]%string.
Proof. vm_compute. reflexivity. Qed.

(** A signal that fails is lost when the caller rebuilds its verdicts from the
    store: the redelivery is a duplicate, and nothing is ever signalled. *)
Example failed_signal_is_lost :
  let failed := {| ms_payload := payload1 "d-1" "c0ffee"; ms_transport := transport1; ms_prior := ∅;
                   ms_delivered := false |} in
  answer_kinds [failed; with_prior first_message prior1] = ["signal error"; "duplicate"]%string /\
  signal_count [failed; with_prior first_message prior1] = 0%nat.
Proof. split; vm_compute; reflexivity. Qed.

Definition answers1 : list (message * result boundary_exn ConsumeOutcome) :=
  (run_messages lookup1 verifier1 300 history1 empty_collaborators).1.

Definition key_at (i : nat) : option pystr :=
  match answers1 !! i with
  | Some (_, Ok (CAccepted a)) => Some (dc_idempotency_key (ac_confirmation a))
  | _ => None
  end.

Lemma key_at_Some i k :
  key_at i = Some k ->
  exists m a, answers1 !! i = Some (m, Ok (CAccepted a)) /\ dc_idempotency_key (ac_confirmation a) = k.
Proof.
  unfold key_at. destruct (answers1 !! i) as [[m [[a|a|r]|e]]|]; try done. intros [= <-]. by exists m, a.
Defined.

Lemma answers1_sync i m r : answers1 !! i = Some (m, r) -> ms_prior m = known (firstn i answers1).
Proof.
  unfold answers1, history1. cbn [run_messages].
  destruct (consume1 lookup1 verifier1 300 first_message empty_collaborators) as [st1 r1] eqn:E1.
  destruct (consume1 lookup1 verifier1 300 other_message st1) as [st2 r2].
  destruct i as [|[|i]]; cbn; [by intros [= <- <-]| |by destruct i]. intros [= <- <-]. cbn.
  unfold prior1. cbn [run_messages]. by rewrite E1.
Defined.

Lemma signalled_once_witness : exists k k', key_at 0 = Some k /\ key_at 1 = Some k' /\ k <> k'.
Proof.
  pose proof (signalled_once lookup1 verifier1 300 history1) as Honce.
  pose proof answers1_sync as Hsync.
  assert (key_at 0 = Some (u "d-1")) as H0 by (vm_compute; reflexivity).
  assert (key_at 1 = Some (u "d-2")) as H1 by (vm_compute; reflexivity).
  exists (u "d-1"), (u "d-2"). split; [exact H0|]. split; [exact H1|].
  apply key_at_Some in H0 as (m0 & a0 & Ha0 & <-). apply key_at_Some in H1 as (m1 & a1 & Ha1 & <-).
  unfold answers1 in *. destruct (run_messages lookup1 verifier1 300 history1 empty_collaborators).
  exact (Honce Hsync 0%nat 1%nat m0 m1 a0 a1 (Nat.neq_succ_diag_r 0) Ha0 Ha1).
Defined.
End Witness.
