(* ===== verification/Pipeline.v ===== *)
(** The measurement pipeline (pipeline/orchestrator.py, outcome.py, inputs.py of
    the experiment-attribution service): [run_measurement] composes readiness,
    binding, confirmation and window, the estimator and the gate, seals the
    evidence and stores the outcome.

    The ports are the in-memory adapters of [MeasurementStore].  What a run
    accumulates is a [RunState]; its set [present_kinds] is always the set of
    the kinds of its entries, from which it is computed here. *)

From S2P Require Import ConfirmedConsumer.
From S2P Require Import Prelude PyStr Sha256 PyVal Canonical PyTime.
From S2P Require Import Did Grs Evidence Experiment Binding BGate MeasurementStore Confirmation.

(** ** outcome.py, errors.py, inputs.py *)

Inductive OutcomeStatus := Pass | Fail | Undetermined.
#[export] Instance OutcomeStatus_eq_dec : EqDecision OutcomeStatus.
Proof. solve_decision. Defined.

Definition status_value (s : OutcomeStatus) : pystr :=
  match s with Pass => u "pass" | Fail => u "fail" | Undetermined => u "undetermined" end.

Definition from_b_verdict (v : BVerdict) : OutcomeStatus :=
  match v with BGate.PASS => Pass | BGate.FAIL => Fail | BGate.UNDETERMINED => Undetermined end.

Definition verdict_value (v : BVerdict) : pystr := status_value (from_b_verdict v).

(** What a run raises: its own [PipelineError], and what the calls it makes let
    through. *)
Inductive pipeline_exn :=
  | PipelineError
  | ModelError
  | PyError (e : pyexn)
  | EvidenceError (e : evidence_exn)
  | StoreError (e : measurement_exn).

Record MeasurementPolicies := {
  weights : WeightsPolicy; did_policy : DiDPolicy; gate_policy : GatePolicy;
  clock_policy : Confirmation.MeasurementPolicy; grs_bundle : option GrsPolicyBundle;
  trust_verifier : option Verifier; allowed_confirmation_skew_seconds : Z
}.

Record MeasurementInputs := {
  mi_tenant_id : pystr; mi_run_id : pystr; mi_experiment_id : pystr;
  registration : option ExperimentRegistration; registration_view : RegistrationView;
  submission : MeasurementSubmission; mi_signals : list SignalSeries;
  deployment_confirmation : DeploymentConfirmation; server_received_at : datetime;
  evaluation_at : datetime; prior_confirmations : PriorState; grs_inputs : list (pystr * pyval);
  baseline_evidence : list (pystr * EvidenceMetadata);
  treatment_evidence : list (pystr * EvidenceMetadata);
  control_evidence : list (pystr * EvidenceMetadata)
}.

Record ExperimentOutcome := {
  eo_tenant_id : pystr; eo_run_id : pystr; eo_experiment_id : pystr; eo_status : OutcomeStatus;
  eo_reason_codes : list ReasonCode; eo_qualifying_layers : list pystr; eo_raw_view : list pystr;
  eo_control_adjusted_view : list pystr; eo_b_gate_decision : option BGateDecision;
  eo_grs_decision : option GrsDecision; eo_evidence_bundle_ref : option pystr;
  eo_evidence_bundle_complete : bool; eo_policy_version : pystr; eo_policy_hash : pystr;
  eo_is_production : bool; eo_computed_at : datetime
}.

Definition make_ExperimentOutcome (o : ExperimentOutcome) : result pipeline_exn ExperimentOutcome :=
  _ ← raise_if (bool_decide (eo_tenant_id o = []) || bool_decide (eo_run_id o = [])
                || bool_decide (eo_experiment_id o = [])) ModelError;
  Ok o.

(** ** The state of one run *)

Record RunState := {
  rs_reason_codes : gset ReasonCode; rs_entries : list EvidenceEntry; rs_bound : option BoundExperiment;
  rs_binding_failed : bool; rs_window_failed : bool; rs_confirmation_conflicted : bool;
  rs_window : option Confirmation.MeasurementWindow; rs_did_result : option DiDResult;
  rs_b_gate_decision : option BGateDecision; rs_grs_decision : option GrsDecision
}.

Definition initial_state : RunState :=
  {| rs_reason_codes := ∅; rs_entries := []; rs_bound := None; rs_binding_failed := false;
     rs_window_failed := false; rs_confirmation_conflicted := false; rs_window := None;
     rs_did_result := None; rs_b_gate_decision := None; rs_grs_decision := None |}.

Definition present_kinds (s : RunState) : list EvidenceKind := kind <$> rs_entries s.

(** [state.reason_codes.update(codes)] and [state.add_entry(entry)] *)
Definition note (codes : list ReasonCode) (entries : list EvidenceEntry) (s : RunState) : RunState :=
  {| rs_reason_codes := list_to_set codes ∪ rs_reason_codes s; rs_entries := rs_entries s ++ entries;
     rs_bound := rs_bound s; rs_binding_failed := rs_binding_failed s; rs_window_failed := rs_window_failed s;
     rs_confirmation_conflicted := rs_confirmation_conflicted s; rs_window := rs_window s;
     rs_did_result := rs_did_result s; rs_b_gate_decision := rs_b_gate_decision s;
     rs_grs_decision := rs_grs_decision s |}.

(** The assignments to one attribute. *)
Definition set_grs (d : GrsDecision) (s : RunState) : RunState :=
  {| rs_reason_codes := rs_reason_codes s; rs_entries := rs_entries s; rs_bound := rs_bound s;
     rs_binding_failed := rs_binding_failed s; rs_window_failed := rs_window_failed s;
     rs_confirmation_conflicted := rs_confirmation_conflicted s; rs_window := rs_window s;
     rs_did_result := rs_did_result s; rs_b_gate_decision := rs_b_gate_decision s; rs_grs_decision := Some d |}.

Definition set_bound (b : option BoundExperiment) (failed : bool) (s : RunState) : RunState :=
  {| rs_reason_codes := rs_reason_codes s; rs_entries := rs_entries s; rs_bound := b;
     rs_binding_failed := failed; rs_window_failed := rs_window_failed s;
     rs_confirmation_conflicted := rs_confirmation_conflicted s; rs_window := rs_window s;
     rs_did_result := rs_did_result s; rs_b_gate_decision := rs_b_gate_decision s;
     rs_grs_decision := rs_grs_decision s |}.

Definition set_window (w : option Confirmation.MeasurementWindow) (failed : bool) (s : RunState) : RunState :=
  {| rs_reason_codes := rs_reason_codes s; rs_entries := rs_entries s; rs_bound := rs_bound s;
     rs_binding_failed := rs_binding_failed s; rs_window_failed := failed;
     rs_confirmation_conflicted := rs_confirmation_conflicted s; rs_window := w;
     rs_did_result := rs_did_result s; rs_b_gate_decision := rs_b_gate_decision s;
     rs_grs_decision := rs_grs_decision s |}.

Definition set_did (r : DiDResult) (s : RunState) : RunState :=
  {| rs_reason_codes := rs_reason_codes s; rs_entries := rs_entries s; rs_bound := rs_bound s;
     rs_binding_failed := rs_binding_failed s; rs_window_failed := rs_window_failed s;
     rs_confirmation_conflicted := rs_confirmation_conflicted s; rs_window := rs_window s;
     rs_did_result := Some r; rs_b_gate_decision := rs_b_gate_decision s; rs_grs_decision := rs_grs_decision s |}.

Definition set_decision (d : BGateDecision) (s : RunState) : RunState :=
  {| rs_reason_codes := rs_reason_codes s; rs_entries := rs_entries s; rs_bound := rs_bound s;
     rs_binding_failed := rs_binding_failed s; rs_window_failed := rs_window_failed s;
     rs_confirmation_conflicted := rs_confirmation_conflicted s; rs_window := rs_window s;
     rs_did_result := rs_did_result s; rs_b_gate_decision := Some d; rs_grs_decision := rs_grs_decision s |}.

Definition set_conflicted (s : RunState) : RunState :=
  {| rs_reason_codes := rs_reason_codes s; rs_entries := rs_entries s; rs_bound := rs_bound s;
     rs_binding_failed := rs_binding_failed s; rs_window_failed := rs_window_failed s;
     rs_confirmation_conflicted := true; rs_window := rs_window s; rs_did_result := rs_did_result s;
     rs_b_gate_decision := rs_b_gate_decision s; rs_grs_decision := rs_grs_decision s |}.

Definition py {A} (m : result pyexn A) : result pipeline_exn A := try_except m (fun e => Raise (PyError e)).
Definition ev {A} (m : result evidence_exn A) : result pipeline_exn A := try_except m (fun e => Raise (EvidenceError e)).

Definition text_opt (o : option pystr) : pyval := match o with Some s => PStr s | None => PNone end.

Section pipeline.
Context `{UnicodeDB} `{FloatRepr} `{DatetimeJson}.

Definition _hash_of (material : pyval) : result pyexn pystr := sha256_ref material.

Definition _evidence_ref (uri : pystr) (material : pyval) : result pipeline_exn EvidenceRef :=
  h ← py (_hash_of material); ev (make_EvidenceRef {| uri := uri; ref_content_hash := h |}).

(** [EvidenceEntry(kind=..., ref=_evidence_ref(...), metadata=...)] *)
Definition entry_of (k : EvidenceKind) (uri : pystr) (material : pyval) (metadata : result evidence_exn EvidenceMetadata)
    : result pipeline_exn EvidenceEntry :=
  ref ← _evidence_ref uri material;
  m ← ev metadata;
  ev (make_EvidenceEntry {| kind := k; ref := ref; metadata := m |}).

Definition extra_metadata (fields : list (pystr * pyval)) : EvidenceMetadata :=
  {| timestamp := None; client_version := None; Evidence.asset_hash := None; citation := None;
     citation_present := None; extra := Some fields |}.

(** ** Step 1 *)

Definition eligibility_value (g : GrsEligibility) : pystr :=
  match g with Grs.ELIGIBLE => u "eligible" | Grs.DENY => u "deny" | Grs.UNDETERMINED => u "undetermined" end.

Definition grs_dump (d : GrsDecision) : list (pystr * pyval) :=
  [(u "decision", PStr (eligibility_value (Grs.decision d))); (u "reason", PStr (Grs.reason d));
   (u "policy_version", text_opt (Grs.policy_version d)); (u "bundle_hash", text_opt (decision_bundle_hash d));
   (u "provenance", text_opt (provenance_value <$> decision_provenance d));
   (u "is_production_valid", PBool (is_production_valid d))].

Definition eligible (d : GrsDecision) : bool := bool_decide (Grs.decision d = Grs.ELIGIBLE).

Definition _run_grs (i : MeasurementInputs) (p : MeasurementPolicies) (s : RunState) : result pipeline_exn RunState :=
  let decision := evaluate_grs_eligibility (grs_inputs i) (grs_bundle p) in
  let s := note (if eligible decision then [] else [GRS_POLICY_MISSING]) [] (set_grs decision s) in
  e ← entry_of GRS_POLICY (u "grs://policy-decision") (PDict (grs_dump decision))
        (make_EvidenceMetadata (extra_metadata [(u "decision", PStr (eligibility_value (Grs.decision decision)))]));
  Ok (note [] [e] s).

(** ** Step 2 *)

(** [_BINDING_REASON_MAP_STRICT]; [not_found] is no key of it. *)
Definition binding_reason (r : BindingRejectReason) : option ReasonCode :=
  match r with
  | not_found => None
  | post_registration_mutation | conflicting_registration | metric_mutation => Some POST_REGISTRATION_METRIC_MUTATION
  | cell_mismatch => Some CELL_MISMATCH
  | Binding.contamination => Some TREATMENT_CONTROL_CONTAMINATION
  | asset_hash_conflict => Some ASSET_HASH_CONFLICT
  end.

Definition _run_binding (i : MeasurementInputs) (p : MeasurementPolicies) (s : RunState) : result pipeline_exn RunState :=
  match bind_experiment (registration i) (submission i) (weights p) with
  | Raise (BindingNotFoundError _) => Ok (set_bound None true (note [BGate.IDENTITY_MISMATCH] [] s))
  | Raise (BindingRejectedError _ reason _) =>
      match binding_reason reason with
      | Some code => Ok (set_bound None true (note [code] [] s))
      | None => Raise (PyError KeyError)
      end
  | Raise (Binding.Builtin e) => Raise (PyError e)
  | Ok bound =>
      let s := set_bound (Some bound) false s in
      e ← entry_of REGISTRATION (u "registration://" ++ be_experiment_id bound)
            (PDict [(u "experiment_id", PStr (be_experiment_id bound));
                    (u "anchored_hash", PStr (be_anchored_hash bound))]) (Ok empty_metadata);
      Ok (note [] [e] s)
  end.

(** ** Step 3 *)

(** [_CONFIRMATION_REASON_MAP] *)
Definition confirmation_reason (r : RejectionReason) : ReasonCode :=
  match r with
  | CROSS_TENANT_REPLAY | Confirmation.IDENTITY_MISMATCH => BGate.IDENTITY_MISMATCH
  | CONFLICTING_REPLAY => CONFLICTING_CONFIRMATION
  | _ => DEPLOYMENT_UNCONFIRMED
  end.

Definition confirmation_uri (a : Accepted) : pystr := u "confirmation://" ++ dc_idempotency_key (ac_confirmation a).

(** What follows an accepted confirmation, or an identical replay of one. *)
Definition start_window (i : MeasurementInputs) (p : MeasurementPolicies) (s : RunState) (accepted : Accepted)
    : result pipeline_exn RunState :=
  clock_verdict ← py (start_measurement_window accepted (registration_view i) (Some (clock_policy p)));
  let key := (u "idempotency_key", PStr (dc_idempotency_key (ac_confirmation accepted))) in
  match clock_verdict with
  | DeploymentLate =>
      let s := set_window None true (note [DEPLOYMENT_LATE] [] s) in
      e ← entry_of DEPLOYMENT_CONFIRMATION (confirmation_uri accepted)
            (PDict [key; (u "clock_start", PStr (u "deployment_late"))]) (Ok empty_metadata);
      Ok (note [] [e] s)
  | Started window =>
      e ← entry_of DEPLOYMENT_CONFIRMATION (confirmation_uri accepted)
            (PDict [key; (u "anchor", PStr (isoformat (mw_anchor window)));
                    (u "end", PStr (isoformat (mw_end window)))]) (Ok empty_metadata);
      let s := note [] [e] (set_window (Some window) false s) in
      complete ← py (window_complete window (evaluation_at i));
      Ok (if (complete : bool) then s else set_window (Some window) true (note [WINDOW_INCOMPLETE] [] s))
  end.

Definition _run_window (i : MeasurementInputs) (p : MeasurementPolicies) (s : RunState) : result pipeline_exn RunState :=
  verdict ← py (validate_confirmation (deployment_confirmation i) (registration_view i) (server_received_at i)
                  (trust_verifier p) (prior_confirmations i) (allowed_confirmation_skew_seconds p));
  match verdict with
  | VRejected r => Ok (set_window None true (note [confirmation_reason (rj_reason_code r)] [] s))
  | VAccepted accepted | VDuplicate accepted => start_window i p s accepted
  end.

(** ** Step 4 *)

(** [_OBSERVATION_KIND_BY_LAYER_SLOT] *)
Definition slot_kinds : list (CellName * EvidenceKind) :=
  [(baseline_treatment, BASELINE_OBSERVATION); (post_treatment, TREATMENT_OBSERVATION);
   (baseline_control, BASELINE_OBSERVATION); (post_control, CONTROL_OBSERVATION)].

(** [dict(pairs).get(key)]: the last pair wins. *)
Definition dict_get {A} (pairs : list (pystr * A)) (key : pystr) : option A :=
  snd <$> last (filter (fun kv => kv.1 = key) pairs).

Definition metadata_by_kind (i : MeasurementInputs) (k : EvidenceKind) (basis : pystr) : option EvidenceMetadata :=
  match k with
  | BASELINE_OBSERVATION => dict_get (baseline_evidence i) basis
  | TREATMENT_OBSERVATION => dict_get (treatment_evidence i) basis
  | CONTROL_OBSERVATION => dict_get (control_evidence i) basis
  | _ => None
  end.

(** The entry of one slot of a series, when the cell and its metadata are there. *)
Definition observation_entry (i : MeasurementInputs) (series : SignalSeries) (slot : CellName * EvidenceKind)
    : result pipeline_exn (list EvidenceEntry) :=
  let basis := Did.evidence_basis_id series in
  match cells series slot.1, metadata_by_kind i slot.2 basis with
  | Some _, Some m =>
      e ← entry_of slot.2 (u "observation://" ++ basis ++ u "/" ++ cell_key slot.1)
            (PDict [(u "evidence_basis_id", PStr basis); (u "slot", PStr (cell_key slot.1))]) (Ok m);
      Ok [e]
  | _, _ => Ok []
  end.

Definition observation_entries (i : MeasurementInputs) : result pipeline_exn (list EvidenceEntry) :=
  ls ← mapM (fun series => mapM (observation_entry i series) slot_kinds) (mi_signals i);
  Ok (concat (concat ls)).

(** [sorted({...})] of strings *)
Definition sorted_set (l : list pystr) : list pystr := sort_by id (remove_dups l).

Definition did_inputs_material (i : MeasurementInputs) : pyval :=
  PList (map (fun s => PDict [(u "layer", PStr (Did.layer s)); (u "metric_id", PStr (Did.metric_id s));
                              (u "evidence_basis_id", PStr (Did.evidence_basis_id s))]) (mi_signals i)).

Definition _run_did (i : MeasurementInputs) (p : MeasurementPolicies) (s : RunState) : result pipeline_exn RunState :=
  did_result ← py (compute_did (mi_signals i) (did_policy p) None (mw_end <$> rs_window s));
  let s := set_did did_result s in
  e_in ← entry_of DID_INPUTS (u "did://inputs") (did_inputs_material i) (Ok empty_metadata);
  text ← py (result_canonical_json did_result);
  e_out ← entry_of DID_OUTPUTS (u "did://outputs") (PStr text) (Ok empty_metadata);
  observed ← observation_entries i;
  let s := note [] (e_in :: e_out :: observed) s in
  match observed with
  | [] => Ok s
  | _ =>
      e ← entry_of RAW_OBSERVATION_REF (u "raw-observation-ref://summary")
            (PList (PStr <$> sorted_set (Did.evidence_basis_id <$> mi_signals i))) (Ok empty_metadata);
      Ok (note [] [e] s)
  end.

(** ** Step 5 *)

(** [OutcomeLayer(value)]; [None] is its [ValueError]. *)
Definition outcome_layer (value : pystr) : option OutcomeLayer :=
  List.find (fun l => bool_decide (layer_value l = value)) all_layers.

(** The constraints of [SignalResult]. *)
Definition make_SignalResult (r : SignalResult) : result pipeline_exn SignalResult :=
  _ ← raise_if (bool_decide (BGate.evidence_basis_id r = []) || negb (signal_is_finite r)) ModelError; Ok r.

Definition signal_result (l : OutcomeLayer) (s : SignalDiD) : SignalResult :=
  {| BGate.layer := l; BGate.evidence_basis_id := sd_evidence_basis_id s;
     BGate.treatment_raw_delta := default f64_zero (Did.treatment_raw_delta s);
     BGate.control_raw_delta := default f64_zero (Did.control_raw_delta s);
     BGate.net_of_control_lift := default f64_zero (Did.net_of_control_lift s);
     has_control_adjusted_lift := bool_decide (is_Some (Did.net_of_control_lift s));
     sufficient_data := negb (insufficient s);
     has_raw_evidence_ref := true |}.

Definition _signal_result (s : SignalDiD) : result pipeline_exn (option SignalResult) :=
  match outcome_layer (sd_layer s) with
  | None => Ok None
  | Some l => r ← make_SignalResult (signal_result l s); Ok (Some r)
  end.

Definition reports (c : InsufficiencyCode) (s : RunState) : bool :=
  match rs_did_result s with
  | Some r => existsb (fun sd => bool_decide (c ∈ insufficiency_codes sd)) (Did.signals r)
  | None => false
  end.

Definition window_state_of (s : RunState) (drift : bool) : WindowState :=
  let noted c := bool_decide (c ∈ rs_reason_codes s) in
  {| complete := negb (noted WINDOW_INCOMPLETE);
     deployment_confirmed := negb (noted DEPLOYMENT_UNCONFIRMED) && negb (noted DEPLOYMENT_LATE);
     deployment_late := noted DEPLOYMENT_LATE;
     BGate.contamination := noted TREATMENT_CONTROL_CONTAMINATION;
     adapter_drift := drift;
     missing_baseline := reports Did.MISSING_BASELINE s;
     missing_control := reports Did.MISSING_CONTROL s;
     insufficient_repeats := reports Did.INSUFFICIENT_REPEATS s |}.

Definition evidence_check_of (s : RunState) : EvidenceCheck :=
  {| manifest_hash_ok := true; raw_refs_present := bool_decide (RAW_OBSERVATION_REF ∈ present_kinds s) |}.

Definition decision_material (d : BGateDecision) : pyval :=
  PDict [(u "verdict", PStr (verdict_value (verdict d)));
         (u "reason_codes", PList (map (fun c => PStr (BGate.code_value c)) (BGate.reason_codes d)));
         (u "qualifying_layers", PList (map (fun l => PStr (layer_value l)) (qualifying_layers d)))].

Definition _run_b_gate (p : MeasurementPolicies) (s : RunState) : result pipeline_exn RunState :=
  mapped ← mapM _signal_result (match rs_did_result s with Some r => Did.signals r | None => [] end);
  let drift := existsb is_none mapped in
  let decision := decide_b_verdict (omap id mapped) (evidence_check_of s) (window_state_of s drift) (gate_policy p) in
  let s := note (BGate.reason_codes decision) [] (set_decision decision s) in
  e ← entry_of B_GATE_DECISION (u "b-gate://decision") (decision_material decision) (Ok empty_metadata);
  Ok (note [] [e] s).

(** ** Step 6 *)

Definition sorted_kinds (l : list EvidenceKind) : list pystr := sort_by id (kind_value <$> l).

Definition _seal_bundle (i : MeasurementInputs) (s : RunState) : result pipeline_exn (EvidenceBundleManifest * bool) :=
  let seal_all es := ev (seal (mi_tenant_id i) (mi_run_id i) (mi_experiment_id i) es) in
  first ← seal_all (rs_entries s);
  let '(is_complete, missing) := validate_completeness first in
  gaps ← (if (is_complete : bool) then Ok [] else
    let names := PList (PStr <$> sorted_kinds missing) in
    e ← entry_of MISSINGNESS_REPORT (u "missingness-report://gaps") names
          (make_EvidenceMetadata (extra_metadata [(u "missing_kinds", names)]));
    Ok [e]);
  manifest ← seal_all (rs_entries s ++ gaps);
  verified ← py (verify_manifest manifest);
  _ ← raise_if (negb verified.1) PipelineError;
  Ok (manifest, is_complete).

(** ** Step 7 *)

Definition _final_status (s : RunState) : OutcomeStatus :=
  let grs_ok := match rs_grs_decision s with Some d => eligible d | None => false end in
  if rs_confirmation_conflicted s then Undetermined
  else match rs_b_gate_decision s with
       | None => Undetermined
       | Some decision =>
           let status := from_b_verdict (verdict decision) in
           if bool_decide (status = Pass) && (negb grs_ok || rs_binding_failed s || rs_window_failed s)
           then Undetermined else status
       end.

Definition _deterministic_computed_at (i : MeasurementInputs) : datetime :=
  match tz (evaluation_at i) with
  | None => {| wall := wall (evaluation_at i); tz := Some utc |}
  | Some _ => evaluation_at i
  end.

Definition outcome_of (i : MeasurementInputs) (p : MeasurementPolicies) (s : RunState)
    (manifest : EvidenceBundleManifest) (is_complete : bool) : ExperimentOutcome :=
  let layers (view : BGateDecision -> list OutcomeLayer) :=
    match rs_b_gate_decision s with Some d => layer_value <$> view d | None => [] end in
  {| eo_tenant_id := mi_tenant_id i; eo_run_id := mi_run_id i; eo_experiment_id := mi_experiment_id i;
     eo_status := _final_status s; eo_reason_codes := sorted_codes (rs_reason_codes s);
     eo_qualifying_layers := layers qualifying_layers; eo_raw_view := layers raw_view;
     eo_control_adjusted_view := layers control_adjusted_view;
     eo_b_gate_decision := rs_b_gate_decision s; eo_grs_decision := rs_grs_decision s;
     eo_evidence_bundle_ref := manifest_hash manifest; eo_evidence_bundle_complete := is_complete;
     eo_policy_version := gp_version (gate_policy p); eo_policy_hash := gp_hash (gate_policy p);
     eo_is_production := match rs_b_gate_decision s with Some d => is_production d | None => false end;
     eo_computed_at := _deterministic_computed_at i |}.

(** [BGateDecision], the outcome and the manifest as [model_dump(mode="json")]. *)
Definition layer_list (l : list OutcomeLayer) : pyval := PList (PStr <$> (layer_value <$> l)).

Definition decision_dump (d : BGateDecision) : pyval :=
  PDict [(u "verdict", PStr (verdict_value (verdict d)));
         (u "reason_codes", PList (map (fun c => PStr (BGate.code_value c)) (BGate.reason_codes d)));
         (u "raw_view", layer_list (raw_view d));
         (u "control_adjusted_view", layer_list (control_adjusted_view d));
         (u "qualifying_layers", layer_list (qualifying_layers d));
         (u "confidence", PFloat (confidence d));
         (u "policy_version", PStr (BGate.policy_version d)); (u "policy_hash", PStr (policy_hash d));
         (u "policy_provenance", PStr (match BGate.policy_provenance d with
                                       | BGate.PRODUCTION => u "production" | BGate.TEST_FIXTURE => u "test_fixture" end));
         (u "is_production", PBool (is_production d))].

Definition canonical_payload (o : ExperimentOutcome) : list (pystr * pyval) :=
  [(u "tenant_id", PStr (eo_tenant_id o)); (u "run_id", PStr (eo_run_id o));
   (u "experiment_id", PStr (eo_experiment_id o)); (u "status", PStr (status_value (eo_status o)));
   (u "reason_codes", PList (map (fun c => PStr (BGate.code_value c)) (eo_reason_codes o)));
   (u "qualifying_layers", PList (PStr <$> eo_qualifying_layers o));
   (u "raw_view", PList (PStr <$> eo_raw_view o));
   (u "control_adjusted_view", PList (PStr <$> eo_control_adjusted_view o));
   (u "b_gate_decision", match eo_b_gate_decision o with Some d => decision_dump d | None => PNone end);
   (u "grs_decision", match eo_grs_decision o with Some d => PDict (grs_dump d) | None => PNone end);
   (u "evidence_bundle_ref", text_opt (eo_evidence_bundle_ref o));
   (u "evidence_bundle_complete", PBool (eo_evidence_bundle_complete o));
   (u "policy_version", PStr (eo_policy_version o)); (u "policy_hash", PStr (eo_policy_hash o));
   (u "is_production", PBool (eo_is_production o));
   (u "computed_at", PStr (render_datetime (eo_computed_at o)))].

Definition manifest_dump (m : EvidenceBundleManifest) : list (pystr * pyval) :=
  [(u "tenant_id", PStr (Evidence.tenant_id m)); (u "run_id", PStr (Evidence.run_id m));
   (u "experiment_id", PStr (Evidence.experiment_id m));
   (u "entries", PList (content_material <$> entries m));
   (u "entry_commitments", PList (PStr <$> entry_commitments m));
   (u "manifest_hash", text_opt (manifest_hash m))].

(** ** The stores *)

Definition stored_in {A} (f : Stores -> result measurement_exn (Stores * A)) : M Stores pipeline_exn A :=
  try_update (fun ports => try_except (f ports) (fun e => Raise (StoreError e))).

Definition put_confirmation_port (t key : pystr) (r : ConfirmationRecord) (ports : Stores)
    : result measurement_exn (Stores * PutResult ConfirmationRecord) :=
  p ← put_confirmation t key r (st_confirmations ports);
  Ok ({| st_confirmations := p.1; st_windows := st_windows ports; st_decisions := st_decisions ports;
         st_bundles := st_bundles ports |}, p.2).

Definition open_window_port (t : pystr) (w : StoredWindow) (ports : Stores) : result measurement_exn (Stores * PutResult StoredWindow) :=
  p ← open_window t w (st_windows ports);
  Ok ({| st_confirmations := st_confirmations ports; st_windows := p.1; st_decisions := st_decisions ports;
         st_bundles := st_bundles ports |}, p.2).

Definition put_bundle_port (t h : pystr) (b : EvidenceBundle) (ports : Stores) : result measurement_exn (Stores * PutResult EvidenceBundle) :=
  p ← put_bundle t h b (st_bundles ports);
  Ok ({| st_confirmations := st_confirmations ports; st_windows := st_windows ports; st_decisions := st_decisions ports;
         st_bundles := p.1 |}, p.2).

Definition append_decision_port (t : pystr) (d : OutcomeDecisionRecord) (ports : Stores)
    : result measurement_exn (Stores * PutResult OutcomeDecisionRecord) :=
  p ← append_decision t d (st_decisions ports);
  Ok ({| st_confirmations := st_confirmations ports; st_windows := st_windows ports; st_decisions := p.1;
         st_bundles := st_bundles ports |}, p.2).

(** ** [run_measurement] *)

Definition confirmation_record (i : MeasurementInputs) : ConfirmationRecord :=
  {| cr_tenant_id := mi_tenant_id i; cr_confirmation_key := dc_idempotency_key (deployment_confirmation i);
     cr_measurement_kind := u "deployment_confirmation"; cr_payload := dump_fields (deployment_confirmation i) |}.

(** The write of the confirmation; whether it met a conflict. *)
Definition persist_confirmation (i : MeasurementInputs) : M Stores pipeline_exn bool := fun ports =>
  match record ← make_ConfirmationRecord (confirmation_record i);
        put_confirmation_port (mi_tenant_id i) (dc_idempotency_key (deployment_confirmation i)) record ports with
  | Ok (ports', _) => (ports', Ok false)
  | Raise IdempotencyConflictError => (ports, Ok true)
  | Raise e => (ports, Raise (StoreError e))
  end.

Definition conflict_state (i : MeasurementInputs) : result pipeline_exn RunState :=
  let s := note [CONFLICTING_CONFIRMATION] [] (set_conflicted initial_state) in
  let key := dc_idempotency_key (deployment_confirmation i) in
  fingerprint ← py (_hash_of (confirmation_dump (deployment_confirmation i)));
  e ← entry_of DEPLOYMENT_CONFIRMATION
        (u "confirmation-conflict://" ++ mi_experiment_id i ++ u "/" ++ mi_run_id i ++ u "/" ++ key)
        (PDict [(u "experiment_id", PStr (mi_experiment_id i)); (u "run_id", PStr (mi_run_id i));
                (u "idempotency_key", PStr key); (u "conflicting_confirmation", PBool true);
                (u "confirmation_fingerprint", PStr fingerprint)]) (Ok empty_metadata);
  Ok (note [] [e] s).

Definition run_steps (i : MeasurementInputs) (p : MeasurementPolicies) : result pipeline_exn RunState :=
  s ← _run_grs i p initial_state;
  s ← _run_binding i p s;
  s ← _run_window i p s;
  s ← _run_did i p s;
  _run_b_gate p s.

Definition _measurement_window_record (i : MeasurementInputs) (w : Confirmation.MeasurementWindow) (p : MeasurementPolicies)
    : StoredWindow :=
  {| sw_tenant_id := mi_tenant_id i; sw_experiment_id := mi_experiment_id i; sw_starts_at := isoformat (mw_anchor w);
     sw_ends_at := Some (isoformat (mw_end w)); sw_policy_version := str_of_Z (window_days (clock_policy p)) ++ u "d" |}.

Definition store_exn {A} (m : result measurement_exn A) : result pipeline_exn A :=
  try_except m (fun e => Raise (StoreError e)).

Definition open_run_window (i : MeasurementInputs) (p : MeasurementPolicies) (s : RunState) (manifest : EvidenceBundleManifest)
    : M Stores pipeline_exn unit :=
  match rs_window s, manifest_hash manifest with
  | Some w, Some _ =>
      record ← lift (store_exn (make_StoredWindow (_measurement_window_record i w p)));
      _ ← stored_in (open_window_port (mi_tenant_id i) record);
      mret tt
  | _, _ => mret tt
  end.

(** [manifest.manifest_hash or _hash_of({"empty": True})] *)
Definition bundle_ref (manifest : EvidenceBundleManifest) : result pipeline_exn pystr :=
  match manifest_hash manifest with
  | Some (c :: h) => Ok (c :: h)
  | _ => py (_hash_of (PDict [(u "empty", PBool true)]))
  end.

Definition decision_record (i : MeasurementInputs) (o : ExperimentOutcome) (ref : pystr) : OutcomeDecisionRecord :=
  {| od_tenant_id := mi_tenant_id i; od_decision_key := (mi_experiment_id i, mi_run_id i);
     od_outcome := status_value (eo_status o); od_evidence_bundle_ref := ref;
     od_policy_metadata := canonical_payload o |}.

(** From the accumulated state on: seal, open the window, store the bundle and
    the decision. *)
Definition conclude (i : MeasurementInputs) (p : MeasurementPolicies) (s : RunState) : M Stores pipeline_exn ExperimentOutcome :=
  sealed ← lift (_seal_bundle i s);
  let '(manifest, is_complete) := sealed in
  _ ← open_run_window i p s manifest;
  outcome ← lift (make_ExperimentOutcome (outcome_of i p s manifest is_complete));
  ref ← lift (bundle_ref manifest);
  bundle ← lift (store_exn (make_EvidenceBundle {| eb_tenant_id := mi_tenant_id i; eb_manifest := manifest_dump manifest |}));
  _ ← stored_in (put_bundle_port (mi_tenant_id i) ref bundle);
  decision ← lift (store_exn (make_OutcomeDecisionRecord (decision_record i outcome ref)));
  _ ← stored_in (append_decision_port (mi_tenant_id i) decision);
  mret outcome.

(** The last check of the source, on an outcome that is neither stored nor a
    duplicate, cannot fail: a store has no other answer. *)
Definition run_measurement (i : MeasurementInputs) (p : MeasurementPolicies) : M Stores pipeline_exn ExperimentOutcome :=
  conflicted ← persist_confirmation i;
  s ← lift (if (conflicted : bool) then conflict_state i else run_steps i p);
  conclude i p s.
End pipeline.

(** ** Lemmas *)

(** *** What each step leaves in the state *)

Lemma py_Ok {A} (m : result pyexn A) a : py m = Ok a <-> m = Ok a.
Proof. destruct m; cbn; naive_solver. Qed.
Lemma ev_Ok {A} (m : result evidence_exn A) a : ev m = Ok a <-> m = Ok a.
Proof. destruct m; cbn; naive_solver. Qed.
Lemma store_exn_Ok {A} (m : result measurement_exn A) a : store_exn m = Ok a <-> m = Ok a.
Proof. destruct m; cbn; naive_solver. Qed.

Section steps.
Context `{UnicodeDB} `{FloatRepr} `{DatetimeJson}.
Implicit Types (i : MeasurementInputs) (p : MeasurementPolicies) (s : RunState).

Lemma make_entry_Ok e e' : make_EvidenceEntry e = Ok e' -> e' = e.
Proof.
  unfold make_EvidenceEntry. destruct (decide _); [|by intros [= <-]]. by intros (_ & [= <-])%seq_Ok.
Qed.

Lemma entry_of_kind k uri material m e : entry_of k uri material m = Ok e -> kind e = k.
Proof.
  unfold entry_of. intros (ref & _ & He)%bind_Ok. apply bind_Ok in He as (m' & _ & He).
  apply ev_Ok, make_entry_Ok in He as ->. done.
Qed.

Definition grs_of i p : GrsDecision := evaluate_grs_eligibility (grs_inputs i) (grs_bundle p).

Lemma run_grs_Ok i p s s' : _run_grs i p s = Ok s' ->
  exists e, kind e = GRS_POLICY /\
    s' = note [] [e] (note (if eligible (grs_of i p) then [] else [GRS_POLICY_MISSING]) [] (set_grs (grs_of i p) s)).
Proof.
  unfold _run_grs. intros (e & He%entry_of_kind & [= <-])%bind_Ok. by exists e.
Qed.

Lemma run_binding_Ok i p s s' : _run_binding i p s = Ok s' ->
  (exists b e, bind_experiment (registration i) (submission i) (weights p) = Ok b /\ kind e = REGISTRATION /\
     s' = note [] [e] (set_bound (Some b) false s)) \/
  (exists c, (forall b, bind_experiment (registration i) (submission i) (weights p) <> Ok b) /\
     s' = set_bound None true (note [c] [] s)).
Proof.
  unfold _run_binding. destruct (bind_experiment _ _ _) as [b|[x|x r f|x]].
  - intros (e & He%entry_of_kind & [= <-])%bind_Ok. left. by exists b, e.
  - intros [= <-]. right. by eexists.
  - destruct (binding_reason r) as [c|]; [|done]. intros [= <-]. right. by exists c.
  - done.
Qed.

(** The confirmation is accepted, or an identical replay of an accepted one. *)
Definition confirmed_by i p (a : Accepted) : Prop :=
  exists v, validate_confirmation (deployment_confirmation i) (registration_view i) (server_received_at i)
    (trust_verifier p) (prior_confirmations i) (allowed_confirmation_skew_seconds p) = Ok v /\
    (v = VAccepted a \/ v = VDuplicate a).

(** A window was started and its end has come. *)
Definition window_elapsed i p (w : Confirmation.MeasurementWindow) : Prop :=
  exists a, confirmed_by i p a /\
    start_measurement_window a (registration_view i) (Some (clock_policy p)) = Ok (Started w) /\
    window_complete w (evaluation_at i) = Ok true.

Lemma window_elapsed_det i p w w' : window_elapsed i p w -> window_elapsed i p w' -> w = w'.
Proof.
  intros (a & (v & Hv & Ha) & Hs & _) (a' & (v' & Hv' & Ha') & Hs' & _).
  assert (a = a') as -> by (destruct Ha, Ha'; congruence). congruence.
Qed.

(** The parts of the state the window step does not touch. *)
Definition same_rest s s' : Prop :=
  rs_bound s' = rs_bound s /\ rs_binding_failed s' = rs_binding_failed s /\
  rs_confirmation_conflicted s' = rs_confirmation_conflicted s /\ rs_did_result s' = rs_did_result s /\
  rs_b_gate_decision s' = rs_b_gate_decision s /\ rs_grs_decision s' = rs_grs_decision s.

Definition window_step i p s s' : Prop :=
  same_rest s s' /\
  (exists es, rs_entries s' = rs_entries s ++ es /\ Forall (fun e => kind e = DEPLOYMENT_CONFIRMATION) es) /\
  ((exists w, window_elapsed i p w /\ rs_window_failed s' = false /\ rs_window s' = Some w /\
      rs_reason_codes s' = rs_reason_codes s) \/
   ((~ exists w, window_elapsed i p w) /\ rs_window_failed s' = true)).

Lemma start_window_Ok i p s s' a : confirmed_by i p a -> start_window i p s a = Ok s' -> window_step i p s s'.
Proof.
  intros (v & Hv & Ha) (cv & Hcv%py_Ok & Hs)%bind_Ok.
  assert (forall w', window_elapsed i p w' -> cv = Started w' /\ window_complete w' (evaluation_at i) = Ok true) as Hdet.
  { intros w' (a' & (v' & Hv' & Ha') & Hst & Hc). rewrite Hv in Hv'. injection Hv' as <-.
    assert (a' = a) as -> by (destruct Ha, Ha'; congruence). split; [congruence|done]. }
  destruct cv as [w|]; apply bind_Ok in Hs as (e & He%entry_of_kind & Hs).
  - apply bind_Ok in Hs as (c & Hc%py_Ok & [= <-]). destruct c; (split; [by destruct s|]; split).
    1, 3: exists [e]; split; [cbn; by rewrite ?app_nil_r|by constructor].
    + left. exists w. split; [exists a; split; [by exists v|done]|]. split_and!; [done..|]. cbn. set_solver.
    + right. split; [|done]. intros (w' & Hw'). destruct (Hdet _ Hw') as [[= ->] Hc']. congruence.
  - injection Hs as <-. split; [by destruct s|]. split; [exists [e]; split; [cbn; by rewrite ?app_nil_r|by constructor]|].
    right. split; [|done]. intros (w' & Hw'). by destruct (Hdet _ Hw') as [? _].
Qed.

Lemma run_window_Ok i p s s' : _run_window i p s = Ok s' -> window_step i p s s'.
Proof.
  unfold _run_window. intros (v & Hv%py_Ok & Hs)%bind_Ok. destruct v as [a|r|a].
  - refine (start_window_Ok _ _ _ _ a _ Hs). exists (VAccepted a). split; [done|by left].
  - injection Hs as <-. split; [by destruct s|]. split; [exists []; split; [cbn; by rewrite ?app_nil_r|constructor]|].
    right. split; [|done]. intros (w & a & (v & Hv' & [-> | ->]) & _); congruence.
  - refine (start_window_Ok _ _ _ _ a _ Hs). exists (VDuplicate a). split; [done|by right].
Qed.

(** The observation entries are those of the cells with metadata. *)
Lemma run_did_Ok i p s s' : _run_did i p s = Ok s' ->
  exists r obs more, compute_did (mi_signals i) (did_policy p) None (mw_end <$> rs_window s) = Ok r /\
    observation_entries i = Ok obs /\
    s' = note [] more (set_did r s) /\ (RAW_OBSERVATION_REF ∈ kind <$> more <-> obs <> []).
Proof.
  unfold _run_did. intros (r & Hr%py_Ok & Hs)%bind_Ok. apply bind_Ok in Hs as (e1 & He1%entry_of_kind & Hs).
  apply bind_Ok in Hs as (t & _ & Hs). apply bind_Ok in Hs as (e2 & He2%entry_of_kind & Hs).
  apply bind_Ok in Hs as (obs & Hobs & Hs). exists r, obs.
  destruct obs as [|o obs].
  - injection Hs as <-. exists [e1; e2]. split_and!; [done..|]. cbn. rewrite He1, He2.
    split; [|done]. intros Hin. set_solver.
  - apply bind_Ok in Hs as (e & He%entry_of_kind & [= <-]). exists ((e1 :: e2 :: o :: obs) ++ [e]).
    split_and!; [done..| |].
    + unfold note, set_did. cbn. f_equal; [set_solver|by rewrite <- app_assoc].
    + split; [done|]. intros _. rewrite fmap_app. apply elem_of_app. right. cbn. rewrite He. left.
Qed.

(** *** The gate's inputs *)

Lemma outcome_layer_Some v l : outcome_layer v = Some l <-> layer_value l = v.
Proof.
  unfold outcome_layer. split.
  - intros [_ Hl]%List.find_some. by bprop.
  - intros <-. destruct l; vm_compute; reflexivity.
Qed.

Lemma compute_sufficient series policy ws we sd :
  _compute_signal series policy ws we = Ok sd -> insufficient sd = negb (bool_decide (insufficiency_codes sd = [])).
Proof.
  unfold _compute_signal. intros (scans & _ & Hs)%bind_Ok. cbv zeta in Hs.
  apply bind_Ok in Hs as (power & _ & Hs). apply bind_Ok in Hs as (t & _ & Hs). apply bind_Ok in Hs as (c & _ & Hs).
  by apply bind_Ok in Hs as (n & _ & [= <-]).
Qed.

Lemma did_sufficient l policy ws we r sd :
  compute_did l policy ws we = Ok r -> sd ∈ Did.signals r -> insufficient sd = negb (bool_decide (insufficiency_codes sd = [])).
Proof.
  unfold compute_did. intros (k & Hk%mapM_Ok & [= <-])%bind_Ok Hin. cbn in Hin.
  apply list_elem_of_lookup in Hin as [n Hn]. apply (Forall2_lookup_r _ _ _ _ _ Hk) in Hn as (x & _ & Hx).
  by eapply compute_sufficient.
Qed.

(** A signal on a known layer with all its repeats. *)
Definition measured (sd : SignalDiD) : Prop := insufficient sd = false /\ exists l, sd_layer sd = layer_value l.

(** It shows a positive lift over the control. *)
Definition lifts (sd : SignalDiD) : Prop :=
  exists f, Did.net_of_control_lift sd = Some f /\ f64_gt f f64_zero = true.

(** Two lifts on different layers, from different evidence. *)
Definition two_lifts (l : list SignalDiD) : Prop :=
  exists a b, a ∈ l /\ b ∈ l /\ lifts a /\ lifts b /\ sd_layer a <> sd_layer b /\
    sd_evidence_basis_id a <> sd_evidence_basis_id b.

Lemma signal_result_Ok sd m : _signal_result sd = Ok m ->
  match m with
  | None => forall l, sd_layer sd <> layer_value l
  | Some r => exists l, sd_layer sd = layer_value l /\ r = signal_result l sd /\ signal_is_finite r = true
  end.
Proof.
  unfold _signal_result. destruct (outcome_layer (sd_layer sd)) as [l|] eqn:Hl.
  - apply outcome_layer_Some in Hl. intros (r & Hr & [= <-])%bind_Ok. unfold make_SignalResult in Hr.
    apply seq_Ok in Hr as [Hf%raise_if_Ok [= <-]]. apply orb_false_iff in Hf as [_ Hf%negb_false_iff]. by exists l.
  - intros [= <-] l Hs. apply eq_sym, outcome_layer_Some in Hs. congruence.
Qed.

Section gate.
Context (l : list SignalDiD) (mapped : list (option SignalResult)).
Hypothesis Hmapped : mapM _signal_result l = Ok mapped.

Lemma mapped_of sd : sd ∈ l -> exists m, m ∈ mapped /\ _signal_result sd = Ok m.
Proof.
  pose proof (proj1 (mapM_Ok _ _ _) Hmapped) as HF. intros [n Hn]%list_elem_of_lookup.
  apply (Forall2_lookup_l _ _ _ _ _ HF) in Hn as (m & Hm & Hs). exists m. split; [by eapply list_elem_of_lookup_2|done].
Qed.

Lemma of_mapped m : m ∈ mapped -> exists sd, sd ∈ l /\ _signal_result sd = Ok m.
Proof.
  pose proof (proj1 (mapM_Ok _ _ _) Hmapped) as HF. intros [n Hn]%list_elem_of_lookup.
  apply (Forall2_lookup_r _ _ _ _ _ HF) in Hn as (sd & Hm & Hs). exists sd. split; [by eapply list_elem_of_lookup_2|done].
Qed.

Lemma no_drift : existsb is_none mapped = false <-> forall sd, sd ∈ l -> exists x, sd_layer sd = layer_value x.
Proof.
  rewrite existsb_false_elem. split.
  - intros Hno sd (m & Hm & Hs)%mapped_of. specialize (Hno m Hm). destruct m as [r|]; [|done].
    apply signal_result_Ok in Hs as (x & Hx & _). by exists x.
  - intros Hall m (sd & Hsd & Hs)%of_mapped. destruct m as [r|]; [done|].
    apply signal_result_Ok in Hs. destruct (Hall sd Hsd) as [x Hx]. by destruct (Hs x).
Qed.

Lemma elem_of_results r : r ∈ omap id mapped <->
  exists sd x, sd ∈ l /\ sd_layer sd = layer_value x /\ r = signal_result x sd /\ signal_is_finite r = true.
Proof.
  rewrite list_elem_of_omap. split.
  - intros (m & (sd & Hsd & Hs)%of_mapped & Hm). cbn in Hm. subst m.
    apply signal_result_Ok in Hs as (x & Hx & -> & Hf). by exists sd, x.
  - intros (sd & x & Hsd & Hx & -> & Hf). destruct (mapped_of sd Hsd) as (m & Hm & Hs). exists m. split; [done|].
    apply signal_result_Ok in Hs. destruct m as [r|]; [|by destruct (Hs x)].
    destruct Hs as (y & Hy & -> & _). rewrite Hx in Hy. by apply layer_value_inj in Hy as ->.
Qed.

Lemma result_qualifies x sd : signal_is_finite (signal_result x sd) = true ->
  qualifies (signal_result x sd) = true <-> insufficient sd = false /\ lifts sd.
Proof.
  intros Hf. unfold qualifies, positive_lift, lifts. rewrite Hf. cbn.
  destruct (Did.net_of_control_lift sd) as [f|]; cbn.
  - rewrite !andb_true_iff, negb_true_iff. naive_solver.
  - naive_solver.
Qed.

Lemma results_two : (forall sd, sd ∈ l -> insufficient sd = false) ->
  two_independent (omap id mapped) -> two_lifts l.
Proof.
  intros Hsuf (r1 & r2 & (a & x & Ha & Hx & -> & Hfa)%elem_of_results & (b & y & Hb & Hy & -> & Hfb)%elem_of_results
    & Hq1 & Hq2 & Hl & He).
  apply result_qualifies in Hq1 as [_ Hla]; [|done]. apply result_qualifies in Hq2 as [_ Hlb]; [|done].
  exists a, b. split_and!; try done. cbn in Hl. rewrite Hx, Hy. intros ?%layer_value_inj. done.
Qed.

Lemma two_results : (forall sd, sd ∈ l -> measured sd) -> two_lifts l -> two_independent (omap id mapped).
Proof.
  intros Hm (a & b & Ha & Hb & Hla & Hlb & Hl & He).
  assert (forall sd, sd ∈ l -> lifts sd -> exists r x, r ∈ omap id mapped /\ sd_layer sd = layer_value x /\
    r = signal_result x sd /\ qualifies r = true) as Hr.
  { intros sd Hsd Hls. destruct (mapped_of sd Hsd) as ([r|] & _ & Hs); apply signal_result_Ok in Hs.
    - destruct Hs as (x & Hx & -> & Hf). exists (signal_result x sd), x. split_and!; [|done..|].
      + apply elem_of_results. by exists sd, x.
      + apply result_qualifies; [done|]. split; [by apply Hm|done].
    - destruct (Hm sd Hsd) as [_ [x Hx]]. by destruct (Hs x). }
  destruct (Hr a Ha Hla) as (ra & x & Hra & Hx & Ea & Hqa), (Hr b Hb Hlb) as (rb & y & Hrb & Hy & Eb & Hqb).
  exists ra, rb. split_and!; try done; rewrite Ea, Eb; cbn; [|done]. intros ->. congruence.
Qed.
End gate.
End steps.

(** *** The steps composed *)

Section run.
Context `{UnicodeDB} `{FloatRepr} `{DatetimeJson}.
Implicit Types (i : MeasurementInputs) (p : MeasurementPolicies) (s : RunState).

(** An observation of the run comes with its provenance. *)
Definition referenced i : Prop :=
  exists series slot, series ∈ mi_signals i /\ slot ∈ slot_kinds /\ is_Some (cells series slot.1) /\
    is_Some (metadata_by_kind i slot.2 (Did.evidence_basis_id series)).

Lemma observation_entry_Ok i series slot es : observation_entry i series slot = Ok es ->
  es <> [] <-> is_Some (cells series slot.1) /\ is_Some (metadata_by_kind i slot.2 (Did.evidence_basis_id series)).
Proof.
  unfold observation_entry. destruct (cells series slot.1) as [c|], (metadata_by_kind i _ _) as [m|];
    [intros (e & _ & [= <-])%bind_Ok|intros [= <-]..]; (split; [|by intros [[] []]]); [|done..].
  intros _. split; by eexists.
Qed.

Lemma observation_entries_Ok i obs : observation_entries i = Ok obs -> obs <> [] <-> referenced i.
Proof.
  unfold observation_entries. intros (ls & Hls & [= <-])%bind_Ok. rewrite concat_nonempty. unfold referenced.
  setoid_rewrite elem_of_concat. split.
  - intros (es & (row & Hrow & Hin) & Hne).
    apply (mapM_elem _ _ _ Hls) in Hrow as (series & Hs & Hrow). apply (mapM_elem _ _ _ Hrow) in Hin as (slot & Hsl & He).
    exists series, slot. by apply (observation_entry_Ok _ _ _ _ He) in Hne.
  - intros (series & slot & Hs & Hsl & Hcm).
    destruct (mapM_image _ _ _ Hls series Hs) as (row & Hrow & Hr).
    destruct (mapM_image _ _ _ Hr slot Hsl) as (es & Hes & He).
    exists es. split; [by exists row|]. by apply (observation_entry_Ok _ _ _ _ He).
Qed.

Definition bound i p : Prop := exists b, bind_experiment (registration i) (submission i) (weights p) = Ok b.

(** What the steps leave: [s4] is the state the gate is asked about. *)
Record run_facts i p s : Prop := {
  rf_conflicted : rs_confirmation_conflicted s = false;
  rf_grs : rs_grs_decision s = Some (grs_of i p);
  rf_binding : rs_binding_failed s = false <-> bound i p;
  rf_window : (exists w, window_elapsed i p w /\ rs_window_failed s = false /\ rs_window s = Some w) \/
              ((~ exists w, window_elapsed i p w) /\ rs_window_failed s = true);
  rf_gate : exists r mapped s4,
    compute_did (mi_signals i) (did_policy p) None (mw_end <$> rs_window s) = Ok r /\
    mapM _signal_result (Did.signals r) = Ok mapped /\ rs_did_result s4 = Some r /\
    (RAW_OBSERVATION_REF ∈ present_kinds s4 <-> referenced i) /\
    (eligible (grs_of i p) = true -> rs_binding_failed s = false -> rs_window_failed s = false -> rs_reason_codes s4 = ∅) /\
    rs_b_gate_decision s = Some (decide_b_verdict (omap id mapped) (evidence_check_of s4)
                                   (window_state_of s4 (existsb is_none mapped)) (gate_policy p))
}.

Lemma run_b_gate_Ok p s s' : _run_b_gate p s = Ok s' ->
  exists mapped e, mapM _signal_result (match rs_did_result s with Some r => Did.signals r | None => [] end) = Ok mapped /\
    let d := decide_b_verdict (omap id mapped) (evidence_check_of s) (window_state_of s (existsb is_none mapped)) (gate_policy p) in
    s' = note [] [e] (note (BGate.reason_codes d) [] (set_decision d s)).
Proof.
  unfold _run_b_gate. intros (mapped & Hm & Hs)%bind_Ok. cbv zeta in Hs.
  apply bind_Ok in Hs as (e & _ & [= <-]). by exists mapped, e.
Qed.

(** After the window step: the evidence so far and no code without a reason. *)
Record before_did i p s : Prop := {
  bd_conflicted : rs_confirmation_conflicted s = false;
  bd_grs : rs_grs_decision s = Some (grs_of i p);
  bd_binding : rs_binding_failed s = false <-> bound i p;
  bd_window : (exists w, window_elapsed i p w /\ rs_window_failed s = false /\ rs_window s = Some w) \/
              ((~ exists w, window_elapsed i p w) /\ rs_window_failed s = true);
  bd_raw : RAW_OBSERVATION_REF ∉ present_kinds s;
  bd_codes : eligible (grs_of i p) = true -> rs_binding_failed s = false -> rs_window_failed s = false -> rs_reason_codes s = ∅
}.

Lemma before_did_Ok i p s1 s2 s3 :
  _run_grs i p initial_state = Ok s1 -> _run_binding i p s1 = Ok s2 -> _run_window i p s2 = Ok s3 -> before_did i p s3.
Proof.
  intros Hg Hb Hw. apply run_grs_Ok in Hg as (e1 & He1 & ->).
  apply run_window_Ok in Hw as (Hrest & (es & Hes & Hdc) & Hw). destruct Hrest as (Hbo & Hbf & Hco & Hdi & Hde & Hgr).
  assert (rs_confirmation_conflicted s2 = false /\ rs_grs_decision s2 = Some (grs_of i p) /\
    (rs_binding_failed s2 = false <-> bound i p) /\ (RAW_OBSERVATION_REF ∉ present_kinds s2) /\
    (eligible (grs_of i p) = true -> rs_binding_failed s2 = false -> rs_reason_codes s2 = ∅)) as (E1 & E2 & E3 & E4 & E5).
  { apply run_binding_Ok in Hb as [(b & e & Hb & He & ->)|(c & Hb & ->)]; cbn; split_and!; try done.
    - split; [by exists b|done].
    - unfold present_kinds. cbn. rewrite He1, He. set_solver.
    - intros -> _. set_solver.
    - split; [done|]. intros [b Hb']. by destruct (Hb b).
    - unfold present_kinds. cbn. rewrite He1. set_solver. }
  split; [by rewrite Hco|by rewrite Hgr|by rewrite Hbf|..].
  - destruct Hw as [(w & ? & ? & ? & _)|]; [left; by exists w|by right].
  - unfold present_kinds. rewrite Hes, fmap_app, elem_of_app. intros [?|(e & He & Hin)%list_elem_of_fmap]; [done|].
    rewrite Forall_forall in Hdc. rewrite (Hdc e Hin) in He. done.
  - rewrite Hbf. intros Hel Hb' Hwf. destruct Hw as [(w & _ & _ & _ & ->)|[_ ?]]; [auto|congruence].
Qed.

Lemma run_steps_Ok i p s : run_steps i p = Ok s -> run_facts i p s.
Proof.
  unfold run_steps. intros (s1 & E1 & Hs)%bind_Ok. apply bind_Ok in Hs as (s2 & E2 & Hs). apply bind_Ok in Hs as (s3 & E3 & Hs).
  apply bind_Ok in Hs as (s4 & Hd & Hs). apply run_did_Ok in Hd as (r & obs & more & Hr & Hobs & -> & Hraw).
  apply run_b_gate_Ok in Hs as (mapped & e & Hm & Hs). cbv zeta in Hs.
  destruct (before_did_Ok _ _ _ _ _ E1 E2 E3) as [Hc Hg Hb Hw Hn Hco]. cbn [rs_did_result note set_did] in Hm.
  subst s. split; [done..|]. exists r, mapped, (note [] more (set_did r s3)). split_and!; try done.
  - unfold present_kinds. cbn. rewrite fmap_app, elem_of_app, Hraw, (observation_entries_Ok _ _ Hobs).
    unfold present_kinds in Hn. tauto.
  - intros He Hbf Hwf. cbn. rewrite (Hco He Hbf Hwf). set_solver.
Qed.

(** *** The status *)

(** All that a PASS rests on. *)
Record grounds i p : Prop := {
  g_eligible : Grs.decision (grs_of i p) = Grs.ELIGIBLE;
  g_bound : bound i p;
  g_referenced : referenced i;
  g_measured : exists w r, window_elapsed i p w /\
    compute_did (mi_signals i) (did_policy p) None (Some (mw_end w)) = Ok r /\
    (forall sd, sd ∈ Did.signals r -> measured sd) /\ two_lifts (Did.signals r)
}.

(** The confirmation's key holds other content already. *)
Definition conflicts i (ports : Stores) : Prop :=
  put_confirmation_port (mi_tenant_id i) (dc_idempotency_key (deployment_confirmation i)) (confirmation_record i) ports
  = Raise IdempotencyConflictError.

Lemma persist_Ok i ports ports' b : persist_confirmation i ports = (ports', Ok b) -> b = true <-> conflicts i ports.
Proof.
  unfold persist_confirmation, conflicts. destruct (make_ConfirmationRecord _) as [rec|e] eqn:Hm.
  - assert (rec = confirmation_record i) as ->.
    { unfold make_ConfirmationRecord in Hm. do 3 apply seq_Ok in Hm as [_ Hm]. by injection Hm. }
    cbn [mbind result_bind]. destruct (put_confirmation_port _ _ _ _) as [[q x]|[]]; naive_solver.
  - cbn [mbind result_bind]. unfold make_ConfirmationRecord in Hm.
    destruct e; intros Heq; try discriminate Heq.
    repeat (apply seq_Raise in Hm as [Hm|[_ Hm]]; [by apply raise_if_Raise in Hm as [_ [=]]|]). done.
Qed.

Lemma conclude_status i p s ports ports' o : conclude i p s ports = (ports', Ok o) -> eo_status o = _final_status s.
Proof.
  unfold conclude. intros (q1 & [m c] & _ & Hc)%M_bind_Ok. apply M_bind_Ok in Hc as (q2 & x & _ & Hc).
  apply M_bind_Ok in Hc as (q3 & out & Hout & Hc).
  assert (eo_status out = _final_status s) as Hst.
  { apply lift_inv in Hout as [_ Hout]. symmetry in Hout. unfold make_ExperimentOutcome in Hout.
    by apply seq_Ok in Hout as [_ [= <-]]. }
  apply M_bind_Ok in Hc as (q4 & ref & _ & Hc). apply M_bind_Ok in Hc as (q5 & bun & _ & Hc).
  apply M_bind_Ok in Hc as (q6 & y & _ & Hc). apply M_bind_Ok in Hc as (q7 & dec & _ & Hc).
  apply M_bind_Ok in Hc as (q8 & z & _ & Hc). apply mret_inv in Hc as [_ [= ->]]. done.
Qed.

Lemma from_b_verdict_pass v : from_b_verdict v = Pass <-> v = BGate.PASS.
Proof. by destruct v. Qed.

Lemma reports_sufficient c s r : rs_did_result s = Some r ->
  (forall sd, sd ∈ Did.signals r -> insufficiency_codes sd = []) -> reports c s = false.
Proof.
  intros Hr Hs. unfold reports. rewrite Hr. apply existsb_false_elem. intros sd Hsd.
  rewrite (Hs sd Hsd). apply bool_decide_eq_false. by intros ?%elem_of_nil.
Qed.

(** With no code noted before it, the gate finds the inputs sound exactly when
    every signal is measured and an observation is referenced. *)
Lemma gate_sound i s r mapped :
  mapM _signal_result (Did.signals r) = Ok mapped -> rs_did_result s = Some r ->
  (RAW_OBSERVATION_REF ∈ present_kinds s <-> referenced i) -> rs_reason_codes s = ∅ ->
  (forall sd, sd ∈ Did.signals r -> insufficient sd = false -> insufficiency_codes sd = []) ->
  sound (omap id mapped) (evidence_check_of s) (window_state_of s (existsb is_none mapped)) <->
  referenced i /\ forall sd, sd ∈ Did.signals r -> measured sd.
Proof.
  intros Hm Hr Href Hcodes Hsuf. split.
  - intros [_ Hraw _ _ _ _ Hdrift _ _ _ Hsig]. cbn in Hraw, Hdrift. bprop. split; [by apply Href|].
    intros sd Hsd. destruct (proj1 (no_drift _ _ Hm) Hdrift sd Hsd) as [x Hx].
    split; [|by exists x]. destruct (mapped_of _ _ Hm sd Hsd) as ([res|] & _ & Hs); apply signal_result_Ok in Hs.
    + destruct Hs as (y & Hy & -> & Hf). destruct (Hsig (signal_result y sd)) as (_ & Hsu & _).
      * apply (elem_of_results _ _ Hm). by exists sd, y.
      * cbn in Hsu. by apply negb_true_iff in Hsu.
    + by destruct (Hs x).
  - intros [Hraw Hall].
    assert (forall c, reports c s = false) as Hno.
    { intros c. apply (reports_sufficient c s r Hr). intros sd Hsd. apply Hsuf; [done|]. by apply Hall. }
    unfold window_state_of. rewrite Hcodes. split; cbn; try done; try apply Hno.
    + apply bool_decide_eq_true. by apply Href.
    + apply (no_drift _ _ Hm). intros sd Hsd. by apply Hall.
    + intros res (sd & x & Hsd & Hx & -> & Hf)%(elem_of_results _ _ Hm). split_and!; [done| |done].
      cbn. destruct (Hall sd Hsd) as [-> _]. done.
Qed.

Lemma verdict_pass ss e w (gp : GatePolicy) : verdict (decide_b_verdict ss e w gp) = BGate.PASS <-> sound ss e w /\ two_independent ss.
Proof. destruct (verdict_cases ss e w gp) as [(? & ? & ->)|[(? & ? & ->)|(? & ->)]]; naive_solver. Qed.

Lemma final_pass i p s : run_facts i p s -> (_final_status s = Pass <-> grounds i p).
Proof.
  intros [Hc Hg Hb Hw (r & mapped & s4 & Hr & Hm & Hd & Href & Hcodes & Hdec)].
  assert (forall sd, sd ∈ Did.signals r -> insufficient sd = false -> insufficiency_codes sd = []) as Hsuf.
  { intros sd Hsd Hi. rewrite (did_sufficient _ _ _ _ _ _ Hr Hsd) in Hi.
    by apply negb_false_iff, bool_decide_eq_true in Hi. }
  assert (_final_status s = Pass <->
    (sound (omap id mapped) (evidence_check_of s4) (window_state_of s4 (existsb is_none mapped)) /\ two_independent (omap id mapped)) /\
    eligible (grs_of i p) = true /\ rs_binding_failed s = false /\ rs_window_failed s = false) as ->.
  { unfold _final_status. rewrite Hc, Hg, Hdec, <- (verdict_pass _ _ _ (gate_policy p)).
    destruct (verdict _), (eligible _), (rs_binding_failed s), (rs_window_failed s); cbn; naive_solver. }
  split.
  - intros ((Hsound & Htwo) & He & Hbf & Hwf). pose proof (Hcodes He Hbf Hwf) as Hempty.
    apply (gate_sound i s4 r mapped Hm Hd Href Hempty Hsuf) in Hsound as [Hraw Hall].
    destruct Hw as [(w & Hw & _ & Hrw)|[_ ?]]; [|congruence]. rewrite Hrw in Hr.
    split; [by apply bool_decide_eq_true in He|by apply Hb|done|]. exists w, r. split_and!; [done..|].
    apply (results_two _ _ Hm); [|done]. intros sd Hsd. by apply Hall.
  - intros [He Hbo Hraw (w & r' & Hwe & Hr' & Hall & Htwo)].
    assert (eligible (grs_of i p) = true) as He' by by apply bool_decide_eq_true.
    apply Hb in Hbo. destruct Hw as [(w' & Hw' & Hwf & Hrw)|[Hno _]]; [|by destruct Hno; exists w].
    rewrite (window_elapsed_det _ _ _ _ Hw' Hwe) in Hrw. rewrite Hrw in Hr. cbn in Hr.
    assert (r' = r) as -> by congruence. split; [|done].
    split; [|by apply (two_results _ _ Hm)]. by apply (gate_sound i s4 r mapped Hm Hd Href (Hcodes He' Hbo Hwf) Hsuf).
Qed.

(** C1: PASS is earned: the outcome of a run is PASS exactly when its
    confirmation does not contradict a stored one, the readiness policy finds it
    eligible, the submission binds to its registration, the confirmation is
    accepted and its window has elapsed, an observation carries provenance,
    every signal is measured in full on a known layer, and two lifts over the
    control come from different layers and different evidence. *)
Theorem pass_exact i p ports ports' o :
  run_measurement i p ports = (ports', Ok o) -> (eo_status o = Pass <-> ~ conflicts i ports /\ grounds i p).
Proof.
  unfold run_measurement. intros (q1 & b & Hb & Hr)%M_bind_Ok. apply M_bind_Ok in Hr as (q2 & s & Hs & Hr).
  apply lift_inv in Hs as [_ Hs]. symmetry in Hs. rewrite (conclude_status _ _ _ _ _ _ Hr).
  rewrite <- (persist_Ok _ _ _ _ Hb). destruct b.
  - unfold conflict_state in Hs. apply bind_Ok in Hs as (f & _ & Hs). apply bind_Ok in Hs as (e & _ & [= <-]).
    split; [done|]. intros [[] _]. done.
  - apply run_steps_Ok, final_pass in Hs as ->. naive_solver.
Qed.
End run.

(** ** Replays *)

(** *** A key that is kept with its fingerprint *)

Section kept.
Context {K : Type} `{EqDecision K} `{!Countable K} {R : Type}.
Implicit Types st : KeyedStore K R.

Definition kept (k : K) (fp : pystr) st : Prop :=
  ks_fingerprints st !! k = Some fp /\ is_Some (assoc (ks_store st) k).

Lemma assoc_is_Some (l : list (K * R)) k : is_Some (assoc l k) <-> k ∈ l.*1.
Proof.
  rewrite <- not_eq_None_Some, assoc_None. split; [apply dec_stable|]. intros Hin Hn. done.
Qed.

Lemma put_keeps conflict k fp r st st' x : keyed_put conflict k fp r st = Ok (st', x) -> kept k fp st'.
Proof.
  intros [(Hk & _ & ->)|(e & He & Hf & _ & ->)]%keyed_put_Ok; [|by split; [|exists e]].
  split; cbn; [by rewrite lookup_insert_eq|]. rewrite assoc_snoc by done. by rewrite decide_True.
Qed.

Lemma kept_put conflict k fp k' fp' r st st' x :
  kept k fp st -> keyed_put conflict k' fp' r st = Ok (st', x) -> kept k fp st'.
Proof.
  intros [Hf Hs] [(Hk & _ & ->)|(e & _ & _ & _ & ->)]%keyed_put_Ok; [|done].
  assert (k' <> k) as Hne by (intros ->; by apply Hk, assoc_is_Some).
  split; cbn; [by rewrite lookup_insert_ne|]. rewrite assoc_snoc by done. by rewrite decide_False.
Qed.

Lemma kept_replay conflict k fp r st : kept k fp st -> exists x, keyed_put conflict k fp r st = Ok (st, x).
Proof.
  intros [Hf [e He]]. eexists. unfold keyed_put. rewrite He, Hf. by rewrite bool_decide_eq_true_2.
Qed.

Lemma kept_other conflict k fp fp' r st : kept k fp st -> fp <> fp' -> keyed_put conflict k fp' r st = Raise conflict.
Proof. intros [Hf [e He]] Hne. unfold keyed_put. rewrite He, Hf. by rewrite bool_decide_eq_false_2. Qed.
End kept.

Section replay.
Context `{UnicodeDB} `{FloatRepr} `{DatetimeJson}.
Implicit Types (i : MeasurementInputs) (p : MeasurementPolicies) (s : RunState) (ports : Stores).

(** What is kept stays kept. *)
Record keeps ports ports' : Prop := {
  kp_confirmations k fp : kept k fp (cs_keyed (st_confirmations ports)) -> kept k fp (cs_keyed (st_confirmations ports'));
  kp_windows k fp : kept k fp (st_windows ports) -> kept k fp (st_windows ports');
  kp_decisions k fp : kept k fp (st_decisions ports) -> kept k fp (st_decisions ports');
  kp_bundles k fp : kept k fp (st_bundles ports) -> kept k fp (st_bundles ports')
}.

#[local] Instance keeps_preorder : PreOrder keeps.
Proof. split; [by split|]. intros a b c [] []. split; auto. Qed.

(** One write on two stores: what it leaves is kept, and where that is kept the
    write is a duplicate that changes nothing. *)
Definition settles {K} `{Countable K} {R} (f : KeyedStore K R -> result measurement_exn (KeyedStore K R * PutResult R)) : Prop :=
  forall st st' x, f st = Ok (st', x) -> exists k fp, kept k fp st' /\
    (forall k' fp', kept k' fp' st -> kept k' fp' st') /\ forall st2, kept k fp st2 -> exists x', f st2 = Ok (st2, x').

Lemma guarded_settles {K} `{Countable K} {R} (guard : result measurement_exn unit) (fpr : result pyexn pystr) conflict (k : K) (r : R) :
  settles (fun st => _ ← guard; fp ← lift_py fpr; keyed_put conflict k fp r st).
Proof.
  intros st st' x [Hg Hp]%seq_Ok. apply bind_Ok in Hp as (fp & Hfp & Hp). exists k, fp.
  split; [by eapply put_keeps|]. split; [intros k' fp' Hk; by eapply kept_put|].
  intros st2 [x' Hx']%(kept_replay conflict k fp r). exists x'. rewrite Hg, Hfp. done.
Qed.

Lemma settles_ext {K} `{Countable K} {R} (f g : KeyedStore K R -> result measurement_exn (KeyedStore K R * PutResult R)) :
  (forall st, f st = g st) -> settles g -> settles f.
Proof.
  intros Hfg Hg st st' x. rewrite Hfg. intros (k & fp & Hk & Hkeep & Hagain)%Hg. exists k, fp.
  split; [done|]. split; [done|]. intros st2 Hst2. rewrite Hfg. auto.
Qed.

Lemma open_window_settles t w : settles (open_window t w).
Proof.
  refine (settles_ext _ (fun st => _ ← (_ ← _require_tenant t; _ensure_caller_owns t (sw_tenant_id w)); _) _ (guarded_settles _ _ _ _ _)).
  intros st. unfold open_window. by destruct (_require_tenant t).
Qed.

Lemma append_decision_settles t d : settles (append_decision t d).
Proof.
  refine (settles_ext _ (fun st => _ ← (_ ← _require_tenant t; _ensure_caller_owns t (od_tenant_id d)); _) _ (guarded_settles _ _ _ _ _)).
  intros st. unfold append_decision. by destruct (_require_tenant t).
Qed.

Lemma put_bundle_settles t h b : settles (put_bundle t h b).
Proof.
  refine (settles_ext _ (fun st => _ ← (_ ← _require_tenant t; _ ← raise_if (empty h) (MPy ValueError);
    _ensure_caller_owns t (eb_tenant_id b)); _) _ (guarded_settles _ _ _ _ _)).
  intros st. unfold put_bundle. destruct (_require_tenant t); [|done]. cbn. by destruct (raise_if _ _).
Qed.

(** *** Steps of a run that a replay repeats without effect *)

Definition replays {A} (m : M Stores pipeline_exn A) : Prop :=
  forall ports ports' x, m ports = (ports', Ok x) ->
    keeps ports ports' /\ forall ports2, keeps ports' ports2 -> exists x', m ports2 = (ports2, Ok x').

(** The same, with the same answer. *)
Definition again {A} (m : M Stores pipeline_exn A) : Prop :=
  forall ports ports' x, m ports = (ports', Ok x) ->
    keeps ports ports' /\ forall ports2, keeps ports' ports2 -> m ports2 = (ports2, Ok x).

Lemma again_bind {A B} (m : M Stores pipeline_exn A) (k : A -> M Stores pipeline_exn B) :
  again m -> (forall a, again (k a)) -> again (a ← m; k a).
Proof.
  intros Hm Hk ports ports' x (q & a & [Hkeep1 Ha]%Hm & [Hkeep2 Hx]%Hk)%M_bind_Ok.
  split; [by transitivity q|]. intros ports2 Hkeep. rewrite (M_bind_step _ _ ports2 ports2 a); [by apply Hx|].
  apply Ha. by transitivity ports'.
Qed.

Lemma replays_seq {A B} (m : M Stores pipeline_exn A) (k : M Stores pipeline_exn B) :
  replays m -> again k -> again (_ ← m; k).
Proof.
  intros Hm Hk ports ports' x (q & a & [Hkeep1 Ha]%Hm & [Hkeep2 Hx]%Hk)%M_bind_Ok.
  split; [by transitivity q|]. intros ports2 Hkeep. destruct (Ha ports2) as [a' Ha']; [by transitivity ports'|].
  rewrite (M_bind_step _ _ ports2 ports2 a'); [by apply Hx|done].
Qed.

Lemma again_lift {A} (m : result pipeline_exn A) : again (lift m).
Proof. intros ports ports' x [-> Hm]%lift_inv. split; [done|]. intros ports2 _. unfold lift. by rewrite Hm. Qed.

Lemma again_mret {A} (a : A) : again (mret a).
Proof. by intros ports ports' x [-> [= ->]]%mret_inv. Qed.

Lemma stored_in_Ok {A} (f : Stores -> result measurement_exn (Stores * A)) ports ports' x :
  stored_in f ports = (ports', Ok x) <-> f ports = Ok (ports', x).
Proof. unfold stored_in, try_update, try_except. destruct (f ports) as [[q y]|e]; naive_solver. Qed.

Lemma window_replays t w : replays (stored_in (open_window_port t w)).
Proof.
  intros ports ports' x. rewrite stored_in_Ok. unfold open_window_port. intros ([st y] & Hp & [= <- <-])%bind_Ok.
  apply open_window_settles in Hp as (k & fp & Hk & Hkeep & Hagain). split; [by split|].
  intros ports2 [_ Hw _ _]. destruct (Hagain _ (Hw _ _ Hk)) as [x' Hx']. exists x'. apply stored_in_Ok.
  rewrite Hx'. by destruct ports2.
Qed.

Lemma bundle_replays t h b : replays (stored_in (put_bundle_port t h b)).
Proof.
  intros ports ports' x. rewrite stored_in_Ok. unfold put_bundle_port. intros ([st y] & Hp & [= <- <-])%bind_Ok.
  apply put_bundle_settles in Hp as (k & fp & Hk & Hkeep & Hagain). split; [by split|].
  intros ports2 [_ _ _ Hw]. destruct (Hagain _ (Hw _ _ Hk)) as [x' Hx']. exists x'. apply stored_in_Ok.
  rewrite Hx'. by destruct ports2.
Qed.

Lemma decision_replays t d : replays (stored_in (append_decision_port t d)).
Proof.
  intros ports ports' x. rewrite stored_in_Ok. unfold append_decision_port. intros ([st y] & Hp & [= <- <-])%bind_Ok.
  apply append_decision_settles in Hp as (k & fp & Hk & Hkeep & Hagain). split; [by split|].
  intros ports2 [_ _ Hw _]. destruct (Hagain _ (Hw _ _ Hk)) as [x' Hx']. exists x'. apply stored_in_Ok.
  rewrite Hx'. by destruct ports2.
Qed.
(** The write of a confirmation as guards, fingerprint and [keyed_put]. *)
Lemma put_confirmation_eq t key r c :
  put_confirmation t key r c =
  (_ ← (_ ← _require_tenant t; _ ← raise_if (empty key) (MPy ValueError); _ensure_caller_owns t (cr_tenant_id r));
   fp ← lift_py (_confirmation_fingerprint r);
   x ← keyed_put IdempotencyConflictError (t, key) fp r (cs_keyed c);
   Ok ({| cs_keyed := x.1; cs_journal := match pr_outcome x.2 with
            | STORED => cs_journal c ++ [{| je_tenant_id := t; je_key := key; je_record := r |}]
            | DUPLICATE => cs_journal c end |}, x.2)).
Proof. unfold put_confirmation. destruct (_require_tenant t); [|done]. cbn. by destruct (raise_if _ _). Qed.

Lemma keyed_put_conflict {K} `{Countable K} {R} k fp (r : R) (st : KeyedStore K R) :
  keyed_put IdempotencyConflictError k fp r st = Raise IdempotencyConflictError -> exists fp', kept k fp' st /\ fp' <> fp.
Proof.
  unfold keyed_put, kept. destruct (assoc _ _) as [e|] eqn:Ha; [|done]. destruct (_ !! k) as [fp'|] eqn:Hf; [|done].
  case_bool_decide; [done|]. intros _. exists fp'. split; [|done]. split; [done|by exists e].
Qed.

(** What the answer to the write of a confirmation rests on. *)
Lemma put_confirmation_again t key r c :
  match put_confirmation t key r c with
  | Ok (c', _) => exists k fp, kept k fp (cs_keyed c') /\
      (forall k' fp', kept k' fp' (cs_keyed c) -> kept k' fp' (cs_keyed c')) /\
      forall c2, kept k fp (cs_keyed c2) -> exists x, put_confirmation t key r c2 = Ok (c2, x)
  | Raise IdempotencyConflictError => exists k fp, kept k fp (cs_keyed c) /\
      forall c2, kept k fp (cs_keyed c2) -> put_confirmation t key r c2 = Raise IdempotencyConflictError
  | Raise _ => True
  end.
Proof.
  rewrite put_confirmation_eq. set (guard := (_ ← _require_tenant _; _)).
  destruct guard as [[]|e] eqn:Hg; cbn [mbind result_bind].
  2: { destruct e; try done. exfalso. revert Hg. unfold guard, _require_tenant, _ensure_caller_owns, raise_if.
       by repeat case_match. }
  destruct (_confirmation_fingerprint r) as [fp|e] eqn:Hfp; cbn [lift_py try_except mbind result_bind]; [|done].
  assert (forall c2, put_confirmation t key r c2 = x ← keyed_put IdempotencyConflictError (t, key) fp r (cs_keyed c2);
    Ok ({| cs_keyed := x.1; cs_journal := match pr_outcome x.2 with
             | STORED => cs_journal c2 ++ [{| je_tenant_id := t; je_key := key; je_record := r |}]
             | DUPLICATE => cs_journal c2 end |}, x.2)) as Heq.
  { intros c2. rewrite put_confirmation_eq. fold guard. by rewrite Hg, Hfp. }
  destruct (keyed_put _ _ _ _ (cs_keyed c)) as [[ks x]|e] eqn:Hput; cbn [mbind result_bind fst snd cs_keyed].
  - exists (t, key), fp. split; [by eapply put_keeps|]. split; [intros k' fp' Hk; by eapply kept_put|].
    intros c2 [Hf [e He]]. rewrite Heq. unfold keyed_put. rewrite He, Hf, bool_decide_eq_true_2 by done. cbn.
    exists (Build_PutResult DUPLICATE e). by destruct c2.
  - destruct e; try done. apply keyed_put_conflict in Hput as (fp' & Hk & Hne). exists (t, key), fp'.
    split; [done|]. intros c2 Hk2. rewrite Heq. by rewrite (kept_other _ _ _ _ _ _ Hk2 Hne).
Qed.

(** Persisting again meets what it met before: its own record, or the other one. *)
Lemma persist_again i : again (persist_confirmation i).
Proof.
  intros ports ports' b Hb. unfold persist_confirmation in *.
  destruct (make_ConfirmationRecord _) as [rec|e]; cbn [mbind result_bind] in *.
  2: { destruct e; try discriminate Hb. by injection Hb as <- <-. }
  unfold put_confirmation_port in *.
  pose proof (put_confirmation_again (mi_tenant_id i) (dc_idempotency_key (deployment_confirmation i)) rec (st_confirmations ports)) as Hput.
  destruct (put_confirmation _ _ _ _) as [[c x]|e]; cbn [mbind result_bind fst snd] in *.
  - injection Hb as <- <-. destruct Hput as (k & fp & Hk & Hkeep & Hagain). split; [by split|].
    intros ports2 [Hc _ _ _]. destruct (Hagain _ (Hc _ _ Hk)) as [x' ->]. cbn. by destruct ports2.
  - destruct e; try discriminate Hb. injection Hb as <- <-. destruct Hput as (k & fp & Hk & Hagain). split; [done|].
    intros ports2 [Hc _ _ _]. by rewrite (Hagain _ (Hc _ _ Hk)).
Qed.

Lemma conclude_again i p s : again (conclude i p s).
Proof.
  unfold conclude. apply again_bind; [apply again_lift|]. intros [m c].
  apply replays_seq.
  { unfold open_run_window. destruct (rs_window s) as [w|], (manifest_hash m) as [h|].
    all: try (intros ports ports' x [-> [= ->]]%mret_inv; split; [done|]; intros ports2 _; by exists tt).
    intros ports ports' x (q1 & rec & [-> Hrec]%lift_inv & (q2 & y & Hy & [-> _]%mret_inv)%M_bind_Ok)%M_bind_Ok.
    destruct (window_replays _ _ _ _ _ Hy) as [Hkeep Hagain]. split; [done|]. intros ports2 Hk2.
    exists tt. rewrite (M_bind_step _ _ ports2 ports2 rec) by (unfold lift; by rewrite Hrec).
    destruct (Hagain _ Hk2) as [y' Hy']. by rewrite (M_bind_step _ _ ports2 ports2 y'). }
  apply again_bind; [apply again_lift|]. intros o. apply again_bind; [apply again_lift|]. intros ref.
  apply again_bind; [apply again_lift|]. intros bundle. apply replays_seq; [apply bundle_replays|].
  apply again_bind; [apply again_lift|]. intros d. apply replays_seq; [apply decision_replays|]. apply again_mret.
Qed.

Lemma run_op_keeps ports op : keeps ports (run_op ports op).
Proof.
  destruct op as [t key r|t w|t d|t h b]; cbn.
  - pose proof (put_confirmation_again t key r (st_confirmations ports)) as Hput.
    destruct (put_confirmation _ _ _ _) as [[c x]|e]; [|done]. destruct Hput as (k & fp & _ & Hkeep & _). by split.
  - destruct (open_window _ _ _) as [[c x]|e] eqn:Hput; [|done].
    apply open_window_settles in Hput as (k & fp & _ & Hkeep & _). by split.
  - destruct (append_decision _ _ _) as [[c x]|e] eqn:Hput; [|done].
    apply append_decision_settles in Hput as (k & fp & _ & Hkeep & _). by split.
  - destruct (put_bundle _ _ _ _) as [[c x]|e] eqn:Hput; [|done].
    apply put_bundle_settles in Hput as (k & fp & _ & Hkeep & _). by split.
Qed.

Lemma run_ops_keeps ops : forall ports, keeps ports (run_ops ops ports).
Proof.
  induction ops as [|op ops IH]; intros ports; cbn; [done|]. transitivity (run_op ports op); [apply run_op_keeps|apply IH].
Qed.

(** C9: A replay is settled: a run that returned an outcome returns that outcome
    again, and writes nothing, after any other writes to the stores; so one run
    never leaves two decisions. *)
Theorem replay_settled i p ports ports1 o others :
  run_measurement i p ports = (ports1, Ok o) ->
  run_measurement i p (run_ops others ports1) = (run_ops others ports1, Ok o).
Proof.
  assert (again (run_measurement i p)) as Hagain.
  { apply again_bind; [apply persist_again|]. intros b. apply again_bind; [apply again_lift|apply conclude_again]. }
  intros Hrun. apply Hagain in Hrun as [_ Hrun]. apply Hrun, run_ops_keeps.
Qed.
End replay.

(** ** Witnesses *)

Module Witness.
#[local] Existing Instance sci_float_repr.
#[local] Existing Instance plain_datetime_json.
Import Confirmation.Witness.

(** Two signals on two layers, from two evidence bases. *)
Definition lift_on (layer basis : string) (post_control : list Z) : SignalSeries :=
  let s := Did.Witness.series_of (u "m") [10; 11; 12]%Z [30; 31; 32]%Z [10; 10; 10]%Z post_control in
  {| Did.layer := u layer; Did.metric_id := Did.metric_id s; Did.evidence_basis_id := u basis; cells := cells s |}.

Definition zeros : pystr := _SHA256_PREFIX ++ replicate 64 48%N.
Definition provenance : EvidenceMetadata :=
  {| timestamp := Some (u "2026-01-01T00:00:00Z"); client_version := Some (u "1.0.0"); Evidence.asset_hash := Some zeros;
     citation := None; citation_present := Some false; extra := None |}.

Definition policies_with (bundle : option GrsPolicyBundle) : MeasurementPolicies :=
  {| weights := not_registered; did_policy := Did.Witness.policy;
     gate_policy := {| gp_version := u "1"; gp_hash := u "h"; gp_provenance := BGate.PRODUCTION |};
     clock_policy := default_policy; grs_bundle := bundle;
     trust_verifier := Some trusting; allowed_confirmation_skew_seconds := 300 |}.
Definition policies : MeasurementPolicies :=
  policies_with (Grs.Witness.loaded (Grs.Witness.raw (u "1.0.0") Grs.Witness.thresholds)).

(** One signal carries provenance for its treatment observation. *)
Definition run_on (basis : string) (evaluation : Z) (sub : MeasurementSubmission) (signals : list SignalSeries) : MeasurementInputs :=
  {| mi_tenant_id := u "t"; mi_run_id := u "r"; mi_experiment_id := u "e1";
     registration := Some Binding.Witness.e1; registration_view := view1; submission := sub; mi_signals := signals;
     deployment_confirmation := confirmation1; server_received_at := received1;
     evaluation_at := at_utc evaluation; prior_confirmations := ∅; grs_inputs := Grs.Witness.obs 70 2 0;
     baseline_evidence := []; treatment_evidence := [(u basis, provenance)]; control_evidence := [] |}.
Definition run_with := run_on "b1".

Definition elapsed : Z := NOON + 8 * DAY.
Definition admitted : MeasurementSubmission := Binding.Witness.submission Binding.Witness.clean_run.
Definition two_signals : list SignalSeries := [lift_on "citation" "b1" [15; 15; 15]%Z; lift_on "discovery" "b2" [15; 15; 15]%Z].
Definition inputs : MeasurementInputs := run_with elapsed admitted two_signals.
Definition ports1 : Stores := (run_measurement inputs policies empty_stores).1.

Definition summary (r : Stores * result pipeline_exn ExperimentOutcome) : OutcomeStatus * list ReasonCode * bool + pipeline_exn :=
  match r.2 with
  | Ok o => inl (eo_status o, eo_reason_codes o, eo_evidence_bundle_complete o)
  | Raise e => inr e
  end.

(** A PASS does not ask for a complete bundle: one observation with provenance
    is enough, though the bundle reports what is missing. *)
Example incomplete_bundle_passes : summary (run_measurement inputs policies empty_stores) = inl (Pass, [], false).
Proof. vm_compute. reflexivity. Qed.

(** A submission of another tenant is not bound, but is still reported FAIL. *)
Definition foreign : MeasurementSubmission :=
  {| ms_experiment_id := ms_experiment_id admitted; ms_tenant_id := u "other"; ms_anchored_hash := ms_anchored_hash admitted;
     ms_content_fingerprint := ms_content_fingerprint admitted; ms_metrics := ms_metrics admitted;
     ms_observations := ms_observations admitted |}.

Definition one_signal : list SignalSeries := [lift_on "citation" "b1" [15; 15; 15]%Z].

Example unbound_submission_fails :
  summary (run_measurement (run_with elapsed foreign one_signal) (policies_with None) empty_stores)
  = inl (Fail, [GRS_POLICY_MISSING; BGate.IDENTITY_MISMATCH; SINGLE_LAYER_ONLY], false).
Proof. vm_compute. reflexivity. Qed.

(** Too early; the run is then decided, and its evaluation at the end of the
    window is refused by the store with an exception of the run. *)
Example evaluated_too_early :
  let run at_time := run_measurement (run_with at_time foreign []) (policies_with None) in
  summary (run elapsed (run (NOON + 3 * DAY)%Z empty_stores).1) = inr (StoreError AppendOnlyViolationError).
Proof. vm_compute. reflexivity. Qed.

(** An evidence basis whose name looks like a key ends the run in an exception. *)
Example key_shaped_basis_raises :
  let basis := "sk-citations0000000000000" in
  summary (run_measurement (run_on basis elapsed foreign [lift_on "citation" basis [15; 15; 15]%Z]) (policies_with None) empty_stores)
  = inr (EvidenceError (RawContentRejected (u "uri") secret_shaped_value)).
Proof. vm_compute. reflexivity. Qed.

Lemma inputs_pass : exists ports o, run_measurement inputs policies empty_stores = (ports, Ok o) /\ eo_status o = Pass.
Proof.
  pose proof incomplete_bundle_passes as Hs. unfold summary in Hs.
  destruct (run_measurement inputs policies empty_stores) as [ports [o|e]]; [|discriminate Hs].
  exists ports, o. split; [done|]. cbn in Hs. congruence.
Qed.

Lemma pass_exact_witness : ~ conflicts inputs empty_stores /\ grounds inputs policies.
Proof.
  destruct inputs_pass as (ports & o & E & Hp).
  exact (proj1 (pass_exact inputs policies empty_stores ports o E) Hp).
Defined.

Lemma replay_settled_witness :
  exists ports o, run_measurement inputs policies empty_stores = (ports, Ok o) /\
    forall others, run_measurement inputs policies (run_ops others ports) = (run_ops others ports, Ok o).
Proof.
  destruct inputs_pass as (ports & o & E & _).
  exists ports, o. split; [exact E|]. intros others. exact (replay_settled inputs policies empty_stores ports o others E).
Defined.
End Witness.
