(* ===== verification/MeasurementWorkflow.v ===== *)
(** The durable measurement workflow
    (experiment-attribution-service: workflow/workflow_logic.py,
    workflow/workflow.py, and [derive_window] of workflow/activities.py).

    [run] is a coroutine that the Temporal runtime resumes; its state is the
    workflow object and the point where it waits.  One step of the relation is
    an event: the start of [run], a signal, a completed activity, the passage of
    time, or a resumption of the coroutine.  Signals may come at any time, also
    before [run] starts.  An activity that raises is retried by the runtime, so
    it gives no event. *)

From S2P Require Import Prelude PyStr PyVal PyTime Confirmation.

(** ** workflow_logic.py *)

Inductive MeasurementOutcomeStatus := DECIDED | UNDETERMINED_DEPLOYMENT_LATE | UNDETERMINED_ABORTED.

Inductive SignalDisposition := START | DUPLICATE_SIGNAL | CONFLICTING_REPLAY_SIGNAL | REFUSED_STRUCTURAL.

Record WindowBinding := { wb_idempotency_key : pystr; wb_content_fingerprint : pystr }.

#[export] Instance WindowBinding_eq_dec : EqDecision WindowBinding.
Proof. solve_decision. Defined.

Record MeasurementOutcome := {
  mo_status : MeasurementOutcomeStatus; mo_idempotency_key : pystr;
  mo_outcome_ref : option pystr; mo_reason : option pystr
}.

Definition extract_binding (accepted : Accepted) : WindowBinding := {|
  wb_idempotency_key := dc_idempotency_key (ac_confirmation accepted);
  wb_content_fingerprint := ac_content_fingerprint accepted
|}.

(** A signal's payload: an [Accepted], or anything else. *)
Definition classify_confirmation_signal (accepted_payload : option Accepted)
    (existing_binding : option WindowBinding) (expected_registration_hash : pystr) : SignalDisposition :=
  match accepted_payload with
  | None => REFUSED_STRUCTURAL
  | Some accepted =>
      if bool_decide (rv_registration_canonical_hash (ac_registration_view accepted)
                      <> expected_registration_hash) then REFUSED_STRUCTURAL
      else
        let incoming := extract_binding accepted in
        match existing_binding with
        | None => START
        | Some existing =>
            if bool_decide (wb_idempotency_key incoming = wb_idempotency_key existing)
               && bool_decide (wb_content_fingerprint incoming = wb_content_fingerprint existing)
            then DUPLICATE_SIGNAL
            else CONFLICTING_REPLAY_SIGNAL
        end
  end.

Definition deployment_late_outcome (key : pystr) : MeasurementOutcome := {|
  mo_status := UNDETERMINED_DEPLOYMENT_LATE; mo_idempotency_key := key;
  mo_outcome_ref := None; mo_reason := Some (u "deployment_late")
|}.

Definition aborted_outcome (key : pystr) : MeasurementOutcome := {|
  mo_status := UNDETERMINED_ABORTED; mo_idempotency_key := key;
  mo_outcome_ref := None; mo_reason := Some (u "aborted")
|}.

Definition decided_outcome (key outcome_ref : pystr) : MeasurementOutcome := {|
  mo_status := DECIDED; mo_idempotency_key := key;
  mo_outcome_ref := Some outcome_ref; mo_reason := None
|}.

(** ** activities.py *)

(** [FrozenWindowRecord.from_domain] copies the five fields of the window. *)
Definition derive_window (accepted : Accepted) : result pyexn (option MeasurementWindow) :=
  verdict ← start_measurement_window accepted (ac_registration_view accepted) None;
  match verdict with
  | DeploymentLate => Ok None
  | Started window => Ok (Some window)
  end.

(** ** workflow.py *)

Record MeasurementWorkflowInput := { wi_expected_registration_hash : pystr; wi_run_id : pystr }.

(** The fields of [MeasurementWorkflow]. *)
Record Fields := {
  wf_expected_registration_hash : option pystr;
  wf_binding : option WindowBinding;
  wf_pending_accepted : option Accepted;
  wf_window_days : option Z;
  wf_aborted : bool;
  wf_paused : bool;
  wf_conflicting_replays : Z
}.

Definition init_fields : Fields := {|
  wf_expected_registration_hash := None; wf_binding := None; wf_pending_accepted := None;
  wf_window_days := None; wf_aborted := false; wf_paused := false; wf_conflicting_replays := 0
|}.

(** Where [run] waits; the locals it keeps.  [AwaitWindowEnd] holds the instant
    at which the timer fires. *)
Inductive Control :=
  | NotStarted
  | AwaitBinding (input : MeasurementWorkflowInput)
  | AwaitDerive (binding : WindowBinding) (accepted : Accepted)
  | AwaitWindowEnd (binding : WindowBinding) (fires_at : Z)
  | AwaitUnpaused (binding : WindowBinding)
  | AwaitDecide (binding : WindowBinding)
  | Returned (outcome : MeasurementOutcome)
  | Failed (e : pyexn).

(** [ws_now] is [workflow.now()], an instant. *)
Record WorkflowState := { ws_fields : Fields; ws_control : Control; ws_now : Z }.

Definition initial (now : Z) : WorkflowState :=
  {| ws_fields := init_fields; ws_control := NotStarted; ws_now := now |}.

(** *** The signal handlers and the query *)

Definition set_binding (f : Fields) (accepted : Accepted) : Fields := {|
  wf_expected_registration_hash := wf_expected_registration_hash f;
  wf_binding := Some (extract_binding accepted);
  wf_pending_accepted := Some accepted;
  wf_window_days := wf_window_days f; wf_aborted := wf_aborted f; wf_paused := wf_paused f;
  wf_conflicting_replays := wf_conflicting_replays f
|}.

Definition set_flags (f : Fields) (aborted paused : bool) (conflicts : Z) : Fields := {|
  wf_expected_registration_hash := wf_expected_registration_hash f;
  wf_binding := wf_binding f; wf_pending_accepted := wf_pending_accepted f;
  wf_window_days := wf_window_days f; wf_aborted := aborted; wf_paused := paused;
  wf_conflicting_replays := conflicts
|}.

Definition deployment_confirmed (payload : option Accepted) (f : Fields) : Fields :=
  match classify_confirmation_signal payload (wf_binding f) (default [] (wf_expected_registration_hash f)),
        payload with
  | START, Some accepted => set_binding f accepted
  | CONFLICTING_REPLAY_SIGNAL, _ =>
      set_flags f (wf_aborted f) (wf_paused f) (wf_conflicting_replays f + 1)
  | _, _ => f
  end.

Definition pause_observation (f : Fields) : Fields :=
  set_flags f (wf_aborted f) true (wf_conflicting_replays f).

Definition resume (f : Fields) : Fields :=
  set_flags f (wf_aborted f) false (wf_conflicting_replays f).

Definition abort_measurement (f : Fields) : Fields :=
  set_flags f true (wf_paused f) (wf_conflicting_replays f).

Record MeasurementWorkflowStatus := {
  st_window_bound : bool; st_paused : bool; st_aborted : bool; st_conflicting_replays : Z;
  st_window_days : option Z
}.

Definition status (f : Fields) : MeasurementWorkflowStatus := {|
  st_window_bound := match wf_binding f with Some _ => true | None => false end;
  st_paused := wf_paused f; st_aborted := wf_aborted f;
  st_conflicting_replays := wf_conflicting_replays f; st_window_days := wf_window_days f
|}.

(** *** The coroutine

    Each function runs [run] from one of its waits to the next; [None] while
    the wait is not over. *)

Definition set_expected (f : Fields) (hash : pystr) : Fields := {|
  wf_expected_registration_hash := Some hash; wf_binding := wf_binding f;
  wf_pending_accepted := wf_pending_accepted f; wf_window_days := wf_window_days f;
  wf_aborted := wf_aborted f; wf_paused := wf_paused f;
  wf_conflicting_replays := wf_conflicting_replays f
|}.

Definition set_window_days (f : Fields) (days : Z) : Fields := {|
  wf_expected_registration_hash := wf_expected_registration_hash f; wf_binding := wf_binding f;
  wf_pending_accepted := wf_pending_accepted f; wf_window_days := Some days;
  wf_aborted := wf_aborted f; wf_paused := wf_paused f;
  wf_conflicting_replays := wf_conflicting_replays f
|}.

(** Step 1, [wait_condition(binding is not None or aborted)]. *)
Definition after_binding (input : MeasurementWorkflowInput) (f : Fields) : option Control :=
  if wf_aborted f then
    Some (Returned (aborted_outcome (match wf_binding f with
                                     | Some b => wb_idempotency_key b
                                     | None => wi_run_id input
                                     end)))
  else
    match wf_binding f, wf_pending_accepted f with
    | Some binding, Some accepted => Some (AwaitDerive binding accepted)
    | Some _, None => Some (Failed AssertionError)
    | None, _ => None
    end.

(** Step 4, [wait_condition(not paused or aborted)]. *)
Definition after_pause (binding : WindowBinding) (f : Fields) : option Control :=
  if wf_aborted f then Some (Returned (aborted_outcome (wb_idempotency_key binding)))
  else if wf_paused f then None
  else Some (AwaitDecide binding).

(** Past the timer: the abort check, then the wait for a resume. *)
Definition past_timer (binding : WindowBinding) (f : Fields) : Control :=
  if wf_aborted f then Returned (aborted_outcome (wb_idempotency_key binding))
  else default (AwaitUnpaused binding) (after_pause binding f).

(** Steps 2 and 3: the result of [derive_window], then the timer towards
    [window.end], an instant of an aware datetime ([now] is aware). *)
Definition after_derive (binding : WindowBinding) (window : option MeasurementWindow) (now : Z) (f : Fields)
    : Fields * Control :=
  match window with
  | None => (f, Returned (deployment_late_outcome (wb_idempotency_key binding)))
  | Some window =>
      let f := set_window_days f (mw_window_days window) in
      let remaining := (instant (mw_end window) - now)%Z in
      (f, if (0 <? remaining)%Z && negb (wf_aborted f)
          then AwaitWindowEnd binding (now + remaining)
          else past_timer binding f)
  end.

(** Step 3, [wait_condition(aborted, timeout=remaining)]. *)
Definition after_window (binding : WindowBinding) (fires_at now : Z) (f : Fields) : option Control :=
  if wf_aborted f || (fires_at <=? now)%Z then Some (past_timer binding f) else None.

(** *** Steps *)

Inductive event :=
  | RunStarts (input : MeasurementWorkflowInput)
  | DeploymentConfirmed (payload : option Accepted)
  | PauseObservation | Resume | AbortMeasurement
  | Resumed
  | WindowDerived
  | OutcomeDecided (outcome_ref : pystr)
  | TimePasses (until : Z).

Definition with_fields (s : WorkflowState) (f : Fields) : WorkflowState :=
  {| ws_fields := f; ws_control := ws_control s; ws_now := ws_now s |}.

Definition with_control (s : WorkflowState) (f : Fields) (c : Control) : WorkflowState :=
  {| ws_fields := f; ws_control := c; ws_now := ws_now s |}.

(** A run that returned or failed is closed to signals. *)
Definition closed (c : Control) : bool :=
  match c with Returned _ | Failed _ => true | _ => false end.

Definition on_signal (s : WorkflowState) (handler : Fields -> Fields) : option WorkflowState :=
  if closed (ws_control s) then None else Some (with_fields s (handler (ws_fields s))).

(** One event, [None] when it cannot happen. *)
Definition step (s : WorkflowState) (e : event) : option WorkflowState :=
  match e, ws_control s with
  | RunStarts input, NotStarted =>
      let f := set_expected (ws_fields s) (wi_expected_registration_hash input) in
      Some (with_control s f (default (AwaitBinding input) (after_binding input f)))
  | Resumed, AwaitBinding input =>
      with_control s (ws_fields s) <$> after_binding input (ws_fields s)
  | WindowDerived, AwaitDerive binding accepted =>
      match derive_window accepted with
      | Raise _ => None
      | Ok window =>
          let '(f, c) := after_derive binding window (ws_now s) (ws_fields s) in
          Some (with_control s f c)
      end
  | Resumed, AwaitWindowEnd binding fires_at =>
      with_control s (ws_fields s) <$> after_window binding fires_at (ws_now s) (ws_fields s)
  | Resumed, AwaitUnpaused binding =>
      with_control s (ws_fields s) <$> after_pause binding (ws_fields s)
  | OutcomeDecided outcome_ref, AwaitDecide binding =>
      Some (with_control s (ws_fields s)
              (Returned (decided_outcome (wb_idempotency_key binding) outcome_ref)))
  | DeploymentConfirmed payload, _ => on_signal s (deployment_confirmed payload)
  | PauseObservation, _ => on_signal s pause_observation
  | Resume, _ => on_signal s resume
  | AbortMeasurement, _ => on_signal s abort_measurement
  | TimePasses until, _ =>
      if (ws_now s <=? until)%Z
      then Some {| ws_fields := ws_fields s; ws_control := ws_control s; ws_now := until |} else None
  | _, _ => None
  end.

Fixpoint steps (s : WorkflowState) (es : list event) : option WorkflowState :=
  match es with
  | [] => Some s
  | e :: es => s' ← step s e; steps s' es
  end.

(** ** Lemmas *)

(** The run is bound to the acceptance [a]. *)
Definition bound_to (f : Fields) (a : Accepted) : Prop :=
  wf_pending_accepted f = Some a /\ wf_binding f = Some (extract_binding a).

Definition unbound (f : Fields) : Prop := wf_pending_accepted f = None /\ wf_binding f = None.

Definition key_of (a : Accepted) : pystr := dc_idempotency_key (ac_confirmation a).

(** The run is bound and its window has closed by [now]. *)
Definition window_closed (f : Fields) (b : WindowBinding) (now : Z) : Prop :=
  exists a w, bound_to f a /\ b = extract_binding a /\ derive_window a = Ok (Some w) /\
    (instant (mw_end w) <= now)%Z.

(** What each wait, and each outcome, rests on. *)
Definition control_ok (f : Fields) (c : Control) (now : Z) : Prop :=
  match c with
  | NotStarted | AwaitBinding _ => True
  | AwaitDerive b a => bound_to f a /\ b = extract_binding a
  | AwaitWindowEnd b t =>
      exists a w, bound_to f a /\ b = extract_binding a /\ derive_window a = Ok (Some w) /\
        t = instant (mw_end w)
  | AwaitUnpaused b | AwaitDecide b => window_closed f b now
  | Returned o =>
      match mo_status o with
      | DECIDED => exists b ref, window_closed f b now /\ o = decided_outcome (wb_idempotency_key b) ref
      | UNDETERMINED_DEPLOYMENT_LATE =>
          exists a, bound_to f a /\ derive_window a = Ok None /\ o = deployment_late_outcome (key_of a)
      | UNDETERMINED_ABORTED =>
          wf_aborted f = true /\
          (unbound f \/ exists a, bound_to f a /\ o = aborted_outcome (key_of a))
      end
  | Failed _ => False
  end.

Definition state_ok (s : WorkflowState) : Prop :=
  (unbound (ws_fields s) \/ exists a, bound_to (ws_fields s) a) /\
  control_ok (ws_fields s) (ws_control s) (ws_now s).

Lemma bound_to_binding f a b : bound_to f a -> wf_binding f = Some b -> b = extract_binding a.
Proof. intros [_ ->]. by intros [= <-]. Qed.

(** Past the timer at a closed window, or aborted. *)
Lemma past_timer_ok f b now :
  (exists a, bound_to f a /\ b = extract_binding a) -> wf_aborted f = true \/ window_closed f b now ->
  control_ok f (past_timer b f) now.
Proof.
  intros (a & Ha & ->) Hw. unfold past_timer, after_pause.
  destruct (wf_aborted f) eqn:Ea; [by cbn; eauto|]. destruct Hw as [|Hw]; [done|].
  by destruct (wf_paused f).
Qed.

Lemma after_binding_ok input f now c :
  unbound f \/ (exists a, bound_to f a) -> after_binding input f = Some c -> control_ok f c now.
Proof.
  unfold after_binding. intros Hf. destruct (wf_aborted f) eqn:Ea.
  - intros [= <-]. cbn. split; [done|]. destruct Hf as [|(a & Ha)]; [by left|].
    right. exists a. split; [done|]. by destruct Ha as [? ->].
  - destruct Hf as [[_ ->]|(a & [Hp Hb])]; [done|]. rewrite Hp, Hb. by intros [= <-].
Qed.

(** A confirmation signal binds the run once; later ones change no binding. *)
Lemma confirmed_bound payload f a : bound_to f a -> bound_to (deployment_confirmed payload f) a.
Proof.
  intros [Hp Hb]. unfold deployment_confirmed, classify_confirmation_signal. rewrite Hb.
  destruct payload as [a'|]; [|done]. case_bool_decide; [done|]. by destruct (_ && _).
Qed.

Lemma confirmed_fields payload f :
  unbound f \/ (exists a, bound_to f a) ->
  unbound (deployment_confirmed payload f) \/ exists a, bound_to (deployment_confirmed payload f) a.
Proof.
  intros [[Hp Hb]|(a & Ha)]; [|by right; exists a; apply confirmed_bound].
  unfold deployment_confirmed, classify_confirmation_signal. rewrite Hb.
  destruct payload as [a|]; [|by left]. case_bool_decide; [by left|]. right. by exists a.
Qed.

(** A handler that keeps the bindings keeps what the control rests on. *)
Lemma control_ok_fields f f' c now :
  closed c = false -> (forall a, bound_to f a -> bound_to f' a) -> control_ok f c now -> control_ok f' c now.
Proof.
  intros Hc Hb. destruct c as [|input|b a|b t|b|b|o|e]; cbn; try done; unfold window_closed; naive_solver.
Qed.

Lemma set_flags_bound f x y z a : bound_to f a <-> bound_to (set_flags f x y z) a.
Proof. done. Qed.

Lemma window_closed_later f b now now' :
  (now <= now')%Z -> window_closed f b now -> window_closed f b now'.
Proof. intros Hn (a & w & Ha & Hb & Hd & Hi). exists a, w. split_and!; try done. lia. Qed.

Lemma control_ok_later f c now now' : (now <= now')%Z -> control_ok f c now -> control_ok f c now'.
Proof.
  intros Hn. destruct c as [|input|b a|b t|b|b|o|e]; cbn; try done; try by apply window_closed_later.
  destruct (mo_status o); try done. intros (b & ref & Hw & Ho). exists b, ref.
  split; [by eapply window_closed_later|done].
Qed.

Lemma after_derive_ok b a window now f :
  bound_to f a -> b = extract_binding a -> derive_window a = Ok window ->
  let '(f', c) := after_derive b window now f in
  (forall a', bound_to f a' -> bound_to f' a') /\ control_ok f' c now.
Proof.
  intros Ha -> Hd. destruct window as [w|]; cbn; [|by split; [|exists a]].
  split; [done|]. destruct ((0 <? _)%Z && _) eqn:E; bprop.
  - exists a, w. split_and!; [done..|lia].
  - apply past_timer_ok; [by exists a|]. cbn. rewrite Z.ltb_ge in E.
    destruct (wf_aborted f); [by left|]. right. exists a, w. split_and!; [done..|]. destruct E; [lia|done].
Qed.

Lemma on_signal_ok s handler s' :
  (forall f, unbound f \/ (exists a, bound_to f a) ->
     (unbound (handler f) \/ exists a, bound_to (handler f) a) /\
     (forall a, bound_to f a -> bound_to (handler f) a)) ->
  state_ok s -> on_signal s handler = Some s' -> state_ok s'.
Proof.
  intros Hh [Hf Hc]. unfold on_signal. destruct (closed _) eqn:E; [done|]. intros [= <-].
  destruct (Hh _ Hf) as [Hf' Hb]. split; [done|]. by eapply control_ok_fields.
Qed.

Lemma step_ok s e s' : state_ok s -> step s e = Some s' -> state_ok s'.
Proof.
  intros Hok. pose proof Hok as [Hf Hc].
  destruct e as [input|payload| | | | | |ref|t]; cbn [step].
  - destruct (ws_control s) eqn:E; try done. intros [= <-]. split; [done|]. cbn.
    destruct (after_binding _ _) as [c|] eqn:Ea; [|done]. by eapply after_binding_ok.
  - apply on_signal_ok; [|done]. intros f Hf'. split; [by apply confirmed_fields|].
    intros a. apply confirmed_bound.
  - by apply on_signal_ok.
  - by apply on_signal_ok.
  - by apply on_signal_ok.
  - destruct (ws_control s) as [|input|b a|b t|b|b|o|e] eqn:E; try done; cbn in Hc;
      intros (c & Hc' & ->)%fmap_Some; (split; [done|]); cbn.
    + by eapply after_binding_ok.
    + unfold after_window in Hc'. destruct (wf_aborted _ || _) eqn:Ew; [|done]. injection Hc' as <-.
      destruct Hc as (a & w & Ha & -> & Hd & ->). bprop. rewrite Z.leb_le in Ew.
      apply past_timer_ok; [by exists a|]. destruct Ew; [by left|right; by exists a, w].
    + unfold after_pause in Hc'. destruct Hc as (a & w & Ha & -> & Hd & Hw).
      destruct (wf_aborted _) eqn:Ea; [injection Hc' as <-; cbn; eauto|].
      destruct (wf_paused _); [done|]. injection Hc' as <-. by exists a, w.
  - destruct (ws_control s) as [|input|b a|b t|b|b|o|e] eqn:E; try done. cbn in Hc.
    destruct (derive_window a) as [window|] eqn:Ed; [|done]. destruct Hc as [Ha Hb].
    pose proof (after_derive_ok b a window (ws_now s) _ Ha Hb Ed) as Hok'.
    destruct (after_derive _ _ _ _) as [f c]. intros [= <-]. destruct Hok' as [Hmono Hc'].
    split; [right; exists a; auto|done].
  - destruct (ws_control s) eqn:E; try done. intros [= <-]. split; [done|]. cbn. by eexists _, _.
  - destruct (ws_now s <=? t)%Z eqn:E; [|done]. intros [= <-]. split; [done|].
    apply Z.leb_le in E. by eapply control_ok_later.
Qed.

Lemma steps_app s es1 es2 : steps s (es1 ++ es2) = steps s es1 ≫= fun s' => steps s' es2.
Proof.
  revert s. induction es1 as [|e es1 IH]; intros s; [done|]. cbn [steps app].
  destruct (step s e) as [s1|]; [|done]. apply IH.
Qed.

Lemma steps_ok s es s' : state_ok s -> steps s es = Some s' -> state_ok s'.
Proof.
  revert s. induction es as [|e es IH]; intros s Hok; cbn [steps]; [by intros [= <-]|].
  intros (s1 & Hs & Hes)%bind_Some. eapply IH; [by eapply step_ok|done].
Qed.

Lemma initial_ok now : state_ok (initial now).
Proof. split; [by left|done]. Qed.

(** Up to the timer, the run returns only as aborted and decides nothing. *)
Lemma after_binding_shape input f :
  match default (AwaitBinding input) (after_binding input f) with
  | Returned o => mo_status o = UNDETERMINED_ABORTED
  | AwaitBinding _ | AwaitDerive _ _ | Failed _ => True
  | _ => False
  end.
Proof.
  unfold after_binding. destruct (wf_aborted f); [done|].
  destruct (wf_binding f); [|done]. by destruct (wf_pending_accepted f).
Qed.

Lemma after_binding_Some input f c :
  after_binding input f = Some c -> default (AwaitBinding input) (after_binding input f) = c.
Proof. by intros ->. Qed.

(** What one step can add. *)
Lemma step_adds s e s' :
  step s e = Some s' ->
  (forall a, bound_to (ws_fields s') a -> bound_to (ws_fields s) a \/ e = DeploymentConfirmed (Some a)) /\
  (wf_aborted (ws_fields s') = true -> wf_aborted (ws_fields s) = true \/ e = AbortMeasurement) /\
  (forall k ref, ws_control s' = Returned (decided_outcome k ref) ->
   ws_control s = Returned (decided_outcome k ref) \/ e = OutcomeDecided ref).
Proof.
  assert (forall k ref b f, past_timer b f <> Returned (decided_outcome k ref)) as Hpt.
  { intros k ref b f. unfold past_timer, after_pause. by destruct (wf_aborted f), (wf_paused f). }
  destruct e as [input|payload| | | | | |ref'|t]; cbn [step]; unfold on_signal.
  - destruct (ws_control s); try done. intros [= <-]. cbn. split; [auto|]. split; [auto|]. intros k ref Ho.
    pose proof (after_binding_shape input (set_expected (ws_fields s) (wi_expected_registration_hash input))) as Hsh.
    by rewrite Ho in Hsh.
  - destruct (closed _); [done|]. intros [= <-]. cbn. split_and!; [|..|auto].
    + intros a. unfold deployment_confirmed, classify_confirmation_signal.
      destruct payload as [a'|]; [|auto]. case_bool_decide; [auto|].
      destruct (wf_binding (ws_fields s)); [by destruct (_ && _); auto|].
      intros [[= ->] _]. by right.
    + unfold deployment_confirmed. by destruct (classify_confirmation_signal _ _ _), payload; auto.
  - destruct (closed _); [done|]. intros [= <-]. cbn. auto.
  - destruct (closed _); [done|]. intros [= <-]. cbn. auto.
  - destruct (closed _); [done|]. intros [= <-]. cbn. auto.
  - destruct (ws_control s) as [|input|b a'|b t|b|b|o|e] eqn:E; try done;
      intros (c & Hc & ->)%fmap_Some; cbn; (split_and!; [auto|auto|]); intros k ref ->; exfalso.
    + apply after_binding_Some in Hc. pose proof (after_binding_shape input (ws_fields s)) as Hsh.
      by rewrite Hc in Hsh.
    + unfold after_window in Hc. destruct (_ || _); [|done]. injection Hc as Hc. by apply Hpt in Hc.
    + unfold after_pause in Hc. destruct (wf_aborted _) eqn:?; [done|]. by destruct (wf_paused _) eqn:?.
  - destruct (ws_control s) as [|input|b a'|b t|b|b|o|e] eqn:E; try done.
    destruct (derive_window a') as [window|]; [|done].
    destruct (after_derive _ _ _ _) as [f c] eqn:Ea. intros [= <-]. cbn.
    destruct window as [w|]; cbn in Ea; injection Ea as <- <-; (split_and!; [auto|auto|]); [|done].
    destruct (_ && _); [done|]. by intros k ref Hc%Hpt.
  - destruct (ws_control s); try done. intros [= <-]. cbn. split_and!; [auto|auto|].
    intros k ref [= _ ->]. by right.
  - destruct (_ <=? _)%Z; [|done]. intros [= <-]. cbn. auto.
Qed.

Lemma steps_adds s es s' :
  steps s es = Some s' ->
  (forall a, bound_to (ws_fields s') a -> bound_to (ws_fields s) a \/ DeploymentConfirmed (Some a) ∈ es) /\
  (wf_aborted (ws_fields s') = true -> wf_aborted (ws_fields s) = true \/ AbortMeasurement ∈ es) /\
  (forall k ref, ws_control s' = Returned (decided_outcome k ref) ->
   ws_control s = Returned (decided_outcome k ref) \/ OutcomeDecided ref ∈ es).
Proof.
  revert s. induction es as [|e es IH]; intros s; cbn [steps]; [intros [= <-]; auto|].
  intros (s1 & Hs & Hes)%bind_Some.
  destruct (step_adds _ _ _ Hs) as (H1 & H2 & H3), (IH _ Hes) as (I1 & I2 & I3).
  split_and!.
  - intros a Ha. destruct (I1 a Ha) as [Ha'|?]; [|by right; right].
    destruct (H1 a Ha') as [?| ->]; [by left|right; by left].
  - intros Ha. destruct (I2 Ha) as [Ha'|?]; [|by right; right].
    destruct (H2 Ha') as [?| ->]; [by left|right; by left].
  - intros k ref Ho. destruct (I3 k ref Ho) as [Ho'|?]; [|by right; right].
    destruct (H3 k ref Ho') as [?| ->]; [by left|right; by left].
Qed.

(** A step into the decision. *)
Lemma step_decides s e s' b :
  state_ok s -> step s e = Some s' -> ws_control s' = AwaitDecide b -> ws_control s <> AwaitDecide b ->
  wf_aborted (ws_fields s') = false /\ wf_paused (ws_fields s') = false.
Proof.
  intros Hok. assert (forall b f, past_timer b f = AwaitDecide b -> wf_aborted f = false /\ wf_paused f = false) as Hpt.
  { intros b' f. unfold past_timer, after_pause. by destruct (wf_aborted f), (wf_paused f). }
  assert (forall b' f, past_timer b' f = AwaitDecide b -> b' = b) as Hb.
  { intros b' f. unfold past_timer, after_pause. destruct (wf_aborted f), (wf_paused f); cbn; try done.
    by intros [= ->]. }
  destruct e as [input|payload| | | | | |ref'|t]; cbn [step]; unfold on_signal.
  - destruct (ws_control s); try done. intros [= <-]. cbn. intros Ho.
    pose proof (after_binding_shape input (set_expected (ws_fields s) (wi_expected_registration_hash input))) as Hsh.
    by rewrite Ho in Hsh.
  - destruct (closed _); [done|]. by intros [= <-].
  - destruct (closed _); [done|]. by intros [= <-].
  - destruct (closed _); [done|]. by intros [= <-].
  - destruct (closed _); [done|]. by intros [= <-].
  - destruct (ws_control s) as [|input|b' a'|b' t|b'|b'|o|e] eqn:E; try done;
      intros (c & Hc & ->)%fmap_Some; cbn; intros -> _.
    + apply after_binding_Some in Hc. pose proof (after_binding_shape input (ws_fields s)) as Hsh.
      by rewrite Hc in Hsh.
    + unfold after_window in Hc. destruct (_ || _); [|done]. injection Hc as Hc.
      pose proof (Hb _ _ Hc) as ->. by apply Hpt in Hc.
    + unfold after_pause in Hc. destruct (wf_aborted _); [done|]. by destruct (wf_paused _).
  - destruct (ws_control s) as [|input|b' a'|b' t|b'|b'|o|e] eqn:E; try done.
    destruct (derive_window a') as [window|]; [|done].
    destruct (after_derive _ _ _ _) as [f c] eqn:Ea. intros [= <-]. cbn. intros -> _.
    destruct window as [w|]; cbn in Ea; [|done]. injection Ea as <- Ea.
    destruct (_ && _); [done|]. pose proof (Hb _ _ Ea) as ->. by apply Hpt in Ea.
  - destruct (ws_control s); try done. by intros [= <-].
  - destruct (_ <=? _)%Z; [|done]. by intros [= <-].
Qed.

(** ** Properties *)

(** C7: no outcome without its ground.  In every reachable state of the
    workflow: the run never fails; the step that schedules the decision is
    taken at or after the end of the window of the bound acceptance, while the
    run is neither aborted nor paused; a decided outcome names the key of an
    acceptance that was signalled, whose derived window had closed, and the
    reference the decision gave; a late outcome means that no window was
    derived; and an aborted outcome means that an abort was signalled. *)
Theorem outcome_has_ground now es s :
  steps (initial now) es = Some s ->
  (forall e, ws_control s <> Failed e) /\
  (forall e s' b, step s e = Some s' -> ws_control s' = AwaitDecide b -> ws_control s <> AwaitDecide b ->
     wf_aborted (ws_fields s') = false /\ wf_paused (ws_fields s') = false /\
     window_closed (ws_fields s') b (ws_now s')) /\
  (forall o, ws_control s = Returned o ->
     match mo_status o with
     | DECIDED => exists a w ref,
         DeploymentConfirmed (Some a) ∈ es /\ derive_window a = Ok (Some w) /\
         (instant (mw_end w) <= ws_now s)%Z /\
         OutcomeDecided ref ∈ es /\ o = decided_outcome (key_of a) ref
     | UNDETERMINED_DEPLOYMENT_LATE => exists a,
         DeploymentConfirmed (Some a) ∈ es /\ derive_window a = Ok None /\
         o = deployment_late_outcome (key_of a)
     | UNDETERMINED_ABORTED => AbortMeasurement ∈ es
     end).
Proof.
  intros Hes. pose proof (steps_ok _ _ _ (initial_ok now) Hes) as Hok. pose proof Hok as [Hf Hc].
  destruct (steps_adds _ _ _ Hes) as (Hadd & Hab & Href). split_and!.
  - intros e He. by rewrite He in Hc.
  - intros e s' b Hs Hd Hne. destruct (step_decides _ _ _ _ Hok Hs Hd Hne). split_and!; [done..|].
    destruct (step_ok _ _ _ Hok Hs) as [_ Hc']. by rewrite Hd in Hc'.
  - intros o Ho. rewrite Ho in Hc. cbn in Hc. destruct (mo_status o).
    + destruct Hc as (b & ref & (a & w & Ha & -> & Hd & Hw) & ->). exists a, w, ref.
      destruct (Hadd _ Ha) as [[? _]|?]; [done|]. destruct (Href _ _ Ho) as [?|?]; [done|]. by split_and!.
    + destruct Hc as (a & Ha & Hd & ->). exists a.
      destruct (Hadd _ Ha) as [[? _]|?]; [done|]. by split_and!.
    + destruct Hc as [Ha _]. by destruct (Hab Ha).
Qed.

(** The signals that conflict with the acceptance [a] of a run registered
    under [hash]. *)
Definition conflicting (hash : pystr) (a : Accepted) (e : event) : bool :=
  match e with
  | DeploymentConfirmed (Some a') =>
      bool_decide (rv_registration_canonical_hash (ac_registration_view a') = hash)
      && bool_decide (extract_binding a' <> extract_binding a)
  | _ => false
  end.

Definition conflicts (hash : pystr) (a : Accepted) (es : list event) : Z :=
  Z.of_nat (length (filter (fun e => conflicting hash a e = true) es)).

Lemma conflicts_cons hash a e es :
  conflicts hash a (e :: es) = ((if conflicting hash a e then 1 else 0) + conflicts hash a es)%Z.
Proof.
  unfold conflicts. rewrite filter_cons. destruct (decide _) as [E|E].
  - rewrite E. cbn [length]. lia.
  - apply not_true_is_false in E. by rewrite E.
Qed.

Definition expects (f : Fields) (hash : pystr) : Prop := wf_expected_registration_hash f = Some hash.

Lemma binding_eq (b b' : WindowBinding) :
  bool_decide (wb_idempotency_key b' = wb_idempotency_key b)
  && bool_decide (wb_content_fingerprint b' = wb_content_fingerprint b) = bool_decide (b' = b).
Proof.
  destruct b as [k f], b' as [k' f']. cbn. apply Bool.eq_iff_eq_true.
  rewrite andb_true_iff, !bool_decide_eq_true. split; [by intros [-> ->]|by intros [= -> ->]].
Qed.

Lemma confirmed_conflict payload f a hash :
  bound_to f a -> expects f hash ->
  wf_conflicting_replays (deployment_confirmed payload f) =
    (wf_conflicting_replays f + if conflicting hash a (DeploymentConfirmed payload) then 1 else 0)%Z /\
  expects (deployment_confirmed payload f) hash.
Proof.
  intros [_ Hb] He. unfold deployment_confirmed, classify_confirmation_signal. rewrite Hb, He.
  destruct payload as [a'|]; cbn [from_option id conflicting]; [|cbn; by rewrite Z.add_0_r].
  case_bool_decide as E1; [rewrite bool_decide_eq_false_2 by done; cbn; by rewrite Z.add_0_r|].
  rewrite (bool_decide_eq_true_2 (rv_registration_canonical_hash (ac_registration_view a') = hash)) by done.
  rewrite binding_eq. cbn [andb]. destruct (decide (extract_binding a' = extract_binding a)) as [Eb|Eb].
  - rewrite bool_decide_eq_true_2, bool_decide_eq_false_2 by auto. by rewrite Z.add_0_r.
  - by rewrite bool_decide_eq_false_2, bool_decide_eq_true_2 by done.
Qed.

(** A run past its start keeps its binding and counts the conflicts. *)
Lemma step_first_wins s e s' a hash :
  bound_to (ws_fields s) a -> expects (ws_fields s) hash -> ws_control s <> NotStarted ->
  step s e = Some s' ->
  bound_to (ws_fields s') a /\ expects (ws_fields s') hash /\ ws_control s' <> NotStarted /\
  wf_conflicting_replays (ws_fields s') =
    (wf_conflicting_replays (ws_fields s) + if conflicting hash a e then 1 else 0)%Z.
Proof.
  intros Ha He Hn. destruct e as [input|payload| | | | | |ref|t]; cbn [step]; unfold on_signal.
  - by destruct (ws_control s).
  - destruct (closed _); [done|]. intros [= <-].
    destruct (confirmed_conflict payload _ a hash Ha He) as [Hc He'].
    split_and!; [by apply confirmed_bound|done..].
  - destruct (closed _); [done|]. intros [= <-]. cbn. by rewrite Z.add_0_r.
  - destruct (closed _); [done|]. intros [= <-]. cbn. by rewrite Z.add_0_r.
  - destruct (closed _); [done|]. intros [= <-]. cbn. by rewrite Z.add_0_r.
  - destruct (ws_control s) as [|input|b a'|b t|b|b|o|e] eqn:E; try done;
      intros (c & Hc & ->)%fmap_Some; cbn; rewrite Z.add_0_r; (split_and!; [done..| |done]); intros ->.
    + unfold after_binding in Hc. destruct (wf_aborted _); [done|].
      destruct (wf_binding (ws_fields s)); [|done]. by destruct (wf_pending_accepted (ws_fields s)).
    + unfold after_window, past_timer, after_pause in Hc. destruct (_ || _); [|done].
      by destruct (wf_aborted (ws_fields s)), (wf_paused (ws_fields s)).
    + unfold after_pause in Hc. by destruct (wf_aborted (ws_fields s)), (wf_paused (ws_fields s)).
  - destruct (ws_control s) as [|input|b a'|b t|b|b|o|e] eqn:E; try done.
    destruct (derive_window a') as [[w|]|]; cbn; try done; intros [= <-]; cbn; rewrite Z.add_0_r;
      [|done]. split_and!; [done..| |done]. destruct (_ && _); [done|].
    unfold past_timer, after_pause. cbn. by destruct (wf_aborted (ws_fields s)), (wf_paused (ws_fields s)).
  - destruct (ws_control s); try done. intros [= <-]. cbn. by rewrite Z.add_0_r.
  - destruct (_ <=? _)%Z; [|done]. intros [= <-]. cbn. by rewrite Z.add_0_r.
Qed.

(** the first confirmation wins.  Once a started run is bound to an
    acceptance, it stays bound to it whatever is signalled after; every later
    confirmation of the registration with another key or content is counted as
    a conflicting replay, exactly once, and duplicates and confirmations of
    other registrations change nothing that is counted or bound; and an
    outcome names the key of that first acceptance. *)
Theorem first_confirmation_wins now es1 s1 es2 s2 a hash :
  steps (initial now) es1 = Some s1 -> ws_control s1 <> NotStarted ->
  bound_to (ws_fields s1) a -> expects (ws_fields s1) hash -> steps s1 es2 = Some s2 ->
  bound_to (ws_fields s2) a /\
  wf_conflicting_replays (ws_fields s2) = (wf_conflicting_replays (ws_fields s1) + conflicts hash a es2)%Z /\
  (forall o, ws_control s2 = Returned o -> mo_idempotency_key o = key_of a).
Proof.
  intros Hs1 Hn Ha He Hs2.
  assert (bound_to (ws_fields s2) a /\ wf_conflicting_replays (ws_fields s2)
          = (wf_conflicting_replays (ws_fields s1) + conflicts hash a es2)%Z) as [Ha2 Hc].
  { clear Hs1. revert s1 Hn Ha He Hs2. induction es2 as [|e es2 IH]; intros s1 Hn Ha He; cbn [steps].
    - intros [= <-]. split; [done|]. change (conflicts hash a []) with 0%Z. lia.
    - intros (s & Hs & Hs2)%bind_Some. rewrite conflicts_cons.
      destruct (step_first_wins _ _ _ _ _ Ha He Hn Hs) as (Ha' & He' & Hn' & Hc').
      destruct (IH _ Hn' Ha' He' Hs2) as [Ha2 Hc2]. split; [done|]. lia. }
  split_and!; [done..|]. intros o Ho.
  pose proof (steps_ok _ _ _ (steps_ok _ _ _ (initial_ok now) Hs1) Hs2) as [_ Hok]. rewrite Ho in Hok.
  assert (forall x, bound_to (ws_fields s2) x -> x = a) as Heq.
  { intros x [Hx _]. destruct Ha2 as [Ha2 _]. congruence. }
  cbn in Hok. destruct (mo_status o).
  - destruct Hok as (b & ref & (x & w & Hx & -> & _) & ->). by rewrite (Heq x Hx).
  - destruct Hok as (x & Hx & _ & ->). by rewrite (Heq x Hx).
  - destruct Hok as [_ [[Hun _]|(x & Hx & ->)]]; [destruct Ha2; congruence|by rewrite (Heq x Hx)].
Qed.

(** An aborted run that has not scheduled its decision. *)
Definition abort_ok (s : WorkflowState) : Prop :=
  wf_aborted (ws_fields s) = true /\
  match ws_control s with
  | AwaitDecide _ => False
  | Returned o => mo_status o <> DECIDED
  | _ => True
  end.

(** One that waits for anything but its window. *)
Definition abort_sure (s : WorkflowState) : Prop :=
  wf_aborted (ws_fields s) = true /\
  match ws_control s with
  | AwaitDecide _ | AwaitDerive _ _ => False
  | Returned o => mo_status o = UNDETERMINED_ABORTED
  | _ => True
  end.

Lemma aborted_confirmed payload f : wf_aborted (deployment_confirmed payload f) = wf_aborted f.
Proof. unfold deployment_confirmed. by destruct (classify_confirmation_signal _ _ _), payload. Qed.

(** An aborted run stays aborted, and every resumption returns [aborted]. *)
Lemma step_aborted s e s' :
  wf_aborted (ws_fields s) = true -> step s e = Some s' ->
  wf_aborted (ws_fields s') = true /\
  (ws_control s' = ws_control s \/
   (exists key, ws_control s' = Returned (aborted_outcome key)) \/
   (exists b a, ws_control s = AwaitDerive b a /\
      ws_control s' = Returned (deployment_late_outcome (wb_idempotency_key b))) \/
   (exists b ref, ws_control s = AwaitDecide b /\
      ws_control s' = Returned (decided_outcome (wb_idempotency_key b) ref))).
Proof.
  intros Ha. destruct e as [input|payload| | | | | |ref|t]; cbn [step]; unfold on_signal.
  - destruct (ws_control s) eqn:E; try done. intros [= <-]. split; [done|]. right; left. cbn.
    unfold after_binding. cbn. rewrite Ha. by eexists.
  - destruct (closed _); [done|]. intros [= <-]. cbn. rewrite aborted_confirmed. auto.
  - destruct (closed _); [done|]. intros [= <-]. cbn. auto.
  - destruct (closed _); [done|]. intros [= <-]. cbn. auto.
  - destruct (closed _); [done|]. intros [= <-]. cbn. auto.
  - destruct (ws_control s) as [|input|b a|b t|b|b|o|e] eqn:E; try done;
      intros (c & Hc & ->)%fmap_Some; (split; [done|]); right; left; cbn.
    + unfold after_binding in Hc. rewrite Ha in Hc. injection Hc as <-. by eexists.
    + unfold after_window, past_timer in Hc. rewrite Ha in Hc. injection Hc as <-. by eexists.
    + unfold after_pause in Hc. rewrite Ha in Hc. injection Hc as <-. by eexists.
  - destruct (ws_control s) as [|input|b a|b t|b|b|o|e] eqn:E; try done.
    destruct (derive_window a) as [[w|]|]; cbn; try done; intros [= <-]; cbn; (split; [done|]).
    + right; left. rewrite Ha, andb_false_r. unfold past_timer. cbn. rewrite Ha. by eexists.
    + right; right; left. by exists b, a.
  - destruct (ws_control s) eqn:E; try done. intros [= <-]. split; [done|]. right; right; right.
    by eexists _, _.
  - destruct (_ <=? _)%Z; [|done]. intros [= <-]. cbn. auto.
Qed.

Lemma step_abort_ok s e s' : abort_ok s -> step s e = Some s' -> abort_ok s'.
Proof.
  intros [Ha Hc] Hs. destruct (step_aborted _ _ _ Ha Hs) as [Ha' [Hc'|[[key Hc']|[(b & a & _ & Hc')|(b & ref & Hb & _)]]]];
    split; try done; rewrite ?Hc'; try done. by rewrite Hb in Hc.
Qed.

Lemma step_abort_sure s e s' : abort_sure s -> step s e = Some s' -> abort_sure s'.
Proof.
  intros [Ha Hc] Hs. destruct (step_aborted _ _ _ Ha Hs) as [Ha' [Hc'|[[key Hc']|[(b & a & Hb & Hc')|(b & ref & Hb & _)]]]];
    split; try done; rewrite ?Hc'; try done; by rewrite Hb in Hc.
Qed.

Lemma steps_inv (P : WorkflowState -> Prop) s es s' :
  (forall s e s', P s -> step s e = Some s' -> P s') -> P s -> steps s es = Some s' -> P s'.
Proof.
  intros HP. revert s. induction es as [|e es IH]; intros s Hs; cbn [steps]; [by intros [= <-]|].
  intros (s1 & Hs1 & Hes)%bind_Some. eapply IH; [by eapply HP|done].
Qed.

(** an abort is not dropped while the window is open.  After an abort
    signal to a run that has not yet scheduled its decision, whatever follows:
    the decision is never scheduled and the outcome is never a decided one; and
    unless the run was waiting for the window to be derived (which may find it
    late), the outcome is [aborted]. *)
Theorem abort_wins s s1 es s2 :
  step s AbortMeasurement = Some s1 -> (forall b, ws_control s <> AwaitDecide b) ->
  steps s1 es = Some s2 ->
  (forall b, ws_control s2 <> AwaitDecide b) /\
  (forall o, ws_control s2 = Returned o -> mo_status o <> DECIDED) /\
  ((forall b a, ws_control s <> AwaitDerive b a) ->
   forall o, ws_control s2 = Returned o -> mo_status o = UNDETERMINED_ABORTED).
Proof.
  cbn [step]. unfold on_signal. destruct (closed (ws_control s)) eqn:E; [done|]. intros [= <-] Hd Hs.
  assert (abort_ok s2) as [_ Hok].
  { eapply steps_inv; [exact step_abort_ok| |exact Hs]. split; [done|]. cbn.
    destruct (ws_control s) eqn:Ec; try done. by eapply Hd. }
  split_and!.
  - intros b Hb. by rewrite Hb in Hok.
  - intros o Ho. by rewrite Ho in Hok.
  - intros Hder o Ho. assert (abort_sure s2) as [_ Hsure]; [|by rewrite Ho in Hsure].
    eapply steps_inv; [exact step_abort_sure| |exact Hs]. split; [done|]. cbn.
    destruct (ws_control s) eqn:Ec; try done; [by eapply Hder|by eapply Hd].
Qed.

(** *** Completion *)

(** The coroutine steps still ahead of a wait. *)
Definition rank (c : Control) : nat :=
  match c with
  | NotStarted => 6 | AwaitBinding _ => 5 | AwaitDerive _ _ => 4 | AwaitWindowEnd _ _ => 3
  | AwaitUnpaused _ => 2 | AwaitDecide _ => 1 | Returned _ | Failed _ => 0
  end.

(** The events that run the coroutine. *)
Definition advances (e : event) : bool :=
  match e with RunStarts _ | Resumed | WindowDerived | OutcomeDecided _ => true | _ => false end.

Lemma past_timer_rank b f : (rank (past_timer b f) <= 2)%nat.
Proof. unfold past_timer, after_pause. destruct (wf_aborted f), (wf_paused f); cbn; lia. Qed.

Lemma step_rank s e s' :
  step s e = Some s' -> (rank (ws_control s') + (if advances e then 1 else 0) <= rank (ws_control s))%nat.
Proof.
  destruct e as [input|payload| | | | | |ref|t]; cbn [step advances]; unfold on_signal;
    try (destruct (closed _); [done|]; intros [= <-]; cbn; lia).
  - destruct (ws_control s); try done. intros [= <-]. cbn [ws_control with_control].
    pose proof (after_binding_shape input (set_expected (ws_fields s) (wi_expected_registration_hash input))) as Hsh.
    destruct (default _ _); cbn in *; try done; lia.
  - destruct (ws_control s) as [|input|b a|b t|b|b|o|e] eqn:E; try done;
      intros (c & Hc & ->)%fmap_Some; cbn [ws_control with_control].
    + unfold after_binding in Hc. destruct (wf_aborted (ws_fields s)); [injection Hc as <-; cbn; lia|].
      destruct (wf_binding (ws_fields s)); [|done].
      destruct (wf_pending_accepted (ws_fields s)); injection Hc as <-; cbn; lia.
    + unfold after_window in Hc. destruct (_ || _); [|done]. injection Hc as <-.
      pose proof (past_timer_rank b (ws_fields s)). cbn. lia.
    + unfold after_pause in Hc. destruct (wf_aborted (ws_fields s)); [injection Hc as <-; cbn; lia|].
      destruct (wf_paused (ws_fields s)); [done|]. injection Hc as <-. cbn. lia.
  - destruct (ws_control s) as [|input|b a|b t|b|b|o|e] eqn:E; try done.
    destruct (derive_window a) as [[w|]|]; cbn; try done; intros [= <-]; cbn; [|lia].
    destruct (_ && _); cbn; [lia|]. pose proof (past_timer_rank b (set_window_days (ws_fields s) (mw_window_days w))). lia.
  - destruct (ws_control s); try done. intros [= <-]. cbn. lia.
  - destruct (_ <=? _)%Z; [|done]. intros [= <-]. cbn. lia.
Qed.

Lemma steps_rank s es s' :
  steps s es = Some s' ->
  (rank (ws_control s') + length (filter (fun e => advances e = true) es) <= rank (ws_control s))%nat.
Proof.
  revert s. induction es as [|e es IH]; intros s; cbn [steps].
  - intros [= <-]. cbn. lia.
  - intros (s1 & Hs & Hes)%bind_Some. apply step_rank in Hs. apply IH in Hes. rewrite filter_cons.
    destruct (decide _) as [E|E]; [rewrite E in Hs; cbn [length]; lia|]. lia.
Qed.

(** The rest of a bound run whose window has closed and that is neither
    aborted nor paused. *)
Definition rest_of (c : Control) (input : MeasurementWorkflowInput) (ref : pystr) : list event :=
  match c with
  | NotStarted => [RunStarts input; WindowDerived; OutcomeDecided ref]
  | AwaitBinding _ => [Resumed; WindowDerived; OutcomeDecided ref]
  | AwaitDerive _ _ => [WindowDerived; OutcomeDecided ref]
  | AwaitWindowEnd _ _ | AwaitUnpaused _ => [Resumed; OutcomeDecided ref]
  | AwaitDecide _ => [OutcomeDecided ref]
  | Returned _ | Failed _ => []
  end.

Lemma past_timer_decides b f :
  wf_aborted f = false -> wf_paused f = false -> past_timer b f = AwaitDecide b.
Proof. intros Ha Hp. unfold past_timer, after_pause. by rewrite Ha, Hp. Qed.

Lemma after_binding_derives input f a :
  wf_aborted f = false -> bound_to f a -> after_binding input f = Some (AwaitDerive (extract_binding a) a).
Proof. intros Ha [Hp Hb]. unfold after_binding. by rewrite Ha, Hp, Hb. Qed.

(** From the derivation on, past the end of the window. *)
Lemma derived_decides s a w ref :
  ws_control s = AwaitDerive (extract_binding a) a ->
  wf_aborted (ws_fields s) = false -> wf_paused (ws_fields s) = false ->
  derive_window a = Ok (Some w) -> (instant (mw_end w) <= ws_now s)%Z ->
  exists s', steps s [WindowDerived; OutcomeDecided ref] = Some s' /\
    ws_control s' = Returned (decided_outcome (key_of a) ref).
Proof.
  intros Hc Ha Hp Hd Hw. cbn [steps step]. rewrite Hc, Hd. cbn [after_derive].
  rewrite (proj2 (Z.ltb_ge 0 _)) by lia. cbn [andb].
  rewrite past_timer_decides by done. cbn. by eexists.
Qed.

Lemma rest_decides s a w input ref :
  state_ok s -> closed (ws_control s) = false -> bound_to (ws_fields s) a ->
  wf_aborted (ws_fields s) = false -> wf_paused (ws_fields s) = false ->
  derive_window a = Ok (Some w) -> (instant (mw_end w) <= ws_now s)%Z ->
  exists s', steps s (rest_of (ws_control s) input ref) = Some s' /\
    ws_control s' = Returned (decided_outcome (key_of a) ref).
Proof.
  intros [_ Hok] Hcl Ha Hab Hp Hd Hw.
  assert (forall x, bound_to (ws_fields s) x -> x = a) as Heq.
  { intros x [Hx _]. destruct Ha as [Ha _]. congruence. }
  destruct (ws_control s) as [|i|b x|b t|b|b|o|e] eqn:E; try done; cbn [rest_of]; cbn in Hok.
  - cbn [steps step]. rewrite E, (after_binding_derives _ _ a) by done.
    by apply (derived_decides _ a w ref).
  - cbn [steps step]. rewrite E, (after_binding_derives _ _ a) by done.
    by apply (derived_decides _ a w ref).
  - destruct Hok as [Hx ->]. rewrite (Heq x Hx) in *. by apply (derived_decides _ a w ref).
  - destruct Hok as (x & w' & Hx & -> & Hd' & ->). rewrite (Heq x Hx) in *.
    assert (w' = w) as -> by congruence. cbn [steps step]. rewrite E. unfold after_window.
    rewrite (proj2 (Z.leb_le _ _)) by done. rewrite orb_true_r, past_timer_decides by done.
    cbn. by eexists.
  - destruct Hok as (x & w' & Hx & -> & _). rewrite (Heq x Hx) in *. cbn [steps step]. rewrite E.
    unfold after_pause. rewrite Hab, Hp. cbn. by eexists.
  - destruct Hok as (x & w' & Hx & -> & _). rewrite (Heq x Hx) in *. cbn [steps step]. rewrite E.
    cbn. by eexists.
Qed.

(** A late deployment: up to the derivation, which closes the run. *)
Lemma derived_late s a :
  ws_control s = AwaitDerive (extract_binding a) a -> derive_window a = Ok None ->
  exists s', steps s [WindowDerived] = Some s' /\ ws_control s' = Returned (deployment_late_outcome (key_of a)).
Proof. intros Hc Hd. cbn [steps step]. rewrite Hc, Hd. cbn. by eexists. Qed.

Lemma late_returns s a input :
  state_ok s -> closed (ws_control s) = false -> bound_to (ws_fields s) a ->
  wf_aborted (ws_fields s) = false -> derive_window a = Ok None ->
  exists s', steps s (match ws_control s with
                      | NotStarted => [RunStarts input; WindowDerived]
                      | AwaitBinding _ => [Resumed; WindowDerived]
                      | _ => [WindowDerived] end) = Some s' /\
    ws_control s' = Returned (deployment_late_outcome (key_of a)).
Proof.
  intros [_ Hok] Hcl Ha Hab Hd.
  assert (forall x, bound_to (ws_fields s) x -> x = a) as Heq.
  { intros x [Hx _]. destruct Ha as [Ha _]. congruence. }
  destruct (ws_control s) as [|i|b x|b t|b|b|o|e] eqn:E; try done; cbn in Hok.
  1-2: cbn [steps step]; rewrite E, (after_binding_derives _ _ a) by done; by apply (derived_late _ a).
  - destruct Hok as [Hx ->]. rewrite (Heq x Hx) in *. by apply (derived_late _ a).
  - destruct Hok as (x & w' & Hx & -> & Hd' & _). rewrite (Heq x Hx) in *. congruence.
  - destruct Hok as (x & w' & Hx & -> & Hd' & _). rewrite (Heq x Hx) in *. congruence.
  - destruct Hok as (x & w' & Hx & -> & Hd' & _). rewrite (Heq x Hx) in *. congruence.
Qed.

(** C32: the workflow terminates.  Any run, whatever is signalled and however
    often, makes at most six coroutine steps, the last one returning; and every
    reachable state of a run that is bound to an acceptance, not aborted and not
    finished, can be brought to the outcome of that acceptance, provided the
    derivation of the window answers for it: with a window, a resume signal, the
    passage of time to its end and the remaining coroutine steps lead to the
    decided outcome; without one, for a late deployment, the steps up to the
    derivation lead to the deployment-late outcome. *)
Theorem workflow_completes now es s :
  steps (initial now) es = Some s ->
  (length (filter (fun e => advances e = true) es) <= 6)%nat /\
  forall a input ref,
    bound_to (ws_fields s) a -> wf_aborted (ws_fields s) = false -> closed (ws_control s) = false ->
    match derive_window a with
    | Ok (Some w) =>
        exists s', steps s ([Resume; TimePasses (Z.max (ws_now s) (instant (mw_end w)))]
                            ++ rest_of (ws_control s) input ref) = Some s' /\
          ws_control s' = Returned (decided_outcome (key_of a) ref)
    | Ok None =>
        exists es' s', steps s es' = Some s' /\ ws_control s' = Returned (deployment_late_outcome (key_of a))
    | Raise _ => True
    end.
Proof.
  intros Hes. split; [apply steps_rank in Hes; cbn in Hes; lia|].
  intros a input ref Ha Hab Hcl. pose proof (steps_ok _ _ _ (initial_ok now) Hes) as Hok.
  destruct (derive_window a) as [[w|]|e] eqn:Hd; [|by destruct (late_returns s a input) as (s' & Hs' & Hr); eauto|done].
  set (T := Z.max (ws_now s) (instant (mw_end w))).
  set (s1 := {| ws_fields := resume (ws_fields s); ws_control := ws_control s; ws_now := T |}).
  assert (steps s [Resume; TimePasses T] = Some s1) as Hs1.
  { cbn [steps step]. unfold on_signal. rewrite Hcl. cbn.
    rewrite (proj2 (Z.leb_le _ _)) by (unfold T; lia). done. }
  rewrite steps_app, Hs1. cbn [mbind option_bind].
  change (ws_control s) with (ws_control s1). apply (rest_decides s1 a w); try done.
  - exact (steps_ok _ _ _ Hok Hs1).
  - cbn. unfold T. lia.
Qed.

(** ** The theorems at concrete inputs *)

Module Witness.
Definition acceptance1 : Accepted := {|
  ac_confirmation := Confirmation.Witness.confirmation1;
  ac_registration_view := Confirmation.Witness.view1;
  ac_server_received_at := Confirmation.Witness.received1;
  ac_content_fingerprint := u "sha256:11"
|}.

(** Other content under the same key. *)
Definition acceptance2 : Accepted := {|
  ac_confirmation := Confirmation.Witness.confirmation1;
  ac_registration_view := Confirmation.Witness.view1;
  ac_server_received_at := Confirmation.Witness.received1;
  ac_content_fingerprint := u "sha256:22"
|}.

Definition input1 : MeasurementWorkflowInput :=
  {| wi_expected_registration_hash := u "sha256:ab"; wi_run_id := u "run-1" |}.

Definition start : Z := instant Confirmation.Witness.received1.
Definition week_later : Z := (start + 7 * DAY)%Z.

Definition full_run : list event :=
  [RunStarts input1; DeploymentConfirmed (Some acceptance1); DeploymentConfirmed (Some acceptance2);
   Resumed; WindowDerived; PauseObservation; TimePasses week_later; Resumed; Resume; Resumed;
   OutcomeDecided (u "ref-1")].

Definition outcome_of (es : list event) : option MeasurementOutcome :=
  match steps (initial start) es with
  | Some s => match ws_control s with Returned o => Some o | _ => None end
  | None => None
  end.

Example full_run_decides : outcome_of full_run = Some (decided_outcome (u "k-1") (u "ref-1")).
Proof. vm_compute. reflexivity. Qed.

(** Before its end the window does not resume the run. *)
Example no_early_decision :
  is_Some (steps (initial start) (firstn 5 full_run)) /\
  steps (initial start) (firstn 5 full_run ++ [TimePasses (week_later - 1); Resumed]) = None.
Proof. split; [eexists|]; vm_compute; reflexivity. Qed.

(** A confirmation signalled before [run] starts is checked against no
    registration, refused, and the started run keeps waiting for it. *)
Example early_confirmation_is_lost :
  match steps (initial start) [DeploymentConfirmed (Some acceptance1); RunStarts input1] with
  | Some s => ws_control s = AwaitBinding input1 /\ wf_binding (ws_fields s) = None
  | None => False
  end.
Proof. vm_compute. by split. Qed.

(** An abort during the decision is dropped. *)
Example abort_during_decision :
  outcome_of (firstn 10 full_run ++ [AbortMeasurement; OutcomeDecided (u "ref-1")])
  = Some (decided_outcome (u "k-1") (u "ref-1")).
Proof. vm_compute. reflexivity. Qed.

Lemma outcome_has_ground_witness :
  exists a w ref,
    DeploymentConfirmed (Some a) ∈ full_run /\ derive_window a = Ok (Some w) /\
    (instant (mw_end w) <= week_later)%Z /\ OutcomeDecided ref ∈ full_run /\
    decided_outcome (u "k-1") (u "ref-1") = decided_outcome (key_of a) ref.
Proof.
  destruct (steps (initial start) full_run) as [s|] eqn:E; [|by vm_compute in E].
  destruct (outcome_has_ground start full_run s E) as (_ & _ & Hout).
  assert (outcome_of full_run = Some (decided_outcome (u "k-1") (u "ref-1"))) as Ho
    by (vm_compute; reflexivity).
  unfold outcome_of in Ho. rewrite E in Ho.
  destruct (ws_control s) eqn:Ec; try done. injection Ho as ->.
  assert (ws_now s = week_later) as <-.
  { assert (ws_now <$> steps (initial start) full_run = Some week_later) as Hn by (vm_compute; reflexivity).
    rewrite E in Hn. by injection Hn. }
  exact (Hout _ eq_refl).
Defined.

Definition hash1 : pystr := u "sha256:ab".

Lemma first_confirmation_wins_witness :
  exists s1 s2, steps (initial start) (firstn 2 full_run) = Some s1 /\
    steps s1 (skipn 2 full_run) = Some s2 /\ bound_to (ws_fields s2) acceptance1 /\
    wf_conflicting_replays (ws_fields s2) = 1%Z.
Proof.
  destruct (steps (initial start) (firstn 2 full_run)) as [s1|] eqn:E1; [|by vm_compute in E1].
  assert (match steps (initial start) (firstn 2 full_run) with
          | Some s => ws_control s = AwaitBinding input1 /\
              wf_pending_accepted (ws_fields s) = Some acceptance1 /\
              wf_binding (ws_fields s) = Some (extract_binding acceptance1) /\
              expects (ws_fields s) hash1 /\ wf_conflicting_replays (ws_fields s) = 0%Z /\
              is_Some (steps s (skipn 2 full_run))
          | None => False end) as Hs1.
  { cbn [firstn full_run steps step]. split_and!; try reflexivity. eexists. vm_compute. reflexivity. }
  rewrite E1 in Hs1. destruct Hs1 as (Hc & Hp & Hb & He & H0 & [s2 E2]).
  exists s1, s2. split; [done|]. split; [done|].
  destruct (first_confirmation_wins start (firstn 2 full_run) s1 (skipn 2 full_run) s2 acceptance1 hash1
    E1 ltac:(by rewrite Hc) (conj Hp Hb) He E2) as (Hb2 & Hn & _).
  split; [done|]. rewrite Hn, H0. vm_compute. reflexivity.
Defined.

Lemma abort_wins_witness :
  exists s s1 s2, steps (initial start) (firstn 6 full_run) = Some s /\
    step s AbortMeasurement = Some s1 /\ steps s1 [Resumed] = Some s2 /\
    forall b, ws_control s2 <> AwaitDecide b.
Proof.
  destruct (steps (initial start) (firstn 6 full_run)) as [s|] eqn:E; [|by vm_compute in E].
  assert (match steps (initial start) (firstn 6 full_run) with
          | Some s => match ws_control s with AwaitWindowEnd _ _ => True | _ => False end /\
              match step s AbortMeasurement with Some s1 => is_Some (steps s1 [Resumed]) | None => False end
          | None => False end) as Hs by (vm_compute; split; [exact I|eexists; reflexivity]).
  rewrite E in Hs. destruct Hs as [Hc Hs]. destruct (step s AbortMeasurement) as [s1|] eqn:E1; [|done].
  destruct Hs as [s2 E2]. exists s, s1, s2. split; [done|]. split; [done|]. split; [done|].
  apply (abort_wins s s1 [Resumed] s2 E1); [|done]. intros b Hb. by rewrite Hb in Hc.
Defined.

Lemma workflow_completes_witness :
  exists s, steps (initial start) (firstn 6 full_run) = Some s /\
    (length (filter (fun e => advances e = true) (firstn 6 full_run)) <= 6)%nat.
Proof.
  destruct (steps (initial start) (firstn 6 full_run)) as [s|] eqn:E; [|by vm_compute in E].
  exists s. split; [done|]. exact (proj1 (workflow_completes start (firstn 6 full_run) s E)).
Defined.
End Witness.
